(* ===== verification/_CoqProject ===== *)
-Q . S2P
Prelude.v
Sys.v
Rpc.v
Sockets.v
Intercept.v
Svc.v
Phy.v
Addr.v
Conn.v
Tap.v
Proxy.v
Pico.v
Lwip.v
Dispatch.v
Frames.v
Stream.v
Buffer.v
Hashtable.v
Utils.v
Dictionary.v
Wire.v
Com.v
Membership.v
Words.v
Filter.v
Lz4.v
Lz4Block.v
Lz4Compress.v
Poly1305.v
Salsa20.v
Packet.v
Compression.v
Switch.v
Reassembly.v
SwitchSafe.v
Transmit.v
Sending.v
