(* ===== verification/Prelude.v ===== *)
(** * ZeroTier SDK: verification development

    The ZeroTier SDK gives unmodified applications sockets on a virtual network.  An
    application calls the socket API of a client library, directly or through
    interposed C library functions; the library turns a call into a message to a
    service process over Unix sockets.  The service pairs the message with the
    socket it is about, performs it on a user-space TCP/IP stack (picoTCP or lwIP),
    moves the bytes between the application's socket and the stack, and exchanges
    Ethernet frames with the ZeroTier node, the virtual network underneath.

    ** Parts and files

    Client process:
    - Sys.v: C programs as trees of library calls; [run] gives them to an
      environment, [with_lock] adds the process mutex and errno, [all_calls] states
      a property of every call a program can make.
    - Rpc.v (src/rpc.c, rpc.h; unloadRPC and sendReturnValue of tap.cpp): the
      message layout, [rpc_send_command], [rpc_join], [get_retval], passing of
      descriptors.
    - Sockets.v (src/sockets.c): the [zts_] functions.
    - Intercept.v (src/intercept.c): the interposed functions.

    Service process:
    - Svc.v: the state monad of the service thread: a trace of the calls that leave
      the program, answered by an oracle, the mutexes the thread holds, and the
      interface of the stacks.
    - Phy.v (zto/osdep/Phy.hpp): the select loop.
    - Addr.v (zto/node/Address, MAC, MulticastGroup, InetAddress): address types.
    - Conn.v, Tap.v (src/tap.hpp, tap.cpp): connections and their table; the
      handlers of the tap, against the interface [Driver] of a stack driver.
    - Proxy.v (src/proxy.cpp): the SOCKS5 proxy.
    - Pico.v, Lwip.v (src/stack_drivers): the two drivers, instances of [Driver].
    - Dispatch.v, Frames.v, Stream.v: theorems that compose the tap with the RPC
      layer, the frame path and the drivers.

    Containers of the node (zto/node), which the parts of the node share:
    - Buffer.v (Buffer.hpp), Hashtable.v (Hashtable.hpp), Utils.v (Utils.hpp,
      Utils.cpp), Dictionary.v (Dictionary.hpp).
    - Wire.v (appendTo and serialize of Address.hpp, MAC.hpp, InetAddress.hpp):
      serializers as sequences of [Buffer] methods, readers that may throw.
    - Com.v (CertificateOfMembership.hpp, .cpp): certificates of membership.

    Networks of the node (zto/node):
    - Membership.v (Membership.hpp, .cpp; Tag.hpp, Capability.hpp, Revocation.hpp and
      CertificateOfOwnership.hpp, .cpp): the credentials a member has presented, as
      arrays of slots and sorted pointers to them, for any type of the class
      [Credential]; [std::sort] is a parameter of the class [StdSort].
    - Filter.v (Network.cpp): the rules engine [_doZtFilter], and what a network does
      with outgoing and incoming frames; the random numbers are an argument.

    The packet layer of the node (zto/node):
    - Words.v: arithmetic and rotations of machine words, bits as sums.
    - Poly1305.v (Poly1305.cpp), Salsa20.v (Salsa20.cpp): the authenticator and the
      cipher, each in the two implementations a build chooses from, behind the
      interfaces [Poly] and [Salsa]; the classes [Authenticator] and [StreamCipher]
      are what a client may rely on.
    - Packet.v (Packet.hpp, Packet.cpp): headers, fragments, [armor], [dearmor] and
      [cryptField] over [Buffer], against these classes.
    - Lz4.v (the LZ4 code in Packet.cpp): the compressor and the decompressor.
      Lz4Block.v: the block format, a reference decoder, and proofs about the
      decompressor.  Lz4Compress.v: proofs about the compressor.
    - Compression.v (Packet.cpp): [compress] and [uncompress] of a packet.
    - Switch.v (Switch.hpp, Switch.cpp, IncomingPacket.hpp): what the node does with
      a datagram, and how a packet is cut into datagrams; the rest of the node is the
      record of operations [Env].
    - Reassembly.v: proofs about the receive queue and the two switches a packet
      goes through.  SwitchSafe.v: type safety against the contract [env_ok].
    - Transmit.v (Switch.hpp, Switch.cpp): the transmit queue, WHOIS requests, timers
      and the mutexes of the switch.  Sending.v: proofs about them against the
      contract [tx_env_ok].

    Prelude.v has machine integers, byte strings, undefined behaviour as a value,
    C objects as byte arrays, the tactics and the lemmas the files share.

    ** Modelling

    A C integer is a [Z] and its width is written out where it matters ([wrap],
    [swrap]).  An object is the list of its bytes; [memcpy] and the like outside an
    object give [Undef OutOfBounds], a dead or null pointer, a second lock of a held
    mutex, a [memcpy] between overlapping bytes and a shift by the width give their
    own [Undef].  So a theorem that a
    function is [Ok] says that it has no such behaviour.  Client functions are
    programs of type [prog], service functions state passing of type [M]; in both
    the kernel, the stacks and the node are arguments, and a theorem holds for all
    of them or names what it needs ([Serving], [PicoWrites], [LwOutputs], [sized]).
    Exceptions of [Buffer] are results.  Uninitialised memory is an argument: the
    theorems hold for all contents of the stack and of a new buffer.

    ** What the theorems show

    - Wire: what the client packs the service unpacks (Rpc.rpc_message_roundtrip);
      the API sends exactly the caller's arguments and returns
      the service's answer (Sockets.api_wire, api_returns, the lemmas recvfrom_datagram
      and msg_gather_scatter); local sockets stay with the kernel
      (the lemma Intercept.intercept_local); a command is paired with its token
      (Dispatch.command_dispatch).
    - Data: the application's stream reaches either stack in order and complete
      (Stream.pico_stream_in_order, lwip_stream_in_order); the frame buffer is a
      queue (Frames.pico_frame_queue) and frames keep their header (the lemma
      Frames.eth_frame_roundtrip).
    - Invariants: the connection table is sound in every reachable state of either
      service (Pico.pico_reachable_table, Lwip.lwip_reachable_table), the select loop
      keeps its sets (Phy.poll_keeps_invariant).
    - Mutexes: released on every regular path (the lemma
      Rpc.rpc_send_command_releases_lock), never taken twice by a service thread (Pico.pico_loop_locks,
      Lwip.lwip_loop_locks); the connection loop of the client ends
      (the lemma Rpc.rpc_join_connects).
    - Values and containers: addresses (the lemmas Addr.mac_address_roundtrip,
      inet_order and inet_network); [Hashtable] refines a finite map and [Buffer] a bounded byte
      string for every sequence of calls (Hashtable.hashtable_refines_map,
      Buffer.buffer_refines_bytes); the pointer loops of [Dictionary] are a lookup in
      a text, and values of every type survive it (Dictionary.dictionary_roundtrip, the
      lemmas dictionary_get and dictionary_typed); IP addresses and
      certificates survive a packet, and reading them is defined on every packet (the
      lemmas Wire.inet_wire_roundtrip, Com.com_wire_roundtrip).
    - Certificates: an update keeps the qualifiers sorted and drops the signature
      (the lemma Com.com_setQualifier); the agreement test returns and compares values by
      position, which is the documented test when the ids are aligned
      (Com.com_agreesWith) and is not when the other certificate has more of them
      (the lemma Com.com_agreesWith_extra).
    - Credentials: those of a member are a bounded finite map under every sequence of
      credentials and revocations (Membership.credentials_refine_map), and what was
      revoked is not returned again (revoked_stays_revoked).
    - Rules: the loop over the rules gives the verdict of their sets and reads only
      the bytes of the frame (Filter.rules_meaning); which frames are accepted and
      which packets are sent for them (outgoing_frames, incoming_frames).
    - Cryptography: both implementations of Poly1305 compute the polynomial over the
      integers modulo 2^130-5 (Poly1305.poly1305_correct), both of Salsa20 the
      keystream of its specification (Salsa20.salsa20_correct).
    - Packets: [dearmor] undoes [armor] across relays and implementations
      (Compression.packet_delivery, the lemmas Packet.packet_roundtrip and
      packet_field_roundtrip) and accepts exactly what has
      the right authenticator (Packet.packet_authentication); headers (the lemma
      packet_header).
    - Compression: the decompressor is the reference decoder and stays inside of its
      buffers (Lz4Block.decompress_correct), it undoes the compressor
      (Lz4Compress.lz4_roundtrip); [uncompress] is defined for every packet
      (Compression.packet_uncompress), and a packet that is compressed, armored,
      relayed, dearmored and uncompressed is the one sent (packet_delivery).
    - Switch: a fragmented packet reaches the decoder of its receiver in whatever
      order its datagrams arrive (Reassembly.fragmented_delivery), and no datagram
      makes the switch do something undefined (SwitchSafe.switch_type_safety).  Sending
      never deadlocks although the switch sends while its queue is locked
      (Sending.sending_never_deadlocks), packets that waited for a peer are sent
      once it is known (waiting_packets_sent), and a request for an identity ends
      (whois_gives_up).
    - Faults: what the code does not survive is stated as such:
      Dispatch.command_interleaving, Lwip.lwip_timer_deadlock,
      Reassembly.oversized_never_decoded, Membership.invalid_never_renewed,
      Filter.verdict_depends_on_memory, Frames.pico_frame_overflow,
      Sockets.recvfrom_faults, and the lemmas getsockname_without_service,
      Rpc.rpc_send_command_ack_error_keeps_lock,
      Intercept.intercept_null_calls, Phy.whack_never_wakes,
      Addr.containsAddress_self, Buffer.buffer_sum_wraps,
      Hashtable.hashtable_copies, Dictionary.dictionary_erase,
      Com.com_agreesWith_extra, Lz4Block.decompress_overread,
      Compression.compress_again.

    ** Fuel

    Loops without a bound in the source take a fuel: [rpc_join] (the theorem gives
    the number of refusals plus one), the chunk loop of [zts_recvfrom] (one round for
    a whole chunk; at end of file every fuel is used up), [poll] and the read loops
    of the drivers (the theorems hold for every fuel).  [Dictionary.get] has the
    length of the array as fuel and each round passes a byte of it; the iterator of
    [Hashtable] has the number of buckets, the search of [agreesWith] the number of
    qualifiers.  The block loops of the cipher and of the authenticator have a round
    for each block and one more.  The loops of LZ4 have a round for each byte of the
    source or of the length they write; each round passes one.  The binary search of
    the credentials has their number, the loop over IPv6 headers the length of the
    frame.  [_trySend] and [requestWhois] call each other; a
    depth of two is enough, because requests go to peers that are known.  Running out is [Spinning] in a program
    and [OutOfFuel] in a handler, and theorems that a function returns exclude it.

    ** Not modelled

    The two TCP/IP stacks and the other third-party code (ext, zto/ext) are
    parameters.  Of the ZeroTier node below the tap, the decoder of packets,
    frames from the tap, the cluster mode, key agreement and identities, the binary forms of
    credentials other than the certificate of membership and what of them is sent to
    members, topology, and the configuration of networks are left out; the switch sees them as operations of [Env], and that
    the decoder may call back into the switch is not in the model.  So is the service
    around the node (zto/service, zto/controller, zto/osdep except Phy.hpp).
    src/service.cpp starts threads and formats strings; src/wrappers and the jip
    driver forward to other languages.  The IPv6 builds of the drivers, the Android
    and bundled variants of the client, Windows branches and debug output are left
    out; so are running out of memory in the C++ library and exceptions of handlers.
    Threads other than the service thread enter as calls between its rounds.

    ** Plan

    Next: the binary forms of rules and credentials, paths and their link quality,
    multicast group membership, and
    the address queries of src/service.cpp with the text form of [InetAddress]. *)

From stdpp Require Import base numbers list gmap strings option.
From Stdlib Require Import ZArith Lia.

Open Scope Z_scope.

(** ** Machine integers

    A C integer is a [Z]; the two functions below are the conversions to an
    unsigned and to a signed (two's complement) type of [w] bits. *)

Definition wrap (w z : Z) : Z := z mod 2 ^ w.

Definition swrap (w z : Z) : Z := (z + 2 ^ (w - 1)) mod 2 ^ w - 2 ^ (w - 1).

(** ** Bytes and byte strings *)

Declare Scope bytes_scope.
Delimit Scope bytes_scope with bytes.

Abbreviation bytes := (list Z).

Definition byte_ok (b : Z) : Prop := 0 <= b < 256.

Definition bytes_ok (l : bytes) : Prop := Forall byte_ok l.

(** The length of a byte string as a C size. *)
Definition zlen {A} (l : list A) : Z := Z.of_nat (length l).

Notation "⟨ l ⟩" := (zlen l) (at level 0, format "⟨ l ⟩") : bytes_scope.

(** Little-endian image of the low [n] bytes of an integer and its inverse; the
    hosts the SDK is built for (x86-64, ARM) are little-endian. *)
Fixpoint le_bytes (n : nat) (z : Z) : bytes :=
  match n with
  | O => []
  | S n' => z mod 256 :: le_bytes n' (z / 256)
  end.

Fixpoint le_val (l : bytes) : Z :=
  match l with
  | [] => 0
  | b :: l' => b + 256 * le_val l'
  end.

(** Network byte order. *)
Definition be_bytes (n : nat) (z : Z) : bytes := rev (le_bytes n z).

Definition be_val (l : bytes) : Z := le_val (rev l).

(** A byte string of [char]s ends at its first NUL when read as a C string. *)
Fixpoint c_str (l : bytes) : bytes :=
  match l with
  | [] => []
  | b :: l' => if b =? 0 then [] else b :: c_str l'
  end.

(** ** Undefined behaviour as a value

    Code that the C or C++ standard gives no meaning to (an access outside an
    object, a null dereference, locking a mutex the thread already holds) ends
    in [Undef]; every other run ends in [Ok].  [OutOfFuel] marks a run of a loop
    without a static bound that was cut off, [Overlap] a [memcpy] between overlapping
    parts of one object, [Exited] a call of exit(). *)

Inductive ub : Set :=
  | OutOfBounds
  | NullPointer
  | DeadObject
  | SelfDeadlock
  | OutOfFuel
  | BadShift
  | Overlap
  | Exited.

Inductive cres (A : Type) : Type :=
  | Ok (a : A)
  | Undef (u : ub).
Arguments Ok {A} a.
Arguments Undef {A} u.

#[export] Instance ub_eq_dec : EqDecision ub.
Proof. solve_decision. Defined.

#[export] Instance cres_ret : MRet cres := λ _ a, Ok a.
#[export] Instance cres_bind : MBind cres := λ _ _ f m,
  match m with Ok a => f a | Undef u => Undef u end.
#[export] Instance cres_fmap : FMap cres := λ _ _ f m,
  match m with Ok a => Ok (f a) | Undef u => Undef u end.

(** State passing on top: a piece of a handler takes the state, and gives back a
    result and the new state, or is undefined. *)
Definition sm (S A : Type) : Type := S → cres (A * S).

#[export] Instance sm_ret {S} : MRet (sm S) := λ _ a s, Ok (a, s).
#[export] Instance sm_bind {S} : MBind (sm S) := λ _ _ f m s,
  match m s with Ok (a, s') => f a s' | Undef u => Undef u end.

Definition get_st {S A} (f : S → A) : sm S A := λ s, Ok (f s, s).
Definition upd_st {S} (f : S → S) : sm S unit := λ s, Ok (tt, f s).
Definition undef {S A} (u : ub) : sm S A := λ _, Undef u.
Definition lift {S A} (r : cres A) : sm S A := λ s,
  match r with Ok a => Ok (a, s) | Undef u => Undef u end.
Definition when {S} (b : bool) (m : sm S unit) : sm S unit :=
  if b then m else mret tt.

(** ** C objects as byte arrays *)

(** [memcpy] out of an object: [n] bytes from offset [off]. *)
Definition mem_read (off n : Z) (m : bytes) : cres bytes :=
  if (0 <=? off) && (0 <=? n) && (off + n <=? zlen m)
  then Ok (take (Z.to_nat n) (drop (Z.to_nat off) m))
  else Undef OutOfBounds.

(** [memcpy] into an object at offset [off]. *)
Definition mem_write (off : Z) (d m : bytes) : cres bytes :=
  if (0 <=? off) && (off + zlen d <=? zlen m)
  then Ok (take (Z.to_nat off) m ++ d ++ drop (Z.to_nat (off + zlen d)) m)
  else Undef OutOfBounds.

(** [memcpy(dst+doff, src+soff, n)] between two objects. *)
Definition mem_copy (doff : Z) (dst : bytes) (soff n : Z) (src : bytes) : cres bytes :=
  d ← mem_read soff n src; mem_write doff d dst.

Definition memset (n : Z) (b : Z) : bytes := replicate (Z.to_nat n) b.

(** The first position of [pat] in [l], as [std::string::find]; -1 is [npos]
    converted to [int]. *)
Fixpoint is_prefix (p l : bytes) : bool :=
  match p, l with
  | [], _ => true
  | _ :: _, [] => false
  | a :: p', b :: l' => (a =? b) && is_prefix p' l'
  end.

Fixpoint find_at (pat l : bytes) (pos : Z) : Z :=
  if is_prefix pat l then pos
  else match l with
       | [] => -1
       | _ :: l' => find_at pat l' (pos + 1)
       end.

Definition find (pat l : bytes) : Z := find_at pat l 0.

(** Left and right shift of a [w]-bit unsigned value: undefined for a count that is
    not below the width. *)
Definition shl (w x n : Z) : cres Z :=
  if (0 <=? n) && (n <? w) then Ok (wrap w (Z.shiftl x n)) else Undef BadShift.

Definition shr (w x n : Z) : cres Z :=
  if (0 <=? n) && (n <? w) then Ok (Z.shiftr x n) else Undef BadShift.

(** ** Tactics and hint databases of the development *)

Create HintDb zt.
Create Rewrite HintDb zt_len.
Create Rewrite HintDb zt_bytes.

Ltac zlen_lia := unfold zlen in *; autorewrite with zt_len in *; lia.

(** Case analysis on the boolean tests of the code, with the comparisons turned
    into propositions. *)
Ltac bool_cases :=
  repeat match goal with
  | |- context [if ?b then _ else _] =>
      lazymatch b with
      | context [if _ then _ else _] => fail
      | _ => let E := fresh "E" in destruct b eqn:E
      end
  | H : context [if ?b then _ else _] |- _ =>
      lazymatch b with
      | context [if _ then _ else _] => fail
      | _ => let E := fresh "E" in destruct b eqn:E
      end
  end.

Ltac bool_hyps :=
  repeat match goal with
  | H : (_ && _) = true |- _ => apply andb_prop in H; destruct H
  | H : (_ && _) = false |- _ => apply andb_false_iff in H
  | H : (_ || _) = false |- _ => apply orb_false_elim in H; destruct H
  | H : (_ || _) = true |- _ => apply orb_prop in H
  | H : negb _ = true |- _ => apply negb_true_iff in H
  | H : negb _ = false |- _ => apply negb_false_iff in H
  | H : (_ =? _) = true |- _ => apply Z.eqb_eq in H
  | H : (_ =? _) = false |- _ => apply Z.eqb_neq in H
  | H : (_ <=? _) = true |- _ => apply Z.leb_le in H
  | H : (_ <=? _) = false |- _ => apply Z.leb_gt in H
  | H : (_ <? _) = true |- _ => apply Z.ltb_lt in H
  | H : (_ <? _) = false |- _ => apply Z.ltb_ge in H
  end.

(** One step of a handler: unfold the monad and compute. *)
Ltac sm_unfold :=
  unfold mret, mbind, sm_ret, sm_bind, cres_ret, cres_bind, get_st, upd_st,
    undef, lift, when in *.

(** ** Lemmas on lengths *)

Lemma zlen_nonneg {A} (l : list A) : 0 <= zlen l.
Proof. unfold zlen; lia. Qed.

Lemma zlen_app {A} (l k : list A) : zlen (l ++ k) = zlen l + zlen k.
Proof. unfold zlen; rewrite length_app; lia. Qed.

Lemma zlen_nil {A} : zlen (@nil A) = 0.
Proof. done. Qed.

Lemma zlen_cons {A} (x : A) l : zlen (x :: l) = 1 + zlen l.
Proof. unfold zlen; simpl; lia. Qed.

Lemma zlen_take {A} n (l : list A) :
  0 <= n <= zlen l → zlen (take (Z.to_nat n) l) = n.
Proof. unfold zlen; rewrite length_take; lia. Qed.

Lemma zlen_drop {A} n (l : list A) :
  0 <= n <= zlen l → zlen (drop (Z.to_nat n) l) = zlen l - n.
Proof. unfold zlen; rewrite length_drop; lia. Qed.

Lemma zlen_memset n b : 0 <= n → zlen (memset n b) = n.
Proof. unfold zlen, memset; rewrite length_replicate; lia. Qed.

Lemma length_le_bytes n z : length (le_bytes n z) = n.
Proof. revert z; induction n; simpl; auto. Qed.

Lemma length_be_bytes n z : length (be_bytes n z) = n.
Proof. unfold be_bytes; rewrite length_rev; apply length_le_bytes. Qed.

Lemma zlen_le_bytes n z : zlen (le_bytes n z) = Z.of_nat n.
Proof. unfold zlen; by rewrite length_le_bytes. Qed.

#[export] Hint Rewrite @length_app @length_take @length_drop @length_replicate
  length_le_bytes length_be_bytes @length_insert : zt_len.
#[export] Hint Rewrite @zlen_app @zlen_cons zlen_le_bytes : zt_bytes.

(** ** Lemmas on the integer images *)

Lemma le_val_bytes n z : le_val (le_bytes n z) = z mod 256 ^ Z.of_nat n.
Proof.
  revert z; induction n as [|n IH]; intros z.
  { by rewrite Z.mod_1_r. }
  cbn [le_bytes le_val].
  rewrite IH, Nat2Z.inj_succ, Z.pow_succ_r by lia.
  assert (0 < 256 ^ Z.of_nat n) by (apply Z.pow_pos_nonneg; lia).
  rewrite Z.rem_mul_r by lia. lia.
Qed.

Lemma le_val_bytes_small n z :
  0 <= z < 256 ^ Z.of_nat n → le_val (le_bytes n z) = z.
Proof. intros H. rewrite le_val_bytes. by apply Z.mod_small. Qed.

Lemma be_val_bytes n z : be_val (be_bytes n z) = z mod 256 ^ Z.of_nat n.
Proof. unfold be_val, be_bytes. rewrite rev_involutive. apply le_val_bytes. Qed.

Lemma le_val_bound l : bytes_ok l → 0 <= le_val l < 256 ^ zlen l.
Proof.
  induction 1 as [|b l Hb Hl IH]; [done|].
  rewrite zlen_cons, Z.pow_add_r by (pose proof (zlen_nonneg l); lia).
  unfold byte_ok in Hb. cbn [le_val]. lia.
Qed.

Lemma le_bytes_val l : bytes_ok l → le_bytes (length l) (le_val l) = l.
Proof.
  induction 1 as [|b l Hb Hl IH]; [done|].
  cbn [length le_bytes le_val]. unfold byte_ok in Hb.
  rewrite Z.mul_comm, Z.mod_add, Z.mod_small, Z.div_add, Z.div_small by lia.
  rewrite Z.add_0_l. by f_equal.
Qed.

Lemma le_bytes_ok n z : bytes_ok (le_bytes n z).
Proof.
  revert z; induction n as [|n IH]; intros z; constructor; [|apply IH].
  unfold byte_ok. apply Z.mod_pos_bound; lia.
Qed.

Lemma le_bytes_mod n z : le_bytes n (z mod 256 ^ Z.of_nat n) = le_bytes n z.
Proof.
  rewrite <- (le_val_bytes n z).
  rewrite <- (length_le_bytes n z) at 1. apply le_bytes_val, le_bytes_ok.
Qed.

Lemma swrap_small w z : 0 < w → - 2 ^ (w - 1) <= z < 2 ^ (w - 1) → swrap w z = z.
Proof.
  intros Hw Hz. unfold swrap.
  assert (2 ^ w = 2 * 2 ^ (w - 1)).
  { rewrite <- Z.pow_succ_r by lia. f_equal; lia. }
  rewrite Z.mod_small by lia. lia.
Qed.

Lemma swrap_mod w z : swrap w (z mod 2 ^ w) = swrap w z.
Proof. unfold swrap. by rewrite Zplus_mod_idemp_l. Qed.

Lemma swrap_range w z : 0 < w → - 2 ^ (w - 1) <= swrap w z < 2 ^ (w - 1).
Proof.
  intros Hw. unfold swrap.
  assert (2 ^ w = 2 * 2 ^ (w - 1)).
  { rewrite <- Z.pow_succ_r by lia. f_equal; lia. }
  assert (0 < 2 ^ (w - 1)) by (apply Z.pow_pos_nonneg; lia).
  pose proof (Z.mod_pos_bound (z + 2 ^ (w - 1)) (2 ^ w)). lia.
Qed.

(** A signed 32-bit [int] survives being written to memory and read back. *)
Lemma int_roundtrip z :
  - 2 ^ 31 <= z < 2 ^ 31 → swrap 32 (le_val (le_bytes 4 z)) = z.
Proof.
  intros H. rewrite le_val_bytes. change (256 ^ Z.of_nat 4) with (2 ^ 32).
  rewrite swrap_mod. by apply swrap_small.
Qed.

(** Bitwise conjunction acts on each byte. *)
Lemma le_bytes_land n x y :
  le_bytes n (Z.land x y) = zip_with Z.land (le_bytes n x) (le_bytes n y).
Proof.
  revert x y; induction n as [|n IH]; intros x y; simpl; [done|].
  rewrite <- IH. f_equal.
  - change 256 with (2 ^ 8). rewrite <- !Z.land_ones by lia.
    apply Z.bits_inj'. intros i Hi. rewrite !Z.land_spec.
    destruct (Z.testbit x i), (Z.testbit y i), (Z.testbit (Z.ones 8) i); done.
  - f_equal. change 256 with (2 ^ 8). rewrite <- !Z.shiftr_div_pow2 by lia.
    apply Z.shiftr_land.
Qed.

(** A field of [k] bits below another one. *)
Lemma lor_shiftl_add a b k : 0 <= k → 0 <= b < 2 ^ k → Z.lor (Z.shiftl a k) b = a * 2 ^ k + b.
Proof.
  intros Hk Hb. rewrite <- Z.shiftl_mul_pow2 by lia.
  rewrite Z.add_nocarry_lxor, Z.lxor_lor; try done.
  all: apply Z.bits_inj'; intros i Hi; rewrite Z.land_spec, Z.bits_0;
    destruct (decide (i < k)) as [Hik|Hik];
    [by rewrite Z.shiftl_spec_low by lia|].
  all: assert (Z.testbit b i = false) as ->; [|by rewrite andb_false_r].
  all: rewrite <- (Z.mod_small b (2 ^ k)) by lia; by rewrite Z.mod_pow2_bits_high by lia.
Qed.

Lemma land_ff z : Z.land z 255 = z mod 256.
Proof. change 255 with (Z.ones 8). by rewrite Z.land_ones by lia. Qed.

Lemma land_pow2_testbit z k : 0 <= k → negb (Z.land z (2 ^ k) =? 0) = Z.testbit z k.
Proof.
  intros Hk. destruct (Z.testbit z k) eqn:E.
  - apply negb_true_iff, Z.eqb_neq. intros E0.
    assert (Z.testbit (Z.land z (2 ^ k)) k = true) as E1
      by (by rewrite Z.land_spec, E, Z.pow2_bits_true by lia).
    by rewrite E0, Z.bits_0 in E1.
  - apply negb_false_iff, Z.eqb_eq, Z.bits_inj'. intros i Hi.
    rewrite Z.land_spec, Z.bits_0. destruct (decide (i = k)) as [->|]; [by rewrite E|].
    by rewrite Z.pow2_bits_false, andb_false_r by lia.
Qed.

Lemma land_mod_pow2 a b k : 0 <= k → 0 <= a < 2 ^ k → Z.land a b mod 2 ^ k = Z.land a b.
Proof.
  intros Hk Ha. rewrite <- Z.land_ones by done.
  rewrite <- Z.land_assoc, (Z.land_comm b), Z.land_assoc, Z.land_ones by done.
  by rewrite (Z.mod_small a).
Qed.

Lemma shiftr_div z k : 0 <= k → Z.shiftr z k = z / 2 ^ k.
Proof. intros. by apply Z.shiftr_div_pow2. Qed.

Lemma be_bytes_snoc n z : be_bytes (S n) z = be_bytes n (z / 256) ++ [z mod 256].
Proof. unfold be_bytes. simpl. done. Qed.

Lemma be_val_app l b : be_val (l ++ [b]) = 256 * be_val l + b.
Proof. unfold be_val. rewrite rev_app_distr. simpl. lia. Qed.

Lemma be_bytes_val l : bytes_ok l → be_bytes (length l) (be_val l) = l.
Proof.
  intros Hl. unfold be_bytes, be_val. rewrite <- (length_rev l).
  rewrite le_bytes_val; [apply rev_involutive|]. unfold bytes_ok in *. by apply Forall_rev.
Qed.

Lemma be_val_bound l : bytes_ok l → 0 <= be_val l < 256 ^ zlen l.
Proof.
  intros Hl. unfold be_val. replace (zlen l) with (zlen (rev l)) by (unfold zlen; by rewrite length_rev).
  apply le_val_bound. unfold bytes_ok in *. by apply Forall_rev.
Qed.

Lemma be_bytes_ok n z : bytes_ok (be_bytes n z).
Proof. unfold be_bytes, bytes_ok. apply Forall_rev, le_bytes_ok. Qed.

(** ** Lemmas on objects *)

Lemma mem_read_ok off n m :
  0 <= off → 0 <= n → off + n <= zlen m →
  mem_read off n m = Ok (take (Z.to_nat n) (drop (Z.to_nat off) m)).
Proof.
  intros. unfold mem_read.
  rewrite (proj2 (Z.leb_le _ _)), (proj2 (Z.leb_le 0 n)),
    (proj2 (Z.leb_le (off + n) _)) by lia. done.
Qed.

Lemma mem_read_inv off n m d :
  mem_read off n m = Ok d →
  0 <= off ∧ 0 <= n ∧ off + n <= zlen m ∧
  d = take (Z.to_nat n) (drop (Z.to_nat off) m).
Proof. unfold mem_read. bool_cases; intros [= <-]; bool_hyps; auto. Qed.

Lemma mem_read_zlen off n m d : mem_read off n m = Ok d → zlen d = n.
Proof.
  intros (H0 & H1 & H2 & ->)%mem_read_inv.
  rewrite zlen_take; [lia|]. rewrite zlen_drop; lia.
Qed.

Lemma mem_write_ok off d m :
  0 <= off → off + zlen d <= zlen m →
  mem_write off d m =
    Ok (take (Z.to_nat off) m ++ d ++ drop (Z.to_nat (off + zlen d)) m).
Proof.
  intros. unfold mem_write.
  rewrite (proj2 (Z.leb_le _ _)), (proj2 (Z.leb_le (off + _) _)) by lia. done.
Qed.

Lemma mem_write_inv off d m m' :
  mem_write off d m = Ok m' →
  0 <= off ∧ off + zlen d <= zlen m ∧
  m' = take (Z.to_nat off) m ++ d ++ drop (Z.to_nat (off + zlen d)) m.
Proof. unfold mem_write. bool_cases; intros [= <-]; bool_hyps; auto. Qed.

Lemma mem_write_zlen off d m m' : mem_write off d m = Ok m' → zlen m' = zlen m.
Proof.
  intros (H0 & H1 & ->)%mem_write_inv. pose proof (zlen_nonneg d).
  rewrite !zlen_app, zlen_take, zlen_drop; lia.
Qed.

Lemma mem_write_oob off d m : zlen m < off + zlen d → mem_write off d m = Undef OutOfBounds.
Proof.
  intros H. unfold mem_write. rewrite (proj2 (Z.leb_gt (off + _) _)) by lia. by rewrite andb_false_r.
Qed.

Lemma mem_write_total off d m :
  0 <= off → off + zlen d <= zlen m →
  ∃ m', mem_write off d m = Ok m' ∧ zlen m' = zlen m.
Proof.
  intros. destruct (mem_write off d m) as [m'|u] eqn:E.
  - exists m'. split; [done|]. by eapply mem_write_zlen.
  - rewrite mem_write_ok in E by lia. done.
Qed.

(** What was written is read back. *)
Lemma mem_read_write_same off d m m' :
  mem_write off d m = Ok m' → mem_read off (zlen d) m' = Ok d.
Proof.
  intros E. pose proof (mem_write_zlen _ _ _ _ E) as Hl.
  apply mem_write_inv in E as (H0 & H1 & ->). pose proof (zlen_nonneg d).
  rewrite mem_read_ok by lia. f_equal.
  rewrite drop_app_length' by (unfold zlen in *; rewrite length_take; lia).
  apply take_app_length'. unfold zlen; lia.
Qed.

(** A read of a range that the write does not touch is unchanged. *)
Lemma mem_read_write_diff off d m m' roff n :
  mem_write off d m = Ok m' →
  roff + n <= off ∨ off + zlen d <= roff →
  mem_read roff n m' = mem_read roff n m.
Proof.
  intros E Hd. pose proof (mem_write_zlen _ _ _ _ E) as Hl.
  apply mem_write_inv in E as (H0 & H1 & ->). pose proof (zlen_nonneg d).
  unfold mem_read. rewrite Hl. bool_cases; [|done]. bool_hyps. f_equal.
  apply list_eq. intros i.
  destruct (decide (i < Z.to_nat n)%nat) as [Hi|Hi].
  2:{ rewrite !lookup_take_ge by lia. done. }
  rewrite !lookup_take_lt, !lookup_drop by lia.
  destruct Hd as [Hd|Hd].
  - rewrite lookup_app_l by (unfold zlen in *; rewrite length_take; lia).
    by rewrite lookup_take_lt by lia.
  - rewrite lookup_app_r by (unfold zlen in *; rewrite length_take; lia).
    rewrite lookup_app_r by (unfold zlen in *; rewrite length_take; lia).
    rewrite lookup_drop. f_equal. unfold zlen in *. rewrite length_take; lia.
Qed.

Lemma mem_read_all m : mem_read 0 (zlen m) m = Ok m.
Proof.
  rewrite mem_read_ok by (pose proof (zlen_nonneg m); lia).
  f_equal. rewrite drop_0. apply take_ge. unfold zlen; lia.
Qed.

Lemma mem_read_app_l off n m k :
  0 <= off → 0 <= n → off + n <= zlen m → mem_read off n (m ++ k) = mem_read off n m.
Proof.
  intros. rewrite !mem_read_ok; rewrite ?zlen_app; try lia;
    [|pose proof (zlen_nonneg k); lia].
  f_equal. rewrite drop_app_le by (unfold zlen in *; lia).
  apply take_app_le. rewrite length_drop. unfold zlen in *; lia.
Qed.

Lemma bytes_split {A} n (l : list A) :
  0 <= n <= zlen l → ∃ a b, l = a ++ b ∧ zlen a = n.
Proof.
  intros H. exists (take (Z.to_nat n) l), (drop (Z.to_nat n) l).
  split; [by rewrite take_drop|by apply zlen_take].
Qed.

Lemma mem_read_seg a b c off n :
  off = zlen a → n = zlen b → mem_read off n (a ++ b ++ c) = Ok b.
Proof.
  intros -> ->. pose proof (zlen_nonneg a). pose proof (zlen_nonneg b).
  pose proof (zlen_nonneg c). rewrite mem_read_ok by (rewrite ?zlen_app; lia). f_equal.
  rewrite drop_app_length' by (unfold zlen; lia).
  apply take_app_length'. unfold zlen; lia.
Qed.

Lemma mem_write_seg a b d c off :
  off = zlen a → zlen b = zlen d → mem_write off d (a ++ b ++ c) = Ok (a ++ d ++ c).
Proof.
  intros -> Hb. pose proof (zlen_nonneg a). pose proof (zlen_nonneg b).
  pose proof (zlen_nonneg c). rewrite mem_write_ok by (rewrite ?zlen_app; lia).
  f_equal. rewrite take_app_length' by (unfold zlen; lia). do 2 f_equal.
  rewrite app_assoc, <- Hb. apply drop_app_length'.
  unfold zlen. rewrite length_app; lia.
Qed.

Lemma mem_write_head b d c :
  zlen b = zlen d → mem_write 0 d (b ++ c) = Ok (d ++ c).
Proof. exact (mem_write_seg [] b d c 0 eq_refl). Qed.

Lemma mem_read_head b c n : n = zlen b → mem_read 0 n (b ++ c) = Ok b.
Proof. exact (mem_read_seg [] b c 0 n eq_refl). Qed.

Lemma memset_app n m b : 0 <= n → 0 <= m → memset n b ++ memset m b = memset (n + m) b.
Proof.
  intros. unfold memset. rewrite <- replicate_add. f_equal; lia.
Qed.

(** ** Lemmas on searching *)

Lemma is_prefix_spec p l : is_prefix p l = true ↔ ∃ k, l = p ++ k.
Proof.
  revert l; induction p as [|a p IH]; intros l; cbn [is_prefix].
  { split; [by exists l|done]. }
  destruct l as [|b l]; [by split; [|intros [k ?]]|].
  rewrite andb_true_iff, Z.eqb_eq, IH. split.
  - intros [-> [k ->]]. by exists k.
  - intros [k [= <- ->]]. split; [done|]. by exists k.
Qed.

Lemma find_at_range pat l pos :
  0 <= pos → find_at pat l pos = -1 ∨
  pos <= find_at pat l pos ∧ find_at pat l pos + zlen pat <= pos + zlen l.
Proof.
  revert pos; induction l as [|b l IH]; intros pos Hp; cbn [find_at].
  - destruct (is_prefix pat []) eqn:E; [|by left]. right.
    apply is_prefix_spec in E as [k E]. apply symmetry, app_nil in E as [-> ->].
    unfold zlen; simpl; lia.
  - destruct (is_prefix pat (b :: l)) eqn:E.
    + right. apply is_prefix_spec in E as [k ->]. rewrite zlen_app.
      pose proof (zlen_nonneg k). lia.
    + destruct (IH (pos + 1)) as [->|H]; [lia|by left|]. right.
      rewrite zlen_cons. lia.
Qed.

Lemma find_at_prefix pat l k pos :
  (∀ i, (0 < i ≤ length l)%nat → is_prefix pat (drop (length l - i) l ++ pat ++ k) = false) →
  find_at pat (l ++ pat ++ k) pos = pos + zlen l.
Proof.
  revert pos; induction l as [|b l IH]; intros pos H.
  - assert (is_prefix pat (pat ++ k) = true) as E by (apply is_prefix_spec; eauto).
    simpl. destruct (pat ++ k); cbn [find_at]; rewrite E; unfold zlen; simpl; lia.
  - cbn [app find_at].
    pose proof (H (length (b :: l)) ltac:(simpl; lia)) as H1.
    rewrite Nat.sub_diag in H1. cbn [drop app] in H1. rewrite H1.
    rewrite IH, zlen_cons; [lia|]. intros i Hi.
    specialize (H i ltac:(simpl; lia)).
    replace (length (b :: l) - i)%nat with (S (length l - i)) in H by (simpl; lia).
    done.
Qed.
