(* ===== verification/Sys.v ===== *)
(** * Programs over the C library

    The client half of the SDK (rpc.c, sockets.c, intercept.c) is straight-line C
    over POSIX calls.  A function of it is a [prog]: a tree whose inner nodes are
    the calls it makes and whose leaves are the ways it ends.  The C library, the
    kernel and the service at the other end of the sockets are the handler that
    [run] is given; a theorem about a function quantifies over it or fixes the
    part of it that matters. *)

From S2P Require Import Prelude.
From stdpp Require Import base numbers list strings option.

Open Scope Z_scope.

(** A control message as [recvmsg] delivers it. *)
Record cmsghdr := Cmsg {
  cmsg_len : Z;
  cmsg_level : Z;
  cmsg_type : Z;
  cmsg_fd : Z
}.

(** The calls.  The index is the type of the answer; a call that fills a buffer
    answers with its return value and the bytes it stored.  [SysUninit n] stands
    for the contents of [n] bytes of automatic storage before any assignment. *)
Inductive sys : Type → Type :=
  | SysLock : sys unit
  | SysUnlock : sys unit
  | SysMutexInit : sys unit
  | SysUninit (n : Z) : sys bytes
  | SysErrno : sys Z
  | SysSetErrno (e : Z) : sys unit
  | SysSocket (family type protocol : Z) : sys Z
  | SysConnect (fd : Z) (addr : bytes) (addrlen : Z) : sys Z
  | SysBind (fd : Z) (addr : bytes) (addrlen : Z) : sys Z
  | SysListen (fd backlog : Z) : sys Z
  | SysAccept (fd : Z) : sys (Z * bytes)
  | SysGetsockname (fd : Z) : sys (Z * bytes)
  | SysGetpeername (fd : Z) : sys (Z * bytes)
  | SysSetsockopt (fd level optname : Z) (optval : bytes) : sys Z
  | SysGetsockopt (fd level optname : Z) : sys (Z * Z)
  | SysOpen (path : string) : sys Z
  | SysRead (fd n : Z) : sys (Z * bytes)
  | SysWrite (fd : Z) (d : bytes) : sys Z
  | SysSend (fd : Z) (d : bytes) (flags : Z) : sys Z
  | SysSendto (fd : Z) (d : bytes) (flags : Z) (addr : bytes) (addrlen : Z) : sys Z
  | SysSendmsg (fd : Z) (d : bytes) (pass : option Z) : sys Z
  | SysRecvmsg (fd n : Z) : sys (Z * bytes * option cmsghdr)
  | SysClose (fd : Z) : sys Z
  | SysFcntl (fd cmd arg : Z) : sys Z
  | SysRlimitNofile : sys Z
  | SysStrftime (n : Z) : sys bytes
  | SysUsleep (us : Z) : sys unit
  | SysMalloc (n : Z) : sys bool
  | SysGetenv (name : string) : sys (option bytes)
  | SysSyscall (number : Z) (args : list Z) : sys Z.

Inductive prog (A : Type) : Type :=
  | Ret (a : A)
  | Fault (u : ub)
  | Spin
  | Vis (R : Type) (c : sys R) (k : R → prog A).
Arguments Ret {A} a.
Arguments Fault {A} u.
Arguments Spin {A}.
Arguments Vis {A R} c k.

Fixpoint prog_bind {A B} (f : A → prog B) (p : prog A) : prog B :=
  match p with
  | Ret a => f a
  | Fault u => Fault u
  | Spin => Spin
  | Vis c k => Vis c (λ r, prog_bind f (k r))
  end.

#[export] Instance prog_ret : MRet prog := λ _ a, Ret a.
#[export] Instance prog_mbind : MBind prog := λ _ _ f p, prog_bind f p.

Definition call {R} (c : sys R) : prog R := Vis c Ret.

(** A memory access inside a client function. *)
Definition access {A} (r : cres A) : prog A :=
  match r with Ok a => Ret a | Undef u => Fault u end.

(** ** Running a program

    The handler answers a call or blocks in it for ever. *)

Inductive outcome (A W : Type) : Type :=
  | Finished (a : A) (w : W)
  | Faulted (u : ub) (w : W)
  | Spinning (w : W)
  | Blocked (w : W).
Arguments Finished {A W} a w.
Arguments Faulted {A W} u w.
Arguments Spinning {A W} w.
Arguments Blocked {A W} w.

Definition handler (W : Type) : Type := ∀ R : Type, sys R → W → option (R * W).

Fixpoint run {W A} (h : handler W) (p : prog A) (w : W) : outcome A W :=
  match p with
  | Ret a => Finished a w
  | Fault u => Faulted u w
  | Spin => Spinning w
  | Vis c k => match h _ c w with
               | Some (r, w') => run h (k r) w'
               | None => Blocked w
               end
  end.

(** ** The process-wide mutex and errno

    [with_lock] adds them to a handler for everything else: taking the mutex
    again without having released it blocks for ever (a default POSIX mutex). *)

Record proc (W : Type) := Proc { p_locked : bool; p_errno : Z; p_env : W }.
Arguments Proc {W} _ _ _.
Arguments p_locked {W} _.
Arguments p_errno {W} _.
Arguments p_env {W} _.

Definition env_call {W} (e : handler W) {R} (c : sys R) (p : proc W) : option (R * proc W) :=
  match e R c (p_env p) with
  | Some (r, w) => Some (r, Proc (p_locked p) (p_errno p) w)
  | None => None
  end.

Definition with_lock {W} (e : handler W) : handler (proc W) := λ R c,
  match c in sys R return proc W → option (R * proc W) with
  | SysLock => λ p, if p_locked p then None else Some (tt, Proc true (p_errno p) (p_env p))
  | SysUnlock => λ p, Some (tt, Proc false (p_errno p) (p_env p))
  | SysMutexInit => λ p, Some (tt, Proc false (p_errno p) (p_env p))
  | SysErrno => λ p, Some (p_errno p, p)
  | SysSetErrno x => λ p, Some (tt, Proc (p_locked p) x (p_env p))
  | c => env_call e c
  end.

(** ** Lemmas *)

Lemma run_bind {W A B} (h : handler W) (p : prog A) (f : A → prog B) w :
  run h (prog_bind f p) w =
  match run h p w with
  | Finished a w' => run h (f a) w'
  | Faulted u w' => Faulted u w'
  | Spinning w' => Spinning w'
  | Blocked w' => Blocked w'
  end.
Proof.
  revert w; induction p as [a|u| |R c k IH]; intros w; simpl; try done.
  destruct (h R c w) as [[r w']|]; [apply IH|done].
Qed.

Lemma run_mbind {W A B} (h : handler W) (p : prog A) (f : A → prog B) w :
  run h (mbind f p) w =
  match run h p w with
  | Finished a w' => run h (f a) w'
  | Faulted u w' => Faulted u w'
  | Spinning w' => Spinning w'
  | Blocked w' => Blocked w'
  end.
Proof. apply run_bind. Qed.

Lemma run_call {W R} (h : handler W) (c : sys R) w :
  run h (call c) w =
  match h _ c w with Some (r, w') => Finished r w' | None => Blocked w end.
Proof. simpl. by destruct (h R c w) as [[r w']|]. Qed.

(** An invariant of the handler that every answered call keeps holds at the end
    of every run. *)
Lemma run_invariant {W A} (h : handler W) (I : W → Prop) (p : prog A) w :
  (∀ R (c : sys R) w r w', I w → h R c w = Some (r, w') → I w') →
  I w →
  match run h p w with
  | Finished _ w' | Faulted _ w' | Spinning w' | Blocked w' => I w'
  end.
Proof.
  intros Hh. revert w; induction p as [a|u| |R c k IH]; intros w Hw; simpl; try done.
  destruct (h R c w) as [[r w']|] eqn:E; [|done]. eapply IH, Hh; eauto.
Qed.

Ltac prog_step :=
  unfold mret, prog_ret in *;
  repeat (rewrite ?run_mbind, ?run_bind, ?run_call;
          cbn [run access with_lock env_call p_locked p_errno p_env cres_bind];
          try match goal with
              | |- context [@mbind cres cres_bind _ _ ?f (Ok ?a)] =>
                  change (@mbind cres cres_bind _ _ f (Ok a)) with (f a); cbv beta
              end).

(** ** Programs that leave the mutex alone *)

Definition is_lock {R} (c : sys R) : bool :=
  match c with SysLock | SysUnlock | SysMutexInit => true | _ => false end.

Inductive lock_free {A} : prog A → Prop :=
  | lf_ret a : lock_free (Ret a)
  | lf_fault u : lock_free (Fault u)
  | lf_spin : lock_free Spin
  | lf_vis R (c : sys R) k :
      is_lock c = false → (∀ r, lock_free (k r)) → lock_free (Vis c k).
#[export] Hint Constructors lock_free : zt.

Lemma lock_free_bind {A B} (p : prog A) (f : A → prog B) :
  lock_free p → (∀ a, lock_free (f a)) → lock_free (mbind f p).
Proof.
  intros Hp Hf. induction Hp; simpl; auto with zt.
Qed.

Lemma lock_free_call {R} (c : sys R) : is_lock c = false → lock_free (call c).
Proof. intros H. constructor; [done|]. intros r. constructor. Qed.

Lemma lock_free_access {A} (r : cres A) : lock_free (access r).
Proof. destruct r; constructor. Qed.

#[export] Hint Resolve lock_free_bind lock_free_call lock_free_access : zt.

Lemma with_lock_frame {W R} (e : handler W) (c : sys R) p r p' :
  is_lock c = false → with_lock e R c p = Some (r, p') → p_locked p' = p_locked p.
Proof.
  destruct c; simpl; try done; intros _ H; unfold env_call in H;
    repeat case_match; by simplify_eq.
Qed.

Lemma lock_free_run {W A} (e : handler W) (q : prog A) p :
  lock_free q →
  match run (with_lock e) q p with
  | Finished _ p' | Faulted _ p' | Spinning p' | Blocked p' => p_locked p' = p_locked p
  end.
Proof.
  intros H. revert p. induction H as [| | |R c k Hc Hk IH]; intros p; simpl; try done.
  destruct (with_lock e R c p) as [[r p']|] eqn:E; [|done].
  rewrite <- (with_lock_frame e c p r p') by done. apply IH.
Qed.

(** ** What a program may call

    Every call a program makes, in any environment whose answers satisfy [ok],
    satisfies [P]. *)

Definition call_pred : Type := ∀ R : Type, sys R → Prop.
Definition answer_pred : Type := ∀ R : Type, sys R → R → Prop.

Fixpoint all_calls (ok : answer_pred) (P : call_pred) {A} (p : prog A) : Prop :=
  match p with
  | Vis c k => P _ c ∧ ∀ r, ok _ c r → all_calls ok P (k r)
  | _ => True
  end.

(** Answers have the sizes the calls promise. *)
Definition sized : answer_pred := λ R c,
  match c in sys R return R → Prop with
  | SysUninit n | SysStrftime n => λ d, 0 <= n → zlen d = n
  | SysRead _ n => λ r, zlen r.2 <= Z.max 0 n
  | _ => λ _, True
  end.

Section all_calls.
Context (ok : answer_pred) (P : call_pred).

Lemma all_calls_bind {A B} (p : prog A) (f : A → prog B) :
  all_calls ok P p → (∀ a, all_calls ok P (f a)) → all_calls ok P (prog_bind f p).
Proof.
  intros Hp Hf. induction p as [a|u| |R c k IH]; simpl in *; try done.
  destruct Hp as [Hc Hk]. split; [done|]. intros r Hr. by apply IH, Hk.
Qed.

Lemma all_calls_call_bind {R B} (c : sys R) (f : R → prog B) :
  P _ c → (∀ r, ok _ c r → all_calls ok P (f r)) → all_calls ok P (prog_bind f (call c)).
Proof. done. Qed.

Lemma all_calls_access_bind {A B} (r : cres A) (f : A → prog B) :
  (∀ a, r = Ok a → all_calls ok P (f a)) → all_calls ok P (prog_bind f (access r)).
Proof. destruct r; simpl; auto. Qed.
End all_calls.
