(* ===== verification/Rpc.v ===== *)
(** * The RPC between the socket library and the service (rpc.c, rpc.h)

    A client function opens an ephemeral Unix socket to the service and writes one
    512-byte message: a signal phrase, process metadata, and a payload made of the
    command byte, an 8-byte random token (the canary) and the argument structure.
    After the service's acknowledgement byte it sends the token, followed by a
    fixed padding pattern, down the data socket the command is about; that pairs
    the command with the socket.  The answer is a 9-byte message.

    This file has the message layout, the client program of rpc.c and the two
    decoders of tap.cpp that sit at the other end of the wire. *)

From S2P Require Import Prelude Sys.
From stdpp Require Import base numbers list strings option.

Open Scope Z_scope.

(** ** Layout (rpc.h) *)

Definition CANARY_SZ : Z := 8.
Definition PADDING_SZ : Z := 12.
Definition PADDING : bytes := [0; 1; 1; 2; 3; 5; 8; 13; 21; 34; 55; 89].

(** "zerotier\0" *)
Definition RPC_PHRASE : bytes := [122; 101; 114; 111; 116; 105; 101; 114; 0].
Definition RPC_PHRASE_SZ : Z := 9.
Definition RPC_TIMESTAMP_SZ : Z := 20.

Definition sizeof_pid_t : Z := 4.
Definition sizeof_int : Z := 4.

Definition IDX_SIGNAL_PHRASE : Z := 0.
Definition IDX_PID : Z := IDX_SIGNAL_PHRASE + RPC_PHRASE_SZ.
Definition IDX_TID : Z := sizeof_pid_t + IDX_PID.
Definition IDX_TIME : Z := IDX_TID + sizeof_int.
Definition IDX_PAYLOAD : Z := IDX_TIME + RPC_TIMESTAMP_SZ.

Definition CMD_ID_IDX : Z := 0.
Definition CANARY_IDX : Z := 1.
Definition STRUCT_IDX : Z := CANARY_IDX + CANARY_SZ.

Definition BUF_SZ : Z := 512.
Definition ERR_OK : Z := 0.

Definition RPC_UNDEFINED : Z := 0.
Definition RPC_CONNECT : Z := 1.
Definition RPC_CONNECT_SOCKARG : Z := 2.
Definition RPC_CLOSE : Z := 3.
Definition RPC_READ : Z := 4.
Definition RPC_WRITE : Z := 5.
Definition RPC_BIND : Z := 6.
Definition RPC_ACCEPT : Z := 7.
Definition RPC_LISTEN : Z := 8.
Definition RPC_SOCKET : Z := 9.
Definition RPC_SHUTDOWN : Z := 10.
Definition RPC_GETSOCKNAME : Z := 11.
Definition RPC_GETPEERNAME : Z := 12.
Definition RPC_RETVAL : Z := 13.
Definition RPC_IS_CONNECTED : Z := 14.

(** The argument structures, with the offsets the x86-64 ABI gives their fields:
    [sockaddr_storage] is 128 bytes with alignment 8, so that in [bind_st],
    [connect_st], [accept_st] and [getsockname_st] it starts at 8. *)
Definition sizeof_sockaddr_storage : Z := 128.
Definition sizeof_sockaddr : Z := 16.
Definition sizeof_sockaddr_in : Z := 16.

Definition sizeof_bind_st : Z := 144.
Definition sizeof_connect_st : Z := 144.
Definition sizeof_getsockname_st : Z := 144.
Definition sizeof_listen_st : Z := 12.
Definition sizeof_socket_st : Z := 16.

Definition OFF_fd : Z := 0.
Definition OFF_addr : Z := 8.
Definition OFF_addrlen : Z := 136.
Definition OFF_backlog : Z := 4.
Definition OFF_socket_family : Z := 0.
Definition OFF_socket_type : Z := 4.
Definition OFF_protocol : Z := 8.

(** An [int] member of a structure. *)
Definition get_int (off : Z) (m : bytes) : cres Z :=
  d ← mem_read off sizeof_int m; Ok (swrap 32 (le_val d)).

Definition put_int (off z : Z) (m : bytes) : cres bytes :=
  mem_write off (le_bytes 4 z) m.

(** ** The message the client writes (rpc_send_command, lines 163-208)

    [g] is the uninitialised [cmdbuf], [timestring] the 20 bytes that [strftime]
    left, [data]/[len] the argument structure. *)
Definition make_cmdbuf (cmd : Z) (canary data : bytes) (len : Z) (g : bytes) : cres bytes :=
  b ← mem_write CMD_ID_IDX [wrap 8 cmd] g;
  b ← mem_write CANARY_IDX canary b;
  mem_copy STRUCT_IDX b 0 len data.

Definition make_metabuf (timestring cmdbuf : bytes) (len : Z) : cres bytes :=
  m ← mem_write IDX_PID (le_bytes 4 5) (memset BUF_SZ 0);
  m ← mem_write IDX_TID (le_bytes 4 4) m;
  m ← mem_write IDX_TIME timestring m;
  m ← mem_write IDX_SIGNAL_PHRASE RPC_PHRASE m;
  mem_copy IDX_PAYLOAD m 0 (len + 1 + CANARY_SZ) cmdbuf.

(** ** Client program (rpc.c) *)

Definition AF_UNIX : Z := 1.
Definition SOCK_STREAM : Z := 1.
Definition SOCK_DGRAM : Z := 2.
Definition sizeof_sockaddr_un : Z := 110.
Definition sun_path_sz : Z := 108.

Definition SOL_SOCKET : Z := 1.
Definition SCM_RIGHTS : Z := 1.
(** CMSG_LEN(sizeof(int)) on x86-64: a 16-byte header and the descriptor. *)
Definition CMSG_LEN_int : Z := 20.

Definition sock_fd_write (sock fd : Z) : prog Z :=
  call (SysSendmsg sock [0] (if fd =? -1 then None else Some fd)).

(** The size [sock_fd_read] returns, and what it stored through [fd] if [fd] is
    given ([has_fd]) and it stored anything. *)
Definition sock_fd_read (sock bufsize : Z) (has_fd : bool) : prog (Z * option Z) :=
  if has_fd then
    '(size, _, cmsg) ← call (SysRecvmsg sock bufsize);
    if size <? 0 then mret (-1, None)
    else match cmsg with
         | Some c =>
             if cmsg_len c =? CMSG_LEN_int then
               if negb (cmsg_level c =? SOL_SOCKET) then mret (-1, None)
               else if negb (cmsg_type c =? SCM_RIGHTS) then mret (-1, None)
               else mret (size, Some (cmsg_fd c))
             else mret (size, Some (-1))
         | None => mret (size, Some (-1))
         end
  else
    '(size, _) ← call (SysRead sock bufsize);
    if size <? 0 then mret (-1, None) else mret (size, None).

Definition get_new_fd (sock : Z) : prog Z :=
  '(size, newfd) ← sock_fd_read sock BUF_SZ true;
  if 0 <? size then mret (default (-1) newfd) else mret (-1).

Definition get_retval (rpc_sock : Z) : prog Z :=
  if 0 <=? rpc_sock then
    let sz := 1 + sizeof_int + sizeof_int in
    '(n_read, d) ← call (SysRead rpc_sock sz);
    if 0 <? n_read then
      retbuf ← access (mem_write 0 d (memset BUF_SZ 0));
      retval ← access (get_int 1 retbuf);
      e ← access (get_int (1 + sizeof_int) retbuf);
      _ ← call (SysSetErrno e);
      mret retval
    else mret (-1)
  else mret (-1).

(** The connection loop has no bound on its attempts; [fuel] counts the ones that
    are unfolded, and a run that uses them up is [Spin]. *)
Fixpoint rpc_join_loop (fuel : nat) (sock : Z) (addr : bytes) : prog Z :=
  match fuel with
  | O => Spin
  | S fuel' =>
      conn_err ← call (SysConnect sock addr sizeof_sockaddr_un);
      if negb (conn_err =? 0) then
        _ ← call (SysUsleep 100000);
        rpc_join_loop fuel' sock addr
      else mret sock
  end.

(** [strncpy] of at most [n] bytes of a C string into a zeroed field. *)
Definition strncpy (n : Z) (s : bytes) : bytes :=
  let d := take (Z.to_nat n) (c_str s) in d ++ memset (n - zlen d) 0.

Definition sockaddr_un (sockname : bytes) : bytes :=
  le_bytes 2 AF_UNIX ++ strncpy (sun_path_sz - 1) sockname ++ [0].

Definition rpc_join (fuel : nat) (sockname : option bytes) : prog Z :=
  match sockname with
  | None => Fault NullPointer
  | Some name =>
      sock ← call (SysSocket AF_UNIX SOCK_STREAM 0);
      if sock <? 0 then mret (-1)
      else rpc_join_loop fuel sock (sockaddr_un name)
  end.

(** The static counter [rpc_count], which the function increments and nothing
    reads, is left out. *)
Definition rpc_send_command (fuel : nat) (path : option bytes) (cmd forfd : Z)
    (data : bytes) (len : Z) : prog Z :=
  _ ← call SysLock;
  rpc_sock ← rpc_join fuel path;
  fdrand ← call (SysOpen "/dev/urandom");
  '(n_rand, rnd) ← call (SysRead fdrand CANARY_SZ);
  if n_rand <? 0 then mret (-1)
  else
    u ← call (SysUninit CANARY_SZ);
    canary_num ← access (mem_write 0 rnd u);
    let CANARY := canary_num ++ PADDING in
    _ ← call (SysClose fdrand);
    g ← call (SysUninit BUF_SZ);
    cmdbuf ← access (make_cmdbuf cmd canary_num data len g);
    timestring ← call (SysStrftime RPC_TIMESTAMP_SZ);
    metabuf ← access (make_metabuf timestring cmdbuf len);
    n_write ← call (SysWrite rpc_sock metabuf);
    _ ← (if n_write <? 0 then call (SysSetErrno 0) else mret tt);
    '(n_ack, ack) ← call (SysRead rpc_sock 1);
    if n_ack <? 0 then
      _ ← call (SysClose rpc_sock); mret (-1)
    else
      u ← call (SysUninit 1);
      c ← access (mem_write 0 ack u);
      n_send ← (if bool_decide (c = [122]) && (0 <? n_write) && (-1 <? forfd)
                then call (SysSend forfd CANARY 0) else mret 0);
      if n_send <? 0 then
        _ ← call (SysClose rpc_sock); mret (-1)
      else
        let cmd_id := swrap 8 (wrap 8 cmd) in
        if 0 <? n_write then
          if cmd_id =? RPC_SOCKET then
            _ ← call SysUnlock; mret rpc_sock
          else
            ret ← (if (cmd_id =? RPC_CONNECT) || (cmd_id =? RPC_BIND) || (cmd_id =? RPC_LISTEN)
                   then get_retval rpc_sock else mret ERR_OK);
            if (cmd_id =? RPC_GETSOCKNAME) || (cmd_id =? RPC_GETPEERNAME) then
              _ ← call SysUnlock; mret rpc_sock
            else
              _ ← call (SysClose rpc_sock);
              _ ← call SysUnlock; mret ret
        else
          _ ← call (SysClose rpc_sock);
          _ ← call SysUnlock; mret (-1).

(** ** The decoders of the service (tap.cpp) *)

(** NetconEthernetTap::sendReturnValue builds this message and writes it. *)
Definition retmsg (retval e : Z) : bytes :=
  [RPC_RETVAL] ++ le_bytes 4 retval ++ le_bytes 4 e.

Record rpc_header := RpcHeader {
  h_pid : Z;
  h_tid : Z;
  h_timestamp : bytes;
  h_canary : bytes;
  h_cmd : Z
}.

Definition unloadRPC (buf : bytes) : cres rpc_header :=
  pid ← get_int IDX_PID buf;
  tid ← get_int IDX_TID buf;
  timestamp ← mem_read IDX_TIME RPC_TIMESTAMP_SZ buf;
  cmd ← mem_read IDX_PAYLOAD 1 buf;
  canary ← mem_read (IDX_PAYLOAD + 1) CANARY_SZ buf;
  Ok (RpcHeader pid tid timestamp canary (swrap 8 (le_val cmd))).

(** ** The layout of a message *)

Lemma make_cmdbuf_image cmd canary data len g :
  zlen canary = CANARY_SZ → zlen g = BUF_SZ →
  0 <= len <= zlen data → STRUCT_IDX + len <= BUF_SZ →
  ∃ cmdbuf rest, make_cmdbuf cmd canary data len g = Ok cmdbuf ∧
    cmdbuf = [wrap 8 cmd] ++ canary ++ take (Z.to_nat len) data ++ rest ∧
    zlen cmdbuf = BUF_SZ.
Proof.
  unfold STRUCT_IDX, CANARY_IDX, CANARY_SZ, BUF_SZ. intros Hc Hg Hl Hb.
  destruct (bytes_split 1 g) as (g0 & r0 & -> & H0); [lia|].
  rewrite zlen_app in Hg.
  destruct (bytes_split 8 r0) as (g1 & r1 & -> & H1); [lia|].
  rewrite zlen_app in Hg.
  destruct (bytes_split len r1) as (g2 & r2 & -> & H2); [lia|].
  rewrite zlen_app in Hg.
  exists ([wrap 8 cmd] ++ canary ++ take (Z.to_nat len) data ++ r2), r2.
  split; [|split; [done|rewrite !zlen_app, zlen_take; [change (zlen [_]) with 1; lia|lia]]].
  unfold make_cmdbuf, CMD_ID_IDX, CANARY_IDX, STRUCT_IDX, CANARY_IDX, CANARY_SZ, mem_copy.
  rewrite mem_write_head by done. cbn [mbind cres_bind].
  rewrite (mem_write_seg [wrap 8 cmd] g1 canary) by (done || lia). cbn [mbind cres_bind].
  rewrite mem_read_ok by lia. cbn [mbind cres_bind].
  rewrite drop_0, (app_assoc _ canary).
  rewrite (mem_write_seg _ g2 _ _ (1 + 8));
    rewrite ?zlen_app, ?zlen_take; try (change (zlen [_]) with 1); try lia.
  by rewrite <- app_assoc.
Qed.

Lemma make_metabuf_image timestring cmdbuf payload rest len :
  zlen timestring = RPC_TIMESTAMP_SZ → 0 <= len →
  cmdbuf = payload ++ rest → zlen payload = len + 1 + CANARY_SZ →
  IDX_PAYLOAD + zlen payload <= BUF_SZ →
  make_metabuf timestring cmdbuf len =
    Ok (RPC_PHRASE ++ le_bytes 4 5 ++ le_bytes 4 4 ++ timestring ++ payload ++
        memset (BUF_SZ - IDX_PAYLOAD - zlen payload) 0).
Proof.
  change RPC_TIMESTAMP_SZ with 20. change CANARY_SZ with 8. change IDX_PAYLOAD with 37.
  change BUF_SZ with 512. intros Ht Hl -> Hp Hb.
  unfold make_metabuf, mem_copy.
  change IDX_PID with 9. change IDX_TID with 13. change IDX_TIME with 17.
  change IDX_SIGNAL_PHRASE with 0. change IDX_PAYLOAD with 37. change BUF_SZ with 512.
  change CANARY_SZ with 8.
  replace (memset 512 0) with
    (memset 9 0 ++ memset 4 0 ++ memset 4 0 ++ memset 20 0 ++ memset (zlen payload) 0 ++
     memset (512 - 37 - zlen payload) 0)
    by (rewrite !memset_app; [f_equal; lia|pose proof (zlen_nonneg payload); lia..]).
  rewrite (mem_write_seg (memset 9 0)) by done. cbn [mbind cres_bind].
  rewrite (app_assoc (memset 9 0)), (mem_write_seg (_ ++ _)) by done. cbn [mbind cres_bind].
  rewrite (app_assoc (_ ++ _) (le_bytes 4 4)),
    (mem_write_seg (_ ++ _) _ timestring) by (done || by rewrite Ht).
  cbn [mbind cres_bind]. rewrite <- !(app_assoc (memset 9 0)).
  rewrite mem_write_head by done. cbn [mbind cres_bind].
  rewrite mem_read_app_l by lia. rewrite <- Hp, mem_read_all. cbn [mbind cres_bind].
  rewrite <- !app_assoc, !(app_assoc RPC_PHRASE), !(app_assoc (RPC_PHRASE ++ _)),
    !(app_assoc ((RPC_PHRASE ++ _) ++ _)).
  rewrite mem_write_seg.
  - done.
  - rewrite !zlen_app, Ht. done.
  - by rewrite zlen_memset by apply zlen_nonneg.
Qed.

(** The 512 bytes of a message. *)
Definition message (timestring : bytes) (cmd : Z) (canary arg : bytes) : bytes :=
  RPC_PHRASE ++ le_bytes 4 5 ++ le_bytes 4 4 ++ timestring ++ [cmd] ++ canary ++ arg ++
  memset (BUF_SZ - IDX_PAYLOAD - (zlen arg + 1 + CANARY_SZ)) 0.

(** The parts of a message fit. *)
Record message_ok (timestring : bytes) (cmd : Z) (canary arg : bytes) : Prop := {
  mo_time : zlen timestring = RPC_TIMESTAMP_SZ;
  mo_cmd : 0 <= cmd < 128;
  mo_canary : zlen canary = CANARY_SZ;
  mo_arg : IDX_PAYLOAD + STRUCT_IDX + zlen arg <= BUF_SZ
}.

Lemma client_message cmd canary data len timestring g :
  message_ok timestring cmd canary (take (Z.to_nat len) data) →
  zlen g = BUF_SZ → 0 <= len <= zlen data →
  ∃ cmdbuf, make_cmdbuf cmd canary data len g = Ok cmdbuf ∧
    make_metabuf timestring cmdbuf len =
      Ok (message timestring cmd canary (take (Z.to_nat len) data)).
Proof.
  intros [Ht Hcmd Hc Hb] Hg Hl. rewrite zlen_take in Hb by lia.
  change (46 + len <= 512) in Hb.
  destruct (make_cmdbuf_image cmd canary data len g) as (cb & rest & Ecb & Hcb & _);
    [done..|by change (9 + len <= 512); lia|].
  exists cb. split; [done|]. set (d := take (Z.to_nat len) data) in *.
  assert (zlen d = len) as Hd by (apply zlen_take; lia).
  assert (wrap 8 cmd = cmd) as Hw by (apply Z.mod_small; change (2 ^ 8) with 256; lia).
  rewrite Hw in Hcb.
  assert (zlen ([cmd] ++ canary ++ d) = len + 1 + CANARY_SZ) as Hp.
  { rewrite !zlen_app, Hc, Hd. change (zlen [cmd]) with 1. lia. }
  erewrite (make_metabuf_image _ _ ([cmd] ++ canary ++ d) rest);
    [|done|lia|by rewrite Hcb, <- !app_assoc|done|rewrite Hp; change (37 + (len + 1 + 8) <= 512); lia].
  unfold message. rewrite Hp, Hd. by rewrite <- !app_assoc.
Qed.

Section message.
Context (timestring canary arg : bytes) (cmd : Z).
Context (Hm : message_ok timestring cmd canary arg).

Lemma message_zlen : zlen (message timestring cmd canary arg) = BUF_SZ.
Proof.
  destruct Hm as [Ht _ Hc Hb]. change (46 + zlen arg <= 512) in Hb. unfold message.
  rewrite !zlen_app, Ht, Hc, zlen_memset.
  - change (9 + (4 + (4 + (20 + (1 + (8 + (zlen arg + (512 - 37 - (zlen arg + 1 + 8)))))))) = 512).
    lia.
  - change (0 <= 512 - 37 - (zlen arg + 1 + 8)). lia.
Qed.

Lemma message_phrase rest :
  mem_read 0 RPC_PHRASE_SZ (message timestring cmd canary arg ++ rest) = Ok RPC_PHRASE.
Proof. unfold message. rewrite <- app_assoc. by apply mem_read_head. Qed.

Lemma message_header rest :
  unloadRPC (message timestring cmd canary arg ++ rest) =
    Ok (RpcHeader 5 4 timestring canary cmd).
Proof.
  destruct Hm as [Ht Hcmd Hc Hb]. unfold message, unloadRPC, get_int. rewrite <- !app_assoc.
  rewrite (mem_read_seg RPC_PHRASE (le_bytes 4 5) _ IDX_PID) by done. cbn [mbind cres_bind].
  rewrite (app_assoc RPC_PHRASE), (mem_read_seg (RPC_PHRASE ++ _) (le_bytes 4 4) _ IDX_TID) by done.
  cbn [mbind cres_bind].
  rewrite (app_assoc (RPC_PHRASE ++ _)),
    (mem_read_seg ((RPC_PHRASE ++ _) ++ _) timestring _ IDX_TIME) by (done || by rewrite Ht).
  cbn [mbind cres_bind]. rewrite (app_assoc ((RPC_PHRASE ++ _) ++ _)).
  rewrite (mem_read_seg (((RPC_PHRASE ++ _) ++ _) ++ _) [cmd] _ IDX_PAYLOAD)
    by (done || by rewrite zlen_app, Ht). cbn [mbind cres_bind].
  rewrite (app_assoc (((RPC_PHRASE ++ _) ++ _) ++ _)).
  rewrite (mem_read_seg ((((RPC_PHRASE ++ _) ++ _) ++ _) ++ _) canary)
    by (by rewrite Hc || by rewrite !zlen_app, Ht). cbn [mbind cres_bind].
  rewrite !int_roundtrip by lia. cbn [le_val]. rewrite swrap_small by lia.
  do 2 f_equal; lia.
Qed.

Lemma message_arg n rest :
  n = zlen arg →
  mem_read (IDX_PAYLOAD + STRUCT_IDX) n (message timestring cmd canary arg ++ rest) = Ok arg.
Proof.
  intros ->. destruct Hm as [Ht _ Hc _]. unfold message. rewrite <- !app_assoc.
  rewrite !(app_assoc RPC_PHRASE), !(app_assoc (RPC_PHRASE ++ _)), !(app_assoc ((RPC_PHRASE ++ _) ++ _)),
    !(app_assoc (((RPC_PHRASE ++ _) ++ _) ++ _)), !(app_assoc ((((RPC_PHRASE ++ _) ++ _) ++ _) ++ _)).
  apply mem_read_seg; [|done]. rewrite !zlen_app, Ht, Hc. done.
Qed.
End message.

(** ** Round trips *)

(** C12: what the client packs, the service unpacks.  For every command code,
    token, argument structure that fits and timestamp, [rpc_send_command] builds a
    512-byte message that starts with the signal phrase the service tests for;
    [unloadRPC] recovers the pid, tid, timestamp, token and command; and the
    argument structure is at the offset at which the service copies it out. *)
Theorem rpc_message_roundtrip cmd canary data len timestring g :
  0 <= cmd < 128 → zlen canary = CANARY_SZ → zlen timestring = RPC_TIMESTAMP_SZ →
  zlen g = BUF_SZ → 0 <= len <= zlen data → IDX_PAYLOAD + STRUCT_IDX + len <= BUF_SZ →
  ∃ cmdbuf metabuf,
    make_cmdbuf cmd canary data len g = Ok cmdbuf ∧
    make_metabuf timestring cmdbuf len = Ok metabuf ∧
    zlen metabuf = BUF_SZ ∧
    mem_read 0 RPC_PHRASE_SZ metabuf = Ok RPC_PHRASE ∧
    unloadRPC metabuf = Ok (RpcHeader 5 4 timestring canary cmd) ∧
    mem_read (IDX_PAYLOAD + STRUCT_IDX) len metabuf = mem_read 0 len data.
Proof.
  intros Hcmd Hc Ht Hg Hl Hb. set (d := take (Z.to_nat len) data).
  assert (zlen d = len) as Hd by (apply zlen_take; lia).
  assert (message_ok timestring cmd canary d) as Hm by (split; try done; by rewrite Hd).
  destruct (client_message cmd canary data len timestring g Hm Hg Hl) as (cb & E1 & E2).
  exists cb, (message timestring cmd canary d). split; [done|]. split; [done|].
  split; [by apply message_zlen|].
  pose proof (message_phrase timestring canary d cmd []) as H1.
  pose proof (message_header timestring canary d cmd Hm []) as H2.
  pose proof (message_arg timestring canary d cmd Hm len [] (eq_sym Hd)) as H3.
  rewrite app_nil_r in H1, H2, H3. split; [done|]. split; [done|].
  rewrite H3. symmetry. rewrite mem_read_ok, drop_0 by lia. done.
Qed.

Lemma rpc_message_roundtrip_witness :
  ∃ cmdbuf metabuf,
    make_cmdbuf RPC_BIND [1;2;3;4;5;6;7;8] (memset sizeof_bind_st 7) sizeof_bind_st
      (memset BUF_SZ 255) = Ok cmdbuf ∧
    make_metabuf (memset 20 49) cmdbuf sizeof_bind_st = Ok metabuf ∧
    zlen metabuf = BUF_SZ ∧
    mem_read 0 RPC_PHRASE_SZ metabuf = Ok RPC_PHRASE ∧
    unloadRPC metabuf = Ok (RpcHeader 5 4 (memset 20 49) [1;2;3;4;5;6;7;8] RPC_BIND) ∧
    mem_read (IDX_PAYLOAD + STRUCT_IDX) sizeof_bind_st metabuf =
      mem_read 0 sizeof_bind_st (memset sizeof_bind_st 7).
Proof.
  apply (rpc_message_roundtrip RPC_BIND [1;2;3;4;5;6;7;8] (memset sizeof_bind_st 7)
    sizeof_bind_st (memset 20 49) (memset BUF_SZ 255)); vm_compute;
    intuition discriminate.
Defined.

Lemma get_retval_run W (e : handler W) fd retval er (p : proc W) w' :
  0 <= fd → - 2 ^ 31 <= retval < 2 ^ 31 → - 2 ^ 31 <= er < 2 ^ 31 →
  e _ (SysRead fd (1 + sizeof_int + sizeof_int)) (p_env p) =
    Some (zlen (retmsg retval er), retmsg retval er, w') →
  run (with_lock e) (get_retval fd) p = Finished retval (Proc (p_locked p) er w').
Proof.
  intros Hfd Hr Her Hread. unfold get_retval.
  rewrite (proj2 (Z.leb_le _ _) Hfd). prog_step. unfold env_call. rewrite Hread.
  change (zlen (retmsg retval er)) with 9. cbn [Z.ltb Z.compare]. prog_step.
  change (memset BUF_SZ 0) with (memset 9 0 ++ memset 503 0).
  rewrite mem_write_head by done.
  prog_step. unfold get_int, retmsg. rewrite <- !app_assoc.
  rewrite (mem_read_seg [RPC_RETVAL] (le_bytes 4 retval) _ 1) by done.
  prog_step. rewrite (app_assoc [RPC_RETVAL]),
    (mem_read_seg ([RPC_RETVAL] ++ _) (le_bytes 4 er)) by done. prog_step.
  by rewrite !int_roundtrip by lia.
Qed.

(** The return-value message.  When the service's [sendReturnValue] message is
    what the client's [read] delivers, [get_retval] returns the value the service
    sent and leaves its error code in [errno]; the mutex is untouched. *)
Theorem get_retval_roundtrip W (e : handler W) fd retval er (p : proc W) w' :
  0 <= fd → - 2 ^ 31 <= retval < 2 ^ 31 → - 2 ^ 31 <= er < 2 ^ 31 →
  e _ (SysRead fd (1 + sizeof_int + sizeof_int)) (p_env p) =
    Some (zlen (retmsg retval er), retmsg retval er, w') →
  run (with_lock e) (get_retval fd) p = Finished retval (Proc (p_locked p) er w').
Proof. apply get_retval_run. Qed.

(** A handler that answers reads with one fixed message and everything else never. *)
Definition read_only (m : bytes) : handler unit := λ R c,
  match c in sys R return unit → option (R * unit) with
  | SysRead _ _ => λ w, Some (zlen m, m, w)
  | _ => λ _, None
  end.

Lemma get_retval_roundtrip_witness :
  run (with_lock (read_only (retmsg (-1) 22))) (get_retval 7) (Proc true 0 tt) =
  Finished (-1) (Proc true 22 tt).
Proof.
  apply (get_retval_roundtrip unit (read_only (retmsg (-1) 22)) 7 (-1) 22 (Proc true 0 tt) tt);
    vm_compute; intuition discriminate.
Defined.

(** ** The mutex of rpc.c *)

Lemma rpc_join_loop_lock_free fuel sock addr : lock_free (rpc_join_loop fuel sock addr).
Proof.
  induction fuel as [|fuel IH]; simpl; [constructor|].
  constructor; [done|]. intros r. case_match; simpl; auto with zt.
Qed.

Lemma rpc_join_lock_free fuel name : lock_free (rpc_join fuel name).
Proof.
  destruct name as [name|]; [|constructor]. constructor; [done|]. intros s.
  simpl. case_match; [constructor|]. apply rpc_join_loop_lock_free.
Qed.

Lemma get_retval_lock_free fd : lock_free (get_retval fd).
Proof.
  unfold get_retval. case_match; [|constructor].
  apply lock_free_bind; [by apply lock_free_call|]. intros [n d].
  case_match; [|constructor]. repeat (apply lock_free_bind; [auto with zt|intros ?]).
  constructor.
Qed.
#[export] Hint Resolve rpc_join_lock_free get_retval_lock_free : zt.

(** Run the next lock-free part of a program: what is kept of it is that the mutex
    is as it was. *)
Ltac skip_part :=
  unfold mret, prog_ret in *; rewrite run_mbind;
  match goal with
  | |- context [match run (with_lock ?e) ?q ?p with _ => _ end] =>
      let H := fresh "Hl" in let p' := fresh "p" in
      pose proof (lock_free_run e q p) as H; destruct (run (with_lock e) q p) as [? p'|? p'|p'|p'];
      try exact I; specialize (H ltac:(repeat case_match; eauto with zt)); cbn [p_locked] in H
  end.

(** Run the next call, a [read], and keep the environment's answer to it. *)
Ltac skip_read n E :=
  unfold mret, prog_ret in *; rewrite run_mbind, run_call; cbn [with_lock]; unfold env_call;
  match goal with
  | |- context [match ?e _ ?c ?w with _ => _ end] =>
      destruct (e _ c w) as [[[n ?] ?]|] eqn:E; try exact I
  end.

(** The mutex is released.  If no read and no send of the environment fails,
    every run of [rpc_send_command] that returns has released the mutex it took,
    whatever the command and whatever the service answered. *)
Theorem rpc_send_command_releases_lock W (e : handler W) fuel path cmd forfd data len p ret p' :
  (∀ fd n w r d w', e _ (SysRead fd n) w = Some (r, d, w') → 0 <= r) →
  (∀ fd d fl w r w', e _ (SysSend fd d fl) w = Some (r, w') → 0 <= r) →
  p_locked p = false →
  run (with_lock e) (rpc_send_command fuel path cmd forfd data len) p = Finished ret p' →
  p_locked p' = false.
Proof.
  intros Hread Hsend Hp Hrun. revert Hrun.
  enough (match run (with_lock e) (rpc_send_command fuel path cmd forfd data len) p with
          | Finished _ p' => p_locked p' = false | _ => True end) as H
    by (intros E; by rewrite E in H).
  unfold rpc_send_command. rewrite run_mbind, run_call. cbn [with_lock]. rewrite Hp.
  do 2 skip_part. skip_read n E. apply Hread in E. rewrite (proj2 (Z.ltb_ge _ _) E).
  do 9 skip_part. skip_read n_ack E0. apply Hread in E0. rewrite (proj2 (Z.ltb_ge _ _) E0).
  do 2 skip_part. rewrite run_mbind.
  match goal with |- context [match run (with_lock e) ?q ?p with _ => _ end] =>
    assert (match run (with_lock e) q p with
            | Finished r p' => 0 <= r ∧ p_locked p' = p_locked p | _ => True end) as Hs;
    [|destruct (run (with_lock e) q p) as [n_send p2'|? ?|?|?]; try exact I] end.
  { destruct (bool_decide _ && _ && _); [|by split]. rewrite run_call. cbn [with_lock]. unfold env_call.
    repeat case_match; simplify_eq; try done. split; [by eapply Hsend|done]. }
  destruct Hs as [Hs _]. rewrite (proj2 (Z.ltb_ge _ _) Hs).
  destruct (0 <? _); [|by skip_part; rewrite run_mbind].
  destruct (_ =? RPC_SOCKET); [by rewrite run_mbind|].
  skip_part. destruct (_ || _); [by rewrite run_mbind|]. by skip_part; rewrite run_mbind.
Qed.

(** An environment in which every call succeeds: reads deliver [ack] bytes of value
    'z', sockets and files get descriptor 5. *)
Definition obliging : handler unit := λ R c,
  match c in sys R return unit → option (R * unit) with
  | SysSocket _ _ _ | SysOpen _ => λ w, Some (5, w)
  | SysConnect _ _ _ | SysClose _ => λ w, Some (0, w)
  | SysRead _ n => λ w, Some (Z.max 0 n, memset n 122, w)
  | SysUninit n | SysStrftime n => λ w, Some (memset n 0, w)
  | SysWrite _ d | SysSend _ d _ => λ w, Some (zlen d, w)
  | _ => λ _, None
  end.

Lemma rpc_send_command_releases_lock_witness :
  ∃ ret p', run (with_lock obliging)
      (rpc_send_command 1 (Some [47; 97]) RPC_BIND 6 (memset sizeof_bind_st 0) sizeof_bind_st)
      (Proc false 0 tt) = Finished ret p' ∧ p_locked p' = false.
Proof.
  eexists _, _; split; [vm_compute; reflexivity|].
  eapply (rpc_send_command_releases_lock unit obliging 1 (Some [47; 97]) RPC_BIND 6
    (memset sizeof_bind_st 0) sizeof_bind_st (Proc false 0 tt));
    [| |reflexivity|vm_compute; reflexivity].
  - intros fd n w r d w' [= <- <- <-]. lia.
  - intros fd d fl w r w' [= <- <-]. apply zlen_nonneg.
Defined.

(** The error exit keeps the mutex.  When the acknowledgement byte cannot be
    read, [rpc_send_command] returns -1 with the process-wide mutex still held, and
    every later [rpc_send_command] of the process, for any command and socket,
    blocks for ever. *)
Theorem rpc_send_command_ack_error_keeps_lock W (e : handler W) fuel path cmd forfd data len
    p ret p' :
  (∀ fd w r d w', e _ (SysRead fd 1) w = Some (r, d, w') → r < 0) →
  p_locked p = false →
  run (with_lock e) (rpc_send_command fuel path cmd forfd data len) p = Finished ret p' →
  ret = -1 ∧ p_locked p' = true ∧
  ∀ fuel' path' cmd' forfd' data' len',
    run (with_lock e) (rpc_send_command fuel' path' cmd' forfd' data' len') p' = Blocked p'.
Proof.
  intros Hread Hp Hrun.
  assert (ret = -1 ∧ p_locked p' = true) as [-> Hl].
  { revert Hrun.
    enough (match run (with_lock e) (rpc_send_command fuel path cmd forfd data len) p with
            | Finished ret p' => ret = -1 ∧ p_locked p' = true | _ => True end) as H
      by (intros E; by rewrite E in H).
    unfold rpc_send_command. rewrite run_mbind, run_call. cbn [with_lock]. rewrite Hp.
    do 2 skip_part. skip_read n E. destruct (n <? 0); [split; [done|]; simpl; congruence|].
    do 9 skip_part. skip_read n_ack E0. apply Hread in E0. rewrite (proj2 (Z.ltb_lt _ _) E0).
    skip_part. split; [done|]. congruence. }
  split; [done|]. split; [done|]. intros. unfold rpc_send_command.
  rewrite run_mbind, run_call. cbn [with_lock]. by rewrite Hl.
Qed.

(** As [obliging], but the peer of the RPC socket is gone: one-byte reads fail. *)
Definition service_gone : handler unit := λ R c,
  match c in sys R return unit → option (R * unit) with
  | SysRead _ n => λ w, if n =? 1 then Some (-1, [], w) else Some (n, memset n 122, w)
  | c => obliging _ c
  end.

Lemma rpc_send_command_ack_error_keeps_lock_witness :
  ∃ p', run (with_lock service_gone)
      (rpc_send_command 1 (Some [47; 97]) RPC_LISTEN 6 (memset sizeof_listen_st 0) sizeof_listen_st)
      (Proc false 0 tt) = Finished (-1) p' ∧
    ∀ fuel' path' cmd' forfd' data' len',
      run (with_lock service_gone) (rpc_send_command fuel' path' cmd' forfd' data' len') p' = Blocked p'.
Proof.
  eexists; split; [vm_compute; reflexivity|].
  eapply (rpc_send_command_ack_error_keeps_lock unit service_gone 1 (Some [47; 97]) RPC_LISTEN 6
    (memset sizeof_listen_st 0) sizeof_listen_st (Proc false 0 tt));
    [|reflexivity|vm_compute; reflexivity].
  by intros fd w r d w' [= <- <- <-].
Defined.

(** ** Reaching the service *)

(** The connection loop ends.  If the service starts accepting after finitely
    many refused attempts ([left] counts those still to be refused), [rpc_join]
    returns the socket it created, as soon as the loop has been allowed one
    iteration more than that. *)
Theorem rpc_join_connects W (h : handler W) (left : W → nat) fuel name sock w w0 :
  h _ (SysSocket AF_UNIX SOCK_STREAM 0) w = Some (sock, w0) → 0 <= sock →
  (∀ w, left w = O →
     ∃ w', h _ (SysConnect sock (sockaddr_un name) sizeof_sockaddr_un) w = Some (0, w')) →
  (∀ w n, left w = S n →
     ∃ err w', h _ (SysConnect sock (sockaddr_un name) sizeof_sockaddr_un) w = Some (err, w') ∧
       err ≠ 0 ∧ left w' = n) →
  (∀ w, ∃ w', h _ (SysUsleep 100000) w = Some (tt, w') ∧ left w' = left w) →
  (left w0 < fuel)%nat →
  ∃ w', run h (rpc_join fuel (Some name)) w = Finished sock w'.
Proof.
  intros Hs Hpos Hok Hno Hsleep Hfuel. unfold rpc_join. rewrite run_mbind, run_call, Hs.
  rewrite (proj2 (Z.ltb_ge _ _) Hpos). clear Hs w.
  remember (left w0) as n eqn:Hn. revert w0 fuel Hn Hfuel.
  induction n as [|n IH]; intros w fuel Hn Hf; (destruct fuel as [|fuel]; [lia|]);
    cbn [rpc_join_loop]; rewrite run_mbind, run_call.
  - destruct (Hok w) as [w' ->]; [done|]. by exists w'.
  - destruct (Hno w n) as (err & w' & -> & Herr & Hl); [done|].
    rewrite (proj2 (Z.eqb_neq _ _) Herr). cbn [negb]. rewrite run_mbind, run_call.
    destruct (Hsleep w') as (w'' & -> & Hl'). apply IH; [congruence|lia].
Qed.

(** A service that refuses the next [n] connections. *)
Definition slow_service : handler nat := λ R c,
  match c in sys R return nat → option (R * nat) with
  | SysSocket _ _ _ => λ n, Some (5, n)
  | SysConnect _ _ _ => λ n, match n with O => Some (0, O) | S m => Some (-1, m) end
  | SysUsleep _ => λ n, Some (tt, n)
  | _ => λ _, None
  end.

Lemma rpc_join_connects_witness :
  ∃ w', run slow_service (rpc_join 40 (Some [47; 97])) 30%nat = Finished 5 w'.
Proof.
  apply (rpc_join_connects nat slow_service id 40 [47; 97] 5 30%nat 30%nat); try done.
  - intros w Hw. unfold id in Hw. subst. by exists O.
  - intros w n Hw. unfold id in Hw. subst. by exists (-1), n.
  - intros w. by exists w.
  - unfold id; lia.
Defined.
