(* ===== verification/Sockets.v ===== *)
(** * The socket API of the client library (src/sockets.c)

    The [zts_] functions an application calls, or that the interposed functions of
    intercept.c call for it.  This is the Linux build without the bundled service
    ([SDK_BUNDLED], Android and .NET variants are not modelled); debug output is
    left out.

    Names that the library itself may interpose ([getsockopt], [sendto],
    [recvfrom], [accept]) are arguments of the functions that call them, since the
    linker decides what they are; Intercept.v closes the knot. *)

From S2P Require Import Prelude Sys Rpc.
From stdpp Require Import base numbers list strings option.

Open Scope Z_scope.

(** ** Constants *)

Definition SDK_MTU : Z := 1200.
Definition ZT_UDP_DEFAULT_PAYLOAD_MTU : Z := 1444.

Definition AF_INET : Z := 2.
Definition SOCK_SEQPACKET : Z := 5.
(** SOCK_PACKET + 1 *)
Definition SOCK_MAX : Z := 11.
Definition SOCK_TYPE_MASK : Z := 0xf.
Definition SOCK_NONBLOCK : Z := 2048.
Definition SOCK_CLOEXEC : Z := 524288.
Definition SO_TYPE : Z := 3.
Definition F_SETFL : Z := 4.
Definition FD_CLOEXEC : Z := 1.
Definition O_NONBLOCK : Z := 2048.
Definition MSG_PEEK : Z := 2.
Definition MSG_TRUNC : Z := 32.

Definition EAGAIN : Z := 11.
Definition ENOMEM : Z := 12.
Definition EINVAL : Z := 22.
Definition ENOTSOCK : Z := 88.
Definition EMSGSIZE : Z := 90.
Definition EAFNOSUPPORT : Z := 97.
Definition EISCONN : Z := 106.

(** ** Programs with the library's globals *)

(** [api_netpath], and whether [load_symbols] has set the [real...] pointers. *)
Record glob := Glob { api_netpath : option bytes; symbols : bool }.

Definition cl (A : Type) : Type := glob → prog (A * glob).
#[export] Instance cl_ret : MRet cl := λ _ a g, Ret (a, g).
#[export] Instance cl_bind : MBind cl := λ _ _ f m g, prog_bind (λ r, f r.1 r.2) (m g).

Definition lib {A} (p : prog A) : cl A := λ g, prog_bind (λ a, Ret (a, g)) p.
Definition sysc {R} (c : sys R) : cl R := lib (call c).
Definition mem {A} (r : cres A) : cl A := lib (access r).
Definition fault {A} (u : ub) : cl A := λ _, Fault u.
Definition get_glob : cl glob := λ g, Ret (g, g).
Definition set_glob (g : glob) : cl unit := λ _, Ret (tt, g).
Definition set_errno (e : Z) : cl unit := sysc (SysSetErrno e).

(** [*p] for a pointer that may be null. *)
Definition obj {A} (p : option A) : cl A :=
  match p with Some a => mret a | None => fault NullPointer end.

(** A message header: the name with its size, and the scatter/gather array. *)
Record msghdr := Msghdr {
  msg_name : option bytes;
  msg_namelen : Z;
  msg_iov : list bytes;
  msg_controllen : Z;
  msg_flags : Z
}.

Section sockets.
(** The attempts of [rpc_join] that are unfolded, and [NPROTO] of the kernel's
    headers. *)
Context (fuel : nat) (NPROTO : Z).

Definition zts_init_rpc : cl unit :=
  g ← get_glob;
  match api_netpath g with
  | Some _ => mret tt
  | None =>
      _ ← sysc SysMutexInit;
      np ← sysc (SysGetenv "ZT_NC_NETWORK");
      set_glob (Glob np (symbols g))
  end.

Definition get_api_netpath : cl unit := zts_init_rpc.

Definition rpc (cmd forfd : Z) (data : bytes) (len : Z) : cl Z :=
  g ← get_glob; lib (rpc_send_command fuel (api_netpath g) cmd forfd data len).

(** ** Creating and naming sockets *)

Definition zts_socket (socket_family socket_type protocol : Z) : cl Z :=
  _ ← get_api_netpath;
  let flags := Z.land socket_type (Z.lnot SOCK_TYPE_MASK) in
  if negb (Z.land flags (Z.lnot (Z.lor SOCK_CLOEXEC SOCK_NONBLOCK)) =? 0) then
    _ ← set_errno EINVAL; mret (-1)
  else
    let socket_type := Z.land socket_type SOCK_TYPE_MASK in
    if (socket_family <? 0) || (NPROTO <=? socket_family) then
      _ ← set_errno EAFNOSUPPORT; mret (-1)
    else if (socket_type <? 0) || (SOCK_MAX <=? socket_type) then
      _ ← set_errno EINVAL; mret (-1)
    else
      st ← sysc (SysUninit sizeof_socket_st);
      st ← mem (put_int OFF_socket_family socket_family st);
      st ← mem (put_int OFF_socket_type socket_type st);
      st ← mem (put_int OFF_protocol protocol st);
      rpc RPC_SOCKET (-1) st sizeof_socket_st.

(** The structure of [connect] and [bind]: 128 bytes are copied from [addr]
    whatever [addrlen] is. *)
Definition addr_st (fd : Z) (addr : bytes) (addrlen : Z) (g : bytes) : cres bytes :=
  st ← put_int OFF_fd fd g;
  st ← mem_copy OFF_addr st 0 sizeof_sockaddr_storage addr;
  mem_write OFF_addrlen (le_bytes 4 addrlen) st.

Definition zts_connect (fd : Z) (addr : option bytes) (addrlen : Z) : cl Z :=
  _ ← get_api_netpath;
  g ← sysc (SysUninit sizeof_connect_st);
  addr ← obj addr;
  st ← mem (addr_st fd addr addrlen g);
  rpc RPC_CONNECT fd st sizeof_connect_st.

Definition zts_bind (fd : Z) (addr : option bytes) (addrlen : Z) : cl Z :=
  _ ← get_api_netpath;
  g ← sysc (SysUninit sizeof_bind_st);
  addr ← obj addr;
  st ← mem (addr_st fd addr addrlen g);
  rpc RPC_BIND fd st sizeof_bind_st.

Definition zts_listen (fd backlog : Z) : cl Z :=
  _ ← get_api_netpath;
  st ← sysc (SysUninit sizeof_listen_st);
  st ← mem (put_int OFF_fd fd st);
  st ← mem (put_int OFF_backlog backlog st);
  rpc RPC_LISTEN fd st sizeof_listen_st.

(** [accept]; returns the descriptor and the [sockaddr] afterwards. *)
Definition zts_accept (fd : Z) (addr : option bytes) : cl (Z * option bytes) :=
  _ ← get_api_netpath;
  addr ← match addr with
         | Some a => a ← mem (mem_write 0 (le_bytes 2 AF_INET) a); mret (Some a)
         | None => mret None
         end;
  new_fd ← lib (get_new_fd fd);
  if 0 <? new_fd then
    _ ← set_errno ERR_OK; mret (new_fd, addr)
  else
    _ ← set_errno EAGAIN; mret (- EAGAIN, addr).

Definition zts_accept4 (accept : Z → option bytes → cl (Z * option bytes))
    (fd : Z) (addr : option bytes) (flags : Z) : cl (Z * option bytes) :=
  _ ← get_api_netpath;
  _ ← (if negb (Z.land flags SOCK_CLOEXEC =? 0)
       then sysc (SysFcntl fd F_SETFL FD_CLOEXEC) else mret 0);
  _ ← (if negb (Z.land flags SOCK_NONBLOCK =? 0)
       then sysc (SysFcntl fd F_SETFL O_NONBLOCK) else mret 0);
  accept fd addr.

(** [realclose] *)
Definition zts_close (fd : Z) : cl Z :=
  _ ← get_api_netpath;
  g ← get_glob;
  if symbols g then sysc (SysClose fd) else fault NullPointer.

(** [getsockname] and [getpeername], which differ in the command.  [addrlen] is the
    value of the pointer argument: its low 32 bits are what [rpc_st.addrlen] gets.
    Returns the result and, unless it is an error, the [sockaddr] and
    [*addrlen]. *)
Definition zts_getname (cmd fd : Z) (addr : bytes) (addrlen : Z) : cl (Z * option (bytes * Z)) :=
  _ ← get_api_netpath;
  st ← sysc (SysUninit sizeof_getsockname_st);
  st ← mem (put_int OFF_fd fd st);
  st ← mem (mem_write OFF_addrlen (le_bytes 4 addrlen) st);
  rpcfd ← rpc cmd fd st sizeof_getsockname_st;
  let addrbuf := memset sizeof_sockaddr_storage 0 in
  r ← (if -1 <? rpcfd then
         '(err, d) ← sysc (SysRead rpcfd sizeof_sockaddr);
         addrbuf ← mem (mem_write 0 d addrbuf);
         _ ← sysc (SysClose rpcfd);
         if 0 <? err then
           if existsb (λ b, negb (b =? 0)) addrbuf then mret (Some addrbuf)
           else _ ← set_errno ENOTSOCK; mret None
         else _ ← set_errno ENOTSOCK; mret None
       else mret (Some addrbuf));
  match r with
  | None => mret (-1, None)
  | Some addrbuf =>
      addr ← mem (mem_copy 0 addr 0 sizeof_sockaddr addrbuf);
      addr ← mem (mem_write 0 (le_bytes 2 AF_INET) addr);
      mret (0, Some (addr, sizeof_sockaddr_in))
  end.

Definition zts_getsockname (fd : Z) (addr : bytes) (addrlen : Z) : cl (Z * option (bytes * Z)) :=
  zts_getname RPC_GETSOCKNAME fd addr addrlen.

Definition zts_getpeername (fd : Z) (addr : bytes) (addrlen : Z) : cl (Z * option (bytes * Z)) :=
  zts_getname RPC_GETPEERNAME fd addr addrlen.

(** ** Options *)

Definition zts_setsockopt (fd level optname : Z) (optval : bytes) : cl Z := mret 0.

(** The result, and what was stored through [optval]. *)
Definition zts_getsockopt (fd level optname : Z) : cl (Z * option Z) :=
  if optname =? SO_TYPE then mret (0, Some 2) else mret (0, None).

Definition zts_fcntl (fd cmd flags : Z) : cl Z := sysc (SysFcntl fd cmd flags).

(** ** Sending *)

Definition zts_sendto (getsockopt : Z → Z → Z → cl (Z * option Z))
    (fd : Z) (buf : bytes) (len flags : Z) (addr : option bytes) (addrlen : Z) : cl Z :=
  if ZT_UDP_DEFAULT_PAYLOAD_MTU <? len then
    _ ← set_errno EMSGSIZE; mret (-1)
  else
    '(_, v) ← getsockopt fd SOL_SOCKET SO_TYPE;
    let socktype := default 0 v in
    let stream := negb (Z.land socktype SOCK_STREAM =? 0) || negb (Z.land socktype SOCK_SEQPACKET =? 0) in
    if stream && (bool_decide (addr = None) || negb (flags =? 0)) then
      _ ← set_errno EISCONN; mret (-1)
    else
      err ← zts_connect fd addr addrlen;
      if err <? 0 then
        _ ← set_errno EISCONN; mret (-1)
      else
        d ← mem (mem_read 0 len buf);
        sysc (SysWrite fd d).

(** The sum of the lengths, a [size_t]. *)
Definition iov_len (iov : list bytes) : Z := wrap 64 (zlen (concat iov)).

(** The copies of the elements behind each other. *)
Fixpoint gather (iov : list bytes) (p : Z) (buf : bytes) : cres bytes :=
  match iov with
  | [] => Ok buf
  | v :: iov' => b ← mem_write p v buf; gather iov' (p + zlen v) b
  end.

Definition zts_sendmsg (sendto : Z → bytes → Z → Z → option bytes → Z → cl Z)
    (fd : Z) (msg : msghdr) (flags : Z) : cl Z :=
  let tot_len := iov_len (msg_iov msg) in
  if ZT_UDP_DEFAULT_PAYLOAD_MTU <? tot_len then
    _ ← set_errno EMSGSIZE; mret (-1)
  else
    ok ← sysc (SysMalloc tot_len);
    if negb (tot_len =? 0) && negb ok then
      _ ← set_errno ENOMEM; mret (-1)
    else
      g ← sysc (SysUninit tot_len);
      buf ← mem (gather (msg_iov msg) 0 g);
      sendto fd buf tot_len flags (msg_name msg) (msg_namelen msg).

(** ** Receiving *)

(** The loop that reads a chunk (lines 315-324): [Some n] if it returned [n], else
    the chunk and the last [n].  Every [read] may store [SDK_MTU] bytes. *)
Fixpoint read_chunk (fuel : nat) (fd total_read : Z) (tmpbuf : bytes) (n : Z) :
    prog (Z + bytes * Z) :=
  if total_read <? SDK_MTU then
    match fuel with
    | O => Spin
    | S fuel' =>
        '(n, d) ← call (SysRead fd SDK_MTU);
        tmpbuf ← access (mem_write total_read d tmpbuf);
        if 0 <? n then read_chunk fuel' fd (total_read + n) tmpbuf n
        else if n <? 0 then mret (inl n)
        else read_chunk fuel' fd total_read tmpbuf n
    end
  else mret (inr (tmpbuf, n)).

(** What is made of a chunk: the application's buffer and address, and the
    result. *)
Definition unpack_chunk (tmpbuf buf : bytes) (len : Z) (addr : option bytes) (addrlen : option Z) :
    cl (Z * bytes * option bytes) :=
  n ← obj addrlen;
  a ← obj addr;
  a ← mem (mem_copy 0 a 0 n tmpbuf);
  tmpsz ← mem (get_int sizeof_sockaddr_storage tmpbuf);
  _ ← mem (get_int (sizeof_sockaddr_storage + sizeof_int) tmpbuf);
  if (SDK_MTU <? tmpsz) || (tmpsz <? 0) then mret (-1, buf, Some a)
  else
    let payload_offset := sizeof_int + sizeof_sockaddr_storage in
    let read_chunk_sz := if len <? SDK_MTU then len else SDK_MTU in
    let read_chunk_sz := if tmpsz <? read_chunk_sz then tmpsz else read_chunk_sz in
    buf ← mem (mem_copy 0 buf payload_offset read_chunk_sz tmpbuf);
    mret (read_chunk_sz, buf, Some a).

Definition zts_recvfrom (rfuel : nat) (fd : Z) (buf : bytes) (len flags : Z)
    (addr : option bytes) (addrlen : option Z) : cl (Z * bytes * option bytes) :=
  r ← lib (read_chunk rfuel fd 0 (memset SDK_MTU 0) 0);
  match r with
  | inl n => mret (n, buf, addr)
  | inr (tmpbuf, n) =>
      if 0 <? n then unpack_chunk tmpbuf buf len addr addrlen else mret (-1, buf, addr)
  end.

(** The copies into the elements, as long as there are bytes. *)
Fixpoint scatter (iov : list bytes) (p n : Z) (buf : bytes) : cres (list bytes) :=
  if 0 <? n then
    match iov with
    | [] => Undef OutOfBounds
    | v :: iov' =>
        let count := if n <? zlen v then n else zlen v in
        v ← mem_copy 0 v p count buf;
        iov' ← scatter iov' (p + count) (n - count) buf;
        Ok (v :: iov')
    end
  else Ok iov.

(** The test for truncation compares a signed result with an unsigned length. *)
Definition zts_recvmsg
    (recvfrom : Z → bytes → Z → Z → option bytes → option Z → cl (Z * bytes * option bytes))
    (fd : Z) (msg : msghdr) (flags : Z) : cl (Z * msghdr) :=
  let tot_len := swrap 64 (zlen (concat (msg_iov msg))) in
  ok ← sysc (SysMalloc tot_len);
  if negb (tot_len =? 0) && negb ok then
    _ ← set_errno ENOMEM; mret (-1, msg)
  else
    g ← sysc (SysUninit tot_len);
    '(err, buf, name) ← recvfrom fd g tot_len flags (msg_name msg) (Some (msg_namelen msg));
    let fl := if (msg_controllen msg <? wrap 64 err) && (Z.land (msg_flags msg) MSG_PEEK =? 0)
              then Z.lor (msg_flags msg) MSG_TRUNC else msg_flags msg in
    iov ← mem (scatter (msg_iov msg) 0 err buf);
    mret (err, Msghdr name (msg_namelen msg) iov (msg_controllen msg) fl).
End sockets.

(** ** What goes over the wire *)

(** The calls of [rpc_send_command] that carry data. *)
Definition sends_message (cmd forfd : Z) (arg : bytes) : call_pred := λ R c,
  match c with
  | SysWrite _ d => ∃ ts canary, message_ok ts cmd canary arg ∧ d = message ts cmd canary arg
  | SysSend fd d _ => fd = forfd ∧ ∃ canary, zlen canary = CANARY_SZ ∧ d = canary ++ PADDING
  | SysSendto _ _ _ _ _ | SysSendmsg _ _ _ => False
  | _ => True
  end.

Ltac calls_walk :=
  repeat match goal with
  | |- all_calls _ _ (mbind _ _) => unfold mbind at 1, prog_mbind at 1
  | |- all_calls _ _ (prog_bind _ (call _)) => apply all_calls_call_bind; [done|intros ? ?]
  | |- all_calls _ _ (prog_bind _ (access _)) => apply all_calls_access_bind; intros ? ?
  | |- all_calls _ _ (prog_bind _ _) => apply all_calls_bind; [|intros ?]
  | |- all_calls _ _ (call _) => split; [done|done]
  | |- all_calls _ _ (match ?x with _ => _ end) => destruct x eqn:?
  | |- all_calls _ _ (mret _) => exact I
  | |- all_calls _ _ (Ret _) => exact I
  | |- all_calls _ _ (Fault _) => exact I
  | |- all_calls _ _ Spin => exact I
  end.


Section wire.
Context (cmd forfd : Z) (arg : bytes).

Lemma rpc_join_calls fuel path : all_calls sized (sends_message cmd forfd arg) (rpc_join fuel path).
Proof.
  assert (∀ s a, all_calls sized (sends_message cmd forfd arg) (rpc_join_loop fuel s a)) as H.
  { intros s a. induction fuel as [|n IH]; [done|]. cbn [rpc_join_loop]. calls_walk. done. }
  unfold rpc_join. calls_walk. apply H.
Qed.

Lemma get_retval_calls fd : all_calls sized (sends_message cmd forfd arg) (get_retval fd).
Proof. unfold get_retval. calls_walk. Qed.
End wire.

(** Every message [rpc_send_command] writes is one for its command and argument. *)
Lemma rpc_send_calls fuel path cmd forfd data len :
  0 <= cmd < 128 → 0 <= len <= zlen data → IDX_PAYLOAD + STRUCT_IDX + len <= BUF_SZ →
  all_calls sized (sends_message cmd forfd (take (Z.to_nat len) data))
    (rpc_send_command fuel path cmd forfd data len).
Proof.
  intros Hc Hl Hb. unfold rpc_send_command.
  calls_walk; try apply rpc_join_calls; try apply get_retval_calls; try done;
    (split; [|done]);
    match goal with H : mem_write 0 _ ?u = Ok ?c, Hu : sized bytes (SysUninit CANARY_SZ) ?u |- _ =>
      assert (zlen c = CANARY_SZ) by (rewrite (mem_write_zlen _ _ _ _ H); by apply Hu)
    end.
  - match goal with
    | Hg : sized bytes (SysUninit BUF_SZ) ?g, Ht : sized bytes (SysStrftime _) ?ts,
      H1 : make_cmdbuf _ ?canary _ _ _ = _, H2 : make_metabuf _ _ _ = Ok _ |- _ =>
        assert (message_ok ts cmd canary (take (Z.to_nat len) data)) as Hm;
        [split; [by apply Ht|done|done|rewrite zlen_take; lia]|];
        destruct (client_message cmd canary data len ts g Hm) as (cb & E1 & E2); [by apply Hg|done|];
        exists ts, canary; rewrite E1 in H1; injection H1 as <-; rewrite E2 in H2; by injection H2 as <-
    end.
  - split; [done|]. by eexists.
Qed.

(** ** Programs with globals *)

Section cl_calls.
Context (ok : answer_pred) (P : call_pred).

Lemma calls_sysc_bind {R B} (c : sys R) (f : R → cl B) g :
  P _ c → (∀ r, ok _ c r → all_calls ok P (f r g)) → all_calls ok P ((sysc c ≫= f) g).
Proof. done. Qed.

Lemma calls_mem_bind {A B} (r : cres A) (f : A → cl B) g :
  (∀ a, r = Ok a → all_calls ok P (f a g)) → all_calls ok P ((mem r ≫= f) g).
Proof. destruct r; intros H; [by apply H|done]. Qed.

Lemma calls_get_glob_bind {B} (f : glob → cl B) g :
  all_calls ok P (f g g) → all_calls ok P ((get_glob ≫= f) g).
Proof. done. Qed.

Lemma calls_obj_bind {A B} (a : A) (f : A → cl B) g :
  all_calls ok P (f a g) → all_calls ok P ((obj (Some a) ≫= f) g).
Proof. done. Qed.

Lemma calls_lib {A} (p : prog A) g : all_calls ok P p → all_calls ok P (lib p g).
Proof. intros H. by apply all_calls_bind. Qed.
End cl_calls.

(** Calls that carry no data are allowed everywhere. *)
Lemma calls_init_bind {B} (P : call_pred) (f : unit → cl B) g :
  P _ SysMutexInit → P _ (SysGetenv "ZT_NC_NETWORK") →
  (∀ g', all_calls sized P (f tt g')) → all_calls sized P ((get_api_netpath ≫= f) g).
Proof.
  intros H1 H2 Hf. apply all_calls_bind; [|intros [[] g']; apply Hf]. unfold get_api_netpath, zts_init_rpc.
  apply calls_get_glob_bind. destruct (api_netpath g); [done|].
  apply calls_sysc_bind; [done|]. intros r _. apply calls_sysc_bind; [done|]. done.
Qed.

(** What the service reads out of the messages of a program. *)
Definition decodes (cmd forfd size : Z) (F : bytes → Prop) : call_pred := λ R c,
  match c with
  | SysWrite _ d =>
      zlen d = BUF_SZ ∧ mem_read 0 RPC_PHRASE_SZ d = Ok RPC_PHRASE ∧
      (∃ h, unloadRPC d = Ok h ∧ h_cmd h = cmd) ∧
      ∃ arg, mem_read (IDX_PAYLOAD + STRUCT_IDX) size d = Ok arg ∧ F arg
  | SysSend fd d _ => fd = forfd ∧ ∃ canary, zlen canary = CANARY_SZ ∧ d = canary ++ PADDING
  | SysSendto _ _ _ _ _ | SysSendmsg _ _ _ => False
  | _ => True
  end.

Lemma all_calls_mono ok (P Q : call_pred) {A} (p : prog A) :
  (∀ R c, P R c → Q R c) → all_calls ok P p → all_calls ok Q p.
Proof.
  intros H. induction p as [a|u| |R c k IH]; simpl; try done. intros [Hc Hk]. split; [by apply H|].
  intros r Hr. by apply IH, Hk.
Qed.

Lemma rpc_decodes fuel cmd forfd data (F : bytes → Prop) g :
  0 <= cmd < 128 → IDX_PAYLOAD + STRUCT_IDX + zlen data <= BUF_SZ → F data →
  all_calls sized (decodes cmd forfd (zlen data) F) (rpc fuel cmd forfd data (zlen data) g).
Proof.
  intros Hc Hb HF. unfold rpc. apply calls_get_glob_bind, calls_lib.
  assert (take (Z.to_nat (zlen data)) data = data) as Ht by (apply take_ge; unfold zlen; lia).
  pose proof (zlen_nonneg data).
  eapply all_calls_mono; [|apply rpc_send_calls; lia || done]. rewrite Ht.
  intros R c. destruct c; try done. intros (ts & canary & Hm & ->).
  pose proof (message_phrase ts canary data cmd []) as H1.
  pose proof (message_header ts canary data cmd Hm []) as H2.
  pose proof (message_arg ts canary data cmd Hm _ [] eq_refl) as H3.
  rewrite app_nil_r in H1, H2, H3. split; [by apply message_zlen|]. split; [done|].
  split; [by eexists|]. by exists data.
Qed.

(** ** The argument structures *)

Lemma get_put_int off z m m' :
  - 2 ^ 31 <= z < 2 ^ 31 → put_int off z m = Ok m' → get_int off m' = Ok z.
Proof.
  intros Hz E. unfold get_int. apply mem_read_write_same in E.
  change (zlen (le_bytes 4 z)) with sizeof_int in E. rewrite E. cbn [mbind cres_bind].
  by rewrite int_roundtrip.
Qed.

Lemma get_int_write_diff off d m m' roff :
  mem_write off d m = Ok m' → roff + sizeof_int <= off ∨ off + zlen d <= roff →
  get_int roff m' = get_int roff m.
Proof. intros E H. unfold get_int. by rewrite (mem_read_write_diff _ _ _ _ _ _ E). Qed.

Lemma mem_copy_inv doff dst soff n src m :
  mem_copy doff dst soff n src = Ok m →
  ∃ d, mem_read soff n src = Ok d ∧ mem_write doff d dst = Ok m ∧ zlen d = n.
Proof.
  unfold mem_copy. destruct (mem_read soff n src) as [d|] eqn:E; [|done]. intros H.
  exists d. split; [done|]. split; [exact H|]. by eapply mem_read_zlen.
Qed.

Definition same_addr (fd : Z) (addr : bytes) (addrlen : Z) (arg : bytes) : Prop :=
  get_int OFF_fd arg = Ok fd ∧
  mem_read OFF_addr sizeof_sockaddr_storage arg = mem_read 0 sizeof_sockaddr_storage addr ∧
  mem_read OFF_addrlen 4 arg = Ok (le_bytes 4 addrlen).

Lemma addr_st_fields fd addr addrlen g st :
  - 2 ^ 31 <= fd < 2 ^ 31 → addr_st fd addr addrlen g = Ok st →
  zlen st = zlen g ∧ same_addr fd addr addrlen st.
Proof.
  intros Hfd. unfold addr_st. destruct (put_int OFF_fd fd g) as [s1|] eqn:E1; [|done].
  cbn [mbind cres_bind]. destruct (mem_copy _ s1 _ _ _) as [s2|] eqn:E2; [|done].
  cbn [mbind cres_bind]. intros E3. apply mem_copy_inv in E2 as (d & Ed & E2 & Hd).
  split; [by rewrite (mem_write_zlen _ _ _ _ E3), (mem_write_zlen _ _ _ _ E2), (mem_write_zlen _ _ _ _ E1)|].
  unfold same_addr, OFF_fd, OFF_addr, OFF_addrlen, sizeof_sockaddr_storage in *. split_and!.
  - rewrite (get_int_write_diff _ _ _ _ _ E3), (get_int_write_diff _ _ _ _ _ E2)
      by (unfold sizeof_int; lia). by apply (get_put_int 0 fd g).
  - rewrite (mem_read_write_diff _ _ _ _ _ _ E3), Ed by lia. rewrite <- Hd at 1.
    by eapply mem_read_write_same.
  - by apply mem_read_write_same in E3.
Qed.

(** Writing the [int] members one after another. *)
Lemma put_int_frame off z m m' roff :
  put_int off z m = Ok m' → roff + sizeof_int <= off ∨ off + sizeof_int <= roff →
  get_int roff m' = get_int roff m.
Proof. intros E H. by apply (get_int_write_diff _ _ _ _ _ E). Qed.

Section wire_claims.
Context (fuel : nat) (NPROTO : Z).

Lemma rpc_sized cmd forfd st n (F : bytes → Prop) g :
  zlen st = n → 0 <= cmd < 128 → IDX_PAYLOAD + STRUCT_IDX + n <= BUF_SZ → F st →
  all_calls sized (decodes cmd forfd n F) (rpc fuel cmd forfd st n g).
Proof. intros <-. apply rpc_decodes. Qed.

(** The common beginning: the path is looked up, the structure is allocated. *)
Lemma api_send cmd forfd n (F : bytes → Prop) (f : bytes → cl Z) g :
  0 <= n →
  (∀ u, zlen u = n → ∀ g', all_calls sized (decodes cmd forfd n F) (f u g')) →
  all_calls sized (decodes cmd forfd n F) ((_ ← get_api_netpath; u ← sysc (SysUninit n); f u) g).
Proof.
  intros Hn Hf. apply calls_init_bind; [done..|]. intros g'. apply calls_sysc_bind; [done|].
  intros u Hu. by apply Hf, Hu.
Qed.

(** C24: what the application passes is what the service gets.  In every environment
    whose answers have the size the calls ask for, all that [zts_connect],
    [zts_bind], [zts_listen] and [zts_socket] write is 512-byte messages that the
    service takes for commands, unpacks to that command and whose argument
    structure has the application's descriptor, address and length, backlog, or
    family, masked type and protocol; and on the data socket they send nothing but
    a token with its padding. *)
Theorem api_wire fd addr addrlen backlog family type protocol g :
  - 2 ^ 31 <= fd < 2 ^ 31 → - 2 ^ 31 <= backlog < 2 ^ 31 → - 2 ^ 31 <= protocol < 2 ^ 31 →
  0 <= type < 2 ^ 31 → NPROTO <= 2 ^ 31 →
  all_calls sized (decodes RPC_CONNECT fd sizeof_connect_st (same_addr fd addr addrlen))
    (zts_connect fuel fd (Some addr) addrlen g) ∧
  all_calls sized (decodes RPC_BIND fd sizeof_bind_st (same_addr fd addr addrlen))
    (zts_bind fuel fd (Some addr) addrlen g) ∧
  all_calls sized (decodes RPC_LISTEN fd sizeof_listen_st (λ a,
      get_int OFF_fd a = Ok fd ∧ get_int OFF_backlog a = Ok backlog))
    (zts_listen fuel fd backlog g) ∧
  all_calls sized (decodes RPC_SOCKET (-1) sizeof_socket_st (λ a,
      get_int OFF_socket_family a = Ok family ∧
      get_int OFF_socket_type a = Ok (type mod 16) ∧ get_int OFF_protocol a = Ok protocol))
    (zts_socket fuel NPROTO family type protocol g).
Proof.
  intros Hfd Hb Hp Ht Hn. split_and!.
  - apply (api_send RPC_CONNECT); [done..|]. intros u Hu g'. apply calls_obj_bind, calls_mem_bind.
    intros st Hst. apply addr_st_fields in Hst as [Hz Hst]; [|done]. by apply rpc_sized; [rewrite Hz|..].
  - apply (api_send RPC_BIND); [done..|]. intros u Hu g'. apply calls_obj_bind, calls_mem_bind.
    intros st Hst. apply addr_st_fields in Hst as [Hz Hst]; [|done]. by apply rpc_sized; [rewrite Hz|..].
  - apply (api_send RPC_LISTEN); [done..|]. intros u Hu g'. apply calls_mem_bind. intros s1 E1.
    apply calls_mem_bind. intros s2 E2.
    apply rpc_sized; [by rewrite (mem_write_zlen _ _ _ _ E2), (mem_write_zlen _ _ _ _ E1)|done..|].
    split; [|by eapply get_put_int].
    rewrite (put_int_frame _ _ _ _ _ E2) by (left; done). by eapply get_put_int.
  - unfold zts_socket. apply calls_init_bind; [done..|]. intros g'.
    case_match; [by repeat split|]. case_match eqn:Hfam; [by repeat split|].
    case_match; [by repeat split|]. apply orb_false_iff in Hfam as [Hf1 Hf2].
    apply Z.ltb_ge in Hf1. apply Z.leb_gt in Hf2.
    assert (Z.land type SOCK_TYPE_MASK = type mod 16) as ->
      by (change SOCK_TYPE_MASK with (Z.ones 4); by apply Z.land_ones).
    pose proof (Z.mod_pos_bound type 16).
    apply calls_sysc_bind; [done|]. intros u Hu. apply calls_mem_bind. intros s1 E1.
    apply calls_mem_bind. intros s2 E2. apply calls_mem_bind. intros s3 E3.
    apply rpc_sized; [by rewrite (mem_write_zlen _ _ _ _ E3), (mem_write_zlen _ _ _ _ E2),
      (mem_write_zlen _ _ _ _ E1); apply Hu|done..|].
    rewrite !(put_int_frame _ _ _ _ _ E3) by (left; done).
    split_and!; [|eapply get_put_int; [lia|done]|by eapply get_put_int].
    rewrite (put_int_frame _ _ _ _ _ E2) by (left; done). eapply get_put_int; [lia|done].
Qed.
End wire_claims.

(** ** A service that answers *)

(** An environment in which the service accepts the RPC connection [sock],
    acknowledges the message and returns [ret] and [er], and nothing else fails. *)
Class Serving {W} (e : handler W) (sock ret er : Z) : Prop := {
  sv_sock : 0 <= sock;
  sv_ret : - 2 ^ 31 <= ret < 2 ^ 31;
  sv_er : - 2 ^ 31 <= er < 2 ^ 31;
  sv_uninit n w : 0 <= n → ∃ d w', e _ (SysUninit n) w = Some (d, w') ∧ zlen d = n;
  sv_strftime n w : 0 <= n → ∃ d w', e _ (SysStrftime n) w = Some (d, w') ∧ zlen d = n;
  sv_socket w : ∃ w', e _ (SysSocket AF_UNIX SOCK_STREAM 0) w = Some (sock, w');
  sv_connect a n w : ∃ w', e _ (SysConnect sock a n) w = Some (0, w');
  sv_open path w : ∃ fd w', e _ (SysOpen path) w = Some (fd, w');
  sv_random fd w : ∃ d w', e _ (SysRead fd CANARY_SZ) w = Some (CANARY_SZ, d, w') ∧ zlen d = CANARY_SZ;
  sv_ack w : ∃ w', e _ (SysRead sock 1) w = Some (1, [122], w');
  sv_answer w : ∃ w', e _ (SysRead sock (1 + sizeof_int + sizeof_int)) w =
    Some (zlen (retmsg ret er), retmsg ret er, w');
  sv_write d w : ∃ w', e _ (SysWrite sock d) w = Some (zlen d, w');
  sv_send fd d w : ∃ w', e _ (SysSend fd d 0) w = Some (zlen d, w');
  sv_close fd w : ∃ r w', e _ (SysClose fd) w = Some (r, w')
}.

Lemma mem_write_all d m : zlen d = zlen m → mem_write 0 d m = Ok d.
Proof. intros H. rewrite <- (app_nil_r m), mem_write_head by done. by rewrite app_nil_r. Qed.

Lemma run_access {W A B} (h : handler W) (a : A) (f : A → prog B) w :
  run h (access (Ok a) ≫= f) w = run h (f a) w.
Proof. done. Qed.

Lemma run_mem {W A B} (h : handler W) (a : A) (f : A → cl B) g w :
  run h ((mem (Ok a) ≫= f) g) w = run h (f a g) w.
Proof. done. Qed.

Lemma run_obj {W A B} (h : handler W) (a : A) (f : A → cl B) g w :
  run h ((obj (Some a) ≫= f) g) w = run h (f a g) w.
Proof. done. Qed.

Lemma run_sysc {W R B} (h : handler W) (c : sys R) (f : R → cl B) g w r w' :
  h _ c w = Some (r, w') → run h ((sysc c ≫= f) g) w = run h (f r g) w'.
Proof. unfold mbind, cl_bind, sysc, lib. intros H. by rewrite !run_bind, run_call, H. Qed.

Lemma run_ret {W A B} (h : handler W) (a : A) (f : A → cl B) g w :
  run h ((mret a ≫= f) g) w = run h (f a g) w.
Proof. done. Qed.

Lemma run_api {W B} (h : handler W) (f : unit → cl B) path sym w :
  run h ((get_api_netpath ≫= f) (Glob (Some path) sym)) w = run h (f tt (Glob (Some path) sym)) w.
Proof. done. Qed.

Section serving.
Context {W : Type} (e : handler W) (sock ret er : Z) {SV : Serving e sock ret er}.


Lemma get_retval_served p :
  ∃ w', run (with_lock e) (get_retval sock) p = Finished ret (Proc (p_locked p) er w').
Proof.
  destruct (sv_answer (e:=e) (p_env p)) as (w' & E). exists w'.
  apply (get_retval_run W e sock ret er p w'); [apply (sv_sock (e:=e))|apply (sv_ret (e:=e))|apply (sv_er (e:=e))|done].
Qed.

Ltac serve L :=
  rewrite run_mbind, run_call; cbn [with_lock]; unfold env_call; cbn [p_env p_locked p_errno];
  let w := fresh "w" in
  match goal with |- context [e _ _ ?v] =>
    first [ destruct (L v) as (w & ->)
          | destruct (L v) as (? & w & ->)
          | destruct (L v) as (? & w & -> & ?)
 ] end;
  cbn beta iota; cbn [p_env p_locked p_errno].

Lemma send_token_served b canary forfd er' w :
  ∃ n w', run (with_lock e) (if b && (-1 <? forfd) then call (SysSend forfd (canary ++ PADDING) 0)
    else mret 0) (Proc true er' w) = Finished n (Proc true er' w') ∧ 0 <= n.
Proof.
  destruct (b && (-1 <? forfd)); [|by exists 0, w]. rewrite run_call. cbn [with_lock].
  unfold env_call. cbn [p_env]. destruct (sv_send (e:=e) forfd (canary ++ PADDING) w) as (w' & ->).
  do 2 eexists. split; [done|]. apply zlen_nonneg.
Qed.

Lemma rpc_send_served fuel path cmd forfd data len p :
  p_locked p = false → cmd ∈ [RPC_CONNECT; RPC_BIND; RPC_LISTEN] →
  0 <= len <= zlen data → IDX_PAYLOAD + STRUCT_IDX + len <= BUF_SZ →
  ∃ w', run (with_lock e) (rpc_send_command (S fuel) (Some path) cmd forfd data len) p =
    Finished ret (Proc false er w').
Proof.
  intros Hp Hcmd Hl Hb.
  assert (0 <= cmd < 128) as Hc by (repeat (apply elem_of_cons in Hcmd as [->|Hcmd]; [done|]); by apply elem_of_nil in Hcmd).
  unfold rpc_send_command. rewrite run_mbind, run_call. cbn [with_lock]. rewrite Hp.
  rewrite run_mbind. unfold rpc_join.
  serve (sv_socket (e:=e)). rewrite (proj2 (Z.ltb_ge _ _) (sv_sock (e:=e))).
  cbn [rpc_join_loop]. serve (sv_connect (e:=e) (sockaddr_un path) sizeof_sockaddr_un).
  cbn [Z.eqb negb]. unfold mret, prog_ret. cbn [run].
  serve (sv_open (e:=e) "/dev/urandom"). serve (sv_random (e:=e) x). change (CANARY_SZ <? 0) with false.
  cbv iota. serve (λ w, sv_uninit (e:=e) CANARY_SZ w ltac:(done)). rewrite mem_write_all, run_access by congruence.
  serve (sv_close (e:=e) x). serve (λ w, sv_uninit (e:=e) BUF_SZ w ltac:(done)).
  rename x0 into canary, x3 into g.
  destruct (sv_strftime (e:=e) RPC_TIMESTAMP_SZ w5) as (ts & w6 & Ets & Hts); [done|].
  assert (message_ok ts cmd canary (take (Z.to_nat len) data)) as Hm
    by (split; [done..|rewrite zlen_take; lia]).
  destruct (client_message cmd canary data len ts g Hm) as (cb & E1 & E2); [done..|].
  rewrite E1, run_access. rewrite run_mbind, run_call. cbn [with_lock]. unfold env_call.
  cbn [p_env p_locked p_errno]. rewrite Ets. rewrite E2, run_access.
  set (m := message _ _ _ _). assert (zlen m = BUF_SZ) as Hmz by by apply message_zlen.
  serve (sv_write (e:=e) m). rewrite Hmz. change (BUF_SZ <? 0) with false. cbv iota.
  rewrite run_mbind. cbn [run]. serve (sv_ack (e:=e)). change (1 <? 0) with false. cbv iota.
  serve (λ w, sv_uninit (e:=e) 1 w ltac:(done)).
  rewrite mem_write_all, run_access by (symmetry; assumption).
  change (bool_decide ([122] = [122]) && (0 <? BUF_SZ)) with true. change (0 <? BUF_SZ) with true.
  destruct (send_token_served true canary forfd (p_errno p) w9) as (n & w10 & Es & Hn).
  rewrite run_mbind. unfold mret, prog_ret in *. rewrite Es, (proj2 (Z.ltb_ge _ _) Hn). cbv iota.
  assert (swrap 8 (wrap 8 cmd) = cmd) as ->.
  { unfold wrap. rewrite swrap_mod. apply swrap_small; lia. }
  destruct (get_retval_served (Proc true (p_errno p) w10)) as (w11 & Er).
  destruct (sv_close (e:=e) sock w11) as (rc & w12 & Ec).
  exists w12. repeat (apply elem_of_cons in Hcmd as [->|Hcmd]; [
    cbn [Z.eqb Pos.eqb orb RPC_CONNECT RPC_SOCKET RPC_BIND RPC_LISTEN RPC_GETSOCKNAME RPC_GETPEERNAME];
    rewrite run_mbind, Er; cbn [p_locked]; rewrite run_mbind, run_call; cbn [with_lock]; unfold env_call;
    cbn [p_env]; rewrite Ec; done|]). by apply elem_of_nil in Hcmd.
Qed.

(** The functions that make one call to the service. *)
Lemma rpc_served fuel cmd fd st g p path :
  p_locked p = false → cmd ∈ [RPC_CONNECT; RPC_BIND; RPC_LISTEN] → api_netpath g = Some path →
  IDX_PAYLOAD + STRUCT_IDX + zlen st <= BUF_SZ →
  ∃ w', run (with_lock e) (rpc (S fuel) cmd fd st (zlen st) g) p = Finished (ret, g) (Proc false er w').
Proof.
  intros Hp Hc Hg Hb. unfold rpc. unfold mbind, cl_bind, get_glob. cbn [prog_bind fst snd]. unfold lib.
  rewrite run_bind, Hg. pose proof (zlen_nonneg st).
  destruct (rpc_send_served fuel path cmd fd st (zlen st) p) as (w' & ->); [done|done|lia|done|].
  by exists w'.
Qed.

Lemma api_served {A} n (k : bytes → cl A) g path p r :
  p_locked p = false → api_netpath g = Some path → 0 <= n →
  (∀ u p', zlen u = n → p_locked p' = false →
     ∃ w', run (with_lock e) (k u g) p' = Finished (r, g) (Proc false er w')) →
  ∃ w', run (with_lock e) ((_ ← get_api_netpath; u ← sysc (SysUninit n); k u) g) p =
    Finished (r, g) (Proc false er w').
Proof.
  intros Hp Hg Hn Hk. unfold get_api_netpath, zts_init_rpc, mbind, cl_bind, get_glob.
  cbn [prog_bind fst snd]. rewrite Hg. unfold mret, cl_ret, sysc, lib. cbn [prog_bind fst snd call].
  cbn [run]. cbn [with_lock]. unfold env_call.
  destruct (sv_uninit (e:=e) n (p_env p) Hn) as (u & w & -> & Hu). by apply Hk.
Qed.
End serving.

Lemma addr_st_total fd addr addrlen g :
  sizeof_sockaddr_storage <= zlen addr → zlen g = sizeof_bind_st →
  ∃ st, addr_st fd addr addrlen g = Ok st ∧ zlen st = sizeof_bind_st.
Proof.
  intros Ha Hg. unfold addr_st, sizeof_bind_st, sizeof_sockaddr_storage in *.
  destruct (mem_write_total OFF_fd (le_bytes 4 fd) g) as (s1 & E1 & H1); [done|rewrite Hg; done|].
  unfold put_int. rewrite E1. cbn [mbind cres_bind]. unfold mem_copy.
  rewrite mem_read_ok by lia. cbn [mbind cres_bind].
  match goal with |- context [mem_write OFF_addr ?d s1] =>
    destruct (mem_write_total OFF_addr d s1) as (s2 & -> & H2); [done| |] end.
  { rewrite zlen_take; [rewrite H1, Hg; done|]. rewrite zlen_drop; lia. }
  cbn [mbind cres_bind].
  destruct (mem_write_total OFF_addrlen (le_bytes 4 addrlen) s2) as (s3 & -> & H3);
    [done|rewrite H2, H1, Hg; done|].
  exists s3. split; [done|lia].
Qed.

(** C34: the functions of the API return what the service answers.  Whenever the
    service accepts the connection, acknowledges the message and answers, and
    nothing else fails, [zts_connect], [zts_bind] and [zts_listen] return the
    service's return value, leave its error code in [errno] and the mutex free, so
    that the next call can be made. *)
Theorem api_returns W (e : handler W) sock ret er fuel fd addr addrlen backlog path sym p :
  Serving e sock ret er → sizeof_sockaddr_storage <= zlen addr → p_locked p = false →
  let g := Glob (Some path) sym in
  (∃ w', run (with_lock e) (zts_connect (S fuel) fd (Some addr) addrlen g) p =
     Finished (ret, g) (Proc false er w')) ∧
  (∃ w', run (with_lock e) (zts_bind (S fuel) fd (Some addr) addrlen g) p =
     Finished (ret, g) (Proc false er w')) ∧
  (∃ w', run (with_lock e) (zts_listen (S fuel) fd backlog g) p =
     Finished (ret, g) (Proc false er w')).
Proof.
  intros SV Ha Hp g. split_and!.
  - apply (api_served e sock ret er _ _ g path); [done..|]. intros u p' Hu Hp'.
    destruct (addr_st_total fd addr addrlen u) as (st & E & Hst); [done..|].
    rewrite run_obj, E, run_mem. change sizeof_connect_st with sizeof_bind_st. rewrite <- Hst.
    eapply (rpc_served e sock); try done; [by repeat constructor|by rewrite Hst].
  - apply (api_served e sock ret er _ _ g path); [done..|]. intros u p' Hu Hp'.
    destruct (addr_st_total fd addr addrlen u) as (st & E & Hst); [done..|].
    rewrite run_obj, E, run_mem. change sizeof_connect_st with sizeof_bind_st. rewrite <- Hst.
    eapply (rpc_served e sock); try done; [by repeat constructor|by rewrite Hst].
  - apply (api_served e sock ret er _ _ g path); [done..|]. intros u p' Hu Hp'.
    destruct (mem_write_total OFF_fd (le_bytes 4 fd) u) as (s1 & E1 & H1); [done|by rewrite Hu|].
    destruct (mem_write_total OFF_backlog (le_bytes 4 backlog) s1) as (s2 & E2 & H2); [done|by rewrite H1, Hu|].
    unfold put_int. rewrite E1. rewrite run_mem, E2, run_mem.
    rewrite <- H1, <- H2 in Hu. rewrite <- Hu.
    eapply (rpc_served e sock); try done; [by repeat constructor|by rewrite Hu].
Qed.

(** ** Receiving *)

Lemma read_chunk_one {W} (h : handler W) n fd chunk w w' :
  h _ (SysRead fd SDK_MTU) w = Some (SDK_MTU, chunk, w') → zlen chunk = SDK_MTU →
  run h (read_chunk (S n) fd 0 (memset SDK_MTU 0) 0) w = Finished (inr (chunk, SDK_MTU)) w'.
Proof.
  intros H Hz. cbn [read_chunk]. change (0 <? SDK_MTU) with true. cbv iota.
  rewrite run_mbind, run_call, H. rewrite mem_write_all, run_access by (by rewrite Hz).
  destruct n; reflexivity.
Qed.

Lemma mem_copy_0 dst off n src :
  0 <= off → 0 <= n → off + n <= zlen src → n <= zlen dst →
  mem_copy 0 dst off n src = Ok (take (Z.to_nat n) (drop (Z.to_nat off) src) ++ drop (Z.to_nat n) dst).
Proof.
  intros H0 H1 H2 H3. unfold mem_copy. rewrite mem_read_ok by done. cbn [mbind cres_bind].
  set (d := take _ _). assert (zlen d = n) as Hd by (unfold d; rewrite zlen_take, ?zlen_drop; rewrite ?zlen_drop; lia).
  rewrite mem_write_ok by lia. by rewrite Hd.
Qed.

(** A datagram is delivered.  When the service's chunk - 128 bytes of address, the
    length, the payload - arrives in one read, [zts_recvfrom] returns the number of
    bytes that fit the application's buffer, and the buffer and the address start
    with those of the datagram; nothing behind them is touched. *)
Theorem recvfrom_datagram W (h : handler W) n fd a d rest buf len fl addr alen g w w' :
  let chunk := a ++ le_bytes 4 (zlen d) ++ d ++ rest in
  zlen a = sizeof_sockaddr_storage → zlen chunk = SDK_MTU → 0 <= len <= zlen buf →
  0 <= alen <= sizeof_sockaddr_storage → alen <= zlen addr →
  h _ (SysRead fd SDK_MTU) w = Some (SDK_MTU, chunk, w') →
  let m := Z.min len (zlen d) in
  run h (zts_recvfrom (S n) fd buf len fl (Some addr) (Some alen) g) w =
    Finished (m, take (Z.to_nat m) d ++ drop (Z.to_nat m) buf,
              Some (take (Z.to_nat alen) a ++ drop (Z.to_nat alen) addr), g) w'.
Proof.
  intros chunk Ha Hz Hl Hal Hal' Hr m. unfold zts_recvfrom, lib. unfold mbind, cl_bind.
  rewrite !run_bind, (read_chunk_one h n fd chunk w w') by done. cbn [run fst snd].
  change (0 <? SDK_MTU) with true. cbv iota. unfold unpack_chunk. rewrite !run_obj.
  pose proof (zlen_nonneg d). pose proof (zlen_nonneg rest).
  assert (zlen d + zlen rest = 1068) as Hd.
  { unfold chunk in Hz. rewrite !zlen_app, Ha, zlen_le_bytes in Hz.
    unfold SDK_MTU, sizeof_sockaddr_storage in Hz. lia. }
  unfold sizeof_sockaddr_storage, SDK_MTU in *. rewrite mem_copy_0, run_mem by lia.
  rewrite drop_0. assert (get_int 128 chunk = Ok (zlen d)) as ->.
  { unfold get_int, chunk. rewrite mem_read_seg by done. cbn [mbind cres_bind]. by rewrite int_roundtrip by lia. }
  rewrite run_mem. assert (∃ x, get_int (128 + sizeof_int) chunk = Ok x) as (x & ->).
  { unfold get_int, sizeof_int. rewrite mem_read_ok by lia. by eexists. }
  rewrite run_mem. rewrite (proj2 (Z.ltb_ge 1200 _)), (proj2 (Z.ltb_ge _ 0)) by lia. cbn [orb].
  set (c1 := if len <? 1200 then len else 1200).
  assert ((if zlen d <? c1 then zlen d else c1) = m) as ->.
  { unfold c1, m. destruct (Z.ltb_spec len 1200), (Z.ltb_spec (zlen d) c1); unfold c1 in *; repeat case_match; lia. }
  unfold sizeof_int. rewrite mem_copy_0, run_mem by lia. unfold mret, cl_ret. cbn [run].
  assert (drop (Z.to_nat (4 + 128)) chunk = d ++ rest) as ->.
  { unfold chunk. rewrite app_assoc. apply drop_app_length'. rewrite length_app, length_le_bytes.
    unfold zlen in Ha. lia. }
  rewrite (take_app_le d) by (unfold zlen in *; lia).
  unfold chunk. by rewrite take_app_le by (unfold zlen in *; lia).
Qed.


(** ** Scatter and gather *)

Lemma gather_concat iov a b :
  zlen (concat iov) <= zlen b →
  gather iov (zlen a) (a ++ b) = Ok (a ++ concat iov ++ drop (length (concat iov)) b).
Proof.
  revert a b. induction iov as [|v iov IH]; intros a b Hl; simpl in *; [by rewrite drop_0|].
  rewrite zlen_app in Hl. pose proof (zlen_nonneg (concat iov)). pose proof (zlen_nonneg v).
  destruct (bytes_split (zlen v) b) as (b1 & b2 & -> & Hb); [lia|]. rewrite zlen_app in Hl.
  rewrite mem_write_seg by done. cbn [mbind cres_bind]. rewrite app_assoc, <- (zlen_app a v).
  rewrite IH by lia. rewrite <- !app_assoc. do 4 f_equal.
  rewrite length_app, <- drop_drop. f_equal. symmetry. apply drop_app_length'. unfold zlen in Hb. lia.
Qed.

Lemma scatter_concat iov p n buf :
  0 <= p → 0 <= n <= zlen (concat iov) → p + n <= zlen buf →
  ∃ iov', scatter iov p n buf = Ok iov' ∧ length <$> iov' = length <$> iov ∧
    concat iov' = take (Z.to_nat n) (drop (Z.to_nat p) buf) ++ drop (Z.to_nat n) (concat iov).
Proof.
  revert p n. induction iov as [|v iov IH]; intros p n Hp Hn Hl; cbn [scatter].
  - assert (n = 0) as -> by (change (zlen (concat [])) with 0 in Hn; lia).
    exists []. done.
  - change (concat (v :: iov)) with (v ++ concat iov) in *. rewrite zlen_app in Hn.
    pose proof (zlen_nonneg v). pose proof (zlen_nonneg (concat iov)). destruct (Z.ltb_spec 0 n) as [Hpos|Hpos].
    2: { exists (v :: iov). by replace (Z.to_nat n) with O by lia. }
    set (c := if n <? zlen v then n else zlen v).
    assert (0 <= c <= zlen v ∧ c <= n ∧ n - c <= zlen (concat iov) ∧ (c < zlen v → n = c)) as (H1 & H2 & H3 & H4)
      by (unfold c; destruct (Z.ltb_spec n (zlen v)); lia).
    clearbody c. rewrite mem_copy_0 by lia. cbn [mbind cres_bind].
    destruct (IH (p + c) (n - c)) as (iov' & -> & Hlen & Hc); [lia..|]. cbn [mbind cres_bind].
    set (v' := take _ _ ++ _). exists (v' :: iov'). split; [done|]. split.
    { rewrite !fmap_cons, Hlen. f_equal. unfold v'. unfold zlen in *.
      rewrite length_app, length_take, !length_drop. lia. }
    change (concat (v' :: iov')) with (v' ++ concat iov'). rewrite Hc. unfold v'.
    destruct (decide (c = zlen v)) as [Ec|Ec].
    + rewrite (drop_ge v) by (unfold zlen in *; lia). rewrite app_nil_r, (drop_app_ge v) by (unfold zlen in *; lia).
      rewrite app_assoc. f_equal; [|f_equal; unfold zlen in *; lia].
      replace (Z.to_nat n) with (Z.to_nat c + Z.to_nat (n - c))%nat by lia.
      replace (Z.to_nat (p + c)) with (Z.to_nat p + Z.to_nat c)%nat by lia.
      by rewrite <- drop_drop, take_take_drop.
    + assert (n = c) as -> by lia. rewrite Z.sub_diag, take_0, drop_0, <- app_assoc.
      f_equal. rewrite drop_app_le by (unfold zlen in *; lia). done.
Qed.

(** Scatter and gather.  [zts_sendmsg] sends the elements of the array one after
    another as one message of their total length; [zts_recvmsg] distributes the
    [n] bytes it got over the elements in order, leaves their lengths alone and
    what is behind the last byte untouched. *)
Theorem msg_gather_scatter W (h : handler W) sendto recvfrom fd msg flags g w w1 w2 u :
  let tot := zlen (concat (msg_iov msg)) in
  tot < 2 ^ 63 → h _ (SysMalloc tot) w = Some (true, w1) →
  h _ (SysUninit tot) w1 = Some (u, w2) → zlen u = tot →
  (tot <= ZT_UDP_DEFAULT_PAYLOAD_MTU →
   run h (zts_sendmsg sendto fd msg flags g) w =
     run h (sendto fd (concat (msg_iov msg)) tot flags (msg_name msg) (msg_namelen msg) g) w2) ∧
  (∀ n buf name' g' w3,
   run h (recvfrom fd u tot flags (msg_name msg) (Some (msg_namelen msg)) g) w2 =
     Finished (n, buf, name', g') w3 → 0 <= n <= tot → zlen buf = tot →
   ∃ msg', run h (zts_recvmsg recvfrom fd msg flags g) w = Finished (n, msg', g') w3 ∧
     msg_name msg' = name' ∧ length <$> msg_iov msg' = length <$> msg_iov msg ∧
     concat (msg_iov msg') = take (Z.to_nat n) buf ++ drop (Z.to_nat n) (concat (msg_iov msg))).
Proof.
  intros tot Ht Hm Hu Hz. pose proof (zlen_nonneg (concat (msg_iov msg))). fold tot in H. split.
  - intros Hs. unfold zts_sendmsg, iov_len. fold tot. unfold wrap. rewrite Z.mod_small by lia.
    rewrite (proj2 (Z.ltb_ge _ _)) by done. unfold mbind, cl_bind, sysc, lib, mem.
    rewrite !run_bind, run_call, Hm. cbn [run fst snd]. rewrite andb_false_r.
    rewrite !run_bind, run_call, Hu. cbn [run fst snd].
    pose proof (gather_concat (msg_iov msg) [] u) as Hg. change (zlen []) with 0 in Hg. simpl in Hg.
    rewrite Hg by (fold tot; lia). rewrite !run_bind. cbn [access run fst snd].
    rewrite drop_ge, app_nil_r by (unfold tot, zlen in *; lia). done.
  - intros n buf name' g' w3 Hr Hn Hb. unfold zts_recvmsg. fold tot. rewrite swrap_small by lia.
    unfold mbind, cl_bind, sysc, lib, mem.
    rewrite !run_bind, run_call, Hm. cbn [run fst snd]. rewrite andb_false_r.
    rewrite !run_bind, run_call, Hu. cbn [run fst snd]. rewrite !run_bind, Hr. cbn [fst snd].
    destruct (scatter_concat (msg_iov msg) 0 n buf) as (iov' & -> & Hl & Hc); [lia|done|lia|].
    rewrite !run_bind. cbn [access run fst snd]. unfold mret, cl_ret. cbn [run].
    eexists. split; [reflexivity|]. done.
Qed.

(** An unreachable service is reported as success.  If the command of
    [zts_getsockname] fails, nothing is read and the function still returns 0, with
    the address 0.0.0.0 and port 0. *)
Theorem getsockname_without_service W (h : handler W) fuel fd addr alen path sym w w1 w2 u :
  let g := Glob (Some path) sym in
  16 <= zlen addr → h _ (SysUninit sizeof_getsockname_st) w = Some (u, w1) →
  zlen u = sizeof_getsockname_st →
  (∀ st, run h (rpc_send_command fuel (Some path) RPC_GETSOCKNAME fd st sizeof_getsockname_st) w1 =
     Finished (-1) w2) →
  run h (zts_getsockname fuel fd addr alen g) w =
    Finished (0, Some (le_bytes 2 AF_INET ++ memset 14 0 ++ drop 16 addr, sizeof_sockaddr_in), g) w2.
Proof.
  intros g Ha Hu Hz Hr. unfold zts_getsockname, zts_getname.
  unfold g at 1. rewrite run_api. fold g. rewrite (run_sysc _ _ _ _ _ u w1) by done.
  destruct (mem_write_total OFF_fd (le_bytes 4 fd) u) as (s1 & E1 & H1); [done|by rewrite Hz|].
  unfold put_int. rewrite E1, run_mem.
  destruct (mem_write_total OFF_addrlen (le_bytes 4 alen) s1) as (s2 & E2 & H2);
    [done|by rewrite H1, Hz|].
  rewrite E2, run_mem. unfold mbind at 1, cl_bind at 1. rewrite run_bind.
  change (rpc fuel RPC_GETSOCKNAME fd s2 sizeof_getsockname_st g)
    with (lib (rpc_send_command fuel (Some path) RPC_GETSOCKNAME fd s2 sizeof_getsockname_st) g).
  unfold lib at 1. rewrite run_bind, Hr. cbn [run fst snd]. change (-1 <? -1) with false. cbv iota.
  rewrite run_ret. cbv iota.
  rewrite mem_copy_0 by (rewrite ?zlen_memset by done; done || (unfold sizeof_sockaddr; lia)).
  rewrite run_mem.
  change (take (Z.to_nat sizeof_sockaddr) (drop (Z.to_nat 0) (memset sizeof_sockaddr_storage 0)))
    with (memset 2 0 ++ memset 14 0). rewrite <- app_assoc, mem_write_head, run_mem by done. done.
Qed.

(** ** Examples *)

Definition demo_glob : glob := Glob (Some [47; 97]) true.

Lemma api_wire_witness :
  all_calls sized (decodes RPC_LISTEN 6 sizeof_listen_st (λ a,
      get_int OFF_fd a = Ok 6 ∧ get_int OFF_backlog a = Ok 10))
    (zts_listen 1 6 10 demo_glob).
Proof. apply (api_wire 1 46 6 (memset 128 0) 16 10 2 1 0 demo_glob); lia. Defined.

(** A service that answers every command with [ret] and [er]. *)
Definition answering (ret er : Z) : handler unit := λ R c,
  match c in sys R return unit → option (R * unit) with
  | SysRead _ n => λ w,
      if n =? 1 then Some (1, [122], w)
      else if n =? 9 then Some (9, retmsg ret er, w)
      else Some (n, memset n 7, w)
  | c => obliging _ c
  end.

Lemma answering_serves : Serving (answering (-1) 98) 5 (-1) 98.
Proof.
  split; try lia; intros; simpl; repeat eexists; try done; by apply zlen_memset.
Qed.

Lemma api_returns_witness :
  ∃ w', run (with_lock (answering (-1) 98)) (zts_bind 1 6 (Some (memset 128 0)) 16 demo_glob)
          (Proc false 0 tt) = Finished (-1, demo_glob) (Proc false 98 w').
Proof.
  destruct (api_returns unit (answering (-1) 98) 5 (-1) 98 0 6 (memset 128 0) 16 10 [47; 97] true
    (Proc false 0 tt)) as (_ & H & _); [apply answering_serves|vm_compute; congruence|reflexivity|].
  exact H.
Defined.

(** The service sends one chunk for ever, or one chunk after the other. *)
Definition chunks (l : bytes) : handler unit := λ R c,
  match c in sys R return unit → option (R * unit) with
  | SysRead _ n => λ w, Some (zlen l, l, w)
  | _ => λ _, None
  end.

Definition demo_chunk (sz : Z) : bytes := memset 128 3 ++ le_bytes 4 sz ++ [1; 2; 3] ++ memset 1065 9.

Lemma recvfrom_datagram_witness :
  run (chunks (demo_chunk 3)) (zts_recvfrom 1 6 (memset 5 0) 5 0 (Some (memset 16 0)) (Some 16) demo_glob) tt =
    Finished (3, [1; 2; 3; 0; 0], Some (memset 16 3), demo_glob) tt.
Proof.
  apply (recvfrom_datagram unit (chunks (demo_chunk 3)) 0 6 (memset 128 3) [1; 2; 3] (memset 1065 9)
    (memset 5 0) 5 0 (memset 16 0) 16 demo_glob tt tt); vm_compute; intuition congruence.
Defined.


(** Memory can always be had; [sendto] writes, [recvfrom] delivers three bytes. *)
Definition roomy : handler unit := λ R c,
  match c in sys R return unit → option (R * unit) with
  | SysMalloc _ => λ w, Some (true, w)
  | SysUninit n => λ w, Some (memset n 0, w)
  | SysWrite _ d => λ w, Some (zlen d, w)
  | _ => λ _, None
  end.

Definition demo_sendto (fd : Z) (d : bytes) (len fl : Z) (a : option bytes) (n : Z) : cl Z :=
  sysc (SysWrite fd d).
Definition demo_recvfrom (fd : Z) (b : bytes) (len fl : Z) (a : option bytes) (n : option Z) :
    cl (Z * bytes * option bytes) := mret (3, [7; 8; 9; 0; 0], a).
Definition demo_msg : msghdr := Msghdr None 0 [[1; 2]; []; [3; 4; 5]] 0 0.

Lemma msg_gather_scatter_witness :
  run roomy (zts_sendmsg demo_sendto 6 demo_msg 0 demo_glob) tt =
    Finished (5, demo_glob) tt ∧
  ∃ msg', run roomy (zts_recvmsg demo_recvfrom 6 demo_msg 0 demo_glob) tt =
    Finished (3, msg', demo_glob) tt ∧ concat (msg_iov msg') = [7; 8; 9; 4; 5].
Proof.
  destruct (msg_gather_scatter unit roomy demo_sendto
    demo_recvfrom 6 demo_msg 0 demo_glob tt tt tt (memset 5 0))
    as [H1 H2]; [vm_compute; reflexivity..|].
  split; [rewrite H1; [reflexivity|vm_compute; congruence]|].
  destruct (H2 3 [7; 8; 9; 0; 0] None demo_glob tt) as (msg' & E & _ & _ & Hc);
    [reflexivity|vm_compute; split; congruence|reflexivity|].
  exists msg'. split; [exact E|exact Hc].
Defined.

(** There are no random numbers, so that [rpc_send_command] gives up. *)
Definition no_random : handler unit := λ R c,
  match c in sys R return unit → option (R * unit) with
  | SysRead _ _ => λ w, Some (-1, [], w)
  | c => obliging _ c
  end.

Lemma getsockname_without_service_witness :
  run (with_lock no_random) (zts_getsockname 1 6 (memset 16 9) 0 demo_glob) (Proc false 0 tt) =
    Finished (0, Some (le_bytes 2 AF_INET ++ memset 14 0 ++ [], sizeof_sockaddr_in), demo_glob)
      (Proc true 0 tt).
Proof.
  apply (getsockname_without_service (proc unit) (with_lock no_random) 1 6 (memset 16 9) 0 [47; 97] true
    (Proc false 0 tt) (Proc false 0 tt) (Proc true 0 tt) (memset sizeof_getsockname_st 0));
    [vm_compute; congruence|reflexivity|reflexivity|].
  intros st. reflexivity.
Defined.
