(* ===== verification/Intercept.v ===== *)
(** * The interposed functions (src/intercept.c)

    A dynamically linked application that is started with the library preloaded
    calls these functions instead of the C library's; they pass local sockets on to
    the kernel and the others to the functions of Sockets.v.  This is the Linux
    build without the bundled service, in which interception is always enabled.

    The strings that [connect] and [bind] format for the debug output are left
    out. *)

From S2P Require Import Prelude Sys Rpc Sockets.
From stdpp Require Import base numbers list strings option.

Open Scope Z_scope.

Definition AF_NETLINK : Z := 16.
Definition SOL_IP : Z := 0.
Definition SOL_IPV6 : Z := 41.
Definition IPPROTO_TCP : Z := 6.
Definition IP_TOS : Z := 1.
Definition IP_TTL : Z := 2.
Definition IPV6_V6ONLY : Z := 26.
Definition SO_KEEPALIVE : Z := 9.
Definition F_GETFD : Z := 1.
Definition EBADF : Z := 9.
Definition EMFILE : Z := 24.
Definition NR_accept4 : Z := 288.

(** The pointers [load_symbols] sets. *)
Definition load_symbols_names : list string :=
  ["accept4"; "syscall"; "setsockopt"; "getsockopt"; "socket"; "connect"; "accept"; "listen";
   "close"; "getsockname"; "bind"; "sendto"; "recvfrom"; "recvmsg"].

Definition load_symbols : cl unit :=
  g ← get_glob; set_glob (Glob (api_netpath g) true).

(** A call through the pointer [real<name>], which is null until [load_symbols] has
    set it. *)
Definition real {R} (name : string) (c : sys R) : cl R :=
  g ← get_glob;
  if symbols g && bool_decide (name ∈ load_symbols_names) then sysc c else fault NullPointer.

Definition check_intercept_enabled : cl bool :=
  g ← get_glob;
  _ ← (if symbols g then mret tt else load_symbols);
  mret true.

(** [sa_family] of an address *)
Definition sa_family (addr : bytes) : cres Z := d ← mem_read 0 2 addr; Ok (le_val d).

Definition is_local (family : Z) : bool :=
  (family =? AF_UNIX) || (family =? AF_NETLINK) || (family =? AF_UNIX).

Definition connected_to_service (sockfd : Z) : cl bool :=
  u ← sysc (SysUninit sizeof_sockaddr_storage);
  '(_, d) ← sysc (SysGetpeername sockfd);
  addr ← mem (mem_write 0 d u);
  family ← mem (sa_family addr);
  if (family =? AF_UNIX) || (family =? AF_UNIX) then
    g ← get_glob;
    np ← obj (api_netpath g);
    mret (bool_decide (c_str (drop 2 addr) = c_str np))
  else mret false.

Definition std_fd (fd : Z) : bool := (fd =? 0) || (fd =? 1) || (fd =? 2).

Section intercept.
Context (fuel : nat) (NPROTO : Z).

(** ** Options *)

Definition setsockopt (fd level optname : Z) (optval : bytes) : cl Z :=
  en ← check_intercept_enabled;
  if negb en then real "setsockopt" (SysSetsockopt fd level optname optval)
  else if (level =? SOL_IPV6) && (optname =? IPV6_V6ONLY) then mret 0
  else if (level =? SOL_IP) && ((optname =? IP_TTL) || (optname =? IP_TOS)) then mret 0
  else if (level =? IPPROTO_TCP) || ((level =? SOL_SOCKET) && (optname =? SO_KEEPALIVE)) then mret 0
  else
    _ ← real "setsockopt" (SysSetsockopt fd level optname optval);
    zts_setsockopt fd level optname optval.

(** The kernel stores a value unless it fails. *)
Definition getsockopt (fd level optname : Z) : cl (Z * option Z) :=
  en ← check_intercept_enabled;
  conn ← (if negb en then mret false else connected_to_service fd);
  if negb en || negb conn then
    '(r, v) ← real "getsockopt" (SysGetsockopt fd level optname);
    mret (r, if r <? 0 then None else Some v)
  else zts_getsockopt fd level optname.

(** ** Creating and naming sockets *)

Definition socket (socket_family socket_type protocol : Z) : cl Z :=
  en ← check_intercept_enabled;
  r ← (if negb en && negb (socket_type =? 0) then
         err ← real "socket" (SysSocket socket_family socket_type protocol);
         mret (if err <? 0 then None else Some err)
       else mret None);
  match r with
  | Some err => mret err
  | None =>
      if is_local socket_family then real "socket" (SysSocket socket_family socket_type protocol)
      else zts_socket fuel NPROTO socket_family socket_type protocol
  end.

Definition connect (fd : Z) (addr : option bytes) (addrlen : Z) : cl Z :=
  a ← obj addr;
  family ← mem (sa_family a);
  en ← check_intercept_enabled;
  if negb en then real "connect" (SysConnect fd a addrlen)
  else
    '(r, _) ← getsockopt fd SOL_SOCKET SO_TYPE;
    if r <? 0 then _ ← set_errno ENOTSOCK; mret (-1)
    else if (family <? 0) || (NPROTO <=? family) then _ ← set_errno EAFNOSUPPORT; mret (-1)
    else if std_fd fd then real "connect" (SysConnect fd a addrlen)
    else if is_local family then real "connect" (SysConnect fd a addrlen)
    else zts_connect fuel fd addr addrlen.

Definition bind (fd : Z) (addr : option bytes) (addrlen : Z) : cl Z :=
  if std_fd fd then real "bind" (SysBind fd (default [] addr) addrlen)
  else
    a ← obj addr;
    family ← mem (sa_family a);
    if is_local family then real "bind" (SysBind fd a addrlen)
    else
      '(r, _) ← getsockopt fd SOL_SOCKET SO_TYPE;
      if r <? 0 then _ ← set_errno ENOTSOCK; mret (-1)
      else
        en ← check_intercept_enabled;
        if negb en then real "bind" (SysBind fd a addrlen)
        else
          '(r, _) ← getsockopt fd SOL_SOCKET SO_TYPE;
          if r <? 0 then _ ← set_errno ENOTSOCK; mret (-1)
          else zts_bind fuel fd addr addrlen.

Definition listen (fd backlog : Z) : cl Z :=
  en ← check_intercept_enabled;
  conn ← (if negb en then mret false else connected_to_service fd);
  if negb en || negb conn then real "listen" (SysListen fd backlog)
  else if std_fd fd then real "listen" (SysListen fd backlog)
  else zts_listen fuel fd backlog.

(** The kernel's [accept] stores the peer's address if it is given room for it. *)
Definition realaccept (fd : Z) (addr : option bytes) : cl (Z * option bytes) :=
  '(r, d) ← real "accept" (SysAccept fd);
  match addr with
  | Some a => a ← mem (mem_write 0 d a); mret (r, Some a)
  | None => mret (r, None)
  end.

(** The comparison of the pointer [addrlen] with 0 is never true. *)
Definition accept (fd : Z) (addr : option bytes) : cl (Z * option bytes) :=
  en ← check_intercept_enabled;
  if negb en then realaccept fd addr
  else
    r ← sysc (SysFcntl fd F_GETFD 0);
    if r <? 0 then mret (-1, addr)
    else
      rlim_cur ← sysc SysRlimitNofile;
      if rlim_cur <=? wrap 64 fd then _ ← set_errno EMFILE; mret (-1, addr)
      else if std_fd fd then realaccept fd addr
      else zts_accept fd addr.

Definition accept4 (fd : Z) (addr : option bytes) (flags : Z) : cl (Z * option bytes) :=
  zts_accept4 accept fd addr flags.

Definition close (fd : Z) : cl Z :=
  en ← check_intercept_enabled;
  if negb en then real "close" (SysClose fd) else zts_close fd.

Definition realgetsockname (fd : Z) (addr : bytes) : cl (Z * option (bytes * Z)) :=
  '(r, d) ← real "getsockname" (SysGetsockname fd);
  a ← mem (mem_write 0 d addr);
  mret (r, Some (a, zlen d)).

Definition getsockname (fd : Z) (addr : bytes) (addrlen : Z) : cl (Z * option (bytes * Z)) :=
  en ← check_intercept_enabled;
  if negb en then realgetsockname fd addr
  else
    conn ← connected_to_service fd;
    if negb conn then realgetsockname fd addr
    else zts_getsockname fuel fd addr addrlen.

(** ** Transfers *)

Definition sendto (fd : Z) (buf : bytes) (len flags : Z) (addr : option bytes) (addrlen : Z) : cl Z :=
  en ← check_intercept_enabled;
  if negb en then
    d ← mem (mem_read 0 len buf);
    real "sendto" (SysSendto fd d flags (default [] addr) addrlen)
  else zts_sendto fuel getsockopt fd buf len flags addr addrlen.

Definition sendmsg (fd : Z) (msg : msghdr) (flags : Z) : cl Z :=
  real "sendmsg" (SysSendmsg fd (concat (msg_iov msg)) None).

Definition recvfrom (rfuel : nat) (fd : Z) (buf : bytes) (len flags : Z)
    (addr : option bytes) (addrlen : option Z) : cl (Z * bytes * option bytes) :=
  zts_recvfrom rfuel fd buf len flags addr addrlen.

(** The result and the bytes the kernel delivered. *)
Definition recvmsg (fd : Z) (msg : msghdr) (flags : Z) : cl (Z * bytes) :=
  '(r, d, _) ← real "recvmsg" (SysRecvmsg fd (zlen (concat (msg_iov msg))));
  mret (r, d).

(** [syscall]; [addr] is the object that the second argument points to. *)
Definition syscall (number : Z) (args : list Z) (addr : option bytes) : cl (Z * option bytes) :=
  en ← check_intercept_enabled;
  if negb en then r ← real "syscall" (SysSyscall number args); mret (r, addr)
  else if number =? NR_accept4 then
    let sockfd := swrap 32 (default 0 (args !! 0%nat)) in
    let flags := swrap 32 (default 0 (args !! 3%nat)) in
    old_errno ← sysc SysErrno;
    '(err, addr) ← accept4 sockfd addr flags;
    _ ← set_errno old_errno;
    mret (if err =? - EBADF then - EAGAIN else err, addr)
  else r ← real "syscall" (SysSyscall number args); mret (r, addr).
End intercept.

(** ** Properties *)

(** The calls an interposed [connect] to a local address may make: questions about
    the socket, and the kernel's [connect] with the same arguments. *)
Definition asks_or_connects (fd : Z) (addr : bytes) (addrlen : Z) : call_pred := λ R c,
  match c with
  | SysUninit _ | SysGetpeername _ | SysGetsockopt _ _ _ | SysSetErrno _ => True
  | SysConnect fd' addr' addrlen' => fd' = fd ∧ addr' = addr ∧ addrlen' = addrlen
  | _ => False
  end.

Section claims.
Context (fuel : nat) (NPROTO : Z).

Lemma real_loaded {R} name (c : sys R) np :
  bool_decide (name ∈ load_symbols_names) = true → real name c (Glob np true) = sysc c (Glob np true).
Proof.
  intros H. unfold real, mbind, cl_bind, get_glob. cbn [prog_bind fst snd symbols andb].
  by rewrite H.
Qed.

Lemma obj_bind {A B} (a : A) (f : A → cl B) g : (obj (Some a) ≫= f) g = f a g.
Proof. done. Qed.
Lemma mem_bind {A B} (a : A) (f : A → cl B) g : (mem (Ok a) ≫= f) g = f a g.
Proof. done. Qed.

(** Programs with globals, whatever the globals become. *)
Lemma calls_bind {A B} P (m : cl A) (f : A → cl B) g :
  all_calls sized P (m g) → (∀ a g', all_calls sized P (f a g')) → all_calls sized P ((m ≫= f) g).
Proof. intros Hm Hf. apply all_calls_bind; [done|]. intros [a g']. apply Hf. Qed.

Lemma calls_real {R} (P : call_pred) name (c : sys R) g : P _ c → all_calls sized P (real name c g).
Proof.
  intros H. unfold real. apply calls_bind; [done|]. intros g1 g2.
  destruct (_ && _); [|done]. by apply calls_lib.
Qed.

Lemma calls_check P g : all_calls sized P (check_intercept_enabled g).
Proof. by destruct g as [np [|]]. Qed.

Lemma calls_connected fd addr addrlen fd' g :
  all_calls sized (asks_or_connects fd addr addrlen) (connected_to_service fd' g).
Proof.
  unfold connected_to_service. apply calls_sysc_bind; [done|]. intros u _.
  apply calls_sysc_bind; [done|]. intros [r d] _. apply calls_mem_bind. intros a _.
  apply calls_mem_bind. intros fam _. destruct (_ || _); [|done]. apply calls_get_glob_bind.
  by destruct (api_netpath g).
Qed.

Lemma calls_getsockopt fd addr addrlen fd' level optname g :
  all_calls sized (asks_or_connects fd addr addrlen) (getsockopt fd' level optname g).
Proof.
  unfold getsockopt. apply calls_bind; [apply calls_check|]. intros en g1.
  apply calls_bind; [destruct (negb en); [done|apply calls_connected]|]. intros conn g2.
  destruct (_ || _).
  - apply calls_bind; [by apply calls_real|]. by intros [r v] g3.
  - unfold zts_getsockopt. by case_match.
Qed.

(** Local sockets stay with the kernel.  An interposed [socket] of a local or
    netlink family, once the library's pointers are loaded an interposed [bind] to
    such an address, are the kernel's calls with the same arguments and nothing
    else; and an interposed [connect] to such an address only asks about the
    socket and calls the kernel's [connect] with the same arguments: no command is
    ever sent to the service. *)
Theorem intercept_local fd type protocol addr addrlen family g :
  is_local family = true → sa_family addr = Ok family →
  socket fuel NPROTO family type protocol g =
    sysc (SysSocket family type protocol) (Glob (api_netpath g) true) ∧
  (symbols g = true → bind fuel fd (Some addr) addrlen g = sysc (SysBind fd addr addrlen) g) ∧
  all_calls sized (asks_or_connects fd addr addrlen) (connect fuel NPROTO fd (Some addr) addrlen g).
Proof.
  intros Hl Hf. split_and!.
  - rewrite <- real_loaded with (name := "socket") by reflexivity.
    unfold socket. destruct g as [np [|]]; cbv [mbind cl_bind check_intercept_enabled get_glob set_glob
      load_symbols mret cl_ret]; cbn [prog_bind fst snd symbols negb andb]; by rewrite Hl.
  - destruct g as [np sym]. intros Hs. simpl in Hs. subst sym.
    rewrite <- real_loaded with (name := "bind") by reflexivity.
    unfold bind. destruct (std_fd fd); [done|].
    by rewrite obj_bind, Hf, mem_bind, Hl.
  - unfold connect. apply calls_obj_bind. rewrite Hf. apply calls_mem_bind. intros ? [= <-].
    apply calls_bind; [apply calls_check|]. intros en g1. destruct (negb en); [by apply calls_real|].
    apply calls_bind; [apply calls_getsockopt|]. intros [r v] g2. destruct (r <? 0); [done|].
    destruct (_ || _); [done|]. destruct (std_fd fd); [by apply calls_real|]. rewrite Hl.
    by apply calls_real.
Qed.

(** Some interposed functions call null pointers.  [load_symbols] never sets
    [realsendmsg], so that every [sendmsg] of the application, in any state, is a
    call through a null pointer; and since [bind] on a local address and [recvmsg]
    do not make sure the pointers are loaded, so is either of them as the first
    call of a process. *)
Theorem intercept_null_calls fd msg flags addr addrlen family g :
  is_local family = true → sa_family addr = Ok family →
  sendmsg fd msg flags g = Fault NullPointer ∧
  (symbols g = false →
   bind fuel fd (Some addr) addrlen g = Fault NullPointer ∧
   recvmsg fd msg flags g = Fault NullPointer).
Proof.
  intros Hl Hf. destruct g as [np sym]. split.
  - unfold sendmsg, real. cbv [mbind cl_bind get_glob]. cbn [prog_bind fst snd].
    change (bool_decide ("sendmsg" ∈ load_symbols_names)) with false. by rewrite andb_false_r.
  - simpl. intros ->. split; [|done]. unfold bind. destruct (std_fd fd); [done|].
    by rewrite obj_bind, Hf, mem_bind, Hl.
Qed.
End claims.

(** ** Examples *)

(** "/tmp" as a [sockaddr_un] *)
Definition tmp_addr : bytes := le_bytes 2 AF_UNIX ++ [47; 116; 109; 112; 0].

Lemma intercept_local_witness :
  bind 1 7 (Some tmp_addr) 7 demo_glob = sysc (SysBind 7 tmp_addr 7) demo_glob.
Proof.
  destruct (intercept_local 1 46 7 1 0 tmp_addr 7 AF_UNIX demo_glob) as (_ & H & _);
    [reflexivity|reflexivity|]. apply H. reflexivity.
Defined.

Lemma intercept_null_calls_witness :
  sendmsg 7 demo_msg 0 demo_glob = Fault NullPointer.
Proof.
  destruct (intercept_null_calls 1 7 demo_msg 0 tmp_addr 7 AF_UNIX demo_glob) as (H & _);
    [reflexivity|reflexivity|exact H].
Defined.
