(* ===== verification/Svc.v ===== *)
(** * The service thread

    The service half of the SDK (tap.cpp, proxy.cpp, the stack drivers and the
    I/O loop of Phy.hpp) is single-threaded code over shared mutable state.  Its
    functions are state-passing: [sm (svc U)] where [U] is the program's own
    state and [svc] adds what every function can touch, the calls that leave the
    program and the mutexes the thread holds.

    A call that leaves the program (the kernel, the ZeroTier node above the tap,
    the network stack that is loaded as a shared object) is a constructor of
    [sc], indexed by the type of its answer.  The environment is a function from
    the history of calls and answers to the next answer, so it may behave in any
    way that depends on what the program did before. *)

From S2P Require Import Prelude.
From stdpp Require Import base numbers list gmap sets option.

Open Scope Z_scope.

(** ** Calls *)

(** A chain of packet buffers of lwIP, as the payloads of its links. *)
Abbreviation pbuf := (list bytes).

(** What lwIP does while it runs one of its timers or takes in a frame: it puts
    frames on the wire and calls the driver back.  A connection is named by the
    [Connection] of the callback's argument. *)
Inductive lw_act : Set :=
  | ActOutput (p : pbuf)
  | ActRecved (conn : Z) (p : option pbuf) (err : Z)
  | ActAccept (conn newPCB : Z)
  | ActSent (conn len : Z)
  | ActConnected (conn : Z)
  | ActErr (conn err : Z).

(** The same for one tick of picoTCP. *)
Inductive pico_act : Set :=
  | ActEthSend (frame : bytes)
  | ActEthPoll (loop_score : Z)
  | ActSocket (ev s : Z).

Inductive sc : Type → Type :=
  (* operating system *)
  | ScWrite (fd : Z) (d : bytes) : sc Z
  | ScWritePtr (fd ptr n : Z) : sc Z
  | ScRead (fd n : Z) : sc (Z * bytes)
  | ScSend (fd : Z) (d : bytes) : sc Z
  | ScSendto (fd : Z) (d : bytes) (addr : bytes) : sc Z
  | ScRecv (fd n : Z) : sc (Z * bytes)
  | ScRecvfrom (fd n : Z) : sc (Z * bytes * bytes)
  | ScClose (fd : Z) : sc Z
  | ScErrno : sc Z
  | ScNonblock (fd : Z) : sc Z
  | ScSocket (family type protocol : Z) : sc Z
  | ScSetsockopt (fd level optname value : Z) : sc Z
  | ScBind (fd : Z) (addr : bytes) : sc Z
  | ScListen (fd backlog : Z) : sc Z
  | ScConnect (fd : Z) (addr : bytes) : sc Z
  | ScAccept (fd : Z) : sc (Z * bytes)
  | ScGetpeername (fd : Z) : sc Z
  | ScUnlink (path : bytes) : sc Z
  | ScSelect (nfds : Z) (r w : gset Z) (timeout : Z) : sc (Z * gset Z * gset Z)
  | ScSocketpair : sc (Z * Z * Z)
  | ScSendmsg (fd : Z) (d : bytes) (pass : option Z) : sc Z
  | ScUninit (n : Z) : sc bytes
  | ScNow : sc Z
  | ScFileExists (path : bytes) : sc bool
  | ScReadFile (path : bytes) : sc (option bytes)
  | ScWriteFile (path d : bytes) : sc bool
  | ScSecureRandom (n : Z) : sc bytes
  | ScInetAddr (s : bytes) : sc Z
  (* the ZeroTier node: the frame handler the tap was constructed with *)
  | ScHandler (nwid from to etherType : Z) (d : bytes) : sc unit
  (* lwIP (raw API) *)
  | LwUdpNew : sc Z
  | LwTcpNew : sc Z
  | LwTcpState (pcb : Z) : sc Z
  | LwTcpSndBuf (pcb : Z) : sc Z
  | LwUdpLocalPort (pcb : Z) : sc Z
  | LwUdpConnect (pcb : Z) (ip : bytes) (port : Z) : sc Z
  | LwUdpRecv (pcb conn : Z) : sc unit
  | LwUdpBind (pcb : Z) (ip : bytes) (port : Z) : sc Z
  | LwUdpSend (pcb : Z) (d : bytes) : sc (Z * list pbuf)
  | LwUdpRemove (pcb : Z) : sc unit
  | LwTcpCallbacks (pcb : Z) (conn : option Z) (poll : Z) : sc unit
  | LwTcpArgAccept (pcb conn : Z) : sc unit
  | LwTcpConnect (pcb : Z) (ip : bytes) (port : Z) : sc (Z * list pbuf)
  | LwTcpBind (pcb : Z) (ip : bytes) (port : Z) : sc Z
  | LwTcpListen (pcb backlog : Z) : sc Z
  | LwTcpAccepted (pcb : Z) : sc unit
  | LwTcpRecved (pcb len : Z) : sc (list pbuf)
  | LwTcpWrite (pcb : Z) (d : bytes) : sc Z
  | LwTcpOutput (pcb : Z) : sc (list pbuf)
  | LwTcpClose (pcb : Z) : sc (Z * list pbuf)
  | LwPbufAlloc (len : Z) : sc (option (Z * list Z))
  | LwPbufFree : sc unit
  | LwInput (p : pbuf) : sc (list lw_act)
  | LwNetifAdd (ip netmask gw mac : bytes) (mtu : Z) : sc unit
  | LwTcpTmr : sc (list lw_act)
  | LwEtharpTmr : sc (list lw_act)
  | LwClose : sc unit
  (* picoTCP *)
  | PicoSocketOpen (version protocol : Z) : sc Z
  | PicoSocketWrite (s : Z) (d : bytes) : sc Z
  | PicoSocketRecvfrom (s n : Z) : sc (Z * bytes)
  | PicoSocketConnect (s : Z) (ip : bytes) (port : Z) : sc Z
  | PicoSocketBind (s : Z) (ip : bytes) (port : Z) : sc Z
  | PicoSocketListen (s backlog : Z) : sc Z
  | PicoSocketAccept (s : Z) : sc Z
  | PicoSocketClose (s : Z) : sc Z
  | PicoStackRecv (frame : bytes) : sc unit
  | PicoDeviceInit (mac : bytes) : sc Z
  | PicoLinkAdd (ip netmask : bytes) : sc unit
  | PicoTick : sc (list pico_act).

(** What happened: a call and its answer.  Traces have the newest event first. *)
Inductive event : Type := Ev (R : Type) (c : sc R) (r : R).
Arguments Ev {R} c r.

Abbreviation trace := (list event).

Class Env := answer : ∀ R : Type, sc R → trace → R.
Arguments answer {Env} {R} c t.

(** ** Mutexes *)

Inductive mutex : Set :=
  | tcpconns_m
  | ips_m
  | rx_buf_m
  | close_m
  | multicastGroups_m
  | pico_frame_rxbuf_m
  | lwip_m
  | pico_m.

#[export] Instance mutex_eq_dec : EqDecision mutex.
Proof. solve_decision. Defined.

#[export] Instance mutex_countable : Countable mutex.
Proof.
  refine (inj_countable'
    (λ m, match m with tcpconns_m => 0 | ips_m => 1 | rx_buf_m => 2 | close_m => 3
          | multicastGroups_m => 4 | pico_frame_rxbuf_m => 5 | lwip_m => 6 | pico_m => 7 end%nat)
    (λ n, match n with 0 => tcpconns_m | 1 => ips_m | 2 => rx_buf_m | 3 => close_m
          | 4 => multicastGroups_m | 5 => pico_frame_rxbuf_m | 6 => lwip_m | _ => pico_m end%nat) _).
  by intros [].
Defined.

(** ** The monad *)

Record svc (U : Type) := Svc {
  s_trace : trace;
  s_held : gset mutex;
  s_user : U
}.
Arguments Svc {U} _ _ _.
Arguments s_trace {U} _.
Arguments s_held {U} _.
Arguments s_user {U} _.

Section monad.
Context {env : Env} {U : Type}.

Definition ask {R} (c : sc R) : sm (svc U) R := λ s,
  let r := answer c (s_trace s) in
  Ok (r, Svc (Ev c r :: s_trace s) (s_held s) (s_user s)).

Definition read {A} (f : U → A) : sm (svc U) A := λ s, Ok (f (s_user s), s).

Definition modify (f : U → U) : sm (svc U) unit := λ s,
  Ok (tt, Svc (s_trace s) (s_held s) (f (s_user s))).

(** [pthread_mutex_lock] on a default mutex: the owner deadlocks. *)
Definition lock (m : mutex) : sm (svc U) unit := λ s,
  if decide (m ∈ s_held s) then Undef SelfDeadlock
  else Ok (tt, Svc (s_trace s) ({[m]} ∪ s_held s) (s_user s)).

Definition unlock (m : mutex) : sm (svc U) unit := λ s,
  Ok (tt, Svc (s_trace s) (s_held s ∖ {[m]}) (s_user s)).

(** [Mutex::Lock _l(m); body], with the destructor at the end of the scope. *)
Definition locked {A} (m : mutex) (body : sm (svc U) A) : sm (svc U) A :=
  _ ← lock m; r ← body; _ ← unlock m; mret r.
End monad.

(** ** Computing with handlers

    One equation per primitive; [sm_step] applies those that match, so that a proof
    walks through a handler in the order in which it runs. *)

Lemma bind_ret {S A B} (a : A) (k : A → sm S B) s : (mret a ≫= k) s = k a s.
Proof. done. Qed.

Lemma bind_assoc {S A B C} (m : sm S A) (f : A → sm S B) (k : B → sm S C) s :
  ((m ≫= f) ≫= k) s = (m ≫= (λ a, f a ≫= k)) s.
Proof. sm_unfold. by destruct (m s) as [[a s']|]. Qed.

Lemma bind_lift_ok {S A B} (a : A) (k : A → sm S B) s : (lift (Ok a) ≫= k) s = k a s.
Proof. done. Qed.

Lemma bind_lift_undef {S A B} u (k : A → sm S B) s : (lift (Undef u) ≫= k) s = Undef u.
Proof. done. Qed.

Lemma bind_undef {S A B} u (k : A → sm S B) s : (undef u ≫= k) s = Undef u.
Proof. done. Qed.

Lemma bind_when_true {S B} (m : sm S unit) (k : unit → sm S B) s :
  (when true m ≫= k) s = (m ≫= k) s.
Proof. done. Qed.

Lemma bind_when_false {S B} (m : sm S unit) (k : unit → sm S B) s :
  (when false m ≫= k) s = k tt s.
Proof. done. Qed.

Lemma bind_ask {env : Env} {U R B} (c : sc R) (k : R → sm (svc U) B) s :
  (ask c ≫= k) s =
  k (answer c (s_trace s)) (Svc (Ev c (answer c (s_trace s)) :: s_trace s) (s_held s) (s_user s)).
Proof. done. Qed.

Lemma bind_read {U A B} (f : U → A) (k : A → sm (svc U) B) s :
  (read f ≫= k) s = k (f (s_user s)) s.
Proof. done. Qed.

Lemma bind_modify {U B} (f : U → U) (k : unit → sm (svc U) B) s :
  (modify f ≫= k) s = k tt (Svc (s_trace s) (s_held s) (f (s_user s))).
Proof. done. Qed.

Lemma bind_lock {U B} m (k : unit → sm (svc U) B) s :
  (lock m ≫= k) s =
  if decide (m ∈ s_held s) then Undef SelfDeadlock
  else k tt (Svc (s_trace s) ({[m]} ∪ s_held s) (s_user s)).
Proof. unfold lock. sm_unfold. by case_decide. Qed.

Lemma bind_unlock {U B} m (k : unit → sm (svc U) B) s :
  (unlock m ≫= k) s = k tt (Svc (s_trace s) (s_held s ∖ {[m]}) (s_user s)).
Proof. done. Qed.

Lemma bind_locked {U A B} m (body : sm (svc U) A) (k : A → sm (svc U) B) s :
  (locked m body ≫= k) s = (lock m ≫= (λ _, body ≫= (λ a, unlock m ≫= (λ _, k a)))) s.
Proof.
  unfold locked. rewrite bind_assoc, !bind_lock. case_decide; [done|].
  rewrite bind_assoc. sm_unfold. by destruct (body _) as [[a s']|].
Qed.

(** A section whose mutex is free and whose body releases what it took. *)
Lemma locked_run {U A} m (body : sm (svc U) A) s a s' :
  m ∉ s_held s →
  body (Svc (s_trace s) ({[m]} ∪ s_held s) (s_user s)) = Ok (a, s') →
  s_held s' = {[m]} ∪ s_held s →
  locked m body s = Ok (a, Svc (s_trace s') (s_held s) (s_user s')).
Proof.
  intros Hm E Hh. unfold locked. rewrite bind_lock, decide_False by done.
  unfold mbind at 1, sm_bind at 1. rewrite E, bind_unlock, Hh.
  unfold mret, sm_ret. do 3 f_equal. set_solver.
Qed.

(** A part without meaning leaves the whole without meaning. *)
Lemma bind_undef_l {S A B} (m : sm S A) (k : A → sm S B) s u :
  m s = Undef u → (m ≫= k) s = Undef u.
Proof. unfold mbind, sm_bind. by intros ->. Qed.

Lemma locked_undef {U A} m (body : sm (svc U) A) s u :
  (m ∉ s_held s) → body (Svc (s_trace s) ({[m]} ∪ s_held s) (s_user s)) = Undef u →
  locked m body s = Undef u.
Proof.
  intros Hm Hb. unfold locked. rewrite bind_lock, decide_False by done. by apply bind_undef_l.
Qed.

Lemma cres_bind_ok {A B} (a : A) (f : A → cres B) : (Ok a ≫= f) = f a.
Proof. done. Qed.

Lemma cres_bind_undef {A B} u (f : A → cres B) : (Undef u ≫= f) = Undef u.
Proof. done. Qed.

(** A computation at the end of a handler is one that is followed by nothing. *)
Lemma bind_mret {S A} (m : sm S A) s : m s = (m ≫= mret) s.
Proof. sm_unfold. by destruct (m s) as [[a s']|]. Qed.

Ltac sm_step :=
  repeat first
    [ rewrite bind_ret | rewrite bind_assoc | rewrite bind_lift_ok | rewrite bind_lift_undef
    | rewrite bind_undef | rewrite bind_when_true | rewrite bind_when_false
    | rewrite cres_bind_ok | rewrite cres_bind_undef
    | rewrite bind_ask | rewrite bind_read | rewrite bind_modify | rewrite bind_unlock ];
  cbn [s_trace s_held s_user].

(** ** Invariants of functions

    [keeps I m]: from a state with [I], [m] either ends in a state with [I] or has
    no meaning. *)

Definition keeps {S A} (I : S → Prop) (m : sm S A) : Prop :=
  ∀ s, I s → match m s with Ok (_, s') => I s' | Undef _ => True end.

Section keeps.
Context {S : Type} (I : S → Prop).

Lemma keeps_ret {A} (a : A) : keeps I (mret a).
Proof. by intros s Hs. Qed.

Lemma keeps_bind {A B} (m : sm S A) (f : A → sm S B) :
  keeps I m → (∀ a, keeps I (f a)) → keeps I (m ≫= f).
Proof.
  intros Hm Hf s Hs. specialize (Hm s Hs). sm_unfold.
  destruct (m s) as [[a s']|u]; [by apply Hf|done].
Qed.

Lemma keeps_undef {A} u : keeps I (undef (A:=A) u).
Proof. by intros s Hs. Qed.

Lemma keeps_lift {A} (r : cres A) : keeps I (lift r).
Proof. intros s Hs. by destruct r. Qed.

Lemma keeps_when b m : keeps I m → keeps I (when b m).
Proof. intros Hm. destruct b; [done|apply keeps_ret]. Qed.

Lemma keeps_get {A} (f : S → A) : keeps I (get_st f).
Proof. by intros s Hs. Qed.
End keeps.
#[export] Hint Resolve keeps_ret keeps_bind keeps_undef keeps_lift keeps_when keeps_get : zt.

(** A run that ends. *)
Lemma keeps_run {S A} (I : S → Prop) (m : sm S A) s a s' :
  keeps I m → m s = Ok (a, s') → I s → I s'.
Proof. intros Hm Hr Hs. specialize (Hm s Hs). by rewrite Hr in Hm. Qed.

(** An invariant of the program's own state only. *)
Definition on_user {U} (I : U → Prop) : svc U → Prop := λ s, I (s_user s).

Section keeps_svc.
Context {env : Env} {U : Type} (I : U → Prop).

Lemma keeps_ask {R} (c : sc R) : keeps (on_user I) (ask c).
Proof. by intros s Hs. Qed.

Lemma keeps_read {A} (f : U → A) : keeps (on_user I) (read f).
Proof. by intros s Hs. Qed.

Lemma keeps_modify (f : U → U) : (∀ u, I u → I (f u)) → keeps (on_user I) (modify f).
Proof. intros Hf s Hs. by apply Hf. Qed.

Lemma keeps_lock m : keeps (on_user I) (lock m).
Proof. intros s Hs. unfold lock. by case_decide. Qed.

Lemma keeps_unlock m : keeps (on_user I) (unlock m).
Proof. by intros s Hs. Qed.

Lemma keeps_locked {A} m (body : sm (svc U) A) :
  keeps (on_user I) body → keeps (on_user I) (locked m body).
Proof.
  intros Hb. unfold locked.
  apply keeps_bind; [apply keeps_lock|intros _].
  apply keeps_bind; [done|intros a].
  apply keeps_bind; [apply keeps_unlock|intros _]. apply keeps_ret.
Qed.
End keeps_svc.
#[export] Hint Resolve keeps_ask keeps_read keeps_lock keeps_unlock keeps_locked : zt.

(** ** Lock discipline

    [balanced F m]: run without holding any mutex of [F], [m] never locks a mutex
    the thread has, and gives back every mutex it took. *)

Definition balanced {U A} (F : gset mutex) (m : sm (svc U) A) : Prop :=
  ∀ s, s_held s ## F →
    match m s with
    | Ok (_, s') => s_held s' = s_held s
    | Undef u => u ≠ SelfDeadlock
    end.

Section balanced.
Context {env : Env} {U : Type}.
Implicit Types F : gset mutex.

Lemma balanced_weaken {A} F F' (m : sm (svc U) A) :
  F ⊆ F' → balanced F m → balanced F' m.
Proof. intros HF Hm s Hs. apply Hm. set_solver. Qed.

Lemma balanced_ret {A} F (a : A) : balanced F (mret (M:=sm (svc U)) a).
Proof. by intros s Hs. Qed.

Lemma balanced_bind {A B} F (m : sm (svc U) A) (f : A → sm (svc U) B) :
  balanced F m → (∀ a, balanced F (f a)) → balanced F (m ≫= f).
Proof.
  intros Hm Hf s Hs. specialize (Hm s Hs). sm_unfold.
  destruct (m s) as [[a s']|u]; [|done].
  rewrite <- Hm. apply Hf. by rewrite Hm.
Qed.

Lemma balanced_ask {R} F (c : sc R) : balanced F (ask (U:=U) c).
Proof. by intros s Hs. Qed.

Lemma balanced_read {A} F (f : U → A) : balanced F (read f).
Proof. by intros s Hs. Qed.

Lemma balanced_modify F (f : U → U) : balanced F (modify f).
Proof. by intros s Hs. Qed.

Lemma balanced_lift {A} F (r : cres A) :
  r ≠ Undef SelfDeadlock → balanced F (lift (S:=svc U) r).
Proof. intros Hr s Hs. destruct r; [done|]. simpl. congruence. Qed.

Lemma balanced_undef {A} F u : u ≠ SelfDeadlock → balanced F (undef (S:=svc U) (A:=A) u).
Proof. by intros Hu s Hs. Qed.

Lemma balanced_when F b (m : sm (svc U) unit) : balanced F m → balanced F (when b m).
Proof. intros Hm. destruct b; [done|apply balanced_ret]. Qed.

Lemma balanced_locked {A} F m (body : sm (svc U) A) :
  balanced (F ∖ {[m]}) body → m ∈ F → balanced F (locked m body).
Proof.
  intros Hb Hm s Hs. unfold locked. sm_unfold. unfold lock.
  destruct (decide (m ∈ s_held s)) as [Hin|Hin]; [set_solver|].
  specialize (Hb (Svc (s_trace s) ({[m]} ∪ s_held s) (s_user s))).
  simpl in Hb. destruct (body _) as [[a s']|u]; [|apply Hb; set_solver].
  simpl. rewrite Hb by set_solver. set_solver.
Qed.
End balanced.
#[export] Hint Resolve balanced_ret balanced_bind balanced_ask balanced_read balanced_modify
  balanced_when : zt.

(** ** An environment for examples

    Calls succeed, everything that is waited for is ready, writes are complete. *)

Definition calm : Env := λ R c _,
  match c in sc R return R with
  | ScWrite _ d | ScSend _ d | ScSendto _ d _ => zlen d
  | ScWritePtr _ _ n => n
  | ScRead _ _ | ScRecv _ _ => (3, [97; 98; 99])
  | ScRecvfrom _ _ => (-1, [], [])
  | ScSocket _ _ _ => 8
  | ScAccept _ => (9, memset 128 0)
  | ScSelect _ r w _ => (1, r, w)
  | ScSocketpair => (0, 10, 11)
  | ScUninit n => memset n 0
  | ScNow | ScErrno | ScClose _ | ScNonblock _ | ScSetsockopt _ _ _ _ | ScBind _ _ | ScListen _ _
  | ScConnect _ _ | ScGetpeername _ | ScUnlink _ | ScSendmsg _ _ _ => 0
  | ScHandler _ _ _ _ _ => tt
  | LwUdpNew | LwTcpNew => 4096
  | LwTcpState _ | LwUdpLocalPort _ => 0
  | LwTcpSndBuf _ => 65535
  | LwUdpConnect _ _ _ | LwUdpBind _ _ _ | LwTcpBind _ _ _ | LwTcpWrite _ _ => 0
  | LwTcpListen _ _ => 4352
  | LwUdpSend _ _ | LwTcpConnect _ _ _ | LwTcpClose _ => (0, [])
  | LwTcpRecved _ _ | LwTcpOutput _ => []
  | LwInput _ | LwTcpTmr | LwEtharpTmr => []
  | LwPbufAlloc n => Some (n, [])
  | LwUdpRecv _ _ | LwUdpRemove _ | LwTcpCallbacks _ _ _ | LwTcpArgAccept _ _
  | LwTcpAccepted _ | LwPbufFree | LwNetifAdd _ _ _ _ _ | LwClose => tt
  | PicoSocketOpen _ _ => 4096
  | PicoSocketWrite _ d => zlen d
  | PicoSocketRecvfrom _ _ => (0, [])
  | PicoSocketConnect _ _ _ | PicoSocketBind _ _ _ | PicoSocketListen _ _
  | PicoSocketClose _ | PicoDeviceInit _ => 0
  | PicoSocketAccept _ => 4352
  | PicoStackRecv _ | PicoLinkAdd _ _ => tt
  | PicoTick => []
  | ScFileExists _ => false
  | ScReadFile _ => None
  | ScWriteFile _ _ => true
  | ScSecureRandom n => memset n 7
  | ScInetAddr _ => 16777343
  end.

(** The state after a run that is defined. *)
Definition after {S A} (m : sm S A) (s : S) : S :=
  match m s with Ok (_, s') => s' | Undef _ => s end.

Definition is_ok {A} (r : cres A) : bool := match r with Ok _ => true | Undef _ => false end.

Lemma after_ok {S A} (m : sm S A) s : is_ok (m s) = true → ∃ a, m s = Ok (a, after m s).
Proof. unfold after, is_ok. destruct (m s) as [[a s']|]; [by exists a|done]. Qed.
