(* ===== verification/Phy.v ===== *)
(** * The I/O loop (zto/osdep/Phy.hpp)

    [Phy<HANDLER_PTR_TYPE>] keeps a list of sockets and two descriptor sets,
    waits in select() and calls the handler object for what happened.  The list
    nodes live until [poll] erases them: [close] only marks them, so a pointer to a
    closed socket stays valid until the end of the pass that finds it.

    The POSIX branch of the class is modelled, with the handler object as a record
    of functions.  Not modelled: running out of memory in [push_back] and
    exceptions thrown by handlers. *)

From S2P Require Import Prelude Svc.
From stdpp Require Import base numbers list gmap sets option.

Open Scope Z_scope.

(** ** Data *)

Inductive PhySocketType : Set :=
  | ZT_PHY_SOCKET_CLOSED
  | ZT_PHY_SOCKET_TCP_OUT_PENDING
  | ZT_PHY_SOCKET_TCP_OUT_CONNECTED
  | ZT_PHY_SOCKET_TCP_IN
  | ZT_PHY_SOCKET_TCP_LISTEN
  | ZT_PHY_SOCKET_UDP
  | ZT_PHY_SOCKET_FD
  | ZT_PHY_SOCKET_UNIX_IN
  | ZT_PHY_SOCKET_UNIX_LISTEN.

#[export] Instance PhySocketType_eq_dec : EqDecision PhySocketType.
Proof. solve_decision. Defined.

Record PhySocketImpl := PhySock {
  ps_type : PhySocketType;
  ps_sock : Z;
  ps_uptr : Z;
  ps_saddr : bytes
}.

(** [_socks] lists the addresses of the nodes in order and [phy_heap] has their
    contents; [phy_next] is the address of the next node ([PhySocket *] 0 is the
    null pointer). *)
Record phy := Phy {
  _socks : list Z;
  phy_heap : gmap Z PhySocketImpl;
  phy_next : Z;
  _readfds : gset Z;
  _writefds : gset Z;
  _nfds : Z;
  _whackReceiveSocket : Z;
  _whackSendSocket : Z;
  _noDelay : bool;
  _noCheck : bool
}.

(** The service state: the I/O loop and the object it calls. *)
Record host (X : Type) := Host { h_phy : phy; h_app : X }.
Arguments Host {X} _ _.
Arguments h_phy {X} _.
Arguments h_app {X} _.

Abbreviation M X := (sm (svc (host X))).

Definition FD_SETSIZE : Z := 1024.
Definition ZT_PHY_MAX_SOCKETS : Z := FD_SETSIZE.
Definition AF_INET : Z := 2.
Definition AF_INET6 : Z := 10.
Definition PF_UNIX : Z := 1.
Definition sizeof_ss : Z := 128.
Definition sizeof_poll_buf : Z := 131072.

Definition fd_in_range (fd : Z) : bool := (0 <=? fd) && (fd <? FD_SETSIZE).

(** The descriptor-set macros index a fixed array of [FD_SETSIZE] bits. *)
Definition FD_SET (fd : Z) (s : gset Z) : cres (gset Z) :=
  if fd_in_range fd then Ok ({[fd]} ∪ s) else Undef OutOfBounds.
Definition FD_CLR (fd : Z) (s : gset Z) : cres (gset Z) :=
  if fd_in_range fd then Ok (s ∖ {[fd]}) else Undef OutOfBounds.
Definition FD_ISSET (fd : Z) (s : gset Z) : cres bool :=
  if fd_in_range fd then Ok (bool_decide (fd ∈ s)) else Undef OutOfBounds.

(** The object that is called back.  The second argument of the C++ handlers,
    the address of the socket's user pointer, is determined by the socket. *)
Record phy_handler (X : Type) := PhyHandler {
  phyOnDatagram : Z → bytes → bytes → bytes → M X unit;
  phyOnTcpConnect : Z → bool → M X unit;
  phyOnTcpAccept : Z → Z → bytes → M X unit;
  phyOnTcpClose : Z → M X unit;
  phyOnTcpData : Z → bytes → Z → M X unit;
  phyOnTcpWritable : Z → bool → M X unit;
  phyOnUnixClose : Z → M X unit;
  phyOnUnixData : Z → bytes → Z → M X unit;
  phyOnUnixWritable : Z → bool → M X unit
}.
Arguments PhyHandler {X} _ _ _ _ _ _ _ _ _.
Arguments phyOnDatagram {X} _ _ _ _ _.
Arguments phyOnTcpConnect {X} _ _ _.
Arguments phyOnTcpAccept {X} _ _ _ _.
Arguments phyOnTcpClose {X} _ _.
Arguments phyOnTcpData {X} _ _ _ _.
Arguments phyOnTcpWritable {X} _ _ _.
Arguments phyOnUnixClose {X} _ _.
Arguments phyOnUnixData {X} _ _ _ _.
Arguments phyOnUnixWritable {X} _ _ _.

(** ** Operations *)

Definition set_type (t : PhySocketType) (s : PhySocketImpl) : PhySocketImpl :=
  PhySock t (ps_sock s) (ps_uptr s) (ps_saddr s).
Definition set_uptr (u : Z) (s : PhySocketImpl) : PhySocketImpl :=
  PhySock (ps_type s) (ps_sock s) u (ps_saddr s).

Definition phy_set_node (a : Z) (s : PhySocketImpl) (p : phy) : phy :=
  Phy (_socks p) (<[a := s]> (phy_heap p)) (phy_next p) (_readfds p) (_writefds p) (_nfds p)
    (_whackReceiveSocket p) (_whackSendSocket p) (_noDelay p) (_noCheck p).
Definition phy_set_fds (r w : gset Z) (p : phy) : phy :=
  Phy (_socks p) (phy_heap p) (phy_next p) r w (_nfds p)
    (_whackReceiveSocket p) (_whackSendSocket p) (_noDelay p) (_noCheck p).
Definition phy_set_nfds (n : Z) (p : phy) : phy :=
  Phy (_socks p) (phy_heap p) (phy_next p) (_readfds p) (_writefds p) n
    (_whackReceiveSocket p) (_whackSendSocket p) (_noDelay p) (_noCheck p).

(** [_socks.erase(s)]: the node is freed. *)
Definition phy_erase (a : Z) (p : phy) : phy :=
  Phy (filter (λ b, b ≠ a) (_socks p)) (delete a (phy_heap p)) (phy_next p)
    (_readfds p) (_writefds p) (_nfds p)
    (_whackReceiveSocket p) (_whackSendSocket p) (_noDelay p) (_noCheck p).

(** [_socks.push_back(PhySocketImpl())], filling the node in and raising [_nfds]. *)
Definition phy_push (s : PhySocketImpl) (p : phy) : phy :=
  Phy (_socks p ++ [phy_next p]) (<[phy_next p := s]> (phy_heap p)) (phy_next p + 1)
    (_readfds p) (_writefds p) (if _nfds p <? ps_sock s then ps_sock s else _nfds p)
    (_whackReceiveSocket p) (_whackSendSocket p) (_noDelay p) (_noCheck p).

(** The constructor, given the two ends of the pipe it made. *)
Definition phy_new (pipe0 pipe1 : Z) (noDelay noCheck : bool) : phy :=
  Phy [] ∅ 1 ∅ ∅ (if pipe1 <? pipe0 then pipe0 else pipe1) pipe0 pipe1 noDelay noCheck.

Definition get_phy {X} : M X phy := read h_phy.
Definition get_app {X} : M X X := read h_app.
Definition mod_phy {X} (f : phy → phy) : M X unit :=
  modify (λ u, Host (f (h_phy u)) (h_app u)).
Definition mod_app {X} (f : X → X) : M X unit :=
  modify (λ u, Host (h_phy u) (f (h_app u))).

Lemma bind_get_phy {X B} (k : phy → M X B) s : (get_phy ≫= k) s = k (h_phy (s_user s)) s.
Proof. done. Qed.
Lemma bind_get_app {X B} (k : X → M X B) s : (get_app ≫= k) s = k (h_app (s_user s)) s.
Proof. done. Qed.
Lemma bind_mod_phy {X B} f (k : unit → M X B) s :
  (mod_phy f ≫= k) s =
  k tt (Svc (s_trace s) (s_held s) (Host (f (h_phy (s_user s))) (h_app (s_user s)))).
Proof. done. Qed.
Lemma bind_mod_app {X B} f (k : unit → M X B) s :
  (mod_app f ≫= k) s =
  k tt (Svc (s_trace s) (s_held s) (Host (h_phy (s_user s)) (f (h_app (s_user s))))).
Proof. done. Qed.

Ltac phy_step :=
  repeat first
    [ rewrite bind_get_phy | rewrite bind_get_app | rewrite bind_mod_phy | rewrite bind_mod_app
    | progress sm_step ];
  cbn [s_trace s_held s_user h_phy h_app].

(** [*(PhySocketImpl * )sock]. *)
Definition deref {X} (sock : Z) : M X PhySocketImpl :=
  p ← get_phy;
  match phy_heap p !! sock with
  | Some s => mret s
  | None => if sock =? 0 then undef NullPointer else undef DeadObject
  end.

Definition getDescriptor {X} (sock : Z) : M X Z :=
  s ← deref sock; mret (ps_sock s).

Definition count (p : phy) : Z := zlen (_socks p).

(** The length select() and bind() are given for an address. *)
Definition sa_family (addr : bytes) : cres Z :=
  d ← mem_read 0 2 addr; Ok (le_val d).

Definition sockaddr_len (family : Z) : Z := if family =? AF_INET6 then 28 else 16.

Section ops.
Context {env : Env} {X : Type} (H : phy_handler X).

Definition whack : M X unit :=
  p ← get_phy;
  b ← ask (ScUninit 1);
  _ ← ask (ScWrite (_whackSendSocket p) b); mret tt.

(** Adds a node for [fd] and returns its address. *)
Definition add_sock (s : PhySocketImpl) (readable : bool) : M X Z :=
  p ← get_phy;
  fds ← lift (if readable
              then r ← FD_SET (ps_sock s) (_readfds p); Ok (r, _writefds p)
              else w ← FD_SET (ps_sock s) (_writefds p); Ok (_readfds p, w));
  _ ← mod_phy (λ p, phy_set_fds fds.1 fds.2 (phy_push s p));
  mret (phy_next p).

Definition wrapSocket (fd uptr : Z) : M X Z :=
  p ← get_phy;
  if ZT_PHY_MAX_SOCKETS <=? count p then mret 0
  else add_sock (PhySock ZT_PHY_SOCKET_UNIX_IN fd uptr (memset sizeof_ss 0)) true.

(** The loop that asks for ever smaller kernel buffers. *)
Fixpoint set_buf (fuel : nat) (fd opt bs : Z) : M X unit :=
  match fuel with
  | O => undef OutOfFuel
  | S fuel' =>
      if 65536 <=? bs then
        r ← ask (ScSetsockopt fd 1 opt bs);
        if r =? 0 then mret tt else set_buf fuel' fd opt (bs - 16384)
      else mret tt
  end.

Definition SO_RCVBUF : Z := 8.
Definition SO_SNDBUF : Z := 7.

Definition set_bufs (fd bufferSize : Z) : M X unit :=
  if 0 <? bufferSize then
    _ ← set_buf (Z.to_nat (bufferSize / 16384 + 1)) fd SO_RCVBUF bufferSize;
    set_buf (Z.to_nat (bufferSize / 16384 + 1)) fd SO_SNDBUF bufferSize
  else mret tt.

Definition setBufferSizes (sock bufferSize : Z) : M X unit :=
  s ← deref sock; set_bufs (ps_sock s) bufferSize.

Definition saddr_of (addr : bytes) (family : Z) : cres bytes :=
  d ← mem_read 0 (sockaddr_len family) addr; mem_write 0 d (memset sizeof_ss 0).

(** Bind a UDP socket.  Levels and options are the Linux constants. *)
Definition udpBind (localAddress : bytes) (uptr bufferSize : Z) : M X Z :=
  p ← get_phy;
  if ZT_PHY_MAX_SOCKETS <=? count p then mret 0
  else
    family ← lift (sa_family localAddress);
    s ← ask (ScSocket family 2 0);
    if negb (-1 <? s) then mret 0
    else
      _ ← set_bufs s bufferSize;
      _ ← when (family =? AF_INET6)
            (_ ← ask (ScSetsockopt s 41 26 1); _ ← ask (ScSetsockopt s 41 23 0);
             _ ← ask (ScSetsockopt s 41 62 0); mret tt);
      _ ← ask (ScSetsockopt s 1 2 0);
      _ ← ask (ScSetsockopt s 1 6 1);
      _ ← ask (ScSetsockopt s 0 10 0);
      _ ← when ((family =? AF_INET) && _noCheck p)
            (_ ← ask (ScSetsockopt s 1 11 1); mret tt);
      r ← ask (ScBind s (take (Z.to_nat (sockaddr_len family)) localAddress));
      if negb (r =? 0) then _ ← ask (ScClose s); mret 0
      else
        _ ← ask (ScNonblock s);
        saddr ← lift (saddr_of localAddress family);
        add_sock (PhySock ZT_PHY_SOCKET_UDP s uptr saddr) true.

Definition setIp4UdpTtl (sock ttl : Z) : M X bool :=
  s ← deref sock;
  r ← ask (ScSetsockopt (ps_sock s) 0 2 (if (ttl =? 0) || (255 <? ttl) then 255 else ttl));
  mret (r =? 0).

Definition udpSend (sock : Z) (remoteAddress data : bytes) : M X bool :=
  s ← deref sock;
  family ← lift (sa_family remoteAddress);
  n ← ask (ScSendto (ps_sock s) data (take (Z.to_nat (sockaddr_len family)) remoteAddress));
  mret (n =? zlen data).

(** sizeof(sun_path) is 108, the whole address 110. *)
Definition unixListen (path : bytes) (uptr : Z) : M X Z :=
  p ← get_phy;
  if ZT_PHY_MAX_SOCKETS <=? count p then mret 0
  else if 108 <=? zlen (c_str path) then mret 0
  else
    let sun := le_bytes 2 PF_UNIX ++ c_str path ++ memset (108 - zlen (c_str path)) 0 in
    s ← ask (ScSocket PF_UNIX 1 0);
    if negb (-1 <? s) then mret 0
    else
      _ ← ask (ScNonblock s);
      _ ← ask (ScUnlink (c_str path));
      r ← ask (ScBind s sun);
      if negb (r =? 0) then _ ← ask (ScClose s); mret 0
      else
        r ← ask (ScListen s 128);
        if negb (r =? 0) then _ ← ask (ScClose s); mret 0
        else add_sock (PhySock ZT_PHY_SOCKET_UNIX_LISTEN s uptr (sun ++ memset 18 0)) true.

Definition tcpListen (localAddress : bytes) (uptr : Z) : M X Z :=
  p ← get_phy;
  if ZT_PHY_MAX_SOCKETS <=? count p then mret 0
  else
    family ← lift (sa_family localAddress);
    s ← ask (ScSocket family 1 0);
    if negb (-1 <? s) then mret 0
    else
      _ ← ask (ScSetsockopt s 41 26 1);
      _ ← ask (ScSetsockopt s 1 2 1);
      _ ← ask (ScSetsockopt s 6 1 (if _noDelay p then 1 else 0));
      _ ← ask (ScNonblock s);
      r ← ask (ScBind s (take (Z.to_nat (sockaddr_len family)) localAddress));
      if negb (r =? 0) then _ ← ask (ScClose s); mret 0
      else
        r ← ask (ScListen s 1024);
        if negb (r =? 0) then _ ← ask (ScClose s); mret 0
        else
          saddr ← lift (saddr_of localAddress family);
          add_sock (PhySock ZT_PHY_SOCKET_TCP_LISTEN s uptr saddr) true.

Definition EINPROGRESS : Z := 115.
Definition EAGAIN : Z := 11.
Definition EINTR : Z := 4.

(** Returns the socket and the result parameter [connected]. *)
Definition tcpConnect (remoteAddress : bytes) (uptr : Z) (callConnectHandler connected : bool) :
    M X (Z * bool) :=
  p ← get_phy;
  if ZT_PHY_MAX_SOCKETS <=? count p then mret (0, connected)
  else
    family ← lift (sa_family remoteAddress);
    s ← ask (ScSocket family 1 0);
    if negb (-1 <? s) then mret (0, false)
    else
      _ ← when (family =? AF_INET6) (_ ← ask (ScSetsockopt s 41 26 1); mret tt);
      _ ← ask (ScSetsockopt s 1 2 1);
      _ ← ask (ScSetsockopt s 6 1 (if _noDelay p then 1 else 0));
      _ ← ask (ScNonblock s);
      r ← ask (ScConnect s (take (Z.to_nat (sockaddr_len family)) remoteAddress));
      let connected := r =? 0 in
      e ← (if connected then mret EINPROGRESS else ask ScErrno);
      if negb (e =? EINPROGRESS) then _ ← ask (ScClose s); mret (0, connected)
      else
        saddr ← lift (saddr_of remoteAddress family);
        a ← add_sock
              (PhySock (if connected then ZT_PHY_SOCKET_TCP_OUT_CONNECTED
                        else ZT_PHY_SOCKET_TCP_OUT_PENDING) s uptr saddr) connected;
        _ ← when (callConnectHandler && connected) (phyOnTcpConnect H a true);
        mret (a, connected).

(** The largest descriptor among the pipe's and those of the open sockets. *)
Definition top_fd (p : phy) : Z :=
  foldl (λ nfds a,
      match phy_heap p !! a with
      | Some s => if bool_decide (ps_type s ≠ ZT_PHY_SOCKET_CLOSED) && (nfds <? ps_sock s)
                  then ps_sock s else nfds
      | None => nfds
      end)
    (if _whackSendSocket p <? _whackReceiveSocket p
     then _whackReceiveSocket p else _whackSendSocket p) (_socks p).

Definition sun_path (saddr : bytes) : bytes := c_str (drop 2 saddr).

Definition close (sock : Z) (callHandlers : bool) : M X unit :=
  if sock =? 0 then mret tt
  else
    sws ← deref sock;
    if decide (ps_type sws = ZT_PHY_SOCKET_CLOSED) then mret tt
    else
      p ← get_phy;
      r ← lift (FD_CLR (ps_sock sws) (_readfds p));
      w ← lift (FD_CLR (ps_sock sws) (_writefds p));
      _ ← mod_phy (phy_set_fds r w);
      _ ← when (bool_decide (ps_type sws ≠ ZT_PHY_SOCKET_FD))
            (_ ← ask (ScClose (ps_sock sws)); mret tt);
      _ ← when (bool_decide (ps_type sws = ZT_PHY_SOCKET_UNIX_LISTEN))
            (_ ← ask (ScUnlink (sun_path (ps_saddr sws))); mret tt);
      _ ← when callHandlers
            (match ps_type sws with
             | ZT_PHY_SOCKET_TCP_OUT_PENDING => phyOnTcpConnect H sock false
             | ZT_PHY_SOCKET_TCP_OUT_CONNECTED | ZT_PHY_SOCKET_TCP_IN => phyOnTcpClose H sock
             | ZT_PHY_SOCKET_UNIX_IN => phyOnUnixClose H sock
             | _ => mret tt
             end);
      sws ← deref sock;
      _ ← mod_phy (phy_set_node sock (set_type ZT_PHY_SOCKET_CLOSED sws));
      p ← get_phy;
      when (_nfds p <=? ps_sock sws) (mod_phy (phy_set_nfds (top_fd p))).

(** The answer to a failed send: try later, or the socket is gone. *)
Definition send_failed (sock : Z) (callCloseHandler : bool) : M X Z :=
  e ← ask ScErrno;
  if (e =? EAGAIN) || (e =? EINTR) then mret 0
  else _ ← close sock callCloseHandler; mret (-1).

Definition streamSend (sock : Z) (data : bytes) (callCloseHandler : bool) : M X Z :=
  sws ← deref sock;
  n ← ask (ScSend (ps_sock sws) data);
  if n <? 0 then send_failed sock callCloseHandler else mret n.

Definition unixSend (sock : Z) (data : bytes) (callCloseHandler : bool) : M X Z :=
  sws ← deref sock;
  n ← ask (ScWrite (ps_sock sws) data);
  if n <? 0 then send_failed sock callCloseHandler else mret n.

Definition setNotifyWritable (sock : Z) (notifyWritable : bool) : M X unit :=
  sws ← deref sock;
  p ← get_phy;
  w ← lift ((if notifyWritable then FD_SET else FD_CLR) (ps_sock sws) (_writefds p));
  mod_phy (phy_set_fds (_readfds p) w).

Definition setNotifyReadable (sock : Z) (notifyReadable : bool) : M X unit :=
  sws ← deref sock;
  p ← get_phy;
  r ← lift ((if notifyReadable then FD_SET else FD_CLR) (ps_sock sws) (_readfds p));
  mod_phy (phy_set_fds r (_writefds p)).

(** ** poll *)

Definition isset (fd : Z) (s : gset Z) : M X bool := lift (FD_ISSET fd s).

(** A read of [n] bytes into the buffer of [poll]; the rest of the buffer is
    whatever an earlier read left there. *)
Definition poll_buf (d : bytes) : M X bytes :=
  rest ← ask (ScUninit (sizeof_poll_buf - zlen d)); mret (d ++ rest).

Definition poll_tcp_pending (a : Z) (s : PhySocketImpl) (wfds : gset Z) : M X unit :=
  b ← isset (ps_sock s) wfds;
  if b : bool then
    r ← ask (ScGetpeername (ps_sock s));
    if negb (r =? 0) then close a true
    else
      _ ← mod_phy (phy_set_node a (set_type ZT_PHY_SOCKET_TCP_OUT_CONNECTED s));
      p ← get_phy;
      r ← lift (FD_SET (ps_sock s) (_readfds p));
      w ← lift (FD_CLR (ps_sock s) (_writefds p));
      _ ← mod_phy (phy_set_fds r w);
      phyOnTcpConnect H a true
  else mret tt.

Definition poll_tcp (a : Z) (s : PhySocketImpl) (rfds wfds : gset Z) : M X unit :=
  let sock := ps_sock s in
  b ← isset sock rfds;
  _ ← (if b : bool then
         '(n, d) ← ask (ScRecv sock sizeof_poll_buf);
         if n <=? 0 then close a true else buf ← poll_buf d; phyOnTcpData H a buf n
       else mret tt);
  b ← isset sock wfds;
  p ← get_phy;
  b' ← isset sock (_writefds p);
  when (b && b') (phyOnTcpWritable H a false).

(** An accepted connection is added unless the list is full. *)
Definition poll_accept (s : PhySocketImpl) (t : PhySocketType) (k : Z → bytes → M X unit)
    (tcp : bool) : M X unit :=
  '(newSock, ss) ← ask (ScAccept (ps_sock s));
  if -1 <? newSock then
    p ← get_phy;
    if ZT_PHY_MAX_SOCKETS <=? count p then _ ← ask (ScClose newSock); mret tt
    else
      _ ← when tcp (_ ← ask (ScSetsockopt newSock 6 1 (if _noDelay p then 1 else 0)); mret tt);
      _ ← ask (ScNonblock newSock);
      a ← add_sock (PhySock t newSock 0 ss) true;
      k a ss
  else mret tt.

Fixpoint poll_udp (fuel : nat) (a : Z) (s : PhySocketImpl) : M X unit :=
  match fuel with
  | O => undef OutOfFuel
  | S fuel' =>
      '(n, d, ss) ← ask (ScRecvfrom (ps_sock s) sizeof_poll_buf);
      if 0 <? n then
        _ ← phyOnDatagram H a (ps_saddr s) ss d; poll_udp fuel' a s
      else if n <? 0 then mret tt
      else poll_udp fuel' a s
  end.

Definition poll_unix_in (a : Z) (s : PhySocketImpl) (rfds wfds : gset Z) : M X unit :=
  let sock := ps_sock s in
  b ← isset sock wfds;
  p ← get_phy;
  b' ← isset sock (_writefds p);
  _ ← when (b && b') (phyOnUnixWritable H a false);
  b ← isset sock rfds;
  if b : bool then
    '(n, d) ← ask (ScRead sock sizeof_poll_buf);
    if n <=? 0 then close a true
    else buf ← poll_buf d; phyOnUnixData H a buf n
  else mret tt.

Definition poll_sock (fuel : nat) (a : Z) (rfds wfds : gset Z) : M X unit :=
  s ← deref a;
  match ps_type s with
  | ZT_PHY_SOCKET_TCP_OUT_PENDING => poll_tcp_pending a s wfds
  | ZT_PHY_SOCKET_TCP_OUT_CONNECTED | ZT_PHY_SOCKET_TCP_IN => poll_tcp a s rfds wfds
  | ZT_PHY_SOCKET_TCP_LISTEN =>
      b ← isset (ps_sock s) rfds;
      when b (poll_accept s ZT_PHY_SOCKET_TCP_IN (λ n ss, phyOnTcpAccept H a n ss) true)
  | ZT_PHY_SOCKET_UDP =>
      b ← isset (ps_sock s) rfds; when b (poll_udp fuel a s)
  | ZT_PHY_SOCKET_UNIX_IN => poll_unix_in a s rfds wfds
  | ZT_PHY_SOCKET_UNIX_LISTEN =>
      b ← isset (ps_sock s) rfds;
      when b (poll_accept s ZT_PHY_SOCKET_UNIX_IN (λ _ _, mret tt) false)
  | ZT_PHY_SOCKET_FD | ZT_PHY_SOCKET_CLOSED => mret tt
  end.

(** The pass over the list; sockets accepted or wrapped during the pass are at its
    end and are visited too. *)
Fixpoint poll_loop (fuel : nat) (i : nat) (rfds wfds : gset Z) : M X unit :=
  match fuel with
  | O => undef OutOfFuel
  | S fuel' =>
      p ← get_phy;
      match _socks p !! i with
      | None => mret tt
      | Some a =>
          _ ← poll_sock fuel' a rfds wfds;
          s ← deref a;
          if decide (ps_type s = ZT_PHY_SOCKET_CLOSED)
          then _ ← mod_phy (phy_erase a); poll_loop fuel' i rfds wfds
          else poll_loop fuel' (S i) rfds wfds
      end
  end.

Definition poll (fuel : nat) (timeout : Z) : M X unit :=
  p ← get_phy;
  '(n, rfds, wfds) ← ask (ScSelect (_nfds p + 1) (_readfds p) (_writefds p) timeout);
  if n <=? 0 then mret tt
  else
    b ← isset (_whackReceiveSocket p) rfds;
    _ ← when b (_ ← ask (ScRead (_whackReceiveSocket p) 16); mret tt);
    poll_loop fuel 0 rfds wfds.
End ops.

(** ** The invariant *)

(** [fd] belongs to a socket that has not been closed. *)
Definition open_fd (p : phy) (fd : Z) : Prop :=
  ∃ a s, phy_heap p !! a = Some s ∧ ps_type s ≠ ZT_PHY_SOCKET_CLOSED ∧ ps_sock s = fd.

Record phy_wf (p : phy) : Prop := {
  wf_nodup : NoDup (_socks p);
  wf_heap : ∀ a, a ∈ _socks p ↔ is_Some (phy_heap p !! a);
  wf_addr : ∀ a, is_Some (phy_heap p !! a) → 0 < a < phy_next p;
  wf_next : 0 < phy_next p;
  wf_read : ∀ fd, fd ∈ _readfds p → open_fd p fd;
  wf_write : ∀ fd, fd ∈ _writefds p → open_fd p fd;
  wf_open : ∀ fd, open_fd p fd → fd <= _nfds p;
  wf_pipe : _whackReceiveSocket p <= _nfds p ∧ _whackSendSocket p <= _nfds p;
  wf_tight : _nfds p = _whackReceiveSocket p ∨ _nfds p = _whackSendSocket p ∨
    open_fd p (_nfds p)
}.

Definition host_wf {X} (u : host X) : Prop := phy_wf (h_phy u).

Lemma phy_new_wf pipe0 pipe1 nd nc : phy_wf (phy_new pipe0 pipe1 nd nc).
Proof.
  assert (∀ fd, ¬ open_fd (phy_new pipe0 pipe1 nd nc) fd) as Hno.
  { intros fd (a & s & Ha & _). simpl in Ha. by rewrite lookup_empty in Ha. }
  split; simpl.
  - constructor.
  - intros a. rewrite lookup_empty, is_Some_alt. set_solver.
  - intros a [s Hs]. by rewrite lookup_empty in Hs.
  - lia.
  - set_solver.
  - set_solver.
  - intros fd Hfd. by apply Hno in Hfd.
  - bool_cases; bool_hyps; lia.
  - bool_cases; auto.
Qed.

(** Adding a node. *)
Lemma open_fd_push s p fd :
  phy_wf p → open_fd (phy_push s p) fd ↔
    open_fd p fd ∨ ps_type s ≠ ZT_PHY_SOCKET_CLOSED ∧ ps_sock s = fd.
Proof.
  intros Hp. assert (phy_heap p !! phy_next p = None) as Hnew.
  { destruct (phy_heap p !! phy_next p) eqn:E; [|done].
    destruct (wf_addr p Hp (phy_next p)); [by eexists|lia]. }
  split.
  - intros (a & s' & Ha & Ht & Hf). simpl in Ha.
    destruct (decide (a = phy_next p)) as [->|Hne].
    + rewrite lookup_insert_eq in Ha. simplify_eq. by right.
    + rewrite lookup_insert_ne in Ha by done. left. by exists a, s'.
  - intros [(a & s' & Ha & Ht & Hf)|[Ht Hf]].
    + exists a, s'. split; [|done]. simpl. rewrite lookup_insert_ne; [done|].
      intros E; subst a; congruence.
    + exists (phy_next p), s. split; [|done]. simpl. by rewrite lookup_insert_eq.
Qed.

Lemma phy_push_wf s p r w :
  phy_wf p → ps_type s ≠ ZT_PHY_SOCKET_CLOSED →
  (∀ fd, fd ∈ r → open_fd p fd ∨ fd = ps_sock s) →
  (∀ fd, fd ∈ w → open_fd p fd ∨ fd = ps_sock s) →
  phy_wf (phy_set_fds r w (phy_push s p)).
Proof.
  intros Hp Ht Hr Hw.
  assert (∀ fd, open_fd (phy_set_fds r w (phy_push s p)) fd ↔ open_fd p fd ∨ ps_sock s = fd)
    as Ho by (intros fd; rewrite (open_fd_push s p fd Hp : open_fd (phy_set_fds _ _ _) _ ↔ _);
              tauto).
  pose proof (wf_next p Hp).
  split; try setoid_rewrite Ho; simpl.
  - apply list.NoDup_app. split; [apply Hp|]. split; [|apply NoDup_singleton].
    intros a Ha. apply (wf_heap p Hp), (wf_addr p Hp) in Ha. rewrite list_elem_of_singleton. lia.
  - intros a. rewrite elem_of_app, list_elem_of_singleton, (wf_heap p Hp).
    destruct (decide (a = phy_next p)) as [->|Hne].
    + rewrite lookup_insert_eq. split; [eauto|by right].
    + rewrite lookup_insert_ne by done. tauto.
  - intros a [s' Ha]. destruct (decide (a = phy_next p)) as [->|Hne]; [lia|].
    rewrite lookup_insert_ne in Ha by done. pose proof (wf_addr p Hp a). simpl in *.
    destruct H0; [by eexists|lia].
  - lia.
  - intros fd Hfd. destruct (Hr fd Hfd); auto.
  - intros fd Hfd. destruct (Hw fd Hfd); auto.
  - intros fd [Hfd%(wf_open p Hp)|<-]; bool_cases; bool_hyps; lia.
  - pose proof (wf_pipe p Hp). bool_cases; bool_hyps; lia.
  - bool_cases; [by right; right; right|].
    destruct (wf_tight p Hp) as [?|[?|?]]; auto.
Qed.

(** Changing the sets. *)
Lemma phy_set_fds_wf r w p :
  phy_wf p → (∀ fd, fd ∈ r → open_fd p fd) → (∀ fd, fd ∈ w → open_fd p fd) →
  phy_wf (phy_set_fds r w p).
Proof. intros [] Hr Hw. by split. Qed.

(** Changing a node but not its descriptor. *)
Lemma phy_set_node_heap a s p b :
  phy_heap (phy_set_node a s p) !! b = if decide (a = b) then Some s else phy_heap p !! b.
Proof. simpl. case_decide; subst; [by rewrite lookup_insert_eq|by rewrite lookup_insert_ne]. Qed.

Lemma phy_set_node_open a s s' p :
  phy_heap p !! a = Some s → ps_sock s' = ps_sock s →
  ps_type s ≠ ZT_PHY_SOCKET_CLOSED → ps_type s' ≠ ZT_PHY_SOCKET_CLOSED →
  ∀ fd, open_fd (phy_set_node a s' p) fd ↔ open_fd p fd.
Proof.
  intros Ha Hs Ht Ht' fd. split; intros (b & t & Hb & Hbt & Hbf).
  - rewrite phy_set_node_heap in Hb. case_decide; simplify_eq; [|by exists b, t].
    exists b, s. by rewrite Hs.
  - exists b. destruct (decide (a = b)) as [->|Hne].
    + exists s'. rewrite phy_set_node_heap, decide_True by done. simplify_eq. by rewrite Hs.
    + exists t. by rewrite phy_set_node_heap, decide_False.
Qed.

(** The list and the heap still agree after an update of a live node. *)
Lemma phy_set_node_shape a s s' p :
  phy_wf p → phy_heap p !! a = Some s →
  ∀ b, is_Some (phy_heap (phy_set_node a s' p) !! b) ↔ is_Some (phy_heap p !! b).
Proof.
  intros Hp Ha b. rewrite phy_set_node_heap. case_decide; [|done]. subst.
  rewrite Ha. split; intros _; by eexists.
Qed.

Lemma phy_set_node_wf a s s' p :
  phy_wf p → phy_heap p !! a = Some s → ps_sock s' = ps_sock s →
  ps_type s ≠ ZT_PHY_SOCKET_CLOSED → ps_type s' ≠ ZT_PHY_SOCKET_CLOSED →
  phy_wf (phy_set_node a s' p).
Proof.
  intros Hp Ha Hs Ht Ht'.
  pose proof (phy_set_node_open a s s' p Ha Hs Ht Ht') as Ho.
  pose proof (phy_set_node_shape a s s' p Hp Ha) as Hsh.
  destruct Hp. split; try done.
  - intros b. by rewrite Hsh.
  - intros b Hb. by apply wf_addr0, Hsh.
  - intros fd Hfd. by apply Ho, wf_read0.
  - intros fd Hfd. by apply Ho, wf_write0.
  - intros fd Hfd. by apply wf_open0, Ho.
  - destruct wf_tight0 as [?|[?|?]]; [by auto..|]. right; right. by apply Ho.
Qed.

(** [top_fd] is the maximum it is meant to be. *)
Lemma top_fd_spec p :
  (∀ a, a ∈ _socks p ↔ is_Some (phy_heap p !! a)) →
  (_whackReceiveSocket p <= top_fd p ∧ _whackSendSocket p <= top_fd p) ∧
  (∀ fd, open_fd p fd → fd <= top_fd p) ∧
  (top_fd p = _whackReceiveSocket p ∨ top_fd p = _whackSendSocket p ∨ open_fd p (top_fd p)).
Proof.
  intros Hp. unfold top_fd. set (f := λ nfds a, _).
  assert (∀ l n, n <= foldl f n l ∧
    (∀ a s, a ∈ l → phy_heap p !! a = Some s → ps_type s ≠ ZT_PHY_SOCKET_CLOSED →
       ps_sock s <= foldl f n l) ∧
    (foldl f n l = n ∨ open_fd p (foldl f n l))) as Hf.
  { induction l as [|a l IH]; intros n; simpl; [split; [lia|set_solver]|].
    destruct (IH (f n a)) as (H1 & H2 & H3).
    assert (n <= f n a ∧ (∀ s, phy_heap p !! a = Some s → ps_type s ≠ ZT_PHY_SOCKET_CLOSED →
      ps_sock s <= f n a) ∧ (f n a = n ∨ open_fd p (f n a))) as (Hn & Hs & Hx).
    { unfold f. destruct (phy_heap p !! a) as [s|] eqn:E; [|split; [lia|split; [done|by left]]].
      case_bool_decide; simpl; [|split; [lia|split; [naive_solver|auto]]].
      destruct (n <? ps_sock s) eqn:El; bool_hyps.
      - split; [lia|]. split; [naive_solver lia|]. right. by exists a, s.
      - split; [lia|]. split; [naive_solver lia|auto]. }
    split; [lia|]. split.
    - intros b s Hb Hbs Hbt. apply elem_of_cons in Hb as [->|Hb]; [|by eapply H2].
      specialize (Hs s Hbs Hbt). lia.
    - destruct H3 as [H3|]; [|by auto]. rewrite H3. auto. }
  destruct (Hf (_socks p) (if _whackSendSocket p <? _whackReceiveSocket p
    then _whackReceiveSocket p else _whackSendSocket p)) as (H1 & H2 & H3).
  split; [|split].
  - revert H1. bool_cases; bool_hyps; lia.
  - intros fd (a & s & Ha & Ht & <-). apply (H2 a); [|done..].
    apply Hp. by eexists.
  - destruct H3 as [->|H3]; [|by auto]. bool_cases; auto.
Qed.

(** Marking a node closed and lowering [_nfds] if it was the top. *)
Lemma phy_mark_closed_wf a s p :
  phy_wf p → phy_heap p !! a = Some s →
  ps_sock s ∉ _readfds p → ps_sock s ∉ _writefds p →
  let p1 := phy_set_node a (set_type ZT_PHY_SOCKET_CLOSED s) p in
  phy_wf (if _nfds p1 <=? ps_sock s then phy_set_nfds (top_fd p1) p1 else p1).
Proof.
  intros Hp Ha Hr Hw p1.
  pose proof (phy_set_node_shape a s (set_type ZT_PHY_SOCKET_CLOSED s) p Hp Ha) as Hsh.
  fold p1 in Hsh.
  assert (∀ fd, open_fd p1 fd → open_fd p fd) as Hsub.
  { intros fd (b & t & Hb & Ht & Hf). unfold p1 in Hb. rewrite phy_set_node_heap in Hb.
    case_decide; simplify_eq; by exists b, t. }
  assert (∀ fd, open_fd p fd → fd ≠ ps_sock s → open_fd p1 fd) as Hsup.
  { intros fd (b & t & Hb & Ht & Hf) Hne. exists b, t. unfold p1.
    rewrite phy_set_node_heap, decide_False; [done|]. intros ->. congruence. }
  assert (∀ n, (∀ fd, open_fd p1 fd → fd <= n) →
    (_whackReceiveSocket p <= n ∧ _whackSendSocket p <= n) →
    (n = _whackReceiveSocket p ∨ n = _whackSendSocket p ∨ open_fd p1 n) →
    phy_wf (phy_set_nfds n p1)) as Hn.
  { intros n Hn1 Hn2 Hn3. destruct Hp as [Hp1 Hp2 Hp3 Hp4 Hp5 Hp6 _ _ _].
    split; try done; simpl.
    - intros b. rewrite Hp2. symmetry. apply Hsh.
    - intros b Hb. apply Hp3, Hsh, Hb.
    - intros fd Hfd. apply Hsup; [by apply Hp5|]. intros ->. done.
    - intros fd Hfd. apply Hsup; [by apply Hp6|]. intros ->. done. }
  destruct (_nfds p1 <=? ps_sock s) eqn:E; bool_hyps.
  - assert (∀ b, b ∈ _socks p1 ↔ is_Some (phy_heap p1 !! b)) as Hl.
    { intros b. rewrite Hsh. apply (wf_heap p Hp). }
    destruct (top_fd_spec p1 Hl) as (H1 & H2 & H3). by apply Hn.
  - change p1 with (phy_set_nfds (_nfds p) p1). apply Hn.
    + intros fd Hfd. by apply (wf_open p Hp), Hsub.
    + apply (wf_pipe p Hp).
    + destruct (wf_tight p Hp) as [?|[?|?]]; auto. right; right.
      apply Hsup; [done|]. simpl in E. lia.
Qed.

(** Erasing a closed node. *)
Lemma phy_erase_wf a s p :
  phy_wf p → phy_heap p !! a = Some s → ps_type s = ZT_PHY_SOCKET_CLOSED →
  phy_wf (phy_erase a p).
Proof.
  intros Hp Ha Ht.
  assert (∀ fd, open_fd (phy_erase a p) fd ↔ open_fd p fd) as Ho.
  { intros fd. split; intros (b & t & Hb & Hbt & Hf); exists b, t; simpl in *.
    - by apply lookup_delete_Some in Hb as [_ Hb].
    - rewrite lookup_delete_ne; [done|]. intros ->. congruence. }
  destruct Hp. split; simpl.
  - by apply list.NoDup_filter.
  - intros b. rewrite list_elem_of_filter, lookup_delete_is_Some, wf_heap0. naive_solver.
  - intros b Hb. apply lookup_delete_is_Some in Hb as [_ Hb]. by apply wf_addr0.
  - done.
  - intros fd Hfd. by apply Ho, wf_read0.
  - intros fd Hfd. by apply Ho, wf_write0.
  - intros fd Hfd. by apply wf_open0, Ho.
  - done.
  - destruct wf_tight0 as [?|[?|?]]; [by auto..|]. right; right. by apply Ho.
Qed.

(** ** The operations keep the invariant *)

(** What [close] leaves to the handler it calls: the socket's bits are clear. *)
Definition closing {X} (sock fd : Z) (u : host X) : Prop :=
  let p := h_phy u in
  phy_wf p ∧ (fd ∉ _readfds p) ∧ (fd ∉ _writefds p) ∧
  ∀ n, phy_heap p !! sock = Some n → ps_sock n = fd.

(** The handlers keep the invariant, and those called from [close] do not ask for
    events on the socket that is being closed. *)
Record handler_ok {X} (H : phy_handler X) : Prop := {
  ok_datagram : ∀ a l f d, keeps (on_user host_wf) (phyOnDatagram H a l f d);
  ok_connect : ∀ a b, keeps (on_user host_wf) (phyOnTcpConnect H a b);
  ok_accept : ∀ a b f, keeps (on_user host_wf) (phyOnTcpAccept H a b f);
  ok_data : ∀ a d n, keeps (on_user host_wf) (phyOnTcpData H a d n);
  ok_writable : ∀ a b, keeps (on_user host_wf) (phyOnTcpWritable H a b);
  ok_unix_data : ∀ a d n, keeps (on_user host_wf) (phyOnUnixData H a d n);
  ok_unix_writable : ∀ a b, keeps (on_user host_wf) (phyOnUnixWritable H a b);
  ok_close_connect : ∀ a fd, keeps (on_user (closing a fd)) (phyOnTcpConnect H a false);
  ok_close_tcp : ∀ a fd, keeps (on_user (closing a fd)) (phyOnTcpClose H a);
  ok_close_unix : ∀ a fd, keeps (on_user (closing a fd)) (phyOnUnixClose H a)
}.

Lemma bind_ok {S A B} (m : sm S A) (f : A → sm S B) s b s2 :
  (m ≫= f) s = Ok (b, s2) → ∃ a s1, m s = Ok (a, s1) ∧ f a s1 = Ok (b, s2).
Proof. sm_unfold. destruct (m s) as [[a s1]|]; [|done]. intros Hf. by exists a, s1. Qed.

(** [keeps] for a continuation that may use what the first part found. *)
Lemma keeps_bind' {S A B} (I : S → Prop) (m : sm S A) (f : A → sm S B) (J : A → S → Prop) :
  (∀ s, I s → match m s with Ok (a, s') => J a s' | Undef _ => True end) →
  (∀ a s, J a s → match f a s with Ok (_, s') => I s' | Undef _ => True end) →
  keeps I (m ≫= f).
Proof.
  intros Hm Hf s Hs. specialize (Hm s Hs). sm_unfold.
  destruct (m s) as [[a s']|]; [by apply Hf|done].
Qed.

(** As [keeps_bind], towards a weaker property of the final state. *)
Lemma keeps_bind2 {S A B} (I J : S → Prop) (m : sm S A) (f : A → sm S B) :
  keeps I m →
  (∀ a s, I s → match f a s with Ok (_, s') => J s' | Undef _ => True end) →
  ∀ s, I s → match (m ≫= f) s with Ok (_, s') => J s' | Undef _ => True end.
Proof.
  intros Hm Hf s Hs. specialize (Hm s Hs). sm_unfold.
  destruct (m s) as [[a s']|]; [by apply Hf|done].
Qed.

Lemma deref_cases {X} sock (s : svc (host X)) :
  (∃ n, phy_heap (h_phy (s_user s)) !! sock = Some n ∧ deref sock s = Ok (n, s)) ∨
  ∃ u, deref sock s = Undef u ∧ u ≠ SelfDeadlock.
Proof.
  unfold deref, get_phy, read. sm_unfold.
  destruct (phy_heap (h_phy (s_user s)) !! sock) as [n|]; [left; by exists n|].
  right. destruct (sock =? 0); eexists; (split; [reflexivity|done]).
Qed.

Lemma FD_SET_inv fd s r : FD_SET fd s = Ok r → r = {[fd]} ∪ s.
Proof. unfold FD_SET. case_match; congruence. Qed.

Lemma FD_CLR_inv fd s r : FD_CLR fd s = Ok r → r = s ∖ {[fd]}.
Proof. unfold FD_CLR. case_match; congruence. Qed.

Section invariant.
Context {env : Env} {X : Type} (H : phy_handler X).
Implicit Types s : svc (host X).

Lemma keeps_deref sock : keeps (on_user host_wf) (deref (X:=X) sock).
Proof. intros s Hs. by destruct (deref_cases sock s) as [(n & _ & ->)|(u & -> & _)]. Qed.

Lemma keeps_get_phy : keeps (on_user host_wf) (get_phy (X:=X)).
Proof. by intros s Hs. Qed.

Lemma keeps_add_sock n b :
  ps_type n ≠ ZT_PHY_SOCKET_CLOSED → keeps (on_user host_wf) (add_sock (X:=X) n b).
Proof.
  intros Ht s Hs. unfold add_sock, get_phy, mod_phy, read, modify. sm_unfold.
  set (p := h_phy (s_user s)) in *.
  assert (∀ fds, (if b then r ← FD_SET (ps_sock n) (_readfds p); Ok (r, _writefds p)
                  else w ← FD_SET (ps_sock n) (_writefds p); Ok (_readfds p, w)) = Ok fds →
          phy_wf (phy_set_fds fds.1 fds.2 (phy_push n p))) as Hf.
  { intros fds Hfds. apply phy_push_wf; [done..| |]; intros fd Hfd;
      destruct b; unfold mbind, cres_bind in Hfds;
      destruct (FD_SET _ _) eqn:E; simplify_eq; simpl in Hfd;
      apply FD_SET_inv in E; subst;
      try (left; by apply (wf_read _ Hs)); try (left; by apply (wf_write _ Hs));
      apply elem_of_union in Hfd as [Hfd|Hfd];
      try (left; by apply (wf_read _ Hs)); try (left; by apply (wf_write _ Hs));
      right; set_solver. }
  unfold mbind, cres_bind in Hf.
  destruct (if b then _ else _) as [fds|]; [|done]. by apply Hf.
Qed.

Lemma keeps_wrapSocket fd uptr : keeps (on_user host_wf) (wrapSocket (X:=X) fd uptr).
Proof.
  apply keeps_bind; [apply keeps_get_phy|]. intros p.
  case_match; [apply keeps_ret|]. by apply keeps_add_sock.
Qed.

Hypothesis HH : handler_ok H.

(** The last part of [close], after the handler has run. *)
Lemma close_tail_wf sock fd s :
  on_user (closing sock fd) s →
  match (sws ← deref sock;
         _ ← mod_phy (phy_set_node sock (set_type ZT_PHY_SOCKET_CLOSED sws));
         p ← get_phy;
         when (_nfds p <=? ps_sock sws) (mod_phy (phy_set_nfds (top_fd p))) : M X unit) s with
  | Ok (_, s') => on_user host_wf s'
  | Undef _ => True
  end.
Proof.
  intros (Hwf & Hr & Hw & Hfd).
  unfold mbind at 1, sm_bind at 1.
  destruct (deref_cases sock s) as [(n & Hn & ->)|(u & -> & _)]; [|done].
  rewrite <- (Hfd n Hn) in Hr, Hw.
  pose proof (phy_mark_closed_wf sock n _ Hwf Hn Hr Hw) as Hm.
  unfold get_phy, mod_phy, read, modify. sm_unfold. cbn [s_user h_phy] in *.
  by destruct (_ <=? _).
Qed.

Lemma keeps_close sock b : keeps (on_user host_wf) (close H sock b).
Proof.
  unfold close. destruct (sock =? 0); [apply keeps_ret|].
  apply (keeps_bind' _ _ _
    (λ n s, on_user host_wf s ∧ phy_heap (h_phy (s_user s)) !! sock = Some n)).
  { intros s Hs. by destruct (deref_cases sock s) as [(n & Hn & ->)|(u & -> & _)]. }
  intros n s [Hs Hn]. destruct (decide _) as [_|Ht]; [done|].
  phy_step. set (p := h_phy (s_user s)) in *.
  destruct (FD_CLR (ps_sock n) (_readfds p)) as [r|] eqn:Er; [|by sm_step]. sm_step.
  destruct (FD_CLR (ps_sock n) (_writefds p)) as [w|] eqn:Ew; [|by sm_step].
  apply FD_CLR_inv in Er, Ew. phy_step. set (s1 := Svc _ _ _).
  assert (on_user (closing sock (ps_sock n)) s1) as H1.
  { split; [|split; [|split]]; simpl; [|set_solver|set_solver|intros n0 Hn0; unfold p in *; simpl in *; congruence].
    apply phy_set_fds_wf; [done|..]; intros fd Hfd; subst;
      [apply (wf_read _ Hs)|apply (wf_write _ Hs)]; set_solver. }
  clearbody s1. revert s1 H1. clear s Hs Hn p r w Er Ew.
  apply (keeps_bind2 (on_user (closing sock (ps_sock n)))).
  { apply keeps_when, keeps_bind; [apply keeps_ask|]. intros; apply keeps_ret. }
  intros _. apply keeps_bind2.
  { apply keeps_when, keeps_bind; [apply keeps_ask|]. intros; apply keeps_ret. }
  intros _. apply keeps_bind2.
  { apply keeps_when. destruct (ps_type n); try apply keeps_ret; apply HH. }
  intros _ s Hs. by apply close_tail_wf with (fd := ps_sock n).
Qed.


Ltac keeps_go :=
  repeat (intros; first
    [ by apply keeps_add_sock | apply keeps_bind | apply keeps_ret | apply keeps_undef | apply keeps_ask | apply keeps_lift
    | apply keeps_get_phy | apply keeps_deref | apply keeps_when | apply keeps_close
    | apply HH | match goal with x : (_ * _)%type |- _ => destruct x end
    | case_match ]).

Lemma poll_tcp_pending_wf a n wfds s :
  on_user host_wf s → phy_heap (h_phy (s_user s)) !! a = Some n →
  ps_type n = ZT_PHY_SOCKET_TCP_OUT_PENDING →
  match poll_tcp_pending H a n wfds s with Ok (_, s') => on_user host_wf s' | Undef _ => True end.
Proof.
  intros Hs Hn Ht. unfold poll_tcp_pending, isset.
  destruct (FD_ISSET _ _) as [[]|]; sm_step; [|exact Hs|done].
  destruct (negb _); [by apply keeps_close|]. phy_step.
  set (p1 := phy_set_node _ _ _).
  assert (phy_wf p1) as Hp1 by (apply (phy_set_node_wf a n _ _ Hs Hn); simpl; congruence).
  destruct (FD_SET _ _) as [r|] eqn:Er; sm_step; [|done].
  destruct (FD_CLR _ _) as [w|] eqn:Ew; sm_step; [|done]. phy_step.
  apply (ok_connect H HH a true). unfold on_user, host_wf; simpl.
  apply FD_SET_inv in Er. apply FD_CLR_inv in Ew. subst.
  apply phy_set_fds_wf; [done|..]; intros fd Hfd.
  - apply elem_of_union in Hfd as [Hfd|Hfd]; [|by apply (wf_read _ Hp1)].
    apply elem_of_singleton in Hfd as ->. exists a, (set_type ZT_PHY_SOCKET_TCP_OUT_CONNECTED n).
    unfold p1. by rewrite phy_set_node_heap, decide_True.
  - apply (wf_write _ Hp1). set_solver.
Qed.

Lemma keeps_poll_tcp a n rfds wfds : keeps (on_user host_wf) (poll_tcp H a n rfds wfds).
Proof. unfold poll_tcp, isset, poll_buf. keeps_go. Qed.

Lemma keeps_poll_unix_in a n rfds wfds : keeps (on_user host_wf) (poll_unix_in H a n rfds wfds).
Proof. unfold poll_unix_in, isset, poll_buf. keeps_go. Qed.

Lemma keeps_poll_udp fuel a n : keeps (on_user host_wf) (poll_udp H fuel a n).
Proof. induction fuel as [|fuel IH]; simpl; keeps_go; intros; apply IH. Qed.

Lemma keeps_poll_accept n t k b :
  t ≠ ZT_PHY_SOCKET_CLOSED → (∀ a ss, keeps (on_user host_wf) (k a ss)) →
  keeps (on_user host_wf) (poll_accept (X:=X) n t k b).
Proof. intros Ht Hk. unfold poll_accept. keeps_go; intros; apply Hk. Qed.

Lemma keeps_isset_when fd fds m :
  keeps (on_user host_wf) m →
  keeps (on_user host_wf) (b ← isset (X:=X) fd fds; when b m).
Proof. intros Hm. unfold isset. apply keeps_bind; [apply keeps_lift|]. intros. by apply keeps_when. Qed.

Lemma keeps_poll_sock fuel a rfds wfds : keeps (on_user host_wf) (poll_sock H fuel a rfds wfds).
Proof.
  intros s Hs. unfold poll_sock. unfold mbind at 1, sm_bind at 1.
  destruct (deref_cases a s) as [(n & Hn & ->)|(u & -> & _)]; [|done].
  destruct (ps_type n) eqn:Ht; try done.
  - by apply poll_tcp_pending_wf.
  - by apply keeps_poll_tcp.
  - by apply keeps_poll_tcp.
  - apply keeps_isset_when; [|done]. apply keeps_poll_accept; [done|]. intros; apply HH.
  - apply keeps_isset_when; [|done]. apply keeps_poll_udp.
  - by apply keeps_poll_unix_in.
  - apply keeps_isset_when; [|done]. apply keeps_poll_accept; [done|]. intros; apply keeps_ret.
Qed.

Lemma keeps_poll_loop fuel i rfds wfds : keeps (on_user host_wf) (poll_loop H fuel i rfds wfds).
Proof.
  revert i; induction fuel as [|fuel IH]; intros i; simpl; [apply keeps_undef|].
  apply keeps_bind; [apply keeps_get_phy|]. intros p.
  destruct (_socks p !! i) as [a|]; [|apply keeps_ret].
  apply keeps_bind; [apply keeps_poll_sock|]. intros _ s Hs. unfold mbind at 1, sm_bind at 1.
  destruct (deref_cases a s) as [(n & Hn & ->)|(u & -> & _)]; [|done].
  destruct (decide _) as [Ht|]; [|by apply IH]. phy_step. apply IH.
  by apply (phy_erase_wf _ n).
Qed.

Lemma keeps_poll fuel timeout : keeps (on_user host_wf) (poll H fuel timeout).
Proof. unfold poll, isset. keeps_go. intros; apply keeps_poll_loop. Qed.
End invariant.
#[export] Hint Resolve keeps_deref keeps_get_phy keeps_wrapSocket : zt.

(** [_nfds] is determined by the pipe and the open sockets. *)
Lemma nfds_unique p q :
  phy_wf p → phy_wf q → (∀ fd, open_fd p fd ↔ open_fd q fd) →
  _whackReceiveSocket p = _whackReceiveSocket q → _whackSendSocket p = _whackSendSocket q →
  _nfds p = _nfds q.
Proof.
  intros Hp Hq Ho Hr Hs.
  pose proof (wf_pipe p Hp). pose proof (wf_pipe q Hq).
  assert (_nfds p <= _nfds q).
  { destruct (wf_tight p Hp) as [?|[?|?]]; [lia..|]. by apply (wf_open q Hq), Ho. }
  assert (_nfds q <= _nfds p).
  { destruct (wf_tight q Hq) as [?|[?|?]]; [lia..|]. by apply (wf_open p Hp), Ho. }
  lia.
Qed.

Lemma FD_SET_ok fd s : 0 <= fd < FD_SETSIZE → FD_SET fd s = Ok ({[fd]} ∪ s).
Proof.
  intros Hfd. unfold FD_SET, fd_in_range.
  by rewrite (proj2 (Z.leb_le _ _)), (proj2 (Z.ltb_lt _ _)) by lia.
Qed.

Lemma FD_CLR_ok fd s : 0 <= fd < FD_SETSIZE → FD_CLR fd s = Ok (s ∖ {[fd]}).
Proof.
  intros Hfd. unfold FD_CLR, fd_in_range.
  by rewrite (proj2 (Z.leb_le _ _)), (proj2 (Z.ltb_lt _ _)) by lia.
Qed.

Lemma FD_ISSET_ok fd s : 0 <= fd < FD_SETSIZE → FD_ISSET fd s = Ok (bool_decide (fd ∈ s)).
Proof.
  intros Hfd. unfold FD_ISSET, fd_in_range.
  by rewrite (proj2 (Z.leb_le _ _)), (proj2 (Z.ltb_lt _ _)) by lia.
Qed.

Lemma deref_ok {X} sock n (s : svc (host X)) :
  phy_heap (h_phy (s_user s)) !! sock = Some n → deref sock s = Ok (n, s).
Proof.
  intros Hn. destruct (deref_cases sock s) as [(n' & Hn' & ->)|(u & Hu & _)]; [congruence|].
  unfold deref, get_phy, read in Hu. sm_unfold. by rewrite Hn in Hu.
Qed.

Lemma bind_deref {X B} sock n (k : PhySocketImpl → M X B) s :
  phy_heap (h_phy (s_user s)) !! sock = Some n → (deref sock ≫= k) s = k n s.
Proof. intros Hn. unfold mbind, sm_bind. by rewrite (deref_ok sock n s Hn). Qed.

(** ** Properties of the loop *)

Section claims.
Context {env : Env} {X : Type}.

(** C30: one pass of the I/O loop keeps the bookkeeping of the sockets right.  From a
    state in which the list and its nodes agree, the two descriptor sets watch
    open sockets only and [_nfds] is the largest descriptor of the wake-up pipe and
    the open sockets, [poll] ends in such a state, for every answer of the
    kernel and every handler object that does so. *)
Theorem poll_keeps_invariant (H : phy_handler X) fuel timeout s s' :
  handler_ok H → phy_wf (h_phy (s_user s)) →
  poll H fuel timeout s = Ok (tt, s') → phy_wf (h_phy (s_user s')).
Proof.
  intros HH Hs Hp. pose proof (keeps_poll H HH fuel timeout s Hs) as Hk.
  by rewrite Hp in Hk.
Qed.

(** Waking the loop up does nothing.  Nothing adds the receiving end of the
    wake-up pipe to the read set, so that select() is never told to watch it and
    [poll] never drains it: [poll] is select() followed by the pass over the
    sockets, after a [whack] as before it. *)
Theorem whack_never_wakes (H : phy_handler X) fuel timeout s :
  let p := h_phy (s_user s) in
  phy_wf p → ¬ open_fd p (_whackReceiveSocket p) →
  0 <= _whackReceiveSocket p < FD_SETSIZE →
  (∀ nfds r w t tr, (answer (ScSelect nfds r w t) tr).1.2 ⊆ r) →
  (_whackReceiveSocket p ∉ _readfds p) ∧
  (∃ tr, whack s = Ok (tt, Svc tr (s_held s) (s_user s))) ∧
  poll H fuel timeout s =
    ('(n, rfds, wfds) ← ask (ScSelect (_nfds p + 1) (_readfds p) (_writefds p) timeout);
     if n <=? 0 then mret tt else poll_loop H fuel 0 rfds wfds) s.
Proof.
  intros p Hp Ho Hr Hsel.
  assert (_whackReceiveSocket p ∉ _readfds p) as Hn by (intros Hin; by apply Ho, (wf_read p Hp)).
  split; [done|]. split; [by eexists|].
  unfold poll, isset. phy_step. fold p.
  specialize (Hsel (_nfds p + 1) (_readfds p) (_writefds p) timeout (s_trace s)).
  destruct (answer _ _) as [[n rfds] wfds] eqn:E. simpl in Hsel.
  destruct (n <=? 0); [done|]. rewrite FD_ISSET_ok by done.
  rewrite bool_decide_false by set_solver. by sm_step.
Qed.

(** Wrapping a descriptor and closing it again leaves no trace in the watch
    sets.  For a descriptor in the range of select(), [wrapSocket] followed by
    [close] (without handlers) gives a node marked closed, the sets and [_nfds]
    of before, and exactly one call to the kernel, closing the descriptor. *)
Theorem wrapSocket_close (H : phy_handler X) fd uptr s :
  let p := h_phy (s_user s) in
  phy_wf p → count p < ZT_PHY_MAX_SOCKETS → 0 <= fd < FD_SETSIZE →
  (fd ∉ _readfds p) → (fd ∉ _writefds p) →
  ∃ a s' e,
    (a ← wrapSocket fd uptr; _ ← close H a false; mret a) s = Ok (a, s') ∧
    let p' := h_phy (s_user s') in
    ps_type <$> phy_heap p' !! a = Some ZT_PHY_SOCKET_CLOSED ∧
    _readfds p' = _readfds p ∧ _writefds p' = _writefds p ∧ _nfds p' = _nfds p ∧
    s_trace s' = Ev (ScClose fd) e :: s_trace s.
Proof.
  intros p Hp Hc Hfd Hr Hw. unfold wrapSocket, add_sock. phy_step.
  rewrite (proj2 (Z.leb_gt _ _)) by done. phy_step. cbn [ps_sock].
  rewrite FD_SET_ok by done. phy_step. cbn [fst snd].
  set (n := PhySock _ _ _ _). set (p1 := phy_set_fds _ _ _).
  assert (phy_heap p1 !! phy_next p = Some n) as Hn by (simpl; by rewrite lookup_insert_eq).
  assert (phy_wf p1) as Hp1.
  { apply phy_push_wf; [done..| |]; intros fd' Hfd'.
    - apply elem_of_union in Hfd' as [?%elem_of_singleton|?]; [by right|].
      left. by apply (wf_read p Hp).
    - left. by apply (wf_write p Hp). }
  unfold close. rewrite (proj2 (Z.eqb_neq _ _)).
  2:{ pose proof (wf_next p Hp). fold p. lia. }
  sm_step. rewrite (bind_deref _ n) by done. rewrite decide_False by done. phy_step.
  rewrite !FD_CLR_ok by done. phy_step.
  rewrite (bind_deref _ n) by done. phy_step.
  set (p2 := phy_set_fds _ _ p1). set (p3 := phy_set_node _ _ p2).
  assert (phy_wf p2) as Hp2.
  { apply phy_set_fds_wf; [done|..]; intros fd' Hfd'.
    - apply (wf_read p1 Hp1). set_solver.
    - apply (wf_write p1 Hp1). set_solver. }
  assert (phy_wf (if _nfds p3 <=? ps_sock n then phy_set_nfds (top_fd p3) p3 else p3)) as Hp3.
  { apply phy_mark_closed_wf; [done..| |]; simpl; set_solver. }
  set (p4 := if _nfds p3 <=? ps_sock n then _ else _) in Hp3.
  exists (phy_next p). eexists (Svc _ _ (Host p4 _)), _. split.
  { unfold p4. destruct (_nfds p3 <=? ps_sock n); phy_step; reflexivity. }
  assert (phy_heap p4 = <[phy_next p := set_type ZT_PHY_SOCKET_CLOSED n]>
    (<[phy_next p := n]> (phy_heap p))) as Hh by (unfold p4; by destruct (_ <=? _)).
  assert (_readfds p4 = ({[fd]} ∪ _readfds p) ∖ {[fd]} ∧ _writefds p4 = _writefds p ∖ {[fd]} ∧
    _whackReceiveSocket p4 = _whackReceiveSocket p ∧ _whackSendSocket p4 = _whackSendSocket p)
    as (Hr4 & Hw4 & HR4 & HS4) by (unfold p4; by destruct (_ <=? _)).
  clearbody p4. cbn [s_user h_phy s_trace].
  split; [by rewrite Hh, lookup_insert_eq|].
  split; [rewrite Hr4; set_solver|]. split; [rewrite Hw4; set_solver|]. split; [|done].
  apply nfds_unique; try done. intros fd'.
  assert (phy_heap p !! phy_next p = None) as Hnew.
  { destruct (phy_heap p !! phy_next p) eqn:E; [|done].
    destruct (wf_addr p Hp (phy_next p)); [by eexists|lia]. }
  unfold open_fd. rewrite Hh, insert_insert_eq. split; intros (a & t & Ha & Ht & Hf); exists a, t.
  - apply lookup_insert_Some in Ha as [[_ Ht']|[_ ?]]; [by subst t|done].
  - rewrite lookup_insert_ne; [done|]. intros E; subst a; congruence.
Qed.
End claims.

(** ** Examples *)

(** An object that does nothing. *)
Definition quiet : phy_handler unit :=
  PhyHandler (λ _ _ _ _, mret tt) (λ _ _, mret tt) (λ _ _ _, mret tt) (λ _, mret tt)
    (λ _ _ _, mret tt) (λ _ _, mret tt) (λ _, mret tt) (λ _ _ _, mret tt) (λ _ _, mret tt).

Lemma quiet_ok : handler_ok quiet.
Proof. split; intros; apply keeps_ret. Qed.

(** A loop with a pipe on descriptors 3 and 4. *)
Definition idle : svc (host unit) := Svc [] ∅ (Host (phy_new 3 4 false true) tt).

(** The same with a listening socket on descriptor 8. *)
Definition listening_loop : svc (host unit) :=
  match unixListen (env:=calm) (X:=unit) [47; 97] 0 idle with Ok (_, s) => s | Undef _ => idle end.

Lemma listening_wf : phy_wf (h_phy (s_user listening_loop)).
Proof.
  change (phy_wf (phy_set_fds {[8]} ∅
    (phy_push (PhySock ZT_PHY_SOCKET_UNIX_LISTEN 8 0
       (le_bytes 2 PF_UNIX ++ [47; 97] ++ memset 106 0 ++ memset 18 0)) (phy_new 3 4 false true)))).
  apply phy_push_wf; [apply phy_new_wf|done|set_solver|set_solver].
Qed.

Lemma poll_keeps_invariant_witness :
  ∃ s', poll (env:=calm) quiet 10 50 listening_loop = Ok (tt, s') ∧
    phy_wf (h_phy (s_user s')) ∧ _nfds (h_phy (s_user s')) = 9.
Proof.
  eexists; split; [vm_compute; reflexivity|]. split; [|vm_compute; reflexivity].
  apply (poll_keeps_invariant (env:=calm) quiet 10 50 listening_loop);
    [apply quiet_ok|apply listening_wf|vm_compute; reflexivity].
Defined.

Lemma whack_never_wakes_witness :
  3 ∉ _readfds (h_phy (s_user listening_loop)).
Proof.
  refine (proj1 (whack_never_wakes (env:=calm) quiet 10 50 listening_loop _ _ _ _)).
  - apply listening_wf.
  - intros (a & n & Ha & _ & Hf). vm_compute in Ha, Hf.
    destruct a as [|[]|]; vm_compute in Ha; simplify_eq; done.
  - done.
  - intros; done.
Defined.

Lemma wrapSocket_close_witness :
  ∃ a s' e,
    (a ← wrapSocket 12 0; _ ← close (env:=calm) quiet a false; mret a) listening_loop
      = Ok (a, s') ∧
    _nfds (h_phy (s_user s')) = 8 ∧
    s_trace s' = Ev (ScClose 12) e :: s_trace listening_loop.
Proof.
  destruct (wrapSocket_close (env:=calm) quiet 12 0 listening_loop)
    as (a & s' & e & Hrun & _ & _ & _ & Hn & Ht).
  - apply listening_wf.
  - vm_compute; reflexivity.
  - split; vm_compute; congruence.
  - vm_compute. by intros ?.
  - vm_compute. by intros ?.
  - exists a, s', e. split; [exact Hrun|]. split; [exact Hn|exact Ht].
Defined.
