(* ===== verification/Addr.v ===== *)
(** * Addresses (zto/node: MAC.hpp, Address.hpp, InetAddress, MulticastGroup.hpp)

    The value types of the ZeroTier node that the tap and the drivers handle:
    48-bit Ethernet addresses, 40-bit ZeroTier addresses, IP addresses with a
    port or prefix length, and multicast groups.  An [InetAddress] is a
    [sockaddr_storage]: its model is the 128 bytes of that object. *)

From S2P Require Import Prelude.
From stdpp Require Import base numbers list option.

Open Scope Z_scope.

(** ** Byte order (Utils.hpp)

    On a little-endian host the conversions swap the bytes. *)

Definition hton (n : nat) (z : Z) : Z := be_val (le_bytes n z).
Definition ntoh (n : nat) (z : Z) : Z := hton n z.

Lemma hton_involutive n z : 0 <= z < 256 ^ Z.of_nat n → ntoh n (hton n z) = z.
Proof.
  intros Hz. unfold ntoh, hton, be_val.
  assert (le_bytes n (le_val (rev (le_bytes n z))) = rev (le_bytes n z)) as ->.
  { rewrite <- (length_le_bytes n z) at 1. rewrite <- length_rev. apply le_bytes_val.
    unfold bytes_ok. apply Forall_rev, le_bytes_ok. }
  rewrite rev_involutive. by apply le_val_bytes_small.
Qed.

(** ** ZeroTier addresses *)

Module Address.

Definition ZT_ADDRESS_LENGTH : Z := 5.
Definition ZT_ADDRESS_RESERVED_PREFIX : Z := 0xff.

Definition of_u64 (a : Z) : Z := Z.land a 0xffffffffff.

(** [Address::setTo], which returns the new [_a]. *)
Definition setTo (bits : bytes) (len : Z) : cres Z :=
  if len <? ZT_ADDRESS_LENGTH then Ok 0
  else
    d ← mem_read 0 5 bits;
    match d with
    | [b0; b1; b2; b3; b4] =>
        Ok (Z.lor (Z.lor (Z.lor (Z.lor (Z.shiftl b0 32) (Z.shiftl b1 24)) (Z.shiftl b2 16))
              (Z.shiftl b3 8)) b4)
    | _ => Undef OutOfBounds
    end.

Definition octets (a : Z) : bytes :=
  [Z.land (Z.shiftr a 32) 0xff; Z.land (Z.shiftr a 24) 0xff; Z.land (Z.shiftr a 16) 0xff;
   Z.land (Z.shiftr a 8) 0xff; Z.land a 0xff].

Definition copyTo (a : Z) (bits : bytes) (len : Z) : cres bytes :=
  if len <? ZT_ADDRESS_LENGTH then Ok bits else mem_write 0 (octets a) bits.

Definition isReserved (a : Z) : bool :=
  (a =? 0) || (Z.shiftr a 32 =? ZT_ADDRESS_RESERVED_PREFIX).

End Address.

(** ** Ethernet addresses *)

Module MAC.

Definition of6 (a b c d e f : Z) : Z :=
  Z.lor (Z.lor (Z.lor (Z.lor (Z.lor (Z.shiftl (Z.land a 0xff) 40) (Z.shiftl (Z.land b 0xff) 32))
    (Z.shiftl (Z.land c 0xff) 24)) (Z.shiftl (Z.land d 0xff) 16))
    (Z.shiftl (Z.land e 0xff) 8)) (Z.land f 0xff).

Definition of_u64 (m : Z) : Z := Z.land m 0xffffffffffff.

Definition setTo (bits : bytes) (len : Z) : cres Z :=
  if len <? 6 then Ok 0
  else
    d ← mem_read 0 6 bits;
    match d with
    | [b0; b1; b2; b3; b4; b5] => Ok (of6 b0 b1 b2 b3 b4 b5)
    | _ => Undef OutOfBounds
    end.

Definition octets (m : Z) : bytes :=
  [Z.land (Z.shiftr m 40) 0xff; Z.land (Z.shiftr m 32) 0xff; Z.land (Z.shiftr m 24) 0xff;
   Z.land (Z.shiftr m 16) 0xff; Z.land (Z.shiftr m 8) 0xff; Z.land m 0xff].

Definition copyTo (m : Z) (buf : bytes) (len : Z) : cres bytes :=
  if len <? 6 then Ok buf else mem_write 0 (octets m) buf.

Definition isBroadcast (m : Z) : bool := m =? 0xffffffffffff.
Definition isMulticast (m : Z) : bool := negb (Z.land m 0x010000000000 =? 0).
Definition isLocallyAdministered (m : Z) : bool := negb (Z.land m 0x020000000000 =? 0).

Definition firstOctetForNetwork (nwid : Z) : Z :=
  let a := Z.lor (Z.land nwid 0xfe) 0x02 in
  if a =? 0x52 then 0x32 else a.

Definition fromAddress (ztaddr nwid : Z) : Z :=
  let m := Z.shiftl (firstOctetForNetwork nwid) 40 in
  let m := Z.lor m ztaddr in
  let m := Z.lxor m (Z.shiftl (Z.land (Z.shiftr nwid 8) 0xff) 32) in
  let m := Z.lxor m (Z.shiftl (Z.land (Z.shiftr nwid 16) 0xff) 24) in
  let m := Z.lxor m (Z.shiftl (Z.land (Z.shiftr nwid 24) 0xff) 16) in
  let m := Z.lxor m (Z.shiftl (Z.land (Z.shiftr nwid 32) 0xff) 8) in
  Z.lxor m (Z.land (Z.shiftr nwid 40) 0xff).

Definition toAddress (m nwid : Z) : Z :=
  let a := Z.land m 0xffffffffff in
  let a := Z.lxor a (Z.shiftl (Z.land (Z.shiftr nwid 8) 0xff) 32) in
  let a := Z.lxor a (Z.shiftl (Z.land (Z.shiftr nwid 16) 0xff) 24) in
  let a := Z.lxor a (Z.shiftl (Z.land (Z.shiftr nwid 24) 0xff) 16) in
  let a := Z.lxor a (Z.shiftl (Z.land (Z.shiftr nwid 32) 0xff) 8) in
  Address.of_u64 (Z.lxor a (Z.land (Z.shiftr nwid 40) 0xff)).

End MAC.

(** ** IP addresses *)

Module InetAddress.

Definition AF_INET : Z := 2.
Definition AF_INET6 : Z := 10.
Definition SIZE : nat := 128.

(** The bytes of a member at a fixed place of the object. *)
Definition fld (off n : nat) (a : bytes) : bytes := take n (drop off a).
Definition set_fld (off : nat) (d a : bytes) : bytes :=
  take off a ++ d ++ drop (off + length d) a.

Definition zero : bytes := replicate SIZE 0.

Definition ss_family (a : bytes) : Z := le_val (fld 0 2 a).
Definition sin_port (a : bytes) : Z := le_val (fld 2 2 a).
Definition s_addr (a : bytes) : Z := le_val (fld 4 4 a).
Definition sin6_flowinfo (a : bytes) : Z := le_val (fld 4 4 a).
Definition s6_addr (a : bytes) : bytes := fld 8 16 a.
Definition sin6_scope_id (a : bytes) : Z := le_val (fld 24 4 a).

Definition isV4 (a : bytes) : bool := ss_family a =? AF_INET.
Definition isV6 (a : bytes) : bool := ss_family a =? AF_INET6.

(** [set(ipBytes, ipLen, port)]. *)
Definition set (ipBytes : bytes) (ipLen port : Z) : cres bytes :=
  if ipLen =? 4 then
    ipb ← mem_read 0 4 ipBytes;
    Ok (set_fld 2 (le_bytes 2 (hton 2 (wrap 16 port)))
         (set_fld 4 ipb (set_fld 0 (le_bytes 2 AF_INET) zero)))
  else if ipLen =? 16 then
    ip ← mem_read 0 16 ipBytes;
    Ok (set_fld 2 (le_bytes 2 (hton 2 (wrap 16 port)))
         (set_fld 8 ip (set_fld 0 (le_bytes 2 AF_INET6) zero)))
  else Ok zero.

Definition setPort (port : Z) (a : bytes) : bytes :=
  if isV4 a || isV6 a then set_fld 2 (le_bytes 2 (hton 2 (wrap 16 port))) a else a.

Definition port (a : bytes) : Z :=
  if isV4 a then ntoh 2 (sin_port a) else if isV6 a then ntoh 2 (sin_port a) else 0.

Definition netmaskBits (a : bytes) : Z := port a.

Definition netmaskBitsValid (a : bytes) : bool :=
  let n := port a in
  if isV4 a then n <=? 32 else if isV6 a then n <=? 128 else false.

Definition isDefaultRoute (a : bytes) : bool :=
  if isV4 a then (s_addr a =? 0) && (sin_port a =? 0)
  else if isV6 a then forallb (λ b, b =? 0) (s6_addr a) && (sin_port a =? 0)
  else false.

(** The pointer [rawIpData] returns, as the bytes behind it. *)
Definition rawIpData (a : bytes) : option bytes :=
  if isV4 a then Some (fld 4 4 a) else if isV6 a then Some (s6_addr a) else None.

Definition ipOnly (a : bytes) : bytes :=
  if isV4 a then set_fld 4 (fld 4 4 a) (set_fld 0 (le_bytes 2 AF_INET) zero)
  else if isV6 a then set_fld 8 (s6_addr a) (set_fld 0 (le_bytes 2 AF_INET6) zero)
  else zero.

(** memcmp on byte strings of the same length, as the sign of its result. *)
Fixpoint memcmp (a b : bytes) : comparison :=
  match a, b with
  | x :: a', y :: b' => match x ?= y with Eq => memcmp a' b' | c => c end
  | [], [] => Eq
  | [], _ => Lt
  | _, [] => Gt
  end.

Definition memeq (a b : bytes) : bool := match memcmp a b with Eq => true | _ => false end.
Definition memlt (a b : bytes) : bool := match memcmp a b with Lt => true | _ => false end.

Definition ipsEqual (x a : bytes) : bool :=
  if ss_family x =? ss_family a then
    if isV4 x then s_addr x =? s_addr a
    else if isV6 x then memeq (s6_addr x) (s6_addr a)
    else memeq x a
  else false.

(** The netmask of a 32-bit address, in host order.  The count is an [unsigned int],
    so that a prefix length above 32 wraps around to a large count. *)
Definition mask4 (bits : Z) : cres Z := shl 32 0xffffffff (wrap 32 (32 - bits)).

(** The two halves of a 128-bit netmask. *)
Definition mask6_hi (bits : Z) : cres Z :=
  if 64 <=? bits then Ok 0xffffffffffffffff else shl 64 0xffffffffffffffff (wrap 32 (64 - bits)).
Definition mask6_lo (bits : Z) : cres Z :=
  if bits <=? 64 then Ok 0 else shl 64 0xffffffffffffffff (wrap 32 (128 - bits)).

Definition netmask (a : bytes) : cres bytes :=
  if isV4 a then
    m ← mask4 (netmaskBits a);
    Ok (set_fld 4 (le_bytes 4 (hton 4 m)) a)
  else if isV6 a then
    let bits := netmaskBits a in
    if negb (bits =? 0) then
      hi ← mask6_hi bits; lo ← mask6_lo bits;
      Ok (set_fld 8 (le_bytes 8 (hton 8 hi) ++ le_bytes 8 (hton 8 lo)) a)
    else Ok (set_fld 8 (le_bytes 8 0 ++ le_bytes 8 0) a)
  else Ok a.

Definition broadcast (a : bytes) : cres bytes :=
  if isV4 a then
    m ← shr 32 0xffffffff (netmaskBits a);
    Ok (set_fld 4 (le_bytes 4 (Z.lor (s_addr a) (hton 4 m))) a)
  else Ok zero.

Definition network (a : bytes) : cres bytes :=
  if isV4 a then
    m ← mask4 (netmaskBits a);
    Ok (set_fld 4 (le_bytes 4 (Z.land (s_addr a) (hton 4 m))) a)
  else if isV6 a then
    let bits := netmaskBits a in
    let nm0 := le_val (take 8 (s6_addr a)) in
    let nm1 := le_val (drop 8 (s6_addr a)) in
    hi ← mask6_hi bits; lo ← mask6_lo bits;
    Ok (set_fld 8 (le_bytes 8 (Z.land nm0 (hton 8 hi)) ++ le_bytes 8 (Z.land nm1 (hton 8 lo))) a)
  else Ok a.

(** The loop over the bytes of an IPv6 address, its netmask and the prefix. *)
Fixpoint masked_eq (a m b : bytes) : bool :=
  match a, m, b with
  | x :: a', y :: m', z :: b' => if negb (Z.land x y =? z) then false else masked_eq a' m' b'
  | _, _, _ => true
  end.

Definition containsAddress (x addr : bytes) : cres bool :=
  if ss_family addr =? ss_family x then
    if isV4 x then
      let bits := netmaskBits x in
      if bits =? 0 then Ok true
      else
        p ← shr 32 (ntoh 4 (s_addr addr)) (wrap 32 (32 - bits));
        q ← shr 32 (ntoh 4 (s_addr x)) (wrap 32 (32 - bits));
        Ok (p =? q)
    else if isV6 x then
      mask ← netmask x;
      Ok (masked_eq (s6_addr addr) (s6_addr mask) (s6_addr x))
    else Ok false
  else Ok false.

Definition isNetwork (a : bytes) : cres bool :=
  if isV4 a then
    let bits := netmaskBits a in
    if bits <=? 0 then Ok false
    else if 32 <=? bits then Ok false
    else
      m ← shr 32 0xffffffff bits;
      Ok (Z.land (ntoh 4 (s_addr a)) m =? 0)
  else if isV6 a then
    let bits := netmaskBits a in
    if bits <=? 0 then Ok false
    else if 128 <=? bits then Ok false
    else
      let p := Z.to_nat (bits / 8) in
      if negb (Z.land (nth p (s6_addr a) 0) (Z.shiftr 0xff (bits mod 8)) =? 0) then Ok false
      else Ok (forallb (λ b, b =? 0) (drop (S p) (s6_addr a)))
  else Ok false.

(** [operator==] *)
Definition eqb (x a : bytes) : bool :=
  if ss_family x =? ss_family a then
    if isV4 x then (sin_port x =? sin_port a) && (s_addr x =? s_addr a)
    else if isV6 x then
      (sin_port x =? sin_port a) && (sin6_flowinfo x =? sin6_flowinfo a) &&
      memeq (s6_addr x) (s6_addr a) && (sin6_scope_id x =? sin6_scope_id a)
    else memeq x a
  else false.

(** [operator<] *)
Definition ltb (x a : bytes) : bool :=
  if ss_family x <? ss_family a then true
  else if ss_family x =? ss_family a then
    if isV4 x then
      if sin_port x <? sin_port a then true
      else (sin_port x =? sin_port a) && (s_addr x <? s_addr a)
    else if isV6 x then
      if sin_port x <? sin_port a then true
      else if sin_port x =? sin_port a then
        if sin6_flowinfo x <? sin6_flowinfo a then true
        else if sin6_flowinfo x =? sin6_flowinfo a then
          if memlt (s6_addr x) (s6_addr a) then true
          else memeq (s6_addr x) (s6_addr a) && (sin6_scope_id x <? sin6_scope_id a)
        else false
      else false
    else memlt x a
  else false.

Definition makeIpv6rfc4193 (nwid zeroTierAddress : Z) : bytes :=
  set_fld 2 (le_bytes 2 (hton 2 88))
    (set_fld 8
      ([0xfd] ++ map (λ k, wrap 8 (Z.shiftr nwid k)) [56; 48; 40; 32; 24; 16; 8; 0] ++
       [0x99; 0x93] ++ map (λ k, wrap 8 (Z.shiftr zeroTierAddress k)) [32; 24; 16; 8; 0])
      (set_fld 0 (le_bytes 2 AF_INET6) zero)).

End InetAddress.

(** ** Multicast groups *)

Module MulticastGroup.

Record t := Group { mac : Z; adi : Z }.

#[global] Instance t_eq_dec : EqDecision t.
Proof. solve_decision. Defined.

(** The dereferences of [rawIpData] are of a pointer that is not null in either
    branch. *)
Definition deriveMulticastGroupForAddressResolution (ip : bytes) : t :=
  if InetAddress.isV4 ip then
    Group (MAC.of_u64 0xffffffffffff) (ntoh 4 (InetAddress.s_addr ip))
  else if InetAddress.isV6 ip then
    let a := InetAddress.s6_addr ip in
    Group (MAC.of6 0x33 0x33 0xff (nth 13 a 0) (nth 14 a 0) (nth 15 a 0)) 0
  else Group 0 0.

Definition ltb (x g : t) : bool :=
  if mac x <? mac g then true
  else if mac x =? mac g then adi x <? adi g
  else false.

End MulticastGroup.

(** ** Lemmas: octets and integers *)

Lemma lor_field a b k k8 :
  0 <= k → k8 = k + 8 → 0 <= b < 256 →
  Z.lor (Z.shiftl a k8) (Z.shiftl b k) = Z.shiftl (a * 256 + b) k.
Proof.
  intros Hk -> Hb. rewrite (Z.add_comm k 8), <- (Z.shiftl_shiftl a 8 k) by lia.
  rewrite <- Z.shiftl_lor. f_equal. by apply (lor_shiftl_add a b 8).
Qed.

Lemma land_ff_small b : byte_ok b → Z.land b 255 = b.
Proof. intros Hb. rewrite land_ff. by apply Z.mod_small. Qed.

Lemma mac_of6_val b0 b1 b2 b3 b4 b5 :
  bytes_ok [b0; b1; b2; b3; b4; b5] →
  MAC.of6 b0 b1 b2 b3 b4 b5 = be_val [b0; b1; b2; b3; b4; b5].
Proof.
  intros Hb. unfold bytes_ok in Hb. decompose_Forall_hyps. unfold MAC.of6.
  rewrite !land_ff_small by done. unfold byte_ok in *.
  rewrite (lor_field b0 b1 32), (lor_field _ b2 24), (lor_field _ b3 16), (lor_field _ b4 8) by lia.
  rewrite (lor_shiftl_add _ b5 8) by lia. unfold be_val. simpl. lia.
Qed.

Lemma mac_octets_bytes m : MAC.octets m = be_bytes 6 m.
Proof.
  unfold MAC.octets. rewrite !land_ff, !shiftr_div by lia.
  unfold be_bytes. simpl. rewrite !Z.div_div by lia. done.
Qed.

Lemma mac_octets_ok m : bytes_ok (MAC.octets m).
Proof. rewrite mac_octets_bytes. apply be_bytes_ok. Qed.

(** A MAC address survives being written to a frame and read back. *)
Lemma mac_wire_roundtrip m : 0 <= m < 2 ^ 48 → MAC.setTo (MAC.octets m) 6 = Ok m.
Proof.
  intros Hm. unfold MAC.setTo. change (6 <? 6) with false. cbv iota.
  change (mem_read 0 6 (MAC.octets m)) with (Ok (MAC.octets m)).
  assert (MAC.of6 (Z.land (Z.shiftr m 40) 0xff) (Z.land (Z.shiftr m 32) 0xff)
    (Z.land (Z.shiftr m 24) 0xff) (Z.land (Z.shiftr m 16) 0xff) (Z.land (Z.shiftr m 8) 0xff)
    (Z.land m 0xff) = m) as Hv.
  { rewrite mac_of6_val by apply mac_octets_ok. fold (MAC.octets m).
    rewrite mac_octets_bytes, be_val_bytes. by apply Z.mod_small. }
  unfold mbind, cres_bind. unfold MAC.octets. by rewrite Hv.
Qed.

Lemma mac_setTo_range bits m : bytes_ok bits → MAC.setTo bits 6 = Ok m → 0 <= m < 2 ^ 48.
Proof.
  intros Hb. unfold MAC.setTo. change (6 <? 6) with false. cbv iota.
  unfold mbind, cres_bind. destruct (mem_read 0 6 bits) as [d|] eqn:E; [|done].
  apply mem_read_inv in E as (_ & _ & _ & ->).
  assert (bytes_ok (take (Z.to_nat 6) (drop (Z.to_nat 0) bits))) as Hd
    by (apply Forall_take, Forall_drop, Hb).
  destruct (take _ _) as [|b0 [|b1 [|b2 [|b3 [|b4 [|b5 [|]]]]]]]; try done.
  intros [= <-]. rewrite mac_of6_val by done. by apply be_val_bound in Hd.
Qed.

(** The octets that [fromAddress] and [toAddress] XOR in. *)
Definition nwid_mask (nwid : Z) : Z :=
  Z.lxor (Z.lxor (Z.lxor (Z.lxor
    (Z.shiftl (Z.land (Z.shiftr nwid 8) 0xff) 32)
    (Z.shiftl (Z.land (Z.shiftr nwid 16) 0xff) 24))
    (Z.shiftl (Z.land (Z.shiftr nwid 24) 0xff) 16))
    (Z.shiftl (Z.land (Z.shiftr nwid 32) 0xff) 8))
    (Z.land (Z.shiftr nwid 40) 0xff).

Lemma shiftl_octet_high z k i : 0 <= k → k + 8 <= i → Z.testbit (Z.shiftl (Z.land z 255) k) i = false.
Proof.
  intros Hk Hi. rewrite Z.shiftl_spec, Z.land_spec by lia. change 255 with (Z.ones 8).
  by rewrite Z.ones_spec_high, andb_false_r by lia.
Qed.

Lemma nwid_mask_high nwid i : 40 <= i → Z.testbit (nwid_mask nwid) i = false.
Proof.
  intros Hi. unfold nwid_mask. rewrite !Z.lxor_spec, !shiftl_octet_high by lia.
  rewrite Z.land_spec. change 255 with (Z.ones 8).
  by rewrite Z.ones_spec_high, andb_false_r by lia.
Qed.

Lemma fromAddress_mask a nwid :
  MAC.fromAddress a nwid =
  Z.lxor (Z.lor (Z.shiftl (MAC.firstOctetForNetwork nwid) 40) a) (nwid_mask nwid).
Proof. unfold MAC.fromAddress, nwid_mask. by rewrite !Z.lxor_assoc. Qed.

Lemma toAddress_mask m nwid :
  MAC.toAddress m nwid = Z.land (Z.lxor (Z.land m (Z.ones 40)) (nwid_mask nwid)) (Z.ones 40).
Proof. unfold MAC.toAddress, nwid_mask, Address.of_u64. by rewrite !Z.lxor_assoc. Qed.

Lemma testbit_small a k i : 0 <= a < 2 ^ k → k <= i → Z.testbit a i = false.
Proof.
  intros Ha Hi. assert (0 <= k).
  { destruct (decide (0 <= k)); [done|]. rewrite Z.pow_neg_r in Ha by lia. lia. }
  rewrite <- (Z.mod_small a (2 ^ k)) by lia. by rewrite Z.mod_pow2_bits_high by lia.
Qed.

(** The first octet is one of 127 values: even, locally administered and not 0x52. *)
Lemma firstOctet_spec nwid :
  let o := MAC.firstOctetForNetwork nwid in
  0 <= o < 256 ∧ Z.testbit o 0 = false ∧ Z.testbit o 1 = true ∧ o ≠ 0x52.
Proof.
  assert (∃ z, 0 <= z < 128 ∧ Z.land nwid 0xfe = 2 * z) as (z & Hz & E).
  { exists ((nwid mod 256) / 2).
    pose proof (Z.mod_pos_bound nwid 256).
    split; [split; [apply Z.div_pos; lia|apply Z.div_lt_upper_bound; lia]|].
    apply Z.bits_inj'. intros i Hi. rewrite Z.land_spec.
    destruct (decide (i = 0)) as [->|]; [by rewrite Z.testbit_even_0, andb_false_r|].
    replace i with (Z.succ (i - 1)) by lia. rewrite Z.testbit_even_succ by lia.
    change 0xfe with (2 * Z.ones 7). rewrite Z.testbit_even_succ by lia.
    rewrite <- (Z.shiftr_div_pow2 _ 1), Z.shiftr_spec by lia.
    change 256 with (2 ^ 8).
    destruct (decide (i - 1 < 7)).
    - by rewrite Z.ones_spec_low, Z.mod_pow2_bits_low, andb_true_r by lia.
    - by rewrite Z.ones_spec_high, Z.mod_pow2_bits_high, andb_false_r by lia. }
  unfold MAC.firstOctetForNetwork. rewrite E. clear E.
  assert (forallb (λ z, let a := Z.lor (2 * z) 0x02 in
      let o := if a =? 0x52 then 0x32 else a in
      (0 <=? o) && (o <? 256) && negb (Z.testbit o 0) && Z.testbit o 1 && negb (o =? 0x52))
    (seqZ 0 128) = true) as Hall by (vm_compute; reflexivity).
  rewrite forallb_forall in Hall. specialize (Hall z).
  rewrite <- list_elem_of_In, elem_of_seqZ in Hall. specialize (Hall ltac:(lia)). cbv zeta in *.
  bool_hyps. auto with lia.
Qed.

(** A member's MAC address on a network determines the member.  For every 40-bit
    ZeroTier address and every network, [toAddress] recovers the address from what
    [fromAddress] made of it, and that is a 48-bit unicast, locally administered
    MAC address whose first octet is not 0x52. *)
Theorem mac_address_roundtrip a nwid :
  0 <= a < 2 ^ 40 →
  let m := MAC.fromAddress a nwid in
  MAC.toAddress m nwid = a ∧ 0 <= m < 2 ^ 48 ∧ MAC.isMulticast m = false ∧
  MAC.isLocallyAdministered m = true ∧ Z.shiftr m 40 ≠ 0x52.
Proof.
  intros Ha m. destruct (firstOctet_spec nwid) as (Ho & Hb0 & Hb1 & H52).
  assert (∀ i, 40 <= i → Z.testbit m i = Z.testbit (MAC.firstOctetForNetwork nwid) (i - 40)) as Hm.
  { intros i Hi. unfold m. rewrite fromAddress_mask, Z.lxor_spec, nwid_mask_high, Z.lor_spec by lia.
    rewrite (testbit_small a 40), orb_false_r, xorb_false_r, Z.shiftl_spec by lia. done. }
  assert (0 <= m) as Hm0.
  { unfold m. rewrite fromAddress_mask. apply Z.lxor_nonneg. rewrite Z.lor_nonneg, Z.shiftl_nonneg.
    split; [intros _|lia]. apply Z.bits_iff_nonneg_ex. exists 40. intros i Hi.
    apply nwid_mask_high. lia. }
  split; [|split; [|split; [|split]]].
  - rewrite toAddress_mask. apply Z.bits_inj'. intros i Hi.
    rewrite Z.land_spec, Z.lxor_spec, Z.land_spec. destruct (decide (i < 40)).
    + rewrite Z.ones_spec_low, !andb_true_r by lia. unfold m.
      rewrite fromAddress_mask, Z.lxor_spec, Z.lor_spec, Z.shiftl_spec_low by lia.
      simpl. by rewrite xorb_assoc, xorb_nilpotent, xorb_false_r.
    + rewrite Z.ones_spec_high, andb_false_r by lia. by rewrite (testbit_small a 40) by lia.
  - split; [done|]. destruct (decide (m = 0)) as [->|]; [lia|].
    apply Z.log2_lt_pow2; [lia|]. destruct (decide (Z.log2 m < 48)); [done|].
    pose proof (Z.bit_log2 m ltac:(lia)) as Hbit. rewrite Hm in Hbit by lia.
    rewrite (testbit_small _ 8) in Hbit by lia. done.
  - unfold MAC.isMulticast. change 0x010000000000 with (2 ^ 40).
    rewrite land_pow2_testbit, Hm by lia. exact Hb0.
  - unfold MAC.isLocallyAdministered. change 0x020000000000 with (2 ^ 41).
    rewrite land_pow2_testbit, Hm by lia. exact Hb1.
  - intros E. apply H52. rewrite <- E. apply Z.bits_inj'. intros i Hi.
    rewrite Z.shiftr_spec, Hm by lia. f_equal; lia.
Qed.

Lemma mac_address_roundtrip_witness :
  MAC.toAddress (MAC.fromAddress 0x8056c2e21c 0x8056c2e21c000001) 0x8056c2e21c000001 = 0x8056c2e21c.
Proof. apply (mac_address_roundtrip 0x8056c2e21c 0x8056c2e21c000001). lia. Defined.

(** ** The order of IP addresses *)

Lemma memcmp_refl a : InetAddress.memcmp a a = Eq.
Proof. induction a as [|x a IH]; simpl; [done|]. by rewrite Z.compare_refl. Qed.

Lemma memcmp_eq a b : InetAddress.memcmp a b = Eq ↔ a = b.
Proof.
  split; [|intros ->; apply memcmp_refl].
  revert b; induction a as [|x a IH]; intros [|y b]; simpl; try done.
  destruct (x ?= y) eqn:E; try done. apply Z.compare_eq in E as ->. intros H. by rewrite (IH b H).
Qed.

Lemma memcmp_antisym a b : InetAddress.memcmp b a = CompOpp (InetAddress.memcmp a b).
Proof.
  revert b; induction a as [|x a IH]; intros [|y b]; simpl; try done.
  rewrite (Z.compare_antisym x y). destruct (x ?= y); simpl; [apply IH|done..].
Qed.

Lemma memcmp_trans a b c :
  InetAddress.memcmp a b = Lt → InetAddress.memcmp b c = Lt → InetAddress.memcmp a c = Lt.
Proof.
  revert b c; induction a as [|x a IH]; intros [|y b] [|z c]; simpl; try done.
  destruct (x ?= y) eqn:E1; destruct (y ?= z) eqn:E2; try done; intros H1 H2.
  - apply Z.compare_eq in E1 as ->, E2 as ->. rewrite Z.compare_refl. by eapply IH.
  - apply Z.compare_eq in E1 as ->. by rewrite E2.
  - apply Z.compare_eq in E2 as ->. by rewrite E1.
  - rewrite Z.compare_lt_iff in *. destruct (Z.compare_spec x z); [lia|done|lia].
Qed.

(** The members [operator<] compares, in the order in which it does. *)
Definition inet_key (x : bytes) : bytes :=
  InetAddress.ss_family x ::
  (if InetAddress.isV4 x then [InetAddress.sin_port x; InetAddress.s_addr x]
   else if InetAddress.isV6 x then
     [InetAddress.sin_port x; InetAddress.sin6_flowinfo x] ++ InetAddress.s6_addr x ++
     [InetAddress.sin6_scope_id x]
   else x).

Lemma memcmp_app a b c d :
  length a = length b →
  InetAddress.memcmp (a ++ c) (b ++ d) =
  match InetAddress.memcmp a b with Eq => InetAddress.memcmp c d | r => r end.
Proof.
  revert b; induction a as [|x a IH]; intros [|y b]; simpl; try done; intros H.
  destruct (x ?= y); [|done..]. apply IH. lia.
Qed.

Lemma compare_cases x y : (x <? y) = match x ?= y with Lt => true | _ => false end ∧
  (x =? y) = match x ?= y with Eq => true | _ => false end.
Proof. by rewrite Z.ltb_compare, Z.eqb_compare. Qed.

(** Both operators are the comparison of the keys. *)
Lemma inet_ops_key x y :
  length x = InetAddress.SIZE → length y = InetAddress.SIZE →
  InetAddress.ltb x y = InetAddress.memlt (inet_key x) (inet_key y) ∧
  InetAddress.eqb x y = InetAddress.memeq (inet_key x) (inet_key y).
Proof.
  intros Hx Hy.
  assert (length (InetAddress.s6_addr x) = length (InetAddress.s6_addr y)) as Hl.
  { unfold InetAddress.s6_addr, InetAddress.fld, InetAddress.SIZE in *.
    rewrite !length_take, !length_drop, Hx, Hy. done. }
  unfold InetAddress.ltb, InetAddress.eqb, InetAddress.memlt, InetAddress.memeq, inet_key.
  unfold InetAddress.isV4, InetAddress.isV6.
  destruct (compare_cases (InetAddress.ss_family x) (InetAddress.ss_family y)) as [-> ->].
  cbn [InetAddress.memcmp].
  destruct (Z.compare_spec (InetAddress.ss_family x) (InetAddress.ss_family y)) as [E|E|E]; try done.
  rewrite <- E. destruct (InetAddress.ss_family x =? InetAddress.AF_INET).
  { cbn [InetAddress.memcmp].
    destruct (compare_cases (InetAddress.sin_port x) (InetAddress.sin_port y)) as [-> ->].
    destruct (compare_cases (InetAddress.s_addr x) (InetAddress.s_addr y)) as [-> ->].
    by destruct (_ ?= _), (_ ?= _). }
  destruct (InetAddress.ss_family x =? InetAddress.AF_INET6); [|done].
  cbn [InetAddress.memcmp app]. rewrite memcmp_app by done. cbn [InetAddress.memcmp].
  destruct (compare_cases (InetAddress.sin_port x) (InetAddress.sin_port y)) as [-> ->].
  destruct (compare_cases (InetAddress.sin6_flowinfo x) (InetAddress.sin6_flowinfo y)) as [-> ->].
  destruct (compare_cases (InetAddress.sin6_scope_id x) (InetAddress.sin6_scope_id y)) as [-> ->].
  destruct (InetAddress.sin_port x ?= _), (InetAddress.sin6_flowinfo x ?= _); try done;
    by destruct (InetAddress.memcmp _ _), (InetAddress.sin6_scope_id x ?= _).
Qed.

(** [operator<] orders IP addresses as the sorted containers of the code need it:
    it is a strict order, and two addresses of which neither is below the other
    are exactly those that [operator==] calls equal. *)
Theorem inet_order x y z :
  length x = InetAddress.SIZE → length y = InetAddress.SIZE → length z = InetAddress.SIZE →
  InetAddress.ltb x x = false ∧
  (InetAddress.ltb x y = true → InetAddress.ltb y z = true → InetAddress.ltb x z = true) ∧
  (InetAddress.eqb x y = true ↔ InetAddress.ltb x y = false ∧ InetAddress.ltb y x = false).
Proof.
  intros Hx Hy Hz.
  destruct (inet_ops_key x x Hx Hx) as [-> _]. destruct (inet_ops_key x y Hx Hy) as [-> ->].
  destruct (inet_ops_key y z Hy Hz) as [-> _]. destruct (inet_ops_key x z Hx Hz) as [-> _].
  destruct (inet_ops_key y x Hy Hx) as [-> _].
  unfold InetAddress.memlt, InetAddress.memeq. rewrite (memcmp_antisym (inet_key x) (inet_key y)).
  rewrite memcmp_refl. split; [done|]. split.
  - destruct (InetAddress.memcmp (inet_key x) (inet_key y)) eqn:E1; try done.
    destruct (InetAddress.memcmp (inet_key y) (inet_key z)) eqn:E2; try done.
    intros _ _. by rewrite (memcmp_trans _ _ _ E1 E2).
  - destruct (InetAddress.memcmp (inet_key x) (inet_key y)); simpl; naive_solver.
Qed.

Definition inet4 (a b c d bits : Z) : bytes :=
  match InetAddress.set [a; b; c; d] 4 bits with Ok x => x | Undef _ => [] end.

Lemma inet_order_witness : InetAddress.ltb (inet4 10 0 0 1 24) (inet4 10 0 0 3 24) = true.
Proof.
  destruct (inet_order (inet4 10 0 0 1 24) (inet4 10 0 0 2 24) (inet4 10 0 0 3 24))
    as (_ & Ht & _); [reflexivity..|].
  apply Ht; vm_compute; reflexivity.
Defined.

(** ** Networks *)

Lemma length_set_fld off d a :
  (off + length d ≤ length a)%nat → length (InetAddress.set_fld off d a) = length a.
Proof. intros H. unfold InetAddress.set_fld. rewrite !length_app, length_take, length_drop. lia. Qed.

Lemma fld_set_same off d a n :
  (off + length d ≤ length a)%nat → n = length d →
  InetAddress.fld off n (InetAddress.set_fld off d a) = d.
Proof.
  intros H ->. unfold InetAddress.fld, InetAddress.set_fld.
  rewrite drop_app_length' by (rewrite length_take; lia). by rewrite take_app_length.
Qed.

(** Members below the one that is assigned. *)
Lemma fld_set_below off d a off' n :
  (off + length d ≤ length a)%nat → (off' + n ≤ off)%nat →
  InetAddress.fld off' n (InetAddress.set_fld off d a) = InetAddress.fld off' n a.
Proof.
  intros H Hn. unfold InetAddress.fld, InetAddress.set_fld.
  rewrite drop_app_le by (rewrite length_take; lia).
  rewrite take_app_le by (rewrite length_drop, length_take; lia).
  rewrite skipn_firstn_comm, take_take. f_equal. lia.
Qed.

Lemma fld_ok off n a : bytes_ok a → bytes_ok (InetAddress.fld off n a).
Proof. intros H. unfold InetAddress.fld, bytes_ok in *. by apply Forall_take, Forall_drop. Qed.

Lemma length_fld off n a : (off + n ≤ length a)%nat → length (InetAddress.fld off n a) = n.
Proof. intros H. unfold InetAddress.fld. rewrite length_take, length_drop. lia. Qed.

Lemma le_bytes_hton n z : le_bytes n (hton n z) = be_bytes n z.
Proof.
  unfold hton, be_val. rewrite <- (length_be_bytes n z) at 1.
  unfold be_bytes. apply le_bytes_val. apply be_bytes_ok.
Qed.

Lemma ntoh_le_val n l : bytes_ok l → length l = n → ntoh n (le_val l) = be_val l.
Proof. intros Hl <-. unfold ntoh, hton. by rewrite le_bytes_val. Qed.

(** A word kept in network order, masked by one given in host order. *)
Lemma le_bytes_land_hton n l m :
  bytes_ok l → length l = n →
  le_bytes n (Z.land (le_val l) (hton n m)) = zip_with Z.land l (be_bytes n m).
Proof. intros Hl <-. by rewrite le_bytes_land, le_bytes_val, le_bytes_hton. Qed.

Lemma be_val_land a b :
  bytes_ok a → bytes_ok b → length a = length b →
  be_val (zip_with Z.land a b) = Z.land (be_val a) (be_val b).
Proof.
  intros Ha Hb Hl. unfold be_val.
  assert (rev (zip_with Z.land a b) = zip_with Z.land (rev a) (rev b)) as ->.
  { clear Ha Hb. revert b Hl. induction a as [|x a IH]; intros [|y b] Hl; try done.
    simpl in *. rewrite IH, (zip_with_app _ (rev a) [x]) by (rewrite ?length_rev; lia). done. }
  assert (bytes_ok (rev a) ∧ bytes_ok (rev b)) as [Ha' Hb']
    by (split; unfold bytes_ok in *; by apply Forall_rev).
  rewrite <- (le_bytes_val (rev a)), <- (le_bytes_val (rev b)) at 1 by done.
  rewrite !length_rev, <- Hl, <- le_bytes_land, le_val_bytes.
  rewrite <- (length_rev a), <- Z.pow_mul_r with (a := 2) (b := 8) by lia.
  apply land_mod_pow2; [lia|]. rewrite Z.pow_mul_r by lia. by apply le_val_bound.
Qed.

(** An object of the type, and one that carries a proper prefix length. *)
Definition inet_ok (x : bytes) : Prop := length x = InetAddress.SIZE ∧ bytes_ok x.

Definition proper_prefix (x : bytes) : Prop :=
  InetAddress.isV4 x = true ∧ 1 <= InetAddress.netmaskBits x <= 31 ∨
  InetAddress.isV6 x = true ∧ 1 <= InetAddress.netmaskBits x <= 127.

(** The facts about the netmasks, checked for each prefix length. *)
Definition mask4_ok (bits : Z) : bool :=
  match InetAddress.mask4 bits, shr 32 0xffffffff bits with
  | Ok m, Ok h => (0 <=? m) && (m <? 2 ^ 32) && (Z.land m h =? 0) && (h =? Z.ones (32 - bits)) &&
                  (Z.shiftr m (32 - bits) =? Z.ones bits)
  | _, _ => false
  end.

Definition mask6_ok (bits : Z) : bool :=
  match InetAddress.mask6_hi bits, InetAddress.mask6_lo bits with
  | Ok hi, Ok lo =>
      let m := be_bytes 8 hi ++ be_bytes 8 lo in
      let p := Z.to_nat (bits / 8) in
      (p <? 16)%nat && (Z.land (nth p m 0) (Z.shiftr 0xff (bits mod 8)) =? 0) &&
      forallb (λ b, b =? 0) (drop (S p) m)
  | _, _ => false
  end.

Lemma mask4_facts bits :
  1 <= bits <= 31 → ∃ m h, InetAddress.mask4 bits = Ok m ∧ shr 32 0xffffffff bits = Ok h ∧
    0 <= m < 2 ^ 32 ∧ Z.land m h = 0 ∧ Z.shiftr m (32 - bits) = Z.ones bits.
Proof.
  intros Hb. assert (forallb mask4_ok (seqZ 1 31) = true) as Hall by (vm_compute; reflexivity).
  rewrite forallb_forall in Hall. specialize (Hall bits).
  rewrite <- list_elem_of_In, elem_of_seqZ in Hall. specialize (Hall ltac:(lia)).
  unfold mask4_ok in Hall. destruct (InetAddress.mask4 bits) as [m|]; [|done].
  destruct (shr _ _ _) as [h|]; [|done]. bool_hyps. exists m, h. auto with lia.
Qed.

Lemma mask6_facts bits :
  1 <= bits <= 127 → ∃ hi lo, InetAddress.mask6_hi bits = Ok hi ∧ InetAddress.mask6_lo bits = Ok lo ∧
    let m := be_bytes 8 hi ++ be_bytes 8 lo in
    let p := Z.to_nat (bits / 8) in
    (p < 16)%nat ∧ Z.land (nth p m 0) (Z.shiftr 0xff (bits mod 8)) = 0 ∧
    forallb (λ b, b =? 0) (drop (S p) m) = true.
Proof.
  intros Hb. assert (forallb mask6_ok (seqZ 1 127) = true) as Hall by (vm_compute; reflexivity).
  rewrite forallb_forall in Hall. specialize (Hall bits).
  rewrite <- list_elem_of_In, elem_of_seqZ in Hall. specialize (Hall ltac:(lia)).
  unfold mask6_ok in Hall. destruct (InetAddress.mask6_hi bits) as [hi|]; [|done].
  destruct (InetAddress.mask6_lo bits) as [lo|]; [|done]. cbv zeta in Hall.
  rewrite !andb_true_iff in Hall. destruct Hall as [[H1 H2] H3].
  exists hi, lo. apply Nat.ltb_lt in H1. apply Z.eqb_eq in H2. auto.
Qed.

(** Assigning the address leaves the family and the port alone. *)
Lemma set_ip_frame off d x :
  length x = InetAddress.SIZE → (4 ≤ off)%nat → (off + length d ≤ 128)%nat →
  let n := InetAddress.set_fld off d x in
  InetAddress.ss_family n = InetAddress.ss_family x ∧
  InetAddress.isV4 n = InetAddress.isV4 x ∧ InetAddress.isV6 n = InetAddress.isV6 x ∧
  InetAddress.netmaskBits n = InetAddress.netmaskBits x.
Proof.
  intros Hx Ho Hd n. unfold InetAddress.SIZE in Hx.
  assert (InetAddress.ss_family n = InetAddress.ss_family x) as Hf.
  { unfold InetAddress.ss_family, n. by rewrite fld_set_below by lia. }
  assert (InetAddress.sin_port n = InetAddress.sin_port x) as Hp.
  { unfold InetAddress.sin_port, n. by rewrite fld_set_below by lia. }
  unfold InetAddress.netmaskBits, InetAddress.port, InetAddress.isV4, InetAddress.isV6.
  by rewrite Hf, Hp.
Qed.

Lemma masked_eq_zip a m : InetAddress.masked_eq a m (zip_with Z.land a m) = true.
Proof.
  revert m; induction a as [|x a IH]; intros [|y m]; simpl; try done.
  rewrite Z.eqb_refl. simpl. apply IH.
Qed.

Lemma isNetwork4 x k :
  inet_ok x → InetAddress.isV4 x = true → 1 <= InetAddress.netmaskBits x <= 31 →
  shr 32 0xffffffff (InetAddress.netmaskBits x) = Ok k →
  InetAddress.isNetwork x = Ok (Z.land (be_val (InetAddress.fld 4 4 x)) k =? 0).
Proof.
  intros [Hl Ho] H4 Hb Hk. unfold InetAddress.isNetwork. rewrite H4.
  rewrite (proj2 (Z.leb_gt _ 0)), (proj2 (Z.leb_gt 32 _)), Hk by lia. unfold mbind, cres_bind.
  unfold InetAddress.s_addr. rewrite ntoh_le_val; [done|by apply fld_ok|].
  apply length_fld. unfold InetAddress.SIZE in Hl. lia.
Qed.

Lemma containsAddress4 x y :
  inet_ok x → inet_ok y → InetAddress.isV4 x = true →
  InetAddress.ss_family y = InetAddress.ss_family x → 1 <= InetAddress.netmaskBits x <= 31 →
  InetAddress.containsAddress x y =
    Ok (Z.shiftr (be_val (InetAddress.fld 4 4 y)) (32 - InetAddress.netmaskBits x) =?
        Z.shiftr (be_val (InetAddress.fld 4 4 x)) (32 - InetAddress.netmaskBits x)).
Proof.
  intros [Hlx Hox] [Hly Hoy] H4 Hf Hb. unfold InetAddress.containsAddress.
  rewrite Hf, Z.eqb_refl, H4, (proj2 (Z.eqb_neq _ 0)) by lia.
  unfold InetAddress.s_addr, InetAddress.SIZE in *.
  rewrite !ntoh_le_val by (by apply fld_ok || (apply length_fld; lia)).
  unfold wrap. rewrite Z.mod_small by lia. unfold shr.
  rewrite (proj2 (Z.leb_le _ _)), (proj2 (Z.ltb_lt _ _)) by lia. done.
Qed.

Lemma zip_land_ok a b : bytes_ok a → bytes_ok b → bytes_ok (zip_with Z.land a b).
Proof.
  intros Ha. revert b. induction Ha as [|x a Hx Ha IH]; intros [|y b] Hb; simpl; try constructor.
  - inversion Hb; subst. unfold byte_ok in *. split; [apply Z.land_nonneg; lia|].
    change 256 with (2 ^ 8) in *. rewrite <- (land_mod_pow2 x y 8) by lia.
    by apply Z.mod_pos_bound.
  - apply IH. by inversion Hb.
Qed.

Lemma set_fld_ok off d x :
  inet_ok x → bytes_ok d → (off + length d ≤ 128)%nat → inet_ok (InetAddress.set_fld off d x).
Proof.
  intros [Hl Ho] Hd H. split; [rewrite length_set_fld; unfold InetAddress.SIZE in *; lia|].
  unfold InetAddress.set_fld, bytes_ok in *. rewrite !Forall_app. auto using Forall_take, Forall_drop.
Qed.

Lemma network4 x :
  inet_ok x → InetAddress.isV4 x = true → 1 <= InetAddress.netmaskBits x <= 31 →
  ∃ n, InetAddress.network x = Ok n ∧ InetAddress.isNetwork n = Ok true ∧
    InetAddress.containsAddress n x = Ok true.
Proof.
  intros Hx H4 Hb. destruct (mask4_facts _ Hb) as (m & h & Hm & Hh & Hr & Hmh & Hsh).
  pose proof Hx as [Hl Ho].
  assert (length (InetAddress.fld 4 4 x) = 4%nat) as Hf4
    by (apply length_fld; unfold InetAddress.SIZE in Hl; lia).
  set (d := zip_with Z.land (InetAddress.fld 4 4 x) (be_bytes 4 m)).
  assert (length d = 4%nat) as Hd by (unfold d; rewrite length_zip_with, length_be_bytes; lia).
  assert (be_val d = Z.land (be_val (InetAddress.fld 4 4 x)) m) as Hv.
  { unfold d. rewrite be_val_land; [|by apply fld_ok|apply be_bytes_ok|by rewrite length_be_bytes].
    rewrite be_val_bytes. by rewrite (Z.mod_small m). }
  set (n := InetAddress.set_fld 4 d x).
  assert (inet_ok n) as Hn.
  { apply set_fld_ok; [done| |lia]. apply zip_land_ok; [by apply fld_ok|apply be_bytes_ok]. }
  destruct (set_ip_frame 4 d x Hl) as (Hfam & Hn4 & _ & Hbits); [lia..|]. fold n in Hfam, Hn4, Hbits.
  assert (InetAddress.fld 4 4 n = d) as Hfn
    by (apply fld_set_same; unfold InetAddress.SIZE in Hl; lia).
  exists n. split; [|split].
  - unfold InetAddress.network. rewrite H4, Hm. unfold mbind, cres_bind, InetAddress.s_addr.
    rewrite le_bytes_land_hton by (done || by apply fld_ok). done.
  - rewrite (isNetwork4 n h), Hfn, Hv by (rewrite ?Hn4, ?Hbits; done).
    by rewrite <- Z.land_assoc, Hmh, Z.land_0_r.
  - rewrite containsAddress4 by (rewrite ?Hn4, ?Hbits, ?Hfam; done).
    rewrite Hfn, Hv, Hbits, Z.shiftr_land, Hsh. do 2 f_equal.
    rewrite Z.eqb_eq, Z.land_ones, Z.mod_small; [done| |lia].
    pose proof (be_val_bound (InetAddress.fld 4 4 x) (fld_ok 4 4 x Ho)) as Hip.
    unfold zlen in Hip. rewrite Hf4 in Hip. change (256 ^ Z.of_nat 4) with (2 ^ 32) in Hip.
    rewrite Z.shiftr_div_pow2 by lia.
    split; [apply Z.div_pos; lia|]. apply Z.div_lt_upper_bound; [lia|].
    rewrite <- Z.pow_add_r by lia. replace (32 - InetAddress.netmaskBits x + InetAddress.netmaskBits x) with 32 by lia. lia.
Qed.

Lemma zip_land_zero a m : forallb (λ b, b =? 0) m = true → length a = length m →
  forallb (λ b, b =? 0) (zip_with Z.land a m) = true.
Proof.
  revert a; induction m as [|y m IH]; intros [|x a] Hm Hl; simpl in *; try done.
  apply andb_prop in Hm as [->%Z.eqb_eq Hm]. rewrite Z.land_0_r, Z.eqb_refl. simpl.
  apply IH; [done|lia].
Qed.

Lemma drop_zip_land n a m :
  drop n (zip_with Z.land a m) = zip_with Z.land (drop n a) (drop n m).
Proof.
  revert a m; induction n as [|n IH]; intros [|x a] [|y m]; simpl; try done.
  by destruct (drop n a).
Qed.

Lemma nth_zip_land p a m : length a = length m →
  nth p (zip_with Z.land a m) 0 = Z.land (nth p a 0) (nth p m 0).
Proof.
  revert p m; induction a as [|x a IH]; intros [|p] [|y m] Hl; simpl in *; try done.
  apply IH. lia.
Qed.

Lemma network6 x :
  inet_ok x → InetAddress.isV6 x = true → 1 <= InetAddress.netmaskBits x <= 127 →
  ∃ n, InetAddress.network x = Ok n ∧ InetAddress.isNetwork n = Ok true ∧
    InetAddress.containsAddress n x = Ok true.
Proof.
  intros Hx H6 Hb. pose proof Hx as [Hl Ho].
  destruct (mask6_facts _ Hb) as (hi & lo & Hhi & Hlo & Hp & Hz & Hzs).
  set (m := be_bytes 8 hi ++ be_bytes 8 lo) in *.
  assert (InetAddress.isV4 x = false) as H4.
  { unfold InetAddress.isV4, InetAddress.isV6 in *. apply Z.eqb_eq in H6. by rewrite H6. }
  set (a := InetAddress.s6_addr x).
  assert (length a = 16%nat) as Ha by (apply length_fld; unfold InetAddress.SIZE in Hl; lia).
  assert (bytes_ok a) as Hao by (by apply fld_ok).
  assert (length m = 16%nat) as Hm by (unfold m; by rewrite length_app, !length_be_bytes).
  set (d := zip_with Z.land a m).
  assert (length d = 16%nat) as Hd by (unfold d; rewrite length_zip_with; lia).
  set (n := InetAddress.set_fld 8 d x).
  destruct (set_ip_frame 8 d x Hl) as (Hfam & Hn4 & Hn6 & Hbits); [lia..|].
  fold n in Hfam, Hn4, Hn6, Hbits.
  assert (InetAddress.s6_addr n = d) as Hfn
    by (apply fld_set_same; unfold InetAddress.SIZE in Hl; lia).
  exists n. split; [|split].
  - unfold InetAddress.network. rewrite H4, H6, Hhi, Hlo. unfold mbind, cres_bind. fold a.
    assert (bytes_ok (take 8 a) ∧ bytes_ok (drop 8 a)) as [Ht Hdr]
      by (split; unfold bytes_ok in *; [by apply Forall_take|by apply Forall_drop]).
    rewrite !le_bytes_land_hton by (done || (rewrite ?length_take, ?length_drop, Ha; done)).
    rewrite <- zip_with_app by (by rewrite length_take, length_be_bytes, Ha).
    by rewrite take_drop.
  - unfold InetAddress.isNetwork. rewrite Hn4, Hn6, Hbits, H4, H6.
    rewrite (proj2 (Z.leb_gt _ 0)), (proj2 (Z.leb_gt 128 _)) by lia. rewrite Hfn. unfold d.
    rewrite nth_zip_land by lia. rewrite <- Z.land_assoc, Hz, Z.land_0_r. simpl negb. cbv iota.
    f_equal. rewrite drop_zip_land.
    apply zip_land_zero; [done|]. rewrite !length_drop. lia.
  - unfold InetAddress.containsAddress, InetAddress.netmask.
    rewrite Hfam, Z.eqb_refl, Hn4, Hn6, Hbits, H4, H6, (proj2 (Z.eqb_neq _ 0)) by lia.
    cbv iota. simpl negb. cbv iota. rewrite Hhi, Hlo. unfold mbind, cres_bind. fold a.
    rewrite Hfn, !le_bytes_hton. fold m.
    assert (InetAddress.s6_addr (InetAddress.set_fld 8 m n) = m) as ->.
    { apply fld_set_same; [|done]. unfold n. rewrite length_set_fld; unfold InetAddress.SIZE in Hl; lia. }
    unfold d. by rewrite masked_eq_zip.
Qed.

(** [network] gives the network of an address.  For every IPv4 address with a prefix of
    1 to 31 bits and every IPv6 address with one of 1 to 127 bits, the result is
    defined, [isNetwork] accepts it and it contains the address. *)
Theorem inet_network x :
  inet_ok x → proper_prefix x →
  ∃ n, InetAddress.network x = Ok n ∧ InetAddress.isNetwork n = Ok true ∧
    InetAddress.containsAddress n x = Ok true.
Proof. intros Hx [[H4 Hb]|[H6 Hb]]; [by apply network4|by apply network6]. Qed.

Lemma inet4_ok a b c d bits : bytes_ok [a; b; c; d] → inet_ok (inet4 a b c d bits).
Proof.
  intros Hb. unfold inet4, InetAddress.set. change (4 =? 4) with true. cbv iota.
  change (mem_read 0 4 [a; b; c; d]) with (Ok [a; b; c; d]). unfold mbind, cres_bind.
  apply set_fld_ok; [|apply le_bytes_ok|rewrite length_le_bytes; lia].
  apply set_fld_ok; [|done|simpl; lia].
  apply set_fld_ok; [|apply le_bytes_ok|rewrite length_le_bytes; lia].
  split; [done|]. unfold InetAddress.zero. apply Forall_replicate. unfold byte_ok; lia.
Qed.

Lemma inet_network_witness :
  ∃ n, InetAddress.network (inet4 10 1 2 3 24) = Ok n ∧ InetAddress.isNetwork n = Ok true ∧
    n = inet4 10 1 2 0 24.
Proof.
  destruct (inet_network (inet4 10 1 2 3 24)) as (n & Hn & Hnet & _).
  - apply inet4_ok. repeat constructor; lia.
  - left. vm_compute. split; [reflexivity|split; discriminate].
  - exists n. split; [exact Hn|]. split; [exact Hnet|].
    vm_compute in Hn. injection Hn as <-. vm_compute. reflexivity.
Defined.

(** ** The two families differ *)

Definition inet6 (ip : bytes) (bits : Z) : bytes :=
  match InetAddress.set ip 16 bits with Ok x => x | Undef _ => [] end.

(** An interface address contains itself in IPv4 only.  For a prefix of 1 to 31
    bits an IPv4 address always contains itself, but an IPv6 address does so only
    if all its host bits are zero: the IPv6 branch masks the other address and
    compares the result with its own unmasked bytes. *)
Theorem containsAddress_self x m :
  inet_ok x →
  (InetAddress.isV4 x = true → 1 <= InetAddress.netmaskBits x <= 31 →
   InetAddress.containsAddress x x = Ok true) ∧
  (InetAddress.isV6 x = true → InetAddress.netmask x = Ok m →
   InetAddress.containsAddress x x = Ok true ↔
   zip_with Z.land (InetAddress.s6_addr x) (InetAddress.s6_addr m) = InetAddress.s6_addr x).
Proof.
  intros Hx. split.
  - intros H4 Hb. rewrite containsAddress4 by done. by rewrite Z.eqb_refl.
  - intros H6 Hm. unfold InetAddress.containsAddress. rewrite Z.eqb_refl.
    assert (InetAddress.isV4 x = false) as ->.
    { unfold InetAddress.isV4, InetAddress.isV6 in *. apply Z.eqb_eq in H6. by rewrite H6. }
    rewrite H6, Hm. unfold mbind, cres_bind.
    assert (length (InetAddress.s6_addr x) = length (InetAddress.s6_addr m)) as Hl.
    { pose proof Hx as [Hlx _]. unfold InetAddress.SIZE in Hlx.
      assert (length m = length x) as Hlm.
      { revert Hm. unfold InetAddress.netmask. rewrite H6.
        destruct (InetAddress.isV4 x); [|destruct (negb _)]; unfold mbind, cres_bind;
          repeat case_match; intros [= <-]; rewrite ?length_set_fld;
          rewrite ?length_app, ?length_le_bytes; done || (simpl length; lia). }
      unfold InetAddress.s6_addr. rewrite !length_fld; lia. }
    revert Hl. generalize (InetAddress.s6_addr x) (InetAddress.s6_addr m). clear.
    induction l as [|b l IH]; intros [|y k] Hl; simpl in *; try done.
    specialize (IH k ltac:(lia)). destruct (Z.land b y =? b) eqn:E; simpl.
    + rewrite IH. apply Z.eqb_eq in E. rewrite E. split; [by intros ->|by intros [= ->]].
    + apply Z.eqb_neq in E. split; [done|by intros [= ??]].
Qed.

Lemma containsAddress_self_witness :
  InetAddress.containsAddress (inet4 10 1 2 3 24) (inet4 10 1 2 3 24) = Ok true ∧
  InetAddress.containsAddress (InetAddress.makeIpv6rfc4193 1 2) (InetAddress.makeIpv6rfc4193 1 2)
    = Ok false.
Proof.
  split; [|vm_compute; reflexivity].
  destruct (containsAddress_self (inet4 10 1 2 3 24) []) as [H4 _].
  - apply inet4_ok. repeat constructor; lia.
  - apply H4; [vm_compute; reflexivity|vm_compute; split; discriminate].
Defined.
