(* ===== verification/Conn.v ===== *)
(** * Connections and their table (src/tap.hpp, src/tap.cpp)

    The state of [NetconEthernetTap]: the [Connection] objects, the table that
    finds them by socket, the jobs that wait for their token, the addresses and
    the multicast groups; and closing a connection, which every part of the service
    can cause.

    Two C++ details shape the state.  [Connection] objects are on the heap and are
    named by address (0 is the null pointer); using one after [delete] is
    [DeadObject].  A pending job points to [tmpbuf], an array in the stack frame of
    the [phyOnUnixData] activation that stored it; [t_tmpbuf] is the memory that
    array occupies in every activation. *)

From S2P Require Import Prelude Svc Phy Rpc Addr.
From stdpp Require Import base numbers list gmap sets option.

Open Scope Z_scope.

(** ** Data *)

Definition SDK_MTU : Z := 1200.
Definition ZT_MAX_MTU : Z := 2800.
Definition DEFAULT_TCP_TX_BUF_SZ : Z := 1048576.
Definition DEFAULT_TCP_RX_BUF_SZ : Z := 1048576.
Definition DEFAULT_UDP_TX_BUF_SZ : Z := ZT_MAX_MTU.
Definition DEFAULT_UDP_RX_BUF_SZ : Z := ZT_MAX_MTU * 10.

#[global] Arguments DEFAULT_TCP_TX_BUF_SZ : simpl never.
#[global] Arguments DEFAULT_TCP_RX_BUF_SZ : simpl never.
#[global] Arguments memset : simpl never.

Definition EBADF : Z := 9.
Definition ENOMEM : Z := 12.
Definition EINVAL : Z := 22.
Definition EADDRINUSE : Z := 98.
Definition ENETUNREACH : Z := 101.
Definition ENOBUFS : Z := 105.
Definition EISCONN : Z := 106.
Definition ETIMEDOUT : Z := 110.
Definition ECONNREFUSED : Z := 111.
Definition ENXIO : Z := 6.

(** The two address members are pointers; only their values are kept. *)
Record Connection := Conn {
  c_listening : bool;
  c_probation : bool;
  c_disabled : bool;
  c_pid : Z;
  c_txsz : Z;
  c_rxsz : Z;
  c_type : Z;
  c_rpcSock : Z;
  c_sock : Z;
  c_TCP_pcb : Z;
  c_UDP_pcb : Z;
  c_local_addr : Z;
  c_peer_addr : Z;
  c_port : Z;
  c_txbuf : bytes;
  c_rxbuf : bytes;
  c_proxy_conn_state : Z;
  c_picosock : Z
}.

(** [new Connection()] zero-initialises the object. *)
Definition Connection0 : Connection :=
  Conn false false false 0 0 0 0 0 0 0 0 0 0 0 (memset DEFAULT_TCP_TX_BUF_SZ 0) (memset DEFAULT_TCP_RX_BUF_SZ 0) 0 0.

Definition set_listening (x : bool) (c : Connection) : Connection :=
  Conn x (c_probation c) (c_disabled c) (c_pid c) (c_txsz c) (c_rxsz c) (c_type c) (c_rpcSock c)
    (c_sock c) (c_TCP_pcb c) (c_UDP_pcb c) (c_local_addr c) (c_peer_addr c) (c_port c) (c_txbuf
    c) (c_rxbuf c) (c_proxy_conn_state c) (c_picosock c).
Definition set_probation (x : bool) (c : Connection) : Connection :=
  Conn (c_listening c) x (c_disabled c) (c_pid c) (c_txsz c) (c_rxsz c) (c_type c) (c_rpcSock c)
    (c_sock c) (c_TCP_pcb c) (c_UDP_pcb c) (c_local_addr c) (c_peer_addr c) (c_port c) (c_txbuf
    c) (c_rxbuf c) (c_proxy_conn_state c) (c_picosock c).
Definition set_pid (x : Z) (c : Connection) : Connection :=
  Conn (c_listening c) (c_probation c) (c_disabled c) x (c_txsz c) (c_rxsz c) (c_type c)
    (c_rpcSock c) (c_sock c) (c_TCP_pcb c) (c_UDP_pcb c) (c_local_addr c) (c_peer_addr c)
    (c_port c) (c_txbuf c) (c_rxbuf c) (c_proxy_conn_state c) (c_picosock c).
Definition set_txsz (x : Z) (c : Connection) : Connection :=
  Conn (c_listening c) (c_probation c) (c_disabled c) (c_pid c) x (c_rxsz c) (c_type c)
    (c_rpcSock c) (c_sock c) (c_TCP_pcb c) (c_UDP_pcb c) (c_local_addr c) (c_peer_addr c)
    (c_port c) (c_txbuf c) (c_rxbuf c) (c_proxy_conn_state c) (c_picosock c).
Definition set_rxsz (x : Z) (c : Connection) : Connection :=
  Conn (c_listening c) (c_probation c) (c_disabled c) (c_pid c) (c_txsz c) x (c_type c)
    (c_rpcSock c) (c_sock c) (c_TCP_pcb c) (c_UDP_pcb c) (c_local_addr c) (c_peer_addr c)
    (c_port c) (c_txbuf c) (c_rxbuf c) (c_proxy_conn_state c) (c_picosock c).
Definition set_conn_type (x : Z) (c : Connection) : Connection :=
  Conn (c_listening c) (c_probation c) (c_disabled c) (c_pid c) (c_txsz c) (c_rxsz c) x
    (c_rpcSock c) (c_sock c) (c_TCP_pcb c) (c_UDP_pcb c) (c_local_addr c) (c_peer_addr c)
    (c_port c) (c_txbuf c) (c_rxbuf c) (c_proxy_conn_state c) (c_picosock c).
Definition set_rpcSock (x : Z) (c : Connection) : Connection :=
  Conn (c_listening c) (c_probation c) (c_disabled c) (c_pid c) (c_txsz c) (c_rxsz c) (c_type c)
    x (c_sock c) (c_TCP_pcb c) (c_UDP_pcb c) (c_local_addr c) (c_peer_addr c) (c_port c)
    (c_txbuf c) (c_rxbuf c) (c_proxy_conn_state c) (c_picosock c).
Definition set_sock (x : Z) (c : Connection) : Connection :=
  Conn (c_listening c) (c_probation c) (c_disabled c) (c_pid c) (c_txsz c) (c_rxsz c) (c_type c)
    (c_rpcSock c) x (c_TCP_pcb c) (c_UDP_pcb c) (c_local_addr c) (c_peer_addr c) (c_port c)
    (c_txbuf c) (c_rxbuf c) (c_proxy_conn_state c) (c_picosock c).
Definition set_TCP_pcb (x : Z) (c : Connection) : Connection :=
  Conn (c_listening c) (c_probation c) (c_disabled c) (c_pid c) (c_txsz c) (c_rxsz c) (c_type c)
    (c_rpcSock c) (c_sock c) x (c_UDP_pcb c) (c_local_addr c) (c_peer_addr c) (c_port c)
    (c_txbuf c) (c_rxbuf c) (c_proxy_conn_state c) (c_picosock c).
Definition set_UDP_pcb (x : Z) (c : Connection) : Connection :=
  Conn (c_listening c) (c_probation c) (c_disabled c) (c_pid c) (c_txsz c) (c_rxsz c) (c_type c)
    (c_rpcSock c) (c_sock c) (c_TCP_pcb c) x (c_local_addr c) (c_peer_addr c) (c_port c)
    (c_txbuf c) (c_rxbuf c) (c_proxy_conn_state c) (c_picosock c).
Definition set_local_addr (x : Z) (c : Connection) : Connection :=
  Conn (c_listening c) (c_probation c) (c_disabled c) (c_pid c) (c_txsz c) (c_rxsz c) (c_type c)
    (c_rpcSock c) (c_sock c) (c_TCP_pcb c) (c_UDP_pcb c) x (c_peer_addr c) (c_port c) (c_txbuf
    c) (c_rxbuf c) (c_proxy_conn_state c) (c_picosock c).
Definition set_peer_addr (x : Z) (c : Connection) : Connection :=
  Conn (c_listening c) (c_probation c) (c_disabled c) (c_pid c) (c_txsz c) (c_rxsz c) (c_type c)
    (c_rpcSock c) (c_sock c) (c_TCP_pcb c) (c_UDP_pcb c) (c_local_addr c) x (c_port c) (c_txbuf
    c) (c_rxbuf c) (c_proxy_conn_state c) (c_picosock c).
Definition set_port (x : Z) (c : Connection) : Connection :=
  Conn (c_listening c) (c_probation c) (c_disabled c) (c_pid c) (c_txsz c) (c_rxsz c) (c_type c)
    (c_rpcSock c) (c_sock c) (c_TCP_pcb c) (c_UDP_pcb c) (c_local_addr c) (c_peer_addr c) x
    (c_txbuf c) (c_rxbuf c) (c_proxy_conn_state c) (c_picosock c).
Definition set_txbuf (x : bytes) (c : Connection) : Connection :=
  Conn (c_listening c) (c_probation c) (c_disabled c) (c_pid c) (c_txsz c) (c_rxsz c) (c_type c)
    (c_rpcSock c) (c_sock c) (c_TCP_pcb c) (c_UDP_pcb c) (c_local_addr c) (c_peer_addr c)
    (c_port c) x (c_rxbuf c) (c_proxy_conn_state c) (c_picosock c).
Definition set_rxbuf (x : bytes) (c : Connection) : Connection :=
  Conn (c_listening c) (c_probation c) (c_disabled c) (c_pid c) (c_txsz c) (c_rxsz c) (c_type c)
    (c_rpcSock c) (c_sock c) (c_TCP_pcb c) (c_UDP_pcb c) (c_local_addr c) (c_peer_addr c)
    (c_port c) (c_txbuf c) x (c_proxy_conn_state c) (c_picosock c).
Definition set_proxy_conn_state (x : Z) (c : Connection) : Connection :=
  Conn (c_listening c) (c_probation c) (c_disabled c) (c_pid c) (c_txsz c) (c_rxsz c) (c_type c)
    (c_rpcSock c) (c_sock c) (c_TCP_pcb c) (c_UDP_pcb c) (c_local_addr c) (c_peer_addr c)
    (c_port c) (c_txbuf c) (c_rxbuf c) x (c_picosock c).
Definition set_picosock (x : Z) (c : Connection) : Connection :=
  Conn (c_listening c) (c_probation c) (c_disabled c) (c_pid c) (c_txsz c) (c_rxsz c) (c_type c)
    (c_rpcSock c) (c_sock c) (c_TCP_pcb c) (c_UDP_pcb c) (c_local_addr c) (c_peer_addr c)
    (c_port c) (c_txbuf c) (c_rxbuf c) (c_proxy_conn_state c) x.

(** The service.  [_Connections] is [t_conns], a vector of pointers into [t_heap];
    [t_next] is the address of the next object.  [jobmap] maps a token to the RPC
    socket of the command (0 in an entry that [operator[]] made up); the second
    half of the pair, the pointer to the command, always points to [tmpbuf].
    [t_drv] is what the driver adds. *)
Record tap (D : Type) := Tap {
  t_conns : list Z;
  t_heap : gmap Z Connection;
  t_next : Z;
  t_jobmap : gmap Z Z;
  t_tmpbuf : bytes;
  t_ips : list bytes;
  t_multicastGroups : list MulticastGroup.t;
  t_mac : Z;
  t_mtu : Z;
  t_nwid : Z;
  t_enabled : bool;
  t_run : bool;
  t_sockstate : Z;
  t_proxyServerAddress : bytes;
  t_proxyListenPhySocket : Z;
  t_drv : D
}.
Arguments Tap {D} _ _ _ _ _ _ _ _ _ _ _ _ _ _ _ _.
Arguments t_conns {D} _.
Arguments t_heap {D} _.
Arguments t_next {D} _.
Arguments t_jobmap {D} _.
Arguments t_tmpbuf {D} _.
Arguments t_ips {D} _.
Arguments t_multicastGroups {D} _.
Arguments t_mac {D} _.
Arguments t_mtu {D} _.
Arguments t_nwid {D} _.
Arguments t_enabled {D} _.
Arguments t_run {D} _.
Arguments t_sockstate {D} _.
Arguments t_proxyServerAddress {D} _.
Arguments t_proxyListenPhySocket {D} _.
Arguments t_drv {D} _.

Definition set_conns {D} (x : list Z) (t : tap D) : tap D :=
  Tap x (t_heap t) (t_next t) (t_jobmap t) (t_tmpbuf t) (t_ips t) (t_multicastGroups t) (t_mac
    t) (t_mtu t) (t_nwid t) (t_enabled t) (t_run t) (t_sockstate t) (t_proxyServerAddress t)
    (t_proxyListenPhySocket t) (t_drv t).
Definition set_heap {D} (x : gmap Z Connection) (t : tap D) : tap D :=
  Tap (t_conns t) x (t_next t) (t_jobmap t) (t_tmpbuf t) (t_ips t) (t_multicastGroups t) (t_mac
    t) (t_mtu t) (t_nwid t) (t_enabled t) (t_run t) (t_sockstate t) (t_proxyServerAddress t)
    (t_proxyListenPhySocket t) (t_drv t).
Definition set_jobmap {D} (x : gmap Z Z) (t : tap D) : tap D :=
  Tap (t_conns t) (t_heap t) (t_next t) x (t_tmpbuf t) (t_ips t) (t_multicastGroups t) (t_mac t)
    (t_mtu t) (t_nwid t) (t_enabled t) (t_run t) (t_sockstate t) (t_proxyServerAddress t)
    (t_proxyListenPhySocket t) (t_drv t).
Definition set_tmpbuf {D} (x : bytes) (t : tap D) : tap D :=
  Tap (t_conns t) (t_heap t) (t_next t) (t_jobmap t) x (t_ips t) (t_multicastGroups t) (t_mac t)
    (t_mtu t) (t_nwid t) (t_enabled t) (t_run t) (t_sockstate t) (t_proxyServerAddress t)
    (t_proxyListenPhySocket t) (t_drv t).
Definition set_ips {D} (x : list bytes) (t : tap D) : tap D :=
  Tap (t_conns t) (t_heap t) (t_next t) (t_jobmap t) (t_tmpbuf t) x (t_multicastGroups t) (t_mac
    t) (t_mtu t) (t_nwid t) (t_enabled t) (t_run t) (t_sockstate t) (t_proxyServerAddress t)
    (t_proxyListenPhySocket t) (t_drv t).
Definition set_multicastGroups {D} (x : list MulticastGroup.t) (t : tap D) : tap D :=
  Tap (t_conns t) (t_heap t) (t_next t) (t_jobmap t) (t_tmpbuf t) (t_ips t) x (t_mac t) (t_mtu
    t) (t_nwid t) (t_enabled t) (t_run t) (t_sockstate t) (t_proxyServerAddress t)
    (t_proxyListenPhySocket t) (t_drv t).
Definition set_enabled {D} (x : bool) (t : tap D) : tap D :=
  Tap (t_conns t) (t_heap t) (t_next t) (t_jobmap t) (t_tmpbuf t) (t_ips t) (t_multicastGroups
    t) (t_mac t) (t_mtu t) (t_nwid t) x (t_run t) (t_sockstate t) (t_proxyServerAddress t)
    (t_proxyListenPhySocket t) (t_drv t).
Definition set_run {D} (x : bool) (t : tap D) : tap D :=
  Tap (t_conns t) (t_heap t) (t_next t) (t_jobmap t) (t_tmpbuf t) (t_ips t) (t_multicastGroups
    t) (t_mac t) (t_mtu t) (t_nwid t) (t_enabled t) x (t_sockstate t) (t_proxyServerAddress t)
    (t_proxyListenPhySocket t) (t_drv t).
Definition set_sockstate {D} (x : Z) (t : tap D) : tap D :=
  Tap (t_conns t) (t_heap t) (t_next t) (t_jobmap t) (t_tmpbuf t) (t_ips t) (t_multicastGroups
    t) (t_mac t) (t_mtu t) (t_nwid t) (t_enabled t) (t_run t) x (t_proxyServerAddress t)
    (t_proxyListenPhySocket t) (t_drv t).
Definition set_proxyServerAddress {D} (x : bytes) (t : tap D) : tap D :=
  Tap (t_conns t) (t_heap t) (t_next t) (t_jobmap t) (t_tmpbuf t) (t_ips t) (t_multicastGroups
    t) (t_mac t) (t_mtu t) (t_nwid t) (t_enabled t) (t_run t) (t_sockstate t) x
    (t_proxyListenPhySocket t) (t_drv t).
Definition set_proxyListenPhySocket {D} (x : Z) (t : tap D) : tap D :=
  Tap (t_conns t) (t_heap t) (t_next t) (t_jobmap t) (t_tmpbuf t) (t_ips t) (t_multicastGroups
    t) (t_mac t) (t_mtu t) (t_nwid t) (t_enabled t) (t_run t) (t_sockstate t)
    (t_proxyServerAddress t) x (t_drv t).
Definition set_drv {D} (x : D) (t : tap D) : tap D :=
  Tap (t_conns t) (t_heap t) (t_next t) (t_jobmap t) (t_tmpbuf t) (t_ips t) (t_multicastGroups
    t) (t_mac t) (t_mtu t) (t_nwid t) (t_enabled t) (t_run t) (t_sockstate t)
    (t_proxyServerAddress t) (t_proxyListenPhySocket t) x.

(** A freshly allocated object is added to the heap, not yet to the table. *)
Definition alloc {D} (c : Connection) (t : tap D) : tap D :=
  Tap (t_conns t) (<[t_next t := c]> (t_heap t)) (t_next t + 1) (t_jobmap t) (t_tmpbuf t) (t_ips
    t) (t_multicastGroups t) (t_mac t) (t_mtu t) (t_nwid t) (t_enabled t) (t_run t) (t_sockstate
    t) (t_proxyServerAddress t) (t_proxyListenPhySocket t) (t_drv t).

(** ** Operations *)

(** Sending the answer to a command: the [write] of [sendReturnValue]. *)
Definition sendReturnValue {env : Env} {X} (fd retval e : Z) : M X Z :=
  ask (ScWrite fd (retmsg retval e)).

Section table.
Context {env : Env} {D : Type}.

(** [*conn] *)
Definition deref_conn (a : Z) : M (tap D) Connection :=
  t ← get_app;
  match t_heap t !! a with
  | Some c => mret c
  | None => if a =? 0 then undef NullPointer else undef DeadObject
  end.

Definition upd_conn (a : Z) (f : Connection → Connection) : M (tap D) unit :=
  c ← deref_conn a;
  mod_app (λ t, set_heap (<[a := f c]> (t_heap t)) t).

(** [new Connection()] *)
Definition new_conn : M (tap D) Z :=
  t ← get_app; _ ← mod_app (alloc Connection0); mret (t_next t).

Definition push_conn (a : Z) : M (tap D) unit :=
  mod_app (λ t, set_conns (t_conns t ++ [a]) t).

(** The bytes the stack took are removed from the front of the transmit buffer; both
    drivers do this in the same way. *)
Definition tx_advance (conn r : Z) : M (tap D) unit :=
  c ← deref_conn conn;
  let sz := c_txsz c - r in
  _ ← when (negb (sz =? 0))
        (b ← lift (mem_copy 0 (c_txbuf c) r sz (c_txbuf c)); upd_conn conn (set_txbuf b));
  upd_conn conn (λ c, set_txsz (c_txsz c - r) c).

(** The loop of both [getConnection]s. *)
Fixpoint find_conn (p : Connection → bool) (h : gmap Z Connection) (l : list Z) : cres Z :=
  match l with
  | [] => Ok 0
  | a :: l' =>
      match h !! a with
      | None => Undef DeadObject
      | Some c => if p c then Ok a else find_conn p h l'
      end
  end.

Definition getConnection (sock : Z) : M (tap D) Z :=
  t ← get_app; lift (find_conn (λ c, c_sock c =? sock) (t_heap t) (t_conns t)).

Definition getConnection_pico (s : Z) : M (tap D) Z :=
  t ← get_app; lift (find_conn (λ c, c_picosock c =? s) (t_heap t) (t_conns t)).

(** Erasing the first pointer that is equal to [a]. *)
Fixpoint erase_first (a : Z) (l : list Z) : list Z :=
  match l with
  | [] => []
  | b :: l' => if b =? a then l' else b :: erase_first a l'
  end.

(** The loop that finds the pointer, erases it and deletes the object. *)
Definition delete_conn (a : Z) (t : tap D) : tap D :=
  if bool_decide (a ∈ t_conns t)
  then set_heap (delete a (t_heap t)) (set_conns (erase_first a (t_conns t)) t)
  else t.

(** What a driver does when a connection is closed: before the table is searched
    (picoTCP) and once the connection is known (lwIP). *)
Class CloseDriver := {
  drv_preClose : Z → M (tap D) unit;
  drv_handleClose : Z → Z → M (tap D) unit
}.

Context {CD : CloseDriver}.

(** [close(getDescriptor(sock)); _phy.close(sock, false)], the second without
    handlers. *)
Definition no_handler : phy_handler (tap D) :=
  PhyHandler (λ _ _ _ _, mret tt) (λ _ _, mret tt) (λ _ _ _, mret tt) (λ _, mret tt)
    (λ _ _ _, mret tt) (λ _ _, mret tt) (λ _, mret tt) (λ _ _ _, mret tt) (λ _ _, mret tt).

Definition closeConnection (sock : Z) : M (tap D) unit :=
  locked close_m (
    if sock =? 0 then mret tt
    else
      _ ← drv_preClose sock;
      conn ← getConnection sock;
      if conn =? 0 then mret tt
      else
        _ ← drv_handleClose sock conn;
        _ ← mod_app (delete_conn conn);
        fd ← getDescriptor sock;
        _ ← ask (ScClose fd);
        close no_handler sock false).

(** Called by the I/O loop when it has closed a Unix socket. *)
Definition tap_phyOnUnixClose (sock : Z) : M (tap D) unit :=
  locked tcpconns_m (mret tt).

(** proxy.cpp *)
Definition tap_phyOnTcpClose (sock : Z) : M (tap D) unit :=
  locked tcpconns_m (closeConnection sock).

Definition tap_phyOnTcpConnect (sock : Z) (success : bool) : M (tap D) unit := mret tt.

(** The handlers that closing a socket can call. *)
Definition close_handlers : phy_handler (tap D) :=
  PhyHandler (λ _ _ _ _, mret tt) tap_phyOnTcpConnect (λ _ _ _, mret tt) tap_phyOnTcpClose
    (λ _ _ _, mret tt) (λ _ _, mret tt) tap_phyOnUnixClose (λ _ _ _, mret tt) (λ _ _, mret tt).
End table.
Arguments CloseDriver : clear implicits.

(** ** Invariants of the service state

    [app_keeps I]: the operations of the I/O loop do not touch the service's own
    state, except through the handlers that closing a socket calls. *)

Definition on_app {X} (I : X → Prop) : svc (host X) → Prop := on_user (λ u, I (h_app u)).

Lemma keeps_lift_bind {S A B} (I : S → Prop) (r : cres A) (k : A → sm S B) :
  (∀ a, r = Ok a → keeps I (k a)) → keeps I (lift r ≫= k).
Proof. intros Hk s Hs. destruct r as [a|]; [|done]. by apply (Hk a). Qed.

Section app_keeps.
Context {env : Env} {X : Type} (I : X → Prop).

Lemma app_keeps_mod_app (f : X → X) : (∀ x, I x → I (f x)) → keeps (on_app I) (mod_app f).
Proof. intros Hf s Hs. by apply Hf. Qed.

Lemma app_keeps_mod_phy (f : phy → phy) : keeps (on_app I) (mod_phy f).
Proof. by intros s Hs. Qed.

Lemma app_keeps_get_phy : keeps (on_app I) get_phy.
Proof. by intros s Hs. Qed.

Lemma app_keeps_get_app_bind {B} (k : X → M X B) :
  (∀ x, I x → keeps (on_app I) (k x)) → keeps (on_app I) (get_app ≫= k).
Proof. intros Hk s Hs. by apply (Hk (h_app (s_user s)) Hs). Qed.

Lemma app_keeps_locked {A} m (body : M X A) : keeps (on_app I) body → keeps (on_app I) (locked m body).
Proof. apply keeps_locked. Qed.

Lemma app_keeps_deref sock : keeps (on_app I) (deref sock).
Proof. intros s Hs. by destruct (deref_cases sock s) as [(n & _ & ->)|(u & -> & _)]. Qed.
End app_keeps.

(** Walks through a handler.  Lemmas on whole operations are in [zt_keeps]; what is
    left are the tests of the code. *)
Create HintDb zt_keeps.

Ltac keeps_leaf :=
  first
    [ apply keeps_ret | apply keeps_undef | apply keeps_ask | apply keeps_lock | apply keeps_unlock
    | solve [eauto 4 with zt_keeps nocore] ].

Ltac keeps_node :=
  first
    [ apply app_keeps_locked | apply keeps_when | apply keeps_lift_bind
    | apply app_keeps_get_app_bind | apply keeps_bind | apply keeps_lift
    | match goal with
      | |- keeps _ (match ?x with _ => _ end) => destruct x eqn:?
      end ].

Ltac keeps_walk := repeat (intros; cbv zeta; first [ keeps_leaf | keeps_node ]).

#[export] Hint Resolve app_keeps_mod_phy app_keeps_get_phy app_keeps_deref : zt_keeps.

Section app_keeps_phy.
Context {env : Env} {X : Type} (I : X → Prop).

Lemma app_keeps_getDescriptor sock : keeps (on_app I) (getDescriptor sock).
Proof. unfold getDescriptor. keeps_walk. Qed.

Lemma app_keeps_wrapSocket fd uptr : keeps (on_app I) (wrapSocket (X:=X) fd uptr).
Proof. unfold wrapSocket, add_sock. keeps_walk. Qed.

Lemma app_keeps_setNotifyWritable sock b : keeps (on_app I) (setNotifyWritable (X:=X) sock b).
Proof. unfold setNotifyWritable. keeps_walk. Qed.

Lemma app_keeps_setNotifyReadable sock b : keeps (on_app I) (setNotifyReadable (X:=X) sock b).
Proof. unfold setNotifyReadable. keeps_walk. Qed.

Lemma app_keeps_whack : keeps (on_app I) (whack (X:=X)).
Proof. unfold whack. keeps_walk. Qed.

Lemma app_keeps_sendReturnValue fd v e : keeps (on_app I) (sendReturnValue (X:=X) fd v e).
Proof. apply keeps_ask. Qed.

(** The handlers that [close] calls keep [I]. *)
Class CloseKeeps (H : phy_handler X) : Prop := {
  ck_connect : ∀ a b, keeps (on_app I) (phyOnTcpConnect H a b);
  ck_tcp : ∀ a, keeps (on_app I) (phyOnTcpClose H a);
  ck_unix : ∀ a, keeps (on_app I) (phyOnUnixClose H a)
}.

Lemma app_keeps_close H sock b : CloseKeeps H → keeps (on_app I) (close H sock b).
Proof. intros [Hc Ht Hu]. unfold close. keeps_walk; auto. Qed.

Lemma app_keeps_streamSend H sock d b : CloseKeeps H → keeps (on_app I) (streamSend H sock d b).
Proof.
  intros HH. unfold streamSend, send_failed. keeps_walk. by apply app_keeps_close.
Qed.

(** The whole handler object. *)
Class HandlerKeeps (H : phy_handler X) : Prop := {
  hk_close :: CloseKeeps H;
  hk_datagram : ∀ a l f d, keeps (on_app I) (phyOnDatagram H a l f d);
  hk_accept : ∀ a b f, keeps (on_app I) (phyOnTcpAccept H a b f);
  hk_data : ∀ a d n, keeps (on_app I) (phyOnTcpData H a d n);
  hk_writable : ∀ a b, keeps (on_app I) (phyOnTcpWritable H a b);
  hk_unix_data : ∀ a d n, keeps (on_app I) (phyOnUnixData H a d n);
  hk_unix_writable : ∀ a b, keeps (on_app I) (phyOnUnixWritable H a b)
}.
#[local] Hint Resolve app_keeps_getDescriptor app_keeps_close hk_close hk_datagram hk_accept hk_data
  hk_writable hk_unix_data hk_unix_writable ck_connect : zt_keeps.

Lemma app_keeps_poll_udp H fuel a s : HandlerKeeps H → keeps (on_app I) (poll_udp H fuel a s).
Proof. intros HH. induction fuel as [|fuel IH]; simpl; keeps_walk; apply IH. Qed.
#[local] Hint Resolve app_keeps_poll_udp : zt_keeps.

Lemma app_keeps_poll_sock H fuel a rfds wfds :
  HandlerKeeps H → keeps (on_app I) (poll_sock H fuel a rfds wfds).
Proof.
  intros HH. unfold poll_sock, poll_tcp_pending, poll_tcp, poll_accept, poll_unix_in, poll_buf,
    add_sock, isset.
  keeps_walk.
Qed.

Lemma app_keeps_poll_loop H fuel i rfds wfds :
  HandlerKeeps H → keeps (on_app I) (poll_loop H fuel i rfds wfds).
Proof.
  intros HH. revert i. induction fuel as [|fuel IH]; simpl; keeps_walk;
    first [apply app_keeps_poll_sock; done | apply IH].
Qed.

Lemma app_keeps_poll H fuel timeout : HandlerKeeps H → keeps (on_app I) (poll H fuel timeout).
Proof. intros HH. unfold poll, isset. keeps_walk. intros. by apply app_keeps_poll_loop. Qed.
End app_keeps_phy.
#[export] Hint Resolve app_keeps_getDescriptor app_keeps_wrapSocket app_keeps_setNotifyWritable
  app_keeps_setNotifyReadable app_keeps_whack app_keeps_sendReturnValue app_keeps_close
  app_keeps_streamSend : zt_keeps.

(** ** The connection table

    [table_wf e]: the pointers of the table are distinct and point to live objects
    whose two buffers have their full size, and every live object is in the table,
    except the one that is being set up ([e]). *)

Definition conn_ok (c : Connection) : Prop :=
  zlen (c_txbuf c) = DEFAULT_TCP_TX_BUF_SZ ∧ zlen (c_rxbuf c) = DEFAULT_TCP_RX_BUF_SZ.

Record table_wf {D} (e : option Z) (t : tap D) : Prop := {
  tw_nodup : NoDup (t_conns t);
  tw_live : ∀ a, is_Some (t_heap t !! a) ↔ a ∈ t_conns t ∨ e = Some a;
  tw_new : ∀ a, e = Some a → a ∉ t_conns t;
  tw_addr : ∀ a, is_Some (t_heap t !! a) → 0 < a < t_next t;
  tw_next : 0 < t_next t;
  tw_ok : ∀ a c, t_heap t !! a = Some c → conn_ok c
}.

Lemma zlen_buf b : zlen (memset DEFAULT_TCP_TX_BUF_SZ b) = DEFAULT_TCP_TX_BUF_SZ.
Proof. apply zlen_memset. by unfold DEFAULT_TCP_TX_BUF_SZ. Qed.

Lemma Connection0_ok : conn_ok Connection0.
Proof. split; apply zlen_buf. Qed.

Lemma mem_copy_zlen doff dst soff n src b : mem_copy doff dst soff n src = Ok b → zlen b = zlen dst.
Proof.
  unfold mem_copy, mbind, cres_bind. destruct (mem_read _ _ _); [|done]. apply mem_write_zlen.
Qed.

(** A state that differs elsewhere. *)
Lemma table_wf_same {D} e (t t' : tap D) :
  t_conns t' = t_conns t → t_heap t' = t_heap t → t_next t' = t_next t →
  table_wf e t → table_wf e t'.
Proof. intros Hc Hh Hn []. by split; rewrite ?Hc, ?Hh, ?Hn. Qed.

Lemma table_wf_upd {D} e (t : tap D) a c c' :
  t_heap t !! a = Some c → conn_ok c' → table_wf e t →
  table_wf e (set_heap (<[a := c']> (t_heap t)) t).
Proof.
  intros Ha Hc [H1 H2 H3 H4 H5 H6].
  assert (∀ b, is_Some (<[a := c']> (t_heap t) !! b) ↔ is_Some (t_heap t !! b)) as Hs.
  { intros b. destruct (decide (a = b)) as [->|Hne].
    - rewrite lookup_insert_eq, Ha. split; intros _; by eexists.
    - by rewrite lookup_insert_ne. }
  split; try done; simpl.
  - intros b. by rewrite Hs.
  - intros b. rewrite Hs. apply H4.
  - intros b d Hb. apply lookup_insert_Some in Hb as [[_ <-]|[_ Hb]]; [done|by eapply H6].
Qed.

Lemma table_wf_alloc {D} (t : tap D) :
  table_wf None t → table_wf (Some (t_next t)) (alloc Connection0 t).
Proof.
  intros [H1 H2 _ H4 H5 H6].
  assert (t_next t ∉ t_conns t) as Hn.
  { intros Hin. destruct (H4 (t_next t)); [apply H2; by left|lia]. }
  split; simpl; [done|..].
  - intros a. destruct (decide (t_next t = a)) as [->|Hne].
    + rewrite lookup_insert_eq. split; [by right|by eexists].
    + rewrite lookup_insert_ne, H2 by done. naive_solver.
  - by intros a [= <-].
  - intros a. destruct (decide (t_next t = a)) as [<-|Hne]; [lia|].
    rewrite lookup_insert_ne by done. intros Ha. specialize (H4 a Ha). lia.
  - lia.
  - intros a c Ha. apply lookup_insert_Some in Ha as [[_ <-]|[_ Ha]]; [|by eapply H6].
    apply Connection0_ok.
Qed.

Lemma table_wf_push {D} (t : tap D) a :
  table_wf (Some a) t → table_wf None (set_conns (t_conns t ++ [a]) t).
Proof.
  intros [H1 H2 H3 H4 H5 H6]. split; simpl; try done.
  - apply list.NoDup_app. split; [done|]. split; [|apply NoDup_singleton].
    intros b Hb. rewrite list_elem_of_singleton. intros ->. by apply (H3 a).
  - intros b. rewrite H2, elem_of_app, list_elem_of_singleton. naive_solver.
Qed.

Lemma elem_of_erase_first a b l : NoDup l → b ∈ erase_first a l ↔ b ∈ l ∧ b ≠ a.
Proof.
  induction 1 as [|c l Hc Hl IH]; simpl; [set_solver|].
  destruct (c =? a) eqn:E; bool_hyps; subst; rewrite ?elem_of_cons, ?IH;
    destruct (decide (b = a)); naive_solver.
Qed.

Lemma erase_first_nodup a l : NoDup l → NoDup (erase_first a l).
Proof.
  induction 1 as [|c l Hc Hl IH]; simpl; [constructor|].
  destruct (c =? a); [done|]. constructor; [|done].
  rewrite elem_of_erase_first by done. tauto.
Qed.

Lemma table_wf_delete {D} e (t : tap D) a : table_wf e t → table_wf e (delete_conn a t).
Proof.
  intros Ht. unfold delete_conn. case_bool_decide as Ha; [|done].
  destruct Ht as [H1 H2 H3 H4 H5 H6]. split; simpl; try done.
  - by apply erase_first_nodup.
  - intros b. rewrite lookup_delete_is_Some, elem_of_erase_first, H2 by done.
    split; [naive_solver|]. intros [[]|Hb]; [by auto|]. split; [|by right].
    intros ->. by apply (H3 b).
  - intros b Hb. rewrite elem_of_erase_first by done. intros []. by apply (H3 b).
  - intros b Hb. apply lookup_delete_is_Some in Hb as []. by apply H4.
  - intros b c Hb. apply lookup_delete_Some in Hb as []. by eapply H6.
Qed.

Lemma deref_conn_cases {D} a (s : svc (host (tap D))) :
  (∃ c, t_heap (h_app (s_user s)) !! a = Some c ∧ deref_conn a s = Ok (c, s)) ∨
  ∃ u, deref_conn a s = Undef u ∧ u ≠ SelfDeadlock.
Proof.
  unfold deref_conn, get_app, read. sm_unfold.
  destruct (t_heap (h_app (s_user s)) !! a) as [c|]; [left; by exists c|].
  right. destruct (a =? 0); eexists; (split; [reflexivity|done]).
Qed.

Lemma bind_deref_conn {D B} a c (k : Connection → M (tap D) B) s :
  t_heap (h_app (s_user s)) !! a = Some c → (deref_conn a ≫= k) s = k c s.
Proof.
  intros Ha. destruct (deref_conn_cases a s) as [(c' & Hc & E)|(u & E & _)].
  - unfold mbind, sm_bind. rewrite E. congruence.
  - unfold deref_conn, get_app, read in E. sm_unfold. by rewrite Ha in E.
Qed.

Lemma bind_upd_conn {D B} a c f (k : unit → M (tap D) B) s :
  t_heap (h_app (s_user s)) !! a = Some c →
  (upd_conn a f ≫= k) s =
  k tt (Svc (s_trace s) (s_held s) (Host (h_phy (s_user s))
    (set_heap (<[a := f c]> (t_heap (h_app (s_user s)))) (h_app (s_user s))))).
Proof.
  intros Ha. unfold upd_conn. rewrite bind_assoc, (bind_deref_conn a c) by done. done.
Qed.

Section table_keeps.
Context {env : Env} {D : Type} (e : option Z).

Lemma table_keeps_deref_bind {B} a (k : Connection → M (tap D) B) :
  (∀ c, conn_ok c → keeps (on_app (table_wf e)) (k c)) →
  keeps (on_app (table_wf e)) (deref_conn a ≫= k).
Proof.
  intros Hk s Hs. unfold mbind, sm_bind.
  destruct (deref_conn_cases a s) as [(c & Hc & ->)|(u & -> & _)]; [|done].
  apply Hk; [|done]. by eapply (tw_ok e).
Qed.

Lemma table_keeps_deref a : keeps (on_app (table_wf e)) (deref_conn (D:=D) a).
Proof.
  intros s Hs. by destruct (deref_conn_cases a s) as [(c & Hc & ->)|(u & -> & _)].
Qed.

Lemma table_keeps_upd a (f : Connection → Connection) :
  (∀ c, conn_ok c → conn_ok (f c)) → keeps (on_app (table_wf e)) (upd_conn (D:=D) a f).
Proof.
  intros Hf s Hs. unfold upd_conn. unfold mbind, sm_bind.
  destruct (deref_conn_cases a s) as [(c & Hc & ->)|(u & -> & _)]; [|done].
  eapply table_wf_upd; [done| |done]. apply Hf. by eapply (tw_ok e).
Qed.

Lemma table_keeps_getConnection sock : keeps (on_app (table_wf e)) (getConnection (D:=D) sock).
Proof. unfold getConnection. keeps_walk. Qed.

Lemma table_keeps_getConnection_pico sock :
  keeps (on_app (table_wf e)) (getConnection_pico (D:=D) sock).
Proof. unfold getConnection_pico. keeps_walk. Qed.

Lemma table_keeps_mod (f : tap D → tap D) :
  (∀ t, t_conns (f t) = t_conns t ∧ t_heap (f t) = t_heap t ∧ t_next (f t) = t_next t) →
  keeps (on_app (table_wf e)) (mod_app f).
Proof.
  intros Hf. apply app_keeps_mod_app. intros t Ht. destruct (Hf t) as (? & ? & ?).
  by apply (table_wf_same e t).
Qed.
End table_keeps.

(** [leads P m Q]: as [keeps], from one property to another.  A new object is set up
    and put in the table. *)
Definition leads {S A} (P : S → Prop) (m : sm S A) (Q : S → Prop) : Prop :=
  ∀ s, P s → match m s with Ok (_, s') => Q s' | Undef _ => True end.

Lemma leads_bind {S A B} (P Q : S → Prop) (m : sm S A) (f : A → sm S B) :
  keeps P m → (∀ a, leads P (f a) Q) → leads P (m ≫= f) Q.
Proof.
  intros Hm Hf s Hs. specialize (Hm s Hs). sm_unfold.
  destruct (m s) as [[a s']|]; [by apply Hf|done].
Qed.

Lemma table_keeps_new_conn {D B} (k : Z → M (tap D) B) :
  (∀ n, leads (on_app (table_wf (Some n))) (k n) (on_app (table_wf None))) →
  keeps (on_app (table_wf None)) (new_conn ≫= k).
Proof.
  intros Hk s Hs. unfold new_conn. phy_step. apply Hk. by apply table_wf_alloc.
Qed.

Lemma table_leads_push {D B} n (k : unit → M (tap D) B) :
  keeps (on_app (table_wf None)) (k tt) →
  leads (on_app (table_wf (Some n))) (push_conn n ≫= k) (on_app (table_wf None)).
Proof. intros Hk s Hs. unfold push_conn. phy_step. apply Hk. by apply table_wf_push. Qed.

Lemma conn_ok_txbuf b c : zlen b = DEFAULT_TCP_TX_BUF_SZ → conn_ok c → conn_ok (set_txbuf b c).
Proof. by intros Hb []. Qed.

Lemma conn_ok_rxbuf b c : zlen b = DEFAULT_TCP_RX_BUF_SZ → conn_ok c → conn_ok (set_rxbuf b c).
Proof. by intros Hb []. Qed.

(** Solves what an update of a connection leaves: the buffers it writes come from
    copies into buffers of the right size. *)
Create HintDb zt_conn.

Ltac conn_ok_tac :=
  intros; cbv zeta; repeat first
    [ match goal with
      | |- conn_ok (set_txbuf _ _) => apply conn_ok_txbuf
      | |- conn_ok (set_rxbuf _ _) => apply conn_ok_rxbuf
      | |- conn_ok (set_rxsz _ ?c) => change (conn_ok c)
      | |- conn_ok (set_txsz _ ?c) => change (conn_ok c)
      | |- conn_ok ?c => match c with context [if ?b then _ else _] => destruct b end
      | H : (if ?x then _ else Ok _) = Ok ?b |- zlen ?b = _ => destruct x; [|injection H as <-]
      | H : mem_copy _ _ _ _ _ = Ok ?b |- zlen ?b = _ => rewrite (mem_copy_zlen _ _ _ _ _ _ H)
      | H : mem_write _ _ _ = Ok ?b |- zlen ?b = _ => rewrite (mem_write_zlen _ _ _ _ H)
      | H : conn_ok ?c |- zlen (c_txbuf ?c) = _ => apply H
      | H : conn_ok ?c |- zlen (c_rxbuf ?c) = _ => apply H
      end
    | done ];
  try solve [eauto 3 with zt_conn | match goal with H : conn_ok _ |- _ => by destruct H end].

#[export] Hint Resolve table_keeps_getConnection table_keeps_getConnection_pico
  table_keeps_deref : zt_keeps.

(** As [keeps_walk], for the table: a connection read from the heap is well-formed. *)
Ltac table_walk :=
  repeat (intros; cbv zeta; first
    [ keeps_leaf
    | apply table_keeps_upd; solve [conn_ok_tac]
    | apply table_keeps_deref_bind
    | apply table_keeps_mod; intros; done
    | apply table_keeps_new_conn
    | match goal with
      | |- leads _ (push_conn _ ≫= _) _ => apply table_leads_push
      | |- leads _ (_ ≫= _) _ => apply leads_bind
      end
    | keeps_node ]).

(** What the closing half of a driver promises. *)
Class CloseDriverTable {env : Env} {D} (CD : CloseDriver D) : Prop := {
  dt_preClose : ∀ e sock, keeps (on_app (table_wf e)) (drv_preClose sock);
  dt_handleClose : ∀ e sock conn, keeps (on_app (table_wf e)) (drv_handleClose sock conn)
}.
#[export] Hint Resolve dt_preClose dt_handleClose : zt_keeps.
#[export] Hint Extern 1 (CloseDriverTable _) => typeclasses eauto : zt_keeps.

Section close_table.
Context {env : Env} {D : Type} {CD : CloseDriver D} {CT : CloseDriverTable CD} (e : option Z).

Lemma no_handler_keeps : CloseKeeps (table_wf e) (no_handler (D:=D)).
Proof. split; intros; apply keeps_ret. Qed.
#[local] Hint Resolve no_handler_keeps : zt_keeps.

Lemma table_keeps_delete a : keeps (on_app (table_wf e)) (mod_app (delete_conn (D:=D) a)).
Proof. apply app_keeps_mod_app. intros t. apply table_wf_delete. Qed.
#[local] Hint Resolve table_keeps_delete : zt_keeps.

Lemma table_keeps_closeConnection sock : keeps (on_app (table_wf e)) (closeConnection sock).
Proof. unfold closeConnection. table_walk. Qed.

Lemma close_handlers_keep : CloseKeeps (table_wf e) close_handlers.
Proof.
  split; intros; simpl.
  - apply keeps_ret.
  - apply keeps_locked, table_keeps_closeConnection.
  - apply keeps_locked, keeps_ret.
Qed.
End close_table.
#[export] Hint Resolve table_keeps_closeConnection close_handlers_keep no_handler_keeps : zt_keeps.

Lemma table_keeps_tx_advance {D} e conn r : keeps (on_app (table_wf e)) (tx_advance (D:=D) conn r).
Proof. unfold tx_advance. table_walk. Qed.
#[export] Hint Resolve table_keeps_tx_advance : zt_keeps.

(** ** Lock discipline *)

Definition all_m : gset mutex :=
  {[tcpconns_m; ips_m; rx_buf_m; close_m; multicastGroups_m; pico_frame_rxbuf_m; lwip_m;
    pico_m]}.

(** What code may take that runs with the table, the receive buffers and the close
    lock held. *)
Definition inner_m : gset mutex := all_m ∖ {[tcpconns_m; rx_buf_m; close_m]}.

(** Sets of mutexes are concrete; inclusions are computed. *)
Ltac set_dec := apply (bool_decide_unpack _); vm_compute; exact I.

Create HintDb zt_locks.

(** Results of pure code are never deadlocks. *)
Definition pure_ok {A} (r : cres A) : Prop := r ≠ Undef SelfDeadlock.

Lemma pure_ok_Ok {A} (a : A) : pure_ok (Ok a).
Proof. done. Qed.
Lemma pure_ok_bind {A B} (r : cres A) (f : A → cres B) :
  pure_ok r → (∀ a, pure_ok (f a)) → pure_ok (r ≫= f).
Proof. intros Hr Hf. destruct r as [a|u]; [apply Hf|]. unfold pure_ok in *. simpl. congruence. Qed.
Lemma pure_ok_read off n m : pure_ok (mem_read off n m).
Proof. unfold mem_read, pure_ok. by case_match. Qed.
Lemma pure_ok_write off d m : pure_ok (mem_write off d m).
Proof. unfold mem_write, pure_ok. by case_match. Qed.
Lemma pure_ok_copy doff dst soff n src : pure_ok (mem_copy doff dst soff n src).
Proof. apply pure_ok_bind; [apply pure_ok_read|]. intros; apply pure_ok_write. Qed.
Lemma pure_ok_FD_SET fd s : pure_ok (FD_SET fd s).
Proof. unfold FD_SET, pure_ok. by case_match. Qed.
Lemma pure_ok_FD_CLR fd s : pure_ok (FD_CLR fd s).
Proof. unfold FD_CLR, pure_ok. by case_match. Qed.
Lemma pure_ok_shl w x n : pure_ok (shl w x n).
Proof. unfold shl, pure_ok. by case_match. Qed.
Lemma pure_ok_find_conn p h l : pure_ok (find_conn p h l).
Proof. unfold pure_ok. induction l; simpl; [done|]. repeat case_match; done. Qed.
Lemma pure_ok_get_int off m : pure_ok (get_int off m).
Proof. unfold get_int. apply pure_ok_bind; [apply pure_ok_read|done]. Qed.
#[export] Hint Resolve pure_ok_Ok pure_ok_bind pure_ok_read pure_ok_write pure_ok_copy
  pure_ok_FD_SET pure_ok_FD_CLR pure_ok_find_conn pure_ok_get_int : zt_locks.

Lemma pure_ok_netmask ip : pure_ok (InetAddress.netmask ip).
Proof.
  unfold InetAddress.netmask, InetAddress.mask4, InetAddress.mask6_hi, InetAddress.mask6_lo.
  repeat case_match; eauto 6 using pure_ok_shl with zt_locks nocore.
Qed.
Lemma pure_ok_setTo b len : pure_ok (MAC.setTo b len).
Proof.
  unfold MAC.setTo. case_match; [done|]. apply pure_ok_bind; [apply pure_ok_read|].
  intros. by repeat case_match.
Qed.
#[export] Hint Resolve pure_ok_netmask pure_ok_setTo : zt_locks.

Section balanced_app.
Context {env : Env} {X : Type}.
Implicit Types F : gset mutex.

Lemma balanced_pure {A} F (r : cres A) : pure_ok r → balanced (U:=host X) F (lift r).
Proof. apply balanced_lift. Qed.
Lemma balanced_get_app F : balanced F (get_app (X:=X)).
Proof. apply balanced_read. Qed.
Lemma balanced_get_phy F : balanced F (get_phy (X:=X)).
Proof. apply balanced_read. Qed.
Lemma balanced_mod_app F (f : X → X) : balanced F (mod_app f).
Proof. apply balanced_modify. Qed.
Lemma balanced_mod_phy F (f : phy → phy) : balanced F (mod_phy (X:=X) f).
Proof. apply balanced_modify. Qed.
Lemma balanced_deref F sock : balanced F (deref (X:=X) sock).
Proof. intros s Hs. by destruct (deref_cases sock s) as [(n & _ & ->)|(u & -> & ?)]. Qed.
Lemma balanced_locked' {A} F m (body : M X A) :
  {[m]} ⊆ F → balanced (F ∖ {[m]}) body → balanced F (locked m body).
Proof. intros Hm Hb. apply balanced_locked; [done|set_solver]. Qed.

(** Two mutexes, released in the order in which they were taken. *)
Lemma balanced_lock2 F a b (m : M X unit) :
  {[a; b]} ⊆ F → a ≠ b → balanced (F ∖ {[a; b]}) m →
  balanced F (_ ← lock a; _ ← lock b; _ ← m; _ ← unlock a; unlock b).
Proof.
  intros HF Hab Hm s Hs. rewrite !bind_lock.
  rewrite decide_False by set_solver. simpl. rewrite decide_False by set_solver.
  specialize (Hm (Svc (s_trace s) ({[b]} ∪ ({[a]} ∪ s_held s)) (s_user s))).
  unfold mbind at 1, sm_bind at 1. simpl in Hm. destruct (m _) as [[[] s']|]; [|apply Hm; set_solver].
  rewrite bind_unlock. simpl. rewrite Hm by set_solver. set_solver.
Qed.
End balanced_app.
#[export] Hint Resolve balanced_get_app balanced_get_phy balanced_mod_app balanced_mod_phy
  balanced_deref : zt_locks.
#[export] Hint Extern 2 (_ ⊆ _) => set_dec : zt_locks.

Ltac balanced_walk :=
  repeat (intros; cbv zeta; first
    [ apply balanced_ret | apply balanced_ask | apply balanced_undef; done
    | apply balanced_pure; solve [repeat (case_match; eauto 3 with zt_locks nocore); eauto 3 with zt_locks nocore]
    | solve [eauto 4 with zt_locks nocore]
    | apply balanced_locked'; [set_dec|] | apply balanced_lock2; [set_dec|done|] | apply balanced_when | apply balanced_bind
    | match goal with |- balanced _ (match ?x with _ => _ end) => destruct x eqn:? end ]).

(** The operations of the I/O loop, as long as no send fails for good. *)
Class SendsRecover (env : Env) : Prop := sends_recover : ∀ fd d tr,
  let n := answer (ScSend fd d) tr in
  n < 0 → answer ScErrno (Ev (ScSend fd d) n :: tr) = EAGAIN ∨
          answer ScErrno (Ev (ScSend fd d) n :: tr) = EINTR.

Section balanced_phy.
Context {env : Env} {X : Type}.
Implicit Types F : gset mutex.

Lemma balanced_getDescriptor F sock : balanced F (getDescriptor (X:=X) sock).
Proof. unfold getDescriptor. balanced_walk. Qed.
Lemma balanced_wrapSocket F fd uptr : balanced F (wrapSocket (X:=X) fd uptr).
Proof. unfold wrapSocket, add_sock. balanced_walk. Qed.
Lemma balanced_setNotifyWritable F sock b : balanced F (setNotifyWritable (X:=X) sock b).
Proof. unfold setNotifyWritable. balanced_walk. Qed.
Lemma balanced_setNotifyReadable F sock b : balanced F (setNotifyReadable (X:=X) sock b).
Proof. unfold setNotifyReadable. balanced_walk. Qed.
Lemma balanced_whack F : balanced F (whack (X:=X)).
Proof. unfold whack. balanced_walk. Qed.
Lemma balanced_sendReturnValue F fd v e : balanced F (sendReturnValue (X:=X) fd v e).
Proof. apply balanced_ask. Qed.
Lemma balanced_close_quiet F (H : phy_handler X) sock : balanced F (close H sock false).
Proof. unfold close. balanced_walk. Qed.

Lemma balanced_streamSend F (H : phy_handler X) sock d b :
  SendsRecover env → balanced F (streamSend H sock d b).
Proof.
  intros HS. unfold streamSend. apply balanced_bind; [apply balanced_deref|].
  intros n s Hs. unfold send_failed. rewrite bind_ask.
  pose proof (HS (ps_sock n) d (s_trace s)) as Hr. cbv zeta in Hr.
  destruct (_ <? 0) eqn:E; [|done]. bool_hyps. rewrite bind_ask. cbn [s_trace].
  by destruct (Hr E) as [-> | ->].
Qed.

(** The whole handler object, called by [poll] when the thread holds nothing of [F]. *)
Class HandlerLocks F (H : phy_handler X) : Prop := {
  hl_connect : ∀ a b, balanced F (phyOnTcpConnect H a b);
  hl_tcp : ∀ a, balanced F (phyOnTcpClose H a);
  hl_unix : ∀ a, balanced F (phyOnUnixClose H a);
  hl_datagram : ∀ a l f d, balanced F (phyOnDatagram H a l f d);
  hl_accept : ∀ a b f, balanced F (phyOnTcpAccept H a b f);
  hl_data : ∀ a d n, balanced F (phyOnTcpData H a d n);
  hl_writable : ∀ a, balanced F (phyOnTcpWritable H a false);
  hl_unix_data : ∀ a d n, balanced F (phyOnUnixData H a d n);
  hl_unix_writable : ∀ a, balanced F (phyOnUnixWritable H a false)
}.
#[local] Hint Resolve hl_connect hl_tcp hl_unix hl_datagram hl_accept hl_data
  hl_writable hl_unix_data hl_unix_writable : zt_locks.

Lemma balanced_close F H sock b : HandlerLocks F H → balanced F (close H sock b).
Proof. intros HH. unfold close. balanced_walk. Qed.

Lemma pure_ok_FD_ISSET fd s : pure_ok (FD_ISSET fd s).
Proof. unfold FD_ISSET, pure_ok. by case_match. Qed.
#[local] Hint Resolve balanced_close pure_ok_FD_ISSET : zt_locks.

Lemma balanced_poll_udp F H fuel a s : HandlerLocks F H → balanced F (poll_udp H fuel a s).
Proof. intros HH. induction fuel as [|fuel IH]; simpl; balanced_walk; apply IH. Qed.
#[local] Hint Resolve balanced_poll_udp : zt_locks.

Lemma balanced_poll_sock F H fuel a rfds wfds :
  HandlerLocks F H → balanced F (poll_sock H fuel a rfds wfds).
Proof.
  intros HH. unfold poll_sock, poll_tcp_pending, poll_tcp, poll_accept, poll_unix_in, poll_buf,
    add_sock, isset.
  balanced_walk.
Qed.

Lemma balanced_poll_loop F H fuel i rfds wfds :
  HandlerLocks F H → balanced F (poll_loop H fuel i rfds wfds).
Proof.
  intros HH. revert i. induction fuel as [|fuel IH]; simpl; balanced_walk;
    first [apply balanced_poll_sock; done | apply IH].
Qed.

Lemma balanced_poll F H fuel timeout : HandlerLocks F H → balanced F (poll H fuel timeout).
Proof. intros HH. unfold poll, isset. balanced_walk. intros. by apply balanced_poll_loop. Qed.
End balanced_phy.
#[export] Hint Resolve balanced_getDescriptor balanced_wrapSocket balanced_setNotifyWritable
  balanced_setNotifyReadable balanced_whack balanced_sendReturnValue balanced_close_quiet
  balanced_streamSend : zt_locks.

Section balanced_table.
Context {env : Env} {D : Type}.
Implicit Types F : gset mutex.

Lemma balanced_deref_conn F a : balanced F (deref_conn (D:=D) a).
Proof. intros s Hs. by destruct (deref_conn_cases a s) as [(c & _ & ->)|(u & -> & ?)]. Qed.
#[local] Hint Resolve balanced_deref_conn : zt_locks.
Lemma balanced_upd_conn F a f : balanced F (upd_conn (D:=D) a f).
Proof. unfold upd_conn. balanced_walk. Qed.
#[local] Hint Resolve balanced_upd_conn : zt_locks.
Lemma balanced_tx_advance F a r : balanced F (tx_advance (D:=D) a r).
Proof. unfold tx_advance. balanced_walk. Qed.
Lemma balanced_new_conn F : balanced F (new_conn (D:=D)).
Proof. unfold new_conn. balanced_walk. Qed.
Lemma balanced_push_conn F a : balanced F (push_conn (D:=D) a).
Proof. apply balanced_mod_app. Qed.
Lemma balanced_getConnection F a : balanced F (getConnection (D:=D) a).
Proof. unfold getConnection. balanced_walk. Qed.
Lemma balanced_getConnection_pico F a : balanced F (getConnection_pico (D:=D) a).
Proof. unfold getConnection_pico. balanced_walk. Qed.
End balanced_table.
#[export] Hint Resolve balanced_deref_conn balanced_upd_conn balanced_tx_advance balanced_new_conn balanced_push_conn
  balanced_getConnection balanced_getConnection_pico : zt_locks.

(** What the closing half of a driver promises. *)
Class CloseDriverLocks {env : Env} {D} (CD : CloseDriver D) : Prop := {
  dl_preClose : ∀ F sock, inner_m ⊆ F → balanced F (drv_preClose sock);
  dl_handleClose : ∀ F sock conn, inner_m ⊆ F → balanced F (drv_handleClose sock conn)
}.

#[export] Hint Extern 1 (CloseDriverLocks _) => typeclasses eauto : zt_locks.
#[export] Hint Extern 1 (SendsRecover _) => typeclasses eauto : zt_locks.

Lemma balanced_closeConnection {env : Env} {D} {CD : CloseDriver D} {CL : CloseDriverLocks CD}
    F sock : {[close_m]} ∪ inner_m ⊆ F → balanced F (closeConnection sock).
Proof.
  intros HF. assert (inner_m ⊆ F ∖ {[close_m]}).
  { intros m Hm. apply elem_of_difference. split; [set_solver|]. intros E. subst.
    revert Hm. rewrite elem_of_singleton in E. subst m. by vm_compute. }
  unfold closeConnection. apply balanced_locked'; [set_solver|].
  balanced_walk; by apply dl_preClose || apply dl_handleClose.
Qed.
#[export] Hint Resolve balanced_closeConnection : zt_locks.

(** Looking a connection up succeeds on a well-formed table. *)
Lemma find_conn_total p (h : gmap Z Connection) l :
  (∀ a, a ∈ l → is_Some (h !! a)) → ∃ a, find_conn p h l = Ok a ∧ (a = 0 ∨ a ∈ l).
Proof.
  induction l as [|b l IH]; intros Hl; simpl; [by exists 0; auto|].
  destruct (Hl b) as [c ->]; [by left|].
  destruct (p c); [by exists b; split; [|right; left]|].
  destruct IH as (a & Ha & Ho); [intros; apply Hl; by right|].
  exists a. split; [done|]. destruct Ho; [by left|by right; right].
Qed.

Lemma getConnection_total {D} e sock (s : svc (host (tap D))) :
  table_wf e (h_app (s_user s)) →
  ∃ a, getConnection sock s = Ok (a, s) ∧ (a = 0 ∨ a ∈ t_conns (h_app (s_user s))).
Proof.
  intros Hs. destruct (find_conn_total (λ c, c_sock c =? sock) (t_heap (h_app (s_user s)))
    (t_conns (h_app (s_user s)))) as (a & Ha & Ho).
  { intros a Ha. apply (tw_live e _ Hs). by left. }
  exists a. split; [|done]. unfold getConnection. rewrite bind_get_app. by rewrite Ha.
Qed.

(** The members the constructor initialises; [addr] and [listener] are what is in
    memory for the two proxy members, which it does not. *)
Definition tap_new {D} (mac mtu nwid : Z) (addr : bytes) (listener : Z) (drv : D) : tap D :=
  Tap [] ∅ 1 ∅ (memset SDK_MTU 0) [] [] mac mtu nwid true true (-1) addr listener drv.

Definition service0 {D} (drv : D) : svc (host (tap D)) :=
  Svc [] ∅ (Host (phy_new 3 4 false true) (tap_new 0 2800 0 (memset 128 0) 0 drv)).

Lemma service0_table {D} (drv : D) : table_wf None (h_app (s_user (service0 drv))).
Proof.
  split; simpl; [constructor|..|lia|]; try done.
  - intros a. rewrite lookup_empty. split; [by intros []|].
    intros [Ha|Ha]; [by apply not_elem_of_nil in Ha|done].
  - intros a [c Hc]. by rewrite lookup_empty in Hc.
Qed.
