(* ===== verification/Tap.v ===== *)
(** * The tap (src/tap.cpp)

    The dispatch of what arrives on the Unix sockets (RPC messages, tokens, stream
    data), the RPC handlers, and the bookkeeping of addresses and multicast groups.
    The network stack driver is the interface [Driver], which Lwip.v and Pico.v
    implement. *)

From S2P Require Import Prelude Svc Phy Rpc Addr Conn.
From stdpp Require Import base numbers list gmap sets option.

Open Scope Z_scope.

(** ** The driver interface

    The functions of the stack driver the tap was compiled with.  [CloseDriver] has
    the closing half, which the driver's own functions need. *)
Class Driver (D : Type) := {
  drv_handleSocket : Z → bytes → M (tap D) Z;
  drv_handleConnect : Z → Z → Z → bytes → M (tap D) unit;
  drv_handleBind : Z → Z → bytes → M (tap D) unit;
  drv_handleListen : Z → Z → bytes → M (tap D) unit;
  drv_handleRead : Z → bool → M (tap D) unit;
  drv_handleWrite : Z → M (tap D) unit;
  drv_initInterface : bytes → M (tap D) unit;
  drv_rx : Z → Z → Z → bytes → M (tap D) unit
}.

(** ** Addresses *)

(** [std::find] for an address, and the erasing of its first occurrence. *)
Fixpoint erase_ip (ip : bytes) (l : list bytes) : option (list bytes) :=
  match l with
  | [] => None
  | x :: l' => if InetAddress.eqb x ip then Some l' else (x ::.) <$> erase_ip ip l'
  end.

Definition has_ip (ip : bytes) (l : list bytes) : bool := existsb (λ x, InetAddress.eqb x ip) l.

(** [std::sort] under a strict order. *)
Fixpoint insert_sorted {A} (lt : A → A → bool) (x : A) (l : list A) : list A :=
  match l with
  | [] => [x]
  | y :: l' => if lt y x then y :: insert_sorted lt x l' else x :: l
  end.

Fixpoint sort {A} (lt : A → A → bool) (l : list A) : list A :=
  match l with
  | [] => []
  | x :: l' => insert_sorted lt x (sort lt l')
  end.

(** [std::unique] without the [erase]: the range is compacted to its front and the
    elements behind the compacted part keep their values. *)
Fixpoint dedup {A} (eqb : A → A → bool) (l : list A) : list A :=
  match l with
  | x :: (y :: _) as l' => if eqb x y then dedup eqb l' else x :: dedup eqb l'
  | l => l
  end.

Definition unique {A} (eqb : A → A → bool) (l : list A) : list A :=
  let d := dedup eqb l in d ++ drop (length d) l.

(** [std::binary_search]: [lower_bound] by halving, then one comparison.  [fuel] is
    the length of the range. *)
Fixpoint lower_bound {A} (lt : A → A → bool) (fuel first len : nat) (x : A) (l : list A) : nat :=
  match fuel with
  | O => first
  | S fuel' =>
      match len with
      | O => first
      | _ =>
          let half := Nat.div2 len in
          match l !! (first + half)%nat with
          | Some m => if lt m x then lower_bound lt fuel' (first + half + 1) (len - half - 1) x l
                      else lower_bound lt fuel' first half x l
          | None => first
          end
      end
  end.

Definition binary_search {A} (lt : A → A → bool) (x : A) (l : list A) : bool :=
  match l !! lower_bound lt (length l) 0 (length l) x l with
  | Some m => negb (lt x m)
  | None => false
  end.

Definition group_eqb (x y : MulticastGroup.t) : bool := bool_decide (x = y).

Section tap.
Context {env : Env} {D : Type} {CD : CloseDriver D} {DR : Driver D}.
(** What becomes of the dead [tmpbuf] between two activations of [phyOnUnixData]. *)
Context (reclaim : bytes → bytes).

Definition setEnabled (en : bool) : M (tap D) unit := mod_app (set_enabled en).
Definition isEnabled : M (tap D) bool := t ← get_app; mret (t_enabled t).

Definition addIp (ip : bytes) : M (tap D) bool := _ ← drv_initInterface ip; mret true.

Definition removeIp (ip : bytes) : M (tap D) bool :=
  locked ips_m (
    t ← get_app;
    match erase_ip ip (t_ips t) with
    | None => mret false
    | Some l => _ ← mod_app (set_ips l); mret true
    end).

Definition ips : M (tap D) (list bytes) := locked ips_m (t ← get_app; mret (t_ips t)).

(** [NetconEthernetTap::put] *)
Definition put (from to etherType : Z) (data : bytes) : M (tap D) unit :=
  drv_rx from to etherType data.

(** Returns what is appended to the two vectors. *)
Definition scanMulticastGroups : M (tap D) (list MulticastGroup.t * list MulticastGroup.t) :=
  locked multicastGroups_m (
    allIps ← ips;
    let newGroups := map MulticastGroup.deriveMulticastGroupForAddressResolution allIps in
    let newGroups := sort MulticastGroup.ltb newGroups in
    let newGroups := unique group_eqb newGroups in
    t ← get_app;
    let added := filter (λ m, binary_search MulticastGroup.ltb m (t_multicastGroups t) = false)
                   newGroups in
    let removed := filter (λ m, binary_search MulticastGroup.ltb m newGroups = false)
                     (t_multicastGroups t) in
    _ ← mod_app (set_multicastGroups newGroups);
    mret (added, removed)).

(** ** RPC handlers *)

Definition handleGetsockname (sock rpcSock : Z) : M (tap D) unit :=
  locked tcpconns_m (
    conn ← getConnection sock;
    c ← deref_conn conn;
    fd ← getDescriptor rpcSock;
    _ ← ask (ScWritePtr fd (c_local_addr c) sizeof_sockaddr_storage);
    mret tt).

Definition handleGetpeername (sock rpcSock : Z) : M (tap D) unit :=
  locked tcpconns_m (
    conn ← getConnection sock;
    c ← deref_conn conn;
    fd ← getDescriptor rpcSock;
    _ ← ask (ScWritePtr fd (c_peer_addr c) sizeof_sockaddr_storage);
    mret tt).

Definition handleSocket (sock : Z) (socket_rpc : bytes) : M (tap D) Z :=
  drv_handleSocket sock socket_rpc.

Definition handleConnect (sock rpcSock conn : Z) (connect_rpc : bytes) : M (tap D) unit :=
  locked tcpconns_m (drv_handleConnect sock rpcSock conn connect_rpc).

Definition handleBind (sock rpcSock : Z) (bind_rpc : bytes) : M (tap D) unit :=
  locked tcpconns_m (
    t ← get_app;
    if bool_decide (t_ips t = []) then
      fd ← getDescriptor rpcSock;
      _ ← sendReturnValue fd (-1) ENOMEM; mret tt
    else drv_handleBind sock rpcSock bind_rpc).

Definition handleListen (sock rpcSock : Z) (listen_rpc : bytes) : M (tap D) unit :=
  locked tcpconns_m (drv_handleListen sock rpcSock listen_rpc).

Definition handleWrite (conn : Z) : M (tap D) unit := drv_handleWrite conn.

Definition handleRead (sock : Z) (lwip_invoked : bool) : M (tap D) unit :=
  drv_handleRead sock lwip_invoked.

Definition tap_phyOnUnixWritable (sock : Z) (lwip_invoked : bool) : M (tap D) unit :=
  handleRead sock lwip_invoked.

(** ** What arrives on a Unix socket *)

(** The test for an RPC message (lines 370-376). *)
Definition detect_rpc (data : bytes) (len : Z) : M (tap D) bool :=
  if len =? BUF_SZ then
    phrase ← lift (mem_read 0 RPC_PHRASE_SZ data);
    mret (bool_decide (phrase = RPC_PHRASE))
  else mret false.

(** An RPC message (lines 377-401): a socket is created at once, any other command
    waits for its token. *)
Definition rx_rpc (sock : Z) (data : bytes) (len : Z) : M (tap D) unit :=
  h ← lift (unloadRPC data);
  _ ← (if h_cmd h =? RPC_SOCKET then
         socket_rpc ← lift (mem_read (IDX_PAYLOAD + STRUCT_IDX) sizeof_socket_st data);
         conn ← handleSocket sock socket_rpc;
         if conn =? 0 then mret tt else upd_conn conn (set_pid (h_pid h))
       else
         t ← get_app;
         tmpbuf ← lift (mem_copy 0 (t_tmpbuf t) 0 len data);
         mod_app (λ t, set_jobmap (<[le_val (h_canary h) := sock]> (t_jobmap t))
                         (set_tmpbuf tmpbuf t)));
  fd ← getDescriptor sock;
  _ ← ask (ScWrite fd [122]); mret tt.

(** [jobmap[CANARY_num]]: looking up inserts an empty entry. *)
Definition jobmap_index (token : Z) : M (tap D) Z :=
  t ← get_app;
  match t_jobmap t !! token with
  | Some s => mret s
  | None => _ ← mod_app (set_jobmap (<[token := 0]> (t_jobmap t))); mret 0
  end.

(** The token in front of the padding (lines 404-421): [None] if the function
    returns, [Some None] if there is no job, else the job's socket and token. *)
Definition find_job (data : bytes) (canary_pos : Z) : M (tap D) (option (option (Z * Z))) :=
  if -1 <? canary_pos then
    d ← lift (mem_read canary_pos CANARY_SZ data);
    let token := le_val d in
    if negb (token =? 0) then
      first ← jobmap_index token;
      if first =? 0 then mret None else mret (Some (Some (first, token)))
    else mret (Some None)
  else mret (Some None).

(** [memcpy] to [(&conn->txbuf)+conn->txsz]: the pointer is to the whole array, so
    that the offset counts arrays. *)
Definition copy_tx_scaled (conn soff n : Z) (data : bytes) : M (tap D) unit :=
  c ← deref_conn conn;
  b ← lift (mem_copy (c_txsz c * DEFAULT_TCP_TX_BUF_SZ) (c_txbuf c) soff n data);
  upd_conn conn (set_txbuf b).

(** Copying the stream data to the transmit buffer (lines 426-454); returns
    [wlen]. *)
Definition take_stream (conn : Z) (data : bytes) (len padding_pos canary_pos : Z) : M (tap D) Z :=
  let meta := CANARY_SZ + PADDING_SZ in
  let cut := len - CANARY_SZ + PADDING_SZ in
  if padding_pos =? -1 then
    c ← deref_conn conn;
    b ← lift (mem_copy (c_txsz c) (c_txbuf c) 0 len data);
    _ ← upd_conn conn (set_txbuf b); mret len
  else if (len =? meta) && (canary_pos =? 0) then mret 0
  else
    let before := (meta <? len) && (canary_pos =? 0) in
    let after := (meta <? len) && (0 <? canary_pos) && (canary_pos =? cut) in
    let inside := (meta <? len) && (0 <? canary_pos) && (canary_pos + meta <? len) in
    _ ← when before (copy_tx_scaled conn (padding_pos + PADDING_SZ) cut data);
    _ ← when after (copy_tx_scaled conn 0 cut data);
    _ ← when inside
          (_ ← copy_tx_scaled conn 0 (padding_pos - CANARY_SZ + 1) data;
           copy_tx_scaled conn (padding_pos + PADDING_SZ) (len - (canary_pos + meta)) data);
    mret (if before || after || inside then cut else len).

(** Stream data (lines 403-461); returns the job that was found and the
    connection. *)
Definition rx_stream (sock : Z) (data : bytes) (len : Z) : M (tap D) (option (Z * Z * Z)) :=
  buffer ← lift (mem_read 0 len data);
  let padding_pos := Prelude.find PADDING buffer in
  let canary_pos := padding_pos - CANARY_SZ in
  job ← find_job data canary_pos;
  match job with
  | None => mret None
  | Some job =>
      conn ← getConnection sock;
      if conn =? 0 then mret None
      else
        wlen ← take_stream conn data len padding_pos canary_pos;
        _ ← when (negb (wlen =? 0))
              (_ ← upd_conn conn (λ c, set_txsz (c_txsz c + wlen) c); handleWrite conn);
        mret ((λ j, (j, conn)) <$> job)
  end.

(** Running the command of a job (lines 463-507). *)
Definition run_job (sock rpcSock token conn : Z) : M (tap D) unit :=
  t ← get_app;
  let buf := t_tmpbuf t in
  h ← lift (unloadRPC buf);
  let arg n := lift (mem_read (IDX_PAYLOAD + STRUCT_IDX) n buf) in
  let finish :=
    locked tcpconns_m (
      _ ← closeConnection rpcSock;
      mod_app (λ t, set_jobmap (delete token (t_jobmap t)) t)) in
  let cmd := h_cmd h in
  if cmd =? RPC_BIND then
    a ← arg sizeof_bind_st; _ ← handleBind sock rpcSock a; finish
  else if cmd =? RPC_LISTEN then
    a ← arg sizeof_listen_st; _ ← handleListen sock rpcSock a; finish
  else if cmd =? RPC_GETSOCKNAME then
    _ ← arg sizeof_getsockname_st; _ ← handleGetsockname sock rpcSock; finish
  else if cmd =? RPC_GETPEERNAME then
    _ ← arg sizeof_getsockname_st; _ ← handleGetpeername sock rpcSock; finish
  else if cmd =? RPC_CONNECT then
    a ← arg sizeof_connect_st; _ ← handleConnect sock rpcSock conn a;
    mod_app (λ t, set_jobmap (delete token (t_jobmap t)) t)
  else mret tt.

Definition tap_phyOnUnixData (sock : Z) (data : bytes) (len : Z) : M (tap D) unit :=
  _ ← mod_app (λ t, set_tmpbuf (reclaim (t_tmpbuf t)) t);
  detected_rpc ← detect_rpc data len;
  if detected_rpc : bool then rx_rpc sock data len
  else
    job ← rx_stream sock data len;
    match job with
    | Some (rpcSock, token, conn) => run_job sock rpcSock token conn
    | None => mret tt
    end.

End tap.

(** ** The table of connections under the tap

    [DriverTable] and [DriverLocks] state what the tap relies on a driver for; the
    drivers' files have the instances. *)

Class DriverTable {env : Env} {D} (DR : Driver D) : Prop := {
  dt_handleSocket : ∀ sock a, keeps (on_app (table_wf None)) (drv_handleSocket sock a);
  dt_handleConnect : ∀ sock rpc conn a,
    keeps (on_app (table_wf None)) (drv_handleConnect sock rpc conn a);
  dt_handleBind : ∀ sock rpc a, keeps (on_app (table_wf None)) (drv_handleBind sock rpc a);
  dt_handleListen : ∀ sock rpc a, keeps (on_app (table_wf None)) (drv_handleListen sock rpc a);
  dt_handleRead : ∀ sock b, keeps (on_app (table_wf None)) (drv_handleRead sock b);
  dt_handleWrite : ∀ conn, keeps (on_app (table_wf None)) (drv_handleWrite conn);
  dt_initInterface : ∀ ip, keeps (on_app (table_wf None)) (drv_initInterface ip);
  dt_rx : ∀ from to et d, keeps (on_app (table_wf None)) (drv_rx from to et d)
}.
#[export] Hint Resolve dt_handleSocket dt_handleConnect dt_handleBind dt_handleListen
  dt_handleRead dt_handleWrite dt_initInterface dt_rx : zt_keeps.
#[export] Hint Extern 1 (DriverTable _) => typeclasses eauto : zt_keeps.

Class DriverLocks {env : Env} {D} (DR : Driver D) : Prop := {
  dl_handleSocket : ∀ F sock a, all_m ⊆ F → balanced F (drv_handleSocket sock a);
  dl_handleConnect : ∀ F sock rpc conn a,
    all_m ∖ {[tcpconns_m]} ⊆ F → balanced F (drv_handleConnect sock rpc conn a);
  dl_handleBind : ∀ F sock rpc a,
    all_m ∖ {[tcpconns_m]} ⊆ F → balanced F (drv_handleBind sock rpc a);
  dl_handleListen : ∀ F sock rpc a,
    all_m ∖ {[tcpconns_m]} ⊆ F → balanced F (drv_handleListen sock rpc a);
  dl_handleRead : ∀ F sock,
    all_m ∖ {[tcpconns_m; rx_buf_m]} ⊆ F → balanced F (drv_handleRead sock true);
  dl_handleWritable : ∀ F sock, all_m ⊆ F → balanced F (drv_handleRead sock false);
  dl_handleWrite : ∀ F conn, inner_m ⊆ F → balanced F (drv_handleWrite conn);
  dl_initInterface : ∀ F ip, all_m ⊆ F → balanced F (drv_initInterface ip);
  dl_rx : ∀ F from to et d, all_m ⊆ F → balanced F (drv_rx from to et d)
}.
#[export] Hint Resolve dl_handleSocket dl_handleConnect dl_handleBind dl_handleListen
  dl_handleRead dl_handleWritable dl_handleWrite dl_initInterface dl_rx : zt_locks.
#[export] Hint Extern 1 (DriverLocks _) => typeclasses eauto : zt_locks.

Section table.
Context {env : Env} {D : Type} {CD : CloseDriver D} {DR : Driver D}.
Context {CT : CloseDriverTable CD} {DT : DriverTable DR} (reclaim : bytes → bytes).

Lemma table_keeps_rx_rpc sock data len :
  keeps (on_app (table_wf None)) (rx_rpc (D:=D) sock data len).
Proof. unfold rx_rpc, handleSocket. table_walk. Qed.

Lemma table_keeps_find_job data pos :
  keeps (on_app (table_wf None)) (find_job (D:=D) data pos).
Proof. unfold find_job, jobmap_index. table_walk. Qed.

Lemma table_keeps_copy_tx conn soff n data :
  keeps (on_app (table_wf None)) (copy_tx_scaled (D:=D) conn soff n data).
Proof. unfold copy_tx_scaled. table_walk. Qed.
#[local] Hint Resolve table_keeps_rx_rpc table_keeps_find_job table_keeps_copy_tx : zt_keeps.

Lemma table_keeps_rx_stream sock data len :
  keeps (on_app (table_wf None)) (rx_stream (D:=D) sock data len).
Proof. unfold rx_stream, take_stream, handleWrite. table_walk. Qed.

Lemma table_keeps_run_job sock rpcSock token conn :
  keeps (on_app (table_wf None)) (run_job (D:=D) sock rpcSock token conn).
Proof.
  unfold run_job, handleBind, handleListen, handleGetsockname, handleGetpeername, handleConnect.
  table_walk.
Qed.
#[local] Hint Resolve table_keeps_rx_stream table_keeps_run_job : zt_keeps.

Lemma table_keeps_phyOnUnixData sock data len :
  keeps (on_app (table_wf None)) (tap_phyOnUnixData (D:=D) reclaim sock data len).
Proof. unfold tap_phyOnUnixData, detect_rpc. table_walk. Qed.

Lemma table_keeps_phyOnUnixWritable sock b :
  keeps (on_app (table_wf None)) (tap_phyOnUnixWritable (D:=D) sock b).
Proof. unfold tap_phyOnUnixWritable, handleRead. table_walk. Qed.
End table.
#[export] Hint Resolve table_keeps_phyOnUnixData table_keeps_phyOnUnixWritable : zt_keeps.

Section locks.
Context {env : Env} {D : Type} {CD : CloseDriver D} {DR : Driver D}.
Context {CL : CloseDriverLocks CD} {DL : DriverLocks DR} (reclaim : bytes → bytes).

Lemma pure_ok_unloadRPC data : pure_ok (unloadRPC data).
Proof. unfold unloadRPC. eauto 20 with zt_locks nocore. Qed.
#[local] Hint Resolve pure_ok_unloadRPC : zt_locks.

Lemma balanced_rx_rpc sock data len : balanced all_m (rx_rpc (D:=D) sock data len).
Proof. unfold rx_rpc, handleSocket. balanced_walk. Qed.

Lemma balanced_rx_stream sock data len : balanced all_m (rx_stream (D:=D) sock data len).
Proof.
  unfold rx_stream, find_job, jobmap_index, take_stream, copy_tx_scaled, handleWrite.
  balanced_walk.
Qed.

Lemma balanced_run_job sock rpcSock token conn :
  balanced all_m (run_job (D:=D) sock rpcSock token conn).
Proof.
  unfold run_job, handleBind, handleListen, handleGetsockname, handleGetpeername, handleConnect.
  balanced_walk.
Qed.
#[local] Hint Resolve balanced_rx_rpc balanced_rx_stream balanced_run_job : zt_locks.

Lemma balanced_phyOnUnixData sock data len :
  balanced all_m (tap_phyOnUnixData (D:=D) reclaim sock data len).
Proof. unfold tap_phyOnUnixData, detect_rpc. balanced_walk. Qed.

Lemma balanced_phyOnUnixWritable sock :
  balanced all_m (tap_phyOnUnixWritable (D:=D) sock false).
Proof. unfold tap_phyOnUnixWritable, handleRead. balanced_walk. Qed.

Lemma balanced_scanMulticastGroups : balanced all_m (scanMulticastGroups (D:=D)).
Proof. unfold scanMulticastGroups, ips. balanced_walk. Qed.

Lemma balanced_removeIp ip : balanced all_m (removeIp (D:=D) ip).
Proof. unfold removeIp. balanced_walk. Qed.
End locks.
