(* ===== verification/Proxy.v ===== *)
(** * The SOCKS5 proxy (src/proxy.cpp)

    The proxy server of the tap: starting and stopping it, and the handlers of the
    I/O loop for its TCP sockets, which speak the SOCKS5 handshake.  With them the
    object the I/O loop calls back ([tap_handler]) is complete. *)

From S2P Require Import Prelude Svc Phy Rpc Addr Conn Tap.
From stdpp Require Import base numbers list gmap sets option.

Open Scope Z_scope.

(** ** Constants *)

Definition SOCKS_OPEN : Z := 0.
Definition SOCKS_CONNECT_INIT : Z := 1.
Definition SOCKS_UDP : Z := 3.
Definition SOCKS_COMPLETE : Z := 4.

Definition IDX_COMMAND : Z := 1.
Definition IDX_METHODS : Z := 2.
Definition IDX_ATYP : Z := 3.
Definition IDX_DST_ADDR : Z := 4.

Definition THIS_PROXY_VERSION : Z := 5.
Definition MAX_ADDR_LEN : Z := 32.
Definition PORT_LEN : Z := 2.

(** ** Text *)

(** The decimal digits of a number, and [atoi]; [fuel] bounds the digits of an
    [int]. *)
Fixpoint digits (fuel : nat) (n : Z) : bytes :=
  match fuel with
  | O => []
  | S fuel' => if n <? 10 then [48 + n] else digits fuel' (n / 10) ++ [48 + n mod 10]
  end.

Definition show_int (n : Z) : bytes :=
  if n <? 0 then 45 :: digits 10 (- n) else digits 10 n.

Definition is_digit (b : Z) : bool := (48 <=? b) && (b <=? 57).
Definition is_space (b : Z) : bool := (b =? 32) || ((9 <=? b) && (b <=? 13)).

Fixpoint read_digits (l : bytes) (n : Z) : Z :=
  match l with
  | b :: l' => if is_digit b then read_digits l' (10 * n + (b - 48)) else n
  | [] => n
  end.

Fixpoint skip_space (l : bytes) : bytes :=
  match l with
  | b :: l' => if is_space b then skip_space l' else l
  | [] => []
  end.

Definition atoi (l : bytes) : Z :=
  match skip_space l with
  | 45 :: l' => - read_digits l' 0
  | 43 :: l' => read_digits l' 0
  | l' => read_digits l' 0
  end.

(** [%.16llx] *)
Definition hex_digit (d : Z) : Z := if d <? 10 then 48 + d else 87 + d.
Fixpoint hex (n : nat) (x : Z) : bytes :=
  match n with
  | O => []
  | S n' => hex n' (x / 16) ++ [hex_digit (x mod 16)]
  end.

(** "/networks.d/" and ".port" around the network id. *)
Definition port_file (homepath : bytes) (nwid : Z) : bytes :=
  homepath ++ [47; 110; 101; 116; 119; 111; 114; 107; 115; 46; 100; 47] ++ hex 16 nwid ++
  [46; 112; 111; 114; 116].

Section proxy.
Context {env : Env} {D : Type} {CD : CloseDriver D} {DR : Driver D}.
Context (reclaim : bytes → bytes).

(** ** The server *)

(** The parameter is assigned, not what it points to: the caller's storage is not
    written. *)
Definition getProxyServerAddress : M (tap D) Z :=
  t ← get_app; mret (if 0 <=? t_sockstate t then 0 else -1).

Definition getProxyServerPort : M (tap D) Z :=
  t ← get_app; d ← lift (mem_read 2 2 (t_proxyServerAddress t)); mret (le_val d).

(** [_phy.close] calls its handlers by default. *)
Definition stopProxyServer : M (tap D) Z :=
  t ← get_app;
  if negb (t_proxyListenPhySocket t =? 0) then
    _ ← close close_handlers (t_proxyListenPhySocket t) true; mret 0
  else mret (-1).

(** The port of the server when no address is given (lines 115-136). *)
Definition proxy_port (homepath : bytes) (nwid : Z) : M (tap D) Z :=
  let portFile := port_file homepath nwid in
  b ← ask (ScFileExists portFile);
  if b : bool then
    r ← ask (ScReadFile portFile);
    match r with
    | Some portStr => mret (atoi (c_str portStr))
    | None => mret (-1)
    end
  else
    d ← ask (ScSecureRandom 4);
    let portno := 1000 + le_val d mod 1000 in
    _ ← ask (ScWriteFile portFile (show_int portno));
    mret portno.

Definition listen_on (addr : bytes) : M (tap D) Z :=
  sk ← tcpListen addr 0;
  _ ← mod_app (set_proxyListenPhySocket sk);
  _ ← mod_app (set_sockstate SOCKS_OPEN);
  mret 0.

(** With an address, [tcpListen] is given the address of a local pointer instead of
    the address: 8 bytes with the value of a stack address. *)
Definition startProxyServer (homepath : bytes) (nwid : Z) (addr : option bytes) : M (tap D) Z :=
  match addr with
  | Some addr =>
      a ← lift (mem_read 0 sizeof_sockaddr_storage addr);
      _ ← mod_app (set_proxyServerAddress a);
      in4 ← ask (ScUninit 8);
      listen_on in4
  | None =>
      portno ← proxy_port homepath nwid;
      listen_on (le_bytes 2 AF_INET ++ le_bytes 2 (hton 2 (wrap 16 portno)) ++
                 le_bytes 4 (hton 4 0) ++ memset 8 0)
  end.

(** ** The handshake *)

(** Returns the bytes of the [sockaddr_in]: its family, port and address are
    assigned for the address type 144, the rest is what was in memory.  The name is
    made a string, which needs a NUL inside its array. *)
Definition ExtractAddress (addr_type : Z) (buf addr : bytes) : M (tap D) bytes :=
  if addr_type =? 144 then
    l ← lift (mem_read IDX_DST_ADDR 1 buf);
    let domain_len := le_val l in
    addr_ ← lift (mem_copy 0 (memset MAX_ADDR_LEN 0) (IDX_DST_ADDR + 1) domain_len buf);
    p ← lift (mem_read (IDX_DST_ADDR + 1 + domain_len) PORT_LEN buf);
    let port_ := hton 2 (le_val p) in
    addr ← lift (mem_write 0 (le_bytes 2 AF_INET) addr);
    addr ← lift (mem_write 2 (le_bytes 2 port_) addr);
    if zlen (c_str addr_) <? MAX_ADDR_LEN then
      s_addr ← ask (ScInetAddr (c_str addr_));
      lift (mem_write 4 (le_bytes 4 s_addr) addr)
    else undef OutOfBounds
  else mret addr.

(** [handleSocketProxy] and [handleConnectProxy] of tap.cpp do nothing. *)
Definition handleSocketProxy (sock socket_type : Z) : M (tap D) Z := mret 0.
Definition handleConnectProxy (sock : Z) (rawAddr : bytes) : M (tap D) Z := mret (-1).

(** Byte [i] of the message. *)
Definition byte_at (i : Z) (buf : bytes) : M (tap D) Z :=
  d ← lift (mem_read i 1 buf); mret (le_val d).

(** Data on an established connection (lines 182-188). *)
Definition socks_data (conn : Z) (buf : bytes) (len : Z) : M (tap D) unit :=
  if negb (len =? 0) then
    _ ← copy_tx_scaled conn 0 len buf;
    _ ← upd_conn conn (λ c, set_txsz (c_txsz c + len) c);
    handleWrite conn
  else mret tt.

(** The method selection (lines 211-240). *)
Definition socks_open (sock conn : Z) (buf : bytes) (len : Z) : M (tap D) unit :=
  if 3 <=? len then
    firstSupportedMethod ← byte_at IDX_METHODS buf;
    let supportedMethod := if firstSupportedMethod =? 2 then firstSupportedMethod else 0 in
    _ ← streamSend close_handlers sock [THIS_PROXY_VERSION; supportedMethod] true;
    upd_conn conn (set_proxy_conn_state SOCKS_CONNECT_INIT)
  else mret tt.

(** The reply to a CONNECT request (lines 330-342). *)
Definition connect_reply (buf addr : bytes) (len domain_len : Z) : cres bytes :=
  r ← mem_copy IDX_DST_ADDR (memset len 0) IDX_DST_ADDR domain_len buf;
  r ← mem_write 0 [THIS_PROXY_VERSION; 0; 0; 144] r;
  r ← mem_write IDX_DST_ADDR [wrap 8 domain_len] r;
  p ← mem_read 2 PORT_LEN addr;
  mem_write (IDX_DST_ADDR + domain_len) p r.

(** The CONNECT request (lines 301-347). *)
Definition socks_connect (sock conn : Z) (buf : bytes) (len addr_type : Z) : M (tap D) unit :=
  if addr_type =? 144 then
    domain_len ← byte_at IDX_DST_ADDR buf;
    g ← ask (ScUninit sizeof_sockaddr_in);
    addr ← ExtractAddress addr_type buf g;
    _ ← handleSocketProxy sock SOCK_STREAM;
    _ ← handleConnectProxy sock addr;
    reply ← lift (connect_reply buf addr len domain_len);
    _ ← streamSend close_handlers sock reply true;
    upd_conn conn (set_proxy_conn_state SOCKS_COMPLETE)
  else mret tt.

(** The UDP association (lines 357-402).  The text is read up to its first NUL,
    which must be inside the array. *)
Definition socks_udp (sock conn : Z) (buf : bytes) : M (tap D) unit :=
  domain_len ← byte_at 4 buf;
  raw_addr ← lift (mem_read 5 domain_len buf);
  if zlen (c_str raw_addr) <? domain_len then
    let del := Prelude.find [58] (c_str raw_addr) in
    let port := drop (Z.to_nat (del + 1)) (c_str raw_addr) in
    let ip := if del =? -1 then c_str raw_addr else take (Z.to_nat del) (c_str raw_addr) in
    _ ← handleSocketProxy sock SOCK_DGRAM;
    s_addr ← ask (ScInetAddr ip);
    let addr := le_bytes 2 AF_INET ++ le_bytes 2 (hton 2 (wrap 16 (atoi port))) ++
                le_bytes 4 s_addr ++ memset 8 48 in
    _ ← handleConnectProxy sock addr;
    upd_conn conn (set_proxy_conn_state SOCKS_UDP)
  else undef OutOfBounds.

(** The request (lines 249-409). *)
Definition socks_request (sock conn : Z) (buf : bytes) (len : Z) : M (tap D) unit :=
  if 10 <=? len then
    cmd ← byte_at IDX_COMMAND buf;
    addr_type ← byte_at IDX_ATYP buf;
    _ ← when (cmd =? 1) (socks_connect sock conn buf len addr_type);
    when (cmd =? 3) (socks_udp sock conn buf)
  else mret tt.

(** The state is read again before each test, so that one message can pass through
    several of them. *)
Definition tap_phyOnTcpData (sock : Z) (buf : bytes) (len : Z) : M (tap D) unit :=
  conn ← getConnection sock;
  if conn =? 0 then mret tt
  else
    c ← deref_conn conn;
    _ ← when (c_proxy_conn_state c =? SOCKS_COMPLETE) (socks_data conn buf len);
    c ← deref_conn conn;
    _ ← when (c_proxy_conn_state c =? SOCKS_OPEN) (socks_open sock conn buf len);
    c ← deref_conn conn;
    when (c_proxy_conn_state c =? SOCKS_CONNECT_INIT) (socks_request sock conn buf len).

Definition tap_phyOnTcpAccept (sockL sockN : Z) (from : bytes) : M (tap D) unit :=
  n ← new_conn;
  _ ← upd_conn n (set_sock sockN);
  _ ← setNotifyWritable sockN false;
  push_conn n.

Definition tap_phyOnDatagram (sock : Z) (local_address from data : bytes) : M (tap D) unit :=
  let len := zlen data in
  if negb (len =? 0) then
    conn ← getConnection sock;
    if conn =? 0 then mret tt
    else
      _ ← copy_tx_scaled conn 0 len data;
      _ ← upd_conn conn (λ c, set_txsz (c_txsz c + len) c);
      handleWrite conn
  else mret tt.

Definition tap_phyOnTcpWritable (sock : Z) (lwip_invoked : bool) : M (tap D) unit :=
  handleRead sock true.

(** The tap as the I/O loop sees it. *)
Definition tap_handler : phy_handler (tap D) :=
  PhyHandler tap_phyOnDatagram tap_phyOnTcpConnect tap_phyOnTcpAccept tap_phyOnTcpClose
    tap_phyOnTcpData tap_phyOnTcpWritable tap_phyOnUnixClose (tap_phyOnUnixData reclaim)
    tap_phyOnUnixWritable.
End proxy.

(** ** The handler object keeps the table and the mutexes in order *)

Section proxy_ok.
Context {env : Env} {D : Type} {CD : CloseDriver D} {DR : Driver D}.
Context (reclaim : bytes → bytes).

Section keeps.
Context {CT : CloseDriverTable CD} {DT : DriverTable DR}.

Lemma table_keeps_byte_at i buf : keeps (on_app (table_wf None)) (byte_at (D:=D) i buf).
Proof. unfold byte_at. table_walk. Qed.

Lemma table_keeps_tx_copy conn soff n data :
  keeps (on_app (table_wf None)) (copy_tx_scaled (D:=D) conn soff n data).
Proof. unfold copy_tx_scaled. table_walk. Qed.
#[local] Hint Resolve table_keeps_byte_at table_keeps_tx_copy : zt_keeps.

Lemma table_keeps_socks_connect sock conn buf len ty :
  keeps (on_app (table_wf None)) (socks_connect (D:=D) sock conn buf len ty).
Proof. unfold socks_connect, ExtractAddress, handleSocketProxy, handleConnectProxy. table_walk. Qed.

Lemma table_keeps_socks_udp sock conn buf :
  keeps (on_app (table_wf None)) (socks_udp (D:=D) sock conn buf).
Proof. unfold socks_udp, handleSocketProxy, handleConnectProxy. table_walk. Qed.
#[local] Hint Resolve table_keeps_socks_connect table_keeps_socks_udp : zt_keeps.

Lemma table_keeps_phyOnTcpData sock buf len :
  keeps (on_app (table_wf None)) (tap_phyOnTcpData (D:=D) sock buf len).
Proof. unfold tap_phyOnTcpData, socks_data, socks_open, socks_request, handleWrite. table_walk. Qed.

Lemma table_keeps_phyOnTcpAccept a b f :
  keeps (on_app (table_wf None)) (tap_phyOnTcpAccept (D:=D) a b f).
Proof.
  unfold tap_phyOnTcpAccept. apply table_keeps_new_conn. intros n.
  apply leads_bind; [apply table_keeps_upd; conn_ok_tac|]. intros _.
  apply leads_bind; [eauto with zt_keeps|]. intros _ s Hs. by apply table_wf_push.
Qed.

#[export] Instance tap_handler_keeps : HandlerKeeps (table_wf None) (tap_handler reclaim).
Proof.
  split; intros; simpl; eauto 2 using table_keeps_phyOnTcpData, table_keeps_phyOnTcpAccept
    with zt_keeps.
  - destruct (close_handlers_keep (CD:=CD) None) as [Hc Ht Hu]. by split.
  - unfold tap_phyOnDatagram, handleWrite. table_walk.
Qed.

(** The calls from outside the loop. *)
Lemma table_keeps_addIp ip : keeps (on_app (table_wf None)) (addIp (D:=D) ip).
Proof. unfold addIp. table_walk. Qed.

Lemma table_keeps_removeIp ip : keeps (on_app (table_wf None)) (removeIp (D:=D) ip).
Proof. unfold removeIp. table_walk. Qed.

Lemma table_keeps_scan : keeps (on_app (table_wf None)) (scanMulticastGroups (D:=D)).
Proof. unfold scanMulticastGroups, ips. table_walk. Qed.

Lemma table_keeps_enable b : keeps (on_app (table_wf None)) (setEnabled (D:=D) b).
Proof. unfold setEnabled. table_walk. Qed.

Lemma table_keeps_startProxy path nwid a :
  keeps (on_app (table_wf None)) (startProxyServer (D:=D) path nwid a).
Proof. unfold startProxyServer, proxy_port, listen_on, tcpListen, add_sock. table_walk. Qed.

Lemma table_keeps_stopProxy : keeps (on_app (table_wf None)) (stopProxyServer (D:=D)).
Proof. unfold stopProxyServer. table_walk. Qed.
End keeps.

Section locks.
Context {CL : CloseDriverLocks CD} {DL : DriverLocks DR} {HS : SendsRecover env}.

Lemma balanced_byte_at F i buf : balanced F (byte_at (D:=D) i buf).
Proof. unfold byte_at. balanced_walk. Qed.

Lemma pure_ok_connect_reply buf addr len n : pure_ok (connect_reply buf addr len n).
Proof. unfold connect_reply. eauto 20 with zt_locks nocore. Qed.
#[local] Hint Resolve balanced_byte_at pure_ok_connect_reply : zt_locks.

Lemma balanced_phyOnTcpData sock buf len : balanced all_m (tap_phyOnTcpData (D:=D) sock buf len).
Proof.
  unfold tap_phyOnTcpData, socks_data, socks_open, socks_request, socks_connect, socks_udp,
    ExtractAddress, handleSocketProxy, handleConnectProxy, copy_tx_scaled, handleWrite.
  balanced_walk.
Qed.

#[export] Instance tap_handler_locks : HandlerLocks all_m (tap_handler reclaim).
Proof.
  split; intros; simpl;
    eauto 2 using balanced_phyOnTcpData, balanced_phyOnUnixData, balanced_phyOnUnixWritable.
  - apply balanced_ret.
  - unfold tap_phyOnTcpClose. balanced_walk.
  - unfold tap_phyOnUnixClose. balanced_walk.
  - unfold tap_phyOnDatagram, copy_tx_scaled, handleWrite. balanced_walk.
  - unfold tap_phyOnTcpAccept. balanced_walk.
  - unfold tap_phyOnTcpWritable, handleRead. balanced_walk.
Qed.
End locks.
End proxy_ok.
