(* ===== verification/Pico.v ===== *)
(** * The picoTCP driver (src/stack_drivers/picotcp/picotcp.cpp)

    The IPv4 build of the driver.  The stack itself is loaded as a shared object;
    its functions are calls of the environment ([Pico...] of Svc.v), and it calls
    the driver back through [pico_eth_send], [pico_eth_poll] and
    [pico_cb_socket_activity].  The global [picotap], which the functions use
    instead of a parameter, is null until the first address is added
    ([picotap_set]). *)

From S2P Require Import Prelude Svc Phy Rpc Addr Conn Tap Proxy.
From stdpp Require Import base numbers list gmap sets option.

Open Scope Z_scope.

(** ** State and constants *)

Record pico := PicoState {
  picotap_set : bool;
  pico_frame_rxbuf : bytes;
  pico_frame_rxbuf_tot : Z
}.

Definition MAX_PICO_FRAME_RX_BUF_SZ : Z := ZT_MAX_MTU * 128.
#[global] Arguments MAX_PICO_FRAME_RX_BUF_SZ : simpl never.

Definition sizeof_pico_eth_hdr : Z := 14.

Definition PICO_SOCK_EV_RD : Z := 1.
Definition PICO_SOCK_EV_WR : Z := 2.
Definition PICO_SOCK_EV_CONN : Z := 4.
Definition PICO_SOCK_EV_CLOSE : Z := 8.

Definition PICO_ERR_ENXIO : Z := 6.
Definition PICO_ERR_ENOMEM : Z := 12.
Definition PICO_ERR_EINVAL : Z := 22.
Definition PICO_ERR_EISCONN : Z := 106.

Definition PICO_PROTO_IPV4 : Z := 0.
Definition PICO_PROTO_TCP : Z := 6.
Definition PICO_PROTO_UDP : Z := 17.

(** The members of a [sockaddr_in] inside an argument structure.  The driver prints
    the address and lets the stack parse it again; the model passes its bytes. *)
Definition arg_port (a : bytes) : cres Z := d ← mem_read (OFF_addr + 2) 2 a; Ok (le_val d).
Definition arg_ip (a : bytes) : cres bytes := mem_read (OFF_addr + 4) 4 a.

Section pico.
Context {env : Env}.

(** A use of [picotap->...]. *)
Definition picotap : M (tap pico) (tap pico) :=
  t ← get_app;
  if picotap_set (t_drv t) then mret t else undef NullPointer.

Definition mod_drv (f : pico → pico) : M (tap pico) unit :=
  mod_app (λ t, set_drv (f (t_drv t)) t).

Definition set_rxq (b : bytes) (tot : Z) (p : pico) : pico := PicoState (picotap_set p) b tot.

(** A call through a wrapper that holds the mutex of the stack.  The wrappers of the
    functions that the callbacks use do not take it. *)
Definition pico_call {R : Type} (c : Svc.sc R) : M (tap pico) R := locked pico_m (ask c).

(** ** Frames *)

(** [pico_eth_send]: a frame from the stack goes to the node. *)
Definition pico_eth_send (buf : bytes) (len : Z) : M (tap pico) Z :=
  daddr ← lift (mem_read 0 6 buf);
  saddr ← lift (mem_read 6 6 buf);
  proto ← lift (mem_read 12 2 buf);
  src_mac ← lift (MAC.setTo saddr 6);
  dest_mac ← lift (MAC.setTo daddr 6);
  t ← picotap;
  payload ← lift (mem_read sizeof_pico_eth_hdr (len - sizeof_pico_eth_hdr) buf);
  _ ← ask (ScHandler (t_nwid t) src_mac dest_mac (ntoh 2 (le_val proto)) payload);
  mret len.

(** The header in front of a frame, as it lies in memory. *)
Definition eth_hdr (from to etherType : Z) : bytes :=
  MAC.octets to ++ MAC.octets from ++ le_bytes 2 (hton 2 (wrap 16 etherType)).

(** The loop that empties the frame buffer (lines 385-396).  It ends after one
    iteration unless the frame is larger than the whole buffer. *)
Fixpoint pico_make_room (fuel : nat) (newlen proto : Z) : M (tap pico) unit :=
  match fuel with
  | O => undef OutOfFuel
  | S fuel' =>
      t ← get_app;
      if (MAX_PICO_FRAME_RX_BUF_SZ - pico_frame_rxbuf_tot (t_drv t) <? newlen) && (proto =? 56710)
      then
        _ ← picotap;
        _ ← mod_drv (set_rxq (memset MAX_PICO_FRAME_RX_BUF_SZ 0) 0);
        pico_make_room fuel' newlen proto
      else mret tt
  end.

(** [pico_rx]: a frame from the node is queued for the stack. *)
Definition pico_rx (from to etherType : Z) (data : bytes) : M (tap pico) unit :=
  locked pico_frame_rxbuf_m (
    let len := zlen data in
    let ethhdr := eth_hdr from to etherType in
    let newlen := len + sizeof_int + sizeof_pico_eth_hdr in
    _ ← pico_make_room 2 newlen (hton 2 (wrap 16 etherType));
    t ← get_app;
    let tot := pico_frame_rxbuf_tot (t_drv t) in
    b ← lift (mem_write tot (le_bytes 4 newlen) (pico_frame_rxbuf (t_drv t)));
    b ← lift (mem_write (tot + sizeof_int) ethhdr b);
    b ← lift (mem_write (tot + sizeof_int + sizeof_pico_eth_hdr) data b);
    mod_drv (set_rxq b (tot + newlen))).

(** The loop of [pico_eth_poll]; [score] is [loop_score].  A negative length makes
    the program exit. *)
Fixpoint pico_poll_loop (score : nat) : M (tap pico) Z :=
  match score with
  | O => mret 0
  | S score' =>
      t ← picotap;
      let p := t_drv t in
      if 0 <? pico_frame_rxbuf_tot p then
        len ← lift (get_int 0 (pico_frame_rxbuf p));
        if 0 <=? len then
          frame ← lift (mem_copy 0 (memset SDK_MTU 0) sizeof_int (len - sizeof_int) (pico_frame_rxbuf p));
          rest ← lift (mem_read len (MAX_PICO_FRAME_RX_BUF_SZ - len) (pico_frame_rxbuf p));
          b ← lift (mem_write 0 rest (pico_frame_rxbuf p));
          _ ← mod_drv (set_rxq b (pico_frame_rxbuf_tot p));
          _ ← ask (PicoStackRecv (take (Z.to_nat (len - sizeof_int)) frame));
          _ ← mod_drv (λ p, set_rxq (pico_frame_rxbuf p) (pico_frame_rxbuf_tot p - len) p);
          pico_poll_loop score'
        else undef Exited
      else mret (Z.of_nat score)
  end.

Definition pico_eth_poll (loop_score : Z) : M (tap pico) Z :=
  _ ← picotap;
  locked pico_frame_rxbuf_m (
    if 0 <? loop_score then pico_poll_loop (Z.to_nat loop_score) else mret loop_score).

(** ** Interface *)

Definition pico_init_interface (ip : bytes) : M (tap pico) unit :=
  t ← picotap;
  if has_ip ip (t_ips t) then mret tt
  else
    _ ← mod_app (set_ips (sort InetAddress.ltb (t_ips t ++ [ip])));
    if InetAddress.isV4 ip then
      nm ← lift (InetAddress.netmask ip);
      r ← pico_call (PicoDeviceInit (MAC.octets (t_mac t)));
      if negb (r =? 0) then mret tt
      else
        _ ← ask (PicoLinkAdd (InetAddress.fld 4 4 ip) (InetAddress.fld 4 4 nm)); mret tt
    else mret tt.

(** [addIp] sets [picotap] before it calls [pico_init_interface]. *)
Definition pico_addIp (ip : bytes) : M (tap pico) unit :=
  _ ← mod_drv (λ p, PicoState true (pico_frame_rxbuf p) (pico_frame_rxbuf_tot p));
  pico_init_interface ip.

(** ** Closing *)

(** [pico_handleClose] has an empty body. *)
Definition pico_handleClose (sock : Z) : M (tap pico) unit := mret tt.

#[global] Instance pico_close : CloseDriver pico := {|
  drv_preClose := pico_handleClose;
  drv_handleClose := λ _ _, mret tt
|}.

(** ** Transmission *)

Definition pico_handleWrite (conn : Z) : M (tap pico) unit :=
  if conn =? 0 then mret tt
  else
    c ← deref_conn conn;
    if c_picosock c =? 0 then mret tt
    else
      let max_write_len := if c_txsz c <? SDK_MTU then c_txsz c else SDK_MTU in
      _ ← picotap;
      d ← lift (mem_read 0 max_write_len (c_txbuf c));
      r ← ask (PicoSocketWrite (c_picosock c) d);
      if r <? 0 then mret tt else tx_advance conn r.

Definition pico_cb_tcp_write (s : Z) : M (tap pico) unit :=
  conn ← getConnection_pico s;
  c ← deref_conn conn;
  if c_txsz c =? 0 then mret tt
  else if 0 <? c_txsz c then
    let max_write_len := if c_txsz c <? SDK_MTU then c_txsz c else SDK_MTU in
    d ← lift (mem_read 0 max_write_len (c_txbuf c));
    r ← ask (PicoSocketWrite s d);
    if r <? 0 then mret tt else tx_advance conn r
  else mret tt.

(** ** Reception *)

(** The loop over a datagram (lines 688-702): [tot] bytes were sent so far.  Returns
    the last [n]. *)
Fixpoint pico_send_dgram (fuel : nat) (conn tot write_attempts : Z) : M (tap pico) Z :=
  match fuel with
  | O => undef OutOfFuel
  | S fuel' =>
      c ← deref_conn conn;
      d ← lift (mem_read tot SDK_MTU (c_rxbuf c));
      n ← streamSend close_handlers (c_sock c) d true;
      e ← ask ScErrno;
      let drop := (e =? 35) && (write_attempts + 1 =? 1024) in
      let n := if drop then SDK_MTU else n in
      let tot := if drop then SDK_MTU else tot + n in
      if tot <? SDK_MTU then pico_send_dgram fuel' conn tot (write_attempts + 1) else mret n
  end.

(** The body of [pico_handleRead] between the locks. *)
Definition pico_drain (fuel : nat) (sock : Z) : M (tap pico) unit :=
  _ ← picotap;
  conn ← getConnection sock;
  if conn =? 0 then mret tt
  else
    c ← deref_conn conn;
    if c_rxsz c =? 0 then mret tt
    else
      n ← (if c_type c =? SOCK_DGRAM then
             n ← pico_send_dgram fuel conn 0 0;
             c ← deref_conn conn;
             _ ← when (0 <? c_rxsz c - n)
                   (b ← lift (mem_copy 0 (c_rxbuf c) SDK_MTU (c_rxsz c - SDK_MTU) (c_rxbuf c));
                    upd_conn conn (set_rxbuf b));
             _ ← upd_conn conn (λ c, set_rxsz (c_rxsz c - SDK_MTU) c);
             mret n
           else if c_type c =? SOCK_STREAM then
             d ← lift (mem_read 0 (c_rxsz c) (c_rxbuf c));
             n ← streamSend close_handlers (c_sock c) d true;
             c ← deref_conn conn;
             _ ← when (0 <? c_rxsz c - n)
                   (b ← lift (mem_copy 0 (c_rxbuf c) n (c_rxsz c - n) (c_rxbuf c));
                    upd_conn conn (set_rxbuf b));
             _ ← upd_conn conn (λ c, set_rxsz (c_rxsz c - n) c);
             mret n
           else mret (-1));
      c ← deref_conn conn;
      if negb (n =? 0) then setNotifyWritable sock (negb (c_rxsz c =? 0))
      else setNotifyWritable sock false.

Definition pico_handleRead (fuel : nat) (sock : Z) (lwip_invoked : bool) : M (tap pico) unit :=
  if lwip_invoked then pico_drain fuel sock
  else
    _ ← picotap;
    _ ← lock tcpconns_m;
    _ ← lock rx_buf_m;
    _ ← pico_drain fuel sock;
    _ ← unlock tcpconns_m;
    unlock rx_buf_m.

(** [pico_cb_tcp_read]; [r] is the variable of the loop, [None] before it is set. *)
Fixpoint pico_read_loop (fuel : nat) (conn s : Z) (r : option Z) : M (tap pico) unit :=
  match fuel with
  | O => undef OutOfFuel
  | S fuel' =>
      c ← deref_conn conn;
      let avail := DEFAULT_TCP_RX_BUF_SZ - c_rxsz c in
      if negb (avail =? 0) then
        '(r, d) ← ask (PicoSocketRecvfrom s SDK_MTU);
        b ← lift (mem_write (c_rxsz c) d (c_rxbuf c));
        _ ← upd_conn conn (set_rxbuf b);
        _ ← setNotifyWritable (c_sock c) true;
        if 0 <? r then
          _ ← upd_conn conn (λ c, set_rxsz (c_rxsz c + r) c);
          pico_read_loop fuel' conn s (Some r)
        else mret tt
      else
        r ← match r with
            | Some r => mret r
            | None => g ← ask (ScUninit 4); mret (swrap 32 (le_val g))
            end;
        if 0 <? r then pico_read_loop fuel' conn s (Some r) else mret tt
  end.

Definition pico_cb_tcp_read (fuel : nat) (s : Z) : M (tap pico) unit :=
  conn ← getConnection_pico s;
  if conn =? 0 then mret tt else pico_read_loop fuel conn s None.

(** [pico_cb_udp_read].  The address is taken from a [sockaddr_in] of which only the
    port was assigned, and 128 bytes are copied from its 16: those bytes are
    [ScUninit]. *)
Definition pico_cb_udp_read (fuel : nat) (s : Z) : M (tap pico) unit :=
  conn ← getConnection_pico s;
  if conn =? 0 then mret tt
  else
    g ← ask (ScUninit sizeof_sockaddr_storage);
    addr_in ← lift (mem_write 2 (le_bytes 2 0) g);
    tmp ← ask (ScUninit SDK_MTU);
    '(r, d) ← ask (PicoSocketRecvfrom s SDK_MTU);
    tmpbuf ← lift (mem_write 0 d tmp);
    _ ← picotap;
    _ ← locked rx_buf_m (
      c ← deref_conn conn;
      addr_pos ←
        (if c_rxsz c =? DEFAULT_UDP_RX_BUF_SZ then
           b ← lift (mem_copy 0 (c_rxbuf c) SDK_MTU (DEFAULT_UDP_RX_BUF_SZ - SDK_MTU) (c_rxbuf c));
           _ ← upd_conn conn (λ c, set_rxsz (c_rxsz c - SDK_MTU) (set_rxbuf b c));
           mret (DEFAULT_UDP_RX_BUF_SZ - SDK_MTU)
         else mret (c_rxsz c));
      let sz_pos := addr_pos + sizeof_sockaddr_storage in
      let payload_pos := addr_pos + sizeof_sockaddr_storage + sizeof_int in
      c ← deref_conn conn;
      b ← lift (mem_write addr_pos addr_in (c_rxbuf c));
      b ← lift (mem_copy payload_pos b 0 r tmpbuf);
      b ← lift (if negb (r =? 0) then mem_write sz_pos (le_bytes 4 r) b else Ok b);
      upd_conn conn (λ c,
        set_rxsz (if negb (r =? 0) then c_rxsz c + SDK_MTU else c_rxsz c) (set_rxbuf b c)));
    if negb (r =? 0) then
      c ← deref_conn conn; pico_handleRead fuel (c_sock c) true
    else mret tt.

(** ** Socket events *)

(** A connection was established (lines 269-296).  [socketpair] may fail; the test
    for it cannot be true, and the descriptors are then whatever was in [fds]. *)
Definition pico_accept (s conn : Z) : M (tap pico) unit :=
  client ← ask (PicoSocketAccept s);
  '(r, fd0, fd1) ← ask ScSocketpair;
  e ← (if r <? 0 then ask ScErrno else mret 0);
  if (r <? 0) && (e <? 0) then mret tt
  else
    n ← new_conn;
    _ ← push_conn n;
    _ ← upd_conn n (set_conn_type SOCK_STREAM);
    sk ← wrapSocket fd0 n;
    _ ← upd_conn n (set_sock sk);
    _ ← upd_conn n (set_picosock client);
    c ← deref_conn conn;
    fd ← getDescriptor (c_sock c);
    _ ← ask (ScSendmsg fd [0] (if fd1 =? -1 then None else Some fd1));
    mret tt.

Definition has_ev (ev b : Z) : bool := negb (Z.land ev b =? 0).

Definition pico_cb_socket_activity (fuel : nat) (ev s : Z) : M (tap pico) unit :=
  _ ← picotap;
  locked tcpconns_m (
    conn ← getConnection_pico s;
    _ ← when (has_ev ev PICO_SOCK_EV_CONN) (pico_accept s conn);
    if has_ev ev PICO_SOCK_EV_CLOSE then
      err ← ask (PicoSocketClose s);
      if err =? 0 then c ← deref_conn conn; closeConnection (c_sock c) else mret tt
    else
      _ ← when (has_ev ev PICO_SOCK_EV_RD)
            (c ← deref_conn conn;
             _ ← when (c_type c =? SOCK_STREAM) (pico_cb_tcp_read fuel s);
             c ← deref_conn conn;
             when (c_type c =? SOCK_DGRAM) (pico_cb_udp_read fuel s));
      when (has_ev ev PICO_SOCK_EV_WR) (pico_cb_tcp_write s)).

(** ** RPC handlers *)

(** [psock] is uninitialised for a type that is neither of the two.  The clearing
    of [rxbuf] (line 488) has nothing to do on a new object. *)
Definition pico_handleSocket (sock : Z) (socket_rpc : bytes) : M (tap pico) Z :=
  type ← lift (get_int OFF_socket_type socket_rpc);
  psock ← (if type =? SOCK_DGRAM then _ ← picotap; ask (PicoSocketOpen PICO_PROTO_IPV4 PICO_PROTO_UDP)
           else if type =? SOCK_STREAM then
             _ ← picotap; ask (PicoSocketOpen PICO_PROTO_IPV4 PICO_PROTO_TCP)
           else g ← ask (ScUninit 8); mret (le_val g));
  if psock =? 0 then mret 0
  else
    n ← new_conn;
    node ← deref sock;
    _ ← mod_phy (phy_set_node sock (set_uptr n node));
    _ ← upd_conn n (λ c, set_picosock psock (set_local_addr 0 (set_sock sock (set_conn_type type c))));
    _ ← picotap;
    _ ← push_conn n;
    mret n.

(** [memcpy(&(conn->peer_addr), addr, 128)]: the copy starts at the pointer member
    and runs over [port] and the first 118 bytes of [txbuf]. *)
Definition smash_peer_addr (d : bytes) (c : Connection) : Connection :=
  set_peer_addr (le_val (take 8 d)) (set_port (le_val (take 2 (drop 8 d)))
    (set_txbuf (drop 10 d ++ drop 118 (c_txbuf c)) c)).

Definition pico_handleConnect (sock rpcSock conn : Z) (connect_rpc : bytes) : M (tap pico) unit :=
  c ← deref_conn conn;
  if c_picosock c =? 0 then mret tt
  else
    zaddr ← lift (arg_ip connect_rpc);
    port ← lift (arg_port connect_rpc);
    _ ← picotap;
    _ ← pico_call (PicoSocketConnect (c_picosock c) zaddr port);
    addr ← lift (mem_read OFF_addr sizeof_sockaddr_storage connect_rpc);
    _ ← upd_conn conn (smash_peer_addr addr);
    fd ← getDescriptor rpcSock;
    _ ← sendReturnValue fd 0 ERR_OK; mret tt.

Definition pico_handleBind (sock rpcSock : Z) (bind_rpc : bytes) : M (tap pico) unit :=
  _ ← picotap;
  conn ← getConnection sock;
  if sock =? 0 then mret tt
  else
    zaddr ← lift (arg_ip bind_rpc);
    port ← lift (arg_port bind_rpc);
    c ← deref_conn conn;
    ret ← pico_call (PicoSocketBind (c_picosock c) zaddr port);
    let reply v e := (fd ← getDescriptor rpcSock; _ ← sendReturnValue fd v e; mret tt) in
    _ ← when (ret <? 0)
          (_ ← when (ret =? PICO_ERR_EINVAL) (reply (-1) EINVAL);
           _ ← when (ret =? PICO_ERR_ENOMEM) (reply (-1) ENOMEM);
           when (ret =? PICO_ERR_ENXIO) (reply (-1) ENXIO));
    reply ERR_OK ERR_OK.

Definition pico_handleListen (sock rpcSock : Z) (listen_rpc : bytes) : M (tap pico) unit :=
  _ ← picotap;
  conn ← getConnection sock;
  if (sock =? 0) || (conn =? 0) then mret tt
  else
    c ← deref_conn conn;
    ret ← pico_call (PicoSocketListen (c_picosock c) 100);
    let reply v e := (fd ← getDescriptor rpcSock; _ ← sendReturnValue fd v e; mret tt) in
    _ ← when (ret <? 0)
          (_ ← when (ret =? PICO_ERR_EINVAL) (reply (-1) EINVAL);
           when (ret =? PICO_ERR_EISCONN) (reply (-1) EISCONN));
    reply ERR_OK ERR_OK.

(** The driver as the tap sees it; [fuel] bounds the datagram loop. *)
Definition pico_driver (fuel : nat) : Driver pico := {|
  drv_handleSocket := pico_handleSocket;
  drv_handleConnect := pico_handleConnect;
  drv_handleBind := pico_handleBind;
  drv_handleListen := pico_handleListen;
  drv_handleRead := pico_handleRead fuel;
  drv_handleWrite := pico_handleWrite;
  drv_initInterface := pico_addIp;
  drv_rx := pico_rx
|}.

(** ** The loop of the tap thread *)

Definition ZT_PHY_POLL_INTERVAL : Z := 50.

Definition run_pico_act (fuel : nat) (a : pico_act) : M (tap pico) unit :=
  match a with
  | ActEthSend frame => _ ← pico_eth_send frame (zlen frame); mret tt
  | ActEthPoll loop_score => _ ← pico_eth_poll loop_score; mret tt
  | ActSocket ev s => pico_cb_socket_activity fuel ev s
  end.

Fixpoint run_pico_acts (fuel : nat) (l : list pico_act) : M (tap pico) unit :=
  match l with
  | [] => mret tt
  | a :: l' => _ ← run_pico_act fuel a; run_pico_acts fuel l'
  end.

(** [__pico_stack_tick]: the stack calls back with its mutex held. *)
Definition pico_tick (fuel : nat) : M (tap pico) unit :=
  locked pico_m (acts ← ask PicoTick; run_pico_acts fuel acts).

Definition pico_round (reclaim : bytes → bytes) (fuel : nat) : M (tap pico) unit :=
  _ ← poll (tap_handler (DR:=pico_driver fuel) reclaim) fuel ZT_PHY_POLL_INTERVAL;
  pico_tick fuel.

(** [pico_loop]; [rounds] bounds the number of rounds, [fuel] the loops inside. *)
Fixpoint pico_loop (reclaim : bytes → bytes) (fuel rounds : nat) : M (tap pico) unit :=
  match rounds with
  | O => undef OutOfFuel
  | S rounds' =>
      t ← get_app;
      if t_run t then _ ← pico_round reclaim fuel; pico_loop reclaim fuel rounds' else mret tt
  end.
End pico.

(** ** What the driver promises to the tap *)

Lemma smash_peer_addr_ok a d c :
  mem_read OFF_addr sizeof_sockaddr_storage a = Ok d → conn_ok c → conn_ok (smash_peer_addr d c).
Proof.
  intros Hd%mem_read_zlen [Ht Hr]. split; [|done]. simpl. unfold zlen in *.
  rewrite length_app, !length_drop. unfold sizeof_sockaddr_storage, DEFAULT_TCP_TX_BUF_SZ in *. lia.
Qed.

#[local] Hint Resolve smash_peer_addr_ok : zt_conn.

Section pico_table.
Context {env : Env}.

Lemma table_keeps_picotap e : keeps (on_app (table_wf e)) picotap.
Proof. unfold picotap. table_walk. Qed.

Lemma table_keeps_mod_drv e f : keeps (on_app (table_wf e)) (mod_drv f).
Proof. unfold mod_drv. table_walk. Qed.

Lemma table_keeps_pico_call {R : Type} e (c : Svc.sc R) : keeps (on_app (table_wf e)) (pico_call c).
Proof. unfold pico_call. table_walk. Qed.
#[local] Hint Resolve table_keeps_picotap table_keeps_mod_drv table_keeps_pico_call : zt_keeps.

#[export] Instance pico_close_table : CloseDriverTable pico_close.
Proof. split; intros; apply keeps_ret. Qed.

Lemma table_keeps_send_dgram fuel conn tot w :
  keeps (on_app (table_wf None)) (pico_send_dgram fuel conn tot w).
Proof. revert tot w; induction fuel as [|fuel IH]; simpl; table_walk; apply IH. Qed.
#[local] Hint Resolve table_keeps_send_dgram : zt_keeps.

Lemma table_keeps_pico_handleRead fuel sock b :
  keeps (on_app (table_wf None)) (pico_handleRead fuel sock b).
Proof. unfold pico_handleRead, pico_drain. table_walk. Qed.

Lemma table_keeps_pico_handleWrite conn : keeps (on_app (table_wf None)) (pico_handleWrite conn).
Proof. unfold pico_handleWrite. table_walk. Qed.

Lemma table_keeps_pico_handleSocket sock a :
  keeps (on_app (table_wf None)) (pico_handleSocket sock a).
Proof. unfold pico_handleSocket. table_walk. Qed.

Lemma table_keeps_pico_handleConnect sock rpc conn a :
  keeps (on_app (table_wf None)) (pico_handleConnect sock rpc conn a).
Proof. unfold pico_handleConnect. table_walk. Qed.

Lemma table_keeps_make_room fuel newlen proto :
  keeps (on_app (table_wf None)) (pico_make_room fuel newlen proto).
Proof. induction fuel as [|fuel IH]; simpl; table_walk; apply IH. Qed.

Lemma table_keeps_poll_loop score : keeps (on_app (table_wf None)) (pico_poll_loop score).
Proof. induction score as [|score IH]; simpl; table_walk; apply IH. Qed.

Lemma table_keeps_read_loop fuel conn s r :
  keeps (on_app (table_wf None)) (pico_read_loop fuel conn s r).
Proof. revert r; induction fuel as [|fuel IH]; simpl; table_walk; apply IH. Qed.
#[local] Hint Resolve table_keeps_pico_handleRead table_keeps_pico_handleWrite
  table_keeps_pico_handleSocket table_keeps_pico_handleConnect table_keeps_make_room
  table_keeps_poll_loop table_keeps_read_loop : zt_keeps.

#[export] Instance pico_driver_table fuel : DriverTable (pico_driver fuel).
Proof.
  split; intros; simpl; try (solve [eauto 2 with zt_keeps]).
  - unfold pico_handleBind. table_walk.
  - unfold pico_handleListen. table_walk.
  - unfold pico_addIp, pico_init_interface. table_walk.
  - unfold pico_rx. table_walk.
Qed.

Lemma table_keeps_udp_read fuel s : keeps (on_app (table_wf None)) (pico_cb_udp_read fuel s).
Proof. unfold pico_cb_udp_read. table_walk. Qed.

Lemma table_keeps_accept s conn : keeps (on_app (table_wf None)) (pico_accept s conn).
Proof. unfold pico_accept. table_walk. Qed.
#[local] Hint Resolve table_keeps_udp_read table_keeps_accept : zt_keeps.

Lemma table_keeps_socket_activity fuel ev s :
  keeps (on_app (table_wf None)) (pico_cb_socket_activity fuel ev s).
Proof. unfold pico_cb_socket_activity, pico_cb_tcp_read, pico_cb_tcp_write. table_walk. Qed.
End pico_table.

Section pico_locks.
Context {env : Env} {HS : SendsRecover env}.
Implicit Types F : gset mutex.

#[export] Instance pico_close_locks : CloseDriverLocks pico_close.
Proof. split; intros; apply balanced_ret. Qed.

Lemma balanced_picotap F : balanced F picotap.
Proof. unfold picotap. balanced_walk. Qed.

Lemma balanced_mod_drv F f : balanced F (mod_drv f).
Proof. apply balanced_mod_app. Qed.

Lemma balanced_pico_call {R : Type} F (c : Svc.sc R) : {[pico_m]} ⊆ F → balanced F (pico_call c).
Proof. intros HF. unfold pico_call. apply balanced_locked'; [done|]. balanced_walk. Qed.

(** The driver takes no mutex when a connection is closed. *)
Lemma balanced_pico_closeConnection F sock :
  {[close_m]} ⊆ F → balanced F (closeConnection (D:=pico) sock).
Proof.
  intros HF. unfold closeConnection. apply balanced_locked'; [done|].
  simpl. unfold pico_handleClose. balanced_walk.
Qed.

Lemma balanced_send_dgram F fuel conn tot w : balanced F (pico_send_dgram fuel conn tot w).
Proof.
  revert tot w; induction fuel as [|fuel IH]; simpl; [balanced_walk|].
  balanced_walk; apply IH.
Qed.
#[local] Hint Resolve balanced_picotap balanced_mod_drv balanced_pico_call
  balanced_send_dgram : zt_locks.

Lemma balanced_pico_drain F fuel sock : balanced F (pico_drain fuel sock).
Proof. unfold pico_drain. balanced_walk. Qed.
#[local] Hint Resolve balanced_pico_drain : zt_locks.

Lemma pure_ok_arg a : pure_ok (arg_ip a) ∧ pure_ok (arg_port a).
Proof. split; unfold arg_ip, arg_port; eauto with zt_locks nocore. Qed.
#[local] Hint Extern 1 (pure_ok (arg_ip _)) => apply pure_ok_arg : zt_locks.
#[local] Hint Extern 1 (pure_ok (arg_port _)) => apply pure_ok_arg : zt_locks.

Lemma balanced_pico_handleWritable F fuel sock :
  {[tcpconns_m; rx_buf_m]} ⊆ F → balanced F (pico_handleRead fuel sock false).
Proof.
  intros HF. unfold pico_handleRead. apply balanced_bind; [apply balanced_picotap|]. intros _.
  apply balanced_lock2; [done..|apply balanced_pico_drain].
Qed.
#[local] Hint Resolve balanced_pico_handleWritable : zt_locks.

Lemma balanced_make_room F fuel newlen proto : balanced F (pico_make_room fuel newlen proto).
Proof. induction fuel as [|fuel IH]; simpl; balanced_walk; apply IH. Qed.

Lemma balanced_pico_poll_loop F score : balanced F (pico_poll_loop score).
Proof. induction score as [|score IH]; simpl; balanced_walk; apply IH. Qed.

Lemma balanced_read_loop F fuel conn s r : balanced F (pico_read_loop fuel conn s r).
Proof. revert r; induction fuel as [|fuel IH]; simpl; balanced_walk; apply IH. Qed.
#[local] Hint Resolve balanced_make_room balanced_pico_poll_loop balanced_read_loop : zt_locks.

#[export] Instance pico_driver_locks fuel : DriverLocks (pico_driver fuel).
Proof.
  split; intros; simpl.
  - unfold pico_handleSocket. balanced_walk.
  - eapply balanced_weaken; [done|]. unfold pico_handleConnect. balanced_walk.
  - eapply balanced_weaken; [done|]. unfold pico_handleBind. balanced_walk.
  - eapply balanced_weaken; [done|]. unfold pico_handleListen. balanced_walk.
  - unfold pico_handleRead. balanced_walk.
  - apply balanced_pico_handleWritable. set_solver.
  - unfold pico_handleWrite. balanced_walk.
  - eapply balanced_weaken; [done|]. unfold pico_addIp, pico_init_interface. balanced_walk.
  - eapply balanced_weaken; [done|]. unfold pico_rx. balanced_walk.
Qed.

Lemma balanced_accept F s conn : balanced F (pico_accept s conn).
Proof. unfold pico_accept. balanced_walk. Qed.
#[local] Hint Resolve balanced_accept : zt_locks.

#[local] Hint Extern 0 (balanced _ (closeConnection _)) =>
  apply balanced_pico_closeConnection; set_dec : zt_locks.

(** The callbacks, which run while the stack's own mutex is held. *)
Lemma balanced_socket_activity fuel ev s :
  balanced (all_m ∖ {[pico_m]}) (pico_cb_socket_activity fuel ev s).
Proof.
  unfold pico_cb_socket_activity, pico_cb_tcp_read, pico_cb_tcp_write, pico_cb_udp_read,
    pico_handleRead.
  balanced_walk.
Qed.

Lemma balanced_eth_poll score : balanced (all_m ∖ {[pico_m]}) (pico_eth_poll score).
Proof. unfold pico_eth_poll. balanced_walk. Qed.
End pico_locks.

(** ** The service as a whole *)

Section pico_service.
Context {env : Env} (reclaim : bytes → bytes) (fuel : nat).
#[local] Instance pico_driver' : Driver pico := pico_driver fuel.

Lemma table_keeps_pico_acts l : keeps (on_app (table_wf None)) (run_pico_acts fuel l).
Proof.
  induction l as [|a l IH]; simpl; [apply keeps_ret|].
  apply keeps_bind; [|intros; apply IH]. destruct a; simpl.
  - unfold pico_eth_send. table_walk.
  - unfold pico_eth_poll. table_walk. apply table_keeps_poll_loop.
  - apply table_keeps_socket_activity.
Qed.

Lemma table_keeps_round : keeps (on_app (table_wf None)) (pico_round reclaim fuel).
Proof.
  unfold pico_round, pico_tick. apply keeps_bind.
  - apply app_keeps_poll, tap_handler_keeps; typeclasses eauto.
  - intros _. table_walk. apply table_keeps_pico_acts.
Qed.

(** What the process does with the service: a round of its thread, and the calls of
    the ZeroTier node and of the SDK. *)
Inductive pico_step : svc (host (tap pico)) → svc (host (tap pico)) → Prop :=
  | step_round s s' : pico_round reclaim fuel s = Ok (tt, s') → pico_step s s'
  | step_put s from to et d s' : put from to et d s = Ok (tt, s') → pico_step s s'
  | step_addIp s ip b s' : addIp ip s = Ok (b, s') → pico_step s s'
  | step_removeIp s ip b s' : removeIp ip s = Ok (b, s') → pico_step s s'
  | step_scan s r s' : scanMulticastGroups s = Ok (r, s') → pico_step s s'
  | step_enable s b s' : setEnabled b s = Ok (tt, s') → pico_step s s'
  | step_proxy s path nwid a r s' : startProxyServer path nwid a s = Ok (r, s') → pico_step s s'
  | step_stop s r s' : stopProxyServer s = Ok (r, s') → pico_step s s'.

Lemma pico_step_table s s' : pico_step s s' → on_app (table_wf None) s → on_app (table_wf None) s'.
Proof.
  intros [] Hs; (eapply keeps_run; [|done..]).
  - apply table_keeps_round.
  - apply dt_rx.
  - apply table_keeps_addIp.
  - apply table_keeps_removeIp.
  - apply table_keeps_scan.
  - apply table_keeps_enable.
  - apply table_keeps_startProxy.
  - apply table_keeps_stopProxy.
Qed.

Lemma balanced_round : SendsRecover env → balanced all_m (pico_round reclaim fuel).
Proof.
  intros HS. unfold pico_round, pico_tick. apply balanced_bind.
  { apply balanced_poll, tap_handler_locks; typeclasses eauto. }
  intros _. apply balanced_locked'; [set_dec|]. apply balanced_bind; [apply balanced_ask|].
  intros l. induction l as [|a l IH]; simpl; [apply balanced_ret|].
  apply balanced_bind; [|intros; apply IH]. destruct a; simpl.
  - apply balanced_bind; [|intros; apply balanced_ret]. unfold pico_eth_send.
    balanced_walk; apply pure_ok_setTo || apply balanced_picotap.
  - apply balanced_bind; [apply balanced_eth_poll|intros; apply balanced_ret].
  - apply balanced_socket_activity.
Qed.

Lemma balanced_pico_loop rounds : SendsRecover env → balanced all_m (pico_loop reclaim fuel rounds).
Proof.
  intros HS. induction rounds as [|n IH]; simpl; [by apply balanced_undef|].
  apply balanced_bind; [apply balanced_get_app|]. intros t. destruct (t_run t).
  - by apply balanced_bind; [apply balanced_round|].
  - apply balanced_ret.
Qed.
End pico_service.

(** C26: in every state the picoTCP service can reach, by rounds of its thread and calls
    of the node and the SDK in any order and for any answers of the kernel and of
    the stack, the table of connections is sound: its pointers are distinct, each
    points to a live object with buffers of full size, every live object is in the
    table, and looking a connection up by its socket never touches a deleted
    one. *)
Theorem pico_reachable_table {env : Env} reclaim fuel s s' sock :
  table_wf None (h_app (s_user s)) → rtc (pico_step reclaim fuel) s s' →
  table_wf None (h_app (s_user s')) ∧
  ∃ a, getConnection sock s' = Ok (a, s') ∧ (a = 0 ∨ a ∈ t_conns (h_app (s_user s'))).
Proof.
  intros Hs Hr. assert (table_wf None (h_app (s_user s'))) as Hs'.
  { induction Hr as [|s s1 s' H1 Hr IH]; [done|]. apply IH.
    by apply (pico_step_table reclaim fuel s s1 H1). }
  split; [done|]. by eapply getConnection_total.
Qed.


(** ** Examples *)

(** The service listens on a Unix socket and is given 10.0.0.1/24. *)
Definition pico_demo : svc (host (tap pico)) :=
  after (_ ← unixListen (env:=calm) [47; 97] 0; pico_addIp (env:=calm) (inet4 10 0 0 1 24))
    (service0 (PicoState false (memset MAX_PICO_FRAME_RX_BUF_SZ 0) 0)).

(** It then runs a round, in which an application connects. *)
Definition pico_demo2 : svc (host (tap pico)) := after (pico_round (env:=calm) id 20) pico_demo.

Lemma pico_demo_table : table_wf None (h_app (s_user pico_demo)).
Proof.
  apply (table_wf_same None (h_app (s_user (service0 (PicoState false [] 0)))));
    [vm_compute; reflexivity..|apply service0_table].
Qed.

Lemma pico_reachable_table_witness :
  length (_socks (h_phy (s_user pico_demo2))) = 2%nat ∧
  ∃ a, getConnection 7 pico_demo2 = Ok (a, pico_demo2) ∧
    (a = 0 ∨ a ∈ t_conns (h_app (s_user pico_demo2))).
Proof.
  split; [vm_compute; reflexivity|].
  apply (pico_reachable_table (env:=calm) id 20 pico_demo pico_demo2 7 pico_demo_table).
  apply rtc_once, step_round.
  destruct (after_ok (pico_round (env:=calm) id 20) pico_demo) as ([] & E);
    [vm_compute; reflexivity|exact E].
Defined.

