(* ===== verification/Lwip.v ===== *)
(** * The lwIP driver (src/stack_drivers/lwip/lwip.cpp)

    The IPv4 build of the driver.  The stack is loaded as a shared object and
    entered through the wrappers of [lwIP_stack] (lwip.hpp), which hold the mutex
    [lwip_m] for the length of the call; its functions are calls of the environment
    ([Lw...] of Svc.v).  A stack function that may put frames on the wire answers
    with them, and they go through [low_level_output] before the wrapper returns.
    The connection callbacks ([nc_recved] and the others) take the address of the
    [Connection] that the [Larg] of the protocol control block refers to.  A timer
    and the input of a frame answer with the list of what the stack does meanwhile
    ([lw_act]): a timer with [lwip_m] held, the input, which the driver enters
    through [interface.input], without. *)

From S2P Require Import Prelude Svc Phy Rpc Addr Conn Tap Proxy.
From stdpp Require Import base numbers list gmap sets option.

Open Scope Z_scope.

(** ** State and constants *)

(** [interface_up]: [netif_add] has filled in [tap->interface]. *)
Record lwip := LwipState { interface_up : bool }.

Definition ERR_MEM : Z := -1.
Definition ERR_BUF : Z := -2.
Definition ERR_TIMEOUT : Z := -3.
Definition ERR_RTE : Z := -4.
Definition ERR_INPROGRESS : Z := -5.
Definition ERR_VAL : Z := -6.
Definition ERR_WOULDBLOCK : Z := -7.
Definition ERR_USE : Z := -8.
Definition ERR_ISCONN : Z := -10.
Definition ERR_CONN : Z := -11.
Definition ERR_IF : Z := -12.
Definition ERR_ABRT : Z := -13.
Definition ERR_RST : Z := -14.
Definition ERR_CLSD : Z := -15.
Definition ERR_ARG : Z := -16.

(** enum tcp_state *)
Definition CLOSED : Z := 0.
Definition LISTEN : Z := 1.
Definition SYN_SENT : Z := 2.
Definition CLOSE_WAIT : Z := 7.

Definition APPLICATION_POLL_FREQ : Z := 2.
Definition ZT_LWIP_TCP_TIMER_INTERVAL : Z := 50.
Definition STATUS_TMR_INTERVAL : Z := 500.
Definition DISCOVERY_INTERVAL : Z := 1000.
Definition ZT_UDP_DEFAULT_PAYLOAD_MTU : Z := 1444.
Definition sizeof_eth_hdr : Z := 14.
Definition EWOULDBLOCK : Z := 11.

(** The address and port of a [sockaddr_in] in an argument structure: the bytes of
    the former ([convert_ip] reassembles them) and the latter in host order. *)
Definition lw_arg_ip (a : bytes) : cres bytes := mem_read (OFF_addr + 4) 4 a.
Definition lw_arg_port (a : bytes) : cres Z :=
  d ← mem_read (OFF_addr + 2) 2 a; Ok (ntoh 2 (le_val d)).

Section lwip.
Context {env : Env}.
(** The address of [bind_rpc->addr] in the frame of [phyOnUnixData]. *)
Context (bind_rpc_addr : Z).

(** A call through a wrapper of [lwIP_stack]. *)
Definition lw {R : Type} (c : Svc.sc R) : M (tap lwip) R := locked lwip_m (ask c).

(** [pcb->state] and [pcb->local_port] *)
Definition pcb_state (pcb : Z) : M (tap lwip) Z :=
  if pcb =? 0 then undef NullPointer else ask (LwTcpState pcb).
Definition pcb_local_port (pcb : Z) : M (tap lwip) Z :=
  if pcb =? 0 then undef NullPointer else ask (LwUdpLocalPort pcb).

(** ** Output *)

(** The copy of a chain to one buffer (lines 838-843): the buffer and the length. *)
Fixpoint copy_chain (p : pbuf) (off : Z) (buf : bytes) : cres (bytes * Z) :=
  match p with
  | [] => Ok (buf, off)
  | q :: p' => b ← mem_write off q buf; copy_chain p' (off + zlen q) b
  end.

Definition low_level_output (p : pbuf) : M (tap lwip) Z :=
  g ← ask (ScUninit (ZT_MAX_MTU + 32));
  '(buf, totalLength) ← lift (copy_chain p 0 g);
  dest ← lift (mem_read 0 6 buf);
  src ← lift (mem_read 6 6 buf);
  type ← lift (mem_read 12 2 buf);
  src_mac ← lift (MAC.setTo src 6);
  dest_mac ← lift (MAC.setTo dest 6);
  t ← get_app;
  payload ← lift (mem_read sizeof_eth_hdr (totalLength - sizeof_eth_hdr) buf);
  _ ← ask (ScHandler (t_nwid t) src_mac dest_mac (ntoh 2 (le_val type)) payload);
  mret ERR_OK.

Fixpoint output (frames : list pbuf) : M (tap lwip) unit :=
  match frames with
  | [] => mret tt
  | p :: l => _ ← low_level_output p; output l
  end.

(** A wrapped call that may output frames. *)
Definition lw_out {A} (c : Svc.sc (A * list pbuf)) : M (tap lwip) A :=
  locked lwip_m ('(a, frames) ← ask c; _ ← output frames; mret a).
Definition lw_out_ (c : Svc.sc (list pbuf)) : M (tap lwip) unit :=
  locked lwip_m (frames ← ask c; output frames).

(** ** Interface *)

Definition lwip_init_interface (ip : bytes) : M (tap lwip) unit :=
  locked ips_m (
    t ← get_app;
    if has_ip ip (t_ips t) then mret tt
    else
      _ ← mod_app (set_ips (sort InetAddress.ltb (t_ips t ++ [ip])));
      if InetAddress.isV4 ip then
        nm ← lift (InetAddress.netmask ip);
        _ ← lw (LwNetifAdd (InetAddress.fld 4 4 ip) (InetAddress.fld 4 4 nm) [127; 0; 0; 1]
               (MAC.octets (t_mac t)) (t_mtu t));
        mod_app (set_drv (LwipState true))
      else mret tt).

(** ** Closing *)

Definition lwip_handleClose (sock conn : Z) : M (tap lwip) unit :=
  c ← deref_conn conn;
  _ ← when (c_type c =? SOCK_DGRAM) (lw (LwUdpRemove (c_UDP_pcb c)));
  if c_TCP_pcb c =? 0 then mret tt
  else
    st ← pcb_state (c_TCP_pcb c);
    if st =? CLOSED then mret tt
    else
      st ← pcb_state (c_TCP_pcb c);
      if st =? SYN_SENT then mret tt
      else
        err ← lw_out (LwTcpClose (c_TCP_pcb c));
        when (err =? ERR_OK) (lw (LwTcpCallbacks (c_TCP_pcb c) None 1)).

#[global] Instance lwip_close : CloseDriver lwip := {|
  drv_preClose := λ _, mret tt;
  drv_handleClose := lwip_handleClose
|}.

(** ** RPC handlers *)

Definition reply (rpcSock v e : Z) : M (tap lwip) unit :=
  fd ← getDescriptor rpcSock; _ ← sendReturnValue fd v e; mret tt.

Definition lwip_handleSocket (sock : Z) (socket_rpc : bytes) : M (tap lwip) Z :=
  type ← lift (get_int OFF_socket_type socket_rpc);
  udp ← (if type =? SOCK_DGRAM then locked tcpconns_m (lw LwUdpNew) else mret 0);
  tcp ← (if type =? SOCK_DGRAM then mret 0
         else if type =? SOCK_STREAM then locked tcpconns_m (lw LwTcpNew) else mret 0);
  if negb (udp =? 0) || negb (tcp =? 0) then
    n ← new_conn;
    node ← deref sock;
    _ ← mod_phy (phy_set_node sock (set_uptr n node));
    _ ← upd_conn n (λ c,
          let c := set_peer_addr 0 (set_local_addr 0 (set_sock sock (set_conn_type type c))) in
          let c := if type =? SOCK_DGRAM then set_UDP_pcb udp c else c in
          if type =? SOCK_STREAM then set_TCP_pcb tcp c else c);
    _ ← push_conn n;
    mret n
  else
    _ ← reply sock (-1) ENOMEM; mret 0.

(** The errno reported for an immediate failure of [tcp_connect], if it ends the
    handler. *)
Definition connect_errno (err : Z) : option Z :=
  if err =? ERR_ISCONN then Some EISCONN
  else if err =? ERR_USE then Some EADDRINUSE
  else if err =? ERR_VAL then Some EINVAL
  else if err =? ERR_RTE then Some ENETUNREACH
  else if err =? ERR_BUF then Some EAGAIN
  else if err =? ERR_MEM then Some EAGAIN
  else None.

Definition lwip_handleConnect (sock rpcSock conn : Z) (connect_rpc : bytes) : M (tap lwip) unit :=
  ba ← lift (lw_arg_ip connect_rpc);
  port ← lift (lw_arg_port connect_rpc);
  c ← deref_conn conn;
  if c_type c =? SOCK_DGRAM then
    _ ← lw (LwUdpConnect (c_UDP_pcb c) ba port);
    _ ← lw (LwUdpRecv (c_UDP_pcb c) conn);
    reply rpcSock 0 ERR_OK
  else
    _ ← lw (LwTcpCallbacks (c_TCP_pcb c) (Some conn) APPLICATION_POLL_FREQ);
    st ← pcb_state (c_TCP_pcb c);
    if negb (st =? CLOSED) then reply rpcSock (-1) EAGAIN
    else
      err ← lw_out (LwTcpConnect (c_TCP_pcb c) ba port);
      let established :=
        (_ ← upd_conn conn (set_listening true); upd_conn conn (set_rpcSock rpcSock)) in
      if err <? 0 then
        match connect_errno err with
        | Some e => reply rpcSock (-1) e
        | None => _ ← reply rpcSock (-1) EAGAIN; established
        end
      else established.

(** [memcpy(&conn->local_addr, &addr_in, 16)]: the copy covers both pointers. *)
Definition smash_local_addr (d : bytes) (c : Connection) : Connection :=
  set_local_addr (le_val (take 8 d)) (set_peer_addr (le_val (drop 8 d)) c).

Definition lwip_handleBind (sock rpcSock : Z) (bind_rpc : bytes) : M (tap lwip) unit :=
  ba ← lift (lw_arg_ip bind_rpc);
  port ← lift (lw_arg_port bind_rpc);
  conn ← getConnection sock;
  if conn =? 0 then reply rpcSock (-1) EBADF
  else
    c ← deref_conn conn;
    if c_type c =? SOCK_DGRAM then
      err ← lw (LwUdpBind (c_UDP_pcb c) ba port);
      if err =? ERR_USE then reply rpcSock (-1) EADDRINUSE
      else
        _ ← lw (LwUdpRecv (c_UDP_pcb c) conn);
        a ← lift (mem_read OFF_addr sizeof_sockaddr_in bind_rpc);
        lp ← pcb_local_port (c_UDP_pcb c);
        addr_in ← lift (mem_write 2 (le_bytes 2 (ntoh 2 lp)) a);
        _ ← upd_conn conn (smash_local_addr addr_in);
        reply rpcSock ERR_OK ERR_OK
    else if c_type c =? SOCK_STREAM then
      st ← pcb_state (c_TCP_pcb c);
      if st =? CLOSED then
        err ← lw (LwTcpBind (c_TCP_pcb c) ba port);
        if negb (err =? ERR_OK) then
          _ ← when (err =? ERR_USE) (reply rpcSock (-1) EADDRINUSE);
          _ ← when (err =? ERR_MEM) (reply rpcSock (-1) ENOMEM);
          when (err =? ERR_BUF) (reply rpcSock (-1) ENOMEM)
        else
          _ ← upd_conn conn (set_local_addr bind_rpc_addr);
          reply rpcSock ERR_OK ERR_OK
      else reply rpcSock (-1) EINVAL
    else mret tt.

Definition lwip_handleListen (sock rpcSock : Z) (listen_rpc : bytes) : M (tap lwip) unit :=
  conn ← getConnection sock;
  c ← deref_conn conn;
  if c_type c =? SOCK_DGRAM then reply rpcSock ERR_OK ERR_OK
  else
    st ← pcb_state (c_TCP_pcb c);
    if st =? LISTEN then reply rpcSock ERR_OK ERR_OK
    else
      backlog ← lift (get_int OFF_backlog listen_rpc);
      pcb ← lw (LwTcpListen (c_TCP_pcb c) (wrap 8 backlog));
      if negb (pcb =? 0) then
        _ ← upd_conn conn (set_TCP_pcb pcb);
        _ ← lw (LwTcpArgAccept pcb conn);
        c ← deref_conn conn;
        fd ← getDescriptor (c_sock c);
        _ ← ask (ScNonblock fd);
        _ ← upd_conn conn (set_listening true);
        reply rpcSock ERR_OK ERR_OK
      else reply rpcSock (-1) (-1).

(** ** Reception *)

(** The body of [lwip_handleRead] between the locks. *)
Definition lwip_drain (sock : Z) : M (tap lwip) unit :=
  conn ← getConnection sock;
  _ ← (if conn =? 0 then mret tt
       else
         c ← deref_conn conn;
         if c_rxsz c =? 0 then mret tt
         else
           d ← lift (mem_read 0 ZT_MAX_MTU (c_rxbuf c));
           n ← streamSend close_handlers (c_sock c) d true;
           if n =? ZT_MAX_MTU then
             c ← deref_conn conn;
             _ ← when (0 <? c_rxsz c - n)
                   (b ← lift (mem_copy 0 (c_rxbuf c) ZT_MAX_MTU (c_rxsz c - ZT_MAX_MTU) (c_rxbuf c));
                    upd_conn conn (set_rxbuf b));
             _ ← upd_conn conn (λ c, set_rxsz (c_rxsz c - ZT_MAX_MTU) c);
             _ ← when (c_type c =? SOCK_DGRAM) (setNotifyWritable (c_sock c) false);
             when (c_type c =? SOCK_STREAM) (lw_out_ (LwTcpRecved (c_TCP_pcb c) n))
           else setNotifyWritable (c_sock c) false);
  c ← deref_conn conn;
  when (c_rxsz c =? 0) (setNotifyWritable (c_sock c) false).

Definition lwip_handleRead (sock : Z) (lwip_invoked : bool) : M (tap lwip) unit :=
  if lwip_invoked then lwip_drain sock
  else
    _ ← lock tcpconns_m;
    _ ← lock rx_buf_m;
    _ ← lwip_drain sock;
    _ ← unlock tcpconns_m;
    unlock rx_buf_m.

(** ** Transmission *)

Definition lwip_write_udp (conn : Z) (c : Connection) : M (tap lwip) unit :=
  if c_UDP_pcb c =? 0 then mret tt
  else
    let udp_trans_len :=
      if c_txsz c <? ZT_UDP_DEFAULT_PAYLOAD_MTU then c_txsz c else ZT_UDP_DEFAULT_PAYLOAD_MTU in
    chain ← ask (LwPbufAlloc (wrap 16 udp_trans_len));
    match chain with
    | None => mret tt
    | Some (n, _) =>
        g ← ask (ScUninit n);
        payload ← lift (mem_copy 0 g 0 udp_trans_len (c_txbuf c));
        err ← lw_out (LwUdpSend (c_UDP_pcb c) payload);
        _ ← when (err =? ERR_OK) (tx_advance conn udp_trans_len);
        lw LwPbufFree
    end.

Definition lwip_write_tcp (conn : Z) (c : Connection) : M (tap lwip) unit :=
  if c_TCP_pcb c =? 0 then mret tt
  else
    sndbuf ← ask (LwTcpSndBuf (c_TCP_pcb c));
    if sndbuf =? 0 then
      if c_probation c then mret tt
      else
        _ ← setNotifyReadable (c_sock c) false;
        upd_conn conn (set_probation true)
    else if c_txsz c <=? 0 then mret tt
    else
      _ ← when (negb (c_listening c)) (lw_out_ (LwTcpOutput (c_TCP_pcb c)));
      if c_sock c =? 0 then mret tt
      else
        let r := if c_txsz c <? sndbuf then c_txsz c else sndbuf in
        if 0 <? r then
          d ← lift (mem_read 0 r (c_txbuf c));
          err ← lw (LwTcpWrite (c_TCP_pcb c) d);
          _ ← lw_out_ (LwTcpOutput (c_TCP_pcb c));
          if negb (err =? ERR_OK) then mret tt else tx_advance conn r
        else mret tt.

Definition lwip_handleWrite (conn : Z) : M (tap lwip) unit :=
  if conn =? 0 then mret tt
  else
    c ← deref_conn conn;
    if (c_TCP_pcb c =? 0) && (c_UDP_pcb c =? 0) then mret tt
    else if c_type c =? SOCK_DGRAM then lwip_write_udp conn c
    else if c_type c =? SOCK_STREAM then lwip_write_tcp conn c
    else mret tt.

(** ** Callbacks *)

(** The loop over the received chain (lines 882-893); returns [tot]. *)
Fixpoint recv_chain (conn : Z) (p : pbuf) (tot : Z) : M (tap lwip) Z :=
  match p with
  | [] => mret tot
  | q :: p' =>
      if zlen q <=? 0 then mret tot
      else
        c ← deref_conn conn;
        b ← lift (mem_write (c_rxsz c) q (c_rxbuf c));
        _ ← upd_conn conn (λ c, set_rxsz (c_rxsz c + zlen q) (set_rxbuf b c));
        recv_chain conn p' (tot + zlen q)
  end.

Definition nc_recved (conn : Z) (p : option pbuf) (err : Z) : M (tap lwip) Z :=
  locked tcpconns_m (
    if conn =? 0 then mret ERR_OK
    else
      match p with
      | None =>
          c ← deref_conn conn;
          st ← pcb_state (c_TCP_pcb c);
          if st =? CLOSE_WAIT then _ ← closeConnection (c_sock c); mret ERR_ABRT
          else mret err
      | Some p =>
          locked rx_buf_m (
            tot ← recv_chain conn p 0;
            _ ← when (negb (tot =? 0))
                  (c ← deref_conn conn; lwip_handleRead (c_sock c) true);
            _ ← lw LwPbufFree;
            mret ERR_OK)
      end).

Definition nc_accept (conn newPCB : Z) : M (tap lwip) Z :=
  locked tcpconns_m (
    if conn =? 0 then mret (-1)
    else
      c ← deref_conn conn;
      if c_type c =? SOCK_DGRAM then mret (-1)
      else if c_sock c =? 0 then mret (-1)
      else
        fd ← getDescriptor (c_sock c);
        '(r, fd0, fd1) ← ask ScSocketpair;
        e ← (if r <? 0 then ask ScErrno else mret 0);
        if (r <? 0) && (e <? 0) then mret ERR_MEM
        else
          n ← new_conn;
          _ ← push_conn n;
          _ ← upd_conn n (λ c, set_conn_type SOCK_STREAM (set_TCP_pcb newPCB c));
          sk ← wrapSocket fd0 n;
          _ ← upd_conn n (set_sock sk);
          w ← ask (ScSendmsg fd [0] (if fd1 =? -1 then None else Some fd1));
          if w <? 0 then mret (-1)
          else
            _ ← lw (LwTcpCallbacks newPCB (Some n) 1);
            st ← pcb_state (c_TCP_pcb c);
            if st =? LISTEN then mret ERR_OK
            else _ ← ask (LwTcpAccepted (c_TCP_pcb c)); mret ERR_OK).

Definition nc_sent (conn len : Z) : M (tap lwip) Z :=
  locked tcpconns_m (
    c ← deref_conn conn;
    _ ← when (c_probation c && (c_txsz c =? 0)) (upd_conn conn (set_probation false));
    c ← deref_conn conn;
    let softmax := if c_type c =? SOCK_STREAM then DEFAULT_TCP_TX_BUF_SZ else DEFAULT_UDP_TX_BUF_SZ in
    _ ← when (negb (len =? 0) && negb (c_probation c) && (c_txsz c <? softmax))
          (_ ← setNotifyReadable (c_sock c) true; whack);
    mret ERR_OK).

Definition nc_connected (conn : Z) : M (tap lwip) Z :=
  if conn =? 0 then mret ERR_OK
  else
    c ← deref_conn conn;
    _ ← reply (c_rpcSock c) ERR_OK 0;
    mret ERR_OK.

(** The errno of the table in [nc_err]; [None] for codes it does not report. *)
Definition err_errno (err : Z) : option Z :=
  if err =? ERR_MEM then Some ENOMEM
  else if err =? ERR_BUF then Some ENOBUFS
  else if err =? ERR_TIMEOUT then Some ETIMEDOUT
  else if err =? ERR_RTE then Some ENETUNREACH
  else if err =? ERR_INPROGRESS then Some EINPROGRESS
  else if err =? ERR_VAL then Some EINVAL
  else if err =? ERR_WOULDBLOCK then Some EWOULDBLOCK
  else if err =? ERR_USE then Some EADDRINUSE
  else if err =? ERR_ISCONN then Some EISCONN
  else if err =? ERR_ABRT then Some ECONNREFUSED
  else if (err =? ERR_RST) || (err =? ERR_CLSD) || (err =? ERR_CONN) || (err =? ERR_ARG) ||
          (err =? ERR_IF) then Some (-1)
  else None.

Definition nc_err (conn err : Z) : M (tap lwip) unit :=
  locked tcpconns_m (
    c ← deref_conn conn;
    fd ← getDescriptor (c_sock c);
    _ ← match err_errno err with
        | Some e => _ ← sendReturnValue fd (-1) e; mret tt
        | None => mret tt
        end;
    closeConnection (c_sock c)).

(** ** What the stack does *)

Definition run_act (a : lw_act) : M (tap lwip) unit :=
  match a with
  | ActOutput p => _ ← low_level_output p; mret tt
  | ActRecved conn p err => _ ← nc_recved conn p err; mret tt
  | ActAccept conn newPCB => _ ← nc_accept conn newPCB; mret tt
  | ActSent conn len => _ ← nc_sent conn len; mret tt
  | ActConnected conn => _ ← nc_connected conn; mret tt
  | ActErr conn err => nc_err conn err
  end.

Fixpoint run_acts (l : list lw_act) : M (tap lwip) unit :=
  match l with
  | [] => mret tt
  | a :: l' => _ ← run_act a; run_acts l'
  end.

(** [__tcp_tmr] and [__etharp_tmr]: the stack runs with the mutex held. *)
Definition lw_timer (c : Svc.sc (list lw_act)) : M (tap lwip) unit :=
  locked lwip_m (acts ← ask c; run_acts acts).

(** Filling the links of a chain with the frame (lines 202-205). *)
Fixpoint fill_chain (lens : list Z) (data : bytes) (off : Z) : cres pbuf :=
  match lens with
  | [] => Ok []
  | n :: lens' => d ← mem_read off n data; p ← fill_chain lens' data (off + n); Ok (d :: p)
  end.

Definition lwip_rx (from to etherType : Z) (data : bytes) : M (tap lwip) unit :=
  t ← get_app;
  if negb (t_enabled t) then mret tt
  else
    let ethhdr := MAC.octets to ++ MAC.octets from ++ le_bytes 2 (hton 2 (wrap 16 etherType)) in
    chain ← ask (LwPbufAlloc (wrap 16 (zlen data + sizeof_eth_hdr)));
    match chain with
    | None => mret tt
    | Some (n, lens) =>
        if n <? sizeof_eth_hdr then mret tt
        else
          d ← lift (mem_read 0 (n - sizeof_eth_hdr) data);
          p ← lift (fill_chain lens data (n - sizeof_eth_hdr));
          if interface_up (t_drv t) then
            acts ← ask (LwInput ((ethhdr ++ d) :: p)); run_acts acts
          else undef NullPointer
    end.

(** The driver as the tap sees it. *)
Definition lwip_driver : Driver lwip := {|
  drv_handleSocket := lwip_handleSocket;
  drv_handleConnect := lwip_handleConnect;
  drv_handleBind := lwip_handleBind;
  drv_handleListen := lwip_handleListen;
  drv_handleRead := lwip_handleRead;
  drv_handleWrite := lwip_handleWrite;
  drv_initInterface := lwip_init_interface;
  drv_rx := lwip_rx
|}.

(** ** The loop of the tap thread *)

(** The connection check (lines 119-145).  The vector is indexed afresh in every
    iteration, although the body may erase from it. *)
Fixpoint lwip_check (reclaim : bytes → bytes) (fuel i : nat) : M (tap lwip) unit :=
  match fuel with
  | O => undef OutOfFuel
  | S fuel' =>
      t ← get_app;
      match t_conns t !! i with
      | None => mret tt
      | Some conn =>
          c ← deref_conn conn;
          _ ← (if (c_sock c =? 0) || negb (c_type c =? SOCK_STREAM) then mret tt
               else
                 fd ← getDescriptor (c_sock c);
                 _ ← when (0 <? c_rxsz c) (setNotifyWritable (c_sock c) true);
                 _ ← ask (ScNonblock fd);
                 '(n, d) ← ask (ScRead fd BUF_SZ);
                 _ ← pcb_state (c_TCP_pcb c);
                 e ← ask ScErrno;
                 if ((n <? 0) && negb (e =? EAGAIN)) || ((n =? 0) && (e =? EAGAIN)) then
                   closeConnection (c_sock c)
                 else if 0 <? n then
                   rest ← ask (ScUninit (BUF_SZ - zlen d));
                   tap_phyOnUnixData (DR:=lwip_driver) reclaim (c_sock c) (d ++ rest) n
                 else mret tt);
          lwip_check reclaim fuel' (S i)
      end
  end.

(** The makeshift poll (lines 152-156). *)
Fixpoint lwip_flush (fuel : nat) (i : nat) : M (tap lwip) unit :=
  match fuel with
  | O => undef OutOfFuel
  | S fuel' =>
      t ← get_app;
      match t_conns t !! i with
      | None => mret tt
      | Some conn =>
          c ← deref_conn conn;
          _ ← when (0 <? c_txsz c) (lwip_handleWrite conn);
          lwip_flush fuel' (S i)
      end
  end.

(** One round of the main loop; the three times are [prev_tcp_time],
    [prev_discovery_time] and [prev_status_time]. *)
Definition lwip_round (reclaim : bytes → bytes) (fuel : nat) (prev : Z * Z * Z) : M (tap lwip) (Z * Z * Z) :=
  let '(prev_tcp, prev_discovery, prev_status) := prev in
  now ← ask ScNow;
  let since_tcp := wrap 64 (now - prev_tcp) in
  let since_discovery := wrap 64 (now - prev_discovery) in
  let since_status := wrap 64 (now - prev_status) in
  let check := STATUS_TMR_INTERVAL <=? since_status in
  let tcp := ZT_LWIP_TCP_TIMER_INTERVAL <=? since_tcp in
  let discovery := DISCOVERY_INTERVAL <=? since_discovery in
  _ ← when check (lwip_check reclaim fuel 0);
  _ ← when tcp (_ ← lw_timer LwTcpTmr; lwip_flush fuel 0);
  _ ← when discovery (lw_timer LwEtharpTmr);
  let tcp_remaining :=
    if tcp then ZT_LWIP_TCP_TIMER_INTERVAL else ZT_LWIP_TCP_TIMER_INTERVAL - since_tcp in
  let discovery_remaining := if discovery then 5000 else DISCOVERY_INTERVAL - since_discovery in
  _ ← poll (tap_handler (DR:=lwip_driver) reclaim) fuel (Z.min tcp_remaining discovery_remaining);
  mret (if tcp then now else prev_tcp, if discovery then now else prev_discovery,
        if check then now else prev_status).

(** [lwip_loop]; [rounds] bounds the number of rounds, [fuel] the loops inside. *)
Fixpoint lwip_rounds (reclaim : bytes → bytes) (fuel rounds : nat) (prev : Z * Z * Z) :
    M (tap lwip) unit :=
  match rounds with
  | O => undef OutOfFuel
  | S rounds' =>
      t ← get_app;
      if t_run t then
        prev ← lwip_round reclaim fuel prev; lwip_rounds reclaim fuel rounds' prev
      else ask LwClose
  end.

Definition lwip_loop (reclaim : bytes → bytes) (fuel rounds : nat) : M (tap lwip) unit :=
  lwip_rounds reclaim fuel rounds (0, 0, 0).
End lwip.

(** ** What the driver promises to the tap *)

Section lwip_table.
Context {env : Env} (bind_rpc_addr : Z).

Lemma table_keeps_lw {R : Type} e (c : Svc.sc R) : keeps (on_app (table_wf e)) (lw c).
Proof. unfold lw. table_walk. Qed.

Lemma table_keeps_pcb_state e pcb : keeps (on_app (table_wf e)) (pcb_state pcb).
Proof. unfold pcb_state. table_walk. Qed.

Lemma table_keeps_pcb_port e pcb : keeps (on_app (table_wf e)) (pcb_local_port pcb).
Proof. unfold pcb_local_port. table_walk. Qed.

Lemma table_keeps_low_level_output e p : keeps (on_app (table_wf e)) (low_level_output p).
Proof. unfold low_level_output. table_walk. Qed.
#[local] Hint Resolve table_keeps_lw table_keeps_pcb_state table_keeps_pcb_port
  table_keeps_low_level_output : zt_keeps.

Lemma table_keeps_output e frames : keeps (on_app (table_wf e)) (output frames).
Proof. induction frames as [|p l IH]; simpl; table_walk; apply IH. Qed.
#[local] Hint Resolve table_keeps_output : zt_keeps.

Lemma table_keeps_lw_out {A : Type} e (c : Svc.sc (A * list pbuf)) :
  keeps (on_app (table_wf e)) (lw_out c).
Proof. unfold lw_out. table_walk. Qed.

Lemma table_keeps_lw_out_ e (c : Svc.sc (list pbuf)) : keeps (on_app (table_wf e)) (lw_out_ c).
Proof. unfold lw_out_. table_walk. Qed.

Lemma table_keeps_reply e rpc v x : keeps (on_app (table_wf e)) (reply rpc v x).
Proof. unfold reply. table_walk. Qed.
#[local] Hint Resolve table_keeps_lw_out table_keeps_lw_out_ table_keeps_reply : zt_keeps.

#[export] Instance lwip_close_table : CloseDriverTable lwip_close.
Proof. split; intros; simpl; [apply keeps_ret|]. unfold lwip_handleClose. table_walk. Qed.

Lemma table_keeps_lwip_handleWrite conn : keeps (on_app (table_wf None)) (lwip_handleWrite conn).
Proof. unfold lwip_handleWrite, lwip_write_udp, lwip_write_tcp. table_walk. Qed.

Lemma table_keeps_lwip_handleRead sock b : keeps (on_app (table_wf None)) (lwip_handleRead sock b).
Proof. unfold lwip_handleRead, lwip_drain. table_walk. Qed.

Lemma table_keeps_recv_chain conn p tot : keeps (on_app (table_wf None)) (recv_chain conn p tot).
Proof. revert tot; induction p as [|q p IH]; simpl; table_walk; apply IH. Qed.
#[local] Hint Resolve table_keeps_lwip_handleWrite table_keeps_lwip_handleRead
  table_keeps_recv_chain : zt_keeps.

Lemma table_keeps_nc_recved conn p err : keeps (on_app (table_wf None)) (nc_recved conn p err).
Proof. unfold nc_recved. table_walk. Qed.

Lemma table_keeps_nc_accept conn newPCB : keeps (on_app (table_wf None)) (nc_accept conn newPCB).
Proof. unfold nc_accept. table_walk. Qed.

Lemma table_keeps_nc_sent conn len : keeps (on_app (table_wf None)) (nc_sent conn len).
Proof. unfold nc_sent. table_walk. Qed.

Lemma table_keeps_nc_err conn err : keeps (on_app (table_wf None)) (nc_err conn err).
Proof. unfold nc_err. table_walk. Qed.

Lemma table_keeps_nc_connected conn : keeps (on_app (table_wf None)) (nc_connected conn).
Proof. unfold nc_connected. table_walk. Qed.
#[local] Hint Resolve table_keeps_nc_recved table_keeps_nc_accept table_keeps_nc_sent
  table_keeps_nc_err table_keeps_nc_connected : zt_keeps.

Lemma table_keeps_run_acts l : keeps (on_app (table_wf None)) (run_acts l).
Proof. induction l as [|a l IH]; simpl; unfold run_act; table_walk; apply IH. Qed.
#[local] Hint Resolve table_keeps_run_acts : zt_keeps.

Lemma table_keeps_lw_timer (c : Svc.sc (list lw_act)) : keeps (on_app (table_wf None)) (lw_timer c).
Proof. unfold lw_timer. table_walk. Qed.

Lemma smash_local_addr_ok d c : conn_ok c → conn_ok (smash_local_addr d c).
Proof. by intros []. Qed.
#[local] Hint Resolve smash_local_addr_ok : zt_conn.

#[export] Instance lwip_driver_table : DriverTable (lwip_driver bind_rpc_addr).
Proof.
  split; intros; simpl; try (solve [eauto 2 with zt_keeps]).
  - unfold lwip_handleSocket. table_walk.
  - unfold lwip_handleConnect. table_walk.
  - unfold lwip_handleBind. table_walk.
  - unfold lwip_handleListen. table_walk.
  - unfold lwip_init_interface. table_walk.
  - unfold lwip_rx. table_walk.
Qed.
End lwip_table.

Section lwip_locks.
Context {env : Env} {HS : SendsRecover env} (bind_rpc_addr : Z).
Implicit Types F : gset mutex.

Lemma pure_ok_copy_chain p off buf : pure_ok (copy_chain p off buf).
Proof.
  revert off buf; induction p as [|q p IH]; intros; simpl; [done|].
  apply pure_ok_bind; [apply pure_ok_write|]. intros; apply IH.
Qed.

Lemma pure_ok_fill_chain lens data off : pure_ok (fill_chain lens data off).
Proof.
  revert off; induction lens as [|n lens IH]; intros; simpl; [done|].
  apply pure_ok_bind; [apply pure_ok_read|]. intros. by apply pure_ok_bind.
Qed.

Lemma pure_ok_lw_arg a : pure_ok (lw_arg_ip a) ∧ pure_ok (lw_arg_port a).
Proof. split; unfold lw_arg_ip, lw_arg_port; eauto with zt_locks nocore. Qed.
#[local] Hint Extern 1 (pure_ok (lw_arg_ip _)) => apply pure_ok_lw_arg : zt_locks.
#[local] Hint Extern 1 (pure_ok (lw_arg_port _)) => apply pure_ok_lw_arg : zt_locks.
#[local] Hint Resolve pure_ok_copy_chain pure_ok_fill_chain : zt_locks.

Lemma balanced_lw {R : Type} F (c : Svc.sc R) : {[lwip_m]} ⊆ F → balanced F (lw c).
Proof. intros HF. unfold lw. apply balanced_locked'; [done|]. balanced_walk. Qed.

Lemma balanced_pcb_state F pcb : balanced F (pcb_state pcb).
Proof. unfold pcb_state. balanced_walk. Qed.

Lemma balanced_pcb_port F pcb : balanced F (pcb_local_port pcb).
Proof. unfold pcb_local_port. balanced_walk. Qed.

Lemma balanced_low_level_output F p : balanced F (low_level_output p).
Proof. unfold low_level_output. balanced_walk. Qed.
#[local] Hint Resolve balanced_lw balanced_pcb_state balanced_pcb_port
  balanced_low_level_output : zt_locks.

Lemma balanced_output F frames : balanced F (output frames).
Proof. induction frames as [|p l IH]; simpl; balanced_walk; apply IH. Qed.
#[local] Hint Resolve balanced_output : zt_locks.

Lemma balanced_lw_out {A : Type} F (c : Svc.sc (A * list pbuf)) :
  {[lwip_m]} ⊆ F → balanced F (lw_out c).
Proof. intros HF. unfold lw_out. apply balanced_locked'; [done|]. balanced_walk. Qed.

Lemma balanced_lw_out_ F (c : Svc.sc (list pbuf)) : {[lwip_m]} ⊆ F → balanced F (lw_out_ c).
Proof. intros HF. unfold lw_out_. apply balanced_locked'; [done|]. balanced_walk. Qed.

Lemma balanced_reply F rpc v x : balanced F (reply rpc v x).
Proof. unfold reply. balanced_walk. Qed.
#[local] Hint Resolve balanced_lw_out balanced_lw_out_ balanced_reply : zt_locks.

Lemma balanced_lwip_handleClose F sock conn :
  {[lwip_m]} ⊆ F → balanced F (lwip_handleClose sock conn).
Proof. intros HF. unfold lwip_handleClose. balanced_walk. Qed.

#[export] Instance lwip_close_locks : CloseDriverLocks lwip_close.
Proof.
  split; intros; simpl; [apply balanced_ret|]. apply balanced_lwip_handleClose.
  transitivity inner_m; [set_dec|done].
Qed.

Lemma balanced_lwip_handleWrite conn : balanced {[lwip_m]} (lwip_handleWrite conn).
Proof. unfold lwip_handleWrite, lwip_write_udp, lwip_write_tcp. balanced_walk. Qed.

Lemma balanced_lwip_drain sock : balanced {[lwip_m]} (lwip_drain sock).
Proof. unfold lwip_drain. balanced_walk. Qed.

Lemma balanced_recv_chain F conn p tot : balanced F (recv_chain conn p tot).
Proof. revert tot; induction p as [|q p IH]; simpl; balanced_walk; apply IH. Qed.

(** [balanced] from a larger set of free mutexes than is needed. *)
Lemma balanced_from {A} F F' (m : M (tap lwip) A) : balanced F m → F ⊆ F' → balanced F' m.
Proof. intros. by eapply balanced_weaken. Qed.
#[local] Hint Extern 1 (balanced _ (lwip_drain _)) =>
  eapply balanced_from; [apply balanced_lwip_drain|set_dec] : zt_locks.
#[local] Hint Extern 1 (balanced _ (lwip_handleWrite _)) =>
  eapply balanced_from; [apply balanced_lwip_handleWrite|set_dec] : zt_locks.
#[local] Hint Resolve balanced_recv_chain : zt_locks.

Lemma balanced_run_act a : balanced all_m (run_act a).
Proof.
  unfold run_act, nc_recved, nc_accept, nc_sent, nc_connected, nc_err, lwip_handleRead.
  balanced_walk.
Qed.

Lemma balanced_run_acts l : balanced all_m (run_acts l).
Proof.
  induction l as [|a l IH]; simpl; [balanced_walk|].
  apply balanced_bind; [apply balanced_run_act|done].
Qed.

#[export] Instance lwip_driver_locks : DriverLocks (lwip_driver bind_rpc_addr).
Proof.
  split; intros; simpl.
  - eapply balanced_weaken; [done|]. unfold lwip_handleSocket. balanced_walk.
  - eapply balanced_weaken; [done|]. unfold lwip_handleConnect. balanced_walk.
  - eapply balanced_weaken; [done|]. unfold lwip_handleBind. balanced_walk.
  - eapply balanced_weaken; [done|]. unfold lwip_handleListen. balanced_walk.
  - eapply balanced_weaken; [done|]. unfold lwip_handleRead. balanced_walk.
  - eapply balanced_weaken; [done|]. unfold lwip_handleRead. balanced_walk.
  - eapply balanced_weaken; [done|]. balanced_walk.
  - eapply balanced_weaken; [done|]. unfold lwip_init_interface. balanced_walk.
  - eapply balanced_weaken; [done|]. unfold lwip_rx. balanced_walk; apply balanced_run_acts.
Qed.
End lwip_locks.

(** ** The service as a whole *)

Section lwip_service.
Context {env : Env} (bind_rpc_addr : Z) (reclaim : bytes → bytes) (fuel : nat).
#[local] Instance lwip_driver' : Driver lwip := lwip_driver bind_rpc_addr.
#[local] Hint Resolve table_keeps_pcb_state : zt_keeps.

Lemma table_keeps_check i f :
  keeps (on_app (table_wf None)) (lwip_check bind_rpc_addr reclaim f i).
Proof. revert i; induction f as [|f IH]; simpl; table_walk; apply IH. Qed.

Lemma table_keeps_flush i f : keeps (on_app (table_wf None)) (lwip_flush f i).
Proof.
  revert i; induction f as [|f IH]; simpl; table_walk;
    first [apply table_keeps_lwip_handleWrite | apply IH].
Qed.

Lemma table_keeps_lwip_poll timeout :
  keeps (on_app (table_wf None)) (poll (tap_handler (DR:=lwip_driver bind_rpc_addr) reclaim) fuel timeout).
Proof. apply app_keeps_poll, tap_handler_keeps; typeclasses eauto. Qed.
#[local] Hint Resolve table_keeps_check table_keeps_flush table_keeps_lw_timer
  table_keeps_lwip_poll : zt_keeps.

Lemma table_keeps_lwip_round prev :
  keeps (on_app (table_wf None)) (lwip_round bind_rpc_addr reclaim fuel prev).
Proof. unfold lwip_round. destruct prev as [[p1 p2] p3]. table_walk. Qed.

(** The process around the service, as for picoTCP. *)
Inductive lwip_step : svc (host (tap lwip)) → svc (host (tap lwip)) → Prop :=
  | lstep_round s prev r s' :
      lwip_round bind_rpc_addr reclaim fuel prev s = Ok (r, s') → lwip_step s s'
  | lstep_put s from to et d s' : put from to et d s = Ok (tt, s') → lwip_step s s'
  | lstep_addIp s ip b s' : addIp ip s = Ok (b, s') → lwip_step s s'
  | lstep_removeIp s ip b s' : removeIp ip s = Ok (b, s') → lwip_step s s'
  | lstep_scan s r s' : scanMulticastGroups s = Ok (r, s') → lwip_step s s'
  | lstep_enable s b s' : setEnabled b s = Ok (tt, s') → lwip_step s s'
  | lstep_proxy s path nwid a r s' : startProxyServer path nwid a s = Ok (r, s') → lwip_step s s'
  | lstep_stop s r s' : stopProxyServer s = Ok (r, s') → lwip_step s s'.

Lemma lwip_step_table s s' : lwip_step s s' → on_app (table_wf None) s → on_app (table_wf None) s'.
Proof.
  intros [] Hs; (eapply keeps_run; [|done..]).
  - apply table_keeps_lwip_round.
  - apply dt_rx.
  - apply table_keeps_addIp.
  - apply table_keeps_removeIp.
  - apply table_keeps_scan.
  - apply table_keeps_enable.
  - apply table_keeps_startProxy.
  - apply table_keeps_stopProxy.
Qed.

(** Timers that only send frames and acknowledge data. *)
Definition quiet_act (a : lw_act) : bool :=
  match a with
  | ActOutput _ | ActSent _ _ | ActConnected _ => true
  | ActRecved _ _ _ | ActAccept _ _ | ActErr _ _ => false
  end.

Class TimersQuiet : Prop := timers_quiet : ∀ (c : Svc.sc (list lw_act)) tr,
  c = LwTcpTmr ∨ c = LwEtharpTmr → Forall (λ a, quiet_act a = true) (answer c tr).

Lemma balanced_quiet_acts l :
  Forall (λ a, quiet_act a = true) l → balanced (all_m ∖ {[lwip_m]}) (run_acts l).
Proof.
  induction 1 as [|a l Ha Hl IH]; simpl; [apply balanced_ret|].
  apply balanced_bind; [|intros; apply IH]. destruct a; try done; simpl.
  - apply balanced_bind; [apply balanced_low_level_output|intros; apply balanced_ret].
  - unfold nc_sent. balanced_walk.
  - unfold nc_connected, reply. balanced_walk.
Qed.

Lemma balanced_timer (c : Svc.sc (list lw_act)) :
  TimersQuiet → c = LwTcpTmr ∨ c = LwEtharpTmr → balanced all_m (lw_timer c).
Proof.
  intros HT Hc. unfold lw_timer. apply balanced_locked'; [set_dec|].
  intros s Hs. rewrite bind_ask.
  apply (balanced_quiet_acts _ (HT c (s_trace s) Hc) (Svc _ (s_held s) _) Hs).
Qed.

#[local] Hint Extern 0 (balanced all_m (tap_phyOnUnixData _ _ _ _)) =>
  apply balanced_phyOnUnixData; typeclasses eauto : zt_locks.
#[local] Hint Resolve balanced_pcb_state : zt_locks.

Lemma balanced_check i f : SendsRecover env →
  balanced all_m (lwip_check bind_rpc_addr reclaim f i).
Proof. intros HS. revert i; induction f as [|f IH]; simpl; balanced_walk; apply IH. Qed.

Lemma balanced_flush i f : balanced all_m (lwip_flush f i).
Proof.
  assert (∀ conn, balanced all_m (lwip_handleWrite conn)) as Hw
    by (intros; eapply balanced_from; [apply balanced_lwip_handleWrite|set_dec]).
  revert i; induction f as [|f IH]; simpl; balanced_walk; first [apply Hw|apply IH].
Qed.

Lemma balanced_lwip_round prev :
  SendsRecover env → TimersQuiet → balanced all_m (lwip_round bind_rpc_addr reclaim fuel prev).
Proof.
  intros HS HT. assert (∀ t, balanced all_m (poll (tap_handler (DR:=lwip_driver') reclaim) fuel t))
    as Hp by (intros; apply balanced_poll, tap_handler_locks; typeclasses eauto).
  unfold lwip_round. destruct prev as [[p1 p2] p3]. apply balanced_bind; [apply balanced_ask|].
  intros now. cbv zeta.
  apply balanced_bind; [by apply balanced_when, balanced_check|]. intros _.
  apply balanced_bind; [apply balanced_when, balanced_bind|intros _].
  { apply balanced_timer; auto. }
  { intros _. apply balanced_flush. }
  apply balanced_bind; [apply balanced_when, balanced_timer; auto|]. intros _.
  apply balanced_bind; [apply Hp|]. intros; apply balanced_ret.
Qed.

Lemma balanced_lwip_rounds rounds prev :
  SendsRecover env → TimersQuiet →
  balanced all_m (lwip_rounds bind_rpc_addr reclaim fuel rounds prev).
Proof.
  intros HS HT. revert prev; induction rounds as [|n IH]; intros; simpl; [by apply balanced_undef|].
  apply balanced_bind; [apply balanced_get_app|]. intros t. destruct (t_run t).
  - apply balanced_bind; [by apply balanced_lwip_round|]. intros; apply IH.
  - apply balanced_ask.
Qed.
End lwip_service.

(** ** Properties *)

(** C27: the same for the lwIP service: in every state it can reach, whatever the kernel
    and the stack do, the pointers in the table of connections are distinct and
    live, the buffers have their full size, no connection object is lost, and
    looking a connection up is defined. *)
Theorem lwip_reachable_table {env : Env} bind_rpc_addr reclaim fuel s s' sock :
  table_wf None (h_app (s_user s)) → rtc (lwip_step bind_rpc_addr reclaim fuel) s s' →
  table_wf None (h_app (s_user s')) ∧
  ∃ a, getConnection sock s' = Ok (a, s') ∧ (a = 0 ∨ a ∈ t_conns (h_app (s_user s'))).
Proof.
  intros Hs Hr. assert (table_wf None (h_app (s_user s'))) as Hs'.
  { induction Hr as [|s s1 s' H1 Hr IH]; [done|]. apply IH.
    by apply (lwip_step_table bind_rpc_addr reclaim fuel s s1 H1). }
  split; [done|]. by eapply getConnection_total.
Qed.

(** C29: the thread of the lwIP service never locks a mutex it holds and ends with none,
    as long as no send fails for good and the timers of the stack only send
    frames and acknowledge data. *)
Theorem lwip_loop_locks {env : Env} bind_rpc_addr reclaim fuel rounds s :
  SendsRecover env → TimersQuiet → s_held s = ∅ →
  match lwip_loop bind_rpc_addr reclaim fuel rounds s with
  | Ok (_, s') => s_held s' = ∅
  | Undef u => u ≠ SelfDeadlock
  end.
Proof.
  intros HS HT Hs.
  pose proof (balanced_lwip_rounds bind_rpc_addr reclaim fuel rounds (0, 0, 0) HS HT s) as Hb.
  rewrite Hs in Hb. apply Hb. set_solver.
Qed.

(** Closing a live connection while the stack's mutex is held. *)
Lemma handleClose_deadlock {env : Env} sock conn c (s : svc (host (tap lwip))) :
  lwip_m ∈ s_held s → t_heap (h_app (s_user s)) !! conn = Some c →
  c_type c = SOCK_STREAM → c_TCP_pcb c ≠ 0 →
  (∀ tr, answer (LwTcpState (c_TCP_pcb c)) tr ∉ [CLOSED; SYN_SENT]) →
  lwip_handleClose sock conn s = Undef SelfDeadlock.
Proof.
  intros Hl Hc Hty Hp Hst. unfold lwip_handleClose, pcb_state.
  rewrite (bind_deref_conn conn c) by done. rewrite Hty, bind_when_false.
  apply Z.eqb_neq in Hp. rewrite Hp.
  pose proof (Hst (s_trace s)) as H1. rewrite !not_elem_of_cons in H1. destruct H1 as (H1 & _ & _).
  rewrite bind_ask. cbn [s_trace]. apply Z.eqb_neq in H1. rewrite H1.
  rewrite bind_ask. cbn [s_trace s_held s_user].
  match goal with |- context [answer _ (?e :: ?tr)] => pose proof (Hst (e :: tr)) as H2 end.
  rewrite !not_elem_of_cons in H2. destruct H2 as (_ & H2 & _). apply Z.eqb_neq in H2.
  rewrite H2. apply bind_undef_l. unfold lw_out, locked.
  rewrite bind_lock, decide_True; done.
Qed.

Lemma closeConnection_deadlock {env : Env} sock conn c (s : svc (host (tap lwip))) :
  let t := h_app (s_user s) in
  lwip_m ∈ s_held s → (close_m ∉ s_held s) → sock ≠ 0 → conn ≠ 0 →
  find_conn (λ d, c_sock d =? sock) (t_heap t) (t_conns t) = Ok conn →
  t_heap t !! conn = Some c → c_type c = SOCK_STREAM → c_TCP_pcb c ≠ 0 →
  (∀ tr, answer (LwTcpState (c_TCP_pcb c)) tr ∉ [CLOSED; SYN_SENT]) →
  closeConnection sock s = Undef SelfDeadlock.
Proof.
  intros t Hl Hcl Hs Hc0 Hf Hc Hty Hp Hst. apply locked_undef; [done|].
  apply Z.eqb_neq in Hs. rewrite Hs. simpl drv_preClose. unfold getConnection.
  rewrite bind_ret, !bind_assoc, bind_get_app. cbn [s_user]. fold t. rewrite Hf, bind_lift_ok.
  apply Z.eqb_neq in Hc0. rewrite Hc0. apply bind_undef_l.
  by eapply handleClose_deadlock; [set_solver|..].
Qed.

(** C38: the condition on the timers cannot be dropped.  When a timer of lwIP gives a
    connection up (it calls [nc_err] from [tcp_tmr], which [__tcp_tmr] runs with the
    stack's mutex held) and the connection's control block is in any state but
    CLOSED and SYN_SENT, the driver closes it with [__tcp_close] and the thread
    waits for the mutex it has. *)
Theorem lwip_timer_deadlock {env : Env} conn c n err acts s :
  let t := h_app (s_user s) in
  s_held s = ∅ → t_heap t !! conn = Some c → conn ≠ 0 →
  phy_heap (h_phy (s_user s)) !! c_sock c = Some n → c_sock c ≠ 0 →
  find_conn (λ d, c_sock d =? c_sock c) (t_heap t) (t_conns t) = Ok conn →
  c_type c = SOCK_STREAM → c_TCP_pcb c ≠ 0 →
  answer LwTcpTmr (s_trace s) = ActErr conn err :: acts →
  (∀ tr, answer (LwTcpState (c_TCP_pcb c)) tr ∉ [CLOSED; SYN_SENT]) →
  lw_timer LwTcpTmr s = Undef SelfDeadlock.
Proof.
  intros t Hh Hc Hc0 Hn Hn0 Hf Hty Hp Hacts Hst.
  apply locked_undef; [set_solver|]. rewrite bind_ask. cbn [s_trace]. rewrite Hacts.
  simpl run_acts. apply bind_undef_l. apply locked_undef; [set_solver|].
  rewrite (bind_deref_conn conn c) by done. unfold getDescriptor.
  rewrite bind_assoc, (bind_deref _ n) by done. rewrite bind_ret.
  set (ret := match err_errno err with Some e => _ | None => _ end).
  assert (∀ s : svc (host (tap lwip)), ∃ tr, ret s = Ok (tt, Svc tr (s_held s) (s_user s))) as Hr.
  { intros s0. unfold ret, sendReturnValue. destruct (err_errno err); [|by exists (s_trace s0); destruct s0].
    eexists. rewrite bind_ask. done. }
  match goal with |- (ret ≫= _) ?s1 = _ => destruct (Hr s1) as [tr E] end.
  unfold mbind, sm_bind. rewrite E. cbn [s_held s_user].
  apply (closeConnection_deadlock (c_sock c) conn c); try done; cbn [s_held]; rewrite Hh; set_dec.
Qed.

(** ** Examples *)

(** An application is connected on descriptor 12 and has created a stream socket. *)
Definition demo_setup : M (tap lwip) Z :=
  sk ← wrapSocket 12 0;
  lwip_handleSocket (env:=calm) sk (le_bytes 4 2 ++ le_bytes 4 SOCK_STREAM ++ le_bytes 8 0).
Definition lwip_demo : svc (host (tap lwip)) := after demo_setup (service0 (LwipState true)).

Lemma lwip_demo_table : table_wf None (h_app (s_user lwip_demo)).
Proof.
  destruct (after_ok demo_setup (service0 (LwipState true))) as (a & E); [vm_compute; reflexivity|].
  refine (keeps_run (on_app (table_wf None)) _ _ _ _ _ E _); [|apply service0_table].
  apply keeps_bind; [eauto with zt_keeps|].
  intros sk. apply (dt_handleSocket (env:=calm) (DR:=lwip_driver (env:=calm) 0)).
Qed.

Lemma lwip_reachable_table_witness :
  ∃ s', lwip_round (env:=calm) 0 id 20 (0, 0, 0) lwip_demo = Ok ((0, 0, 0), s') ∧
    table_wf None (h_app (s_user s')).
Proof.
  set (s' := after (lwip_round (env:=calm) 0 id 20 (0, 0, 0)) lwip_demo).
  assert (lwip_round (env:=calm) 0 id 20 (0, 0, 0) lwip_demo = Ok ((0, 0, 0), s')) as E.
  { destruct (after_ok (lwip_round (env:=calm) 0 id 20 (0, 0, 0)) lwip_demo) as (a & E);
      [vm_compute; reflexivity|]. fold s' in E. rewrite E. do 2 f_equal.
    change a with (match Ok (a, s') with Ok (b, _) => b | Undef _ => a end).
    rewrite <- E. vm_compute; reflexivity. }
  exists s'. split; [exact E|].
  apply (lwip_reachable_table (env:=calm) 0 id 20 lwip_demo s' 1 lwip_demo_table).
  eapply rtc_once, lstep_round, E.
Defined.

Lemma calm_sends : SendsRecover calm.
Proof. intros fd d tr n Hn. pose proof (zlen_nonneg d). unfold n, answer, calm in Hn. lia. Qed.

Lemma lwip_loop_locks_witness :
  match lwip_loop (env:=calm) 0 id 20 3 lwip_demo with
  | Ok (_, s') => s_held s' = ∅
  | Undef u => u ≠ SelfDeadlock
  end.
Proof.
  apply (lwip_loop_locks (env:=calm) 0 id 20 3 lwip_demo).
  - apply calm_sends.
  - intros c tr [-> | ->]; constructor.
  - vm_compute; reflexivity.
Defined.

(** The stack gives connection 1 up. *)
Definition conn_gone : Env := λ R c tr,
  match c in Svc.sc R return R with
  | LwTcpTmr => [ActErr 1 ERR_ABRT]
  | LwTcpState _ => 4
  | c => answer (Env:=calm) c tr
  end.

Lemma lwip_timer_deadlock_witness :
  lw_timer (env:=conn_gone) LwTcpTmr lwip_demo = Undef SelfDeadlock.
Proof.
  assert (c_sock <$> t_heap (h_app (s_user lwip_demo)) !! 1 = Some 1) as E1
    by (vm_compute; reflexivity).
  destruct (t_heap (h_app (s_user lwip_demo)) !! 1) as [c|] eqn:Ec; [|discriminate E1].
  assert (c_sock c = 1 ∧ c_type c = SOCK_STREAM ∧ c_TCP_pcb c = 4096) as (H1 & H2 & H3).
  { assert (c_sock <$> Some c = Some 1 ∧ c_type <$> Some c = Some SOCK_STREAM ∧
      c_TCP_pcb <$> Some c = Some 4096) as (? & ? & ?)
      by (rewrite <- Ec; vm_compute; done). by simplify_eq/=. }
  destruct (phy_heap (h_phy (s_user lwip_demo)) !! 1) as [n|] eqn:En; [|by vm_compute in En].
  apply (lwip_timer_deadlock (env:=conn_gone) 1 c n ERR_ABRT [] lwip_demo);
    rewrite ?H1, ?H2, ?H3; try done.
  intros tr. change (4 ∉ [CLOSED; SYN_SENT]). rewrite !not_elem_of_cons.
  split; [done|]. split; [done|]. apply not_elem_of_nil.
Defined.
