(* ===== verification/Dispatch.v ===== *)
(** * Dispatch of commands and stream data

    Properties of [NetconEthernetTap::phyOnUnixData]: how a command message and its
    token meet, and what becomes of the application's data. *)

From S2P Require Import Prelude Svc Phy Rpc Addr Conn Tap Proxy Pico.
From stdpp Require Import base numbers list gmap sets option.

Open Scope Z_scope.

(** ** The token on the stream *)

(** The padding does not overlap itself, so that the token is found in front of it
    whatever its bytes are. *)
Lemma padding_nonzero i x : (0 < i < 12)%nat → PADDING !! i = Some x → x ≠ 0.
Proof. intros Hi. do 12 (destruct i as [|i]; [try lia; by intros [= <-]|]). lia. Qed.

Lemma find_token canary :
  zlen canary = CANARY_SZ → Prelude.find PADDING (canary ++ PADDING) = CANARY_SZ.
Proof.
  intros Hc. unfold Prelude.find. rewrite <- (app_nil_r PADDING) at 2.
  rewrite find_at_prefix; [by rewrite Hc|]. intros i Hi. unfold zlen, CANARY_SZ in Hc.
  destruct (is_prefix _ _) eqn:E; [|done]. apply is_prefix_spec in E as [k E]. exfalso.
  assert (length (drop (length canary - i) canary) = i) as Hl by (rewrite length_drop; lia).
  assert ((drop (length canary - i) canary ++ PADDING ++ []) !! i = Some 0) as H0.
  { rewrite lookup_app_r by lia. by rewrite Hl, Nat.sub_diag. }
  rewrite E, lookup_app_l in H0 by (simpl; lia).
  by apply (padding_nonzero i 0); [lia|..].
Qed.

Section dispatch.
Context {env : Env} {D : Type} {CD : CloseDriver D} {DR : Driver D}.
Context (reclaim : bytes → bytes).
Implicit Types s : svc (host (tap D)).

(** A change of the service's own state. *)
Definition in_app (f : tap D → tap D) s : svc (host (tap D)) :=
  Svc (s_trace s) (s_held s) (Host (h_phy (s_user s)) (f (h_app (s_user s)))).

Definition reclaimed s : svc (host (tap D)) :=
  in_app (λ t, set_tmpbuf (reclaim (t_tmpbuf t)) t) s.

Lemma bind_reclaim {B} (k : unit → M (tap D) B) s :
  (mod_app (λ t, set_tmpbuf (reclaim (t_tmpbuf t)) t) ≫= k) s = k tt (reclaimed s).
Proof. done. Qed.

(** What a stored command leaves behind: the acknowledgement on the wire, the job,
    and the message in [tmpbuf]. *)
Definition stored fd msg token rpcSock s : svc (host (tap D)) :=
  let s := in_app (λ t, set_jobmap (<[token := rpcSock]> (t_jobmap t))
                          (set_tmpbuf (msg ++ drop (Z.to_nat BUF_SZ) (t_tmpbuf t)) t)) s in
  Svc (Ev (ScWrite fd [122]) (answer (ScWrite fd [122]) (s_trace s)) :: s_trace s)
    (s_held s) (s_user s).

Lemma stored_tmpbuf fd msg token rpcSock s :
  t_tmpbuf (h_app (s_user (stored fd msg token rpcSock s))) =
    msg ++ drop (Z.to_nat BUF_SZ) (t_tmpbuf (h_app (s_user s))).
Proof. done. Qed.

(** A message that is not for a new socket is stored. *)
Lemma rx_message ts cmd canary arg rest rpcSock n s :
  message_ok ts cmd canary arg → cmd ≠ RPC_SOCKET →
  phy_heap (h_phy (s_user s)) !! rpcSock = Some n →
  BUF_SZ <= zlen (reclaim (t_tmpbuf (h_app (s_user s)))) →
  tap_phyOnUnixData reclaim rpcSock (message ts cmd canary arg ++ rest) BUF_SZ s =
    Ok (tt, stored (ps_sock n) (message ts cmd canary arg) (le_val canary) rpcSock (reclaimed s)).
Proof.
  intros Hm Hcmd Hn Hr. unfold tap_phyOnUnixData, detect_rpc. rewrite bind_reclaim.
  change (BUF_SZ =? BUF_SZ) with true. cbv iota. rewrite bind_assoc, message_phrase, bind_lift_ok.
  rewrite bind_ret, bool_decide_true by done. unfold rx_rpc.
  rewrite message_header, bind_lift_ok by done. cbn [h_cmd h_canary].
  apply Z.eqb_neq in Hcmd. rewrite Hcmd. rewrite bind_assoc, bind_get_app.
  set (t := h_app (s_user (reclaimed s))).
  assert (mem_copy 0 (t_tmpbuf t) 0 BUF_SZ (message ts cmd canary arg ++ rest) =
    Ok (message ts cmd canary arg ++ drop (Z.to_nat BUF_SZ) (t_tmpbuf t))) as ->.
  { unfold mem_copy. rewrite mem_read_head by (by rewrite message_zlen). rewrite cres_bind_ok.
    rewrite mem_write_ok; rewrite ?message_zlen by done; [done|lia|done]. }
  rewrite bind_assoc, bind_lift_ok, bind_mod_app. unfold getDescriptor.
  rewrite bind_assoc, (bind_deref _ n) by done. rewrite bind_ret, bind_ask. done.
Qed.

(** A token on its own finds its job. *)
Lemma rx_token canary rest rpcSock sock conn s :
  zlen canary = CANARY_SZ → le_val canary ≠ 0 → rpcSock ≠ 0 → conn ≠ 0 →
  let t := h_app (s_user s) in
  t_jobmap t !! le_val canary = Some rpcSock →
  find_conn (λ c, c_sock c =? sock) (t_heap t) (t_conns t) = Ok conn →
  tap_phyOnUnixData reclaim sock (canary ++ PADDING ++ rest) (CANARY_SZ + PADDING_SZ) s =
    run_job sock rpcSock (le_val canary) conn (reclaimed s).
Proof.
  intros Hc Hz Hr0 Hc0 t Hj Hf. unfold tap_phyOnUnixData, detect_rpc. rewrite bind_reclaim.
  change (CANARY_SZ + PADDING_SZ =? BUF_SZ) with false. cbv iota. rewrite bind_ret.
  unfold rx_stream. rewrite bind_assoc, app_assoc, mem_read_head by (by rewrite zlen_app, Hc).
  rewrite bind_lift_ok, find_token by done. change (CANARY_SZ - CANARY_SZ) with 0.
  unfold find_job. change (-1 <? 0) with true. cbv iota. rewrite !bind_assoc, <- app_assoc.
  rewrite mem_read_head by done. rewrite bind_lift_ok.
  apply Z.eqb_neq in Hz, Hr0, Hc0. rewrite Hz. cbv beta iota delta [negb].
  rewrite bind_assoc. unfold jobmap_index. rewrite bind_assoc, bind_get_app.
  change (t_jobmap (h_app (s_user (reclaimed s)))) with (t_jobmap t). rewrite Hj.
  rewrite bind_ret, Hr0, bind_ret. unfold getConnection. rewrite !bind_assoc, bind_get_app.
  change (t_heap (h_app (s_user (reclaimed s)))) with (t_heap t).
  change (t_conns (h_app (s_user (reclaimed s)))) with (t_conns t).
  rewrite Hf, bind_lift_ok, Hc0. unfold take_stream. change (CANARY_SZ =? -1) with false.
  change ((CANARY_SZ + PADDING_SZ =? CANARY_SZ + PADDING_SZ) && (0 =? 0)) with true. cbv iota.
  by rewrite bind_assoc, bind_ret, bind_assoc, bind_when_false, bind_ret.
Qed.

(** ** What a command is meant to do *)

(** The size of the argument structure of the commands that wait for a token. *)
Definition arg_size (cmd : Z) : option Z :=
  if cmd =? RPC_BIND then Some sizeof_bind_st
  else if cmd =? RPC_LISTEN then Some sizeof_listen_st
  else if cmd =? RPC_GETSOCKNAME then Some sizeof_getsockname_st
  else if cmd =? RPC_GETPEERNAME then Some sizeof_getsockname_st
  else if cmd =? RPC_CONNECT then Some sizeof_connect_st
  else None.

Definition forget (token : Z) : M (tap D) unit :=
  mod_app (λ t, set_jobmap (delete token (t_jobmap t)) t).

(** The operation with its arguments on the connection of [sock], the answer to
    [rpcSock]; the job is done, and the socket of the command is closed unless the
    answer comes later. *)
Definition command (cmd sock rpcSock conn : Z) (arg : bytes) (token : Z) : M (tap D) unit :=
  let finish := locked tcpconns_m (_ ← closeConnection rpcSock; forget token) in
  if cmd =? RPC_BIND then _ ← handleBind sock rpcSock arg; finish
  else if cmd =? RPC_LISTEN then _ ← handleListen sock rpcSock arg; finish
  else if cmd =? RPC_GETSOCKNAME then _ ← handleGetsockname sock rpcSock; finish
  else if cmd =? RPC_GETPEERNAME then _ ← handleGetpeername sock rpcSock; finish
  else _ ← handleConnect sock rpcSock conn arg; forget token.

(** Running the job whose message is in [tmpbuf]. *)
Lemma run_job_command ts cmd canary arg rest sock rpcSock token conn s :
  message_ok ts cmd canary arg → arg_size cmd = Some (zlen arg) →
  t_tmpbuf (h_app (s_user s)) = message ts cmd canary arg ++ rest →
  run_job sock rpcSock token conn s = command cmd sock rpcSock conn arg token s.
Proof.
  intros Hm Ha Hb. unfold run_job, command, forget. rewrite bind_get_app, Hb.
  rewrite message_header, bind_lift_ok by done. cbn [h_cmd]. unfold arg_size in Ha.
  repeat (case_match; [injection Ha as Ha; rewrite message_arg, bind_lift_ok by done; done|]).
  done.
Qed.

Lemma arg_size_not_socket cmd n : arg_size cmd = Some n → cmd ≠ RPC_SOCKET.
Proof. intros Ha ->. by vm_compute in Ha. Qed.

(** [tmpbuf] of a stored message, after it was left alone. *)
Lemma reclaimed_stored fd msg token rpcSock s :
  zlen msg = BUF_SZ →
  (∀ b, take (Z.to_nat BUF_SZ) (reclaim b) = take (Z.to_nat BUF_SZ) b) →
  ∃ rest, t_tmpbuf (h_app (s_user (reclaimed (stored fd msg token rpcSock s)))) = msg ++ rest.
Proof.
  intros Hm Hr. set (b := t_tmpbuf (h_app (s_user (stored fd msg token rpcSock s)))).
  change (∃ rest, reclaim b = msg ++ rest). exists (drop (Z.to_nat BUF_SZ) (reclaim b)).
  rewrite <- (take_drop (Z.to_nat BUF_SZ) (reclaim b)) at 1. f_equal. rewrite Hr. unfold b. simpl.
  rewrite take_app_le by (unfold zlen in Hm; lia). apply take_ge. unfold zlen in Hm. lia.
Qed.
End dispatch.

(** ** Properties *)

Section claims.
Context {env : Env} {D : Type} {CD : CloseDriver D} {DR : Driver D}.
Context (reclaim : bytes → bytes).


(** C37: two commands that wait at the same time are confused.  A pending job does not
    keep its message, only the address of the stack array all activations share:
    when a second message is stored before the first token arrives, the first
    token performs the operation of the second message, with its arguments, on the
    first connection, and reports the result to the first caller. *)
Theorem command_interleaving ts1 cmd1 can1 arg1 rpc1 n1 ts2 cmd2 can2 arg2 rpc2 n2
    rest1 rest2 rest' sock conn (s : svc (host (tap D))) :
  message_ok ts1 cmd1 can1 arg1 → message_ok ts2 cmd2 can2 arg2 →
  arg_size cmd1 = Some (zlen arg1) → arg_size cmd2 = Some (zlen arg2) →
  le_val can1 ≠ 0 → le_val can1 ≠ le_val can2 → rpc1 ≠ 0 → conn ≠ 0 →
  (∀ b, take (Z.to_nat BUF_SZ) (reclaim b) = take (Z.to_nat BUF_SZ) b) →
  (∀ b, zlen (reclaim b) = zlen b) →
  let t := h_app (s_user s) in
  BUF_SZ <= zlen (t_tmpbuf t) →
  phy_heap (h_phy (s_user s)) !! rpc1 = Some n1 → phy_heap (h_phy (s_user s)) !! rpc2 = Some n2 →
  find_conn (λ c, c_sock c =? sock) (t_heap t) (t_conns t) = Ok conn →
  ∃ s1 s2,
    tap_phyOnUnixData reclaim rpc1 (message ts1 cmd1 can1 arg1 ++ rest1) BUF_SZ s = Ok (tt, s1) ∧
    tap_phyOnUnixData reclaim rpc2 (message ts2 cmd2 can2 arg2 ++ rest2) BUF_SZ s1 = Ok (tt, s2) ∧
    tap_phyOnUnixData reclaim sock (can1 ++ PADDING ++ rest') (CANARY_SZ + PADDING_SZ) s2 =
      command cmd2 sock rpc1 conn arg2 (le_val can1) (reclaimed reclaim s2).
Proof.
  intros Hm1 Hm2 Ha1 Ha2 Hz Hne Hr0 Hc0 Hrec Hlen t Hb Hn1 Hn2 Hf. do 2 eexists. split.
  { apply rx_message; try done; [by eapply arg_size_not_socket|by rewrite Hlen]. }
  split.
  { apply rx_message; try done; [by eapply arg_size_not_socket|].
    rewrite Hlen, stored_tmpbuf, zlen_app, message_zlen by done.
    match goal with |- context [zlen (drop ?n ?l)] => pose proof (zlen_nonneg (drop n l)) end. lia. }
  rewrite (rx_token reclaim can1 rest' rpc1 sock conn); try done.
  - match goal with |- run_job _ _ _ _ (reclaimed _ (stored ?fd ?m ?k ?r ?s3)) = _ =>
      destruct (reclaimed_stored reclaim fd m k r s3) as (rest & Er); [by apply message_zlen|done|]
    end.
    by apply (run_job_command ts2 cmd2 can2 arg2 rest).
  - by destruct Hm1.
  - simpl. rewrite lookup_insert_ne by done. by rewrite lookup_insert_eq.
Qed.
End claims.

(** ** Examples *)

#[local] Existing Instance calm.
#[local] Instance demo_driver : Driver pico := pico_driver 9.

(** An application has a stream socket on node 1 (connection 1) and two RPC sockets,
    nodes 2 and 3, over the picoTCP driver. *)
Definition demo_apps : M (tap pico) unit :=
  _ ← pico_addIp (inet4 10 0 0 1 24);
  sk ← wrapSocket 11 0;
  _ ← pico_handleSocket sk (le_bytes 4 2 ++ le_bytes 4 SOCK_STREAM ++ le_bytes 8 0);
  _ ← wrapSocket 12 0; _ ← wrapSocket 13 0; mret tt.
Definition apps : svc (host (tap pico)) :=
  after demo_apps (service0 (PicoState false (memset MAX_PICO_FRAME_RX_BUF_SZ 0) 0)).

Definition demo_listen : bytes := memset 4 3 ++ le_bytes 4 10 ++ memset 4 0.
Definition demo_bind : bytes := memset sizeof_bind_st 9.

Lemma demo_listen_ok : message_ok (memset 20 49) RPC_LISTEN [1;2;3;4;5;6;7;8] demo_listen.
Proof. split; vm_compute; intuition discriminate. Qed.

Lemma demo_bind_ok : message_ok (memset 20 50) RPC_BIND [8;7;6;5;4;3;2;1] demo_bind.
Proof. split; vm_compute; intuition discriminate. Qed.

Definition demo_node (fd : Z) : PhySocketImpl := PhySock ZT_PHY_SOCKET_UNIX_IN fd 0 (memset sizeof_ss 0).


Lemma command_interleaving_witness :
  ∃ s1 s2,
    tap_phyOnUnixData id 2
      (message (memset 20 49) RPC_LISTEN [1;2;3;4;5;6;7;8] demo_listen ++ []) BUF_SZ apps
      = Ok (tt, s1) ∧
    tap_phyOnUnixData id 3
      (message (memset 20 50) RPC_BIND [8;7;6;5;4;3;2;1] demo_bind ++ []) BUF_SZ s1
      = Ok (tt, s2) ∧
    tap_phyOnUnixData id 1 ([1;2;3;4;5;6;7;8] ++ PADDING ++ [])
      (CANARY_SZ + PADDING_SZ) s2 =
    command RPC_BIND 1 2 1 demo_bind (le_val [1;2;3;4;5;6;7;8])
      (reclaimed id s2).
Proof.
  apply (command_interleaving id (memset 20 49) RPC_LISTEN
    [1;2;3;4;5;6;7;8] demo_listen 2 (demo_node 12) (memset 20 50) RPC_BIND [8;7;6;5;4;3;2;1]
    demo_bind 3 (demo_node 13) [] [] [] 1 1 apps demo_listen_ok demo_bind_ok);
    [vm_compute; congruence..|intros b; reflexivity|intros b; reflexivity|vm_compute; congruence
    |vm_compute; reflexivity|vm_compute; reflexivity|vm_compute; reflexivity].
Defined.
