(* ===== verification/Frames.v ===== *)
(** * Frames between the node and the stacks

    [pico_rx] and [pico_eth_poll] share a byte buffer under a mutex: the frame buffer
    refines a queue of frames.  The Ethernet headers both drivers build and take
    apart agree. *)

From S2P Require Import Prelude Svc Phy Rpc Addr Conn Tap Proxy Pico Lwip.
From stdpp Require Import base numbers list gmap sets option.

Open Scope Z_scope.

(** ** The frame buffer as a queue *)

(** A frame in the buffer: the length of all, then the frame. *)
Definition enc (f : bytes) : bytes := le_bytes 4 (zlen f + sizeof_int) ++ f.

Definition encs (fs : list bytes) : bytes := concat (enc <$> fs).

Lemma zlen_enc f : zlen (enc f) = zlen f + sizeof_int.
Proof. unfold enc, sizeof_int. rewrite zlen_app, zlen_le_bytes. lia. Qed.

Lemma encs_cons f fs : encs (f :: fs) = enc f ++ encs fs.
Proof. done. Qed.

Lemma encs_snoc fs f : encs (fs ++ [f]) = encs fs ++ enc f.
Proof. unfold encs. rewrite fmap_app, concat_app. simpl. by rewrite app_nil_r. Qed.

Record frames_at (fs : list bytes) (p : pico) : Prop := {
  fa_tap : picotap_set p = true;
  fa_size : zlen (pico_frame_rxbuf p) = MAX_PICO_FRAME_RX_BUF_SZ;
  fa_tot : pico_frame_rxbuf_tot p = zlen (encs fs);
  fa_content : ∃ rest, pico_frame_rxbuf p = encs fs ++ rest
}.

Section frames.
Context {env : Env}.
Implicit Types s : svc (host (tap pico)).

Abbreviation drv_of s := (t_drv (h_app (s_user s))).

(** The state with another driver state. *)
Definition with_drv (p : pico) s : svc (host (tap pico)) :=
  Svc (s_trace s) (s_held s) (Host (h_phy (s_user s)) (set_drv p (h_app (s_user s)))).

Lemma bind_mod_drv {B} f (k : unit → M (tap pico) B) s :
  (mod_drv f ≫= k) s = k tt (with_drv (f (drv_of s)) s).
Proof. done. Qed.

Lemma bind_picotap {B} (k : tap pico → M (tap pico) B) s :
  picotap_set (drv_of s) = true → (picotap ≫= k) s = k (h_app (s_user s)) s.
Proof. intros H. unfold picotap. by rewrite bind_assoc, bind_get_app, H. Qed.

Lemma make_room_fits fuel newlen proto (k : unit → M (tap pico) unit) s :
  pico_frame_rxbuf_tot (drv_of s) + newlen <= MAX_PICO_FRAME_RX_BUF_SZ →
  (pico_make_room (S fuel) newlen proto ≫= k) s = k tt s.
Proof.
  intros H. simpl. rewrite bind_assoc, bind_get_app.
  rewrite (proj2 (Z.ltb_ge _ _)) by lia. done.
Qed.

(** The three writes of [pico_rx] put one more frame behind the others. *)
Lemma put_frame fs rest h data :
  zlen h = sizeof_pico_eth_hdr →
  zlen data + sizeof_int + sizeof_pico_eth_hdr <= zlen rest →
  ∃ rest',
    (b ← mem_write (zlen (encs fs)) (le_bytes 4 (zlen data + sizeof_int + sizeof_pico_eth_hdr))
           (encs fs ++ rest);
     b ← mem_write (zlen (encs fs) + sizeof_int) h b;
     mem_write (zlen (encs fs) + sizeof_int + sizeof_pico_eth_hdr) data b) =
      Ok (encs (fs ++ [h ++ data]) ++ rest') ∧
    zlen (encs (fs ++ [h ++ data]) ++ rest') = zlen (encs fs ++ rest).
Proof.
  intros Hh Hl. pose proof (zlen_nonneg data). unfold sizeof_int, sizeof_pico_eth_hdr in *.
  destruct (bytes_split 4 rest) as (r1 & r2 & -> & Hr1); [lia|]. rewrite zlen_app in Hl.
  destruct (bytes_split 14 r2) as (r3 & r4 & -> & Hr3); [lia|]. rewrite zlen_app in Hl.
  destruct (bytes_split (zlen data) r4) as (r5 & r6 & -> & Hr5); [lia|]. exists r6.
  rewrite (mem_write_seg (encs fs) r1) by (rewrite ?zlen_le_bytes; lia). rewrite cres_bind_ok.
  rewrite app_assoc, (mem_write_seg _ r3) by (rewrite ?zlen_app, ?zlen_le_bytes; lia).
  rewrite cres_bind_ok.
  rewrite app_assoc, (mem_write_seg _ r5) by (rewrite ?zlen_app, ?zlen_le_bytes; lia).
  rewrite encs_snoc. split.
  - unfold enc, sizeof_int. rewrite zlen_app, Hh, <- !app_assoc. do 4 f_equal. lia.
  - rewrite !zlen_app, zlen_enc, zlen_app, Hh. unfold sizeof_int. lia.
Qed.

Lemma bind_lift3 {A B C} (r1 : cres A) (r2 : A → cres B) (r3 : B → cres C)
    (k : C → M (tap pico) unit) s :
  (a ← lift r1; b ← lift (r2 a); c ← lift (r3 b); k c) s =
  (c ← lift (a ← r1; b ← r2 a; r3 b); k c) s.
Proof.
  destruct r1 as [a|]; [|done]. rewrite bind_lift_ok, cres_bind_ok.
  destruct (r2 a) as [b|]; [|done]. by rewrite bind_lift_ok, cres_bind_ok.
Qed.

Lemma rx_frame from to et data fs s :
  frames_at fs (drv_of s) → pico_frame_rxbuf_m ∉ s_held s →
  let f := eth_hdr from to et ++ data in
  zlen (encs fs) + zlen f + sizeof_int <= MAX_PICO_FRAME_RX_BUF_SZ →
  ∃ p, pico_rx from to et data s = Ok (tt, with_drv p s) ∧ frames_at (fs ++ [f]) p.
Proof.
  intros [Ht Hz Htot (rest & Hc)] Hm f Hl.
  assert (zlen (eth_hdr from to et) = sizeof_pico_eth_hdr) as Hh by done.
  assert (zlen f = sizeof_pico_eth_hdr + zlen data) as Hf by (unfold f; by rewrite zlen_app, Hh).
  rewrite Hc, zlen_app in Hz.
  destruct (put_frame fs rest (eth_hdr from to et) data) as (rest' & Hp & Hpz); [done|lia|].
  set (b := encs (fs ++ [f]) ++ rest').
  set (p := set_rxq b (zlen (encs fs) + (zlen data + sizeof_int + sizeof_pico_eth_hdr)) (drv_of s)).
  exists p. split.
  - unfold pico_rx. set (s1 := Svc (s_trace s) ({[pico_frame_rxbuf_m]} ∪ s_held s) (s_user s)).
    apply (locked_run _ _ _ _ (with_drv p s1)); [done| |done]. fold s1.
    rewrite make_room_fits by (change (drv_of s1) with (drv_of s); lia).
    rewrite bind_get_app. change (drv_of s1) with (drv_of s). rewrite Htot, Hc, bind_lift3, Hp. done.
  - unfold p. split; cbn [picotap_set set_rxq pico_frame_rxbuf pico_frame_rxbuf_tot].
    + done.
    + unfold b, f. by rewrite Hpz, zlen_app.
    + rewrite encs_snoc, zlen_app, zlen_enc, Hf. lia.
    + by exists rest'.
Qed.

(** What [pico_eth_poll] gave to the stack. *)
Definition received (fs : list bytes) : trace := (λ f, Ev (PicoStackRecv f) tt) <$> reverse fs.

(** One frame leaves the buffer. *)
Lemma take_frame f fs rest :
  zlen f <= SDK_MTU → zlen (encs (f :: fs) ++ rest) = MAX_PICO_FRAME_RX_BUF_SZ →
  let buf := encs (f :: fs) ++ rest in
  let len := zlen f + sizeof_int in
  get_int 0 buf = Ok len ∧
  (∃ frame, mem_copy 0 (memset SDK_MTU 0) sizeof_int (len - sizeof_int) buf = Ok frame ∧
     take (Z.to_nat (len - sizeof_int)) frame = f) ∧
  ∃ r rest', mem_read len (MAX_PICO_FRAME_RX_BUF_SZ - len) buf = Ok r ∧
    mem_write 0 r buf = Ok (encs fs ++ rest') ∧
    zlen (encs fs ++ rest') = MAX_PICO_FRAME_RX_BUF_SZ.
Proof.
  intros Hf Hz buf len. pose proof (zlen_nonneg f).
  assert (buf = le_bytes 4 len ++ f ++ (encs fs ++ rest)) as Hb.
  { unfold buf. rewrite encs_cons. unfold enc. by rewrite <- !app_assoc. }
  assert (zlen (le_bytes 4 len) = sizeof_int) as H4 by apply zlen_le_bytes.
  split_and!.
  - unfold get_int. rewrite Hb, mem_read_head by done. rewrite cres_bind_ok. f_equal.
    apply int_roundtrip. unfold len, sizeof_int, SDK_MTU in *. lia.
  - replace (len - sizeof_int) with (zlen f) by (unfold len; lia). unfold mem_copy.
    rewrite Hb, mem_read_seg, cres_bind_ok by done.
    destruct (bytes_split (zlen f) (memset SDK_MTU 0)) as (a & b & -> & Ha).
    { rewrite zlen_memset by done. lia. }
    rewrite mem_write_head by done. eexists. split; [done|]. apply take_app_length'.
    unfold zlen. lia.
  - exists (encs fs ++ rest).
    assert (zlen (le_bytes 4 len ++ f) = len) as Hlen by (rewrite zlen_app, H4; unfold len; lia).
    assert (buf = (le_bytes 4 len ++ f) ++ (encs fs ++ rest) ++ []) as Hb'
      by (by rewrite app_nil_r, <- app_assoc).
    fold buf in Hz. assert (zlen (encs fs ++ rest) = MAX_PICO_FRAME_RX_BUF_SZ - len) as Hr.
    { rewrite Hb', !zlen_app in Hz. rewrite !zlen_app in *. change (zlen []) with 0 in Hz. lia. }
    destruct (bytes_split (zlen (encs fs ++ rest)) buf) as (a & b & E & Ha).
    { pose proof (zlen_nonneg (encs fs ++ rest)). unfold len, sizeof_int in *. lia. }
    exists (rest ++ b). split; [rewrite Hb'; by apply mem_read_seg|]. rewrite app_assoc.
    split; [rewrite E; by apply mem_write_head|].
    rewrite E, zlen_app in Hz. by rewrite zlen_app, <- Ha.
Qed.

Lemma poll_frames n fs s :
  frames_at fs (drv_of s) → Forall (λ f, zlen f <= SDK_MTU) fs →
  ∃ p, frames_at (drop n fs) p ∧
    pico_poll_loop n s = Ok (Z.of_nat (n - length fs),
      let s' := with_drv p s in
      Svc (received (take n fs) ++ s_trace s') (s_held s') (s_user s')).
Proof.
  revert fs s. induction n as [|n IH]; intros fs s Hq Hf.
  - exists (drv_of s). split; [done|]. simpl. unfold mret, sm_ret, with_drv. do 3 f_equal.
    destruct s as [tr h [ph t]]. cbn. f_equal. f_equal. by destruct t.
  - destruct Hq as [Ht Hz Htot (rest & Hc)]. cbn [pico_poll_loop]. rewrite bind_picotap by done.
    cbv zeta. rewrite Htot. destruct fs as [|f fs].
    { exists (drv_of s). split; [split; try done; by exists rest|]. change (0 <? zlen (encs [])) with false.
      cbv iota. unfold mret, sm_ret, with_drv. do 3 f_equal.
      destruct s as [tr h [ph t]]. cbn. f_equal. f_equal. by destruct t. }
    inversion_clear Hf as [|?? Hf0 Hfs].
    assert (0 < zlen (encs (f :: fs))) as Hpos.
    { rewrite encs_cons, zlen_app, zlen_enc. unfold sizeof_int.
      pose proof (zlen_nonneg f). pose proof (zlen_nonneg (encs fs)). lia. }
    rewrite (proj2 (Z.ltb_lt _ _)) by done. rewrite Hc in Hz.
    destruct (take_frame f fs rest) as (E1 & (frame & E2 & E3) & (r & rest' & E4 & E5 & E6)); [done..|].
    pose proof (zlen_nonneg f).
    rewrite Hc, E1, bind_lift_ok, (proj2 (Z.leb_le _ _)) by (unfold sizeof_int; lia).
    rewrite E2, bind_lift_ok, E4, bind_lift_ok, E5, bind_lift_ok, bind_mod_drv, bind_ask, bind_mod_drv, E3.
    match goal with |- context [pico_poll_loop n ?s'] =>
      destruct (IH fs s') as (p & Hp & ->); [|done|] end.
    + split; [done|done| |by exists rest']. 
      change (zlen (encs (f :: fs)) - (zlen f + sizeof_int) = zlen (encs fs)).
      rewrite encs_cons, zlen_app, zlen_enc. lia.
    + exists p. split; [done|]. unfold received. cbn [take]. rewrite reverse_cons, fmap_app.
      simpl. rewrite <- app_assoc. by destruct (answer _ _).
Qed.

(** ** Headers *)

Lemma mem_read_all_after a b off n : off = zlen a → n = zlen b → mem_read off n (a ++ b) = Ok b.
Proof. intros -> ->. rewrite <- (app_nil_r b) at 2. by apply mem_read_seg. Qed.

(** The copy of a chain is its content. *)
Lemma copy_chain_concat (p : pbuf) a b :
  zlen (concat p) <= zlen b →
  copy_chain p (zlen a) (a ++ b) =
    Ok (a ++ concat p ++ drop (length (concat p)) b, zlen a + zlen (concat p)).
Proof.
  revert a b. induction p as [|q p IH]; intros a b Hl; simpl in *.
  - rewrite drop_0. change (zlen []) with 0. by rewrite Z.add_0_r.
  - rewrite zlen_app in Hl. pose proof (zlen_nonneg (concat p)).
    pose proof (zlen_nonneg q).
    destruct (bytes_split (zlen q) b) as (b1 & b2 & -> & Hb); [lia|]. rewrite zlen_app in Hl.
    rewrite mem_write_seg, cres_bind_ok by done. rewrite app_assoc, <- (zlen_app a q).
    rewrite IH by lia. rewrite !zlen_app, <- !app_assoc, Z.add_assoc. do 5 f_equal.
    rewrite length_app, <- drop_drop. f_equal. symmetry. apply drop_app_length'.
    unfold zlen in Hb. lia.
Qed.

(** The fields of a header are the values it was made of. *)
Lemma eth_hdr_fields from to et rest :
  0 <= from < 2 ^ 48 → 0 <= to < 2 ^ 48 → 0 <= et < 2 ^ 16 →
  let b := eth_hdr from to et ++ rest in
  mem_read 0 6 b = Ok (MAC.octets to) ∧ mem_read 6 6 b = Ok (MAC.octets from) ∧
  ∃ d, mem_read 12 2 b = Ok d ∧ ntoh 2 (le_val d) = et.
Proof.
  intros Hf Ht He b. unfold b, eth_hdr. rewrite <- !app_assoc. split; [by apply mem_read_head|].
  split; [by apply mem_read_seg|]. rewrite app_assoc.
  eexists. split; [by apply mem_read_seg|]. unfold wrap. rewrite Z.mod_small by done.
  rewrite le_val_bytes_small by apply le_val_bound, be_bytes_ok. by apply hton_involutive.
Qed.
End frames.

(** ** Properties *)

Section frame_claims.
Context {env : Env}.
Implicit Types s : svc (host (tap pico)).

Abbreviation drv_of s := (t_drv (h_app (s_user s))).


(** C39: a frame of the network can be too long for [pico_eth_poll].  The node passes
    frames of up to 2800 bytes; one whose data has more than 1186 is queued, and
    the next poll copies it over the end of its array of 1200 bytes. *)
Theorem pico_frame_overflow from to et data n s :
  frames_at [] (drv_of s) → pico_frame_rxbuf_m ∉ s_held s →
  SDK_MTU - sizeof_pico_eth_hdr < zlen data <= ZT_MAX_MTU → 0 < n →
  ∃ s', pico_rx from to et data s = Ok (tt, s') ∧ pico_eth_poll n s' = Undef OutOfBounds.
Proof.
  intros Hq Hm Hd Hn. set (f := eth_hdr from to et ++ data).
  assert (zlen f = 14 + zlen data) as Hz by (unfold f; by rewrite zlen_app).
  unfold SDK_MTU, sizeof_pico_eth_hdr, ZT_MAX_MTU in *.
  destruct (rx_frame from to et data [] s) as (p & E & [Ht Hb Htot (rest & Hc)]); [done..| |].
  { fold f. rewrite Hz. change (zlen (encs [])) with 0. unfold MAX_PICO_FRAME_RX_BUF_SZ, sizeof_int, ZT_MAX_MTU. lia. }
  exists (with_drv p s). split; [done|]. unfold pico_eth_poll. rewrite bind_picotap by done.
  rewrite (proj2 (Z.ltb_lt _ _)) by done. apply locked_undef; [done|].
  destruct (Z.to_nat n) as [|k] eqn:Ek; [lia|]. cbn [pico_poll_loop]. rewrite bind_picotap by done.
  cbn [s_user with_drv h_app]. change (t_drv (set_drv p (h_app (s_user s)))) with p.
  change ([] ++ [eth_hdr from to et ++ data]) with [f] in Htot, Hc. rewrite Htot, Hc.
  assert (encs [f] = le_bytes 4 (zlen f + sizeof_int) ++ f) as He
    by (rewrite encs_cons; unfold encs; simpl; by rewrite app_nil_r).
  rewrite He. rewrite (proj2 (Z.ltb_lt 0 _)) by (rewrite zlen_app, zlen_le_bytes; lia).
  unfold get_int. rewrite <- app_assoc, mem_read_head, cres_bind_ok, bind_lift_ok by done.
  rewrite int_roundtrip by (unfold sizeof_int; lia).
  rewrite (proj2 (Z.leb_le _ _)) by (unfold sizeof_int; lia).
  replace (zlen f + sizeof_int - sizeof_int) with (zlen f) by lia.
  unfold mem_copy. rewrite (mem_read_seg _ f _ sizeof_int), cres_bind_ok by done. unfold mem_write.
  rewrite zlen_memset by done. rewrite (proj2 (Z.leb_gt (0 + zlen f) SDK_MTU)) by (rewrite Hz; unfold SDK_MTU; lia).
  by rewrite andb_false_r.
Qed.

(** A frame as the drivers put it together. *)
Definition frame_of (from to et : Z) (data : bytes) : bytes := eth_hdr from to et ++ data.

(** Both drivers take a frame apart the way they put one together.  A frame whose
    header was built for [from], [to] and [et] - as [pico_rx] and [lwip_rx] do -
    is reported to the node with exactly these addresses, type and data, whether it
    lies in one piece ([pico_eth_send]) or in a chain of buffers
    ([low_level_output]). *)
Theorem eth_frame_roundtrip from to et data :
  0 <= from < 2 ^ 48 → 0 <= to < 2 ^ 48 → 0 <= et < 2 ^ 16 → zlen data <= ZT_MAX_MTU →
  let f := frame_of from to et data in
  (∀ s, picotap_set (drv_of s) = true →
     pico_eth_send f (zlen f) s =
       (_ ← ask (ScHandler (t_nwid (h_app (s_user s))) from to et data); mret (zlen f)) s) ∧
  (∀ (p : pbuf) (s : svc (host (tap lwip))), concat p = f →
     (∀ n tr, 0 <= n → zlen (answer (ScUninit n) tr) = n) →
     low_level_output p s =
       (_ ← ask (ScUninit (ZT_MAX_MTU + 32));
        _ ← ask (ScHandler (t_nwid (h_app (s_user s))) from to et data); mret ERR_OK) s).
Proof.
  intros Hf Ht He Hd f. unfold frame_of in f. assert (zlen f = 14 + zlen data) as Hz by (unfold f; by rewrite zlen_app).
  split.
  - intros s Hs. unfold pico_eth_send.
    destruct (eth_hdr_fields from to et data) as (E1 & E2 & d & E3 & E4); [done..|].
    unfold f. rewrite E1, bind_lift_ok, E2, bind_lift_ok, E3, bind_lift_ok, !mac_wire_roundtrip by done.
    rewrite !bind_lift_ok, bind_picotap by done. fold f. rewrite Hz, E4. unfold f.
    rewrite (mem_read_all_after (eth_hdr from to et)) by (unfold sizeof_pico_eth_hdr; done || lia).
    by rewrite bind_lift_ok.
  - intros p s Hp Hg. unfold low_level_output. rewrite !bind_ask.
    pose proof (Hg (ZT_MAX_MTU + 32) (s_trace s)) as Hgz. set (g := answer _ _) in *.
    pose proof (copy_chain_concat p [] g) as Hcc. rewrite Hp in Hcc.
    change ([] ++ g) with g in Hcc. change (zlen []) with 0 in Hcc.
    rewrite Hcc by (rewrite Hz; unfold ZT_MAX_MTU in *; lia). rewrite bind_lift_ok.
    change ([] ++ f ++ drop (length f) g) with (f ++ drop (length f) g). set (r := drop (length f) g).
    assert (f ++ r = eth_hdr from to et ++ data ++ r) as -> by (unfold f; by rewrite app_assoc).
    destruct (eth_hdr_fields from to et (data ++ r)) as (E1 & E2 & d & E3 & E4);
      [done..|].
    rewrite E1, bind_lift_ok, E2, bind_lift_ok, E3, bind_lift_ok, !mac_wire_roundtrip by done.
    rewrite !bind_lift_ok, bind_get_app, E4.
    rewrite (mem_read_seg (eth_hdr from to et) data) by (rewrite ?Hz; unfold sizeof_eth_hdr; done || lia).
    by rewrite bind_lift_ok, !bind_ask.
Qed.
End frame_claims.

(** ** Examples *)

#[local] Existing Instance calm.

(** The service after [addIp], before any frame. *)
Definition pico_idle : svc (host (tap pico)) :=
  service0 (PicoState true (memset MAX_PICO_FRAME_RX_BUF_SZ 0) 0).

Lemma pico_idle_frames : frames_at [] (t_drv (h_app (s_user pico_idle))).
Proof. split; [done|by apply zlen_memset|done|]. by eexists. Qed.


Lemma pico_frame_overflow_witness :
  ∃ s', pico_rx 1 2 2048 (memset 1187 5) pico_idle = Ok (tt, s') ∧
    pico_eth_poll 1 s' = Undef OutOfBounds.
Proof.
  apply (pico_frame_overflow 1 2 2048 (memset 1187 5) 1 pico_idle).
  - apply pico_idle_frames.
  - change (pico_frame_rxbuf_m ∉ (∅ : gset mutex)). apply not_elem_of_empty.
  - vm_compute. split; congruence.
  - lia.
Defined.

Lemma eth_frame_roundtrip_witness :
  pico_eth_send (frame_of 1 2 2048 [7; 8; 9]) 17 pico_idle =
    (_ ← ask (ScHandler (t_nwid (h_app (s_user pico_idle))) 1 2 2048 [7; 8; 9]); mret 17) pico_idle.
Proof.
  destruct (eth_frame_roundtrip 1 2 2048 [7; 8; 9]) as [H _]; [lia..|vm_compute; congruence|].
  apply (H pico_idle). reflexivity.
Defined.
