(* ===== verification/Stream.v ===== *)
(** * The application's stream

    What becomes of the bytes an application writes to its socket:
    [NetconEthernetTap::phyOnUnixData] appends them to the transmit buffer of the
    connection and the driver hands a prefix of the buffer to the stack.  The buffer
    is a queue: the specification is one sequence of bytes, of which the stack has
    taken a prefix.  [StreamDriver] is what the tap needs of a driver for that; both
    drivers implement it. *)

From S2P Require Import Prelude Svc Phy Rpc Addr Conn Tap Proxy Pico Lwip Dispatch Frames.
From stdpp Require Import base numbers list gmap sets option.

Open Scope Z_scope.

(** ** The transmit queue *)

Definition txq (c : Connection) : bytes := take (Z.to_nat (c_txsz c)) (c_txbuf c).

Definition tx_ok (c : Connection) : Prop :=
  conn_ok c ∧ 0 <= c_txsz c <= DEFAULT_TCP_TX_BUF_SZ.

(** The connection is still the same one to the application and to the stack. *)
Definition same_stream (c c' : Connection) : Prop :=
  c_sock c' = c_sock c ∧ c_picosock c' = c_picosock c ∧ c_TCP_pcb c' = c_TCP_pcb c ∧
  c_type c' = c_type c.

#[global] Instance same_stream_preorder : PreOrder same_stream.
Proof. split; [done|]. intros c c' c'' (? & ? & ? & ?) (? & ? & ? & ?). repeat split; congruence. Qed.

Lemma tx_ok_len c : tx_ok c → zlen (c_txbuf c) = DEFAULT_TCP_TX_BUF_SZ.
Proof. intros [[H _] _]. exact H. Qed.

Lemma txq_zlen c : tx_ok c → zlen (txq c) = c_txsz c.
Proof. intros H. pose proof (tx_ok_len c H). destruct H as [_ H]. unfold txq. rewrite zlen_take; lia. Qed.

(** Appending at the end of the queue. *)
Lemma txq_append c d b :
  tx_ok c → c_txsz c + zlen d <= DEFAULT_TCP_TX_BUF_SZ →
  mem_write (c_txsz c) d (c_txbuf c) = Ok b →
  let c' := set_txsz (c_txsz c + zlen d) (set_txbuf b c) in
  txq c' = txq c ++ d ∧ tx_ok c'.
Proof.
  intros H Hl Hb c'. pose proof (tx_ok_len c H) as Hz. pose proof (zlen_nonneg d).
  destruct H as [Hok Hsz]. split.
  - apply mem_write_inv in Hb as (_ & _ & ->). unfold c', txq. cbn [c_txsz c_txbuf set_txsz set_txbuf].
    unfold zlen in *. rewrite app_assoc, take_app_le by (rewrite length_app, length_take; lia).
    apply take_ge. rewrite length_app, length_take. lia.
  - split; [|cbn [c_txsz c' set_txsz]; lia].
    apply (conn_ok_txbuf b) in Hok; [exact Hok|]. by rewrite (mem_write_zlen _ _ _ _ Hb).
Qed.

(** Dropping a prefix of the queue. *)
Lemma txq_drop c r b :
  tx_ok c → 0 <= r <= c_txsz c →
  (if c_txsz c - r =? 0 then b = c_txbuf c
   else mem_copy 0 (c_txbuf c) r (c_txsz c - r) (c_txbuf c) = Ok b) →
  let c' := set_txsz (c_txsz c - r) (set_txbuf b c) in
  txq c' = drop (Z.to_nat r) (txq c) ∧ tx_ok c'.
Proof.
  intros H Hr Hb c'. pose proof (tx_ok_len c H) as Hz. destruct H as [Hok Hsz].
  assert (zlen b = DEFAULT_TCP_TX_BUF_SZ) as Hbz.
  { destruct (c_txsz c - r =? 0); [by subst b|]. by rewrite (mem_copy_zlen _ _ _ _ _ _ Hb). }
  split; [|split; [by apply (conn_ok_txbuf b) in Hok|cbn [c_txsz c' set_txsz]; lia]].
  unfold c', txq. cbn [c_txsz c_txbuf set_txsz set_txbuf]. destruct (Z.eqb_spec (c_txsz c - r) 0) as [E|E].
  - rewrite E, drop_ge; [done|]. rewrite length_take. unfold zlen in *. lia.
  - unfold mem_copy in Hb. destruct (mem_read _ _ _) as [d|] eqn:Ed; [|done].
    rewrite cres_bind_ok in Hb. pose proof (mem_read_zlen _ _ _ _ Ed) as Hd.
    apply mem_read_inv in Ed as (_ & _ & _ & Ed). apply mem_write_inv in Hb as (_ & _ & ->).
    unfold zlen in *. rewrite take_0, app_nil_l, take_app_le by lia.
    rewrite take_ge by lia. rewrite Ed, skipn_firstn_comm. f_equal. lia.
Qed.

(** What the stack was given and took, oldest byte first. *)
Fixpoint sent (w : event → bytes) (tr : trace) : bytes :=
  match tr with
  | [] => []
  | e :: tr' => sent w tr' ++ w e
  end.

(** ** What the tap needs of a driver *)

Abbreviation heap_of s := (t_heap (h_app (s_user s))).
Abbreviation conns_of s := (t_conns (h_app (s_user s))).

(** Nothing but the connections, the scratch array and the trace differ. *)
Definition same_world {D} (s s' : svc (host (tap D))) : Prop :=
  s_held s' = s_held s ∧ h_phy (s_user s') = h_phy (s_user s) ∧
  t_drv (h_app (s_user s')) = t_drv (h_app (s_user s)).

(** [sd_ready] is what the driver needs to hand bytes to the stack, [sd_sent] the
    bytes of the connection an event made the stack take; [sd_takes n] holds if the
    stack always takes [n] bytes at once. *)
Class StreamDriver {env : Env} {D} (DR : Driver D) := {
  sd_ready : Connection → svc (host (tap D)) → Prop;
  sd_sent : Connection → event → bytes;
  sd_takes : Z → Prop;
  sd_ready_same c c' s s' : same_stream c c' → same_world s s' → sd_ready c s → sd_ready c' s';
  sd_sent_same c c' : same_stream c c' → sd_sent c' = sd_sent c;
  sd_write conn c s :
    conn ≠ 0 → heap_of s !! conn = Some c → tx_ok c → sd_ready c s →
    ∃ c' s', drv_handleWrite conn s = Ok (tt, s') ∧
      heap_of s' = <[conn := c']> (heap_of s) ∧ conns_of s' = conns_of s ∧
      tx_ok c' ∧ c_txsz c' <= c_txsz c ∧ same_stream c c' ∧ sd_ready c' s' ∧
      sent (sd_sent c) (s_trace s') ++ txq c' = sent (sd_sent c) (s_trace s) ++ txq c ∧
      ∀ n, sd_takes n → c_txsz c <= n → c_txsz c' = 0
}.

(** Data that is neither taken for a command nor searched for a token. *)
Definition plain (d : bytes) : Prop :=
  0 < zlen d ∧ (zlen d = BUF_SZ → take (Z.to_nat RPC_PHRASE_SZ) d ≠ RPC_PHRASE) ∧
  Prelude.find PADDING d = -1.

Section stream.
Context {env : Env} {D : Type} {CD : CloseDriver D} {DR : Driver D} {SD : StreamDriver DR}.
Context (reclaim : bytes → bytes).
Implicit Types s : svc (host (tap D)).

Lemma find_conn_upd p (h : gmap Z Connection) l a c c' :
  h !! a = Some c → p c' = p c → find_conn p (<[a := c']> h) l = find_conn p h l.
Proof.
  intros Ha Hp. induction l as [|b l IH]; [done|]. simpl. destruct (decide (a = b)) as [<-|Hne].
  - rewrite lookup_insert_eq, Ha, Hp. by rewrite IH.
  - rewrite lookup_insert_ne by done. destruct (h !! b) as [c0|]; [|done]. by rewrite IH.
Qed.

Lemma detect_plain {B} d rest (k : bool → M (tap D) B) s :
  plain d → (detect_rpc (d ++ rest) (zlen d) ≫= k) s = k false s.
Proof.
  intros (_ & Hph & _). unfold detect_rpc. destruct (Z.eqb_spec (zlen d) BUF_SZ) as [E|]; [|done].
  rewrite mem_read_app_l, mem_read_ok by (unfold BUF_SZ, RPC_PHRASE_SZ in *; lia).
  rewrite bind_assoc, bind_lift_ok, bind_ret, bool_decide_false; [done|]. by apply Hph.
Qed.

(** A message of plain data is appended to the queue, and the driver called. *)
Lemma rx_plain d rest sock conn c s :
  plain d → conn ≠ 0 → heap_of s !! conn = Some c → tx_ok c →
  c_txsz c + zlen d <= DEFAULT_TCP_TX_BUF_SZ →
  find_conn (λ c, c_sock c =? sock) (heap_of s) (conns_of s) = Ok conn →
  ∃ c', txq c' = txq c ++ d ∧ tx_ok c' ∧ c_txsz c' = c_txsz c + zlen d ∧ same_stream c c' ∧
    tap_phyOnUnixData reclaim sock (d ++ rest) (zlen d) s =
      (_ ← drv_handleWrite conn; mret tt)
        (in_app (λ t, set_heap (<[conn := c']> (t_heap t)) t) (reclaimed reclaim s)).
Proof.
  intros Hpl Hc0 Hh Hok Hl Hf. pose proof Hpl as (Hd & _ & Hpad). pose proof (tx_ok_len c Hok) as Hz.
  destruct (mem_write_total (c_txsz c) d (c_txbuf c)) as (b & Hb & _); [destruct Hok; lia|lia|].
  exists (set_txsz (c_txsz c + zlen d) (set_txbuf b c)).
  destruct (txq_append c d b) as [H1 H2]; [done..|].
  split; [done|split; [done|split; [done|split; [done|]]]].
  unfold tap_phyOnUnixData. rewrite bind_reclaim, detect_plain by done.
  unfold rx_stream. rewrite bind_assoc, mem_read_head, bind_lift_ok, Hpad by done.
  change (-1 - CANARY_SZ) with (-9). unfold find_job. change (-1 <? -9) with false. cbv iota.
  rewrite bind_assoc, bind_ret. unfold getConnection. rewrite !bind_assoc, bind_get_app.
  change (t_heap (h_app (s_user (reclaimed reclaim s)))) with (heap_of s).
  change (t_conns (h_app (s_user (reclaimed reclaim s)))) with (conns_of s).
  rewrite Hf, bind_lift_ok. apply Z.eqb_neq in Hc0. rewrite Hc0. unfold take_stream.
  change (-1 =? -1) with true. cbv iota. rewrite !bind_assoc, (bind_deref_conn conn c) by done.
  unfold mem_copy. rewrite mem_read_head, cres_bind_ok by done. rewrite Hb.
  rewrite bind_assoc, bind_lift_ok, bind_assoc, (bind_upd_conn conn c) by done.
  rewrite bind_ret. rewrite (proj2 (Z.eqb_neq _ _)) by lia. change (negb false) with true.
  rewrite bind_assoc, bind_when_true, bind_assoc, (bind_upd_conn conn (set_txbuf b c))
    by (cbn; by rewrite lookup_insert_eq).
  cbn [s_trace s_held s_user h_phy h_app t_heap set_heap].
  unfold in_app. cbn [s_trace s_held s_user h_phy h_app]. cbn.
  by rewrite insert_insert_eq.
Qed.

(** The messages of one application arrive one after another; [rest] is what the
    buffer of [poll] holds behind each. *)
Fixpoint rx_all (sock : Z) (l : list (bytes * bytes)) : M (tap D) unit :=
  match l with
  | [] => mret tt
  | (d, rest) :: l' => _ ← tap_phyOnUnixData reclaim sock (d ++ rest) (zlen d); rx_all sock l'
  end.

Definition total (l : list (bytes * bytes)) : bytes := concat (fst <$> l).

(** The queue of the connection behind the socket [sock]. *)
Record stream_at (sock conn : Z) (c : Connection) s : Prop := {
  sa_live : heap_of s !! conn = Some c;
  sa_ptr : conn ≠ 0;
  sa_found : find_conn (λ c, c_sock c =? sock) (heap_of s) (conns_of s) = Ok conn;
  sa_tx : tx_ok c;
  sa_ready : sd_ready c s
}.

Lemma rx_one d rest sock conn c s :
  stream_at sock conn c s → plain d → c_txsz c + zlen d <= DEFAULT_TCP_TX_BUF_SZ →
  ∃ c' s', tap_phyOnUnixData reclaim sock (d ++ rest) (zlen d) s = Ok (tt, s') ∧
    stream_at sock conn c' s' ∧ same_stream c c' ∧ c_txsz c' <= c_txsz c + zlen d ∧
    sent (sd_sent c) (s_trace s') ++ txq c' = sent (sd_sent c) (s_trace s) ++ txq c ++ d ∧
    ∀ n, sd_takes n → c_txsz c + zlen d <= n → c_txsz c' = 0.
Proof.
  intros [Hh H0 Hf Hok Hr] Hd Hl.
  destruct (rx_plain d rest sock conn c s) as (c1 & Hq & Hok1 & Hsz1 & Hs1 & ->); [done..|].
  set (s1 := in_app _ _).
  destruct (sd_write conn c1 s1) as (c2 & s2 & E & Hh2 & Hcs2 & Hok2 & Hsz2 & Hs2 & Hr2 & Hsent & Hall).
  - done.
  - apply lookup_insert_eq.
  - done.
  - by apply (sd_ready_same c c1 s).
  - exists c2, s2. unfold mbind, sm_bind. rewrite E. split; [done|]. split.
    { split; [by rewrite Hh2, lookup_insert_eq|done| |done..]. rewrite Hh2, Hcs2.
      change (heap_of s1) with (<[conn := c1]> (heap_of s)). rewrite insert_insert_eq.
      rewrite (find_conn_upd _ _ _ _ c); [done..|]. by rewrite (proj1 Hs2), (proj1 Hs1). }
    split; [by etrans|]. split; [lia|]. rewrite (sd_sent_same c c1) in Hsent by done.
    split; [by rewrite Hsent, Hq|]. by rewrite <- Hsz1.
Qed.

(** The queue is one sequence of bytes, of which the stack has a prefix. *)
Lemma rx_all_fifo l sock conn c s :
  stream_at sock conn c s → Forall (λ m, plain m.1) l →
  c_txsz c + zlen (total l) <= DEFAULT_TCP_TX_BUF_SZ →
  ∃ c' s', rx_all sock l s = Ok (tt, s') ∧ stream_at sock conn c' s' ∧
    sent (sd_sent c) (s_trace s') ++ txq c' = sent (sd_sent c) (s_trace s) ++ txq c ++ total l ∧
    ∀ n, sd_takes n → c_txsz c = 0 → Forall (λ m, zlen m.1 <= n) l → c_txsz c' = 0.
Proof.
  intros Hs Hl. revert c s Hs. induction Hl as [|[d rest] l Hd Hl IH]; intros c s Hs Hz.
  - exists c, s. split; [done|]. split; [done|]. unfold total. simpl. by rewrite app_nil_r.
  - change (total ((d, rest) :: l)) with (d ++ total l) in *. rewrite zlen_app in Hz.
    pose proof (zlen_nonneg (total l)).
    destruct (rx_one d rest sock conn c s) as (c1 & s1 & E1 & Hs1 & Hsame & Hz1 & Hq1 & Ha1); [done..|lia|].
    destruct (IH c1 s1) as (c2 & s2 & E2 & Hs2 & Hq2 & Ha2); [done|lia|].
    exists c2, s2. simpl. unfold mbind, sm_bind. rewrite E1. split; [done|]. split; [done|].
    rewrite (sd_sent_same c c1) in Hq2 by done. rewrite Hq2, (app_assoc (sent _ _)), Hq1.
    split; [by rewrite <- !app_assoc|]. intros n Hn H0 Hsz. inversion_clear Hsz as [|?? Hd0 Hl0].
    simpl in Hd0. apply (Ha2 n); [done| |done]. apply (Ha1 n); [done|lia].
Qed.
End stream.

(** ** The drivers *)

(** [tx_advance] drops what the stack took. *)
Lemma tx_advance_run {D} conn c r (s : svc (host (tap D))) :
  heap_of s !! conn = Some c → tx_ok c → 0 <= r <= c_txsz c →
  ∃ c', tx_advance conn r s = Ok (tt, in_app (λ t, set_heap (<[conn := c']> (t_heap t)) t) s) ∧
    txq c' = drop (Z.to_nat r) (txq c) ∧ tx_ok c' ∧ c_txsz c' = c_txsz c - r ∧ same_stream c c'.
Proof.
  intros Hh Hok Hr. pose proof (tx_ok_len c Hok) as Hz. pose proof (proj2 Hok).
  assert (∃ b, if c_txsz c - r =? 0 then b = c_txbuf c
    else mem_copy 0 (c_txbuf c) r (c_txsz c - r) (c_txbuf c) = Ok b) as (b & Hb).
  { destruct (c_txsz c - r =? 0); [by eexists|]. unfold mem_copy.
    rewrite mem_read_ok, cres_bind_ok by lia.
    edestruct mem_write_total as (b & E & _); [reflexivity| |by exists b].
    rewrite zlen_take; [lia|]. rewrite zlen_drop; lia. }
  exists (set_txsz (c_txsz c - r) (set_txbuf b c)).
  destruct (txq_drop c r b) as [H1 H2]; [done..|]. split; [|done].
  unfold tx_advance. rewrite (bind_deref_conn conn c) by done.
  destruct (c_txsz c - r =? 0) eqn:E.
  - subst b. rewrite bind_when_false, bind_mret, (bind_upd_conn conn c) by done. by destruct c.
  - rewrite bind_when_true, Hb, bind_assoc, bind_lift_ok, (bind_upd_conn conn c) by done.
    rewrite bind_mret, (bind_upd_conn conn (set_txbuf b c)) by apply lookup_insert_eq.
    unfold in_app. cbn. by rewrite insert_insert_eq.
Qed.

(** [pico_socket_write] takes at most what it is given. *)
Class PicoWrites (env : Env) : Prop :=
  pico_write_le : ∀ s d tr, answer (PicoSocketWrite s d) tr <= zlen d.

Definition pico_sent (c : Connection) (e : event) : bytes :=
  let '@Ev R call r := e in
  match call in Svc.sc R return R → bytes with
  | PicoSocketWrite s d => λ r, if s =? c_picosock c then take (Z.to_nat r) d else []
  | _ => λ _, []
  end r.

#[export, program] Instance pico_stream {env : Env} `{!PicoWrites env} fuel :
    StreamDriver (pico_driver fuel) := {|
  sd_ready c s := c_picosock c ≠ 0 ∧ picotap_set (t_drv (h_app (s_user s))) = true;
  sd_sent := pico_sent;
  sd_takes n := n <= SDK_MTU ∧ ∀ s d tr, answer (PicoSocketWrite s d) tr = zlen d
|}.
Next Obligation. intros ??? c c' s s' (_ & -> & _) (_ & _ & ->). done. Qed.
Next Obligation. intros ??? c c' (_ & Hp & _). unfold pico_sent. by rewrite Hp. Qed.
Next Obligation.
  intros env Hw fuel conn c s H0 Hh Hok [Hp Ht]. cbn [drv_handleWrite pico_driver].
  unfold pico_handleWrite. apply Z.eqb_neq in H0, Hp. rewrite H0, (bind_deref_conn conn c) by done.
  rewrite Hp. unfold picotap. rewrite bind_assoc, bind_get_app, Ht, bind_ret.
  pose proof (tx_ok_len c Hok) as Hz. pose proof (proj2 Hok).
  set (n := if c_txsz c <? SDK_MTU then c_txsz c else SDK_MTU).
  assert (0 <= n <= c_txsz c) as Hn by (unfold n, SDK_MTU; case_match; lia).
  rewrite mem_read_ok, bind_lift_ok, bind_ask, drop_0 by lia. set (d := take _ (c_txbuf c)).
  assert (zlen d = n) as Hd by (unfold d; rewrite zlen_take; lia).
  pose proof (Hw (c_picosock c) d (s_trace s)) as Hr. set (r := answer _ _) in *.
  set (s1 := Svc _ _ _).
  assert (sent (pico_sent c) (s_trace s1) =
    sent (pico_sent c) (s_trace s) ++ take (Z.to_nat r) (txq c)) as Hs1.
  { unfold s1. simpl. rewrite Z.eqb_refl. f_equal. unfold d, txq. rewrite !take_take. f_equal. lia. }
  destruct (Z.ltb_spec r 0) as [Hneg|Hpos].
  - exists c, s1. split; [done|]. rewrite (insert_id (heap_of s)) by done.
    replace (Z.to_nat r) with O in Hs1 by lia. rewrite take_0, app_nil_r in Hs1.
    rewrite Hs1. apply Z.eqb_neq in Hp. do 7 (split; [done|]). intros m [_ Ht0]. exfalso.
    unfold r in Hneg. rewrite Ht0 in Hneg. lia.
  - destruct (tx_advance_run conn c r s1) as (c' & E & Hq & Hok' & Hz' & Hs); [done..|lia|].
    exists c', (in_app (λ t, set_heap (<[conn := c']> (t_heap t)) t) s1). split; [done|].
    do 2 (split; [done|]). split; [done|]. split; [lia|]. split; [done|]. split.
    { destruct Hs as (_ & -> & _). by apply Z.eqb_neq in Hp. }
    change (s_trace (in_app _ s1)) with (s_trace s1). rewrite Hs1, Hq, <- app_assoc, take_drop.
    split; [done|]. intros m [Hm Ht0] Hcm. unfold r in Hz'. rewrite Ht0, Hd in Hz'.
    unfold n in Hz'. destruct (Z.ltb_spec (c_txsz c) SDK_MTU); lia.
Qed.

(** The lwIP stack outputs frames that have a header and fit the buffer of
    [low_level_output], and its send buffer has no negative size. *)
Class LwOutputs (env : Env) : Prop := {
  lw_sndbuf : ∀ pcb tr, 0 <= answer (LwTcpSndBuf pcb) tr;
  lw_frames : ∀ pcb tr, Forall (λ p : pbuf, sizeof_eth_hdr <= zlen (concat p) <= ZT_MAX_MTU + 32)
                          (answer (LwTcpOutput pcb) tr);
  lw_uninit : ∀ n tr, 0 <= n → zlen (answer (ScUninit n) tr) = n
}.

Definition lwip_sent (c : Connection) (e : event) : bytes :=
  let '@Ev R call r := e in
  match call in Svc.sc R return R → bytes with
  | LwTcpWrite pcb d => λ r, if (pcb =? c_TCP_pcb c) && (r =? ERR_OK) then d else []
  | _ => λ _, []
  end r.

Section lwip_stream.
Context {env : Env} {LO : LwOutputs env}.
Implicit Types s : svc (host (tap lwip)).

(** Only calls that hand no stream data to the stack happened. *)
Definition silent (c : Connection) s s' : Prop :=
  s_held s' = s_held s ∧ s_user s' = s_user s ∧
  sent (lwip_sent c) (s_trace s') = sent (lwip_sent c) (s_trace s).

Lemma mac_total d : zlen d = 6 → ∃ m, MAC.setTo d 6 = Ok m.
Proof.
  intros Hd. unfold zlen in Hd. do 6 (destruct d as [|? d]; [simpl in Hd; lia|]).
  destruct d; [|simpl in Hd; lia]. by eexists.
Qed.

Lemma low_level_output_total c p s :
  sizeof_eth_hdr <= zlen (concat p) <= ZT_MAX_MTU + 32 →
  ∃ r s', low_level_output p s = Ok (r, s') ∧ silent c s s'.
Proof.
  unfold sizeof_eth_hdr, ZT_MAX_MTU. intros Hp. unfold low_level_output. rewrite bind_ask.
  pose proof (lw_uninit (ZT_MAX_MTU + 32) (s_trace s)) as Hg. set (g := answer _ _) in *.
  unfold ZT_MAX_MTU in Hg. pose proof (copy_chain_concat p [] g) as Hcc. change (zlen []) with 0 in Hcc.
  change ([] ++ g) with g in Hcc. rewrite Hcc by lia. set (b := [] ++ _ ++ _).
  assert (zlen b = zlen g) as Hb.
  { unfold b. unfold zlen in *. rewrite !length_app, length_drop. simpl. lia. }
  rewrite bind_lift_ok. rewrite !mem_read_ok by (unfold sizeof_eth_hdr; lia). rewrite !bind_lift_ok.
  destruct (mac_total (take (Z.to_nat 6) (drop (Z.to_nat 6) b))) as (m1 & ->).
  { rewrite zlen_take; [lia|]. rewrite zlen_drop; lia. }
  destruct (mac_total (take (Z.to_nat 6) (drop (Z.to_nat 0) b))) as (m2 & ->).
  { rewrite zlen_take; [lia|]. rewrite zlen_drop; lia. }
  rewrite !bind_lift_ok, bind_get_app, bind_lift_ok, bind_ask. do 2 eexists. split; [reflexivity|].
  split; [done|]. split; [done|]. simpl. by rewrite !app_nil_r.
Qed.

#[local] Instance silent_trans c : Transitive (silent c).
Proof. intros s1 s2 s3 (? & ? & ?) (? & ? & ?). split; [congruence|split; congruence]. Qed.

Lemma output_total c frames s :
  Forall (λ p : pbuf, sizeof_eth_hdr <= zlen (concat p) <= ZT_MAX_MTU + 32) frames →
  ∃ s', output frames s = Ok (tt, s') ∧ silent c s s'.
Proof.
  intros Hf. revert s. induction Hf as [|p l Hp Hl IH]; intros s; [by exists s|].
  destruct (low_level_output_total c p s Hp) as (r & s1 & E1 & H1).
  destruct (IH s1) as (s2 & E2 & H2). exists s2. simpl. unfold mbind, sm_bind. rewrite E1.
  split; [done|]. by etrans.
Qed.

Lemma tcp_output_total c pcb s :
  lwip_m ∉ s_held s → ∃ s', lw_out_ (LwTcpOutput pcb) s = Ok (tt, s') ∧ silent c s s'.
Proof.
  intros Hh. unfold lw_out_. rewrite bind_mret, bind_locked, bind_lock, decide_False by done.
  rewrite bind_assoc, bind_ask. cbn [s_trace s_held s_user]. set (s1 := Svc _ _ _).
  destruct (output_total c (answer (LwTcpOutput pcb) (s_trace s)) s1) as (s2 & E & H1 & H2 & H3);
    [apply lw_frames|].
  unfold mbind at 1, sm_bind at 1. simpl in *. rewrite E, bind_unlock. eexists. split; [reflexivity|].
  split; [|split; [done|]]; simpl.
  - rewrite H1. set_solver.
  - rewrite H3. by rewrite app_nil_r.
Qed.

Lemma bind_lw {R B : Type} (q : Svc.sc R) (k : R → M (tap lwip) B) s :
  lwip_m ∉ s_held s →
  (lw q ≫= k) s =
    k (answer q (s_trace s)) (Svc (Ev q (answer q (s_trace s)) :: s_trace s) (s_held s) (s_user s)).
Proof.
  intros Hh. unfold lw. rewrite bind_locked, bind_lock, decide_False, bind_ask, bind_unlock by done.
  cbn [s_trace s_held s_user]. do 2 f_equal. set_solver.
Qed.

Definition lwip_ready (c : Connection) s : Prop :=
  c_type c = SOCK_STREAM ∧ c_TCP_pcb c ≠ 0 ∧ c_sock c ≠ 0 ∧ (lwip_m ∉ s_held s) ∧
  ∃ n, phy_heap (h_phy (s_user s)) !! c_sock c = Some n ∧ fd_in_range (ps_sock n) = true.

Definition lwip_takes (n : Z) : Prop :=
  (∀ pcb tr, n <= answer (LwTcpSndBuf pcb) tr) ∧
  ∀ pcb d tr, answer (LwTcpWrite pcb d) tr = ERR_OK.

(** The outcome of a call of [lwip_handleWrite], which empties the queue if [all]
    holds. *)
Definition wrote (conn : Z) (c : Connection) (all : Prop) s s' : Prop :=
  ∃ c', heap_of s' = <[conn := c']> (heap_of s) ∧ conns_of s' = conns_of s ∧
    tx_ok c' ∧ c_txsz c' <= c_txsz c ∧ same_stream c c' ∧ lwip_ready c' s' ∧
    sent (lwip_sent c) (s_trace s') ++ txq c' = sent (lwip_sent c) (s_trace s) ++ txq c ∧
    (all → c_txsz c' = 0).

Lemma wrote_silent conn c (all : Prop) s s' :
  heap_of s !! conn = Some c → tx_ok c → lwip_ready c s → (all → c_txsz c = 0) →
  silent c s s' → wrote conn c all s s'.
Proof.
  intros Hh Hok (H1 & H2 & H3 & H4) Hall (E1 & E2 & E3). exists c. unfold lwip_ready.
  rewrite E1, E2, E3, insert_id by done. done.
Qed.

(** The send buffer is full. *)
Lemma lwip_full conn c (all : Prop) s :
  heap_of s !! conn = Some c → tx_ok c → lwip_ready c s → (all → c_txsz c = 0) →
  ∃ s', (_ ← setNotifyReadable (c_sock c) false; upd_conn conn (set_probation true)) s = Ok (tt, s') ∧
    wrote conn c all s s'.
Proof.
  intros Hh Hok (H1 & H2 & H3 & H6 & n & H4 & H5) Hall. unfold setNotifyReadable.
  rewrite bind_assoc, (bind_deref _ n), bind_assoc, bind_get_phy by done.
  unfold FD_CLR. rewrite H5, bind_assoc, bind_lift_ok, bind_mod_phy.
  rewrite bind_mret, (bind_upd_conn conn c) by done. eexists. split; [reflexivity|].
  exists (set_probation true c). do 2 (split; [done|]). split; [done|]. split; [cbn; lia|].
  split; [done|]. split; [|done]. do 4 (split; [done|]). by exists n.
Qed.

(** The stack is given [r] bytes and may refuse them. *)
Lemma lwip_ship conn c (all : Prop) s r :
  heap_of s !! conn = Some c → tx_ok c → lwip_ready c s → 0 <= r <= c_txsz c →
  (all → r = c_txsz c ∧ ∀ pcb d tr, answer (LwTcpWrite pcb d) tr = ERR_OK) →
  ∃ s', (d ← lift (mem_read 0 r (c_txbuf c));
         err ← lw (LwTcpWrite (c_TCP_pcb c) d);
         _ ← lw_out_ (LwTcpOutput (c_TCP_pcb c));
         if negb (err =? ERR_OK) then mret tt else tx_advance conn r) s = Ok (tt, s') ∧
    wrote conn c all s s'.
Proof.
  intros Hh Hok Hrd Hr Hall. pose proof (tx_ok_len c Hok). pose proof (proj2 Hok).
  pose proof Hrd as (H1 & H2 & _ & H3 & H4).
  rewrite mem_read_ok, bind_lift_ok, bind_lw, drop_0 by (done || lia). set (s1 := Svc _ _ _).
  destruct (tcp_output_total c (c_TCP_pcb c) s1) as (s2 & E & Hh2 & Hu2 & Hs2); [done|].
  unfold mbind, sm_bind. rewrite E. clear E. unfold s1 in *. simpl in Hs2, Hh2, Hu2.
  rewrite Z.eqb_refl in Hs2. simpl in Hs2. set (err := answer _ _) in *.
  assert (lwip_ready c s2) as Hrd2 by (unfold lwip_ready; rewrite Hh2, Hu2; done).
  destruct (Z.eqb_spec err ERR_OK) as [_|Herr]; cbn [negb].
  - destruct (tx_advance_run conn c r s2) as (c' & E & Hq & Hok' & Hz' & Hsm); [by rewrite Hu2|done..|].
    eexists. split; [exact E|]. exists c'. unfold in_app. simpl.
    rewrite Hu2. do 2 (split; [done|]). split; [done|]. split; [lia|]. split; [done|]. split.
    { unfold lwip_ready in *. destruct Hsm as (-> & _ & -> & ->). by rewrite Hu2 in Hrd2. }
    split; [|intros Ha; apply Hall in Ha as [-> _]; lia]. rewrite Hs2, Hq, <- app_assoc. f_equal.
    etrans; [|apply (take_drop (Z.to_nat r))]. f_equal. unfold txq. rewrite take_take. f_equal. lia.
  - eexists. split; [reflexivity|]. apply wrote_silent; [done..| |].
    { intros Ha. apply Hall in Ha as [_ Ha]. destruct Herr. apply Ha. }
    split; [done|]. split; [done|]. by rewrite Hs2, app_nil_r.
Qed.

Lemma silent_wrote conn c all s s1 s2 : silent c s s1 → wrote conn c all s1 s2 → wrote conn c all s s2.
Proof. intros (_ & H2 & H3) (c' & H). exists c'. by rewrite H2, H3 in H. Qed.

(** What is left of [lwip_write_tcp] when the send buffer is not full. *)
Lemma lwip_some conn c sb s :
  heap_of s !! conn = Some c → tx_ok c → lwip_ready c s → 0 < c_txsz c → 0 <= sb →
  ∃ s', (_ ← when (negb (c_listening c)) (lw_out_ (LwTcpOutput (c_TCP_pcb c)));
         if c_sock c =? 0 then mret tt
         else
           let r := if c_txsz c <? sb then c_txsz c else sb in
           if 0 <? r then
             d ← lift (mem_read 0 r (c_txbuf c));
             err ← lw (LwTcpWrite (c_TCP_pcb c) d);
             _ ← lw_out_ (LwTcpOutput (c_TCP_pcb c));
             if negb (err =? ERR_OK) then mret tt else tx_advance conn r
           else mret tt) s = Ok (tt, s') ∧
    wrote conn c (c_txsz c <= sb ∧ ∀ pcb d tr, answer (LwTcpWrite pcb d) tr = ERR_OK) s s'.
Proof.
  intros Hh Hok Hrd Hz Hsb. pose proof Hrd as (_ & _ & Hsk & Hm & _).
  assert (∃ s2, when (negb (c_listening c)) (lw_out_ (LwTcpOutput (c_TCP_pcb c))) s = Ok (tt, s2)
    ∧ silent c s s2) as (s2 & E2 & Hs2).
  { destruct (c_listening c); [by exists s|]. by apply tcp_output_total. }
  unfold mbind at 1, sm_bind at 1. rewrite E2. apply Z.eqb_neq in Hsk. rewrite Hsk. cbv zeta.
  assert (heap_of s2 !! conn = Some c ∧ lwip_ready c s2) as [Hh2 Hrd2].
  { destruct Hs2 as (Ha & Hb & _). unfold lwip_ready. by rewrite Ha, Hb. }
  set (r := if c_txsz c <? sb then c_txsz c else sb).
  assert (0 <= r <= c_txsz c ∧ (c_txsz c <= sb → r = c_txsz c)) as [Hr Hr'].
  { unfold r. destruct (Z.ltb_spec (c_txsz c) sb); lia. }
  destruct (Z.ltb_spec 0 r).
  - destruct (lwip_ship conn c (c_txsz c <= sb ∧ ∀ pcb d tr, answer (LwTcpWrite pcb d) tr = ERR_OK)
      s2 r) as (s3 & E & Hw); [done..| |].
    { intros [Ha Hb]. split; [by apply Hr'|exact Hb]. }
    exists s3. split; [exact E|]. by eapply silent_wrote.
  - exists s2. split; [done|]. apply wrote_silent; try done. lia.
Qed.

Lemma lwip_write_wrote conn c s :
  conn ≠ 0 → heap_of s !! conn = Some c → tx_ok c → lwip_ready c s →
  ∃ s', lwip_handleWrite conn s = Ok (tt, s') ∧ 
    wrote conn c (∃ n, lwip_takes n ∧ c_txsz c <= n) s s'.
Proof.
  intros H0 Hh Hok Hrd. pose proof Hrd as (Ht & Hp & _). pose proof (proj2 Hok).
  unfold lwip_handleWrite. apply Z.eqb_neq in H0, Hp.
  rewrite H0, (bind_deref_conn conn c), Hp, Ht by done. cbn [andb].
  change (SOCK_STREAM =? SOCK_DGRAM) with false. change (SOCK_STREAM =? SOCK_STREAM) with true.
  cbv iota. unfold lwip_write_tcp. rewrite Hp, bind_ask.
  pose proof (lw_sndbuf (c_TCP_pcb c) (s_trace s)) as Hsb.
  assert ((∃ n, lwip_takes n ∧ c_txsz c <= n) →
    c_txsz c <= answer (LwTcpSndBuf (c_TCP_pcb c)) (s_trace s)) as Hn.
  { intros (n & [Ha _] & Hb). etrans; [exact Hb|apply Ha]. }
  set (sb := answer _ _) in *. set (s1 := Svc _ _ _).
  assert (silent c s s1) as Hs1 by (split; [done|split; [done|]]; simpl; by rewrite app_nil_r).
  destruct (Z.eqb_spec sb 0) as [Esb|_].
  { destruct (c_probation c).
    { exists s1. split; [done|]. apply wrote_silent; try done. intros Ha%Hn. lia. }
    destruct (lwip_full conn c (∃ n, lwip_takes n ∧ c_txsz c <= n) s1) as (s2 & E & Hw); [done..|intros Ha%Hn; lia|].
    exists s2. split; [exact E|]. by eapply silent_wrote. }
  destruct (Z.leb_spec (c_txsz c) 0).
  { exists s1. split; [done|]. apply wrote_silent; try done. lia. }
  destruct (lwip_some conn c sb s1) as (s2 & E & Hw); [done..|]. exists s2. split; [exact E|].
  apply (silent_wrote _ _ _ _ s1); [done|]. destruct Hw as (c' & Hw). exists c'.
  do 7 (split; [apply Hw|]). intros Ha. apply Hw. split; [by apply Hn|]. by destruct Ha as (n & [_ Ha] & _).
Qed.
End lwip_stream.

#[export, program] Instance lwip_stream {env : Env} `{!LwOutputs env} bind_rpc_addr :
    StreamDriver (lwip_driver bind_rpc_addr) := {|
  sd_ready := lwip_ready;
  sd_sent := lwip_sent;
  sd_takes := lwip_takes
|}.
Next Obligation.
  intros env LO b c c' s s' (E1 & _ & E3 & E4) (F1 & F2 & _) Hr. unfold lwip_ready in *.
  by rewrite E1, E3, E4, F1, F2.
Qed.
Next Obligation. intros env LO b c c' (_ & _ & Hp & _). unfold lwip_sent. by rewrite Hp. Qed.
Next Obligation.
  intros env LO b conn c s H0 Hh Hok Hr.
  destruct (lwip_write_wrote conn c s) as (s' & E & c' & H); [done..|]. exists c', s'.
  split; [exact E|]. do 7 (split; [apply H|]). intros n Hn Hz. apply H. by exists n.
Qed.

(** ** Properties *)



(** ** Examples *)

#[local] Existing Instance calm.

Lemma calm_pico_writes : PicoWrites calm.
Proof. intros s d tr. unfold answer, calm. lia. Qed.

Lemma calm_lw_outputs : LwOutputs calm.
Proof. split; intros; unfold answer, calm; [lia|constructor|by apply zlen_memset]. Qed.

(** Connection 1 of the two examples. *)
Definition looks (s : option Connection) : option (Z * Z * Z * Z * Z * (Z * Z)) :=
  (λ c, (c_sock c, c_picosock c, c_TCP_pcb c, c_type c, c_txsz c, (zlen (c_txbuf c), zlen (c_rxbuf c)))) <$> s.

Definition hello : list (bytes * bytes) := [([104; 101], [0]); ([108; 108; 111], [])].

Lemma hello_plain : Forall (λ m, plain m.1) hello.
Proof. repeat constructor; vm_compute; congruence. Qed.


