(* ===== verification/Buffer.v ===== *)
(** * The bounds-checked buffer of the node (zto/node/Buffer.hpp)

    [Buffer<C>]: a length and an array of [C] bytes.  A method takes the buffer
    and gives back the new one with its result or with [std::out_of_range]; an
    access outside the array is [Undef].  The sizes and indices are [unsigned int]s
    and the tests of the code add them at that width; [sizeof] makes a sum 64 bits
    wide.  The buffer refines a byte string of at most [C] bytes. *)

From S2P Require Import Prelude.
From stdpp Require Import base numbers list option sets.
From Stdlib Require Import ZArith Lia.

Open Scope Z_scope.


Record t := Buf { _l : Z; _b : bytes }.

(** The outcome of a method. *)
Inductive outcome (A : Type) := Ret (a : A) | OutOfRange.
Arguments Ret {A} a.
Arguments OutOfRange {A}.

Definition meth (A : Type) := t → cres (outcome A * t).

Definition throw {A} : meth A := λ b, Ok (OutOfRange, b).
Definition done_ {A} (a : A) (b : t) : cres (outcome A * t) := Ok (Ret a, b).

(** Sums of [unsigned int]s and of an [unsigned int] with a [size_t]. *)
Definition u32 (x : Z) : Z := wrap 32 x.
Definition u64 (x : Z) : Z := wrap 64 x.

Section buffer.
Context (C : Z).

(** ** Construction and assignment *)

(** [Buffer()] and [Buffer(l)] on memory that holds [m]. *)
Definition make (m : bytes) : t := Buf 0 m.
Definition make_sized (l : Z) (m : bytes) : outcome t := if C <? l then OutOfRange else Ret (Buf l m).

Definition copyFrom (x : bytes) (l : Z) : meth unit := λ b,
  if C <? l then throw b
  else m ← mem_copy 0 (_b b) 0 l x; done_ tt (Buf l m).

(** [operator=] from a buffer of any capacity. *)
Definition assign (o : t) : meth unit := λ b,
  if C <? _l o then throw b
  else m ← mem_copy 0 (_b b) 0 (_l o) (_b o); done_ tt (Buf (_l o) m).

(** ** Access *)

Definition index (i : Z) : meth Z := λ b,
  if _l b <=? i then throw b
  else d ← mem_read i 1 (_b b); done_ (be_val d) b.

(** [operator[](i) = v] through the reference. *)
Definition index_set (i v : Z) : meth unit := λ b,
  if _l b <=? i then throw b
  else m ← mem_write i [v] (_b b); done_ tt (Buf (_l b) m).

(** The offset of the field. *)
Definition field (i l : Z) : meth Z := λ b,
  if _l b <? u32 (i + l) then throw b else done_ i b.

(** [T] is an unsigned type of [n] bytes. *)
Definition setAt (n : nat) (i v : Z) : meth unit := λ b,
  if _l b <? u64 (i + Z.of_nat n) then throw b
  else m ← mem_write i (be_bytes n v) (_b b); done_ tt (Buf (_l b) m).

Definition at_ (n : nat) (i : Z) : meth Z := λ b,
  if _l b <? u64 (i + Z.of_nat n) then throw b
  else d ← mem_read i (Z.of_nat n) (_b b); done_ (be_val d) b.

(** ** Growth *)

Definition append_int (n : nat) (v : Z) : meth unit := λ b,
  if C <? u64 (_l b + Z.of_nat n) then throw b
  else m ← mem_write (_l b) (be_bytes n v) (_b b); done_ tt (Buf (u32 (_l b + Z.of_nat n)) m).

Fixpoint append_run_loop (c : Z) (n : nat) (b : t) : cres t :=
  match n with
  | O => Ok b
  | S n' =>
      m ← mem_write (_l b) [c] (_b b);
      append_run_loop c n' (Buf (u32 (_l b + 1)) m)
  end.

Definition append_run (c n : Z) : meth unit := λ b,
  if C <? u32 (_l b + n) then throw b
  else b' ← append_run_loop c (Z.to_nat n) b; done_ tt b'.

Definition append (x : bytes) (l : Z) : meth unit := λ b,
  if C <? u32 (_l b + l) then throw b
  else m ← mem_copy (_l b) (_b b) 0 l x; done_ tt (Buf (u32 (_l b + l)) m).

(** [append(s)] of a string and [append(b)] of another buffer. *)
Definition append_string (s : bytes) : meth unit := append s (u32 (zlen s)).
Definition append_buffer (o : t) : meth unit := append (_b o) (_l o).

(** The memory [s] points at must hold a NUL. *)
Fixpoint appendCString (s : bytes) : meth unit := λ b,
  if C <=? _l b then throw b
  else match s with
       | [] => Undef OutOfBounds
       | c :: s' =>
           m ← mem_write (_l b) [c] (_b b);
           let b' := Buf (u32 (_l b + 1)) m in
           if c =? 0 then done_ tt b' else appendCString s' b'
       end.

Definition appendField (l : Z) : meth Z := λ b,
  if C <? u32 (_l b + l) then throw b else done_ (_l b) (Buf (u32 (_l b + l)) (_b b)).

Definition addSize (i : Z) : meth unit := λ b,
  if C <? u32 (i + _l b) then throw b else done_ tt (Buf (u32 (_l b + i)) (_b b)).

Definition setSize (i : Z) : meth unit := λ b,
  if C <? i then throw b else done_ tt (Buf i (_b b)).

(** ** Removal *)

Definition behead (at_ : Z) : meth unit := λ b,
  if at_ =? 0 then done_ tt b
  else if _l b <? at_ then throw b
  else
    let l := u32 (_l b - at_) in
    m ← mem_copy 0 (_b b) at_ l (_b b); done_ tt (Buf l m).

Definition erase (at_ length : Z) : meth unit := λ b,
  let endr := u32 (at_ + length) in
  if _l b <? endr then throw b
  else
    m ← mem_copy at_ (_b b) endr (u32 (_l b - endr)) (_b b);
    done_ tt (Buf (u32 (_l b - length)) m).

Definition clear : meth unit := λ b, done_ tt (Buf 0 (_b b)).

Definition zero : meth unit := λ b,
  m ← mem_write 0 (memset (_l b) 0) (_b b); done_ tt (Buf (_l b) m).

Definition zeroUnused : meth unit := λ b,
  m ← mem_write (_l b) (memset (u32 (C - _l b)) 0) (_b b); done_ tt (Buf (_l b) m).

Definition burn : meth unit := λ b,
  m ← mem_write 0 (memset C 0) (_b b); done_ tt (Buf (_l b) m).

(** ** Comparison *)

(** The sign of [memcmp] on the first [n] bytes. *)
Fixpoint memcmp (a b : bytes) (n : nat) : Z :=
  match n, a, b with
  | S n', x :: a', y :: b' => if x <? y then -1 else if y <? x then 1 else memcmp a' b' n'
  | _, _, _ => 0
  end.

Definition eqb (a b : t) : bool := (_l a =? _l b) && (memcmp (_b a) (_b b) (Z.to_nat (_l a)) =? 0).
Definition ltb (a b : t) : bool := memcmp (_b a) (_b b) (Z.to_nat (Z.min (_l a) (_l b))) <? 0.

(** ** The interface: calls and replies *)

Inductive call :=
  | BCopyFrom (x : bytes) | BIndex (i : Z) | BIndexSet (i v : Z) | BField (i l : Z)
  | BSetAt (n : nat) (i v : Z) | BAt (n : nat) (i : Z)
  | BAppendInt (n : nat) (v : Z) | BAppendRun (c n : Z) | BAppend (x : bytes)
  | BAppendCString (s : bytes) | BAppendField (l : Z) | BAddSize (i : Z) | BSetSize (i : Z)
  | BBehead (a : Z) | BErase (a l : Z) | BClear | BZero | BZeroUnused | BBurn.

Inductive reply := RThrow | RUnit | RVal (z : Z).

Definition unit_reply (m : meth unit) : sm t reply := λ b,
  '(o, b') ← m b; Ok (match o with Ret _ => RUnit | OutOfRange => RThrow end, b').
Definition val_reply (m : meth Z) : sm t reply := λ b,
  '(o, b') ← m b; Ok (match o with Ret z => RVal z | OutOfRange => RThrow end, b').

Definition exec (c : call) : sm t reply :=
  match c with
  | BCopyFrom x => unit_reply (copyFrom x (zlen x))
  | BIndex i => val_reply (index i)
  | BIndexSet i v => unit_reply (index_set i v)
  | BField i l => val_reply (field i l)
  | BSetAt n i v => unit_reply (setAt n i v)
  | BAt n i => val_reply (at_ n i)
  | BAppendInt n v => unit_reply (append_int n v)
  | BAppendRun c n => unit_reply (append_run c n)
  | BAppend x => unit_reply (append x (zlen x))
  | BAppendCString s => unit_reply (appendCString s)
  | BAppendField l => val_reply (appendField l)
  | BAddSize i => unit_reply (addSize i)
  | BSetSize i => unit_reply (setSize i)
  | BBehead a => unit_reply (behead a)
  | BErase a l => unit_reply (erase a l)
  | BClear => unit_reply clear
  | BZero => unit_reply zero
  | BZeroUnused => unit_reply zeroUnused
  | BBurn => unit_reply burn
  end.

Fixpoint exec_all (cs : list call) : sm t (list reply) :=
  match cs with
  | [] => mret []
  | c :: cs' => r ← exec c; rs ← exec_all cs'; mret (r :: rs)
  end.

(** What a call means on the data [d]: the reply and the new data.  The space a
    size change adds is not specified. *)
Definition guarded (g : bool) (d : bytes) (r : reply) (d' : bytes) (P : Prop) : Prop :=
  if g then P else r = RThrow ∧ d' = d.

Definition spec (c : call) (d : bytes) (r : reply) (d' : bytes) : Prop :=
  match c with
  | BCopyFrom x => guarded (zlen x <=? C) d r d' (r = RUnit ∧ d' = x)
  | BIndex i => guarded (i <? zlen d) d r d' (r = RVal (d !!! Z.to_nat i) ∧ d' = d)
  | BIndexSet i v => guarded (i <? zlen d) d r d' (r = RUnit ∧ d' = <[Z.to_nat i := v]> d)
  | BField i l => guarded (i + l <=? zlen d) d r d' (r = RVal i ∧ d' = d)
  | BSetAt n i v =>
      guarded (i + Z.of_nat n <=? zlen d) d r d'
        (r = RUnit ∧ ∃ p x q, d = p ++ x ++ q ∧ zlen p = i ∧ length x = n ∧ d' = p ++ be_bytes n v ++ q)
  | BAt n i =>
      guarded (i + Z.of_nat n <=? zlen d) d r d'
        (d' = d ∧ ∃ p x q, d = p ++ x ++ q ∧ zlen p = i ∧ length x = n ∧ r = RVal (be_val x))
  | BAppendInt n v =>
      guarded (zlen d + Z.of_nat n <=? C) d r d' (r = RUnit ∧ d' = d ++ be_bytes n v)
  | BAppendRun c n => guarded (zlen d + n <=? C) d r d' (r = RUnit ∧ d' = d ++ memset n c)
  | BAppend x => guarded (zlen d + zlen x <=? C) d r d' (r = RUnit ∧ d' = d ++ x)
  | BAppendCString s =>
      if zlen d + zlen (c_str s) + 1 <=? C then r = RUnit ∧ d' = d ++ c_str s ++ [0]
      else r = RThrow ∧ d' = d ++ take (Z.to_nat (C - zlen d)) (c_str s)
  | BAppendField l =>
      guarded (zlen d + l <=? C) d r d' (r = RVal (zlen d) ∧ ∃ x, d' = d ++ x ∧ zlen x = l)
  | BAddSize i => guarded (zlen d + i <=? C) d r d' (r = RUnit ∧ ∃ x, d' = d ++ x ∧ zlen x = i)
  | BSetSize i =>
      guarded (i <=? C) d r d' (r = RUnit ∧ zlen d' = i ∧ ∃ x, d' = take (Z.to_nat i) d ++ x)
  | BBehead a => guarded (a <=? zlen d) d r d' (r = RUnit ∧ d' = drop (Z.to_nat a) d)
  | BErase a l =>
      guarded (a + l <=? zlen d) d r d'
        (r = RUnit ∧ d' = take (Z.to_nat a) d ++ drop (Z.to_nat (a + l)) d)
  | BClear => r = RUnit ∧ d' = []
  | BZero | BBurn => r = RUnit ∧ d' = memset (zlen d) 0
  | BZeroUnused => r = RUnit ∧ d' = d
  end.

Fixpoint spec_all (cs : list call) (d : bytes) (rs : list reply) (d' : bytes) : Prop :=
  match cs, rs with
  | [], [] => d' = d
  | c :: cs', r :: rs' => ∃ d1, spec c d r d1 ∧ spec_all cs' d1 rs' d'
  | _, _ => False
  end.

(** Arguments whose sums with each other and with a size of the buffer are
    [unsigned int]s, and C strings that end. *)
Definition uint (z : Z) : Prop := 0 <= z < 2 ^ 32.
Definition fits (c : call) : Prop :=
  match c with
  | BCopyFrom x => uint (zlen x)
  | BIndex i | BIndexSet i _ | BSetSize i | BBehead i => uint i
  | BField i l | BErase i l => uint i ∧ uint l ∧ uint (i + l)
  | BSetAt n i _ | BAt n i => uint i ∧ (n <= 8)%nat
  | BAppendInt n _ => (n <= 8)%nat
  | BAppendRun _ n => uint n ∧ uint (C + n)
  | BAppend x => uint (C + zlen x)
  | BAppendCString s => 0 ∈ s
  | BAppendField l | BAddSize l => uint l ∧ uint (C + l)
  | BClear | BZero | BZeroUnused | BBurn => True
  end.

(** The buffer holds the data [d]. *)
Definition repr (b : t) (d : bytes) : Prop :=
  ∃ r, _b b = d ++ r ∧ _l b = zlen d ∧ zlen d + zlen r = C.

(** ** Each call refines its meaning *)

Context (HC : uint C).

Lemma u32_small x : uint x → u32 x = x.
Proof. intros []. unfold u32, wrap. by rewrite Z.mod_small. Qed.

Lemma u64_small x : 0 <= x < 2 ^ 64 → u64 x = x.
Proof. intros. unfold u64, wrap. by rewrite Z.mod_small. Qed.

Lemma repr_bounds b d : repr b d → _l b = zlen d ∧ 0 <= zlen d <= C ∧ zlen (_b b) = C.
Proof.
  intros (r & Hb & Hl & HCr). pose proof (zlen_nonneg d). pose proof (zlen_nonneg r).
  rewrite Hb, zlen_app. lia.
Qed.

(** Writing behind the data. *)
Lemma grow b d x :
  repr b d → zlen d + zlen x <= C →
  ∃ m, mem_write (_l b) x (_b b) = Ok m ∧ repr (Buf (zlen d + zlen x) m) (d ++ x).
Proof.
  intros (r & -> & -> & Hr) Hx. destruct (bytes_split (zlen x) r) as (r1 & r2 & -> & Hr1).
  { pose proof (zlen_nonneg x). lia. }
  rewrite zlen_app in Hr.
  exists (d ++ x ++ r2). split; [by apply mem_write_seg|].
  exists r2. cbn. rewrite <- app_assoc, zlen_app. split_and!; [done..|lia].
Qed.

(** Writing inside the data. *)
Lemma overwrite b p x q y :
  repr b (p ++ x ++ q) → zlen x = zlen y →
  ∃ m, mem_write (zlen p) y (_b b) = Ok m ∧ repr (Buf (_l b) m) (p ++ y ++ q).
Proof.
  intros (r & -> & -> & Hr) Hx. exists (p ++ y ++ q ++ r). split.
  - rewrite <- !app_assoc. by apply mem_write_seg.
  - exists r. cbn. rewrite <- !app_assoc. rewrite !zlen_app in *. split_and!; [done|lia..].
Qed.

Lemma inside b p x q :
  repr b (p ++ x ++ q) → mem_read (zlen p) (zlen x) (_b b) = Ok x.
Proof. intros (r & -> & _ & _). rewrite <- !app_assoc. by apply mem_read_seg. Qed.

Lemma split3 i n (d : bytes) :
  0 <= i → 0 <= n → i + n <= zlen d → ∃ p x q, d = p ++ x ++ q ∧ zlen p = i ∧ zlen x = n.
Proof.
  intros. destruct (bytes_split i d) as (p & d1 & -> & Hp); [lia|]. rewrite zlen_app in *.
  destruct (bytes_split n d1) as (x & q & -> & Hx); [lia|]. by exists p, x, q.
Qed.

(** A call that throws leaves the buffer as it is. *)
Ltac thrown := eexists _, _, _; split; [reflexivity|split; [eassumption|done]].

Lemma index_refines b d i :
  repr b d → uint i →
  ∃ r b' d', exec (BIndex i) b = Ok (r, b') ∧ repr b' d' ∧ spec (BIndex i) d r d'.
Proof.
  intros Hr Hi. destruct (repr_bounds _ _ Hr) as (Hl & Hd & _).
  unfold exec, val_reply, index, spec, guarded. rewrite Hl, Z.leb_antisym.
  destruct (Z.ltb_spec i (zlen d)); cbn; [|thrown].
  destruct (split3 i 1 d) as (p & x & q & -> & <- & Hx); [destruct Hi; lia..|].
  rewrite <- Hx, (inside _ _ _ _ Hr). cbn. eexists _, _, _. split_and!; [done|exact Hr| |done].
  destruct x as [|c [|]]; unfold zlen in Hx; cbn in Hx; try lia.
  rewrite lookup_total_app_r by (unfold zlen; lia).
  replace (Z.to_nat (zlen p) - length p)%nat with 0%nat by (unfold zlen; lia).
  unfold be_val. cbn. do 2 f_equal. lia.
Qed.

Lemma index_set_refines b d i v :
  repr b d → uint i →
  ∃ r b' d', exec (BIndexSet i v) b = Ok (r, b') ∧ repr b' d' ∧ spec (BIndexSet i v) d r d'.
Proof.
  intros Hr Hi. destruct (repr_bounds _ _ Hr) as (Hl & Hd & _).
  unfold exec, unit_reply, index_set, spec, guarded. rewrite Hl, Z.leb_antisym.
  destruct (Z.ltb_spec i (zlen d)); cbn; [|thrown].
  destruct (split3 i 1 d) as (p & x & q & -> & <- & Hx); [destruct Hi; lia..|].
  destruct (overwrite b p x q [v] Hr Hx) as (m & -> & Hm). rewrite Hl in Hm. cbn.
  eexists _, _, _. split_and!; [done|exact Hm|done|].
  destruct x as [|c [|]]; unfold zlen in Hx; cbn in Hx; try lia.
  rewrite insert_app_r_alt by (unfold zlen; lia).
  replace (Z.to_nat (zlen p) - length p)%nat with 0%nat by (unfold zlen; lia). done.
Qed.

Lemma setAt_refines b d n i v :
  repr b d → fits (BSetAt n i v) →
  ∃ r b' d', exec (BSetAt n i v) b = Ok (r, b') ∧ repr b' d' ∧ spec (BSetAt n i v) d r d'.
Proof.
  intros Hr [Hi Hn]. destruct (repr_bounds _ _ Hr) as (Hl & Hd & _).
  unfold exec, unit_reply, setAt, spec, guarded. destruct Hi.
  rewrite Hl, u64_small, Z.ltb_antisym by lia.
  destruct (Z.leb_spec (i + Z.of_nat n) (zlen d)); cbn; [|thrown].
  destruct (split3 i (Z.of_nat n) d) as (p & x & q & -> & <- & Hx); [lia..|].
  destruct (overwrite b p x q (be_bytes n v) Hr) as (m & -> & Hm).
  { unfold zlen at 2. by rewrite length_be_bytes. }
  rewrite Hl in Hm. cbn. eexists _, _, _. split_and!; [done|exact Hm|done|].
  exists p, x, q. split_and!; try done. unfold zlen in Hx. lia.
Qed.

Lemma at_refines b d n i :
  repr b d → fits (BAt n i) →
  ∃ r b' d', exec (BAt n i) b = Ok (r, b') ∧ repr b' d' ∧ spec (BAt n i) d r d'.
Proof.
  intros Hr [Hi Hn]. destruct (repr_bounds _ _ Hr) as (Hl & Hd & _).
  unfold exec, val_reply, at_, spec, guarded. destruct Hi.
  rewrite Hl, u64_small, Z.ltb_antisym by lia.
  destruct (Z.leb_spec (i + Z.of_nat n) (zlen d)); cbn; [|thrown].
  destruct (split3 i (Z.of_nat n) d) as (p & x & q & -> & <- & Hx); [lia..|].
  rewrite <- Hx, (inside _ _ _ _ Hr). cbn. eexists _, _, _. split_and!; [done|exact Hr|done|].
  exists p, x, q. split_and!; try done. unfold zlen in Hx. lia.
Qed.

Lemma grow_copy b d x :
  repr b d → zlen d + zlen x <= C →
  ∃ m, mem_copy (_l b) (_b b) 0 (zlen x) x = Ok m ∧ repr (Buf (zlen d + zlen x) m) (d ++ x).
Proof. intros Hr Hx. unfold mem_copy. rewrite mem_read_all. by apply grow. Qed.

Lemma append_refines b d x :
  repr b d → uint (C + zlen x) →
  ∃ r b' d', exec (BAppend x) b = Ok (r, b') ∧ repr b' d' ∧ spec (BAppend x) d r d'.
Proof.
  intros Hr [Hx Hx']. destruct (repr_bounds _ _ Hr) as (Hl & Hd & _). pose proof (zlen_nonneg x).
  unfold exec, unit_reply, append, spec, guarded.
  rewrite u32_small, Hl, Z.ltb_antisym by (unfold uint; lia).
  destruct (Z.leb_spec (zlen d + zlen x) C); cbn; [|thrown]. rewrite <- Hl.
  destruct (grow_copy b d x Hr) as (m & -> & Hm); [lia|]. rewrite Hl. cbn.
  eexists _, _, _. split_and!; [done|exact Hm|done..].
Qed.

Lemma append_int_refines b d n v :
  repr b d → (n <= 8)%nat →
  ∃ r b' d', exec (BAppendInt n v) b = Ok (r, b') ∧ repr b' d' ∧ spec (BAppendInt n v) d r d'.
Proof.
  intros Hr Hn. destruct (repr_bounds _ _ Hr) as (Hl & Hd & _). destruct HC.
  unfold exec, unit_reply, append_int, spec, guarded. rewrite u64_small, Hl, Z.ltb_antisym by lia.
  destruct (Z.leb_spec (zlen d + Z.of_nat n) C); cbn; [|thrown]. rewrite <- Hl.
  assert (zlen (be_bytes n v) = Z.of_nat n) as Hz by (unfold zlen; by rewrite length_be_bytes).
  destruct (grow b d (be_bytes n v) Hr) as (m & -> & Hm); [lia|]. rewrite Hl. cbn.
  rewrite Hz in Hm. rewrite u32_small by (unfold uint; lia).
  eexists _, _, _. split_and!; [done|exact Hm|done..].
Qed.

Lemma append_run_loop_spec c n b d :
  repr b d → zlen d + Z.of_nat n <= C →
  ∃ b', append_run_loop c n b = Ok b' ∧ repr b' (d ++ replicate n c).
Proof.
  revert b d. induction n as [|n IH]; intros b d Hr Hn; cbn.
  - exists b. by rewrite app_nil_r.
  - destruct (grow b d [c] Hr) as (m & -> & Hm); [unfold zlen at 2; cbn; lia|]. cbn.
    destruct (repr_bounds _ _ Hr) as (-> & Hd & _). destruct HC.
    rewrite u32_small by (unfold uint; lia). change (zlen [c]) with 1 in Hm.
    destruct (IH _ _ Hm) as (b' & -> & Hb'); [rewrite zlen_app; unfold zlen at 2; cbn; lia|].
    exists b'. by rewrite <- app_assoc in Hb'.
Qed.

Lemma append_run_refines b d c n :
  repr b d → fits (BAppendRun c n) →
  ∃ r b' d', exec (BAppendRun c n) b = Ok (r, b') ∧ repr b' d' ∧ spec (BAppendRun c n) d r d'.
Proof.
  intros Hr [[Hn _] [_ Hx']]. destruct (repr_bounds _ _ Hr) as (Hl & Hd & _).
  unfold exec, unit_reply, append_run, spec, guarded.
  rewrite u32_small, Hl, Z.ltb_antisym by (unfold uint; lia).
  destruct (Z.leb_spec (zlen d + n) C); cbn; [|thrown].
  destruct (append_run_loop_spec c (Z.to_nat n) b d Hr) as (b' & -> & Hb'); [lia|]. cbn.
  eexists _, _, _. split_and!; [done|exact Hb'|done..].
Qed.

Lemma appendCString_refines b d s :
  repr b d → 0 ∈ s →
  ∃ r b' d', exec (BAppendCString s) b = Ok (r, b') ∧ repr b' d' ∧ spec (BAppendCString s) d r d'.
Proof.
  unfold exec, unit_reply. revert b d. induction s as [|c s IH]; intros b d Hr H0;
    [by apply elem_of_nil in H0|].
  destruct (repr_bounds _ _ Hr) as (Hl & Hd & _). destruct HC. cbn [appendCString].
  rewrite Hl. destruct (Z.leb_spec C (zlen d)) as [Hge|Hlt].
  { eexists _, _, d. split; [done|split; [done|]]. cbn. pose proof (zlen_nonneg (if c =? 0 then [] else c :: c_str s)).
    destruct (Z.leb_spec (zlen d + zlen (if c =? 0 then [] else c :: c_str s) + 1) C); [lia|].
    split; [done|]. replace (Z.to_nat (C - zlen d)) with 0%nat by lia. by rewrite app_nil_r. }
  rewrite <- Hl. destruct (grow b d [c] Hr) as (m & -> & Hm); [unfold zlen at 2; cbn; lia|]. rewrite Hl. cbn.
  rewrite u32_small by (unfold uint; lia). change (zlen [c]) with 1 in Hm.
  destruct (Z.eqb_spec c 0) as [->|Hc].
  { eexists _, _, _. split; [done|split; [exact Hm|]]. cbn. change (zlen []) with 0.
    destruct (Z.leb_spec (zlen d + 0 + 1) C); [done|lia]. }
  destruct (IH _ _ Hm) as (r & b' & d' & -> & Hb' & Hs); [set_solver|].
  eexists _, _, _. split; [done|split; [exact Hb'|]]. cbn in Hs. rewrite zlen_app in Hs.
  change (zlen [c]) with 1 in Hs. rewrite zlen_cons.
  replace (zlen d + (1 + zlen (c_str s)) + 1) with (zlen d + 1 + zlen (c_str s) + 1) by lia.
  rewrite <- !app_assoc in Hs. destruct (_ <=? C); [done|]. destruct Hs as [-> ->]. split; [done|].
  replace (Z.to_nat (C - zlen d)) with (S (Z.to_nat (C - (zlen d + 1)))) by lia. done.
Qed.

(** Taking more of the array into the data. *)
Lemma repr_extend b d n :
  repr b d → 0 <= n → zlen d + n <= C → ∃ x, repr (Buf (zlen d + n) (_b b)) (d ++ x) ∧ zlen x = n.
Proof.
  intros (r & Hb & Hl & Hr) Hn Hle. destruct (bytes_split n r) as (x & q & -> & Hx); [lia|].
  exists x. split; [|done]. rewrite zlen_app in Hr. exists q. cbn.
  rewrite Hb, zlen_app, <- app_assoc. split_and!; [done|lia..].
Qed.

Lemma repr_truncate b d1 d2 : repr b (d1 ++ d2) → repr (Buf (zlen d1) (_b b)) d1.
Proof.
  intros (r & Hb & Hl & Hr). rewrite zlen_app in Hr. exists (d2 ++ r). cbn.
  rewrite Hb, zlen_app, <- app_assoc. split_and!; [done..|lia].
Qed.

Lemma addSize_refines b d i :
  repr b d → fits (BAddSize i) →
  ∃ r b' d', exec (BAddSize i) b = Ok (r, b') ∧ repr b' d' ∧ spec (BAddSize i) d r d'.
Proof.
  intros Hr [[Hn _] [_ Hx']]. destruct (repr_bounds _ _ Hr) as (Hl & Hd & _).
  unfold exec, unit_reply, addSize, spec, guarded.
  rewrite !u32_small, Hl, Z.ltb_antisym by (unfold uint; lia). rewrite (Z.add_comm i).
  destruct (Z.leb_spec (zlen d + i) C); cbn; [|thrown].
  destruct (repr_extend b d i Hr Hn) as (x & Hx & Hz); [lia|].
  eexists _, _, _. split_and!; [done|exact Hx|done|by exists x].
Qed.

Lemma appendField_refines b d i :
  repr b d → fits (BAppendField i) →
  ∃ r b' d', exec (BAppendField i) b = Ok (r, b') ∧ repr b' d' ∧ spec (BAppendField i) d r d'.
Proof.
  intros Hr [[Hn _] [_ Hx']]. destruct (repr_bounds _ _ Hr) as (Hl & Hd & _).
  unfold exec, val_reply, appendField, spec, guarded.
  rewrite !u32_small, Hl, Z.ltb_antisym by (unfold uint; lia).
  destruct (Z.leb_spec (zlen d + i) C); cbn; [|thrown].
  destruct (repr_extend b d i Hr Hn) as (x & Hx & Hz); [lia|].
  eexists _, _, _. split_and!; [done|exact Hx|done|by exists x].
Qed.

Lemma setSize_refines b d i :
  repr b d → uint i →
  ∃ r b' d', exec (BSetSize i) b = Ok (r, b') ∧ repr b' d' ∧ spec (BSetSize i) d r d'.
Proof.
  intros Hr [Hi _]. destruct (repr_bounds _ _ Hr) as (Hl & Hd & _).
  unfold exec, unit_reply, setSize, spec, guarded. rewrite Z.ltb_antisym.
  destruct (Z.leb_spec i C); cbn; [|thrown].
  destruct (Z.le_gt_cases i (zlen d)) as [Hle|Hgt].
  - destruct (bytes_split i d) as (p & q & -> & <-); [lia|].
    eexists _, _, p. split_and!; [done|by eapply repr_truncate|done|done|].
    exists []. rewrite app_nil_r, take_app_length' by (unfold zlen; lia). done.
  - destruct (repr_extend b d (i - zlen d) Hr) as (x & Hx & Hz); [lia..|].
    replace (zlen d + (i - zlen d)) with i in Hx by lia.
    eexists _, _, (d ++ x). split_and!; [done|done|done|rewrite zlen_app; lia|].
    exists x. rewrite take_ge by (unfold zlen in *; lia). done.
Qed.

Lemma erase_refines b d a l :
  repr b d → fits (BErase a l) →
  ∃ r b' d', exec (BErase a l) b = Ok (r, b') ∧ repr b' d' ∧ spec (BErase a l) d r d'.
Proof.
  intros Hr ([Ha _] & [Hl0 _] & Hal). destruct (repr_bounds _ _ Hr) as (Hl & Hd & _). destruct HC.
  unfold exec, unit_reply, erase, spec, guarded. rewrite (u32_small (a + l)), Hl, Z.ltb_antisym by done.
  destruct (Z.leb_spec (a + l) (zlen d)); cbn; [|thrown].
  destruct (split3 a l d) as (p & x & q & -> & <- & <-); [lia..|]. rewrite !zlen_app in *.
  rewrite !u32_small by (unfold uint; lia).
  replace (zlen p + (zlen x + zlen q) - (zlen p + zlen x)) with (zlen q) by lia.
  destruct Hr as (r & Hb & _ & HCr). rewrite !zlen_app in HCr. unfold mem_copy. rewrite Hb.
  rewrite <- !app_assoc. rewrite (app_assoc p x), mem_read_seg by (rewrite ?zlen_app; done). cbn.
  rewrite <- app_assoc. destruct (bytes_split (zlen q) (x ++ q)) as (y & z & Hyz & Hy).
  { rewrite zlen_app. pose proof (zlen_nonneg x). pose proof (zlen_nonneg q). lia. }
  rewrite (app_assoc x q r), Hyz, <- (app_assoc y z r), (mem_write_seg p y q (z ++ r)) by done. cbn.
  eexists _, _, (p ++ q). split_and!; [done| |done|].
  - exists (z ++ r). cbn. apply (f_equal zlen) in Hyz.
    rewrite !zlen_app in *. split_and!; [by rewrite <- !app_assoc|lia..].
  - rewrite take_app_length' by (unfold zlen; lia). f_equal.
    rewrite <- Hyz, app_assoc. symmetry. apply drop_app_length'. unfold zlen. rewrite length_app. lia.
Qed.

(** [behead] is [erase] at the front. *)
Lemma behead_refines b d a :
  repr b d → uint a →
  ∃ r b' d', exec (BBehead a) b = Ok (r, b') ∧ repr b' d' ∧ spec (BBehead a) d r d'.
Proof.
  intros Hr Ha. destruct (repr_bounds _ _ Hr) as (Hl & Hd & _).
  destruct (Z.eqb_spec a 0) as [->|Hne].
  { unfold exec, unit_reply, behead, spec, guarded. cbn.
    destruct (Z.leb_spec 0 (zlen d)); [|lia]. thrown. }
  destruct (erase_refines b d 0 a Hr) as (r & b' & d' & E & Hb' & Hs).
  { split_and!; [unfold uint; lia|done|done]. }
  exists r, b', d'. split; [|done]. rewrite <- E.
  unfold exec, unit_reply, behead, erase. rewrite (proj2 (Z.eqb_neq a 0)) by done.
  rewrite Z.add_0_l, (u32_small a) by done. destruct (_ <? _); [done|].
  by destruct (mem_copy _ _ _ _ _).
Qed.

Lemma copyFrom_refines b d x :
  repr b d →
  ∃ r b' d', exec (BCopyFrom x) b = Ok (r, b') ∧ repr b' d' ∧ spec (BCopyFrom x) d r d'.
Proof.
  intros Hr. unfold exec, unit_reply, copyFrom, spec, guarded. rewrite Z.ltb_antisym.
  destruct (Z.leb_spec (zlen x) C); cbn; [|thrown].
  destruct (grow_copy (Buf 0 (_b b)) [] x) as (m & E & Hm);
    [|change (zlen (@nil Z)) with 0; lia|].
  { apply (repr_truncate b [] d Hr). }
  cbn in E, Hm. rewrite E. cbn. eexists _, _, _. split_and!; [done|exact Hm|done..].
Qed.

Lemma field_refines b d i l :
  repr b d → fits (BField i l) →
  ∃ r b' d', exec (BField i l) b = Ok (r, b') ∧ repr b' d' ∧ spec (BField i l) d r d'.
Proof.
  intros Hr (_ & _ & Hil). destruct (repr_bounds _ _ Hr) as (Hl & Hd & _).
  unfold exec, val_reply, field, spec, guarded. rewrite Hl, u32_small, Z.ltb_antisym by done.
  destruct (Z.leb_spec (i + l) (zlen d)); thrown.
Qed.

Lemma zero_refines b d c :
  repr b d → c ∈ [BClear; BZero; BZeroUnused; BBurn] →
  ∃ r b' d', exec c b = Ok (r, b') ∧ repr b' d' ∧ spec c d r d'.
Proof.
  intros Hr Hc. pose proof Hr as (r & Hb & Hl & HCr). pose proof (zlen_nonneg d). pose proof (zlen_nonneg r).
  destruct HC. rewrite !elem_of_cons in Hc. destruct Hc as [->|[->|[->|[->|Hc]]]].
  - eexists _, _, []. split; [done|]. split; [|done]. by apply (repr_truncate b [] d).
  - unfold exec, unit_reply, zero. rewrite Hb, Hl, mem_write_head by (by rewrite zlen_memset). cbn.
    eexists _, _, _. split; [done|]. split; [|done]. exists r. cbn. by rewrite zlen_memset.
  - unfold exec, unit_reply, zeroUnused. rewrite Hb, Hl, u32_small by (unfold uint; lia).
    replace (C - zlen d) with (zlen r) by lia.
    replace (d ++ r) with (d ++ r ++ []) by (by rewrite app_nil_r).
    rewrite (mem_write_seg d r) by (by rewrite ?zlen_memset). cbn.
    eexists _, _, d. split; [done|]. split; [|done]. exists (memset (zlen r) 0). cbn.
    rewrite app_nil_r, zlen_memset by done. done.
  - unfold exec, unit_reply, burn. rewrite Hl.
    rewrite <- (app_nil_r (_b b)), mem_write_head by (rewrite Hb, zlen_app, zlen_memset; lia). cbn.
    eexists _, _, (memset (zlen d) 0). split; [done|]. split; [|done]. exists (memset (zlen r) 0). cbn.
    rewrite app_nil_r, memset_app, !zlen_memset, HCr by lia. done.
  - by apply elem_of_nil in Hc.
Qed.

Lemma exec_refines b d c :
  repr b d → fits c → ∃ r b' d', exec c b = Ok (r, b') ∧ repr b' d' ∧ spec c d r d'.
Proof.
  intros Hr Hf. destruct c; try (by apply zero_refines; [done|set_solver]).
  - by apply copyFrom_refines.
  - by apply index_refines.
  - by apply index_set_refines.
  - by apply field_refines.
  - by apply setAt_refines.
  - by apply at_refines.
  - by apply append_int_refines.
  - by apply append_run_refines.
  - by apply append_refines.
  - by apply appendCString_refines.
  - by apply appendField_refines.
  - by apply addSize_refines.
  - by apply setSize_refines.
  - by apply behead_refines.
  - by apply erase_refines.
Qed.

Lemma exec_all_refines cs b d :
  repr b d → Forall fits cs →
  ∃ rs b' d', exec_all cs b = Ok (rs, b') ∧ repr b' d' ∧ spec_all cs d rs d'.
Proof.
  intros Hr Hf. revert b d Hr. induction Hf as [|c cs Hc _ IH]; intros b d Hr.
  - by exists [], b, d.
  - destruct (exec_refines b d c Hr Hc) as (r & b1 & d1 & E & Hr1 & Hs).
    destruct (IH b1 d1 Hr1) as (rs & b' & d' & E' & Hr' & Hs').
    exists (r :: rs), b', d'. cbn. unfold mbind, sm_bind. rewrite E, E'. split_and!; [done..|].
    by exists d1.
Qed.

End buffer.

(** C14: A buffer of any capacity that fits an [unsigned int] refines a bounded byte
    string.  Whatever calls are made with arguments whose sums do not overflow
    [unsigned int], no call touches memory outside the array; every one throws
    [std::out_of_range] exactly when its range does not fit, leaving the data as it
    was (a C string that does not fit fills the buffer first), and otherwise
    returns and changes what the method promises; the size never exceeds the
    capacity. *)
Theorem buffer_refines_bytes (C : Z) (m : bytes) (cs : list call) :
  uint C → zlen m = C → Forall (fits C) cs →
  ∃ rs b d, exec_all C cs (make m) = Ok (rs, b) ∧ spec_all C cs [] rs d
    ∧ _l b = zlen d ∧ 0 <= _l b <= C ∧ d = take (Z.to_nat (_l b)) (_b b).
Proof.
  intros HC Hm Hf. destruct (exec_all_refines C HC cs (make m) []) as (rs & b & d & E & Hr & Hs).
  - exists m. done.
  - done.
  - exists rs, b, d. destruct (repr_bounds _ _ _ Hr) as (Hl & Hd & _). split_and!; try done; try lia.
    destruct Hr as (r & -> & -> & _). by rewrite take_app_length' by (unfold zlen; lia).
Qed.

Lemma buffer_refines_bytes_witness :
  ∃ rs b, exec_all 6 [BAppendInt 2 258; BAppendCString [65; 66; 0]; BAppendInt 2 7; BAt 2 0;
                      BErase 1 2; BBehead 4] (make (memset 6 170)) = Ok (rs, b)
    ∧ rs = [RUnit; RUnit; RThrow; RVal 258; RUnit; RThrow] ∧ 0 <= _l b <= 6.
Proof.
  destruct (buffer_refines_bytes 6 (memset 6 170)
    [BAppendInt 2 258; BAppendCString [65; 66; 0]; BAppendInt 2 7; BAt 2 0; BErase 1 2; BBehead 4])
    as (rs & b & d & E & _ & _ & Hl & _); [done|done| |].
  { repeat constructor; try done; cbn; try lia. }
  exists rs, b. split_and!; [exact E| |lia..]. vm_compute in E. congruence.
Defined.

(** With a sum that overflows the checks pass: in a full buffer [erase] moves
    memory past the array, [field] hands out a pointer 4 GB behind it and [addSize]
    makes the buffer smaller. *)
Theorem buffer_sum_wraps (C : Z) (m : bytes) (at_ : Z) :
  4 <= C → uint C → zlen m = C → 2 <= at_ <= C →
  erase at_ (2 ^ 32 - at_ + 1) (Buf C m) = Undef OutOfBounds
  ∧ field (2 ^ 32 - 1) 2 (Buf C m) = Ok (Ret (2 ^ 32 - 1), Buf C m)
  ∧ addSize C (2 ^ 32 - at_) (Buf C m) = Ok (Ret tt, Buf (C - at_) m).
Proof.
  unfold uint. intros H4 HC Hm Ha. unfold erase, field, addSize. cbn [_l _b].
  replace (at_ + (2 ^ 32 - at_ + 1)) with (1 + 1 * 2 ^ 32) by lia.
  replace (2 ^ 32 - 1 + 2) with (1 + 1 * 2 ^ 32) by lia.
  replace (2 ^ 32 - at_ + C) with ((C - at_) + 1 * 2 ^ 32) by lia.
  replace (C + (2 ^ 32 - at_)) with ((C - at_) + 1 * 2 ^ 32) by lia.
  unfold u32, wrap. rewrite !Z.mod_add, !(Z.mod_small 1), !(Z.mod_small (C - at_)), (Z.mod_small (C - 1)) by lia.
  rewrite !(proj2 (Z.ltb_ge _ _)) by lia. split_and!; try done.
  unfold mem_copy. rewrite mem_read_ok by lia. cbn.
  unfold mem_write. rewrite zlen_take by (rewrite zlen_drop; lia).
  rewrite (proj2 (Z.leb_gt (at_ + (C - 1)) (zlen m))), andb_false_r by lia. done.
Qed.

Lemma buffer_sum_wraps_witness :
  erase 2 4294967295 (Buf 4 (memset 4 0)) = Undef OutOfBounds.
Proof.
  destruct (buffer_sum_wraps 4 (memset 4 0) 2) as [H _]; [lia|by split|done|lia|exact H].
Defined.
