(* ===== verification/Hashtable.v ===== *)
(** * The hash table of the node (zto/node/Hashtable.hpp)

    Chained buckets with a table that doubles when it is full.  A chain of
    [_Bucket]s is the list of its entries; the hash function is that of the key
    type, and [malloc] decides whether the table can grow.  The table refines a
    finite map ([gmap]). *)

From S2P Require Import Prelude.
From stdpp Require Import base numbers list gmap option.

Open Scope Z_scope.


#[export] Instance zlen_perm {A} : Proper ((≡ₚ) ==> (=)) (@zlen A).
Proof. intros l l' Hl. unfold zlen. by rewrite Hl. Qed.

(** [_hc] of the integer keys. *)
Definition hc_u64 (i : Z) : Z := wrap 64 i.
Definition hc_u32 (i : Z) : Z := wrap 64 (i * 0x9e3779b1).
Definition hc_u16 (i : Z) : Z := wrap 64 (i * 0x9e3779b1).

Section hashtable.
Context {K V : Type} `{Countable K}.
(** [_hc], and whether an allocation of that many bytes succeeds. *)
Context (hc : K → Z) (malloc : Z → bool).

Record t := Table { _t : list (list (K * V)); _bc : Z; _s : Z }.

Definition sizeof_ptr : Z := 8.

(** ** Chains *)

Fixpoint chain_get (k : K) (b : list (K * V)) : option V :=
  match b with
  | [] => None
  | (k', v) :: b' => if decide (k' = k) then Some v else chain_get k b'
  end.

(** The assignment to the value of the first entry with the key. *)
Fixpoint chain_put (k : K) (v : V) (b : list (K * V)) : list (K * V) :=
  match b with
  | [] => []
  | (k', v') :: b' => if decide (k' = k) then (k', v) :: b' else (k', v') :: chain_put k v b'
  end.

(** Unlinking the first entry with the key. *)
Fixpoint chain_erase (k : K) (b : list (K * V)) : option (list (K * V)) :=
  match b with
  | [] => None
  | (k', v') :: b' =>
      if decide (k' = k) then Some b'
      else match chain_erase k b' with Some c => Some ((k', v') :: c) | None => None end
  end.

(** ** Operations *)

(** The constructor: [bc] empty chains. *)
Definition make (bc : Z) : t := Table (replicate (Z.to_nat bc) []) bc 0.

Definition bidx (h : t) (k : K) : nat := Z.to_nat (hc k mod _bc h).
Definition bucket (h : t) (k : K) : list (K * V) := _t h !!! bidx h k.

Definition get (k : K) (h : t) : option V := chain_get k (bucket h k).

Definition contains (k : K) (h : t) : bool :=
  match chain_get k (bucket h k) with Some _ => true | None => false end.

Definition erase (k : K) (h : t) : bool * t :=
  match chain_erase k (bucket h k) with
  | Some b => (true, Table (<[bidx h k := b]> (_t h)) (_bc h) (wrap 64 (_s h - 1)))
  | None => (false, h)
  end.

(** Linking an entry at the head of its chain in a table of [nc] chains. *)
Definition link (nc : Z) (nt : list (list (K * V))) (e : K * V) : list (list (K * V)) :=
  let nidx := Z.to_nat (hc e.1 mod nc) in <[nidx := e :: nt !!! nidx]> nt.

Definition _grow (h : t) : t :=
  let nc := wrap 64 (_bc h * 2) in
  if malloc (wrap 64 (sizeof_ptr * nc)) then
    Table (foldl (link nc) (replicate (Z.to_nat nc) []) (concat (_t h))) nc (_s h)
  else h.

(** The end of [set] and [operator[]]: a new entry. *)
Definition insert_new (k : K) (v : V) (h : t) : t :=
  let h := if _bc h <=? _s h then _grow h else h in
  Table (link (_bc h) (_t h) (k, v)) (_bc h) (wrap 64 (_s h + 1)).

Definition set (k : K) (v : V) (h : t) : t :=
  match chain_get k (bucket h k) with
  | Some _ => Table (<[bidx h k := chain_put k v (bucket h k)]> (_t h)) (_bc h) (_s h)
  | None => insert_new k v h
  end.

(** [operator[]], with [v0] the value-initialised [V]: the value and the table. *)
Definition index (v0 : V) (k : K) (h : t) : V * t :=
  match chain_get k (bucket h k) with
  | Some v => (v, h)
  | None => (v0, insert_new k v0 h)
  end.

Definition clear (h : t) : t :=
  if _s h =? 0 then h else Table ((λ _, []) <$> _t h) (_bc h) 0.

Definition entries (h : t) : list (K * V) := if _s h =? 0 then [] else concat (_t h).
Definition keys (h : t) : list K := if _s h =? 0 then [] else fst <$> concat (_t h).
Definition size (h : t) : Z := _s h.
Definition empty (h : t) : bool := _s h =? 0.

(** The copy constructor, which reverses every chain, and assignment. *)
Definition copy (h : t) : t := Table (@rev (K * V) <$> _t h) (_bc h) (_s h).
Definition assign_loop (h from : t) : t :=
  if _s from =? 0 then h else foldl (λ h e, set e.1 e.2 h) h (concat (_t from)).
Definition assign (h from : t) : t := assign_loop (clear h) from.
(** [h = h]: the source is the table that was just cleared. *)
Definition assign_self (h : t) : t := assign_loop (clear h) (clear h).

(** [Iterator]: its index and the rest of the chain it is in. *)
Record iter := Iter { _idx : Z; _b : list (K * V) }.

Definition iterator (h : t) : iter := Iter 0 (_t h !!! 0%nat).

(** [next]: the loop over the chains runs at most [_bc] times. *)
Fixpoint next (fuel : nat) (h : t) (it : iter) : option (K * V) * iter :=
  match _b it, fuel with
  | e :: b, _ => (Some e, Iter (_idx it) b)
  | [], O => (None, it)
  | [], S fuel' =>
      let idx := _idx it + 1 in
      if _bc h <=? idx then (None, Iter idx [])
      else next fuel' h (Iter idx (_t h !!! Z.to_nat idx))
  end.

(** A client's loop [while (it.next(k,v))], for [n] rounds. *)
Fixpoint visit (n : nat) (h : t) (it : iter) : list (K * V) :=
  match n with
  | O => []
  | S n' =>
      match next (Z.to_nat (_bc h)) h it with
      | (Some e, it') => e :: visit n' h it'
      | (None, _) => []
      end
  end.

(** ** The interface: calls, replies and sequences of calls *)

Inductive call :=
  | CSet (k : K) (v : V) | CIndex (k : K) | CErase (k : K) | CClear
  | CGet (k : K) | CContains (k : K) | CSize | CEmpty.

Inductive reply := RUnit | RVal (v : V) | RFound (o : option V) | RBool (b : bool) | RSize (n : Z).

Definition exec (v0 : V) (c : call) (h : t) : reply * t :=
  match c with
  | CSet k v => (RUnit, set k v h)
  | CIndex k => let '(v, h') := index v0 k h in (RVal v, h')
  | CErase k => let '(b, h') := erase k h in (RBool b, h')
  | CClear => (RUnit, clear h)
  | CGet k => (RFound (get k h), h)
  | CContains k => (RBool (contains k h), h)
  | CSize => (RSize (size h), h)
  | CEmpty => (RBool (empty h), h)
  end.

(** What the calls mean on a finite map. *)
Definition spec (v0 : V) (c : call) (m : gmap K V) : reply * gmap K V :=
  match c with
  | CSet k v => (RUnit, <[k := v]> m)
  | CIndex k => match m !! k with Some v => (RVal v, m) | None => (RVal v0, <[k := v0]> m) end
  | CErase k => (RBool (bool_decide (is_Some (m !! k))), delete k m)
  | CClear => (RUnit, ∅)
  | CGet k => (RFound (m !! k), m)
  | CContains k => (RBool (bool_decide (is_Some (m !! k))), m)
  | CSize => (RSize (Z.of_nat (base.size m)), m)
  | CEmpty => (RBool (bool_decide (m = ∅)), m)
  end.

Fixpoint replies {S} (f : call → S → reply * S) (cs : list call) (s : S) : list reply * S :=
  match cs with
  | [] => ([], s)
  | c :: cs' => let '(r, s') := f c s in let '(rs, s'') := replies f cs' s' in (r :: rs, s'')
  end.

(** ** Well-formed tables and the map they represent *)

Definition content (h : t) : gmap K V := list_to_map (concat (_t h)).

(** Every entry is in the chain its hash selects. *)
Definition placed (nc : Z) (tb : list (list (K * V))) : Prop :=
  ∀ i b e, tb !! i = Some b → e ∈ b → i = Z.to_nat (hc e.1 mod nc).

Definition wf (h : t) : Prop :=
  0 < _bc h ∧ sizeof_ptr * _bc h < 2 ^ 63 ∧ zlen (_t h) = _bc h
  ∧ placed (_bc h) (_t h) ∧ NoDup (fst <$> concat (_t h))
  ∧ 0 <= _s h < 2 ^ 64 ∧ _s h = zlen (concat (_t h)).

(** ** Chains *)

Lemma chain_get_lookup k b : chain_get k b = (list_to_map b : gmap K V) !! k.
Proof.
  induction b as [|[k' v] b IH]; cbn; [by rewrite lookup_empty|].
  case_decide; subst; [by rewrite lookup_insert_eq|by rewrite lookup_insert_ne].
Qed.

Lemma chain_put_split k v v0 b :
  chain_get k b = Some v0 →
  ∃ b1 b2, b = b1 ++ (k, v0) :: b2 ∧ chain_put k v b = b1 ++ (k, v) :: b2.
Proof.
  induction b as [|[k' v'] b IH]; cbn; [done|].
  case_decide; [intros [= ->]; subst; by exists [], b|].
  intros (b1 & b2 & -> & ->)%IH. by exists ((k', v') :: b1), b2.
Qed.

Lemma chain_erase_split k b :
  match chain_erase k b with
  | Some c => ∃ b1 b2 v, b = b1 ++ (k, v) :: b2 ∧ c = b1 ++ b2 ∧ chain_get k b = Some v
  | None => chain_get k b = None
  end.
Proof.
  induction b as [|[k' v'] b IH]; cbn; [done|].
  case_decide; [subst; by exists [], b, v'|].
  destruct (chain_erase k b) as [c|]; [|done].
  destruct IH as (b1 & b2 & v & -> & -> & Hg). by exists ((k', v') :: b1), b2, v.
Qed.

(** ** Tables *)

Lemma elem_of_concat {A} (e : A) ll : e ∈ concat ll → ∃ j c, ll !! j = Some c ∧ e ∈ c.
Proof.
  induction ll as [|c ll IH]; cbn; [by intros ?%elem_of_nil|].
  intros [He|(j & d & ? & ?)%IH]%elem_of_app; [by exists 0%nat, c|by exists (S j), d].
Qed.

Lemma concat_update (tb : list (list (K * V))) i b :
  tb !! i = Some b →
  ∃ rest, concat tb ≡ₚ b ++ rest ∧ (∀ b', concat (<[i := b']> tb) ≡ₚ b' ++ rest)
    ∧ ∀ e, e ∈ rest → ∃ j c, j ≠ i ∧ tb !! j = Some c ∧ e ∈ c.
Proof.
  intros Hi. exists (concat (take i tb) ++ concat (drop (S i) tb)). split_and!.
  - rewrite <- (take_drop_middle _ _ _ Hi) at 1. rewrite concat_app. cbn. solve_Permutation.
  - intros b'. rewrite insert_take_drop; [|by eapply lookup_lt_Some].
    rewrite concat_app. cbn. solve_Permutation.
  - intros e [He|He]%elem_of_app; apply elem_of_concat in He as (j & c & Hj & Hc).
    + apply lookup_take_Some in Hj as [Hj ?]. exists j, c. split; [lia|done].
    + rewrite lookup_drop in Hj. exists (S i + j)%nat, c. split; [lia|done].
Qed.

Lemma placed_update nc tb i b b' :
  placed nc tb → tb !! i = Some b →
  (∀ e, e ∈ b' → e ∈ b ∨ i = Z.to_nat (hc e.1 mod nc)) → placed nc (<[i := b']> tb).
Proof.
  intros Hp Hi Hb' j c e Hj He. apply list_lookup_insert_Some in Hj as [(<- & <- & _)|[_ Hj]].
  - destruct (Hb' e He) as [Hin|?]; [by eapply Hp|done].
  - by eapply Hp.
Qed.

Lemma slot_some nc (tb : list (list (K * V))) k :
  0 < nc → zlen tb = nc → tb !! Z.to_nat (hc k mod nc) = Some (tb !!! Z.to_nat (hc k mod nc)).
Proof.
  intros Hnc Hl. apply list_lookup_lookup_total_lt.
  pose proof (Z.mod_pos_bound (hc k) nc Hnc). unfold zlen in Hl. lia.
Qed.

Lemma link_spec nc tb e :
  0 < nc → zlen tb = nc → placed nc tb →
  placed nc (link nc tb e) ∧ zlen (link nc tb e) = nc ∧ concat (link nc tb e) ≡ₚ e :: concat tb.
Proof.
  intros Hnc Hl Hp. pose proof (slot_some nc tb e.1 Hnc Hl) as Hs. unfold link.
  destruct (concat_update _ _ _ Hs) as (rest & H1 & H2 & _). split_and!.
  - eapply placed_update; [done..|]. intros e' [->|He]%elem_of_cons; auto.
  - unfold zlen in *. by rewrite length_insert.
  - by rewrite H2, H1.
Qed.

Lemma link_all nc es tb :
  0 < nc → zlen tb = nc → placed nc tb →
  placed nc (foldl (link nc) tb es) ∧ zlen (foldl (link nc) tb es) = nc
  ∧ concat (foldl (link nc) tb es) ≡ₚ es ++ concat tb.
Proof.
  intros Hnc. revert tb. induction es as [|e es IH]; intros tb Hl Hp; [done|].
  destruct (link_spec nc tb e Hnc Hl Hp) as (Hp' & Hl' & Hc). cbn.
  destruct (IH _ Hl' Hp') as (? & ? & ->). split_and!; [done..|]. rewrite Hc. solve_Permutation.
Qed.

Lemma empty_table n :
  placed n (replicate (Z.to_nat n) []) ∧ concat (replicate (Z.to_nat n) []) = ([] : list (K * V)).
Proof.
  split; [|by induction (Z.to_nat n)].
  intros i b e [-> _]%lookup_replicate He. by apply elem_of_nil in He.
Qed.

Lemma content_bucket h k :
  wf h →
  ∃ rest, concat (_t h) ≡ₚ bucket h k ++ rest
    ∧ (∀ b', concat (<[bidx h k := b']> (_t h)) ≡ₚ b' ++ rest)
    ∧ k ∉ (fst <$> rest).
Proof.
  intros (Hbc & _ & Hl & Hp & _). pose proof (slot_some _ _ k Hbc Hl) as Hs.
  destruct (concat_update _ _ _ Hs) as (rest & H1 & H2 & H3). exists rest. split_and!; [done..|].
  intros (e & Hk & (j & c & Hj & Hc & He)%H3)%list_elem_of_fmap. apply Hj. subst k.
  by eapply Hp.
Qed.

Lemma content_perm h l :
  wf h → concat (_t h) ≡ₚ l → content h = list_to_map l ∧ NoDup (fst <$> l).
Proof.
  intros (_ & _ & _ & _ & Hnd & _) Hl. split; [by apply list_to_map_proper|]. by rewrite <- Hl.
Qed.

Lemma get_content h k : wf h → chain_get k (bucket h k) = content h !! k.
Proof.
  intros Hwf. destruct (content_bucket h k Hwf) as (rest & H1 & _ & H3).
  destruct (content_perm _ _ Hwf H1) as [-> _].
  rewrite list_to_map_app, chain_get_lookup.
  rewrite lookup_union_l; [done|]. by apply not_elem_of_list_to_map_1.
Qed.

Lemma size_content h : wf h → _s h = Z.of_nat (base.size (content h)).
Proof.
  intros (_ & _ & _ & _ & Hnd & _ & ->). unfold content, zlen.
  rewrite <- map_size_list_to_map by done. done.
Qed.

(** A table rebuilt from the same chains with one of them changed. *)
Lemma wf_update h k b' s' :
  wf h → (∀ e, e ∈ b' → e ∈ bucket h k ∨ e.1 = k) →
  NoDup (fst <$> concat (<[bidx h k := b']> (_t h))) →
  0 <= s' < 2 ^ 64 → s' = zlen (concat (<[bidx h k := b']> (_t h))) →
  wf (Table (<[bidx h k := b']> (_t h)) (_bc h) s').
Proof.
  intros (Hbc & Hsz & Hl & Hp & _) Hb' Hnd Hs' Hlen.
  unfold wf. cbn. split_and!; try done; try lia.
  - unfold zlen in *. by rewrite length_insert.
  - eapply placed_update; [done|by apply slot_some|]. intros e He.
    destruct (Hb' e He) as [?|Hk]; [by left|right]. unfold bidx. by rewrite Hk.
Qed.

(** ** Each operation on a well-formed table *)

Lemma make_spec bc : 0 < bc → sizeof_ptr * bc < 2 ^ 63 → wf (make bc) ∧ content (make bc) = ∅.
Proof.
  intros Hbc Hsz. destruct (empty_table bc) as [Hp Hc].
  unfold wf, content, make. cbn. rewrite Hc. unfold zlen. rewrite length_replicate. cbn.
  split_and!; try done; try lia. apply NoDup_nil_2.
Qed.

Lemma erase_spec h k :
  wf h →
  (erase k h).1 = bool_decide (is_Some (content h !! k)) ∧ wf (erase k h).2
  ∧ content (erase k h).2 = delete k (content h).
Proof.
  intros Hwf. unfold erase. rewrite <- get_content by done.
  pose proof (chain_erase_split k (bucket h k)) as Hc.
  destruct (chain_erase k (bucket h k)) as [c|]; cbn.
  2: { rewrite delete_id; [by rewrite Hc|]. by rewrite <- get_content. }
  destruct Hc as (b1 & b2 & v & Hb & -> & ->). rewrite bool_decide_true by eauto.
  destruct (content_bucket h k Hwf) as (rest & H1 & H2 & H3).
  specialize (H2 (b1 ++ b2)).
  assert (concat (_t h) ≡ₚ (k, v) :: concat (<[bidx h k := b1 ++ b2]> (_t h))) as Hp.
  { rewrite H1, H2, Hb. solve_Permutation. }
  destruct (content_perm _ _ Hwf Hp) as [Hct [Hk Hnd]%list.NoDup_cons].
  pose proof Hwf as (_ & _ & _ & _ & _ & Hs & Hsl). rewrite Hp, zlen_cons in Hsl.
  pose proof (zlen_nonneg (concat (<[bidx h k:=b1 ++ b2]> (_t h)))).
  split_and!; [done| |].
  - unfold wrap. rewrite Z.mod_small by lia. apply wf_update; try done; try lia.
    intros e He. left. rewrite Hb. set_solver.
  - rewrite Hct. cbn. rewrite delete_insert_id; [done|]. by apply not_elem_of_list_to_map_1.
Qed.

Lemma set_old_spec h k v v0 :
  wf h → content h !! k = Some v0 → wf (set k v h) ∧ content (set k v h) = <[k := v]> (content h).
Proof.
  intros Hwf Hk. rewrite <- get_content in Hk by done. unfold set. rewrite Hk.
  destruct (chain_put_split k v v0 _ Hk) as (b1 & b2 & Hb & ->).
  destruct (content_bucket h k Hwf) as (rest & H1 & H2 & H3).
  specialize (H2 (b1 ++ (k, v) :: b2)).
  assert (concat (_t h) ≡ₚ (k, v0) :: (b1 ++ b2 ++ rest)) as Hp.
  { rewrite H1, Hb. solve_Permutation. }
  assert (concat (<[bidx h k := b1 ++ (k, v) :: b2]> (_t h)) ≡ₚ (k, v) :: (b1 ++ b2 ++ rest)) as Hq.
  { rewrite H2. solve_Permutation. }
  destruct (content_perm _ _ Hwf Hp) as [Hct Hnd].
  assert (NoDup (fst <$> concat (<[bidx h k := b1 ++ (k, v) :: b2]> (_t h)))) as Hnd'.
  { rewrite Hq. exact Hnd. }
  split.
  - pose proof Hwf as (_ & _ & _ & _ & _ & Hs & Hsl).
    apply wf_update; try done.
    + intros e. rewrite Hb. set_solver.
    + by rewrite Hsl, Hp, Hq, !zlen_cons.
  - unfold content at 1. cbn. rewrite (list_to_map_proper _ _ Hnd' Hq), Hct. cbn.
    by rewrite insert_insert_eq.
Qed.

Lemma clear_spec h : wf h → wf (clear h) ∧ content (clear h) = ∅.
Proof.
  intros Hwf. pose proof (size_content h Hwf) as Hsz. unfold clear.
  destruct (Z.eqb_spec (_s h) 0) as [H0|_].
  { split; [done|]. apply map_size_empty_iff. lia. }
  destruct Hwf as (Hbc & Hm & Hl & _).
  assert (concat ((λ _, []) <$> _t h) = ([] : list (K * V))) as Hc
    by (clear; induction (_t h); cbn; done).
  unfold wf, content. cbn. rewrite Hc. split_and!; try done; try lia.
  - unfold zlen in *. by rewrite length_fmap.
  - intros i b e (? & -> & _)%list_lookup_fmap_Some He. by apply elem_of_nil in He.
  - apply NoDup_nil_2.
Qed.

Lemma copy_spec h : wf h → wf (copy h) ∧ content (copy h) = content h.
Proof.
  intros Hwf. pose proof Hwf as (Hbc & Hm & Hl & Hp & Hnd & Hs & Hsl).
  assert (concat (@rev (K * V) <$> _t h) ≡ₚ concat (_t h)) as Hc.
  { clear. induction (_t h) as [|b tb IH]; cbn; [done|].
    apply Permutation_app; [symmetry; apply Permutation_rev|exact IH]. }
  assert (NoDup (fst <$> concat (@rev (K * V) <$> _t h))) as Hnd' by (by rewrite Hc).
  split; [|by apply list_to_map_proper].
  unfold wf. cbn. split_and!; try done; try lia.
  - unfold zlen in *. by rewrite length_fmap.
  - intros i b e (b0 & -> & Hi)%list_lookup_fmap_Some He. apply (Hp i b0 e Hi).
    by rewrite <- Permutation_rev in He.
  - by rewrite Hc.
Qed.

(** [malloc] never hands out more than [PTRDIFF_MAX] bytes. *)
Context (malloc_max : ∀ n, malloc n = true → n < 2 ^ 63).

Lemma grow_spec h :
  wf h → wf (_grow h) ∧ content (_grow h) = content h ∧ _s (_grow h) = _s h.
Proof.
  intros Hwf. unfold _grow. destruct (malloc _) eqn:Hm; [|done].
  apply malloc_max in Hm. revert Hm. unfold wrap, sizeof_ptr.
  pose proof Hwf as (Hbc & Hsz & Hl & Hp & Hnd & Hs & Hsl). unfold sizeof_ptr in Hsz.
  rewrite (Z.mod_small (_bc h * 2)), Z.mod_small by lia. intros Hm.
  destruct (empty_table (_bc h * 2)) as [He Hn].
  destruct (link_all (_bc h * 2) (concat (_t h)) (replicate (Z.to_nat (_bc h * 2)) []))
    as (Hp' & Hl' & Hc); [lia|unfold zlen; rewrite length_replicate; lia|done|].
  rewrite Hn, app_nil_r in Hc.
  assert (NoDup (fst <$> concat (foldl (link (_bc h * 2)) (replicate (Z.to_nat (_bc h * 2)) [])
    (concat (_t h))))) as Hnd' by (by rewrite Hc).
  split_and!; [|by apply list_to_map_proper|done].
  unfold wf, sizeof_ptr. cbn. split_and!; try done; try lia. by rewrite Hc.
Qed.

Lemma insert_new_spec h k v :
  wf h → content h !! k = None → _s h + 1 < 2 ^ 64 →
  wf (insert_new k v h) ∧ content (insert_new k v h) = <[k := v]> (content h).
Proof.
  intros Hwf Hk Hlt. unfold insert_new.
  set (g := if _bc h <=? _s h then _grow h else h).
  assert (wf g ∧ content g = content h ∧ _s g = _s h) as (Hg & Hgc & Hgs).
  { subst g. destruct (_ <=? _); [by apply grow_spec|done]. }
  clearbody g. rewrite <- Hgc in *. rewrite <- Hgs in Hlt.
  pose proof Hg as (Hbc & Hsz & Hl & Hp & Hnd & Hs & Hsl).
  destruct (link_spec _ _ (k, v) Hbc Hl Hp) as (Hp' & Hl' & Hc).
  assert (NoDup (fst <$> concat (link (_bc g) (_t g) (k, v)))) as Hnd'.
  { rewrite Hc. cbn. apply list.NoDup_cons. split; [by apply not_elem_of_list_to_map_2|done]. }
  split; [|unfold content; cbn; by rewrite (list_to_map_proper _ _ Hnd' Hc)].
  unfold wf, wrap. cbn. rewrite Z.mod_small by lia. split_and!; try done; try lia.
  rewrite Hc, zlen_cons. lia.
Qed.

Lemma set_spec h k v :
  wf h → _s h + 1 < 2 ^ 64 → wf (set k v h) ∧ content (set k v h) = <[k := v]> (content h).
Proof.
  intros Hwf Hlt. destruct (content h !! k) as [v0|] eqn:Hk; [by eapply set_old_spec|].
  unfold set. rewrite get_content, Hk by done. by apply insert_new_spec.
Qed.

Lemma spec_size v0 c (m : gmap K V) : (base.size (spec v0 c m).2 <= S (base.size m))%nat.
Proof.
  destruct c; cbn; repeat case_match; cbn;
    rewrite ?map_size_insert, ?map_size_delete, ?map_size_empty; repeat case_match; cbn; lia.
Qed.

(** One call: the replies agree, and so do the contents. *)
Lemma exec_spec v0 c h :
  wf h → _s h + 1 < 2 ^ 64 →
  (exec v0 c h).1 = (spec v0 c (content h)).1 ∧ wf (exec v0 c h).2
  ∧ content (exec v0 c h).2 = (spec v0 c (content h)).2 ∧ _s (exec v0 c h).2 <= _s h + 1.
Proof.
  intros Hwf Hlt. enough ((exec v0 c h).1 = (spec v0 c (content h)).1 ∧ wf (exec v0 c h).2
    ∧ content (exec v0 c h).2 = (spec v0 c (content h)).2) as (H1 & H2 & H3).
  { split_and!; try done. rewrite (size_content _ H2), (size_content _ Hwf), H3.
    pose proof (spec_size v0 c (content h)). lia. }
  destruct c; cbn.
  - by destruct (set_spec h k v Hwf Hlt).
  - unfold index. rewrite get_content by done. destruct (content h !! k) eqn:Hk; [done|].
    by destruct (insert_new_spec h k v0 Hwf Hk Hlt).
  - pose proof (erase_spec h k Hwf) as (H1 & H2 & H3). destruct (erase k h). cbn in *. by rewrite H1.
  - by destruct (clear_spec h Hwf).
  - unfold get. by rewrite get_content.
  - unfold contains. rewrite get_content by done. by destruct (content h !! k).
  - unfold size. by rewrite size_content.
  - unfold empty. rewrite size_content by done. split_and!; try done. f_equal.
    destruct (decide (content h = ∅)) as [E|E].
    + rewrite E, map_size_empty. by rewrite bool_decide_true.
    + rewrite bool_decide_false by done. apply Z.eqb_neq. rewrite <- map_size_empty_iff in E. lia.
Qed.

Lemma replies_spec v0 cs h :
  wf h → _s h + zlen cs < 2 ^ 64 →
  (replies (exec v0) cs h).1 = (replies (spec v0) cs (content h)).1
  ∧ wf (replies (exec v0) cs h).2
  ∧ content (replies (exec v0) cs h).2 = (replies (spec v0) cs (content h)).2.
Proof.
  revert h. induction cs as [|c cs IH]; intros h Hwf Hlt; [done|].
  rewrite zlen_cons in Hlt. pose proof (zlen_nonneg cs).
  destruct (exec_spec v0 c h Hwf) as (H1 & H2 & H3 & H4); [lia|].
  cbn. destruct (exec v0 c h) as [r h'], (spec v0 c (content h)) as [r' m']. cbn in *. subst.
  destruct (IH h' H2) as (E1 & E2 & E3); [lia|].
  destruct (replies (exec v0) cs h'), (replies (spec v0) cs (content h')). cbn in *. by subst.
Qed.

(** ** Iteration *)

(** What is left of the table for an iterator. *)
Definition remaining (h : t) (it : iter) : list (K * V) :=
  _b it ++ concat (drop (Z.to_nat (_idx it + 1)) (_t h)).
Arguments remaining : simpl never.

Lemma next_spec fuel h it :
  zlen (_t h) = _bc h → 0 <= _idx it → _bc h - _idx it <= Z.of_nat fuel →
  match next fuel h it with
  | (Some e, it') => remaining h it = e :: remaining h it' ∧ _idx it <= _idx it'
  | (None, _) => remaining h it = []
  end.
Proof.
  intros Hl. revert it. induction fuel as [|fuel IH]; intros [i b] Hi Hf; cbn in *.
  - destruct b; [|done]. unfold remaining. cbn. rewrite drop_ge; [done|]. unfold zlen in *. lia.
  - destruct b as [|e b]; [|done]. destruct (Z.leb_spec (_bc h) (i + 1)) as [Hge|Hlt].
    { unfold remaining. cbn. rewrite drop_ge; [done|]. unfold zlen in *. lia. }
    specialize (IH (Iter (i + 1) (_t h !!! Z.to_nat (i + 1)))). cbn in IH.
    assert (remaining h (Iter i []) = remaining h (Iter (i + 1) (_t h !!! Z.to_nat (i + 1)))) as ->.
    { unfold remaining. cbn. rewrite (drop_S _ (_t h !!! Z.to_nat (i + 1))).
      - cbn. by replace (Z.to_nat (i + 1 + 1)) with (S (Z.to_nat (i + 1))) by lia.
      - apply list_lookup_lookup_total_lt. unfold zlen in Hl. lia. }
    destruct (next fuel h _) as [[e|] it']; [|apply IH; lia].
    destruct IH as [-> ?]; [lia..|]. split; [done|lia].
Qed.

Lemma visit_spec n h it :
  zlen (_t h) = _bc h → 0 <= _idx it →
  (length (remaining h it) <= n)%nat → visit n h it = remaining h it.
Proof.
  intros Hl. revert it. induction n as [|n IH]; intros it Hi Hn.
  - destruct (remaining h it); [done|cbn in Hn; lia].
  - cbn. pose proof (zlen_nonneg (_t h)).
    pose proof (next_spec (Z.to_nat (_bc h)) h it Hl Hi ltac:(lia)) as Hs.
    destruct (next _ h it) as [[e|] it']; [|done]. destruct Hs as [E ?].
    rewrite E in *. f_equal. apply IH; [lia|]. cbn in Hn. lia.
Qed.

Lemma visit_entries h : wf h → visit (Z.to_nat (size h)) h (iterator h) = entries h.
Proof.
  intros (Hbc & _ & Hl & _ & _ & _ & Hs). unfold size, entries.
  assert (remaining h (iterator h) = concat (_t h)) as E.
  { unfold remaining, iterator. cbn. destruct (_t h); [unfold zlen in Hl; cbn in Hl; lia|done]. }
  rewrite visit_spec, E; [|done..|rewrite E, Hs; unfold zlen; lia].
  destruct (Z.eqb_spec (_s h) 0) as [H0|_]; [|done].
  rewrite Hs in H0. unfold zlen in H0. destruct (concat (_t h)); [done|cbn in H0; lia].
Qed.

Lemma set_size h k v : wf h → _s h + 1 < 2 ^ 64 → _s (set k v h) <= _s h + 1.
Proof.
  intros Hwf Hlt. destruct (set_spec h k v Hwf Hlt) as [Hw Hc].
  rewrite (size_content _ Hw), (size_content _ Hwf), Hc, map_size_insert. case_match; cbn; lia.
Qed.

Lemma set_all es h :
  wf h → _s h + zlen es < 2 ^ 64 →
  wf (foldl (λ h e, set e.1 e.2 h) h es)
  ∧ content (foldl (λ h e, set e.1 e.2 h) h es) = foldl (λ m e, <[e.1 := e.2]> m) (content h) es.
Proof.
  revert h. induction es as [|[k v] es IH]; intros h Hwf Hlt; [done|].
  rewrite zlen_cons in Hlt. pose proof (zlen_nonneg es). cbn.
  destruct (set_spec h k v Hwf) as [Hw <-]; [lia|].
  apply IH; [done|]. pose proof (set_size h k v Hwf). lia.
Qed.

Lemma foldl_insert_list_to_map es (m : gmap K V) :
  NoDup (fst <$> es) → foldl (λ m e, <[e.1 := e.2]> m) m es = list_to_map es ∪ m.
Proof.
  revert m. induction es as [|[k v] es IH]; intros m Hnd; cbn; [by rewrite map_empty_union|].
  apply list.NoDup_cons in Hnd as [Hk Hnd]. rewrite IH by done.
  rewrite <- insert_union_r, insert_union_l; [done|]. by apply not_elem_of_list_to_map_1.
Qed.

Lemma assign_spec h from :
  wf h → wf from → wf (assign h from) ∧ content (assign h from) = content from.
Proof.
  intros Hh Hf. destruct (clear_spec h Hh) as [Hw Hc]. unfold assign, assign_loop.
  pose proof (size_content from Hf) as Hsz.
  destruct (Z.eqb_spec (_s from) 0) as [H0|_].
  { split; [done|]. rewrite Hc. symmetry. apply map_size_empty_iff. lia. }
  pose proof Hf as (_ & _ & _ & _ & Hnd & Hs & Hl).
  destruct (set_all (concat (_t from)) (clear h) Hw) as [? ->].
  { rewrite (size_content _ Hw), Hc, map_size_empty. lia. }
  split; [done|]. by rewrite Hc, foldl_insert_list_to_map, map_union_empty.
Qed.

Lemma entries_content h : wf h → entries h ≡ₚ map_to_list (content h) ∧ keys h = fst <$> entries h.
Proof.
  intros Hwf. pose proof Hwf as (_ & _ & _ & _ & Hnd & _ & Hl). unfold entries, keys.
  destruct (Z.eqb_spec (_s h) 0) as [H0|_].
  - rewrite size_content in H0 by done. replace (content h) with (∅ : gmap K V).
    + by rewrite map_to_list_empty.
    + symmetry. apply map_size_empty_iff. lia.
  - split; [|done]. symmetry. by apply map_to_list_to_map.
Qed.

End hashtable.

(** ** The table as a map *)

(** C11: From a new table of any positive capacity, every sequence of calls
    ([set], [operator[]], [erase], [clear], [get], [contains], [size], [empty])
    gets exactly the replies a finite map gives, for every hash function and
    whether or not the table could grow; the table it leaves holds the map's
    entries, which [entries], [keys] and a loop with an [Iterator] list once each. *)
Theorem hashtable_refines_map {K V} `{Countable K} (hc : K → Z) (malloc : Z → bool) (v0 : V)
    (bc : Z) (cs : list (@call K V)) :
  (∀ n, malloc n = true → n < 2 ^ 63) → 0 < bc → sizeof_ptr * bc < 2 ^ 63 → zlen cs < 2 ^ 64 →
  let '(rs, h) := replies (exec hc malloc v0) cs (make bc) in
  let '(rs', m) := replies (spec v0) cs ∅ in
  rs = rs' ∧ entries h ≡ₚ map_to_list m ∧ keys h = fst <$> entries h
  ∧ visit (Z.to_nat (size h)) h (iterator h) = entries h.
Proof.
  intros Hm Hbc Hsz Hcs. destruct (make_spec (V:=V) hc bc Hbc Hsz) as [Hw Hc].
  destruct (replies_spec hc malloc Hm v0 cs (make bc) Hw) as (E1 & E2 & E3); [cbn; lia|].
  rewrite Hc in E1, E3.
  destruct (replies (exec hc malloc v0) cs (make bc)) as [rs h], (replies (spec v0) cs ∅) as [rs' m].
  cbn in *. subst. destruct (entries_content hc h E2) as [H1 H2].
  split_and!; try done. by apply (visit_entries hc).
Qed.

(** A table of one bucket that cannot grow, used with 32-bit keys. *)
Lemma hashtable_refines_map_witness :
  let cs := [CSet 1 10; CSet 5 50; CIndex 9; CSet 1 11; CErase 5; CGet 1; CGet 5; CSize] in
  let '(rs, h) := replies (exec hc_u32 (λ _, false) 0) cs (make 1) in
  rs = [RUnit; RUnit; RVal 0; RUnit; RBool true; RFound (Some 11); RFound None; RSize 2]
  ∧ visit 2 h (iterator h) = [(9, 0); (1, 11)].
Proof.
  pose proof (hashtable_refines_map hc_u32 (λ _, false) 0 1
    [CSet 1 10; CSet 5 50; CIndex 9; CSet 1 11; CErase 5; CGet 1; CGet 5; CSize]
    ltac:(done) ltac:(done) ltac:(done) ltac:(done)) as Hr.
  vm_compute in Hr. destruct Hr as (Hr & _). vm_compute. by split.
Defined.

(** A copy holds the same map, and so does a table another one was assigned
    to, whatever it held before; but assigning a table to itself empties it. *)
Theorem hashtable_copies {K V} `{Countable K} (hc : K → Z) (malloc : Z → bool) (h from : @t K V) :
  (∀ n, malloc n = true → n < 2 ^ 63) → wf hc h → wf hc from →
  (∀ k, get hc k (copy from) = get hc k from)
  ∧ (∀ k, get hc k (assign hc malloc h from) = get hc k from)
  ∧ (∀ k, get hc k (assign_self hc malloc h) = None).
Proof.
  intros Hm Hh Hf. destruct (copy_spec hc from Hf) as [C1 C2].
  destruct (assign_spec hc malloc Hm h from Hh Hf) as [A1 A2].
  destruct (clear_spec hc h Hh) as [S1 S2].
  split_and!; intros k; unfold get.
  - by rewrite !(get_content hc), C2.
  - by rewrite !(get_content hc), A2.
  - unfold assign_self, assign_loop. pose proof (size_content hc _ S1) as S3.
    rewrite S2, map_size_empty in S3. rewrite S3. cbn [Z.of_nat Z.eqb].
    by rewrite (get_content hc _ k S1), S2.
Qed.

Lemma hashtable_copies_witness :
  let h := set hc_u64 (λ _, false) 7 70 (make 2) in
  get hc_u64 7 h = Some 70 ∧ get hc_u64 7 (assign_self hc_u64 (λ _, false) h) = None.
Proof.
  set (h := set hc_u64 (λ _, false) 7 70 (make 2)). split; [vm_compute; done|].
  assert (wf hc_u64 h) as Hh.
  { apply set_spec; [done| |done]. by apply make_spec. }
  by apply (hashtable_copies hc_u64 (λ _, false) h h ltac:(done) Hh Hh).
Defined.
