(* ===== verification/Utils.v ===== *)
(** * Helpers of the node (zto/node/Utils.hpp, Utils.cpp)

    Hexadecimal strings in both directions, the bounded C string copy, the
    constant-time comparison and the comparison of versions.  A C string argument is
    the memory from the pointer on, which must hold a NUL. *)

From S2P Require Import Prelude.
From Stdlib Require Import ZArith Lia.
From stdpp Require Import base numbers list option.

Open Scope Z_scope.


(** "0123456789abcdef" *)
Definition HEXCHARS : bytes :=
  [48; 49; 50; 51; 52; 53; 54; 55; 56; 57; 97; 98; 99; 100; 101; 102].

Definition hexchar (x : Z) : Z := HEXCHARS !!! Z.to_nat x.

Fixpoint hex (data : bytes) : bytes :=
  match data with
  | [] => []
  | c :: d => hexchar (Z.shiftr (Z.land c 0xf0) 4) :: hexchar (Z.land c 0x0f) :: hex d
  end.

(** The three ranges of hexadecimal digits. *)
Definition nibble (c : Z) : option Z :=
  if (48 <=? c) && (c <=? 57) then Some (c - 48)
  else if (65 <=? c) && (c <=? 70) then Some (c - (65 - 10))
  else if (97 <=? c) && (c <=? 102) then Some (c - (97 - 10))
  else None.

(** The loop of [unhex] that makes a string; [left] counts down to [eof]. *)
Fixpoint unhex_loop (left : nat) (hex : bytes) (n b : Z) (r : bytes) : cres bytes :=
  match hex with
  | [] => Undef OutOfBounds
  | c :: hex' =>
      if c =? 0 then Ok r
      else
        let '(n, b, r) :=
          match nibble c with
          | None => (n, b, r)
          | Some x =>
              let n := Z.lxor n 1 in
              if n =? 0 then (n, wrap 8 (Z.shiftl x 4), r) else (n, b, r ++ [Z.lor b x])
          end in
        match left with
        | O | S O => Ok r
        | S left' => unhex_loop left' hex' n b r
        end
  end.

Definition unhex (hex : bytes) (maxlen : Z) : cres bytes :=
  if maxlen =? 0 then Ok [] else unhex_loop (Z.to_nat maxlen) hex 1 0 [].

(** The loop of [unhex] into a buffer of [len] bytes: the number of bytes written
    and the buffer. *)
Fixpoint unhex_buf_loop (left : nat) (hex : bytes) (n b l len : Z) (buf : bytes) : cres (Z * bytes) :=
  match hex with
  | [] => Undef OutOfBounds
  | c :: hex' =>
      if c =? 0 then Ok (l, buf)
      else
        let continue n b l buf :=
          match left with
          | O | S O => Ok (l, buf)
          | S left' => unhex_buf_loop left' hex' n b l len buf
          end in
        match nibble c with
        | None => continue n b l buf
        | Some x =>
            let n := Z.lxor n 1 in
            if n =? 0 then continue n (wrap 8 (Z.shiftl x 4)) l buf
            else if len <=? l then Ok (l, buf)
            else buf' ← mem_write l [Z.lor b x] buf; continue n b (l + 1) buf'
        end
  end.

Definition unhex_buf (hex : bytes) (maxlen : Z) (buf : bytes) (len : Z) : cres (Z * bytes) :=
  if maxlen =? 0 then Ok (0, buf) else unhex_buf_loop (Z.to_nat maxlen) hex 1 0 0 len buf.

(** [scopy]: [i] is how far [dest] has advanced. *)
Fixpoint scopy_loop (dest : bytes) (i len : Z) (src : bytes) : cres (bool * bytes) :=
  match src with
  | [] => Undef OutOfBounds
  | c :: src' =>
      d ← mem_write i [c] dest;
      if c =? 0 then Ok (true, d)
      else if i + 1 =? len then d' ← mem_write i [0] d; Ok (false, d')
      else scopy_loop d (i + 1) len src'
  end.

Definition scopy (dest : bytes) (len : Z) (src : option bytes) : cres (bool * bytes) :=
  if len =? 0 then Ok (false, dest)
  else match src with
       | None => d ← mem_write 0 [0] dest; Ok (true, d)
       | Some s => scopy_loop dest 0 len s
       end.

(** The bytes that differ are collected in [diff]. *)
Fixpoint secureEq_loop (a b : bytes) (len : nat) (diff : Z) {struct len} : cres Z :=
  match len, a, b with
  | O, _, _ => Ok diff
  | S len', x :: a', y :: b' => secureEq_loop a' b' len' (Z.lor diff (Z.lxor x y))
  | _, _, _ => Undef OutOfBounds
  end.

Definition secureEq (a b : bytes) (len : Z) : cres bool :=
  diff ← secureEq_loop a b (Z.to_nat len) 0; Ok (diff =? 0).

Definition compareVersion (maj1 min1 rev1 b1 maj2 min2 rev2 b2 : Z) : Z :=
  if maj2 <? maj1 then 1 else if maj1 <? maj2 then -1
  else if min2 <? min1 then 1 else if min1 <? min2 then -1
  else if rev2 <? rev1 then 1 else if rev1 <? rev2 then -1
  else if b2 <? b1 then 1 else if b1 <? b2 then -1 else 0.

(** The conversion "%.<n>llx" of [snprintf]: at least [n] digits. *)
Fixpoint print_digits (fuel : nat) (v : Z) (tl : bytes) : bytes :=
  match fuel with
  | O => tl
  | S fuel' => if v =? 0 then tl else print_digits fuel' (v / 16) (hexchar (v mod 16) :: tl)
  end.

Definition print_x (n : nat) (v : Z) : bytes :=
  let ds := print_digits 16 (wrap 64 v) [] in replicate (n - length ds) 48 ++ ds.

(** [strtoull] in base 16 on a C string: white space, a sign, a prefix 0x that is
    followed by a digit, and the digits; a value that does not fit is [ULLONG_MAX]. *)
Definition is_space (c : Z) : bool := (c =? 32) || ((9 <=? c) && (c <=? 13)).

Fixpoint skip_space (s : bytes) : bytes :=
  match s with c :: s' => if is_space c then skip_space s' else s | [] => [] end.

Definition skip_sign (s : bytes) : bool * bytes :=
  match s with
  | c :: s' => if c =? 45 then (true, s') else if c =? 43 then (false, s') else (false, s)
  | [] => (false, [])
  end.

Definition skip_0x (s : bytes) : bytes :=
  match s with
  | a :: b :: c :: s' =>
      if (a =? 48) && ((b =? 120) || (b =? 88)) && bool_decide (is_Some (nibble c)) then c :: s' else s
  | _ => s
  end.

Fixpoint digits (s : bytes) (v : Z) : Z :=
  match s with
  | c :: s' => match nibble c with Some x => digits s' (v * 16 + x) | None => v end
  | [] => v
  end.

Definition hexStrToU64 (s : bytes) : Z :=
  let '(neg, s) := skip_sign (skip_space s) in
  let v := digits (skip_0x s) 0 in
  if 2 ^ 64 <=? v then 2 ^ 64 - 1 else if neg : bool then wrap 64 (- v) else v.

(** ** Lemmas *)

Definition nibbles : list Z := Z.of_nat <$> seq 0 16.

Lemma nibble_hexchar x : 0 <= x < 16 → nibble (hexchar x) = Some x ∧ hexchar x ≠ 0.
Proof.
  intros Hx. assert (Forall (λ x, nibble (hexchar x) = Some x ∧ hexchar x ≠ 0) nibbles) as Hall.
  { repeat constructor; by vm_compute. }
  rewrite list.Forall_forall in Hall. apply Hall. apply list_elem_of_fmap.
  exists (Z.to_nat x). rewrite elem_of_seq. lia.
Qed.

Lemma nibble_split c :
  byte_ok c →
  ∃ h l, 0 <= h < 16 ∧ 0 <= l < 16 ∧ c = h * 16 + l
    ∧ Z.shiftr (Z.land c 0xf0) 4 = h ∧ Z.land c 0x0f = l ∧ Z.lor (wrap 8 (Z.shiftl h 4)) l = c.
Proof.
  intros Hc. exists (c / 16), (c mod 16). destruct Hc.
  pose proof (Z.mod_pos_bound c 16 ltac:(lia)). pose proof (Z.div_mod c 16 ltac:(lia)).
  assert (c / 16 < 16) by (apply Z.div_lt_upper_bound; lia).
  assert (0 <= c / 16) by (apply Z.div_pos; lia).
  split_and!; try lia.
  - rewrite Z.shiftr_land, shiftr_div by lia. change (Z.shiftr 0xf0 4) with (Z.ones 4).
    rewrite Z.land_ones by lia. apply Z.mod_small. change (2 ^ 4) with 16. lia.
  - change 0x0f with (Z.ones 4). by rewrite Z.land_ones.
  - unfold wrap. rewrite Z.shiftl_mul_pow2, Z.mod_small by (change (2 ^ 4) with 16; lia).
    rewrite <- Z.shiftl_mul_pow2, lor_shiftl_add by (change (2 ^ 4) with 16; lia).
    change (2 ^ 4) with 16. lia.
Qed.

(** The two digits of a byte are read as its halves. *)
Lemma hex_digits c :
  byte_ok c →
  ∃ h l, nibble (hexchar (Z.shiftr (Z.land c 0xf0) 4)) = Some h ∧ nibble (hexchar (Z.land c 0x0f)) = Some l
    ∧ (hexchar (Z.shiftr (Z.land c 0xf0) 4) =? 0) = false ∧ (hexchar (Z.land c 0x0f) =? 0) = false
    ∧ Z.lor (wrap 8 (Z.shiftl h 4)) l = c.
Proof.
  intros Hc. destruct (nibble_split c Hc) as (h & l & Hh & Hlo & _ & -> & -> & Hor).
  destruct (nibble_hexchar h Hh) as [N1 Z1], (nibble_hexchar l Hlo) as [N2 Z2].
  apply Z.eqb_neq in Z1, Z2. by exists h, l.
Qed.

Lemma unhex_loop_hex d tl left b r :
  bytes_ok d → (0 < left)%nat → (2 * length d <= left)%nat →
  unhex_loop left (hex d ++ 0 :: tl) 1 b r = Ok (r ++ d).
Proof.
  intros Hd. revert left b r. induction Hd as [|c d Hc Hd IH]; intros left b r H0 Hl.
  - rewrite app_nil_r. by destruct left.
  - destruct (hex_digits c Hc) as (h & l & N1 & N2 & Z1 & Z2 & Hor).
    destruct left as [|[|left]]; cbn [length] in Hl; try lia.
    cbn [hex app unhex_loop]. rewrite Z1, N1. change (Z.lxor 1 1) with 0.
    cbn -[Z.shiftl wrap Z.lor Z.lxor unhex_loop].
    cbn [unhex_loop]. rewrite Z2, N2. change (Z.lxor 0 1) with 1.
    cbn -[Z.shiftl wrap Z.lor Z.lxor unhex_loop]. rewrite Hor.
    destruct left as [|left].
    + destruct d; [done|cbn in Hl; lia].
    + rewrite IH, <- app_assoc by lia. done.
Qed.

Lemma unhex_buf_loop_hex d tl left b pre rest len :
  bytes_ok d → (0 < left)%nat → (2 * length d <= left)%nat → zlen pre <= len <= zlen pre + zlen rest →
  let n := Z.min (zlen d) (len - zlen pre) in
  unhex_buf_loop left (hex d ++ 0 :: tl) 1 b (zlen pre) len (pre ++ rest)
    = Ok (zlen pre + n, pre ++ take (Z.to_nat n) d ++ drop (Z.to_nat n) rest).
Proof.
  intros Hd. revert left b pre rest. induction Hd as [|c d Hc Hd IH]; intros left b pre rest H0 Hl Hlen n.
  - subst n. destruct left; [lia|]. cbn. rewrite Z.min_l by (unfold zlen in *; cbn; lia). change (zlen (@nil Z)) with 0.
    by rewrite Z.add_0_r.
  - destruct (hex_digits c Hc) as (h & l & N1 & N2 & Z1 & Z2 & Hor). pose proof (zlen_nonneg d).
    destruct left as [|[|left]]; cbn [length] in Hl; try lia.
    cbn [hex app unhex_buf_loop]. rewrite Z1, N1. change (Z.lxor 1 1) with 0.
    cbn -[Z.shiftl wrap Z.lor Z.lxor unhex_buf_loop].
    cbn [unhex_buf_loop]. rewrite Z2, N2. change (Z.lxor 0 1) with 1.
    cbn -[Z.shiftl wrap Z.lor Z.lxor unhex_buf_loop]. rewrite Hor.
    destruct (Z.leb_spec len (zlen pre)) as [Hfull|Hroom].
    { subst n. rewrite Z.min_r by (rewrite zlen_cons; lia). replace (len - zlen pre) with 0 by lia.
      cbn. by rewrite Z.add_0_r. }
    destruct rest as [|x rest]; [change (zlen (@nil Z)) with 0 in Hlen; lia|]. rewrite zlen_cons in Hlen.
    rewrite (mem_write_seg pre [x] [c] rest) by done. cbn -[Z.shiftl wrap Z.lor unhex_buf_loop].
    assert (n = 1 + Z.min (zlen d) (len - (zlen pre + 1))) as -> by (subst n; rewrite zlen_cons; lia).
    set (k := Z.min (zlen d) (len - (zlen pre + 1))). assert (0 <= k) by (subst k; lia).
    replace (Z.to_nat (1 + k)) with (S (Z.to_nat k)) by lia. cbn [take drop].
    destruct left as [|left].
    + destruct d; [|cbn in Hl; lia]. assert (k = 0) as -> by (subst k; cbn; unfold zlen at 1; cbn; lia). done.
    + specialize (IH (S left) (wrap 8 (Z.shiftl h 4)) (pre ++ [c]) rest). rewrite zlen_app in IH.
      change (zlen [c]) with 1 in IH. cbn zeta in IH. fold k in IH.
      replace (pre ++ c :: rest) with ((pre ++ [c]) ++ rest) by (by rewrite <- app_assoc).
      rewrite IH by lia. rewrite <- app_assoc. do 2 f_equal. lia.
Qed.

Lemma length_hex d : length (hex d) = (2 * length d)%nat.
Proof. induction d; cbn in *; lia. Qed.

(** ** Numbers *)

(** The characters of hexadecimal digits, and their values. *)
Definition digit_of (c x : Z) : Prop := 0 <= x < 16 ∧ c = hexchar x.

Lemma digit_start x :
  0 <= x < 16 →
  is_space (hexchar x) = false ∧ (hexchar x =? 45) = false ∧ (hexchar x =? 43) = false
  ∧ (hexchar x =? 120) = false ∧ (hexchar x =? 88) = false ∧ hexchar x ≠ 0.
Proof.
  intros Hx. assert (Forall (λ x, is_space (hexchar x) = false ∧ (hexchar x =? 45) = false
    ∧ (hexchar x =? 43) = false ∧ (hexchar x =? 120) = false ∧ (hexchar x =? 88) = false ∧ hexchar x ≠ 0)
    nibbles) as Hall by (repeat constructor; by vm_compute).
  rewrite list.Forall_forall in Hall. apply Hall. apply list_elem_of_fmap.
  exists (Z.to_nat x). rewrite elem_of_seq. lia.
Qed.

Definition hexdigits (s : bytes) : Prop := Forall (λ c, ∃ x, digit_of c x) s.

Lemma hexStrToU64_digits s :
  hexdigits s → hexStrToU64 s = if 2 ^ 64 <=? digits s 0 then 2 ^ 64 - 1 else digits s 0.
Proof.
  intros Hs. assert (skip_space s = s ∧ skip_sign s = (false, s) ∧ skip_0x s = s) as (E1 & E2 & E3).
  { destruct Hs as [|c s (x & Hx & ->) Hs]; [done|].
    destruct (digit_start x Hx) as (H1 & H2 & H3 & _). cbn. rewrite H1, H2, H3. split_and!; [done..|].
    destruct Hs as [|c s (y & Hy & ->) Hs]; [done|]. destruct s; [done|].
    destruct (digit_start y Hy) as (_ & _ & _ & H4 & H5 & _). cbn. rewrite H4, H5. by rewrite andb_false_r. }
  unfold hexStrToU64. by rewrite E1, E2, E3.
Qed.

Lemma digits_app s x tl v : digit_of x tl → hexdigits s → digits (s ++ [x]) v = digits s v * 16 + tl.
Proof.
  intros [Hx ->] Hs. revert v. induction Hs as [|c s (y & Hy & ->) Hs IH]; intros v; cbn.
  - by rewrite (proj1 (nibble_hexchar tl Hx)).
  - by rewrite (proj1 (nibble_hexchar y Hy)), IH.
Qed.

Lemma print_digits_app fuel v tl : print_digits fuel v tl = print_digits fuel v [] ++ tl.
Proof.
  revert v tl. induction fuel as [|fuel IH]; intros v tl; cbn; [done|].
  destruct (v =? 0); [done|]. rewrite IH, (IH _ [_]), <- app_assoc. done.
Qed.

Lemma print_digits_spec fuel v :
  0 <= v < 16 ^ Z.of_nat fuel →
  hexdigits (print_digits fuel v []) ∧ digits (print_digits fuel v []) 0 = v
  ∧ (length (print_digits fuel v []) <= fuel)%nat.
Proof.
  revert v. induction fuel as [|fuel IH]; intros v Hv.
  - cbn in *. split_and!; [constructor|lia|lia].
  - cbn. destruct (Z.eqb_spec v 0) as [->|Hne]; [split_and!; [constructor|done|cbn; lia]|].
    rewrite Nat2Z.inj_succ, Z.pow_succ_r in Hv by lia.
    destruct (IH (v / 16)) as (H1 & H2 & H3).
    { split; [apply Z.div_pos; lia|apply Z.div_lt_upper_bound; lia]. }
    pose proof (Z.mod_pos_bound v 16 ltac:(lia)).
    rewrite print_digits_app. split_and!.
    + apply Forall_app. split; [done|]. repeat constructor. by exists (v mod 16).
    + rewrite (digits_app _ _ (v mod 16)) by done. rewrite H2. pose proof (Z.div_mod v 16). lia.
    + rewrite length_app. cbn. lia.
Qed.

Lemma digits_zeros n s v : digits (replicate n 48 ++ s) v = digits s (v * 16 ^ Z.of_nat n).
Proof.
  revert v. induction n as [|n IH]; intros v; cbn [replicate app digits].
  - by rewrite Z.mul_1_r.
  - change (nibble 48) with (Some 0). cbn. rewrite IH. f_equal.
    rewrite Nat2Z.inj_succ, Z.pow_succ_r by lia. lia.
Qed.

Lemma print_x_spec n v :
  (n <= 16)%nat → 0 <= v < 2 ^ 64 →
  hexdigits (print_x n v) ∧ hexStrToU64 (print_x n v) = v ∧ (length (print_x n v) <= 16)%nat
  ∧ (n <= length (print_x n v))%nat.
Proof.
  intros Hn Hv. unfold print_x, wrap. rewrite Z.mod_small by lia.
  destruct (print_digits_spec 16 v) as (H1 & H2 & H3); [done|].
  assert (hexdigits (replicate (n - length (print_digits 16 v [])) 48 ++ print_digits 16 v [])) as Hd.
  { apply Forall_app. split; [|done]. apply Forall_replicate. by exists 0. }
  split_and!; [done| |rewrite length_app, length_replicate; lia..].
  rewrite hexStrToU64_digits, digits_zeros, Z.mul_0_l, H2 by done.
  destruct (Z.leb_spec (2 ^ 64) v); [lia|done].
Qed.

(** ** The bounded copy *)

Lemma scopy_loop_spec src tl pre rest len :
  Forall (λ c, c ≠ 0) src → zlen pre < len <= zlen pre + zlen rest →
  scopy_loop (pre ++ rest) (zlen pre) len (src ++ 0 :: tl) =
    Ok (zlen pre + zlen src <? len,
        pre ++ take (Z.to_nat (len - 1 - zlen pre)) src ++ 0
          :: drop (Z.to_nat (Z.min (zlen src) (len - 1 - zlen pre) + 1)) rest).
Proof.
  intros Hs. revert pre rest. induction Hs as [|c src Hc Hs IH]; intros pre rest Hlen.
  - destruct rest as [|x rest]; [change (zlen (@nil Z)) with 0 in Hlen; lia|]. rewrite zlen_cons in Hlen. cbn.
    rewrite (mem_write_seg pre [x] [0] rest) by done. cbn.
    rewrite take_nil. change (zlen (@nil Z)) with 0. rewrite Z.min_l by lia.
    rewrite (proj2 (Z.ltb_lt _ _)) by lia. done.
  - destruct rest as [|x rest]; [change (zlen (@nil Z)) with 0 in Hlen; lia|]. rewrite zlen_cons in Hlen.
    cbn [scopy_loop app]. rewrite (mem_write_seg pre [x] [c] rest) by done. cbn -[scopy_loop].
    rewrite (proj2 (Z.eqb_neq c 0) Hc). pose proof (zlen_nonneg src). rewrite zlen_cons.
    destruct (Z.eqb_spec (zlen pre + 1) len) as [He|Hne].
    + rewrite (mem_write_seg pre [c] [0] rest) by done. cbn.
      replace (len - 1 - zlen pre) with 0 by lia. rewrite Z.min_r by lia.
      rewrite (proj2 (Z.ltb_ge _ _)) by lia. done.
    + specialize (IH (pre ++ [c]) rest). rewrite zlen_app in IH. change (zlen [c]) with 1 in IH.
      replace (pre ++ c :: rest) with ((pre ++ [c]) ++ rest) by (by rewrite <- app_assoc).
      rewrite IH by lia. rewrite <- app_assoc.
      replace (Z.to_nat (len - 1 - zlen pre)) with (S (Z.to_nat (len - 1 - (zlen pre + 1)))) by lia.
      replace (Z.to_nat (Z.min (1 + zlen src) (len - 1 - zlen pre) + 1))
        with (S (Z.to_nat (Z.min (zlen src) (len - 1 - (zlen pre + 1)) + 1))) by lia.
      replace (zlen pre + (1 + zlen src)) with (zlen pre + 1 + zlen src) by lia. done.
Qed.

Lemma scopy_spec src tl dest :
  Forall (λ c, c ≠ 0) src → 0 < zlen dest →
  scopy dest (zlen dest) (Some (src ++ 0 :: tl)) =
    Ok (zlen src <? zlen dest, take (Z.to_nat (zlen dest - 1)) src ++ 0
          :: drop (Z.to_nat (Z.min (zlen src) (zlen dest - 1) + 1)) dest).
Proof.
  intros Hs Hd. unfold scopy. rewrite (proj2 (Z.eqb_neq _ _)) by lia.
  pose proof (scopy_loop_spec src tl [] dest (zlen dest) Hs) as H.
  change (zlen (@nil Z)) with 0 in H. cbn [app] in H. rewrite H by lia.
  by rewrite Z.add_0_l, Z.sub_0_r.
Qed.

(** ** Constant-time comparison *)

Lemma secureEq_loop_spec a b len diff :
  (len <= length a)%nat → (len <= length b)%nat →
  ∃ d, secureEq_loop a b len diff = Ok d ∧ (d = 0 ↔ diff = 0 ∧ take len a = take len b).
Proof.
  revert a b diff. induction len as [|len IH]; intros a b diff Ha Hb; cbn.
  - exists diff. split; [done|]. split; [by intros ->|by intros []].
  - destruct a as [|x a], b as [|y b]; cbn in Ha, Hb; try lia. cbn.
    destruct (IH a b (Z.lor diff (Z.lxor x y))) as (d & -> & Hd); [lia..|]. exists d. split; [done|].
    rewrite Hd, Z.lor_eq_0_iff, Z.lxor_eq_0_iff. split; [by intros [[-> ->] ->]|by intros [-> [= -> ->]]].
Qed.

(** ** Properties *)

(** [unhex] inverts [hex]: for every byte string it gives back the bytes from
    their hexadecimal digits, whatever follows the string in memory, and into a
    buffer it stores as many of them as fit, leaving the rest of the buffer. *)
Lemma unhex_hex (d tl buf : bytes) (maxlen : Z) :
  bytes_ok d → zlen (hex d) <= maxlen →
  unhex (hex d ++ 0 :: tl) maxlen = Ok d
  ∧ unhex_buf (hex d ++ 0 :: tl) maxlen buf (zlen buf)
    = let n := Z.min (zlen d) (zlen buf) in Ok (n, take (Z.to_nat n) d ++ drop (Z.to_nat n) buf).
Proof.
  intros Hd Hm. unfold zlen in Hm at 1. rewrite length_hex in Hm. unfold unhex, unhex_buf.
  destruct (Z.eqb_spec maxlen 0) as [->|Hne].
  - destruct d; [|cbn in Hm; lia]. change (zlen (@nil Z)) with 0. pose proof (zlen_nonneg buf).
    rewrite Z.min_l by lia. done.
  - split; [rewrite unhex_loop_hex by (done || lia); done|].
    pose proof (zlen_nonneg buf).
    pose proof (unhex_buf_loop_hex d tl (Z.to_nat maxlen) 0 [] buf (zlen buf) Hd ltac:(lia) ltac:(lia)) as H'.
    change (zlen (@nil Z)) with 0 in H'. cbn zeta in *. cbn [app] in H'. rewrite H' by lia.
    by rewrite Z.add_0_l, Z.sub_0_r.
Qed.
