(* ===== verification/Dictionary.v ===== *)
(** * Packed key=value stores (zto/node/Dictionary.hpp)

    A [Dictionary<C>] is an array of [C] bytes that holds a NUL-terminated text of
    lines key=value with escaped values.  A pointer into the array is the rest of it
    from there on, so that [eof] is the empty list; a key is the characters of its C
    string. *)

From S2P Require Import Prelude Buffer Utils.
From Stdlib Require Import ZArith Lia.
From stdpp Require Import base numbers list option.

Open Scope Z_scope.


(** ** Constructors *)

Definition make (d : bytes) : cres bytes := mem_write 0 [0] d.

Definition clear (d : bytes) : cres bytes := mem_write 0 [0] d.

Definition load (C : Z) (s : bytes) (d : bytes) : cres (bool * bytes) := scopy d C (Some s).

(** The copy constructor and assignment. *)
Definition copy (C : Z) (from d : bytes) : cres bytes :=
  '(_, d) ← scopy d C (Some from); Ok d.

Definition make_len (C : Z) (s : bytes) (len : Z) (d : bytes) : cres bytes :=
  let len := if C - 1 <? len then C - 1 else len in
  d ← mem_copy 0 d 0 len s; mem_write len [0] d.

Fixpoint sizeBytes_loop (C : Z) (i : Z) (p : bytes) : Z :=
  match p with
  | [] => C - 1
  | c :: p' => if c =? 0 then i else sizeBytes_loop C (i + 1) p'
  end.

Definition sizeBytes (C : Z) (d : bytes) : Z := sizeBytes_loop C 0 d.

(** ** Lookup *)

Definition is_eol (c : Z) : bool := (c =? 13) || (c =? 10).
Definition ends (c : Z) : bool := (c =? 0) || is_eol c.

(** Comparing the key; [None] when [eof] is reached. *)
Fixpoint key_loop (k p : bytes) : cres (option (bytes * bytes)) :=
  match k with
  | [] => Ok (Some ([], p))
  | a :: k' =>
      match p with
      | [] => Undef OutOfBounds
      | c :: p' =>
          if (c =? 0) || negb (c =? a) then Ok (Some (k, p))
          else match p' with [] => Ok None | _ => key_loop k' p' end
      end
  end.

Definition unesc (c : Z) : Z :=
  if c =? 114 then 13 else if c =? 110 then 10 else if c =? 48 then 0 else if c =? 101 then 61 else c.

Fixpoint value_loop (p : bytes) (esc : bool) (j : Z) (dest : bytes) (destlen : Z) : cres (Z * bytes) :=
  match p with
  | [] => Undef OutOfBounds
  | c :: p' =>
      if ends c then d ← mem_write j [0] dest; Ok (j, d)
      else
        let next esc j dest :=
          match p' with
          | [] => d ← mem_write 0 [0] dest; Ok (-1, d)
          | _ => value_loop p' esc j dest destlen
          end in
        if negb esc && (c =? 92) then next true j dest
        else
          d ← mem_write j [if esc then unesc c else c] dest;
          if j + 1 =? swrap 32 destlen then d' ← mem_write j [0] d; Ok (j, d')
          else next false (j + 1) d
  end.

(** To the end of the line; [None] when [eof] is reached. *)
Fixpoint skip_line (p : bytes) : cres (option bytes) :=
  match p with
  | [] => Undef OutOfBounds
  | c :: p' => if ends c then Ok (Some p) else match p' with [] => Ok None | _ => skip_line p' end
  end.

Definition notfound (dest : bytes) : cres (Z * bytes) := d ← mem_write 0 [0] dest; Ok (-1, d).

Definition at_equals (k p : bytes) : option bytes :=
  match k, p with [], c :: p' => if c =? 61 then Some p' else None | _, _ => None end.

Fixpoint get_loop (fuel : nat) (key p dest : bytes) (destlen : Z) : cres (Z * bytes) :=
  match fuel, p with
  | O, _ => Undef OutOfFuel
  | _, [] => Undef OutOfBounds
  | S fuel', c :: _ =>
      if c =? 0 then notfound dest
      else
        r ← key_loop key p;
        match r with
        | None => notfound dest
        | Some (k, p1) =>
            match at_equals k p1 with
            | Some p2 => value_loop p2 false 0 dest destlen
            | None =>
                r ← skip_line p1;
                match r with
                | None | Some [] => notfound dest
                | Some (c :: p2) =>
                    if c =? 0 then notfound dest
                    else match p2 with [] => notfound dest | _ => get_loop fuel' key p2 dest destlen end
                end
            end
        end
  end.

(** A round of the loop passes at least one byte of the array. *)
Definition get (key : bytes) (dest : bytes) (destlen : Z) (d : bytes) : cres (Z * bytes) :=
  if destlen =? 0 then Ok (-1, dest) else get_loop (S (length d)) key d dest destlen.

(** [get] into the array of a buffer of capacity [BC]. *)
Definition get_buffer (key : bytes) (BC : Z) (dest : Buffer.t) (d : bytes) : cres (bool * Buffer.t) :=
  '(r, m) ← get key (Buffer._b dest) BC d;
  let dest := Buffer.Buf (Buffer._l dest) m in
  if 0 <=? r then '(_, dest) ← Buffer.setSize BC r dest; Ok (true, dest)
  else '(_, dest) ← Buffer.clear dest; Ok (false, dest).

Definition contains (key d : bytes) : cres bool :=
  '(r, _) ← get key (memset 2 0) 2 d; Ok (0 <=? r).

Definition getB (key : bytes) (dfl : bool) (d : bytes) : cres bool :=
  '(r, tmp) ← get key (memset 4 0) 4 d;
  if 0 <=? r then
    c ← mem_read 0 1 tmp; let c := be_val c in Ok ((c =? 49) || (c =? 116) || (c =? 84))
  else Ok dfl.

Definition getUI (key : bytes) (dfl : Z) (d : bytes) : cres Z :=
  '(r, tmp) ← get key (memset 128 0) 128 d;
  if 1 <=? r then Ok (hexStrToU64 (c_str tmp)) else Ok dfl.

(** ** Insertion *)

(** [_d[j++] = c; if (j == C) { _d[i] = 0; return false; }]: the next state, or the
    array of the failed call. *)
Definition put (C i c : Z) (st : Z * bytes) : cres (Z * bytes + bytes) :=
  let '(j, d) := st in
  d ← mem_write j [c] d;
  if j + 1 =? C then d' ← mem_write i [0] d; Ok (inr d') else Ok (inl (j + 1, d)).

Fixpoint puts (C i : Z) (cs : bytes) (st : Z * bytes) : cres (Z * bytes + bytes) :=
  match cs with
  | [] => Ok (inl st)
  | c :: cs' =>
      r ← put C i c st;
      match r with inl st' => puts C i cs' st' | inr d => Ok (inr d) end
  end.

Definition esc_char (c : Z) : bytes :=
  if c =? 0 then [92; 48] else if c =? 13 then [92; 114] else if c =? 10 then [92; 110]
  else if c =? 92 then [92; 92] else if c =? 61 then [92; 101] else [c].

Fixpoint put_value (C i : Z) (value : bytes) (vlen k : Z) (st : Z * bytes) : cres (Z * bytes + bytes) :=
  match value with
  | [] => if (vlen <? 0) || (k <? vlen) then Undef OutOfBounds else Ok (inl st)
  | c :: value' =>
      if ((vlen <? 0) && negb (c =? 0)) || (k <? vlen) then
        r ← puts C i (esc_char c) st;
        match r with inl st' => put_value C i value' vlen (k + 1) st' | inr d => Ok (inr d) end
      else Ok (inl st)
  end.

Definition seqr (r : cres (Z * bytes + bytes)) (f : Z * bytes → cres (Z * bytes + bytes)) :
  cres (Z * bytes + bytes) :=
  r ← r; match r with inl st => f st | inr d => Ok (inr d) end.

(** The first NUL of the array. *)
Fixpoint find_nul (i : Z) (p : bytes) : option Z :=
  match p with [] => None | c :: p' => if c =? 0 then Some i else find_nul (i + 1) p' end.

Definition add (C : Z) (key value : bytes) (vlen : Z) (d : bytes) : cres (bool * bytes) :=
  match find_nul 0 d with
  | None => Ok (false, d)
  | Some i =>
      r ← seqr (if 0 <? i then put C i 10 (i, d) else Ok (inl (i, d))) (λ st,
          seqr (puts C i key st) (λ st,
          seqr (put C i 61 st) (λ st, put_value C i value vlen 0 st)));
      match r with
      | inr d => Ok (false, d)
      | inl (j, d) => d ← mem_write j [0] d; Ok (true, d)
      end
  end.

Definition add_bool (C : Z) (key : bytes) (value : bool) (d : bytes) : cres (bool * bytes) :=
  add C key [if value then 49 else 48; 0] 1 d.

(** [add] of an integer and of an address; the 32 bytes of [tmp] are enough. *)
Definition add_uint (C : Z) (key : bytes) (value : Z) (d : bytes) : cres (bool * bytes) :=
  add C key (print_x 1 value ++ [0]) (-1) d.
Definition add_address (C : Z) (key : bytes) (a : Z) (d : bytes) : cres (bool * bytes) :=
  add C key (print_x 10 a ++ [0]) (-1) d.

(** [add] of what a buffer holds. *)
Definition add_buffer (C : Z) (key : bytes) (value : Buffer.t) (d : bytes) : cres (bool * bytes) :=
  add C key (Buffer._b value) (swrap 32 (Buffer._l value)) d.

(** ** Removal *)

(** [strtok_r] on the text: the tokens, and the array with a NUL behind each. *)
Fixpoint lines (s : bytes) : list bytes :=
  match s with
  | [] => [[]]
  | c :: s' =>
      if is_eol c then [] :: lines s'
      else match lines s' with l :: ls => (c :: l) :: ls | [] => [[c]] end
  end.

Definition tokens (s : bytes) : list bytes := filter (λ l, l ≠ []) (lines s).

Fixpoint stok_mem (intok : bool) (p : bytes) : bytes :=
  match p with
  | [] => []
  | c :: p' =>
      if c =? 0 then p
      else if is_eol c then (if intok then 0 else c) :: stok_mem false p' else c :: stok_mem true p'
  end.

(** What is left of the key after the characters it shares with the token. *)
Fixpoint key_left (k p : bytes) : bytes :=
  match k, p with
  | a :: k', c :: p' => if a =? c then key_left k' p' else k
  | _, _ => k
  end.

Fixpoint erase_loop (key : bytes) (toks : list bytes) (d2 : bytes) (d2ptr : Z) (found : bool) :
  cres (bytes * Z * bool) :=
  match toks with
  | [] => Ok (d2, d2ptr, found)
  | f :: toks' =>
      match key_left key f with
      | [] => erase_loop key toks' d2 d2ptr true
      | _ =>
          d2 ← mem_write d2ptr f d2;
          d2 ← mem_write (d2ptr + zlen f) [10] d2;
          erase_loop key toks' d2 (d2ptr + zlen f + 1) found
      end
  end.

(** [d2] is the uninitialised local array. *)
Definition erase (key d2 d : bytes) : cres (bool * bytes) :=
  '(d2, d2ptr, found) ← erase_loop key (tokens (c_str d)) d2 0 false;
  d2 ← mem_write d2ptr [0] d2;
  d ← mem_copy 0 (stok_mem false d) 0 (d2ptr + 1) d2;
  Ok (found, d).

(** ** The text as a map *)

Fixpoint escape (v : bytes) : bytes :=
  match v with [] => [] | c :: v' => esc_char c ++ escape v' end.

Fixpoint unescape (esc : bool) (s : bytes) : bytes :=
  match s with
  | [] => []
  | c :: s' => if negb esc && (c =? 92) then unescape true s'
               else (if esc then unesc c else c) :: unescape false s'
  end.

(** The value of a line with the key. *)
Definition line_value (key l : bytes) : option bytes :=
  if is_prefix (key ++ [61]) l then Some (unescape false (drop (S (length key)) l)) else None.

Fixpoint first_value (key : bytes) (ls : list bytes) : option bytes :=
  match ls with
  | [] => None
  | l :: ls' => match line_value key l with Some v => Some v | None => first_value key ls' end
  end.

Definition lookup (key s : bytes) : option bytes := first_value key (lines s).

Definition holds (C : Z) (d s : bytes) : Prop :=
  ∃ tl, d = s ++ 0 :: tl ∧ Forall (λ c, c ≠ 0) s ∧ zlen d = C.

(** Legal keys, and values as [add] is given them. *)
Definition key_ok (key : bytes) : Prop := Forall (λ c, ends c = false) key.
Definition value_arg (value : bytes) (vlen : Z) (v : bytes) : Prop :=
  (vlen < 0 ∧ Forall (λ c, c ≠ 0) v ∧ ∃ tl, value = v ++ 0 :: tl) ∨ (vlen = zlen v ∧ ∃ tl, value = v ++ tl).

(** ** Lookup on a text *)

Definition inline (l : bytes) : Prop := Forall (λ c, ends c = false) l.

Lemma app_cons_nonnil {A B} (l : list A) e tl (x y : B) :
  match l ++ e :: tl with [] => x | _ => y end = y.
Proof. by destruct l. Qed.

Lemma key_loop_spec key l e tl :
  key_ok key → inline l → ends e = true →
  ∃ k' l', key_loop key (l ++ e :: tl) = Ok (Some (k', l' ++ e :: tl)) ∧ inline l'
    ∧ (k' = [] ∧ l = key ++ l' ∨ k' ≠ [] ∧ is_prefix key l = false).
Proof.
  intros Hk. revert l. induction Hk as [|a key Ha Hk IH]; intros l Hl He.
  - exists [], l. split_and!; [done..|by left].
  - destruct Hl as [|c l Hc Hl].
    + exists (a :: key), []. cbn. split_and!; [|constructor|by right].
      assert ((e =? a) = false) as ->. { apply Z.eqb_neq. intros ->. congruence. }
      by rewrite orb_true_r.
    + cbn. unfold ends in Hc. apply orb_false_iff in Hc as [Hc0 Hc1]. rewrite Hc0. cbn.
      destruct (Z.eqb_spec c a) as [->|Hne].
      * rewrite app_cons_nonnil, Z.eqb_refl. destruct (IH l Hl He) as (k' & l' & -> & Hl' & Hr).
        exists k', l'. split_and!; [done..|]. destruct Hr as [[-> ->]|Hr]; [by left|by right].
      * exists (a :: key), (c :: l). split_and!; [done| |].
        -- constructor; [|done]. unfold ends. by rewrite Hc0.
        -- right. split; [done|]. rewrite (proj2 (Z.eqb_neq a c)) by done. done.
Qed.

Lemma skip_line_spec l e tl :
  inline l → ends e = true → skip_line (l ++ e :: tl) = Ok (Some (e :: tl)).
Proof.
  intros Hl He. induction Hl as [|c l Hc Hl IH]; cbn; [by rewrite He|].
  by rewrite Hc, app_cons_nonnil.
Qed.

Lemma value_loop_spec l e tl esc pre rest destlen :
  inline l → ends e = true → zlen pre < destlen <= zlen pre + zlen rest → destlen < 2 ^ 31 →
  let v := take (Z.to_nat (destlen - 1 - zlen pre)) (unescape esc l) in
  value_loop (l ++ e :: tl) esc (zlen pre) (pre ++ rest) destlen =
    Ok (zlen pre + zlen v, pre ++ v ++ 0 :: drop (S (length v)) rest).
Proof.
  intros Hl He. revert esc pre rest. induction Hl as [|c l Hc Hl IH]; intros esc pre rest Hd Hm v.
  - destruct rest as [|x rest]; [change (zlen (@nil Z)) with 0 in Hd; lia|].
    subst v. cbn. rewrite He, (mem_write_seg pre [x] [0] rest) by done. cbn.
    rewrite take_nil. change (zlen (@nil Z)) with 0. by rewrite Z.add_0_r.
  - cbn [app value_loop]. rewrite Hc, app_cons_nonnil.
    destruct (negb esc && (c =? 92)) eqn:Eb.
    { subst v. cbn [unescape]. rewrite Eb. by apply IH. }
    destruct rest as [|x rest]; [change (zlen (@nil Z)) with 0 in Hd; lia|]. rewrite zlen_cons in Hd.
    set (y := if esc then unesc c else c) in *.
    rewrite (mem_write_seg pre [x] [y] rest) by done. cbn -[value_loop].
    rewrite swrap_small by (pose proof (zlen_nonneg pre); lia). rewrite app_cons_nonnil.
    subst v. cbn [unescape]. rewrite Eb. fold y.
    destruct (Z.eqb_spec (zlen pre + 1) destlen) as [Hf|Hne].
    + rewrite (mem_write_seg pre [y] [0] rest) by done. cbn.
      replace (destlen - 1 - zlen pre) with 0 by lia. cbn. change (zlen (@nil Z)) with 0. by rewrite Z.add_0_r.
    + specialize (IH false (pre ++ [y]) rest). rewrite zlen_app in IH. change (zlen [y]) with 1 in IH.
      replace (pre ++ y :: rest) with ((pre ++ [y]) ++ rest) by (by rewrite <- app_assoc).
      cbn zeta in IH. rewrite IH by lia.
      replace (Z.to_nat (destlen - 1 - zlen pre)) with (S (Z.to_nat (destlen - 1 - (zlen pre + 1)))) by lia.
      cbn [take]. rewrite zlen_cons, <- app_assoc. cbn. do 2 f_equal. lia.
Qed.

(** A text is a line, or a line with more behind it. *)
Lemma lines_split s :
  ∃ l, Forall (λ c, is_eol c = false) l
    ∧ ((s = l ∧ lines s = [l]) ∨ ∃ e s', is_eol e = true ∧ s = l ++ e :: s' ∧ lines s = l :: lines s').
Proof.
  induction s as [|c s IH]; cbn.
  - exists []. split; [constructor|by left].
  - destruct (is_eol c) eqn:Ec.
    + exists []. split; [constructor|]. right. by exists c, s.
    + destruct IH as (l & Hl & [[-> ->]|(e & s' & He & -> & ->)]); exists (c :: l);
        (split; [by constructor|]); [by left|right; by exists e, s'].
Qed.

Lemma inline_line l : Forall (λ c, c ≠ 0) l → Forall (λ c, is_eol c = false) l → inline l.
Proof.
  intros H1 H2. induction H1 as [|c l Hc H1 IH]; [constructor|].
  apply list.Forall_cons in H2 as [He H2]. constructor; [|by apply IH].
  unfold ends. rewrite (proj2 (Z.eqb_neq c 0)) by done. done.
Qed.

Lemma is_prefix_app key l : is_prefix (key ++ [61]) (key ++ l) = is_prefix [61] l.
Proof. induction key as [|a key IH]; cbn [app is_prefix]; [done|]. by rewrite Z.eqb_refl. Qed.

Lemma is_prefix_weaken p q l : is_prefix p l = false → is_prefix (p ++ q) l = false.
Proof.
  revert l. induction p as [|a p IH]; intros [|c l]; cbn; try done.
  destruct (a =? c); cbn; auto.
Qed.

(** What the loop does with the first line. *)
Lemma first_line key l e tl :
  key_ok key → inline l → ends e = true →
  ∃ k' p', key_loop key (l ++ e :: tl) = Ok (Some (k', p')) ∧
    match line_value key l with
    | Some v => ∃ w, at_equals k' p' = Some (w ++ e :: tl) ∧ inline w ∧ v = unescape false w
    | None => at_equals k' p' = None ∧ skip_line p' = Ok (Some (e :: tl))
    end.
Proof.
  intros Hk Hl He. destruct (key_loop_spec key l e tl Hk Hl He) as (k' & l' & -> & Hl' & Hr).
  exists k', (l' ++ e :: tl). split; [done|]. unfold line_value.
  destruct Hr as [[-> ->]|[Hk' Hp]].
  - rewrite is_prefix_app. destruct Hl' as [|c w Hc Hw]; cbn [is_prefix app at_equals].
    + destruct (Z.eqb_spec e 61) as [->|_]; [done|]. split; [done|].
      apply (skip_line_spec []); [constructor|done].
    + destruct (Z.eqb_spec 61 c) as [<-|Hne]; cbn [andb].
      * exists w. split_and!; [done..|]. f_equal.
        replace (key ++ 61 :: w) with ((key ++ [61]) ++ w) by (by rewrite <- app_assoc).
        rewrite drop_app_length'; [done|]. rewrite length_app. cbn. lia.
      * rewrite (proj2 (Z.eqb_neq c 61)) by done. split; [done|].
        apply (skip_line_spec (c :: w)); [by constructor|done].
  - rewrite is_prefix_weaken by done. destruct k'; [done|]. split; [done|]. by apply skip_line_spec.
Qed.

(** The result of [get] for a value or none. *)
Definition get_result (v : option bytes) (dest : bytes) (destlen : Z) : Z * bytes :=
  match v with
  | None => (-1, 0 :: drop 1 dest)
  | Some v => let w := take (Z.to_nat (destlen - 1)) v in (zlen w, w ++ 0 :: drop (S (length w)) dest)
  end.

Lemma notfound_result dest destlen : 0 < zlen dest → notfound dest = Ok (get_result None dest destlen).
Proof.
  intros Hd. destruct dest as [|x dest]; [change (zlen (@nil Z)) with 0 in Hd; lia|].
  unfold notfound. change (x :: dest) with ([x] ++ dest).
  rewrite mem_write_head by done. done.
Qed.

Lemma get_loop_spec fuel key s tl dest destlen :
  key_ok key → Forall (λ c, c ≠ 0) s → (length s < fuel)%nat →
  0 < destlen <= zlen dest → destlen < 2 ^ 31 →
  get_loop fuel key (s ++ 0 :: tl) dest destlen = Ok (get_result (lookup key s) dest destlen).
Proof.
  intros Hk. revert s. induction fuel as [|fuel IH]; intros s Hs Hf Hd Hm; [lia|].
  pose proof (λ H, notfound_result dest destlen H) as Hnf.
  destruct s as [|c s0] eqn:Es.
  { cbn. rewrite Hnf by lia. unfold lookup, line_value. cbn. by destruct key. }
  rewrite <- Es in *. assert (∃ tl', s ++ 0 :: tl = c :: tl') as (tl' & Etl) by (rewrite Es; eauto).
  assert ((c =? 0) = false) as Hc. { apply Z.eqb_neq. rewrite Es in Hs. by inversion Hs. }
  cbn [get_loop]. rewrite Etl, Hc, <- Etl.
  destruct (lines_split s) as (l & Hl & Hcase). unfold lookup.
  assert (∃ e tl2, ends e = true ∧ s ++ 0 :: tl = l ++ e :: tl2 ∧ inline l
    ∧ (e = 0 ∧ lines s = [l] ∨ ∃ s', is_eol e = true ∧ e ≠ 0 ∧ s = l ++ e :: s' ∧ tl2 = s' ++ 0 :: tl
        ∧ lines s = l :: lines s' ∧ Forall (λ c, c ≠ 0) s')) as (e & tl2 & He & Eq & Hin & Hrest).
  { destruct Hcase as [[-> El]|(e & s' & He & Esp & El)].
    - exists 0, tl. split_and!; [done|done|by apply inline_line|by left].
    - rewrite Esp in Hs. apply Forall_app in Hs as [Hs1 [He0 Hs2]%list.Forall_cons].
      exists e, (s' ++ 0 :: tl). split_and!.
      + unfold ends. by rewrite He, orb_true_r.
      + rewrite Esp, <- app_assoc. done.
      + by apply inline_line.
      + right. by exists s'. }
  rewrite Eq. destruct (first_line key l e tl2 Hk Hin He) as (k' & p' & -> & Hfl). cbn.
  destruct (line_value key l) as [v|] eqn:Ev.
  - destruct Hfl as (w & -> & Hw & ->).
    assert (first_value key (lines s) = Some (unescape false w)) as ->.
    { destruct Hrest as [[_ ->]|(s' & _ & _ & _ & _ & -> & _)]; cbn; by rewrite Ev. }
    pose proof (value_loop_spec w e tl2 false [] dest destlen Hw He) as Hv.
    change (zlen (@nil Z)) with 0 in Hv. cbn zeta in Hv. cbn [app] in Hv. rewrite Hv by lia.
    unfold get_result. by rewrite Z.sub_0_r, Z.add_0_l.
  - destruct Hfl as [-> ->]. cbn.
    destruct Hrest as [[-> El]|(s' & _ & He0 & Esp & -> & El & Hs')].
    + cbn. rewrite El. cbn. rewrite Ev. by apply Hnf; lia.
    + rewrite (proj2 (Z.eqb_neq e 0) He0), app_cons_nonnil, El. cbn. rewrite Ev.
      apply IH; try done. rewrite Esp, length_app in Hf. cbn in Hf. lia.
Qed.

(** ** Insertion *)

(** The array while [w] is being written behind the text [s], and after a failure. *)
Definition writing (C : Z) (s w : bytes) (st : Z * bytes) : Prop :=
  ∃ r, st = (zlen (s ++ w), (s ++ w) ++ r) ∧ zlen (s ++ w) < C ∧ zlen (s ++ w) + zlen r = C.

Definition cut (C : Z) (s d : bytes) : Prop := ∃ tl, d = s ++ 0 :: tl ∧ zlen d = C.

(** A piece of [add] that writes [x] behind [w]. *)
Definition writes (C : Z) (s w x : bytes) (r : cres (Z * bytes + bytes)) : Prop :=
  if zlen (s ++ w ++ x) <? C
  then ∃ st, r = Ok (inl st) ∧ writing C s (w ++ x) st
  else ∃ d, r = Ok (inr d) ∧ cut C s d.

Lemma put_writes C s w c st : writing C s w st → writes C s w [c] (put C (zlen s) c st).
Proof.
  intros (r & -> & Hlt & Hr). unfold writes, put.
  destruct r as [|y r]; [change (zlen (@nil Z)) with 0 in Hr; lia|]. rewrite zlen_cons in Hr.
  rewrite (mem_write_seg (s ++ w) [y] [c] r) by done. cbn.
  rewrite (app_assoc s w [c]), (zlen_app (s ++ w)). change (zlen [c]) with 1.
  destruct (Z.eqb_spec (zlen (s ++ w) + 1) C) as [He|Hne].
  - rewrite (proj2 (Z.ltb_ge _ _)) by lia.
    assert (∃ x q, w ++ c :: r = x :: q) as (x & q & E) by (destruct w; cbn; eauto).
    rewrite <- app_assoc, E. rewrite (mem_write_seg s [x] [0] q) by done. cbn.
    eexists. split; [done|]. exists q. split; [done|]. apply (f_equal zlen) in E.
    rewrite zlen_app, zlen_cons. rewrite zlen_app, !zlen_cons in E. rewrite zlen_app in Hr. lia.
  - rewrite (proj2 (Z.ltb_lt _ _)) by lia. eexists. split; [done|].
    exists r. rewrite !app_assoc, (zlen_app (s ++ w)). change (zlen [c]) with 1.
    split_and!; [|lia..]. by rewrite <- (app_assoc (s ++ w) [c] r).
Qed.

Lemma seqr_writes C s w x y r f :
  writes C s w x r → (∀ st, writing C s (w ++ x) st → writes C s (w ++ x) y (f st)) →
  writes C s w (x ++ y) (seqr r f).
Proof.
  unfold writes at 1, seqr. intros Hr Hf.
  destruct (Z.ltb_spec (zlen (s ++ w ++ x)) C) as [Hlt|Hge].
  - destruct Hr as (st & -> & Hst). specialize (Hf st Hst). unfold writes in *.
    rewrite <- !app_assoc in Hf. exact Hf.
  - destruct Hr as (d & -> & Hd). unfold writes. pose proof (zlen_nonneg y).
    rewrite !zlen_app in *. rewrite (proj2 (Z.ltb_ge _ _)) by lia. by exists d.
Qed.

Lemma puts_writes C s w cs st : writing C s w st → writes C s w cs (puts C (zlen s) cs st).
Proof.
  revert w st. induction cs as [|c cs IH]; intros w st Hst.
  - unfold writes. rewrite app_nil_r. pose proof Hst as (r & _ & Hlt & _).
    rewrite (proj2 (Z.ltb_lt _ _)) by done. by exists st.
  - apply (seqr_writes C s w [c] cs (put C (zlen s) c st) (puts C (zlen s) cs)).
    + by apply put_writes.
    + apply IH.
Qed.

Lemma put_value_writes C s w v rest vlen k st :
  0 <= k → (vlen < 0 ∧ Forall (λ c, c ≠ 0) v ∧ (∃ tl, rest = 0 :: tl)) ∨ vlen = k + zlen v →
  writing C s w st → writes C s w (escape v) (put_value C (zlen s) (v ++ rest) vlen k st).
Proof.
  revert w k st. induction v as [|c v IH]; intros w k st H0 Hv Hst.
  - assert (put_value C (zlen s) ([] ++ rest) vlen k st = Ok (inl st)) as ->.
    { destruct Hv as [(Hn & _ & tl & ->)| ->].
      - cbn. rewrite andb_false_r, (proj2 (Z.ltb_ge k vlen)) by lia. done.
      - replace (k + zlen []) with k by (unfold zlen; cbn; lia).
        destruct rest; cbn; by rewrite Z.ltb_irrefl, (proj2 (Z.ltb_ge k 0)) by done. }
    exact (puts_writes C s w [] st Hst).
  - cbn [app put_value escape].
    assert (((vlen <? 0) && negb (c =? 0) || (k <? vlen)) = true) as ->.
    { destruct Hv as [(Hn & Hv & _)| ->].
      - apply list.Forall_cons in Hv as [Hc _].
        rewrite (proj2 (Z.ltb_lt vlen 0)), (proj2 (Z.eqb_neq c 0)) by done. done.
      - rewrite zlen_cons. pose proof (zlen_nonneg v). rewrite (proj2 (Z.ltb_lt k _)) by lia. apply orb_true_r. }
    apply (seqr_writes C s w (esc_char c) (escape v) (puts C (zlen s) (esc_char c) st)
      (λ st', put_value C (zlen s) (v ++ rest) vlen (k + 1) st')).
    + by apply puts_writes.
    + intros st' Hst'. apply IH; [lia| |done]. destruct Hv as [(Hn & Hv & Ht)| ->].
      * left. apply list.Forall_cons in Hv as [_ Hv]. done.
      * right. rewrite zlen_cons. lia.
Qed.

Lemma find_nul_spec s tl i : Forall (λ c, c ≠ 0) s → find_nul i (s ++ 0 :: tl) = Some (i + zlen s).
Proof.
  intros Hs. revert i. induction Hs as [|c s Hc Hs IH]; intros i; cbn.
  - by rewrite Z.add_0_r.
  - rewrite (proj2 (Z.eqb_neq c 0)), IH, zlen_cons by done. f_equal. lia.
Qed.

(** The line that [add] writes. *)
Definition new_line (s key v : bytes) : bytes :=
  (if bool_decide (s = []) then [] else [10]) ++ key ++ [61] ++ escape v.

Lemma escape_inline v : inline (escape v).
Proof.
  induction v as [|c v IH]; cbn; [constructor|]. apply Forall_app. split; [|done].
  unfold esc_char. repeat case_match; repeat constructor.
  unfold ends, is_eol. by rewrite H, H0, H1.
Qed.

Lemma inline_nonzero l : inline l → Forall (λ c, c ≠ 0) l.
Proof. intros H. eapply list.Forall_impl; [exact H|]. by intros c Hc ->. Qed.

Lemma add_spec C d s key value vlen v :
  holds C d s → key_ok key → value_arg value vlen v →
  ∃ d', add C key value vlen d = Ok (zlen s + zlen (new_line s key v) <? C, d')
    ∧ holds C d' (if zlen s + zlen (new_line s key v) <? C then s ++ new_line s key v else s).
Proof.
  intros (tl & -> & Hs & HC) Hk Hv. unfold add. rewrite find_nul_spec, Z.add_0_l by done.
  rewrite zlen_app, zlen_cons in HC. pose proof (zlen_nonneg tl).
  set (R := seqr _ _). assert (writes C s [] (new_line s key v) R) as Hw.
  { subst R. apply seqr_writes; [|intros st1 H1; apply seqr_writes; [|intros st2 H2; apply seqr_writes]].
    - assert (writing C s [] (zlen s, s ++ 0 :: tl)) as H0.
      { exists (0 :: tl). rewrite app_nil_r, zlen_cons. split_and!; [done|lia..]. }
      destruct s as [|c0 s0]; [exact (puts_writes C [] [] [] _ H0)|].
      rewrite (proj2 (Z.ltb_lt _ _)) by (rewrite zlen_cons; pose proof (zlen_nonneg s0); lia).
      by apply put_writes.
    - by apply puts_writes.
    - by apply put_writes.
    - intros st3 H3. destruct Hv as [(Hn & Hnz & tl' & ->)|[Hn (tl' & ->)]].
      + apply put_value_writes; [done|left; eauto|done].
      + apply put_value_writes; [done|right; rewrite Hn; lia|done]. }
  unfold writes in Hw. rewrite (zlen_app s), app_nil_l in Hw. clearbody R.
  destruct (Z.ltb_spec (zlen s + zlen (new_line s key v)) C).
  - destruct Hw as (st & -> & (r & -> & Hlt & Hr)). cbn [app] in *. cbn.
    destruct r as [|y r]; [change (zlen (@nil Z)) with 0 in Hr; lia|].
    change (y :: r) with ([y] ++ r). rewrite (mem_write_seg _ [y] [0] r) by done. cbn.
    eexists. split; [done|]. exists r. split_and!; [done| |].
    + apply Forall_app. split; [done|]. unfold new_line. case_bool_decide; rewrite ?Forall_app;
        repeat split; try (by repeat constructor); try by apply inline_nonzero.
      all: apply inline_nonzero, escape_inline.
    + rewrite zlen_app, zlen_cons. rewrite zlen_cons in Hr. lia.
  - destruct Hw as (d & -> & (tl' & -> & Hc)). cbn. eexists. split; [done|]. by exists tl'.
Qed.

(** ** Texts as maps *)

Lemma lines_app s e t : is_eol e = true → lines (s ++ e :: t) = lines s ++ lines t.
Proof.
  intros He. induction s as [|c s IH]; cbn; [by rewrite He|].
  rewrite IH. destruct (is_eol c); [done|]. destruct (lines s) eqn:E; [|done].
  destruct s; cbn in E; repeat case_match; done.
Qed.

Lemma lines_inline l : inline l → lines l = [l].
Proof.
  intros H. induction H as [|c l Hc H IH]; cbn; [done|]. apply orb_false_iff in Hc as [_ ->]. by rewrite IH.
Qed.

Lemma first_value_app key a b :
  first_value key (a ++ b) = match first_value key a with Some v => Some v | None => first_value key b end.
Proof. induction a as [|l a IH]; cbn; [done|]. by destruct (line_value key l). Qed.

Lemma unescape_escape v tl : unescape false (escape v ++ tl) = v ++ unescape false tl.
Proof.
  induction v as [|c v IH]; cbn; [done|]. unfold esc_char. rewrite <- app_assoc.
  destruct (Z.eqb_spec c 0) as [->|]; [cbn; by rewrite IH|].
  destruct (Z.eqb_spec c 13) as [->|]; [cbn; by rewrite IH|].
  destruct (Z.eqb_spec c 10) as [->|]; [cbn; by rewrite IH|].
  destruct (Z.eqb_spec c 92) as [->|Hne]; [cbn; by rewrite IH|].
  destruct (Z.eqb_spec c 61) as [->|]; [cbn; by rewrite IH|].
  cbn. by rewrite (proj2 (Z.eqb_neq c 92)), IH.
Qed.

Lemma is_prefix_neq k1 k2 x :
  61 ∉ k1 → 61 ∉ k2 → k1 ≠ k2 → is_prefix (k1 ++ [61]) (k2 ++ 61 :: x) = false.
Proof.
  revert k2. induction k1 as [|a k1 IH]; intros [|b k2] H1 H2 Hne; cbn [is_prefix app]; try done.
  - apply not_elem_of_cons in H2 as [H2 _]. by rewrite (proj2 (Z.eqb_neq 61 b)).
  - apply not_elem_of_cons in H1 as [H1 _]. rewrite (proj2 (Z.eqb_neq a 61)); done.
  - destruct (Z.eqb_spec a b) as [->|]; [|done]. cbn. apply not_elem_of_cons in H1 as [_ H1], H2 as [_ H2].
    apply IH; try done. congruence.
Qed.

Lemma line_value_new key v : line_value key (key ++ [61] ++ escape v) = Some v.
Proof.
  unfold line_value. rewrite is_prefix_app. cbn [is_prefix app]. rewrite Z.eqb_refl. cbn.
  replace (key ++ 61 :: escape v) with ((key ++ [61]) ++ escape v) by (by rewrite <- app_assoc).
  rewrite drop_app_length' by (rewrite length_app; cbn; lia).
  rewrite <- (app_nil_r (escape v)), unescape_escape. by rewrite app_nil_r.
Qed.

Lemma new_inline key v : key_ok key → inline (key ++ [61] ++ escape v).
Proof.
  intros Hk. apply Forall_app. split; [done|]. apply Forall_app. split; [by repeat constructor|].
  apply escape_inline.
Qed.

Lemma first_value_new key key' v :
  61 ∉ key → 61 ∉ key' →
  first_value key' [key ++ [61] ++ escape v] = if bool_decide (key' = key) then Some v else None.
Proof.
  intros H1 H2. cbn [first_value]. case_bool_decide as E.
  - subst. by rewrite line_value_new.
  - unfold line_value. cbn [app]. by rewrite is_prefix_neq.
Qed.

Lemma lookup_add key key' s v :
  key_ok key → 61 ∉ key → 61 ∉ key' →
  lookup key' (s ++ new_line s key v) =
    match lookup key' s with Some u => Some u | None => if bool_decide (key' = key) then Some v else None end.
Proof.
  intros Hk H1 H2. unfold lookup, new_line. case_bool_decide as E.
  - subst s. cbn [app]. change (key ++ 61 :: escape v) with (key ++ [61] ++ escape v).
    rewrite lines_inline, first_value_new by (done || by apply new_inline).
    unfold line_value. cbn. by destruct key'.
  - cbn [app]. rewrite lines_app by done. change (key ++ 61 :: escape v) with (key ++ [61] ++ escape v).
    rewrite (lines_inline (key ++ [61] ++ escape v)) by (by apply new_inline).
    by rewrite first_value_app, first_value_new.
Qed.

(** ** Removal *)

Lemma key_left_prefix k p : key_left k p = [] ↔ is_prefix k p = true.
Proof.
  revert p. induction k as [|a k IH]; intros [|c p]; cbn; try done.
  destruct (Z.eqb_spec a c); cbn; [apply IH|done].
Qed.

Definition kept (key : bytes) (toks : list bytes) : list bytes := filter (λ f, is_prefix key f = false) toks.
Definition joined (toks : list bytes) : bytes := concat ((λ f, f ++ [10]) <$> toks).

(** Copying one token and the newline behind it. *)
Lemma write_token pre f rest :
  (d ← mem_write (zlen pre) f (pre ++ rest); mem_write (zlen pre + zlen f) [10] d)
    = if zlen (f ++ [10]) <=? zlen rest then Ok ((pre ++ f ++ [10]) ++ drop (length (f ++ [10])) rest)
      else Undef OutOfBounds.
Proof.
  rewrite zlen_app. change (zlen [10]) with 1. pose proof (zlen_nonneg f).
  destruct (Z.leb_spec (zlen f + 1) (zlen rest)) as [Hle|Hgt].
  - destruct (bytes_split (zlen f) rest) as (r1 & r2 & -> & Hr1); [lia|]. rewrite zlen_app in Hle.
    destruct r2 as [|y r2]; [rewrite zlen_nil in Hle; lia|].
    rewrite (mem_write_seg pre r1 f (y :: r2)) by done. cbn [mbind cres_bind].
    rewrite app_assoc, (mem_write_seg (pre ++ f) [y] [10] r2) by (rewrite ?zlen_app; done).
    replace (drop (length (f ++ [10])) (r1 ++ y :: r2)) with r2; [by rewrite <- !app_assoc|].
    change (r1 ++ y :: r2) with (r1 ++ [y] ++ r2). rewrite app_assoc. symmetry. apply drop_app_length'.
    rewrite !length_app. unfold zlen in Hr1. cbn. lia.
  - destruct (Z.le_gt_cases (zlen f) (zlen rest)) as [Hle'|Hgt'].
    + destruct (bytes_split (zlen f) rest) as (r1 & r2 & -> & Hr1); [lia|]. rewrite zlen_app in Hgt.
      rewrite (mem_write_seg pre r1 f r2) by done. cbn [mbind cres_bind].
      apply mem_write_oob. rewrite !zlen_app. change (zlen [10]) with 1. lia.
    + rewrite mem_write_oob; [done|]. rewrite zlen_app. lia.
Qed.

Lemma erase_loop_keep key f toks d2 d2ptr found :
  is_prefix key f = false →
  erase_loop key (f :: toks) d2 d2ptr found =
    (d ← (d ← mem_write d2ptr f d2; mem_write (d2ptr + zlen f) [10] d);
     erase_loop key toks d (d2ptr + zlen f + 1) found).
Proof.
  intros Ep. cbn [erase_loop]. destruct (key_left key f) as [|a k'] eqn:Ek.
  - apply key_left_prefix in Ek. congruence.
  - by destruct (mem_write d2ptr f d2).
Qed.

Lemma kept_shorter key f toks : kept key toks ≠ f :: toks.
Proof.
  intros E. pose proof (length_filter (λ f, is_prefix key f = false) toks) as Hle.
  unfold kept in E. rewrite E in Hle. cbn in Hle. lia.
Qed.

Lemma dict_erase_loop_spec key toks pre rest found :
  let out := joined (kept key toks) in
  if zlen out <=? zlen rest
  then ∃ found', erase_loop key toks (pre ++ rest) (zlen pre) found
      = Ok ((pre ++ out) ++ drop (length out) rest, zlen (pre ++ out), found')
    ∧ (found' = true ↔ found = true ∨ kept key toks ≠ toks)
  else erase_loop key toks (pre ++ rest) (zlen pre) found = Undef OutOfBounds.
Proof.
  revert pre rest found. induction toks as [|f toks IH]; intros pre rest found out; subst out.
  - change (joined (kept key [])) with (@nil Z). rewrite zlen_nil.
    destruct (Z.leb_spec 0 (zlen rest)); [|pose proof (zlen_nonneg rest); lia].
    exists found. cbn. rewrite drop_0, app_nil_r. split; [done|]. split; [by left|by intros [|]].
  - destruct (is_prefix key f) eqn:Ep.
    + cbn [erase_loop]. rewrite (proj2 (key_left_prefix _ _) Ep).
      replace (kept key (f :: toks)) with (kept key toks)
        by (unfold kept; rewrite filter_cons_False; [done|congruence]).
      specialize (IH pre rest true). cbn zeta in IH.
      destruct (_ <=? _); [|done]. destruct IH as (found' & -> & Hf). exists found'. split; [done|].
      rewrite Hf. split; [right; apply kept_shorter|by left].
    + rewrite erase_loop_keep, write_token by done.
      replace (kept key (f :: toks)) with (f :: kept key toks) by (unfold kept; by rewrite filter_cons_True).
      change (joined (f :: kept key toks)) with ((f ++ [10]) ++ joined (kept key toks)).
      set (out := joined (kept key toks)) in *. set (fl := f ++ [10]). rewrite (zlen_app fl).
      pose proof (zlen_nonneg out). pose proof (zlen_nonneg fl).
      destruct (Z.leb_spec (zlen fl) (zlen rest)) as [Hle|Hgt].
      2: { rewrite (proj2 (Z.leb_gt _ _)) by lia. done. }
      cbn [mbind cres_bind]. specialize (IH (pre ++ fl) (drop (length fl) rest) found). cbn zeta in IH.
      replace (zlen pre + zlen f + 1) with (zlen (pre ++ fl)) 
        by (subst fl; rewrite !zlen_app; change (zlen [10]) with 1; lia).
      assert (zlen (drop (length fl) rest) = zlen rest - zlen fl) as E
        by (unfold zlen in *; rewrite length_drop; lia). rewrite E in IH.
      destruct (Z.leb_spec (zlen out) (zlen rest - zlen fl)).
      * rewrite (proj2 (Z.leb_le _ _)) by lia. destruct IH as (found' & -> & Hf). exists found'.
        rewrite (app_assoc pre fl out), drop_drop, (length_app fl). split; [done|].
        rewrite Hf. split; (intros [|Hn]; [by left|right]); congruence.
      * rewrite (proj2 (Z.leb_gt _ _)) by lia. exact IH.
Qed.

Lemma length_stok_mem b p : length (stok_mem b p) = length p.
Proof. revert b. induction p as [|c p IH]; intros b; cbn; [done|]. repeat case_match; cbn; by rewrite ?IH. Qed.

Lemma c_str_text s tl : Forall (λ c, c ≠ 0) s → c_str (s ++ 0 :: tl) = s.
Proof. intros Hs. induction Hs; cbn; [done|]. by rewrite (proj2 (Z.eqb_neq x 0)), IHHs. Qed.

Lemma lines_text s : Forall (λ c, c ≠ 0) s → Forall inline (lines s).
Proof.
  intros Hs. induction Hs as [|c s Hc Hs IH]; cbn; [by repeat constructor|].
  destruct (is_eol c) eqn:Ec; [by repeat constructor|].
  assert (ends c = false) as He by (unfold ends; by rewrite (proj2 (Z.eqb_neq c 0)), Ec).
  destruct IH as [|l ls Hl Hls]; [by repeat constructor|]. constructor; [by constructor|done].
Qed.

Lemma kept_inline key s : Forall (λ c, c ≠ 0) s → Forall inline (kept key (tokens s)).
Proof.
  intros Hs%lines_text. rewrite list.Forall_forall in *. intros l [_ [_ Hl]%list_elem_of_filter]%list_elem_of_filter.
  by apply Hs.
Qed.

Lemma joined_text ls : Forall inline ls → Forall (λ c, c ≠ 0) (joined ls).
Proof.
  intros H. induction H as [|l ls Hl H IH]; [constructor|]. unfold joined. cbn.
  rewrite !Forall_app. split_and!; [by apply inline_nonzero|by repeat constructor|done].
Qed.

Lemma dict_erase_spec C key d2 d s :
  holds C d s → zlen d2 = C →
  let out := joined (kept key (tokens s)) in
  if zlen out <? C
  then ∃ found d', erase key d2 d = Ok (found, d') ∧ holds C d' out
    ∧ (found = true ↔ kept key (tokens s) ≠ tokens s)
  else erase key d2 d = Undef OutOfBounds.
Proof.
  intros (tl & -> & Hs & HC) Hd2 out. unfold erase. rewrite c_str_text by done.
  pose proof (dict_erase_loop_spec key (tokens s) [] d2 false) as Hl. fold out in Hl. cbn zeta in Hl.
  rewrite zlen_nil in Hl. cbn [app] in Hl. rewrite Hd2 in Hl.
  assert (Forall (λ c, c ≠ 0) out) as Hout by (by apply joined_text, kept_inline).
  pose proof (zlen_nonneg out).
  destruct (Z.ltb_spec (zlen out) C) as [Hlt|Hge].
  - rewrite (proj2 (Z.leb_le _ _)) in Hl by lia. destruct Hl as (found & -> & Hf). cbn [mbind cres_bind].
    destruct (drop (length out) d2) as [|y r] eqn:Er.
    { apply (f_equal length) in Er. rewrite length_drop in Er. unfold zlen in *. cbn in Er. lia. }
    rewrite (mem_write_seg out [y] [0] r) by done. cbn [mbind cres_bind].
    assert (zlen (stok_mem false (s ++ 0 :: tl)) = C) as Hst by (unfold zlen in *; by rewrite length_stok_mem).
    destruct (bytes_split (zlen (out ++ [0])) (stok_mem false (s ++ 0 :: tl))) as (a & b & Eab & Ha).
    { rewrite Hst, zlen_app. change (zlen [0]) with 1. lia. }
    unfold mem_copy. rewrite app_assoc, (mem_read_head (out ++ [0]) r) by (rewrite zlen_app; done).
    cbn [mbind cres_bind]. rewrite Eab, mem_write_head by done. cbn [mbind cres_bind].
    exists found. eexists. split; [done|]. split.
    + exists b. rewrite <- app_assoc. split_and!; [done..|]. rewrite Eab, zlen_app in Hst.
      rewrite zlen_app. rewrite zlen_app in Ha. cbn [app]. rewrite zlen_cons.
      change (zlen [0]) with 1 in Ha. lia.
    + rewrite Hf. split; [by intros [|]|by right].
  - destruct (Z.leb_spec (zlen out) C).
    + destruct Hl as (found & -> & _). cbn [mbind cres_bind].
      rewrite mem_write_oob; [done|]. rewrite zlen_app. unfold zlen in *. rewrite length_drop. cbn. lia.
    + by rewrite Hl.
Qed.

(** *** Lookup after removal *)

Lemma line_value_nil key : line_value key [] = None.
Proof. unfold line_value. by destruct key. Qed.

Lemma first_value_tokens key s : first_value key (tokens s) = lookup key s.
Proof.
  unfold tokens, lookup. induction (lines s) as [|l ls IH]; [done|].
  destruct l as [|c l].
  - rewrite filter_cons_False by (by intros []). cbn. by rewrite line_value_nil.
  - rewrite filter_cons_True by done. cbn. by rewrite IH.
Qed.

Lemma lookup_joined key ls : Forall inline ls → lookup key (joined ls) = first_value key ls.
Proof.
  intros H. unfold lookup. induction H as [|l ls Hl H IH]; unfold joined; cbn.
  - by rewrite line_value_nil.
  - rewrite <- app_assoc. cbn. rewrite lines_app, first_value_app, lines_inline by done. cbn.
    destruct (line_value key l); [done|exact IH].
Qed.

Lemma prefix_trans a b l : is_prefix a b = true → is_prefix b l = true → is_prefix a l = true.
Proof.
  intros (k & ->)%is_prefix_spec (m & ->)%is_prefix_spec. apply is_prefix_spec.
  exists (k ++ m). by rewrite app_assoc.
Qed.

(** Two prefixes of a line, the longer one without '='. *)
Lemma prefix_compare key key' l :
  61 ∉ key → is_prefix key l = true → is_prefix (key' ++ [61]) l = true → is_prefix key key' = true.
Proof.
  revert key' l. induction key as [|a key IH]; intros key' [|c l] Hn; cbn; try done.
  apply not_elem_of_cons in Hn as [Ha Hn]. intros [Hac Hp]%andb_true_iff.
  destruct key' as [|b key']; cbn [app is_prefix].
  - intros [H _]%andb_true_iff. apply Z.eqb_eq in H, Hac. congruence.
  - intros [Hb Hq]%andb_true_iff. apply Z.eqb_eq in Hac, Hb. subst. rewrite Z.eqb_refl. by apply (IH key' l).
Qed.

Lemma first_value_kept key key' ls :
  61 ∉ key →
  first_value key' (kept key ls) = if is_prefix key key' then None else first_value key' ls.
Proof.
  intros Hn. induction ls as [|l ls IH]; [by destruct (is_prefix key key')|]. cbn [first_value].
  unfold kept. destruct (is_prefix key l) eqn:Ep.
  - rewrite filter_cons_False by congruence. fold (kept key ls). rewrite IH.
    destruct (is_prefix key key') eqn:Ek; [done|]. unfold line_value.
    destruct (is_prefix (key' ++ [61]) l) eqn:Eq; [|done]. rewrite (prefix_compare key key' l) in Ek; done.
  - rewrite filter_cons_True by done. fold (kept key ls). cbn [first_value]. rewrite IH.
    destruct (is_prefix key key') eqn:Ek; [|done]. unfold line_value.
    destruct (is_prefix (key' ++ [61]) l) eqn:Eq; [|done].
    rewrite (prefix_trans key (key' ++ [61]) l) in Ep; [done| |done].
    apply is_prefix_spec in Ek as (k & ->). apply is_prefix_spec. exists (k ++ [61]). by rewrite app_assoc.
Qed.

(** ** Properties *)

Lemma get_spec C d s key dest destlen :
  holds C d s → key_ok key → 0 < destlen <= zlen dest → destlen < 2 ^ 31 →
  get key dest destlen d = Ok (get_result (lookup key s) dest destlen).
Proof.
  intros (tl & -> & Hs & _) Hk Hd Hm. unfold get. rewrite (proj2 (Z.eqb_neq destlen 0)) by lia.
  apply get_loop_spec; try done. rewrite length_app. cbn. lia.
Qed.

(** [get] is the lookup in the text: for every dictionary, key and destination
    it returns the unescaped value of the first line that starts with key=, cut to
    the destination with its length, or -1 and the empty string when there is no
    such line; it reads nothing behind the array and always terminates [dest]. *)
Theorem dictionary_get C d s key dest destlen :
  holds C d s → key_ok key → 0 < destlen <= zlen dest → destlen < 2 ^ 31 →
  get key dest destlen d = Ok (get_result (lookup key s) dest destlen).
Proof. apply get_spec. Qed.

(** "ab=1", a line without a key, and "a=" with an escaped newline, read into three
    bytes. *)
Lemma dictionary_get_witness :
  let s := [97; 98; 61; 49; 10; 13; 97; 61; 120; 92; 110; 121] in
  get [97] (memset 3 7) 3 (s ++ [0; 10; 97]) = Ok (2, [120; 10; 0]).
Proof.
  intros s. rewrite (dictionary_get 15 (s ++ [0; 10; 97]) s [97] (memset 3 7) 3).
  - reflexivity.
  - exists [10; 97]. split_and!; [done|by repeat constructor|done].
  - by repeat constructor.
  - by split.
  - done.
Defined.

(** C22: Adding an absent key either does not fit, and then every lookup is as
    before, or returns true, and then [get] gives back exactly the bytes that were
    added, NULs, newlines and separators included, while every other key reads as
    before. *)
Theorem dictionary_roundtrip C d s key value vlen v :
  holds C d s → key_ok key → 61 ∉ key → value_arg value vlen v → lookup key s = None →
  ∃ ok d', add C key value vlen d = Ok (ok, d')
    ∧ (ok = true ↔ zlen s + zlen (new_line s key v) < C)
    ∧ (ok = true → ∀ dest, zlen v < zlen dest < 2 ^ 31 →
        get key dest (zlen dest) d' = Ok (zlen v, v ++ 0 :: drop (S (length v)) dest))
    ∧ (∀ key' dest destlen, key_ok key' → 61 ∉ key' → 0 < destlen <= zlen dest → destlen < 2 ^ 31 →
        ok = false ∨ key' ≠ key → get key' dest destlen d' = get key' dest destlen d).
Proof.
  intros Hd Hk Heq Hv Hl. destruct (add_spec C d s key value vlen v Hd Hk Hv) as (d' & E & Hd').
  set (ok := zlen s + zlen (new_line s key v) <? C) in *.
  exists ok, d'. split_and!; [done|apply Z.ltb_lt| |].
  - intros Hok dest Hdest. rewrite Hok in Hd'. pose proof (zlen_nonneg v).
    rewrite (get_spec _ _ _ _ _ _ Hd' Hk), lookup_add, Hl, bool_decide_true by (done || lia).
    unfold get_result. rewrite take_ge by (unfold zlen in *; lia). done.
  - intros key' dest destlen Hk' Hq' Hdest Hm Hor.
    rewrite (get_spec _ _ _ _ _ _ Hd' Hk'), (get_spec _ _ _ _ _ _ Hd Hk') by done. do 2 f_equal.
    destruct ok; [|done]. destruct Hor as [|Hne]; [done|].
    rewrite lookup_add, bool_decide_false by done. by destruct (lookup key' s).
Qed.

Lemma dictionary_roundtrip_witness :
  ∃ d', add 12 [97] [0; 10; 61] 3 (0 :: memset 11 170) = Ok (true, d')
    ∧ get [97] (memset 4 0) 4 d' = Ok (3, [0; 10; 61; 0]).
Proof.
  destruct (dictionary_roundtrip 12 (0 :: memset 11 170) [] [97] [0; 10; 61] 3 [0; 10; 61])
    as (ok & d' & E & Hok & Hg & _).
  - exists (memset 11 170). by split_and!.
  - by repeat constructor.
  - by intros ?%list_elem_of_singleton.
  - right. split; [done|]. by exists [].
  - done.
  - assert (ok = true) as -> by (by apply Hok). exists d'. split; [done|]. by apply (Hg eq_refl (memset 4 0)).
Defined.

Lemma buffer_roundtrip C d s key BC1 value x BC dest :
  holds C d s → key_ok key → 61 ∉ key → lookup key s = None →
  Buffer.repr BC1 value x → BC1 < 2 ^ 31 → zlen (Buffer._b dest) = BC → zlen x < BC < 2 ^ 31 →
  ∃ ok d', add_buffer C key value d = Ok (ok, d')
    ∧ (ok = true → ∃ dest', get_buffer key BC dest d' = Ok (true, dest') ∧ Buffer.repr BC dest' x).
Proof.
  intros Hd Hk Heq Hl Hr HB1 HB Hx. destruct (Buffer.repr_bounds _ _ _ Hr) as (Hlen & Hb & _).
  destruct Hr as (r & Hm & _). unfold add_buffer. rewrite Hm, Hlen, swrap_small by lia.
  destruct (add_spec C d s key (x ++ r) (zlen x) x Hd Hk) as (d' & E & Hd'); [right; eauto|].
  eexists _, d'. split; [exact E|]. intros Hok. rewrite Hok in Hd'. unfold get_buffer.
  rewrite (get_spec _ _ _ _ _ _ Hd' Hk), lookup_add, Hl, bool_decide_true by (done || lia). unfold get_result.
  rewrite take_ge by (unfold zlen in *; lia). cbn [mbind cres_bind].
  rewrite (proj2 (Z.leb_le 0 _)) by lia. unfold Buffer.setSize. rewrite (proj2 (Z.ltb_ge _ _)) by lia.
  eexists. split; [done|]. eexists. cbn. split_and!; [done..|]. rewrite zlen_cons. unfold zlen in *.
  rewrite length_drop. lia.
Qed.

(** Typed values survive a dictionary: when [add] of an unsigned 64-bit integer,
    of a boolean or of a buffer to an absent key returns true, [getUI] and [getB],
    whatever the default, and [get] into any buffer with room for it give it
    back. *)
Theorem dictionary_typed C d s key n b dfl dflb :
  holds C d s → key_ok key → 61 ∉ key → lookup key s = None → 0 <= n < 2 ^ 64 →
  (∃ ok d', add_uint C key n d = Ok (ok, d') ∧ (ok = true → getUI key dfl d' = Ok n))
  ∧ (∃ ok d', add_bool C key b d = Ok (ok, d') ∧ (ok = true → getB key dflb d' = Ok b))
  ∧ (∀ BC1 value x BC dest, Buffer.repr BC1 value x → BC1 < 2 ^ 31 →
      zlen (Buffer._b dest) = BC → zlen x < BC < 2 ^ 31 →
      ∃ ok d', add_buffer C key value d = Ok (ok, d')
        ∧ (ok = true → ∃ dest', get_buffer key BC dest d' = Ok (true, dest') ∧ Buffer.repr BC dest' x)).
Proof.
  intros Hd Hk Heq Hl Hn. destruct (print_x_spec 1 n) as (Hdig & Hval & Hlen & Hlen1); [lia|done|].
  assert (Forall (λ c, c ≠ 0) (print_x 1 n)) as Hnz.
  { eapply list.Forall_impl; [exact Hdig|]. intros c (x & Hx & ->). by apply digit_start. }
  split_and!; [| |intros; by eapply buffer_roundtrip].
  - destruct (add_spec C d s key (print_x 1 n ++ [0]) (-1) (print_x 1 n) Hd Hk) as (d' & E & Hd').
    { left. split_and!; [lia|done|by exists []]. }
    eexists _, d'. split; [exact E|]. intros Hok. rewrite Hok in Hd'. unfold getUI.
    rewrite (get_spec _ _ _ _ _ _ Hd' Hk), lookup_add, Hl, bool_decide_true by done. unfold get_result.
    rewrite take_ge by lia. cbn [mbind cres_bind].
    rewrite (proj2 (Z.leb_le _ _)) by (unfold zlen; lia). by rewrite c_str_text, Hval.
  - destruct (add_spec C d s key [if b then 49 else 48; 0] 1 [if b then 49 else 48] Hd Hk) as (d' & E & Hd').
    { right. split; [done|]. by exists [0]. }
    eexists _, d'. split; [exact E|]. intros Hok. rewrite Hok in Hd'. unfold getB.
    rewrite (get_spec _ _ _ _ _ _ Hd' Hk), lookup_add, Hl, bool_decide_true by done. by destruct b.
Qed.

Lemma dictionary_typed_witness :
  ∃ d', add_uint 32 [110] 3735928559 (0 :: memset 31 1) = Ok (true, d') ∧ getUI [110] 0 d' = Ok 3735928559.
Proof.
  destruct (dictionary_typed 32 (0 :: memset 31 1) [] [110] 3735928559 true 0 false) as [(ok & d' & E & H) _].
  - exists (memset 31 1). by split_and!.
  - by repeat constructor.
  - by intros ?%list_elem_of_singleton.
  - done.
  - lia.
  - exists d'. assert (ok = true) as -> by (vm_compute in E; congruence). split; [exact E|by apply H].
Defined.

(** [erase] rewrites the text without the lines that start with the key and
    reports whether there were any.  It removes too much: every key the erased one
    is a prefix of is gone as well; the others read as before.  When the rewritten
    text with a newline behind each line does not fit, as with a full dictionary of
    one line, it writes past its local array. *)
Theorem dictionary_erase C d s key d2 :
  holds C d s → key_ok key → 61 ∉ key → zlen d2 = C →
  let out := joined (kept key (tokens s)) in
  (zlen out < C →
    ∃ found d', erase key d2 d = Ok (found, d') ∧ (found = true ↔ kept key (tokens s) ≠ tokens s)
      ∧ ∀ key' dest destlen, key_ok key' → 0 < destlen <= zlen dest → destlen < 2 ^ 31 →
        get key' dest destlen d' =
          if is_prefix key key' then Ok (get_result None dest destlen) else get key' dest destlen d)
  ∧ (C <= zlen out → erase key d2 d = Undef OutOfBounds)
  ∧ (zlen s = C - 1 → s ≠ [] → Forall (λ c, is_eol c = false) s → is_prefix key s = false →
      erase key d2 d = Undef OutOfBounds).
Proof.
  intros Hd Hk Heq Hd2 out. pose proof (dict_erase_spec C key d2 d s Hd Hd2) as He. fold out in He. cbn zeta in He.
  pose proof Hd as (_ & _ & Hs & _).
  assert (C <= zlen out → erase key d2 d = Undef OutOfBounds) as Hover.
  { intros Hge. by rewrite (proj2 (Z.ltb_ge _ _)) in He by lia. }
  split_and!; [|done|].
  - intros Hlt. rewrite (proj2 (Z.ltb_lt _ _)) in He by lia. destruct He as (found & d' & E & Hd' & Hf).
    exists found, d'. split_and!; [done..|]. intros key' dest destlen Hk' Hdest Hm.
    rewrite (get_spec _ _ _ _ _ _ Hd' Hk'), (get_spec _ _ _ _ _ _ Hd Hk') by done.
    subst out. rewrite lookup_joined, first_value_kept, first_value_tokens by (done || by apply kept_inline).
    by destruct (is_prefix key key').
  - intros Hz Hne Hl Hp. apply Hover. subst out. unfold tokens, kept.
    rewrite lines_inline by (by apply inline_line). rewrite filter_cons_True by done.
    rewrite filter_nil. rewrite filter_cons_True, filter_nil by done. unfold joined. cbn.
    rewrite app_nil_r, zlen_app. change (zlen [10]) with 1. lia.
Qed.

(** Erasing "a" from "ab=1" removes the entry of "ab". *)
Lemma dictionary_erase_witness :
  erase [97] (memset 8 0) [97; 98; 61; 49; 0; 0; 0; 0] = Ok (true, [0; 98; 61; 49; 0; 0; 0; 0])
  ∧ erase [98] (memset 5 0) [97; 98; 61; 49; 0] = Undef OutOfBounds.
Proof.
  split; [reflexivity|]. destruct (dictionary_erase 5 [97; 98; 61; 49; 0] [97; 98; 61; 49] [98] (memset 5 0))
    as (_ & _ & H).
  - exists []. split_and!; [done|by repeat constructor|done].
  - by repeat constructor.
  - by intros ?%list_elem_of_singleton.
  - done.
  - apply H; [done|done|by repeat constructor|done].
Defined.
