(* ===== verification/Wire.v ===== *)
(** * Objects in buffers (zto/node: Address.hpp, MAC.hpp, InetAddress.hpp)

    The node serializes its objects with the methods of [Buffer].  A serializer is
    a sequence of methods; [emits] says which bytes one writes.  A reader looks at a
    buffer it does not change and may also throw [std::invalid_argument]; [reads]
    says what one returns on which bytes, and [safe] that it is defined on every
    buffer. *)

From S2P Require Import Prelude Buffer Addr.
From Stdlib Require Import ZArith Lia.
From stdpp Require Import base numbers list option.

Open Scope Z_scope.

(** ** Serializers *)

#[export] Instance meth_ret : MRet meth := λ _ a, done_ a.
#[export] Instance meth_bind : MBind meth := λ _ _ f m b,
  match m b with
  | Ok (Ret a, b') => f a b'
  | Ok (OutOfRange, b') => Ok (OutOfRange, b')
  | Undef u => Undef u
  end.

(** [appendField(n)] and writing the [n] bytes through the pointer. *)
Definition append_through (C : Z) (x : bytes) : meth unit := λ b,
  match appendField C (zlen x) b with
  | Ok (Ret off, b') => m ← mem_write off x (_b b'); done_ tt (Buf (_l b') m)
  | Ok (OutOfRange, b') => Ok (OutOfRange, b')
  | Undef u => Undef u
  end.

Module AddressWire.
Definition appendTo (C a : Z) : meth unit := append_through C (Address.octets a).
End AddressWire.

Module MACWire.
Definition appendTo (C m : Z) : meth unit := append_through C (MAC.octets m).
End MACWire.

(** ** Readers *)

Inductive thrown (A : Type) := Got (a : A) | ThrowRange | ThrowInvalid.
Arguments Got {A} a.
Arguments ThrowRange {A}.
Arguments ThrowInvalid {A}.

Definition rd (A : Type) := Buffer.t → cres (thrown A).

#[export] Instance rd_ret : MRet rd := λ _ a _, Ok (Got a).
#[export] Instance rd_bind : MBind rd := λ _ _ f m b,
  match m b with
  | Ok (Got a) => f a b
  | Ok ThrowRange => Ok ThrowRange
  | Ok ThrowInvalid => Ok ThrowInvalid
  | Undef u => Undef u
  end.

Definition invalid {A} : rd A := λ _, Ok ThrowInvalid.

(** A const method, and a copy of the field it checked. *)
Definition rd_meth {A} (m : meth A) : rd A := λ b,
  match m b with
  | Ok (Ret a, _) => Ok (Got a)
  | Ok (OutOfRange, _) => Ok ThrowRange
  | Undef u => Undef u
  end.

Definition rd_field (p n : Z) : rd bytes := λ b,
  match field p n b with
  | Ok (Ret off, _) => d ← mem_read off n (_b b); Ok (Got d)
  | Ok (OutOfRange, _) => Ok ThrowRange
  | Undef u => Undef u
  end.

(** ** IP addresses *)

Module InetWire.
Import InetAddress.

Definition serialize (C : Z) (x : bytes) : meth unit :=
  if isV4 x then
    _ ← append_int C 1 0x04; _ ← append C (fld 4 4 x) 4; append_int C 2 (wrap 16 (port x))
  else if isV6 x then
    _ ← append_int C 1 0x06; _ ← append C (s6_addr x) 16; append_int C 2 (wrap 16 (port x))
  else append_int C 1 0.

(** The object and the number of bytes read. *)
Definition deserialize (startAt : Z) : rd (bytes * Z) :=
  let p := startAt in
  t ← rd_meth (index p);
  let p := u32 (p + 1) in
  if t =? 0 then mret (zero, 1)
  else if t =? 0x01 then mret (zero, 7)
  else if t =? 0x02 then mret (zero, 7)
  else if t =? 0x03 then n ← rd_meth (at_ 2 p); mret (zero, u32 (n + 3))
  else if t =? 0x04 then
    let a := set_fld 0 (le_bytes 2 AF_INET) zero in
    ip ← rd_field p 4;
    let a := set_fld 4 ip a in
    let p := u32 (p + 4) in
    n ← rd_meth (at_ 2 p);
    let a := set_fld 2 (le_bytes 2 (hton 2 n)) a in
    let p := u32 (p + 2) in
    mret (a, u32 (p - startAt))
  else if t =? 0x06 then
    let a := set_fld 0 (le_bytes 2 AF_INET6) zero in
    ip ← rd_field p 16;
    let a := set_fld 8 ip a in
    let p := u32 (p + 16) in
    n ← rd_meth (at_ 2 p);
    let a := set_fld 2 (le_bytes 2 (hton 2 n)) a in
    let p := u32 (p + 2) in
    mret (a, u32 (p - startAt))
  else invalid.

End InetWire.

(** ** What a serializer writes *)

Section emits.
Context (C : Z) (HC : uint C).

(** [m] appends [x], or throws when it does not fit, having written a part of it. *)
Definition emits (m : meth unit) (x : bytes) : Prop :=
  ∀ b d, repr C b d →
  if zlen d + zlen x <=? C then ∃ b', m b = Ok (Ret tt, b') ∧ repr C b' (d ++ x)
  else ∃ b' y z, m b = Ok (OutOfRange, b') ∧ repr C b' (d ++ y) ∧ x = y ++ z.

Lemma emits_exec m x :
  (∀ b d, repr C b d → ∃ r b' d', unit_reply m b = Ok (r, b') ∧ repr C b' d'
     ∧ guarded (zlen d + zlen x <=? C) d r d' (r = RUnit ∧ d' = d ++ x)) →
  emits m x.
Proof.
  intros Hm b d Hr. destruct (Hm b d Hr) as (r & b' & d' & E & Hr' & Hg).
  unfold unit_reply in E. destruct (m b) as [[o b1]|u]; [|done]. cbn in E. injection E as <- <-.
  unfold guarded in Hg. destruct (_ <=? C).
  - destruct Hg as [Ho ->]. destruct o as [[]|]; [|done]. by exists b1.
  - destruct Hg as [Ho ->]. destruct o as [[]|]; [done|]. exists b1, [], x. by rewrite app_nil_r.
Qed.

Lemma append_int_emits n v : (n <= 8)%nat → emits (append_int C n v) (be_bytes n v).
Proof.
  intros Hn. apply emits_exec. intros b d Hr. unfold zlen at 2. rewrite length_be_bytes.
  exact (append_int_refines C HC b d n v Hr Hn).
Qed.

Lemma append_emits x n : n = zlen x → uint (C + zlen x) → emits (append C x n) x.
Proof. intros -> Hx. apply emits_exec. intros b d Hr. exact (append_refines C b d x Hr Hx). Qed.

Lemma append_through_emits x : uint (C + zlen x) → emits (append_through C x) x.
Proof.
  intros [_ Hx] b d Hr. destruct (repr_bounds C b d Hr) as (Hl & Hd & _).
  pose proof (zlen_nonneg x). unfold append_through, appendField.
  rewrite u32_small, Hl, Z.ltb_antisym by (done || unfold uint; lia).
  destruct (Z.leb_spec (zlen d + zlen x) C) as [Hle|Hgt]; cbn.
  - destruct (grow C b d x Hr) as (m & E & Hm); [lia|]. rewrite Hl in E. rewrite E. cbn. by eexists.
  - exists b, [], x. by rewrite app_nil_r.
Qed.

Lemma emits_bind m1 m2 x y : emits m1 x → emits m2 y → emits (_ ← m1; m2) (x ++ y).
Proof.
  intros H1 H2 b d Hr. specialize (H1 b d Hr). unfold mbind, meth_bind. rewrite zlen_app.
  pose proof (zlen_nonneg x). pose proof (zlen_nonneg y).
  destruct (Z.leb_spec (zlen d + zlen x) C).
  - destruct H1 as (b1 & -> & Hr1). specialize (H2 b1 _ Hr1). rewrite zlen_app in H2.
    replace (zlen d + (zlen x + zlen y)) with (zlen d + zlen x + zlen y) by lia.
    destruct (_ <=? C).
    + destruct H2 as (b2 & -> & Hr2). exists b2. by rewrite app_assoc.
    + destruct H2 as (b2 & y1 & y2 & -> & Hr2 & ->). exists b2, (x ++ y1), y2.
      by rewrite <- app_assoc, app_assoc.
  - rewrite (proj2 (Z.leb_gt _ _)) by lia. destruct H1 as (b1 & x1 & x2 & -> & Hr1 & ->).
    exists b1, x1, (x2 ++ y). by rewrite app_assoc.
Qed.

Lemma emits_nil : emits (mret tt) [].
Proof.
  intros b d Hr. destruct (repr_bounds C b d Hr) as (_ & Hd & _). rewrite zlen_nil, Z.add_0_r.
  rewrite (proj2 (Z.leb_le _ _)) by lia. exists b. by rewrite app_nil_r.
Qed.

(** ** What a reader returns *)

Lemma rd_index_at b p v q : repr C b (p ++ v :: q) → rd_meth (index (zlen p)) b = Ok (Got v).
Proof.
  intros Hr. destruct (repr_bounds C _ _ Hr) as (Hl & Hd & _).
  rewrite zlen_app, zlen_cons in Hl. pose proof (zlen_nonneg p). pose proof (zlen_nonneg q).
  unfold rd_meth, index. rewrite (proj2 (Z.leb_gt _ _)) by lia.
  change 1 with (zlen [v]). rewrite (inside C b p [v] q Hr). cbn. do 2 f_equal. unfold be_val. cbn. lia.
Qed.

Lemma rd_at b p n v q :
  repr C b (p ++ be_bytes n v ++ q) → (n <= 8)%nat → rd_meth (at_ n (zlen p)) b = Ok (Got (v mod 256 ^ Z.of_nat n)).
Proof.
  intros Hr Hn. destruct (repr_bounds C _ _ Hr) as (Hl & Hd & _). destruct HC.
  assert (zlen (be_bytes n v) = Z.of_nat n) as Hz by (unfold zlen; by rewrite length_be_bytes).
  rewrite !zlen_app, Hz in *. pose proof (zlen_nonneg p). pose proof (zlen_nonneg q).
  unfold rd_meth, at_. rewrite u64_small, (proj2 (Z.ltb_ge _ _)) by (done || lia).
  rewrite <- Hz, (inside C b p _ q Hr). cbn. by rewrite be_val_bytes, Hz.
Qed.

Lemma rd_field_at b p x q n :
  repr C b (p ++ x ++ q) → n = zlen x → rd_field (zlen p) n b = Ok (Got x).
Proof.
  intros Hr ->. destruct (repr_bounds C _ _ Hr) as (Hl & Hd & _). destruct HC.
  rewrite !zlen_app in *. pose proof (zlen_nonneg p). pose proof (zlen_nonneg q). pose proof (zlen_nonneg x).
  unfold rd_field, field. rewrite u32_small, (proj2 (Z.ltb_ge _ _)) by (done || unfold uint; lia). cbn.
  rewrite (inside C b p x q Hr). done.
Qed.

(** ** Readers on arbitrary buffers *)

(** [m] is defined on every buffer of [L] bytes, and [Q] holds of what it returns. *)
Definition safe {A} (L : Z) (m : rd A) (Q : A → Prop) : Prop :=
  ∀ b d, repr C b d → zlen d = L → ∃ o, m b = Ok o ∧ ∀ a, o = Got a → Q a.

Lemma safe_ret {A} L (a : A) (Q : A → Prop) : Q a → safe L (mret a) Q.
Proof. intros HQ b d _ _. exists (Got a). split; [done|]. by intros ? [= <-]. Qed.

Lemma safe_invalid {A} L (Q : A → Prop) : safe L invalid Q.
Proof. intros b d _ _. by exists ThrowInvalid. Qed.

Lemma safe_bind {A B} L (m : rd A) (f : A → rd B) P Q :
  safe L m P → (∀ a, P a → safe L (f a) Q) → safe L (m ≫= f) Q.
Proof.
  intros Hm Hf b d Hr HL. destruct (Hm b d Hr HL) as (o & E & HP). unfold mbind, rd_bind. rewrite E.
  destruct o as [a| |]; [by apply (Hf a (HP a eq_refl) b d)|by eexists..].
Qed.

Lemma safe_index L i : uint i → safe L (rd_meth (index i)) (λ v, i < L <= C).
Proof.
  intros Hi b d Hr <-. destruct (repr_bounds C _ _ Hr) as (Hl & Hd & _).
  destruct (index_refines C b d i Hr Hi) as (r & b' & d' & E & _ & Hs).
  unfold exec, val_reply in E. unfold rd_meth. destruct (index i b) as [[o b1]|u]; [|done].
  cbn in E, Hs. injection E as <- <-. destruct o as [v|]; eexists; (split; [reflexivity|]); [|done].
  unfold guarded in Hs. destruct (Z.ltb_spec i (zlen d)); [|naive_solver]. intros. lia.
Qed.

Lemma safe_at L n i : uint i → (n <= 8)%nat → safe L (rd_meth (at_ n i)) (λ v, i + Z.of_nat n <= L <= C).
Proof.
  intros Hi Hn b d Hr <-. destruct (repr_bounds C _ _ Hr) as (Hl & Hd & _).
  destruct (at_refines C b d n i Hr (conj Hi Hn)) as (r & b' & d' & E & _ & Hs).
  unfold exec, val_reply in E. unfold rd_meth. destruct (at_ n i b) as [[o b1]|u]; [|done].
  cbn in E, Hs. injection E as <- <-. destruct o as [v|]; eexists; (split; [reflexivity|]); [|done].
  unfold guarded in Hs. destruct (Z.leb_spec (i + Z.of_nat n) (zlen d)); [|naive_solver]. intros. lia.
Qed.

Lemma safe_field L i n :
  uint i → uint n → uint (i + n) → safe L (rd_field i n) (λ x, zlen x = n ∧ i + n <= L <= C).
Proof.
  intros [Hi _] [Hn _] Hin b d Hr <-. destruct (repr_bounds C _ _ Hr) as (Hl & Hd & Hb).
  unfold rd_field, field. rewrite Hl, u32_small, Z.ltb_antisym by done.
  destruct (Z.leb_spec (i + n) (zlen d)); cbn; [|by eexists].
  rewrite mem_read_ok by lia. eexists. split; [done|]. intros ? [= <-].
  rewrite zlen_take by (rewrite zlen_drop; lia). lia.
Qed.

End emits.

(** ** Addresses on the wire *)

Lemma address_octets_bytes a : Address.octets a = be_bytes 5 a.
Proof.
  unfold Address.octets. rewrite !land_ff, !shiftr_div by lia.
  unfold be_bytes. simpl. rewrite !Z.div_div by lia. done.
Qed.

Lemma address_setTo_val x : bytes_ok x → zlen x = 5 → Address.setTo x 5 = Ok (be_val x).
Proof.
  intros Hx Hl. unfold Address.setTo. change (5 <? Address.ZT_ADDRESS_LENGTH) with false. cbv iota.
  destruct x as [|b0 [|b1 [|b2 [|b3 [|b4 [|]]]]]]; try (unfold zlen in Hl; cbn in Hl; lia).
  change (mem_read 0 5 [b0; b1; b2; b3; b4]) with (Ok [b0; b1; b2; b3; b4]). unfold mbind, cres_bind. f_equal.
  unfold bytes_ok in Hx. decompose_Forall_hyps. unfold byte_ok in *.
  rewrite (lor_field b0 b1 24), (lor_field _ b2 16), (lor_field _ b3 8) by lia.
  rewrite (lor_shiftl_add _ b4 8) by lia. unfold be_val. simpl. lia.
Qed.

(** A ZeroTier address survives being written and read back. *)
Lemma address_wire a : 0 <= a < 2 ^ 40 → Address.setTo (be_bytes 5 a) 5 = Ok a.
Proof.
  intros Ha. rewrite address_setTo_val; [|apply be_bytes_ok|unfold zlen; by rewrite length_be_bytes].
  rewrite be_val_bytes. by rewrite Z.mod_small.
Qed.

Lemma address_setTo_defined x : zlen x = 5 → ∃ a, Address.setTo x 5 = Ok a.
Proof.
  intros Hl. destruct x as [|b0 [|b1 [|b2 [|b3 [|b4 [|]]]]]]; try (unfold zlen in Hl; cbn in Hl; lia). by eexists.
Qed.

(** ** IP addresses on the wire *)

Import InetAddress.

(** The bytes [serialize] writes, and the object [deserialize] makes of them. *)
Definition inet_wire (x : bytes) : bytes :=
  if isV4 x then [4] ++ fld 4 4 x ++ be_bytes 2 (port x)
  else if isV6 x then [6] ++ s6_addr x ++ be_bytes 2 (port x)
  else [0].

Definition inet_norm (x : bytes) : bytes :=
  if isV4 x then set_fld 2 (be_bytes 2 (port x)) (set_fld 4 (fld 4 4 x) (set_fld 0 (le_bytes 2 AF_INET) zero))
  else if isV6 x then
    set_fld 2 (be_bytes 2 (port x)) (set_fld 8 (s6_addr x) (set_fld 0 (le_bytes 2 AF_INET6) zero))
  else zero.

Lemma fld_set_above off d a off' n :
  (off + length d ≤ off')%nat → (off + length d ≤ length a)%nat →
  fld off' n (set_fld off d a) = fld off' n a.
Proof.
  intros H Hl. unfold fld, set_fld. f_equal.
  rewrite drop_app_ge by (rewrite length_take; lia). rewrite length_take, Nat.min_l by lia.
  rewrite drop_app_ge by lia. rewrite drop_drop. f_equal. lia.
Qed.

Lemma port_range x : inet_ok x → 0 <= port x < 2 ^ 16.
Proof.
  intros [Hl Hx]. unfold port, sin_port.
  assert (0 <= ntoh 2 (le_val (fld 2 2 x)) < 2 ^ 16) as Hp.
  { rewrite ntoh_le_val; [|by apply fld_ok|rewrite length_fld; [done|rewrite Hl; unfold SIZE; lia]].
    pose proof (be_val_bound (fld 2 2 x) (fld_ok _ _ _ Hx)) as Hb. unfold zlen in Hb.
    rewrite length_fld in Hb by (rewrite Hl; unfold SIZE; lia). exact Hb. }
  destruct (isV4 x); [done|]. destruct (isV6 x); [done|lia].
Qed.

Lemma inet_fields x :
  inet_ok x → length (fld 4 4 x) = 4%nat ∧ length (s6_addr x) = 16%nat.
Proof. intros [Hl _]. unfold s6_addr. rewrite !length_fld by (rewrite Hl; unfold SIZE; lia). done. Qed.

Lemma serialize_emits C x :
  uint C → uint (C + 16) → inet_ok x → emits C (InetWire.serialize C x) (inet_wire x).
Proof.
  intros HC HC16 Hx. destruct (inet_fields x Hx) as [H4 H16]. pose proof (port_range x Hx) as Hp.
  unfold InetWire.serialize, inet_wire, wrap. rewrite (Z.mod_small (port x)) by lia. unfold uint in *.
  destruct (isV4 x); [|destruct (isV6 x)].
  - apply (emits_bind C _ _ [4]); [by apply append_int_emits; [|lia]|].
    apply emits_bind; [|by apply append_int_emits; [|lia]].
    apply append_emits; [unfold zlen; by rewrite H4|unfold zlen; rewrite H4; unfold uint; lia].
  - apply (emits_bind C _ _ [6]); [by apply append_int_emits; [|lia]|].
    apply emits_bind; [|by apply append_int_emits; [|lia]].
    apply append_emits; [unfold zlen; by rewrite H16|unfold zlen; rewrite H16; unfold uint; lia].
  - by apply append_int_emits; [|lia].
Qed.

Lemma rd_bind_got {A B} (m : rd A) (f : A → rd B) b a : m b = Ok (Got a) → (m ≫= f) b = f a b.
Proof. intros E. unfold mbind, rd_bind. by rewrite E. Qed.

(** An address of [n] bytes and a port behind the type byte. *)
Lemma rd_addr_port C b pre t ip pt post {B} (f : bytes → Z → rd B) p1 p2 n :
  uint C → repr C b (pre ++ (t :: ip ++ be_bytes 2 pt) ++ post) → 0 <= pt < 2 ^ 16 →
  p1 = zlen pre + 1 → n = zlen ip → p2 = p1 + n →
  (ip ← rd_field p1 n; n ← rd_meth (at_ 2 p2); f ip n) b = f ip pt b.
Proof.
  intros HC Hr Hpt -> -> ->.
  assert (repr C b ((pre ++ [t]) ++ ip ++ be_bytes 2 pt ++ post)) as H1.
  { rewrite <- !app_assoc. cbn in *. by rewrite <- app_assoc in Hr. }
  assert (repr C b (((pre ++ [t]) ++ ip) ++ be_bytes 2 pt ++ post)) as H2 by (by rewrite <- app_assoc).
  pose proof (rd_field_at C HC b _ _ _ (zlen ip) H1 eq_refl) as E1. rewrite zlen_app in E1.
  pose proof (rd_at C HC b _ 2 pt post H2 ltac:(lia)) as E2. rewrite !zlen_app in E2.
  change (zlen [t]) with 1 in *. rewrite Z.mod_small in E2 by lia.
  rewrite (rd_bind_got _ _ _ _ E1). apply (rd_bind_got _ _ _ _ E2).
Qed.

Lemma zlen_inet_wire x :
  inet_ok x → zlen (inet_wire x) = if isV4 x then 7 else if isV6 x then 19 else 1.
Proof.
  intros Hx. destruct (inet_fields x Hx) as [H4 H16]. unfold inet_wire, zlen.
  destruct (isV4 x); [|destruct (isV6 x); [|done]]; by rewrite !length_app, length_be_bytes, ?H4, ?H16.
Qed.

Lemma deserialize_wire C b x pre post :
  uint C → inet_ok x → repr C b (pre ++ inet_wire x ++ post) →
  InetWire.deserialize (zlen pre) b = Ok (Got (inet_norm x, zlen (inet_wire x))).
Proof.
  intros HC Hx Hr. destruct (inet_fields x Hx) as [H4 H16]. pose proof (port_range x Hx) as Hp.
  assert (∃ t w, inet_wire x = t :: w) as (t & w & Ew).
  { unfold inet_wire. repeat case_match; eauto. }
  assert (rd_meth (index (zlen pre)) b = Ok (Got t)) as Et.
  { rewrite Ew in Hr. by apply (rd_index_at C b pre t (w ++ post)). }
  destruct (repr_bounds C _ _ Hr) as (_ & Hd & _). rewrite !zlen_app in Hd. pose proof HC as [? HC'].
  pose proof (zlen_nonneg pre). pose proof (zlen_nonneg post).
  unfold InetWire.deserialize. rewrite (rd_bind_got _ _ _ _ Et). unfold inet_norm.
  rewrite zlen_inet_wire in * by done.
  revert Ew Hr Hd. unfold inet_wire. destruct (isV4 x); [|destruct (isV6 x)]; intros [= <- <-] Hr Hd;
    cbn [Z.eqb Pos.eqb]; [| |done].
  - rewrite (u32_small (zlen pre + 1)), (u32_small (zlen pre + 1 + 4)) by (unfold uint; lia).
    rewrite (rd_addr_port C b pre 4 (fld 4 4 x) (port x) post) by (done || lia || (unfold zlen; by rewrite H4)).
    unfold mret, rd_ret. rewrite le_bytes_hton, !u32_small by (unfold uint; rewrite ?u32_small; unfold uint; lia).
    do 3 f_equal. lia.
  - rewrite (u32_small (zlen pre + 1)), (u32_small (zlen pre + 1 + 16)) by (unfold uint; lia).
    rewrite (rd_addr_port C b pre 6 (s6_addr x) (port x) post) by (done || lia || (unfold zlen; by rewrite H16)).
    unfold mret, rd_ret. rewrite le_bytes_hton, !u32_small by (unfold uint; rewrite ?u32_small; unfold uint; lia).
    do 3 f_equal. lia.
Qed.

(** The members of an object with a family, an address at [off] and a port. *)
Lemma fields_of fam off ip pt :
  (4 <= off)%nat → (off + length ip <= SIZE)%nat →
  let y := set_fld 2 (be_bytes 2 pt) (set_fld off ip (set_fld 0 (le_bytes 2 fam) zero)) in
  ss_family y = le_val (le_bytes 2 fam) ∧ fld off (length ip) y = ip ∧ sin_port y = le_val (be_bytes 2 pt).
Proof.
  intros H4 Hl y. subst y. pose proof (length_be_bytes 2 pt) as Hb.
  assert (length (set_fld 0 (le_bytes 2 fam) zero) = SIZE) as H0 by (rewrite length_set_fld; [done|cbn; lia]).
  assert (length (set_fld off ip (set_fld 0 (le_bytes 2 fam) zero)) = SIZE) as H1
    by (rewrite length_set_fld by (rewrite H0; lia); exact H0).
  unfold ss_family, sin_port. split_and!.
  - rewrite !fld_set_below by (rewrite ?Hb, ?H1, ?H0; unfold SIZE in *; lia).
    by rewrite fld_set_same by (cbn; lia).
  - rewrite fld_set_above by (rewrite ?Hb, ?H1; unfold SIZE in *; lia).
    by rewrite fld_set_same by (rewrite ?H0; lia).
  - by rewrite fld_set_same by (rewrite ?Hb, ?H1; unfold SIZE in *; lia).
Qed.

(** What is kept of an address. *)
Lemma inet_norm_fields x :
  inet_ok x → isV4 x || isV6 x = true →
  ss_family (inet_norm x) = ss_family x ∧ rawIpData (inet_norm x) = rawIpData x ∧ port (inet_norm x) = port x.
Proof.
  intros Hx. destruct (inet_fields x Hx) as [H4 H16]. pose proof (port_range x Hx) as Hp.
  assert (ntoh 2 (le_val (be_bytes 2 (port x))) = port x) as Hport.
  { rewrite ntoh_le_val by (apply be_bytes_ok || done). rewrite be_val_bytes. by apply Z.mod_small. }
  unfold inet_norm. destruct (isV4 x) eqn:E4; [|destruct (isV6 x) eqn:E6; [|done]]; intros _.
  - destruct (fields_of AF_INET 4 (fld 4 4 x) (port x)) as (Ef & Eip & Ept); [lia|rewrite H4; unfold SIZE; lia|].
    rewrite H4 in Eip. set (y := set_fld 2 _ _) in *. clearbody y. unfold isV4 in E4. apply Z.eqb_eq in E4.
    unfold rawIpData, port at 1, isV4. rewrite Ef, E4, Eip, Ept. done.
  - destruct (fields_of AF_INET6 8 (s6_addr x) (port x)) as (Ef & Eip & Ept); [lia|rewrite H16; unfold SIZE; lia|].
    rewrite H16 in Eip. set (y := set_fld 2 _ _) in *. clearbody y. unfold isV6 in E6. apply Z.eqb_eq in E6.
    change (fld 8 16 y) with (s6_addr y) in Eip.
    unfold rawIpData, port at 1, isV4, isV6. rewrite Ef, E6, Eip, Ept. done.
Qed.

(** The length of the serialized form is bounded. *)
Lemma deserialize_safe C L startAt :
  uint C → uint (C + 32) → uint startAt → safe C L (InetWire.deserialize startAt) (λ _, True).
Proof.
  intros HC [_ HC32] Hs. unfold InetWire.deserialize.
  eapply safe_bind; [by apply safe_index|]. intros t [Ht HL]. cbn beta. destruct Hs as [Hs _].
  repeat (match goal with |- safe _ _ (if ?c then _ else _) _ => destruct c end; try (by apply safe_ret)).
  - eapply safe_bind; [apply safe_at; [unfold uint; rewrite u32_small; unfold uint; lia|lia]|].
    intros; by apply safe_ret.
  - eapply safe_bind; [apply safe_field; unfold uint; rewrite ?u32_small; unfold uint; lia|].
    intros ip _. cbn beta. eapply safe_bind;
      [apply safe_at; [unfold uint; rewrite !u32_small; unfold uint; rewrite ?u32_small; unfold uint; lia|lia]|].
    intros; by apply safe_ret.
  - eapply safe_bind; [apply safe_field; unfold uint; rewrite ?u32_small; unfold uint; lia|].
    intros ip _. cbn beta. eapply safe_bind;
      [apply safe_at; [unfold uint; rewrite !u32_small; unfold uint; rewrite ?u32_small; unfold uint; lia|lia]|].
    intros; by apply safe_ret.
  - apply safe_invalid.
Qed.

(** An IP address survives a packet.  Serialized into any buffer with room for it,
    it is read back from there with its family, address and port and with the number
    of bytes it takes, so that the reader continues behind it; and on every buffer,
    whatever it holds and wherever the reader starts, reading either returns or throws
    and touches nothing outside the data. *)
Theorem inet_wire_roundtrip C x b d :
  uint C → uint (C + 32) → inet_ok x → isV4 x || isV6 x = true →
  repr C b d → zlen d + 19 <= C →
  (∃ b' y n, InetWire.serialize C x b = Ok (Ret tt, b') ∧ _l b' = _l b + n
    ∧ InetWire.deserialize (_l b) b' = Ok (Got (y, n))
    ∧ ss_family y = ss_family x ∧ rawIpData y = rawIpData x ∧ port y = port x)
  ∧ (∀ startAt, uint startAt → ∃ o, InetWire.deserialize startAt b = Ok o).
Proof.
  intros HC HC' Hx Hf Hr Hd. split.
  - pose proof (serialize_emits C x HC ltac:(unfold uint in *; lia) Hx b d Hr) as He.
    pose proof (zlen_inet_wire x Hx) as Hz.
    rewrite (proj2 (Z.leb_le _ _)) in He by (destruct (isV4 x), (isV6 x); lia).
    destruct He as (b' & E & Hr'). destruct (repr_bounds C _ _ Hr) as (Hl & _).
    destruct (repr_bounds C _ _ Hr') as (Hl' & _). rewrite zlen_app in Hl'.
    exists b', (inet_norm x), (zlen (inet_wire x)). rewrite Hl.
    split_and!; [done|lia| |by apply inet_norm_fields..].
    apply (deserialize_wire C b' x d []); [done..|]. by rewrite app_nil_r.
  - intros startAt Hs. destruct (deserialize_safe C (zlen d) startAt HC HC' Hs b d Hr eq_refl) as (o & E & _).
    by exists o.
Qed.

Lemma inet_wire_roundtrip_witness :
  ∃ b' y, InetWire.serialize 64 (inet4 10 1 2 3 443) (Buf 1 (memset 64 9)) = Ok (Ret tt, b')
    ∧ InetWire.deserialize 1 b' = Ok (Got (y, 7)) ∧ port y = 443.
Proof.
  destruct (inet_wire_roundtrip 64 (inet4 10 1 2 3 443) (Buf 1 (memset 64 9)) [9])
    as [(b' & y & n & E & _ & E' & _ & _ & Hp) _]; try done.
  - apply inet4_ok. repeat constructor; lia.
  - by exists (memset 63 9).
  - exists b', y. split; [exact E|]. split; [|rewrite Hp; by vm_compute].
    change (_l (Buf 1 (memset 64 9))) with 1 in E'. vm_compute in E. injection E as <-.
    vm_compute in E'. injection E' as <- <-. vm_compute. reflexivity.
Defined.
