(* ===== verification/Com.v ===== *)
(** * Certificates of membership (zto/node/CertificateOfMembership.hpp and .cpp)

    A certificate is an array of qualifiers sorted by id, of which the first
    [_qualifierCount] are in use, and the signature of the controller.  Modelled are
    the accessors, [setQualifier], the binary form and the agreement test that decides
    whether two members of a network talk to each other.  Signing and verifying, which
    call the node's cryptography, are not; [signed_image] is what they are given. *)

From S2P Require Import Prelude Buffer Addr Wire.
From Stdlib Require Import ZArith Lia.
From stdpp Require Import base numbers list option sorting.

Open Scope Z_scope.

Definition ZT_NETWORK_COM_MAX_QUALIFIERS : Z := 8.
Definition ZT_C25519_SIGNATURE_LEN : Z := 96.

Definition COM_RESERVED_ID_TIMESTAMP : Z := 0.
Definition COM_RESERVED_ID_NETWORK_ID : Z := 1.
Definition COM_RESERVED_ID_ISSUED_TO : Z := 2.

Record qualifier := Qual { q_id : Z; q_value : Z; q_maxDelta : Z }.

Record com := Com {
  _signedBy : Z;
  _qualifiers : list qualifier;
  _qualifierCount : Z;
  _signature : bytes;
}.

#[export] Instance qualifier_inhabited : Inhabited qualifier := populate (Qual 0 0 0).

(** An element of the array. *)
Definition qual (c : com) (i : Z) : cres qualifier :=
  match _qualifiers c !! Z.to_nat i with Some q => Ok q | None => Undef OutOfBounds end.

Definition set_qual (i : Z) (q : qualifier) (c : com) : cres com :=
  if (0 <=? i) && (i <? zlen (_qualifiers c))
  then Ok (Com (_signedBy c) (<[Z.to_nat i := q]> (_qualifiers c)) (_qualifierCount c) (_signature c))
  else Undef OutOfBounds.

(** The empty certificate, and one with the required fields, which leaves the [slots]
    behind them as the memory was. *)
Definition com_empty : com :=
  Com 0 (replicate (Z.to_nat ZT_NETWORK_COM_MAX_QUALIFIERS) (Qual 0 0 0)) 0 (memset ZT_C25519_SIGNATURE_LEN 0).

Definition com_make (slots : list qualifier) (timestamp timestampMaxDelta nwid issuedTo : Z) : com :=
  Com 0
    ([Qual COM_RESERVED_ID_TIMESTAMP timestamp timestampMaxDelta; Qual COM_RESERVED_ID_NETWORK_ID nwid 0;
      Qual COM_RESERVED_ID_ISSUED_TO issuedTo 0xffffffffffffffff]
     ++ slots) 3 (memset ZT_C25519_SIGNATURE_LEN 0).

(** The loop of the accessors: the first qualifier with the id. *)
Fixpoint find_qual (id : Z) (qs : list qualifier) : option qualifier :=
  match qs with
  | [] => None
  | q :: qs' => if q_id q =? id then Some q else find_qual id qs'
  end.

Definition used (c : com) : list qualifier := take (Z.to_nat (_qualifierCount c)) (_qualifiers c).

Definition timestamp (c : com) : Z * Z :=
  match find_qual COM_RESERVED_ID_TIMESTAMP (used c) with Some q => (q_value q, q_maxDelta q) | None => (0, 0) end.
Definition issuedTo (c : com) : Z :=
  match find_qual COM_RESERVED_ID_ISSUED_TO (used c) with Some q => Address.of_u64 (q_value q) | None => 0 end.
Definition networkId (c : com) : Z :=
  match find_qual COM_RESERVED_ID_NETWORK_ID (used c) with Some q => q_value q | None => 0 end.

(** ** [setQualifier] *)

(** The position of the id among the qualifiers in use. *)
Fixpoint find_index (id : Z) (qs : list qualifier) (i : Z) : option Z :=
  match qs with
  | [] => None
  | q :: qs' => if q_id q =? id then Some i else find_index id qs' (i + 1)
  end.

(** [std::sort] by id; the ids are distinct, so that the result is determined. *)
Fixpoint sort_insert (q : qualifier) (qs : list qualifier) : list qualifier :=
  match qs with
  | [] => [q]
  | r :: qs' => if q_id q <? q_id r then q :: r :: qs' else r :: sort_insert q qs'
  end.

Fixpoint sort_quals (qs : list qualifier) : list qualifier :=
  match qs with [] => [] | q :: qs' => sort_insert q (sort_quals qs') end.

Definition setQualifier (id value maxDelta : Z) (c : com) : cres com :=
  let c := Com 0 (_qualifiers c) (_qualifierCount c) (_signature c) in
  match find_index id (used c) 0 with
  | Some i => set_qual i (Qual id value maxDelta) c
  | None =>
      if _qualifierCount c <? ZT_NETWORK_COM_MAX_QUALIFIERS then
        c ← set_qual (_qualifierCount c) (Qual id value maxDelta) c;
        let n := _qualifierCount c + 1 in
        Ok (Com (_signedBy c)
              (sort_quals (take (Z.to_nat n) (_qualifiers c)) ++ drop (Z.to_nat n) (_qualifiers c))
              n (_signature c))
      else Ok c
  end.

(** ** [agreesWith] *)

(** Seeking the id in [other] from [otheridx]; [None] when it runs off the end. *)
Fixpoint seek (fuel : nat) (other : com) (id otheridx : Z) : cres (option Z) :=
  q ← qual other otheridx;
  if q_id q =? id then Ok (Some otheridx)
  else
    let otheridx := otheridx + 1 in
    if _qualifierCount other <=? otheridx then Ok None
    else match fuel with O => Undef OutOfFuel | S fuel' => seek fuel' other id otheridx end.

(** The absolute difference of two unsigned integers. *)
Definition delta (a b : Z) : Z := if b <=? a then a - b else b - a.

Fixpoint agrees_loop (n : nat) (c other : com) (myidx otheridx : Z) : cres bool :=
  match n with
  | O => Ok true
  | S n' =>
      if _qualifierCount other <=? otheridx then Ok false
      else
        mine ← qual c myidx;
        r ← seek (Z.to_nat (_qualifierCount other)) other (q_id mine) otheridx;
        match r with
        | None => Ok false
        | Some otheridx =>
            theirs ← qual other myidx;
            if q_maxDelta mine <? delta (q_value mine) (q_value theirs) then Ok false
            else agrees_loop n' c other (myidx + 1) otheridx
        end
  end.

Definition agreesWith (c other : com) : cres bool :=
  if (_qualifierCount c =? 0) || (_qualifierCount other =? 0) then Ok false
  else agrees_loop (Z.to_nat (_qualifierCount c)) c other 0 0.

(** ** The binary form *)

Fixpoint append_quals (C : Z) (qs : list qualifier) : meth unit :=
  match qs with
  | [] => mret tt
  | q :: qs' =>
      _ ← append_int C 8 (q_id q); _ ← append_int C 8 (q_value q); _ ← append_int C 8 (q_maxDelta q);
      append_quals C qs'
  end.

Definition serialize (C : Z) (c : com) : meth unit :=
  _ ← append_int C 1 1;
  _ ← append_int C 2 (wrap 16 (_qualifierCount c));
  _ ← append_quals C (used c);
  _ ← AddressWire.appendTo C (_signedBy c);
  if _signedBy c =? 0 then mret tt else append C (_signature c) ZT_C25519_SIGNATURE_LEN.

(** A defined computation inside a reader. *)
Definition rd_lift {A} (r : cres A) : rd A := λ _,
  match r with Ok a => Ok (Got a) | Undef u => Undef u end.

Fixpoint read_quals (numq : nat) (p lastId : Z) (c : com) : rd (com * Z) :=
  match numq with
  | O => mret (c, p)
  | S numq' =>
      qid ← rd_meth (at_ 8 p);
      if qid <? lastId then invalid
      else if _qualifierCount c <? ZT_NETWORK_COM_MAX_QUALIFIERS then
        value ← rd_meth (at_ 8 (u32 (p + 8)));
        maxDelta ← rd_meth (at_ 8 (u32 (p + 16)));
        c ← rd_lift (set_qual (_qualifierCount c) (Qual qid value maxDelta) c);
        read_quals numq' (u32 (p + 24)) qid
          (Com (_signedBy c) (_qualifiers c) (_qualifierCount c + 1) (_signature c))
      else invalid
  end.

(** Into the object [c]: the object and the number of bytes read. *)
Definition deserialize (startAt : Z) (c : com) : rd (com * Z) :=
  let p := startAt in
  let c := Com 0 (_qualifiers c) 0 (_signature c) in
  t ← rd_meth (index p);
  let p := u32 (p + 1) in
  if negb (t =? 1) then invalid
  else
    numq ← rd_meth (at_ 2 p);
    let p := u32 (p + 2) in
    '(c, p) ← read_quals (Z.to_nat numq) p 0 c;
    a ← rd_field p Address.ZT_ADDRESS_LENGTH;
    by_ ← rd_lift (Address.setTo a Address.ZT_ADDRESS_LENGTH);
    let p := u32 (p + Address.ZT_ADDRESS_LENGTH) in
    let c := Com by_ (_qualifiers c) (_qualifierCount c) (_signature c) in
    if negb (by_ =? 0) then
      s ← rd_field p ZT_C25519_SIGNATURE_LEN;
      let p := u32 (p + ZT_C25519_SIGNATURE_LEN) in
      mret (Com by_ (_qualifiers c) (_qualifierCount c) s, u32 (p - startAt))
    else mret (c, u32 (p - startAt)).

(** What [sign] and [verify] pass to the signature functions. *)
Definition signed_image (c : com) : bytes :=
  concat ((λ q, be_bytes 8 (q_id q) ++ be_bytes 8 (q_value q) ++ be_bytes 8 (q_maxDelta q)) <$> used c).

(** ** Well-formed certificates *)

Definition u64_ok (z : Z) : Prop := 0 <= z < 2 ^ 64.
Definition q_ok (q : qualifier) : Prop := u64_ok (q_id q) ∧ u64_ok (q_value q) ∧ u64_ok (q_maxDelta q).

Definition com_ok (c : com) : Prop :=
  zlen (_qualifiers c) = ZT_NETWORK_COM_MAX_QUALIFIERS ∧ Forall q_ok (_qualifiers c)
  ∧ 0 <= _qualifierCount c <= ZT_NETWORK_COM_MAX_QUALIFIERS
  ∧ zlen (_signature c) = ZT_C25519_SIGNATURE_LEN ∧ 0 <= _signedBy c < 2 ^ 40.

Definition ids (qs : list qualifier) : list Z := q_id <$> qs.
Definition sorted (c : com) : Prop := StronglySorted Z.lt (ids (used c)).

Lemma sorted_nodup (l : list Z) : StronglySorted Z.lt l → NoDup l.
Proof.
  induction 1 as [|x l Hs IH Hx]; [constructor|]. apply list.NoDup_cons. split; [|done].
  intros Hin. rewrite list.Forall_forall in Hx. specialize (Hx x Hin). lia.
Qed.

Lemma sorted_strict (l : list Z) : StronglySorted Z.le l → NoDup l → StronglySorted Z.lt l.
Proof.
  induction 1 as [|x l Hs IH Hx]; [constructor|]. intros [Hin Hnd]%list.NoDup_cons. constructor; [by apply IH|].
  rewrite list.Forall_forall in *. intros y Hy. specialize (Hx y Hy).
  destruct (Z.eq_dec x y) as [->|]; [done|lia].
Qed.

Lemma sort_insert_perm q l : sort_insert q l ≡ₚ q :: l.
Proof. induction l as [|r l IH]; cbn; [done|]. destruct (_ <? _); [done|]. rewrite IH. constructor. Qed.

Lemma sort_quals_perm l : sort_quals l ≡ₚ l.
Proof. induction l as [|q l IH]; cbn; [done|]. by rewrite sort_insert_perm, IH. Qed.

Lemma sort_insert_sorted q l : StronglySorted Z.le (ids l) → StronglySorted Z.le (ids (sort_insert q l)).
Proof.
  unfold ids. induction l as [|r l IH]; cbn; intros Hs; [by repeat constructor|].
  apply StronglySorted_inv in Hs as [Hs Hr]. destruct (Z.ltb_spec (q_id q) (q_id r)).
  - cbn. constructor; [by constructor|]. constructor; [lia|]. eapply list.Forall_impl; [exact Hr|]. lia.
  - cbn. constructor; [by apply IH|]. rewrite sort_insert_perm. cbn. by constructor.
Qed.

Lemma sort_quals_sorted l : StronglySorted Z.le (ids (sort_quals l)).
Proof. induction l as [|q l IH]; [constructor|]. by apply sort_insert_sorted. Qed.

Lemma find_qual_some id l q : find_qual id l = Some q → q ∈ l ∧ q_id q = id.
Proof.
  induction l as [|r l IH]; cbn; [done|]. destruct (Z.eqb_spec (q_id r) id).
  - intros [= ->]. split; [left|done].
  - intros [? ?]%IH. split; [by right|done].
Qed.

Lemma find_qual_in id l q : NoDup (ids l) → q ∈ l → q_id q = id → find_qual id l = Some q.
Proof.
  unfold ids. induction l as [|r l IH]; cbn; [by intros _ ?%elem_of_nil|].
  intros [Hn Hnd]%list.NoDup_cons [->|Hin]%elem_of_cons Hid.
  - by rewrite Hid, Z.eqb_refl.
  - destruct (Z.eqb_spec (q_id r) id) as [E|_]; [|by apply IH].
    destruct Hn. apply list_elem_of_fmap. exists q. by rewrite E, Hid.
Qed.

Lemma find_qual_none id l : find_qual id l = None ↔ id ∉ ids l.
Proof.
  unfold ids. induction l as [|r l IH]; cbn; [split; [by intros _ ?%elem_of_nil|done]|].
  rewrite not_elem_of_cons. destruct (Z.eqb_spec (q_id r) id); [naive_solver|]. rewrite IH. naive_solver.
Qed.

Lemma find_qual_perm id l l' : NoDup (ids l) → l ≡ₚ l' → find_qual id l = find_qual id l'.
Proof.
  intros Hnd Hp. assert (NoDup (ids l')) as Hnd' by (unfold ids in *; by rewrite <- Hp).
  destruct (find_qual id l) as [q|] eqn:E.
  - apply find_qual_some in E as [Hin Hid]. symmetry. apply find_qual_in; [done| |done]. by rewrite <- Hp.
  - symmetry. apply find_qual_none. apply find_qual_none in E. unfold ids in *. by rewrite <- Hp.
Qed.

Lemma find_qual_app id l l' :
  find_qual id (l ++ l') = match find_qual id l with Some q => Some q | None => find_qual id l' end.
Proof. induction l as [|r l IH]; cbn; [done|]. by destruct (_ =? _). Qed.

Lemma find_index_spec id l i :
  match find_index id l i with
  | Some j => ∃ l1 q l2, l = l1 ++ (q :: l2) ∧ q_id q = id ∧ (id ∉ ids l1) ∧ j = i + zlen l1
  | None => id ∉ ids l
  end.
Proof.
  revert i. induction l as [|r l IH]; intros i; cbn; [by intros ?%elem_of_nil|].
  destruct (Z.eqb_spec (q_id r) id) as [E|Hne].
  - exists [], r, l. split_and!; [done|done|by intros ?%elem_of_nil|rewrite zlen_nil; lia].
  - specialize (IH (i + 1)). destruct (find_index id l (i + 1)) as [j|].
    + destruct IH as (l1 & q & l2 & -> & Hq & Hn & ->). exists (r :: l1), q, l2.
      split_and!; [done|done| |rewrite zlen_cons; lia]. unfold ids in *. cbn. rewrite not_elem_of_cons. naive_solver.
    + unfold ids in *. cbn. rewrite not_elem_of_cons. naive_solver.
Qed.

(** ** [setQualifier] keeps certificates well formed *)

Lemma used_length c : com_ok c → length (used c) = Z.to_nat (_qualifierCount c).
Proof. intros (Hl & _ & Hc & _). unfold used, zlen in *. rewrite length_take. unfold ZT_NETWORK_COM_MAX_QUALIFIERS in *. lia. Qed.

Lemma set_qual_in c i q :
  com_ok c → 0 <= i < ZT_NETWORK_COM_MAX_QUALIFIERS →
  set_qual i q c = Ok (Com (_signedBy c) (<[Z.to_nat i := q]> (_qualifiers c)) (_qualifierCount c) (_signature c)).
Proof.
  intros (Hl & _) Hi. unfold set_qual. rewrite Hl.
  rewrite (proj2 (Z.leb_le _ _)), (proj2 (Z.ltb_lt _ _)) by lia. done.
Qed.

Lemma sorted_sort l q :
  StronglySorted Z.lt (ids l) → q_id q ∉ ids l → StronglySorted Z.lt (ids (sort_quals (l ++ [q]))).
Proof.
  intros Hs Hn. apply sorted_strict; [apply sort_quals_sorted|]. unfold ids in *.
  rewrite sort_quals_perm, fmap_app. cbn. rewrite NoDup_app. split_and!.
  - by apply sorted_nodup.
  - intros x Hx ->%list_elem_of_singleton. done.
  - apply NoDup_singleton.
Qed.

Lemma find_qual_replace id id' q q' l1 l2 :
  q_id q = id → q_id q' = id → (id ∉ ids l1) →
  find_qual id' (l1 ++ q' :: l2) = if decide (id' = id) then Some q' else find_qual id' (l1 ++ q :: l2).
Proof.
  intros Hq Hq' Hn. rewrite !find_qual_app. cbn. rewrite Hq, Hq'. case_decide as E.
  - subst id'. by rewrite (proj2 (find_qual_none _ _) Hn), Z.eqb_refl.
  - destruct (find_qual id' l1); [done|]. by rewrite (proj2 (Z.eqb_neq _ _)).
Qed.

(** The array with one element replaced or with a permuted beginning is an array of
    certificate qualifiers again. *)
Lemma com_ok_quals c qs n :
  com_ok c → zlen qs = ZT_NETWORK_COM_MAX_QUALIFIERS → Forall q_ok qs → 0 <= n <= ZT_NETWORK_COM_MAX_QUALIFIERS →
  com_ok (Com 0 qs n (_signature c)).
Proof. intros (_ & _ & _ & Hs & _) Hl Hq Hn. split_and!; cbn; done || lia. Qed.

(** The id is there: its qualifier is replaced in place. *)
Lemma set_qual_used c q q' l1 l2 :
  com_ok c → q_ok q' → used c = l1 ++ q :: l2 →
  ∃ c', set_qual (zlen l1) q' (Com 0 (_qualifiers c) (_qualifierCount c) (_signature c)) = Ok c'
    ∧ com_ok c' ∧ _signedBy c' = 0 ∧ used c' = l1 ++ q' :: l2.
Proof.
  intros Hok Hq Hu. pose proof (used_length c Hok) as Hul. rewrite Hu, length_app in Hul. cbn in Hul.
  pose proof Hok as (Hl & Hqs & Hc & _). pose proof (zlen_nonneg l1).
  assert (zlen l1 < ZT_NETWORK_COM_MAX_QUALIFIERS) by (unfold zlen; lia).
  rewrite set_qual_in; [|by apply com_ok_quals|lia]. cbn [_signedBy _qualifiers _qualifierCount _signature].
  eexists. split; [reflexivity|]. split_and!; [|done|].
  - apply com_ok_quals; [done|unfold zlen in *; by rewrite length_insert|by apply Forall_insert|done].
  - unfold used in *. cbn [_qualifiers _qualifierCount]. rewrite take_insert_lt by (unfold zlen; lia). rewrite Hu.
    unfold zlen. rewrite Nat2Z.id. by rewrite <- (Nat.add_0_r (length l1)), insert_app_r.
Qed.

(** The id is not there: the qualifier is added at the end and sorted in. *)
Lemma add_qual_used c q :
  com_ok c → q_ok q → _qualifierCount c < ZT_NETWORK_COM_MAX_QUALIFIERS →
  let qs := <[Z.to_nat (_qualifierCount c) := q]> (_qualifiers c) in
  let n := _qualifierCount c + 1 in
  let c' := Com 0 (sort_quals (take (Z.to_nat n) qs) ++ drop (Z.to_nat n) qs) n (_signature c) in
  com_ok c' ∧ used c' = sort_quals (used c ++ [q]).
Proof.
  intros Hok Hq Hlt qs n. pose proof Hok as (Hl & Hqs & Hc & _).
  assert (take (Z.to_nat n) qs = used c ++ [q]) as Ht.
  { unfold n, qs. replace (Z.to_nat (_qualifierCount c + 1)) with (S (Z.to_nat (_qualifierCount c))) by lia.
    erewrite take_S_r by (apply list_lookup_insert_eq; unfold zlen in *; lia).
    by rewrite take_insert_ge. }
  assert (Forall q_ok qs) as Hqs' by by apply Forall_insert.
  rewrite Ht. split.
  - apply com_ok_quals; [done| | |lia].
    + rewrite zlen_app. unfold zlen in *. rewrite sort_quals_perm, length_app, used_length, length_drop by done.
      unfold qs. rewrite length_insert. cbn. lia.
    + apply Forall_app. split; [|by apply Forall_drop]. rewrite sort_quals_perm. rewrite <- Ht. by apply Forall_take.
  - unfold used at 1. cbn [_qualifiers _qualifierCount].
    rewrite take_app_length'; [done|]. rewrite sort_quals_perm, length_app, used_length by done. cbn. lia.
Qed.

(** [setQualifier] on a well-formed certificate (eight qualifier slots, ids strictly
    increasing among those in use) is defined and gives a well-formed certificate that is
    not signed: the id is looked up to the new value and delta, every other id to what it
    was, and the ids are still strictly increasing; an id that is new while all eight slots
    are in use is dropped, and the qualifiers are then those of before. *)
Theorem com_setQualifier (id value maxDelta : Z) (c : com) :
  com_ok c → sorted c → q_ok (Qual id value maxDelta) →
  ∃ c', setQualifier id value maxDelta c = Ok c' ∧ com_ok c' ∧ sorted c' ∧ _signedBy c' = 0
  ∧ ∀ id', find_qual id' (used c')
      = if decide (id' = id ∧ (id ∈ ids (used c) ∨ _qualifierCount c < ZT_NETWORK_COM_MAX_QUALIFIERS))
        then Some (Qual id value maxDelta) else find_qual id' (used c).
Proof.
  intros Hok Hs Hq. unfold setQualifier.
  change (used (Com 0 _ _ _)) with (used c). pose proof (find_index_spec id (used c) 0) as Hf.
  destruct (find_index id (used c) 0) as [j|].
  - destruct Hf as (l1 & q & l2 & Hu & Hid & Hn & ->). rewrite Z.add_0_l.
    destruct (set_qual_used c q (Qual id value maxDelta) l1 l2) as (c' & -> & Hok' & Hby & Hu'); [done..|].
    exists c'. split_and!; [done..| |done|].
    + unfold sorted, ids in *. rewrite Hu' , Hu in *. rewrite !fmap_app in *. cbn in *. by rewrite Hid in Hs.
    + intros id'. rewrite Hu', (find_qual_replace id id' q) by done. rewrite Hu.
      apply decide_ext. unfold ids. rewrite fmap_app, elem_of_app. cbn. rewrite elem_of_cons. naive_solver.
  - cbn [_qualifierCount]. destruct (Z.ltb_spec (_qualifierCount c) ZT_NETWORK_COM_MAX_QUALIFIERS) as [Hlt|Hge].
    + pose proof Hok as (? & ? & ? & _).
      rewrite set_qual_in by (try apply com_ok_quals; done || lia). cbn -[sort_quals take drop insert Z.add].
      destruct (add_qual_used c (Qual id value maxDelta)) as [Hok' Hu']; [done..|].
      eexists. split; [reflexivity|]. split_and!; [done| |done|].
      * unfold sorted. rewrite Hu'. by apply sorted_sort.
      * intros id'. rewrite Hu'. assert (NoDup (ids (sort_quals (used c ++ [Qual id value maxDelta])))) as Hnd.
        { by apply sorted_nodup, sorted_sort. }
        rewrite (find_qual_perm _ _ _ Hnd (sort_quals_perm _)), find_qual_app. cbn. case_decide as E.
        -- destruct E as [-> _]. by rewrite (proj2 (find_qual_none _ _) Hf), Z.eqb_refl.
        -- rewrite (proj2 (Z.eqb_neq _ _)) by naive_solver. by destruct (find_qual id' (used c)).
    + eexists. split; [reflexivity|]. pose proof Hok as (? & ? & ? & _).
      split_and!; [by apply com_ok_quals|done|done|]. intros id'. rewrite decide_False; [done|]. intros [_ [?|?]]; [done|lia].
Qed.

(** ** What [agreesWith] decides *)

Definition nth_q (c : com) (i : Z) : qualifier := _qualifiers c !!! Z.to_nat i.

(** What the comment above the method says: each qualifier of [c] is in [other], and the
    two values differ by at most the delta of [c]. *)
Definition agrees_documented (c other : com) : Prop :=
  _qualifierCount c ≠ 0 ∧
  ∀ i, 0 <= i < _qualifierCount c →
    ∃ j, 0 <= j < _qualifierCount other ∧ q_id (nth_q other j) = q_id (nth_q c i)
      ∧ delta (q_value (nth_q c i)) (q_value (nth_q other j)) <= q_maxDelta (nth_q c i).

(** What it computes: each id of [c] is in [other], and the values at the same position
    differ by at most the delta of [c]. *)
Definition agrees_by_position (c other : com) (from : Z) : Prop :=
  ∀ i, from <= i < _qualifierCount c →
    (∃ j, 0 <= j < _qualifierCount other ∧ q_id (nth_q other j) = q_id (nth_q c i))
    ∧ delta (q_value (nth_q c i)) (q_value (nth_q other i)) <= q_maxDelta (nth_q c i).

Lemma qual_nth c i : com_ok c → 0 <= i < ZT_NETWORK_COM_MAX_QUALIFIERS → qual c i = Ok (nth_q c i).
Proof.
  intros (Hl & _) Hi. unfold qual, nth_q.
  destruct (lookup_lt_is_Some_2 (_qualifiers c) (Z.to_nat i)) as [q Hq]; [unfold zlen in *; lia|].
  by rewrite Hq, (list_lookup_total_correct _ _ _ Hq).
Qed.

Lemma used_lookup c i : com_ok c → 0 <= i < _qualifierCount c → used c !! Z.to_nat i = Some (nth_q c i).
Proof.
  intros Hok Hi. unfold used. rewrite lookup_take_lt by lia. pose proof Hok as (_ & _ & Hc & _).
  pose proof (qual_nth c i Hok) as H. unfold qual in H. destruct (_qualifiers c !! Z.to_nat i).
  - specialize (H ltac:(lia)). congruence.
  - specialize (H ltac:(lia)). congruence.
Qed.

Lemma strongly_sorted_lookup (l : list Z) (i j : nat) x y :
  StronglySorted Z.lt l → (i < j)%nat → l !! i = Some x → l !! j = Some y → x < y.
Proof.
  intros Hs. revert i j. induction Hs as [|z l Hs IH Hz]; intros [|i] [|j] Hij; cbn; try done; try lia.
  - intros [= ->] Hy. rewrite list.Forall_forall in Hz. apply Hz. by eapply list_elem_of_lookup_2.
  - apply IH. lia.
Qed.

Lemma sorted_lt c i j :
  com_ok c → sorted c → 0 <= i < j → j < _qualifierCount c → q_id (nth_q c i) < q_id (nth_q c j).
Proof.
  intros Hok Hs Hij Hj. apply (strongly_sorted_lookup _ (Z.to_nat i) (Z.to_nat j) _ _ Hs); [lia|..].
  all: unfold ids; rewrite list_lookup_fmap, used_lookup by (done || lia); done.
Qed.

Lemma sorted_inj c i j :
  com_ok c → sorted c → 0 <= i < _qualifierCount c → 0 <= j < _qualifierCount c →
  q_id (nth_q c i) = q_id (nth_q c j) → i = j.
Proof.
  intros Hok Hs Hi Hj E. destruct (Z.lt_total i j) as [H|[H|H]]; [|done|].
  - pose proof (sorted_lt c i j Hok Hs). lia.
  - pose proof (sorted_lt c j i Hok Hs). lia.
Qed.

Section agreement.
  Context (c other : com) (Hc : com_ok c) (Ho : com_ok other) (Hcs : sorted c) (Hos : sorted other).

Lemma seek_spec (id k : Z) (fuel : nat) :
  0 <= k < _qualifierCount other → _qualifierCount other - k <= Z.of_nat fuel →
  ∃ r, seek fuel other id k = Ok r ∧
    match r with
    | Some j => k <= j < _qualifierCount other ∧ q_id (nth_q other j) = id
    | None => ∀ j, k <= j < _qualifierCount other → q_id (nth_q other j) ≠ id
    end.
Proof.
  pose proof Ho as (_ & _ & Hn & _). revert k. induction fuel as [|fuel IH]; intros k Hk Hf; [lia|].
  cbn. rewrite qual_nth by (done || lia). cbn. destruct (Z.eqb_spec (q_id (nth_q other k)) id) as [E|Hne].
  - exists (Some k). split; [done|]. split; [lia|done].
  - destruct (Z.leb_spec (_qualifierCount other) (k + 1)) as [Hend|Hgo].
    + exists None. split; [done|]. intros j Hj. by replace j with k by lia.
    + destruct (IH (k + 1)) as (r & -> & Hr); [lia..|]. exists r. split; [done|]. destruct r as [j|].
      * split; [lia|tauto].
      * intros j Hj. destruct (Z.eq_dec j k) as [->|]; [done|]. apply Hr. lia.
Qed.

(** The scan of [other] never skips an id it still needs: what is behind it is smaller. *)
Lemma agrees_loop_spec (n : nat) (my ot : Z) :
  0 <= my → my + Z.of_nat n = _qualifierCount c → 0 <= ot < _qualifierCount other →
  (∀ j, 0 <= j < ot → my < _qualifierCount c → q_id (nth_q other j) < q_id (nth_q c my)) →
  ∃ b, agrees_loop n c other my ot = Ok b ∧ (b = true ↔ agrees_by_position c other my).
Proof.
  pose proof Hc as (_ & _ & Hn & _). pose proof Ho as (_ & _ & Hn' & _).
  revert my ot. induction n as [|n IH]; intros my ot Hmy Hsum Hot Hbehind.
  - exists true. split; [done|]. split; [|done]. intros _ i Hi. lia.
  - cbn [agrees_loop]. destruct (Z.leb_spec (_qualifierCount other) ot); [lia|].
    rewrite (qual_nth c my) by (done || lia). cbn [mbind cres_bind].
    destruct (seek_spec (q_id (nth_q c my)) ot (Z.to_nat (_qualifierCount other))) as (r & -> & Hr); [lia..|].
    cbn [mbind cres_bind]. destruct r as [j|].
    + rewrite (qual_nth other my) by (done || lia). cbn [mbind cres_bind]. destruct Hr as [Hj Hid].
      destruct (Z.ltb_spec (q_maxDelta (nth_q c my)) (delta (q_value (nth_q c my)) (q_value (nth_q other my)))) as [Hd|Hd].
      * exists false. split; [done|]. split; [done|]. intros Hall. destruct (Hall my) as [_ Hle]; lia.
      * destruct (IH (my + 1) j) as (b & -> & Hb); [lia..| |].
        { intros j' Hj' Hm. pose proof (sorted_lt c my (my + 1) Hc Hcs). pose proof (sorted_lt other j' j Ho Hos). lia. }
        exists b. split; [done|]. rewrite Hb. split; intros Hall i Hi; [|apply Hall; lia].
        destruct (Z.eq_dec i my) as [->|]; [|apply Hall; lia]. split; [|done]. exists j. split; [lia|done].
    + exists false. split; [done|]. split; [done|]. intros Hall. destruct (Hall my) as [(j & Hj & Hid) _]; [lia|].
      destruct (Z.lt_ge_cases j ot) as [Hlt|Hge]; [specialize (Hbehind j); lia|]. by destruct (Hr j); [lia|].
Qed.

(** With the ids of [c] at the same positions of [other] the two tests are one. *)
Lemma agrees_aligned :
  (∀ i, 0 <= i < _qualifierCount c → i < _qualifierCount other ∧ q_id (nth_q other i) = q_id (nth_q c i)) →
  _qualifierCount c ≠ 0 → agrees_by_position c other 0 ↔ agrees_documented c other.
Proof.
  intros Hal Hn. split.
  - intros H. split; [done|]. intros i Hi. destruct (H i Hi) as [_ Hd]. exists i. destruct (Hal i Hi). split_and!; done || lia.
  - intros [_ H] i Hi. destruct (H i Hi) as (j & Hj & Hid & Hd). split; [by exists j|].
    destruct (Hal i Hi) as [Hi' Hid']. replace i with j at 2; [done|].
    apply (sorted_inj other); [done..|lia|congruence].
Qed.
End agreement.

(** C33: [agreesWith] on two well-formed certificates returns, and accepts exactly when
    neither is empty, each id of this certificate is among the ids in use of the other, and
    the values at the same position differ by at most this certificate's delta.  When the
    other certificate has the ids of this one at the same positions (as two certificates of
    one controller have), that is the documented test, by id. *)
Theorem com_agreesWith (c other : com) :
  com_ok c → com_ok other → sorted c → sorted other →
  ∃ b, agreesWith c other = Ok b
    ∧ (b = true ↔ _qualifierCount c ≠ 0 ∧ agrees_by_position c other 0)
    ∧ ((∀ i, 0 <= i < _qualifierCount c → i < _qualifierCount other ∧ q_id (nth_q other i) = q_id (nth_q c i)) →
       b = true ↔ agrees_documented c other).
Proof.
  intros Hc Ho Hcs Hos. pose proof Hc as (_ & _ & Hn & _). pose proof Ho as (_ & _ & Hn' & _).
  assert (∃ b, agreesWith c other = Ok b ∧ (b = true ↔ _qualifierCount c ≠ 0 ∧ agrees_by_position c other 0))
    as (b & Hb & Hspec).
  { unfold agreesWith. destruct (Z.eqb_spec (_qualifierCount c) 0) as [E|Hne]; [exists false; cbn; naive_solver|].
    destruct (Z.eqb_spec (_qualifierCount other) 0) as [E|Hne']; cbn [orb].
    - exists false. split; [done|]. split; [done|]. intros [_ H]. destruct (H 0) as [(j & Hj & _) _]; lia.
    - destruct (agrees_loop_spec c other Hc Ho Hcs Hos (Z.to_nat (_qualifierCount c)) 0 0) as (b & Hb & Hs); [lia..|].
      exists b. split; [done|]. rewrite Hs. tauto. }
  exists b. split_and!; [done..|]. intros Hal. rewrite Hspec. split.
  - intros [Hne H]. by apply agrees_aligned.
  - intros H. pose proof H as [Hne _]. split; [done|]. by apply agrees_aligned.
Qed.

(** ** The binary form *)

Definition qual_wire (q : qualifier) : bytes :=
  be_bytes 8 (q_id q) ++ be_bytes 8 (q_value q) ++ be_bytes 8 (q_maxDelta q).
Definition quals_wire (qs : list qualifier) : bytes := concat (qual_wire <$> qs).

(** The bytes [serialize] writes; those of the qualifiers are the ones that are signed. *)
Definition com_wire (c : com) : bytes :=
  [1] ++ be_bytes 2 (_qualifierCount c) ++ quals_wire (used c) ++ be_bytes 5 (_signedBy c)
  ++ (if _signedBy c =? 0 then [] else _signature c).

Lemma zlen_be n z : zlen (be_bytes n z) = Z.of_nat n.
Proof. unfold zlen. by rewrite length_be_bytes. Qed.

Lemma zlen_qual_wire q : zlen (qual_wire q) = 24.
Proof. unfold qual_wire. by rewrite !zlen_app, !zlen_be. Qed.

Lemma zlen_quals_wire qs : zlen (quals_wire qs) = 24 * zlen qs.
Proof.
  induction qs as [|q qs IH]; [done|]. unfold quals_wire in *. cbn [fmap list_fmap concat].
  rewrite zlen_app, IH, zlen_qual_wire, zlen_cons. lia.
Qed.

Lemma zlen_com_wire c : com_ok c → zlen (com_wire c) <= 296.
Proof.
  intros Hok. pose proof (used_length c Hok). destruct Hok as (_ & _ & Hc & Hs & _).
  unfold com_wire. rewrite !zlen_app, !zlen_be, zlen_quals_wire.
  unfold zlen at 1 2. cbn [length]. unfold ZT_C25519_SIGNATURE_LEN, ZT_NETWORK_COM_MAX_QUALIFIERS in *.
  destruct (_ =? 0); [rewrite zlen_nil|]; lia.
Qed.

Section wire.
  Context (C : Z) (HC : uint C).

Lemma append_quals_emits qs : emits C (append_quals C qs) (quals_wire qs).
Proof.
  induction qs as [|q qs IH]; [by apply emits_nil|]. unfold quals_wire. cbn [append_quals fmap list_fmap concat].
  unfold qual_wire at 1. rewrite <- !app_assoc.
  repeat (apply emits_bind; [apply append_int_emits; [done|lia]|]). done.
Qed.

Lemma com_serialize_emits c : com_ok c → uint (C + 96) → emits C (serialize C c) (com_wire c).
Proof.
  intros Hok HC'. destruct Hok as (_ & _ & Hc & Hs & _). unfold serialize, com_wire.
  unfold ZT_NETWORK_COM_MAX_QUALIFIERS, ZT_C25519_SIGNATURE_LEN in *.
  apply (emits_bind C _ _ [1]); [by apply append_int_emits; [|lia]|].
  apply emits_bind; [unfold wrap; rewrite Z.mod_small by lia; apply append_int_emits; [done|lia]|].
  apply emits_bind; [apply append_quals_emits|]. apply emits_bind.
  - unfold AddressWire.appendTo. rewrite address_octets_bytes. apply append_through_emits. rewrite zlen_be.
    unfold uint in *. lia.
  - destruct (_ =? 0); [by apply emits_nil|]. apply append_emits; [done|]. by rewrite Hs.
Qed.

Lemma rd_u64 b p v q :
  repr C b (p ++ be_bytes 8 v ++ q) → u64_ok v → rd_meth (at_ 8 (zlen p)) b = Ok (Got v).
Proof. intros Hr Hv. rewrite (rd_at C HC b p 8 v q Hr) by lia. by rewrite Z.mod_small. Qed.

Lemma set_qual_split by_ l q0 r sig q :
  set_qual (zlen l) q (Com by_ (l ++ q0 :: r) (zlen l) sig) = Ok (Com by_ (l ++ q :: r) (zlen l) sig).
Proof.
  unfold set_qual. cbn [_qualifiers _signedBy _qualifierCount _signature].
  rewrite zlen_app, zlen_cons. pose proof (zlen_nonneg l). pose proof (zlen_nonneg r).
  rewrite (proj2 (Z.leb_le _ _)), (proj2 (Z.ltb_lt _ _)) by lia. cbn [andb].
  do 2 f_equal. unfold zlen. by rewrite Nat2Z.id, <- (Nat.add_0_r (length l)), insert_app_r.
Qed.

Lemma read_quals_wire post by_ sig b qs : ∀ pre l r last,
  repr C b (pre ++ quals_wire qs ++ post) →
  zlen l + zlen r = ZT_NETWORK_COM_MAX_QUALIFIERS → zlen qs <= zlen r →
  StronglySorted Z.le (last :: ids qs) → Forall q_ok qs →
  read_quals (length qs) (zlen pre) last (Com by_ (l ++ r) (zlen l) sig) b
  = Ok (Got (Com by_ (l ++ qs ++ drop (length qs) r) (zlen l + zlen qs) sig, zlen pre + 24 * zlen qs)).
Proof.
  induction qs as [|q qs IH]; intros pre l r last Hr Hlr Hqs Hs Hq.
  { cbn [length read_quals app drop]. rewrite !zlen_nil, !Z.add_0_r. done. }
  destruct r as [|q0 r]; [rewrite zlen_cons, zlen_nil in Hqs; pose proof (zlen_nonneg qs); lia|].
  rewrite !zlen_cons in *. pose proof (zlen_nonneg l). pose proof (zlen_nonneg r). pose proof (zlen_nonneg qs).
  apply list.Forall_cons in Hq as [(Hid & Hv & Hd) Hq]. unfold ids in Hs. cbn [fmap list_fmap] in Hs.
  apply StronglySorted_inv in Hs as [Hs Hlast]. apply list.Forall_cons in Hlast as [Hlast _].
  assert (repr C b ((pre ++ qual_wire q) ++ quals_wire qs ++ post)) as Hr'.
  { rewrite <- app_assoc. unfold quals_wire in Hr. cbn [fmap list_fmap concat] in Hr. by rewrite <- app_assoc in Hr. }
  destruct (repr_bounds C _ _ Hr') as (_ & Hb & _). rewrite !zlen_app, zlen_qual_wire in Hb.
  pose proof (zlen_nonneg pre). pose proof (zlen_nonneg post). pose proof (zlen_nonneg (quals_wire qs)).
  pose proof HC as [_ HC2].
  pose proof Hr' as R1. unfold qual_wire in R1. rewrite <- !app_assoc in R1.
  pose proof R1 as R2. rewrite app_assoc in R2. pose proof R2 as R3. rewrite app_assoc in R3.
  apply rd_u64 in R1; [|done]. apply rd_u64 in R2; [|done]. apply rd_u64 in R3; [|done].
  rewrite zlen_app, zlen_be in R2. rewrite !zlen_app, !zlen_be in R3.
  cbn [length read_quals]. rewrite (rd_bind_got _ _ _ _ R1), (proj2 (Z.ltb_ge _ _)) by lia.
  cbn [_qualifierCount]. rewrite (proj2 (Z.ltb_lt _ _)) by lia.
  rewrite !u32_small by (unfold uint; lia). rewrite (rd_bind_got _ _ _ _ R2).
  replace (zlen pre + 16) with (zlen pre + Z.of_nat 8 + Z.of_nat 8) by lia. rewrite (rd_bind_got _ _ _ _ R3).
  rewrite set_qual_split. unfold rd_lift at 1. unfold mbind at 1, rd_bind at 1.
  cbn [_signedBy _qualifiers _qualifierCount _signature].
  assert (zlen (l ++ [q]) = zlen l + 1) as Hl1 by (by rewrite zlen_app).
  assert (zlen (pre ++ qual_wire q) = zlen pre + 24) as Hp1 by (by rewrite zlen_app, zlen_qual_wire).
  rewrite <- Hl1, <- Hp1. replace (Qual (q_id q) (q_value q) (q_maxDelta q)) with q by by destruct q.
  change (q :: r) with ([q] ++ r). rewrite app_assoc.
  rewrite (IH (pre ++ qual_wire q) (l ++ [q]) r (q_id q) Hr') by (done || lia).
  rewrite Hl1, Hp1, <- app_assoc. replace (zlen l + (1 + zlen qs)) with (zlen l + 1 + zlen qs) by lia.
  replace (zlen pre + 24 * (1 + zlen qs)) with (zlen pre + 24 + 24 * zlen qs) by lia. done.
Qed.

(** What is read back: the object that was read into keeps what the bytes do not say. *)
Definition com_read (c0 c : com) : com :=
  Com (_signedBy c) (used c ++ drop (length (used c)) (_qualifiers c0)) (_qualifierCount c)
    (if _signedBy c =? 0 then _signature c0 else _signature c).

Lemma used_ordered c : com_ok c → sorted c → Forall q_ok (used c) ∧ StronglySorted Z.le (0 :: ids (used c)).
Proof.
  intros (_ & Hq & _) Hs. assert (Forall q_ok (used c)) as Hu by by apply Forall_take. split; [done|]. constructor.
  - unfold sorted in Hs. induction Hs as [|x l Hs IH Hx]; constructor; [done|]. eapply list.Forall_impl; [exact Hx|]. lia.
  - unfold ids. apply Forall_fmap. eapply list.Forall_impl; [exact Hu|]. intros q [[? _] _]. done.
Qed.

(** The address and the signature behind the qualifiers. *)
Lemma read_signed b p post by_ sig {B} (f : Z → rd B) (g : Z → bytes → rd B) :
  0 <= by_ < 2 ^ 40 → zlen sig = ZT_C25519_SIGNATURE_LEN →
  repr C b (p ++ be_bytes 5 by_ ++ (if by_ =? 0 then [] else sig) ++ post) →
  (a ← rd_field (zlen p) Address.ZT_ADDRESS_LENGTH;
   by_ ← rd_lift (Address.setTo a Address.ZT_ADDRESS_LENGTH);
   let p := u32 (zlen p + Address.ZT_ADDRESS_LENGTH) in
   if negb (by_ =? 0) then s ← rd_field p ZT_C25519_SIGNATURE_LEN; g by_ s else f by_) b
  = (if by_ =? 0 then f by_ else g by_ sig) b.
Proof.
  intros Hby Hsig R. pose proof R as R'. rewrite app_assoc in R'. destruct (repr_bounds C _ _ R) as (_ & Hb & _).
  rewrite !zlen_app, zlen_be in Hb. pose proof HC as [_ HC2].
  pose proof (zlen_nonneg p). pose proof (zlen_nonneg post). pose proof (zlen_nonneg (if by_ =? 0 then [] else sig)).
  rewrite (rd_bind_got _ _ _ _ (rd_field_at C HC b _ _ _ Address.ZT_ADDRESS_LENGTH R ltac:(by rewrite zlen_be))).
  rewrite address_wire by done. unfold rd_lift at 1. unfold mbind at 1, rd_bind at 1. cbv zeta.
  rewrite u32_small by (unfold uint, Address.ZT_ADDRESS_LENGTH; lia).
  destruct (by_ =? 0); cbn [negb]; [done|].
  apply rd_bind_got. pose proof (rd_field_at C HC b _ _ _ ZT_C25519_SIGNATURE_LEN R' ltac:(done)) as E.
  by rewrite zlen_app, zlen_be in E.
Qed.

Lemma com_deserialize_wire b pre post c0 c :
  com_ok c0 → com_ok c → sorted c → repr C b (pre ++ com_wire c ++ post) →
  deserialize (zlen pre) c0 b = Ok (Got (com_read c0 c, zlen (com_wire c))).
Proof.
  intros Hok0 Hok Hs Hr. pose proof (used_length c Hok) as Hul. destruct (used_ordered c Hok Hs) as [Hqu Hsu].
  pose proof Hok as (_ & _ & Hn & Hsig & Hby). pose proof Hok0 as (Hl0 & _).
  assert (zlen (used c) = _qualifierCount c) as Hz by (unfold zlen; lia).
  unfold ZT_NETWORK_COM_MAX_QUALIFIERS in Hn, Hl0.
  assert (zlen (com_wire c) = 8 + 24 * _qualifierCount c + zlen (if _signedBy c =? 0 then [] else _signature c)) as Hzw.
  { unfold com_wire. rewrite !zlen_app, !zlen_be, zlen_quals_wire, Hz. change (zlen [1]) with 1. lia. }
  destruct (repr_bounds C _ _ Hr) as (_ & Hb & _). rewrite !zlen_app, Hzw in Hb. pose proof HC as [_ HC2].
  pose proof (zlen_nonneg pre). pose proof (zlen_nonneg post).
  pose proof (zlen_nonneg (if _signedBy c =? 0 then [] else _signature c)).
  pose proof Hr as R1. unfold com_wire in R1. rewrite <- !app_assoc in R1. cbn [app] in R1.
  pose proof (rd_index_at C b _ _ _ R1) as E1. change (1 :: ?x) with ([1] ++ x) in R1.
  pose proof R1 as R2. rewrite app_assoc in R2. pose proof R2 as R3. rewrite app_assoc in R3.
  pose proof R3 as R4. rewrite app_assoc in R4.
  pose proof (rd_at C HC b _ 2 _ _ R2 ltac:(lia)) as E2. rewrite Z.mod_small, zlen_app in E2 by lia.
  pose proof (read_quals_wire _ 0 (_signature c0) b (used c) _ [] (_qualifiers c0) 0 R3) as E3.
  rewrite !zlen_nil, !app_nil_l, Hz, Hul, !Z.add_0_l, !zlen_app, zlen_be in E3. change (zlen [1]) with 1 in *.
  unfold deserialize. rewrite (rd_bind_got _ _ _ _ E1). cbn [negb Z.eqb Pos.eqb].
  rewrite (u32_small (zlen pre + 1)) by (unfold uint; lia). rewrite (rd_bind_got _ _ _ _ E2).
  rewrite (u32_small (zlen pre + 1 + 2)) by (unfold uint; lia).
  erewrite rd_bind_got by (apply E3; done || lia). cbn beta iota.
  assert (zlen pre + 1 + Z.of_nat 2 + 24 * _qualifierCount c
    = zlen (((pre ++ [1]) ++ be_bytes 2 (_qualifierCount c)) ++ quals_wire (used c))) as ->.
  { rewrite !zlen_app, zlen_be, zlen_quals_wire, Hz. done. }
  rewrite (read_signed b _ post (_signedBy c) (_signature c) (λ by_, mret (Com by_ _ _ _, _)) (λ by_ s, mret (Com by_ _ _ s, _))) by done.
  rewrite !zlen_app, zlen_be, zlen_quals_wire, Hz. unfold com_read. rewrite Hul, Hzw.
  cbn [_signedBy _qualifiers _qualifierCount _signature]. change (zlen [1]) with 1.
  unfold Address.ZT_ADDRESS_LENGTH, ZT_C25519_SIGNATURE_LEN in *.
  set (x := zlen pre + 1 + Z.of_nat 2 + 24 * _qualifierCount c).
  assert (u32 (x + 5) = x + 5) as -> by (apply u32_small; unfold uint, x; lia).
  revert Hb. destruct (_signedBy c =? 0); rewrite ?Hsig, ?zlen_nil; intros Hb; unfold mret, rd_ret; cbv zeta.
  - rewrite u32_small, zlen_nil by (unfold uint, x; lia). do 2 f_equal. f_equal. unfold x. lia.
  - assert (u32 (x + 5 + 96) = x + 5 + 96) as -> by (apply u32_small; unfold uint, x; lia).
    rewrite u32_small by (unfold uint, x; lia). do 2 f_equal. f_equal. unfold x. lia.
Qed.

(** ** Reading arbitrary bytes *)

(** What holds of every certificate that was read, signed or not: its ids do not decrease. *)
Definition com_shape (c : com) : Prop :=
  zlen (_qualifiers c) = ZT_NETWORK_COM_MAX_QUALIFIERS ∧ 0 <= _qualifierCount c <= ZT_NETWORK_COM_MAX_QUALIFIERS
  ∧ zlen (_signature c) = ZT_C25519_SIGNATURE_LEN ∧ StronglySorted Z.le (ids (used c)).

Lemma safe_lift {A} L (r : cres A) (a : A) (Q : A → Prop) : r = Ok a → Q a → safe C L (rd_lift r) Q.
Proof. intros -> HQ b d _ _. exists (Got a). split; [done|]. by intros ? [= <-]. Qed.

Lemma sorted_snoc (l : list Z) x : StronglySorted Z.le l → Forall (λ y, y <= x) l → StronglySorted Z.le (l ++ [x]).
Proof.
  induction 1 as [|y l Hs IH Hy]; intros Hx; cbn; [by repeat constructor|].
  apply list.Forall_cons in Hx as [Hyx Hx]. constructor; [by apply IH|]. apply Forall_app. split; [done|]. by constructor.
Qed.

Definition bump (c : com) : com := Com (_signedBy c) (_qualifiers c) (_qualifierCount c + 1) (_signature c).

(** One more qualifier keeps the shape when its id is not below the last. *)
Lemma add_qual_shape c q :
  com_shape c → Forall (λ x, x <= q_id q) (ids (used c)) → _qualifierCount c < ZT_NETWORK_COM_MAX_QUALIFIERS →
  ∃ c', set_qual (_qualifierCount c) q c = Ok c'
    ∧ com_shape (bump c') ∧ ids (used (bump c')) = ids (used c) ++ [q_id q].
Proof.
  intros (Hl & Hn & Hsig & Hs) Hq Hlt. unfold set_qual. rewrite Hl.
  rewrite (proj2 (Z.leb_le _ _)), (proj2 (Z.ltb_lt _ _)) by lia. cbn [andb].
  set (c' := Com _ _ _ _). exists c'. split; [done|]. set (c'' := bump c').
  assert (used c'' = used c ++ [q]) as Hu.
  { unfold used, c'', c', bump. cbn [_qualifiers _qualifierCount].
    replace (Z.to_nat (_qualifierCount c + 1)) with (S (Z.to_nat (_qualifierCount c))) by lia.
    erewrite take_S_r by (apply list_lookup_insert_eq; unfold zlen in *; lia). by rewrite take_insert_ge. }
  assert (ids (used c'') = ids (used c) ++ [q_id q]) as Hi by (rewrite Hu; unfold ids; by rewrite fmap_app).
  split; [|done]. split_and!; cbn; [|lia..|done|].
  - unfold zlen in *. by rewrite length_insert.
  - rewrite Hi. by apply sorted_snoc.
Qed.

Lemma read_quals_safe L n : ∀ p last c,
  uint (C + 24) → 0 <= p <= L → L <= C → com_shape c → Forall (λ x, x <= last) (ids (used c)) →
  safe C L (read_quals n p last c) (λ '(c', p'), com_shape c' ∧ 0 <= p' <= L).
Proof.
  induction n as [|n IH]; intros p last c HC24 Hp HL Hc Hlast; [by apply safe_ret|].
  unfold uint in *. cbn [read_quals]. eapply safe_bind; [apply safe_at; [unfold uint|]; lia|]. intros qid _. cbn beta.
  destruct (Z.ltb_spec qid last); [apply safe_invalid|].
  destruct (Z.ltb_spec (_qualifierCount c) ZT_NETWORK_COM_MAX_QUALIFIERS) as [Hlt|]; [|apply safe_invalid].
  rewrite !u32_small by (unfold uint; lia).
  eapply safe_bind; [apply safe_at; [unfold uint|]; lia|]. intros value _.
  eapply safe_bind; [apply safe_at; [unfold uint|]; lia|]. intros maxDelta Hmax. cbn beta in Hmax.
  assert (Forall (λ x, x <= qid) (ids (used c))) as Hle by (eapply list.Forall_impl; [exact Hlast|]; cbn; lia).
  destruct (add_qual_shape c (Qual qid value maxDelta)) as (c' & Hset & Hc' & Hids); [done..|].
  eapply (safe_bind _ _ _ _ (λ x, x = c')); [by eapply safe_lift|]. intros ? ->.
  fold (bump c'). apply IH; [done|lia|done|done|]. rewrite Hids. apply Forall_app. split; [done|]. by repeat constructor; cbn.
Qed.

Lemma com_deserialize_safe L startAt c :
  uint (C + 128) → uint startAt → L <= C → com_ok c →
  safe C L (deserialize startAt c) (λ '(c', n), com_shape c').
Proof.
  intros HC' Hs HL (Hq & _ & Hn & Hsig & _). unfold uint in *. unfold deserialize.
  eapply safe_bind; [by apply safe_index|]. intros t Ht. cbn beta in *. destruct (negb (t =? 1)); [apply safe_invalid|].
  rewrite (u32_small (startAt + 1)) by (unfold uint; lia).
  eapply safe_bind; [apply safe_at; [unfold uint|]; lia|]. intros numq Hnq. cbn beta in *.
  rewrite (u32_small (startAt + 1 + 2)) by (unfold uint; lia).
  eapply safe_bind; [apply read_quals_safe; unfold uint; try lia|].
  - split_and!; cbn; [done|lia..|done|constructor].
  - constructor.
  - intros [c1 p] [(H1 & H2 & H3 & H4) Hp]. unfold Address.ZT_ADDRESS_LENGTH, ZT_C25519_SIGNATURE_LEN in *.
    eapply safe_bind; [apply safe_field; unfold uint; lia|]. intros a [Ha Hp5]. cbn beta.
    destruct (address_setTo_defined a Ha) as [by_ Hby].
    eapply (safe_bind _ _ _ _ (λ _, True)); [by eapply safe_lift|]. intros by' _.
    rewrite (u32_small (p + 5)) by (unfold uint; lia). destruct (negb (by' =? 0)).
    + eapply safe_bind; [apply safe_field; unfold uint; lia|]. intros s [Hlen _]. apply safe_ret.
      exact (conj H1 (conj H2 (conj Hlen H4))).
    + apply safe_ret. exact (conj H1 (conj H2 (conj H3 H4))).
Qed.
End wire.

Lemma used_com_read c0 c : com_ok c → used (com_read c0 c) = used c.
Proof.
  intros Hok. unfold used at 1, com_read. cbn [_qualifiers _qualifierCount].
  apply take_app_length'. symmetry. by rewrite used_length.
Qed.

(** A well-formed certificate survives a packet.  Serialized into any buffer with room
    for it, it is read back into any certificate object with the qualifiers in use, the
    signer and, when there is one, the signature it had, and with the number of bytes it
    takes.  On every buffer, whatever it holds and wherever the reader starts, reading
    returns or throws and stays inside the data and the eight qualifier slots, and the ids
    of a certificate it returns do not decrease. *)
Theorem com_wire_roundtrip C c c0 b d :
  uint C → uint (C + 128) → com_ok c → sorted c → com_ok c0 → repr C b d → zlen d + 296 <= C →
  (∃ b' c' n, serialize C c b = Ok (Ret tt, b') ∧ _l b' = _l b + n
    ∧ deserialize (_l b) c0 b' = Ok (Got (c', n))
    ∧ used c' = used c ∧ _signedBy c' = _signedBy c ∧ (_signedBy c ≠ 0 → _signature c' = _signature c))
  ∧ (∀ startAt, uint startAt →
       ∃ o, deserialize startAt c0 b = Ok o ∧ ∀ c' n, o = Got (c', n) → com_shape c').
Proof.
  intros HC HC' Hok Hs Hok0 Hr Hd. destruct (repr_bounds C _ _ Hr) as (Hl & Hb & _). split.
  - pose proof (com_serialize_emits C HC c Hok ltac:(unfold uint in *; lia) b d Hr) as He.
    pose proof (zlen_com_wire c Hok). rewrite (proj2 (Z.leb_le _ _)) in He by lia.
    destruct He as (b' & E & Hr'). destruct (repr_bounds C _ _ Hr') as (Hl' & _). rewrite zlen_app in Hl'.
    exists b', (com_read c0 c), (zlen (com_wire c)). rewrite Hl. split_and!; [done|lia| |by apply used_com_read|done|].
    + apply (com_deserialize_wire C HC b' d []); [done..|]. by rewrite app_nil_r.
    + intros Hne. cbn. by rewrite (proj2 (Z.eqb_neq _ _)).
  - intros startAt Hst.
    destruct (com_deserialize_safe C HC (zlen d) startAt c0 HC' Hst ltac:(lia) Hok0 b d Hr eq_refl) as (o & E & HQ).
    exists o. split; [done|]. intros c' n ->. exact (HQ _ eq_refl).
Qed.

(** ** Examples *)

(** A member's certificate with one qualifier of the network's own, id 1000, and the
    certificates of two others that also carry id 500. *)
Definition ex_com (own : list qualifier) : com :=
  Com 0x8056c2e21c
    ([Qual 0 1000 360; Qual 1 0x8056c2e21c000001 0; Qual 2 0x1122334455 0xffffffffffffffff] ++ own
     ++ replicate (5 - length own) (Qual 0 0 0)) (3 + zlen own) (memset 96 7).

Definition ex_mine : com := ex_com [Qual 1000 7 0].
Definition ex_agreeing : com := ex_com [Qual 500 99 0; Qual 1000 7 0].
Definition ex_disagreeing : com := ex_com [Qual 500 7 0; Qual 1000 99 0].

Ltac ex_ok := split_and!; try done; repeat (constructor; try (split_and!; done || (cbn; lia))).

Lemma com_empty_ok : com_ok com_empty.
Proof. ex_ok. Qed.
Lemma ex_mine_ok : com_ok ex_mine ∧ sorted ex_mine.
Proof. split; [ex_ok|unfold sorted; cbn; repeat constructor; lia]. Qed.
Lemma ex_agreeing_ok : com_ok ex_agreeing ∧ sorted ex_agreeing.
Proof. split; [ex_ok|unfold sorted; cbn; repeat constructor; lia]. Qed.
Lemma ex_disagreeing_ok : com_ok ex_disagreeing ∧ sorted ex_disagreeing.
Proof. split; [ex_ok|unfold sorted; cbn; repeat constructor; lia]. Qed.

(** The agreement test compares by position.  There are well-formed certificates, the
    other one with a qualifier more than this one, which agree as documented and are
    rejected, and others which differ in a qualifier of the same id and are accepted: the
    loop finds the other's qualifier and then reads the one at its own index. *)
Lemma com_agreesWith_extra :
  ∃ c good bad, (com_ok c ∧ sorted c) ∧ (com_ok good ∧ sorted good) ∧ (com_ok bad ∧ sorted bad)
  ∧ (agreesWith c good = Ok false ∧ agrees_documented c good)
  ∧ (agreesWith c bad = Ok true ∧ ~ agrees_documented c bad).
Proof.
  exists ex_mine, ex_agreeing, ex_disagreeing.
  split; [apply ex_mine_ok|]. split; [apply ex_agreeing_ok|]. split; [apply ex_disagreeing_ok|]. split.
  - split; [by vm_compute|]. split; [done|]. intros i Hi. change (_qualifierCount ex_mine) with 4 in Hi.
    assert (i = 0 ∨ i = 1 ∨ i = 2 ∨ i = 3) as [-> | [-> | [-> | -> ]]] by lia.
    1: exists 0. 2: exists 1. 3: exists 2. 4: exists 4. all: split_and!; done.
  - split; [by vm_compute|]. intros [_ H]. destruct (H 3) as (j & Hj & Hid & Hd); [done|]. change (_qualifierCount ex_disagreeing) with 5 in Hj.
    assert (j = 0 ∨ j = 1 ∨ j = 2 ∨ j = 3 ∨ j = 4) as [-> | [-> | [-> | [-> | -> ]]]] by lia; vm_compute in Hid, Hd; congruence.
Qed.

Lemma com_setQualifier_witness :
  ∃ c', setQualifier 500 99 0 ex_mine = Ok c' ∧ sorted c' ∧ _signedBy c' = 0
    ∧ find_qual 500 (used c') = Some (Qual 500 99 0) ∧ find_qual 1000 (used c') = Some (Qual 1000 7 0).
Proof.
  destruct (com_setQualifier 500 99 0 ex_mine) as (c' & E & _ & Hs & Hby & Hf).
  - apply ex_mine_ok.
  - apply ex_mine_ok.
  - repeat split; cbn; lia.
  - exists c'. split_and!; [done..|rewrite Hf; done|rewrite Hf; done].
Defined.

Lemma com_agreesWith_witness :
  agreesWith ex_mine ex_mine = Ok true ∧ agrees_documented ex_mine ex_mine.
Proof.
  destruct ex_mine_ok as [Hok Hs].
  destruct (com_agreesWith ex_mine ex_mine Hok Hok Hs Hs) as (b & E & _ & Hdoc).
  assert (b = true) as -> by (vm_compute in E; congruence). split; [exact E|]. apply Hdoc; [|done].
  intros i Hi. split; [lia|done].
Defined.

Lemma com_wire_roundtrip_witness :
  ∃ b' c' n, serialize 512 ex_mine (Buf 2 (memset 512 9)) = Ok (Ret tt, b')
    ∧ deserialize 2 com_empty b' = Ok (Got (c', n)) ∧ used c' = used ex_mine.
Proof.
  destruct ex_mine_ok as [Hok Hs].
  assert (repr 512 (Buf 2 (memset 512 9)) [9; 9]) as Hr by (exists (memset 510 9); vm_compute; auto).
  destruct (com_wire_roundtrip 512 ex_mine com_empty (Buf 2 (memset 512 9)) [9; 9]
    ltac:(unfold uint; lia) ltac:(unfold uint; lia) Hok Hs com_empty_ok Hr ltac:(vm_compute; discriminate))
    as [(b' & c' & n & E & _ & E' & Hu & _) _].
  exists b', c', n. split; [exact E|]. split; [exact E'|exact Hu].
Defined.
