(* ===== verification/Membership.v ===== *)
(** * Remote credentials of a member (zto/node: Membership.hpp, Membership.cpp)

    What a node knows of another member of a network: its certificate of membership and the tags,
    capabilities and certificates of ownership it presented.  The three kinds are kept in the same way, in
    an array of slots and an array of pointers to them that is sorted by id; the operations are modelled
    once, for any type of credential.  Signatures are verified elsewhere; the result of [verify] is an argument. *)

From Stdlib Require Import ZArith Lia Sorted Permutation.
From S2P Require Import Prelude Addr Buffer Wire Com.
From stdpp Require Import base numbers list option sorting gmap.
Open Scope Z_scope.

Definition ZT_MEMBERSHIP_CRED_ID_UNUSED : Z := 0xffffffffffffffff.
Definition ZT_MAX_NETWORK_TAGS : nat := 128.
Definition ZT_MAX_NETWORK_CAPABILITIES : nat := 128.
Definition ZT_MAX_CERTIFICATES_OF_OWNERSHIP : nat := 4.

Inductive AddCredentialResult := ADD_REJECTED | ADD_ACCEPTED_NEW | ADD_ACCEPTED_REDUNDANT | ADD_DEFERRED_FOR_WHOIS.

#[export] Instance AddCredentialResult_eq_dec : EqDecision AddCredentialResult.
Proof. solve_decision. Defined.

(** The part of a network's configuration that credentials are checked against. *)
Record cred_conf := CredConf { nconf_timestamp : Z; credentialTimeMaxDelta : Z }.

(** What the template needs of a type of credential; [same] is its [operator==]. *)
Class Credential (T : Type) := {
  cred_timestamp : T → Z;
  cred_id : T → Z;
  cred_same : T → T → bool;
  cred_blank : T;
}.

(** [std::sort] of the pointers by the id of what they point to; where the slots of two pointers have the
    same id their order is not specified. *)
Class StdSort := std_sort : (nat → Z) → list nat → list nat.

Class StdSortOk `{StdSort} : Prop := {
  std_sort_perm key ps : std_sort key ps ≡ₚ ps;
  std_sort_sorted key ps : StronglySorted (λ p q, key p <= key q) (std_sort key ps);
}.

(** [std::lower_bound] on a range of [len] elements from [first] on; [at_ i] is the key of the element [i]. *)
Fixpoint lower_bound (at_ : nat → cres Z) (fuel : nat) (id : Z) (first len : nat) : cres nat :=
  if decide (len = 0%nat) then Ok first
  else match fuel with
  | O => Undef OutOfFuel
  | S fuel' =>
      let half := Nat.div2 len in
      k ← at_ (first + half)%nat;
      if k <? id then lower_bound at_ fuel' id (first + half + 1)%nat (len - half - 1)%nat
      else lower_bound at_ fuel' id first half
  end.

Section store.
Context {T : Type} `{Credential T} `{StdSort}.

Record remote := Remote { r_id : Z; r_lastReceived : Z; r_revocationThreshold : Z; r_credential : T }.

(** The slots ([_tagMem] and the like) and the pointers to them ([_remoteTags]). *)
Record store := Store { slots : list remote; ptrs : list nat }.

Definition unused : remote := Remote ZT_MEMBERSHIP_CRED_ID_UNUSED 0 0 cred_blank.

Definition new_store (n : nat) : store := Store (replicate n unused) (seq 0 n).

Definition slot (s : store) (p : nat) : cres remote :=
  match slots s !! p with Some r => Ok r | None => Undef OutOfBounds end.

Definition pointer (s : store) (i : nat) : cres nat :=
  match ptrs s !! i with Some p => Ok p | None => Undef OutOfBounds end.

Definition set_slot (p : nat) (r : remote) (s : store) : store := Store (<[p := r]> (slots s)) (ptrs s).

(** The search at the start of the operations: the slot with the id, if there is one. *)
Definition find_slot (id : Z) (s : store) : cres (option nat) :=
  let n := length (ptrs s) in
  i ← lower_bound (λ i, p ← pointer s i; r ← slot s p; Ok (r_id r)) n id 0 n;
  if decide (i = n) then Ok None
  else
    p ← pointer s i;
    r ← slot s p;
    Ok (if r_id r =? id then Some p else None).

Definition isCredentialTimestampValid (nconf : cred_conf) (r : remote) : bool :=
  if r_lastReceived r =? 0 then false
  else
    let ts := cred_timestamp (r_credential r) in
    let nts := nconf_timestamp nconf in
    ((if nts <=? ts then ts - nts else nts - ts) <=? credentialTimeMaxDelta nconf) && (r_revocationThreshold r <? ts).

(** The loop of [_newTag]: the first unused slot, or the last of those that were received longest ago. *)
Fixpoint pick_slot (s : store) (ps : list nat) (t : option nat) (minlr : Z) : cres (option nat) :=
  match ps with
  | [] => Ok t
  | p :: ps' =>
      r ← slot s p;
      if r_id r =? ZT_MEMBERSHIP_CRED_ID_UNUSED then Ok (Some p)
      else if r_lastReceived r <=? minlr then pick_slot s ps' (Some p) (r_lastReceived r)
      else pick_slot s ps' t minlr
  end.

(** [_newTag], [_newCapability], [_newCoo] *)
Definition new_slot (id : Z) (s : store) : cres (option nat * store) :=
  t ← pick_slot s (ptrs s) None 0xffffffffffffffff;
  let s := match t with Some p => set_slot p (Remote id 0 0 cred_blank) s | None => s end in
  Ok (t, Store (slots s) (std_sort (λ p, match slots s !! p with Some r => r_id r | None => 0 end) (ptrs s))).

(** The pointer [have], made if it is null. *)
Definition have_or_new (have : option nat) (id : Z) (s : store) : cres (nat * store) :=
  match have with
  | Some p => Ok (p, s)
  | None =>
      '(t, s) ← new_slot id s;
      match t with Some p => Ok (p, s) | None => Undef NullPointer end
  end.

(** [addCredential] of a tag, a capability or a certificate of ownership. *)
Definition addCredential (nconf : cred_conf) (verify : T → Z) (now : Z) (c : T) (s : store) : cres (AddCredentialResult * store) :=
  have ← find_slot (cred_id c) s;
  early ← (match have with
    | Some p =>
        r ← slot s p;
        Ok (if negb (isCredentialTimestampValid nconf r) || (cred_timestamp c <? cred_timestamp (r_credential r)) then Some ADD_REJECTED
            else if cred_same (r_credential r) c then Some ADD_ACCEPTED_REDUNDANT
            else None)
    | None => Ok None
    end);
  match early with
  | Some a => Ok (a, s)
  | None =>
      let v := verify c in
      if v =? 0 then
        '(p, s) ← have_or_new have (cred_id c) s;
        r ← slot s p;
        Ok (ADD_ACCEPTED_NEW, set_slot p (Remote (r_id r) now (r_revocationThreshold r) c) s)
      else if v =? 1 then Ok (ADD_DEFERRED_FOR_WHOIS, s)
      else Ok (ADD_REJECTED, s)
  end.

(** [_revokeTag], [_revokeCap], [_revokeCoo] *)
Definition revoke (credentialId threshold now : Z) (s : store) : cres (bool * store) :=
  have ← find_slot credentialId s;
  '(p, s) ← have_or_new have credentialId s;
  r ← slot s p;
  if r_revocationThreshold r <? threshold then
    Ok (true, set_slot p (Remote (r_id r) now threshold (r_credential r)) s)
  else Ok (false, s).

(** [getTag] *)
Definition getTag (nconf : cred_conf) (id : Z) (s : store) : cres (option T) :=
  have ← find_slot id s;
  match have with
  | Some p =>
      r ← slot s p;
      Ok (if negb (r_lastReceived r =? 0) && isCredentialTimestampValid nconf r then Some (r_credential r) else None)
  | None => Ok None
  end.

(** The credentials an iterator returns one after the other. *)
Fixpoint iterate (nconf : cred_conf) (s : store) (ps : list nat) : cres (list T) :=
  match ps with
  | [] => Ok []
  | p :: ps' =>
      r ← slot s p;
      if r_id r =? ZT_MEMBERSHIP_CRED_ID_UNUSED then Ok []
      else
        cs ← iterate nconf s ps';
        Ok (if isCredentialTimestampValid nconf r then r_credential r :: cs else cs)
  end.

Definition valid_credentials (nconf : cred_conf) (s : store) : cres (list T) := iterate nconf s (ptrs s).
End store.
Arguments remote T : clear implicits.
Arguments store T : clear implicits.

(** ** The invariant *)

Lemma sorted_lookup {A} (R : A → A → Prop) l i j x y :
  StronglySorted R l → l !! i = Some x → l !! j = Some y → (i < j)%nat → R x y.
Proof.
  intros Hs. revert i j. induction Hs as [|a l _ IH Ha]; intros i j Hi Hj Hij; [done|]. destruct j as [|j]; [lia|]. destruct i as [|i].
  - injection Hi as ->. rewrite Forall_lookup in Ha. exact (Ha j y Hj).
  - exact (IH i j Hi Hj ltac:(lia)).
Qed.

Lemma sorted_impl {A} (R R' : A → A → Prop) l : (∀ x y, R x y → R' x y) → StronglySorted R l → StronglySorted R' l.
Proof. intros HR. induction 1 as [|x l _ IH Hx]; constructor; [done|]. eapply Forall_impl; [exact Hx|]. intros y. apply HR. Qed.

Lemma lower_bound_ok (at_ : nat → cres Z) (ks : nat → Z) n id fuel : (∀ i, (i < n)%nat → at_ i = Ok (ks i)) → (∀ i j, (i < j < n)%nat → ks i <= ks j) →
  ∀ first len, (len <= fuel)%nat → (first + len <= n)%nat →
  ∃ i, lower_bound at_ fuel id first len = Ok i ∧ (first <= i <= first + len)%nat ∧
    (∀ j, (first <= j < i)%nat → ks j < id) ∧ (∀ j, (i <= j < first + len)%nat → id <= ks j).
Proof.
  intros Hat Hs. induction fuel as [|fuel IH]; intros first len Hf Hn; cbn [lower_bound]; case_decide as E; try lia.
  1-2: exists first; split_and!; [done|lia|lia|intros; lia|intros; lia].
  pose proof (Nat.lt_div2 len ltac:(lia)) as Hd. set (half := Nat.div2 len) in *. rewrite Hat by lia. cbn [mbind cres_bind].
  destruct (Z.ltb_spec (ks (first + half)%nat) id) as [Hlt|Hge].
  - destruct (IH (first + half + 1)%nat (len - half - 1)%nat ltac:(lia) ltac:(lia)) as (i & -> & Hi & Hlo & Hhi). exists i.
    split_and!; [done|lia|lia| |intros j Hj; apply Hhi; lia]. intros j Hj. destruct (decide (first + half + 1 <= j)%nat); [apply Hlo; lia|].
    destruct (decide (j = first + half)%nat) as [->|]; [done|]. pose proof (Hs j (first + half)%nat ltac:(lia)). lia.
  - destruct (IH first half ltac:(lia) ltac:(lia)) as (i & -> & Hi & Hlo & Hhi). exists i. split_and!; [done|lia|lia|done|]. intros j Hj.
    destruct (decide (j < first + half)%nat); [apply Hhi; lia|]. destruct (decide (j = first + half)%nat) as [->|]; [done|]. pose proof (Hs (first + half)%nat j ltac:(lia)). lia.
Qed.

Section invariant.
Context {T : Type} `{Credential T} `{StdSortOk}.
Implicit Types (s : store T) (r : remote T).

Definition key s (p : nat) : Z := match slots s !! p with Some r => r_id r | None => 0 end.

Definition distinct s : Prop := ∀ p q r r', slots s !! p = Some r → slots s !! q = Some r' → r_id r = r_id r' →
  r_id r ≠ ZT_MEMBERSHIP_CRED_ID_UNUSED → p = q.

Record store_ok (n : nat) s : Prop := {
  ok_slots : length (slots s) = n;
  ok_ptrs : ptrs s ≡ₚ seq 0 n;
  ok_sorted : StronglySorted (λ p q, key s p <= key s q) (ptrs s);
  ok_range : ∀ p r, slots s !! p = Some r → 0 <= r_id r <= ZT_MEMBERSHIP_CRED_ID_UNUSED ∧ 0 <= r_lastReceived r <= ZT_MEMBERSHIP_CRED_ID_UNUSED;
  ok_distinct : distinct s;
}.

Lemma new_store_ok n : store_ok n (new_store n).
Proof.
  assert (∀ p r, slots (new_store n) !! p = Some r → r = unused) as Hu by (intros p r [-> _]%lookup_replicate; done).
  split; [apply length_replicate|done| | |].
  - cbn [ptrs new_store]. assert (∀ p, In p (seq 0 n) → key (new_store n) p = ZT_MEMBERSHIP_CRED_ID_UNUSED) as Hk.
    { intros p Hp%in_seq. unfold key. cbn [slots new_store]. by rewrite lookup_replicate_2 by lia. }
    induction (seq 0 n) as [|p l IH]; [constructor|]. constructor; [apply IH; intros; apply Hk; by right|].
    apply List.Forall_forall. intros q Hq. rewrite !Hk; [done|by right|by left].
  - intros p r ->%Hu. done.
  - intros p q r r' ->%Hu ->%Hu _ Hn. by exfalso.
Qed.

Lemma ok_length n s : store_ok n s → length (ptrs s) = n.
Proof. intros [_ Hp _ _ _]. by rewrite Hp, length_seq. Qed.

Lemma ok_pointer n s i : store_ok n s → (i < n)%nat → ∃ p r, ptrs s !! i = Some p ∧ slots s !! p = Some r.
Proof.
  intros Hok Hi. destruct (lookup_lt_is_Some_2 (ptrs s) i) as [p Hp]; [by rewrite (ok_length n s Hok)|]. destruct Hok as [Hl Hperm _ _ _].
  assert (p ∈ ptrs s) as Hin by (by eapply list_elem_of_lookup_2). rewrite Hperm, elem_of_seq in Hin.
  destruct (lookup_lt_is_Some_2 (slots s) p) as [r Hr]; [lia|]. by exists p, r.
Qed.

Lemma ok_points n s p r : store_ok n s → slots s !! p = Some r → ∃ i, ptrs s !! i = Some p.
Proof.
  intros [Hl Hperm _ _ _] Hr%lookup_lt_Some. assert (p ∈ ptrs s) as Hin by (rewrite Hperm, elem_of_seq; lia).
  by apply list_elem_of_lookup in Hin.
Qed.

(** The binary search finds the slot with the id. *)
Lemma find_slot_ok n s id : store_ok n s →
  ∃ o, find_slot id s = Ok o ∧
    match o with
    | Some p => ∃ r, slots s !! p = Some r ∧ r_id r = id
    | None => ∀ p r, slots s !! p = Some r → r_id r ≠ id
    end.
Proof.
  intros Hok. pose proof (ok_length n s Hok) as Hl. unfold find_slot. rewrite Hl.
  set (ks := λ i, match ptrs s !! i with Some p => key s p | None => 0 end).
  destruct (lower_bound_ok (λ i, p ← pointer s i; r ← slot s p; Ok (r_id r)) ks n id n) with (first := 0%nat) (len := n) as (i & -> & Hi & Hlo & Hhi); [| |lia|lia|].
  { intros i Hi. destruct (ok_pointer n s i Hok Hi) as (p & r & Hp & Hr). unfold ks, pointer, slot, key. rewrite Hp. cbn [mbind cres_bind]. by rewrite Hr. }
  { intros i j Hij. destruct (ok_pointer n s i Hok ltac:(lia)) as (p & r & Hp & Hr). destruct (ok_pointer n s j Hok ltac:(lia)) as (q & r' & Hq & Hr').
    unfold ks. rewrite Hp, Hq. exact (sorted_lookup _ _ i j p q (ok_sorted n s Hok) Hp Hq ltac:(lia)). }
  assert (∀ j p, ptrs s !! j = Some p → ks j = key s p) as Hks by (intros j p Hj; unfold ks; by rewrite Hj). cbn [mbind cres_bind].
  assert (∀ p r, slots s !! p = Some r → r_id r = id → ∃ j, ptrs s !! j = Some p ∧ (i <= j < n)%nat) as Hat.
  { intros p r Hr Hid. destruct (ok_points n s p r Hok Hr) as [j Hj]. exists j. split; [done|]. split; [|apply lookup_lt_Some in Hj; lia].
    destruct (decide (j < i)%nat); [|lia]. pose proof (Hlo j ltac:(lia)) as Hk. rewrite (Hks j p Hj) in Hk. unfold key in Hk. rewrite Hr in Hk. lia. }
  case_decide as E.
  - exists None. split; [done|]. intros p r Hr Hid. destruct (Hat p r Hr Hid) as (j & _ & Hj). lia.
  - destruct (ok_pointer n s i Hok ltac:(lia)) as (p & r & Hp & Hr). unfold pointer, slot. rewrite Hp. cbn [mbind cres_bind]. rewrite Hr. cbn [mbind cres_bind].
    destruct (Z.eqb_spec (r_id r) id) as [Hid|Hne]; [exists (Some p); split; [done|]; by exists r|]. exists None. split; [done|]. intros q r' Hr' Hid.
    destruct (Hat q r' Hr' Hid) as (j & Hj & Hij). pose proof (Hhi i ltac:(lia)) as Hk. rewrite (Hks i p Hp) in Hk. unfold key in Hk. rewrite Hr in Hk.
    destruct (decide (i = j)) as [->|]; [rewrite Hp in Hj; injection Hj as <-; rewrite Hr in Hr'; by injection Hr' as <-|].
    pose proof (sorted_lookup _ _ i j p q (ok_sorted n s Hok) Hp Hj ltac:(lia)) as Hs. cbn beta in Hs. unfold key in Hs. rewrite Hr, Hr' in Hs. lia.
Qed.

(** The loop picks an unused slot if there is one, and otherwise one received longest ago. *)
Definition picked s (ps : list nat) (p : nat) : Prop :=
  ∃ r, slots s !! p = Some r ∧ p ∈ ps ∧
    (r_id r = ZT_MEMBERSHIP_CRED_ID_UNUSED
     ∨ ∀ q r', q ∈ ps → slots s !! q = Some r' → r_id r' ≠ ZT_MEMBERSHIP_CRED_ID_UNUSED ∧ r_lastReceived r <= r_lastReceived r').

Lemma pick_slot_ok n s : store_ok n s → ∀ ps seen t minlr, (∀ p, p ∈ ps → is_Some (slots s !! p)) →
  (match t with
   | Some p => ∃ r, slots s !! p = Some r ∧ p ∈ seen ∧ minlr = r_lastReceived r ∧
       ∀ q r', q ∈ seen → slots s !! q = Some r' → r_id r' ≠ ZT_MEMBERSHIP_CRED_ID_UNUSED ∧ r_lastReceived r <= r_lastReceived r'
   | None => seen = [] ∧ minlr = ZT_MEMBERSHIP_CRED_ID_UNUSED
   end) →
  ∃ o, pick_slot s ps t minlr = Ok o ∧ match o with Some p => picked s (seen ++ ps) p | None => seen ++ ps = [] end.
Proof.
  intros Hok. induction ps as [|p ps IH]; intros seen t minlr Hps Ht; cbn [pick_slot].
  - exists t. rewrite app_nil_r. split; [done|]. destruct t as [p|]; [|by destruct Ht]. destruct Ht as (r & Hr & Hin & _ & Hmin). exists r. by split_and!; [| |right].
  - destruct (Hps p ltac:(left)) as [r Hr]. unfold slot at 1. rewrite Hr. cbn [mbind cres_bind]. destruct (Z.eqb_spec (r_id r) ZT_MEMBERSHIP_CRED_ID_UNUSED) as [Hu|Hu].
    { exists (Some p). split; [done|]. exists r. split_and!; [done|set_solver|by left]. }
    replace (seen ++ p :: ps) with ((seen ++ [p]) ++ ps) by (by rewrite <- app_assoc). assert (∀ q, q ∈ ps → is_Some (slots s !! q)) as Hps' by set_solver.
    destruct (ok_range n s Hok p r Hr) as [_ Hlr]. destruct (Z.leb_spec (r_lastReceived r) minlr) as [Hle|Hgt]; apply IH; try done.
    + exists r. split_and!; [done|set_solver|done|]. intros q r' [Hq| ->%list_elem_of_singleton]%elem_of_app Hr'; [|rewrite Hr in Hr'; injection Hr' as <-; by split].
      destruct t as [p'|]; [|destruct Ht as [-> _]; set_solver]. destruct Ht as (r0 & _ & _ & -> & Hmin). destruct (Hmin q r' Hq Hr'). split; [done|lia].
    + destruct t as [p'|]; [|destruct Ht; lia]. destruct Ht as (r0 & Hr0 & Hin & -> & Hmin). exists r0. split_and!; [done|set_solver|done|].
      intros q r' [Hq| ->%list_elem_of_singleton]%elem_of_app Hr'; [by apply (Hmin q)|]. rewrite Hr in Hr'. injection Hr' as <-. split; [done|lia].
Qed.

Lemma find_new n s id : store_ok n s → (0 < n)%nat → 0 <= id < ZT_MEMBERSHIP_CRED_ID_UNUSED → (∀ p r, slots s !! p = Some r → r_id r ≠ id) →
  ∃ p s', new_slot id s = Ok (Some p, s') ∧ store_ok n s' ∧ slots s' = <[p := Remote id 0 0 cred_blank]> (slots s) ∧ picked s (ptrs s) p.
Proof.
  intros Hok Hn Hid Hfree. unfold new_slot.
  destruct (pick_slot_ok n s Hok (ptrs s) [] None 0xffffffffffffffff) as (o & -> & Ho); [|done|].
  { intros p [i Hi]%list_elem_of_lookup. destruct (ok_pointer n s i Hok) as (q & r & Hq & Hr); [apply lookup_lt_Some in Hi; by rewrite (ok_length n s Hok) in Hi|]. rewrite Hi in Hq. injection Hq as <-. by rewrite Hr. }
  cbn [app] in Ho. destruct o as [p|]; [|pose proof (ok_length n s Hok) as Hl; rewrite Ho in Hl; cbn in Hl; lia]. cbn [mbind cres_bind].
  eexists p, _. split; [done|]. split; [|done]. destruct Hok as [Hl Hp Hs Hr Hd].
  set (s1 := set_slot p _ s). assert (∀ q r, slots s1 !! q = Some r → (q = p ∧ r = Remote id 0 0 cred_blank) ∨ (q ≠ p ∧ slots s !! q = Some r)) as Hs1.
  { intros q r Hq. cbn [slots s1 set_slot] in Hq. apply list_lookup_insert_Some in Hq as [(-> & <- & _)|[Hne Hq]]; [by left|right; split; [congruence|done]]. }
  split.
  - cbn. by rewrite length_insert.
  - cbn [ptrs]. rewrite std_sort_perm. done.
  - exact (std_sort_sorted _ _).
  - intros q r [[-> ->]|[_ Hq]]%Hs1; [cbn; lia|by apply (Hr q)].
  - intros q q' r r' [[-> ->]|[Hq1 Hq]]%Hs1 [[-> ->]|[Hq1' Hq']]%Hs1 He Hu; [done|cbn in He; by destruct (Hfree q' r' Hq')|cbn in He; by destruct (Hfree q r Hq)|by apply (Hd q q' r r')].
Qed.

Lemma set_slot_ok n s p r r' : store_ok n s → slots s !! p = Some r → r_id r' = r_id r → 0 <= r_lastReceived r' <= ZT_MEMBERSHIP_CRED_ID_UNUSED →
  store_ok n (set_slot p r' s).
Proof.
  intros [Hl Hp Hs Hr Hd] Hpr Hid Hlr.
  assert (∀ q x, slots (set_slot p r' s) !! q = Some x → ∃ y, slots s !! q = Some y ∧ r_id x = r_id y ∧ (x = y ∨ x = r')) as Hset.
  { intros q x Hq. cbn [slots set_slot] in Hq. apply list_lookup_insert_Some in Hq as [(-> & <- & _)|[_ Hq]]; [exists r|exists x]; split_and!; auto. }
  split; [cbn; by rewrite length_insert|done| | |].
  - cbn [ptrs set_slot]. assert (∀ q, key (set_slot p r' s) q = key s q) as Hk; [|revert Hs; apply sorted_impl; intros x y; by rewrite !Hk].
    intros q. unfold key. cbn [slots set_slot]. destruct (decide (q = p)) as [->|]; [|by rewrite list_lookup_insert_ne].
    rewrite list_lookup_insert_eq by (by apply lookup_lt_Some in Hpr). by rewrite Hpr.
  - intros q x (y & Hy & Hxy & [->| ->])%Hset; [by apply (Hr q)|]. split; [|done]. rewrite Hxy. by apply (Hr q).
  - intros q q' x x' (y & Hy & Hxy & _)%Hset (y' & Hy' & Hxy' & _)%Hset He Hu. apply (Hd q q' y y'); congruence.
Qed.

(** ** The store as a finite map *)

Definition entry_of r : option (Z * remote T) := if r_id r =? ZT_MEMBERSHIP_CRED_ID_UNUSED then None else Some (r_id r, r).
Definition contents s : gmap Z (remote T) := list_to_map (omap entry_of (slots s)).

Lemma entry_of_Some r e : entry_of r = Some e ↔ r_id r ≠ ZT_MEMBERSHIP_CRED_ID_UNUSED ∧ e = (r_id r, r).
Proof. unfold entry_of. destruct (Z.eqb_spec (r_id r) ZT_MEMBERSHIP_CRED_ID_UNUSED); naive_solver. Qed.

Lemma entries_nodup (l : list (remote T)) : distinct (Store l []) → NoDup (omap entry_of l).*1.
Proof.
  induction l as [|r l IH]; intros Hd; [constructor|]. assert (distinct (Store l [])) as Hd' by (intros p q x y Hp Hq He Hu; by injection (Hd (S p) (S q) x y Hp Hq He Hu)).
  cbn [omap list_omap]. destruct (entry_of r) as [e|] eqn:E; [|by apply IH]. apply entry_of_Some in E as [Hu ->]. cbn [fmap list_fmap]. constructor; [|by apply IH].
  intros ([i y] & Hi & (x & Hx & [Hux Hxe]%entry_of_Some)%list_elem_of_omap)%list_elem_of_fmap. injection Hxe as -> ->. cbn in Hi.
  apply list_elem_of_lookup in Hx as [q Hq]. pose proof (Hd 0%nat (S q) r x eq_refl Hq Hi Hu). done.
Qed.

Lemma contents_lookup s id r : distinct s → contents s !! id = Some r ↔ id ≠ ZT_MEMBERSHIP_CRED_ID_UNUSED ∧ r_id r = id ∧ ∃ p, slots s !! p = Some r.
Proof.
  intros Hd. unfold contents. rewrite <- elem_of_list_to_map by (by apply entries_nodup). rewrite list_elem_of_omap. split.
  - intros (x & [p Hp]%list_elem_of_lookup & [Hu [= -> ->]]%entry_of_Some). eauto.
  - intros (Hu & <- & p & Hp). exists r. split; [by eapply list_elem_of_lookup_2|]. by apply entry_of_Some.
Qed.

Lemma contents_None s id : distinct s → contents s !! id = None → id ≠ ZT_MEMBERSHIP_CRED_ID_UNUSED → ∀ p r, slots s !! p = Some r → r_id r ≠ id.
Proof. intros Hd Hn Hu p r Hp <-. assert (contents s !! r_id r = Some r) as E by (apply contents_lookup; eauto). by rewrite E in Hn. Qed.

Lemma contents_size s : distinct s → size (contents s) = length (omap entry_of (slots s)).
Proof. intros Hd. apply map_size_list_to_map. by apply entries_nodup. Qed.

Lemma omap_entries_le (l : list (remote T)) : (length (omap entry_of l) <= length l)%nat.
Proof. induction l as [|r l IH]; [done|]. cbn [omap list_omap]. destruct (entry_of r); cbn; lia. Qed.

Lemma contents_free n s p r : store_ok n s → slots s !! p = Some r → r_id r = ZT_MEMBERSHIP_CRED_ID_UNUSED → (size (contents s) < n)%nat.
Proof.
  intros [Hl _ _ _ Hd] Hp Hu. rewrite contents_size, <- Hl by done. clear - Hp Hu. revert p Hp. induction (slots s) as [|x l IH]; intros p Hp; [done|].
  pose proof (omap_entries_le l). cbn [omap list_omap]. destruct p as [|p].
  - injection Hp as ->. assert (entry_of r = None) as -> by (unfold entry_of; by rewrite Hu). cbn. lia.
  - specialize (IH p Hp). destruct (entry_of x); cbn; lia.
Qed.

Lemma contents_full n s : store_ok n s → (∀ p r, slots s !! p = Some r → r_id r ≠ ZT_MEMBERSHIP_CRED_ID_UNUSED) → size (contents s) = n.
Proof.
  intros [Hl _ _ _ Hd] Hu. rewrite contents_size, <- Hl by done. clear - Hu. induction (slots s) as [|x l IH]; [done|].
  assert (entry_of x = Some (r_id x, x)) as E by (apply entry_of_Some; split; [exact (Hu 0%nat x eq_refl)|done]). cbn [omap list_omap]. rewrite E. cbn. f_equal. apply IH. intros p r. exact (Hu (S p) r).
Qed.

Lemma contents_set s s' p r r' : distinct s → distinct s' → slots s !! p = Some r → slots s' = <[p := r']> (slots s) → r_id r' ≠ ZT_MEMBERSHIP_CRED_ID_UNUSED →
  contents s' = <[r_id r' := r']> (if r_id r =? ZT_MEMBERSHIP_CRED_ID_UNUSED then contents s else delete (r_id r) (contents s)).
Proof.
  intros Hd Hd' Hp Es Hu. assert (∀ q x, slots s' !! q = Some x ↔ (q = p ∧ x = r') ∨ (q ≠ p ∧ slots s !! q = Some x)) as Hs'.
  { intros q x. rewrite Es, list_lookup_insert_Some. apply lookup_lt_Some in Hp. naive_solver. }
  assert (∀ i x, r_id r' ≠ i → contents s' !! i = Some x ↔ i ≠ r_id r ∧ contents s !! i = Some x) as Hother.
  { intros i x Hi. rewrite !contents_lookup by done. split.
    - intros (Hui & Hxi & q & [[-> ->]|[Hq Hx]]%Hs'); [done|]. split; [|by eauto]. intros ->. apply Hq, (Hd q p x r); congruence.
    - intros (Hne & Hui & Hxi & q & Hx). split_and!; [done..|]. exists q. apply Hs'. right. split; [|done]. intros ->. congruence. }
  apply map_eq. intros i. apply option_eq. intros x. destruct (decide (r_id r' = i)) as [<-|Hi].
  - rewrite lookup_insert_eq, contents_lookup by done. split; [|intros [= <-]; split_and!; [done..|exists p; apply Hs'; by left]].
    intros (_ & Hx & q & [[_ ->]|[Hq Hxq]]%Hs'); [done|]. exfalso. apply Hq, (Hd' q p x r'); [apply Hs'; by right|apply Hs'; by left|done|congruence].
  - rewrite lookup_insert_ne by done. rewrite Hother by done. destruct (Z.eqb_spec (r_id r) ZT_MEMBERSHIP_CRED_ID_UNUSED) as [Hun|Hun].
    + split; [by intros [_ ?]|]. intros Hx. split; [|done]. apply contents_lookup in Hx as (? & _); [congruence|done].
    + rewrite lookup_delete_Some. naive_solver.
Qed.

(** A new entry takes a free place, or that of an entry received longest ago. *)
Definition inserted (n : nat) (m : gmap Z (remote T)) (id : Z) r (m' : gmap Z (remote T)) : Prop :=
  ((size m < n)%nat ∧ m' = <[id := r]> m)
  ∨ (size m = n ∧ ∃ v rv, m !! v = Some rv ∧ (∀ w rw, m !! w = Some rw → r_lastReceived rv <= r_lastReceived rw) ∧ m' = <[id := r]> (delete v m)).

Lemma picked_inserted n s s' p r' : store_ok n s → store_ok n s' → picked s (ptrs s) p → slots s' = <[p := r']> (slots s) →
  r_id r' ≠ ZT_MEMBERSHIP_CRED_ID_UNUSED → inserted n (contents s) (r_id r') r' (contents s').
Proof.
  intros Hok Hok' (r & Hr & Hin & Hp) Es Hu. rewrite (contents_set s s' p r r' (ok_distinct n s Hok) (ok_distinct n s' Hok') Hr Es Hu).
  destruct Hp as [Hun|Hmin]; [rewrite (proj2 (Z.eqb_eq _ _) Hun); left; split; [by apply (contents_free n s p r)|done]|].
  assert (∀ q x, slots s !! q = Some x → r_id x ≠ ZT_MEMBERSHIP_CRED_ID_UNUSED ∧ r_lastReceived r <= r_lastReceived x) as Hall.
  { intros q x Hx. destruct (ok_points n s q x Hok Hx) as [i Hi]. apply (Hmin q); [by eapply list_elem_of_lookup_2|done]. }
  destruct (Hall p r Hr) as [Hun _]. rewrite (proj2 (Z.eqb_neq _ _) Hun). right. split; [apply (contents_full n s Hok); intros q x Hx; by apply (Hall q)|].
  exists (r_id r), r. split_and!; [apply (contents_lookup s _ _ (ok_distinct n s Hok)); eauto| |done].
  intros w rw (_ & _ & q & Hq)%(contents_lookup s _ _ (ok_distinct n s Hok)). by apply (Hall q).
Qed.

Lemma have_or_new_ok n s id : store_ok n s → (0 < n)%nat → 0 <= id < ZT_MEMBERSHIP_CRED_ID_UNUSED →
  ∃ o p s', find_slot id s = Ok o ∧ have_or_new o id s = Ok (p, s') ∧ store_ok n s' ∧
    match contents s !! id with
    | Some r => o = Some p ∧ s' = s ∧ slots s !! p = Some r ∧ r_id r = id
    | None => o = None ∧ slots s' !! p = Some (Remote id 0 0 cred_blank) ∧
        ∀ r', r_id r' = id → store_ok n (set_slot p r' s') → inserted n (contents s) id r' (contents (set_slot p r' s'))
    end.
Proof.
  intros Hok Hn Hid. pose proof (ok_distinct n s Hok) as Hd. assert (id ≠ ZT_MEMBERSHIP_CRED_ID_UNUSED) as Hu by lia.
  destruct (find_slot_ok n s id Hok) as (o & Ef & Ho). destruct o as [p|].
  - destruct Ho as (r & Hr & Hrid). assert (contents s !! id = Some r) as -> by (apply contents_lookup; eauto). by exists (Some p), p, s.
  - destruct (contents s !! id) as [r|] eqn:E; [apply contents_lookup in E as (_ & Hi & q & Hq); [by destruct (Ho q r Hq)|done]|].
    destruct (find_new n s id Hok Hn Hid Ho) as (p & s' & En & Hok' & Es & Hp). exists None, p, s'. unfold have_or_new. rewrite En. cbn [mbind cres_bind].
    assert (p < length (slots s))%nat as Hlt by (destruct Hp as (r & Hr & _); by apply lookup_lt_Some in Hr).
    split_and!; try done; [by rewrite Es, list_lookup_insert_eq|]. intros r' <- Hok2. apply (picked_inserted n s _ p r' Hok Hok2 Hp); [|done].
    cbn [slots set_slot]. by rewrite Es, list_insert_insert_eq.
Qed.

(** What [addCredential] and the revocations do to the map. *)
Definition add_spec (n : nat) (nconf : cred_conf) (verify : T → Z) (now : Z) (c : T) (m : gmap Z (remote T)) (a : AddCredentialResult) (m' : gmap Z (remote T)) : Prop :=
  let refused := a = (if verify c =? 1 then ADD_DEFERRED_FOR_WHOIS else ADD_REJECTED) ∧ m' = m in
  match m !! cred_id c with
  | Some r =>
      if negb (isCredentialTimestampValid nconf r) || (cred_timestamp c <? cred_timestamp (r_credential r)) then a = ADD_REJECTED ∧ m' = m
      else if cred_same (r_credential r) c then a = ADD_ACCEPTED_REDUNDANT ∧ m' = m
      else if verify c =? 0 then a = ADD_ACCEPTED_NEW ∧ m' = <[cred_id c := Remote (cred_id c) now (r_revocationThreshold r) c]> m
      else refused
  | None =>
      if verify c =? 0 then a = ADD_ACCEPTED_NEW ∧ inserted n m (cred_id c) (Remote (cred_id c) now 0 c) m' else refused
  end.

Definition revoke_spec (n : nat) (id threshold now : Z) (m : gmap Z (remote T)) (b : bool) (m' : gmap Z (remote T)) : Prop :=
  match m !! id with
  | Some r =>
      if r_revocationThreshold r <? threshold then b = true ∧ m' = <[id := Remote id now threshold (r_credential r)]> m
      else b = false ∧ m' = m
  | None => b = (0 <? threshold) ∧ inserted n m id (if b then Remote id now threshold cred_blank else Remote id 0 0 cred_blank) m'
  end.

Lemma contents_update n s p r r' : store_ok n s → slots s !! p = Some r → r_id r' = r_id r → r_id r ≠ ZT_MEMBERSHIP_CRED_ID_UNUSED →
  0 <= r_lastReceived r' <= ZT_MEMBERSHIP_CRED_ID_UNUSED →
  store_ok n (set_slot p r' s) ∧ contents (set_slot p r' s) = <[r_id r := r']> (contents s).
Proof.
  intros Hok Hr Hid Hu Hlr. pose proof (set_slot_ok n s p r r' Hok Hr Hid Hlr) as Hok'. split; [done|].
  rewrite (contents_set s (set_slot p r' s) p r r' (ok_distinct n s Hok) (ok_distinct n _ Hok') Hr eq_refl), Hid, (proj2 (Z.eqb_neq _ _) Hu) by congruence.
  by rewrite insert_delete_eq.
Qed.

Lemma addCredential_ok n nconf verify now c s : store_ok n s → (0 < n)%nat → 0 <= cred_id c < ZT_MEMBERSHIP_CRED_ID_UNUSED → 0 <= now <= ZT_MEMBERSHIP_CRED_ID_UNUSED →
  ∃ a s', addCredential nconf verify now c s = Ok (a, s') ∧ store_ok n s' ∧ add_spec n nconf verify now c (contents s) a (contents s').
Proof.
  intros Hok Hn Hid Hnow. destruct (have_or_new_ok n s (cred_id c) Hok Hn Hid) as (o & p & s1 & Ef & Eh & Hok1 & Hc). unfold addCredential, add_spec. rewrite Ef. cbn [mbind cres_bind].
  destruct (contents s !! cred_id c) as [r|] eqn:Em.
  - destruct Hc as (-> & -> & Hr & Hri). assert (slot s p = Ok r) as Esl by (unfold slot; by rewrite Hr). rewrite Esl. cbn [mbind cres_bind]. destruct (_ || _); [by eexists _, _|]. destruct (cred_same _ _); [by eexists _, _|].
    rewrite Eh. destruct (verify c =? 0); [|by destruct (verify c =? 1); eexists _, _]. cbn [mbind cres_bind]. rewrite Esl. cbn [mbind cres_bind].
    destruct (contents_update n s p r (Remote (r_id r) now (r_revocationThreshold r) c) Hok Hr eq_refl ltac:(lia) Hnow) as [Hok2 Ec]. rewrite Hri in *.
    eexists _, _. split; [done|]. split; [done|]. by split.
  - destruct Hc as (-> & Hr & Hins). destruct (verify c =? 0); [|by destruct (verify c =? 1); eexists _, _]. rewrite Eh. cbn [mbind cres_bind]. unfold slot. rewrite Hr. cbn [mbind cres_bind r_id r_revocationThreshold].
    pose proof (set_slot_ok n s1 p _ (Remote (cred_id c) now 0 c) Hok1 Hr eq_refl Hnow) as Hok2. eexists _, _. split; [done|]. split; [done|]. split; [done|]. by apply Hins.
Qed.

Lemma revoke_ok n id threshold now s : store_ok n s → (0 < n)%nat → 0 <= id < ZT_MEMBERSHIP_CRED_ID_UNUSED → 0 <= now <= ZT_MEMBERSHIP_CRED_ID_UNUSED →
  ∃ b s', revoke id threshold now s = Ok (b, s') ∧ store_ok n s' ∧ revoke_spec n id threshold now (contents s) b (contents s').
Proof.
  intros Hok Hn Hid Hnow. destruct (have_or_new_ok n s id Hok Hn Hid) as (o & p & s1 & Ef & Eh & Hok1 & Hc). unfold revoke, revoke_spec. rewrite Ef. cbn [mbind cres_bind]. rewrite Eh. cbn [mbind cres_bind].
  destruct (contents s !! id) as [r|] eqn:Em.
  - destruct Hc as (-> & -> & Hr & Hri). unfold slot. rewrite Hr. cbn [mbind cres_bind]. destruct (_ <? threshold); [|by eexists _, _].
    destruct (contents_update n s p r (Remote (r_id r) now threshold (r_credential r)) Hok Hr eq_refl ltac:(lia) Hnow) as [Hok2 Ec]. rewrite Hri in *.
    eexists _, _. split; [done|]. split; [done|]. by split.
  - destruct Hc as (-> & Hr & Hins). unfold slot. rewrite Hr. cbn [mbind cres_bind r_id r_revocationThreshold r_credential]. destruct (0 <? threshold).
    + pose proof (set_slot_ok n s1 p _ (Remote id now threshold cred_blank) Hok1 Hr eq_refl Hnow) as Hok2. eexists _, _. split; [done|]. split; [done|]. split; [done|]. by apply Hins.
    + eexists _, _. split; [done|]. split; [done|]. split; [done|]. assert (set_slot p (Remote id 0 0 cred_blank) s1 = s1) as E by (unfold set_slot; rewrite list_insert_id by done; by destruct s1).
      rewrite <- E at 1. apply Hins; [done|]. by rewrite E.
Qed.

(** What the readers return. *)
Definition valid_at (nconf : cred_conf) (m : gmap Z (remote T)) (id : Z) : option T :=
  r ← m !! id; if isCredentialTimestampValid nconf r then Some (r_credential r) else None.

Lemma getTag_ok n nconf id s : store_ok n s → 0 <= id < ZT_MEMBERSHIP_CRED_ID_UNUSED → getTag nconf id s = Ok (valid_at nconf (contents s) id).
Proof.
  intros Hok Hid. pose proof (ok_distinct n s Hok) as Hd. unfold getTag, valid_at. destruct (find_slot_ok n s id Hok) as (o & -> & Ho). cbn [mbind cres_bind]. destruct o as [p|].
  - destruct Ho as (r & Hr & Hri). assert (contents s !! id = Some r) as -> by (apply contents_lookup; [done|]; split; [lia|]; eauto). unfold slot. rewrite Hr. cbn [mbind cres_bind option_bind].
    unfold isCredentialTimestampValid. by destruct (r_lastReceived r =? 0).
  - destruct (contents s !! id) as [r|] eqn:E; [|done]. apply contents_lookup in E as (_ & Hi & q & Hq); [by destruct (Ho q r Hq)|done].
Qed.

Lemma iterate_ok n nconf s ps : store_ok n s → StronglySorted (λ p q, key s p <= key s q) ps → NoDup ps → (∀ p, p ∈ ps → is_Some (slots s !! p)) →
  ∃ rs, iterate nconf s ps = Ok (r_credential <$> filter (λ r, isCredentialTimestampValid nconf r = true) rs) ∧ StronglySorted (λ r r', r_id r < r_id r') rs ∧
    ∀ r, r ∈ rs ↔ r_id r ≠ ZT_MEMBERSHIP_CRED_ID_UNUSED ∧ ∃ p, p ∈ ps ∧ slots s !! p = Some r.
Proof.
  intros Hok Hs. induction Hs as [|p ps _ IH Hp]; intros Hnd Hps; cbn [iterate]; [exists []; split_and!; [done|constructor|intros r; split; [by intros ?%elem_of_nil|by intros (_ & p & ?%elem_of_nil & _)]]|].
  apply NoDup_cons in Hnd as [Hnp Hnd]. destruct (Hps p ltac:(left)) as [r Hr]. unfold slot at 1. rewrite Hr. cbn [mbind cres_bind]. rewrite Forall_forall in Hp.
  assert (key s p = r_id r) as Hk by (unfold key; by rewrite Hr).
  assert (∀ q x, q ∈ ps → slots s !! q = Some x → r_id r <= r_id x) as Hle by (intros q x Hq Hx; specialize (Hp q Hq); unfold key in Hp at 2; rewrite Hx in Hp; lia).
  destruct (Z.eqb_spec (r_id r) ZT_MEMBERSHIP_CRED_ID_UNUSED) as [Hu|Hu].
  - exists []. split_and!; [done|constructor|]. intros x. split; [by intros ?%elem_of_nil|]. intros (Hx & q & [->|Hq]%elem_of_cons & Hxq); [congruence|].
    pose proof (Hle q x Hq Hxq). destruct (ok_range n s Hok q x Hxq) as [Hrg _]. lia.
  - destruct IH as (rs & -> & Hsr & Hin); [done|intros q Hq; apply Hps; by right|]. cbn [mbind cres_bind]. exists (r :: rs). split_and!.
    + rewrite filter_cons. destruct (isCredentialTimestampValid nconf r); [by rewrite decide_True|by rewrite decide_False].
    + constructor; [done|]. apply Forall_forall. intros x (Hx & q & Hq & Hxq)%Hin. pose proof (Hle q x Hq Hxq).
      assert (r_id r ≠ r_id x); [|lia]. intros He. pose proof (ok_distinct n s Hok p q r x Hr Hxq He Hu). by subst q.
    + intros x. rewrite elem_of_cons, Hin. split; [intros [->|(? & q & ? & ?)]; [split; [done|]; exists p; split; [left|done]|split; [done|]; exists q; split; [by right|done]]|].
      intros (Hx & q & [->|Hq]%elem_of_cons & Hxq); [left; congruence|right; eauto].
Qed.

Lemma valid_credentials_ok n nconf s : store_ok n s →
  ∃ rs, valid_credentials nconf s = Ok (r_credential <$> filter (λ r, isCredentialTimestampValid nconf r = true) rs)
    ∧ StronglySorted (λ r r', r_id r < r_id r') rs ∧ ∀ r, r ∈ rs ↔ contents s !! r_id r = Some r.
Proof.
  intros Hok. pose proof (ok_distinct n s Hok) as Hd. destruct (iterate_ok n nconf s (ptrs s) Hok (ok_sorted n s Hok)) as (rs & E & Hs & Hin).
  - rewrite (ok_ptrs n s Hok). apply NoDup_seq.
  - intros p. rewrite (ok_ptrs n s Hok), elem_of_seq. intros Hp. apply lookup_lt_is_Some_2. rewrite (ok_slots n s Hok). lia.
  - exists rs. split_and!; [done..|]. intros r. rewrite Hin, contents_lookup by done. split; [intros (? & p & _ & ?); eauto|].
    intros (Hu & _ & p & Hp). split; [done|]. exists p. split; [|done]. destruct (ok_points n s p r Hok Hp) as [i Hi]. by eapply list_elem_of_lookup_2.
Qed.

(** ** Sequences of operations *)

Inductive cred_op :=
  | OpAdd (nconf : cred_conf) (verify : T → Z) (now : Z) (c : T)
  | OpRevoke (credentialId threshold now : Z).

Inductive cred_reply := Added (a : AddCredentialResult) | Revoked (b : bool).

Definition cred_exec (o : cred_op) s : cres (cred_reply * store T) :=
  match o with
  | OpAdd nconf verify now c => '(a, s) ← addCredential nconf verify now c s; Ok (Added a, s)
  | OpRevoke id threshold now => '(b, s) ← revoke id threshold now s; Ok (Revoked b, s)
  end.

Fixpoint cred_run (os : list cred_op) s : cres (list cred_reply * store T) :=
  match os with
  | [] => Ok ([], s)
  | o :: os' => '(r, s) ← cred_exec o s; '(rs, s) ← cred_run os' s; Ok (r :: rs, s)
  end.

Definition op_id (o : cred_op) : Z := match o with OpAdd _ _ _ c => cred_id c | OpRevoke id _ _ => id end.
Definition op_now (o : cred_op) : Z := match o with OpAdd _ _ now _ => now | OpRevoke _ _ now => now end.

(** Ids that are not the one of unused slots, and times of 64 bits. *)
Definition op_ok (o : cred_op) : Prop := 0 <= op_id o < ZT_MEMBERSHIP_CRED_ID_UNUSED ∧ 0 <= op_now o < 2 ^ 64.

Definition op_spec (n : nat) (o : cred_op) (m : gmap Z (remote T)) (rep : cred_reply) (m' : gmap Z (remote T)) : Prop :=
  match o, rep with
  | OpAdd nconf verify now c, Added a => add_spec n nconf verify now c m a m'
  | OpRevoke id threshold now, Revoked b => revoke_spec n id threshold now m b m'
  | _, _ => False
  end.

Inductive run_spec (n : nat) : list cred_op → list cred_reply → gmap Z (remote T) → gmap Z (remote T) → Prop :=
  | RunNil m : run_spec n [] [] m m
  | RunCons o os rep reps m m1 m2 : op_spec n o m rep m1 → run_spec n os reps m1 m2 → run_spec n (o :: os) (rep :: reps) m m2.

Lemma cred_exec_ok n o s : store_ok n s → (0 < n)%nat → op_ok o →
  ∃ rep s', cred_exec o s = Ok (rep, s') ∧ store_ok n s' ∧ op_spec n o (contents s) rep (contents s').
Proof.
  intros Hok Hn [Hid Hnow]. assert (op_now o <= ZT_MEMBERSHIP_CRED_ID_UNUSED) as Hnow' by (unfold ZT_MEMBERSHIP_CRED_ID_UNUSED; lia). destruct o as [nconf verify now c|id th now]; cbn in *.
  - destruct (addCredential_ok n nconf verify now c s) as (a & s' & -> & Hok' & Ha); [done|done|done|lia|]. by exists (Added a), s'.
  - destruct (revoke_ok n id th now s) as (b & s' & -> & Hok' & Hb); [done|done|done|lia|]. by exists (Revoked b), s'.
Qed.

Lemma cred_run_ok n os s : store_ok n s → (0 < n)%nat → Forall op_ok os →
  ∃ reps s', cred_run os s = Ok (reps, s') ∧ store_ok n s' ∧ run_spec n os reps (contents s) (contents s').
Proof.
  intros Hok Hn Hos. revert s Hok. induction Hos as [|o os Ho _ IH]; intros s Hok; [exists [], s; split_and!; [done..|constructor]|]. cbn [cred_run].
  destruct (cred_exec_ok n o s Hok Hn Ho) as (rep & s1 & -> & Hok1 & Hs1). cbn [mbind cres_bind]. destruct (IH s1 Hok1) as (reps & s2 & -> & Hok2 & Hs2). cbn [mbind cres_bind].
  exists (rep :: reps), s2. split_and!; [done..|]. by econstructor.
Qed.

Lemma contents_new n : contents (new_store n) = ∅.
Proof. unfold contents. cbn [slots new_store]. induction n as [|n IH]; [done|]. cbn [replicate omap list_omap]. by replace (entry_of unused) with (@None (Z * remote T)) by done. Qed.

Lemma contents_bounded n s : store_ok n s → (size (contents s) <= n)%nat.
Proof. intros [Hl _ _ _ Hd]. rewrite contents_size, <- Hl by done. apply omap_entries_le. Qed.

(** ** Entries that are not displaced *)

Definition kept (m m' : gmap Z (remote T)) : Prop :=
  ∀ id r, m !! id = Some r → ∃ r', m' !! id = Some r' ∧ r_revocationThreshold r <= r_revocationThreshold r'.

Lemma kept_refl m : kept m m.
Proof. intros id r Hr. by exists r. Qed.

Lemma kept_insert m id r' : (∀ r, m !! id = Some r → r_revocationThreshold r <= r_revocationThreshold r') → kept m (<[id := r']> m).
Proof. intros Hr i r Hi. destruct (decide (i = id)) as [->|]; [exists r'; rewrite lookup_insert_eq; split; [done|by apply Hr]|exists r; by rewrite lookup_insert_ne]. Qed.

(** With places for all the ids there are, a new entry does not displace another. *)
Lemma inserted_room n m id r m' (I : gset Z) : inserted n m id r m' → m !! id = None → id ∈ I → dom m ⊆ I → (size I <= n)%nat → m' = <[id := r]> m.
Proof.
  intros [[_ ->]|[Hs _]] Hm Hi Hd HI; [done|]. assert (size ({[id]} ∪ dom m) <= size I)%nat as Hle by (apply subseteq_size; set_solver).
  rewrite size_union, size_singleton, size_dom in Hle by (apply not_elem_of_dom in Hm; set_solver). lia.
Qed.

Lemma op_kept n o m rep m' (I : gset Z) : op_spec n o m rep m' → op_id o ∈ I → dom m ⊆ I → (size I <= n)%nat → dom m' ⊆ I ∧ kept m m'.
Proof.
  intros Hs Hi Hd HI. assert (∀ r', (∀ r, m !! op_id o = Some r → r_revocationThreshold r <= r_revocationThreshold r') → m' = <[op_id o := r']> m → dom m' ⊆ I ∧ kept m m') as Hins.
  { intros r' Hr ->. split; [rewrite dom_insert; set_solver|by apply kept_insert]. }
  assert (m' = m → dom m' ⊆ I ∧ kept m m') as Hsame by (intros ->; split; [done|apply kept_refl]).
  destruct o as [nconf verify now c|id th now], rep as [a|b]; try done; cbn [op_spec op_id] in *; unfold add_spec, revoke_spec in Hs; destruct (m !! _) as [r|] eqn:E.
  - destruct (_ || _); [by apply Hsame; destruct Hs|]. destruct (cred_same _ _); [by apply Hsame; destruct Hs|]. destruct (verify c =? 0); [|by apply Hsame; destruct Hs].
    destruct Hs as [_ ->]. eapply Hins; [|done]. intros x [= <-]. done.
  - destruct (verify c =? 0); [|by apply Hsame; destruct Hs]. destruct Hs as [_ Hs]. eapply Hins; [|by eapply inserted_room]. done.
  - destruct (Z.ltb_spec (r_revocationThreshold r) th); [|by apply Hsame; destruct Hs]. destruct Hs as [_ ->]. eapply Hins; [|done]. intros x [= <-]. cbn. lia.
  - destruct Hs as [_ Hs]. eapply Hins; [|by eapply inserted_room]. done.
Qed.

Lemma run_kept n os reps m m' (I : gset Z) : run_spec n os reps m m' → (∀ o, o ∈ os → op_id o ∈ I) → dom m ⊆ I → (size I <= n)%nat → dom m' ⊆ I ∧ kept m m'.
Proof.
  intros Hr. induction Hr as [m|o os rep reps m m1 m2 Hs _ IH]; intros Ho Hd HI; [split; [done|apply kept_refl]|].
  destruct (op_kept n o m rep m1 I Hs (Ho o ltac:(left)) Hd HI) as [Hd1 Hk1]. destruct IH as [Hd2 Hk2]; [intros x Hx; apply Ho; by right|done..|]. split; [done|].
  intros id r Hid. destruct (Hk1 id r Hid) as (r1 & Hr1 & Hle1). destruct (Hk2 id r1 Hr1) as (r2 & Hr2 & Hle2). exists r2. split; [done|lia].
Qed.

Lemma revoke_threshold n id th now m b m' (I : gset Z) : revoke_spec n id th now m b m' → id ∈ I → dom m ⊆ I → (size I <= n)%nat →
  ∃ r, m' !! id = Some r ∧ th <= r_revocationThreshold r.
Proof.
  unfold revoke_spec. intros Hs Hi Hd HI. destruct (m !! id) as [r|] eqn:E.
  - destruct (Z.ltb_spec (r_revocationThreshold r) th); destruct Hs as [_ ->]; [|by exists r]. eexists. rewrite lookup_insert_eq. split; [done|]. cbn. lia.
  - destruct Hs as [-> Hs]. rewrite (inserted_room n m id _ m' I Hs E Hi Hd HI). eexists. rewrite lookup_insert_eq. split; [done|]. destruct (Z.ltb_spec 0 th); cbn; lia.
Qed.

Lemma run_spec_app n os1 os2 reps m m' : run_spec n (os1 ++ os2) reps m m' → ∃ reps1 reps2 m1, run_spec n os1 reps1 m m1 ∧ run_spec n os2 reps2 m1 m'.
Proof.
  revert reps m. induction os1 as [|o os1 IH]; intros reps m Hr; [exists [], reps, m; split; [constructor|done]|]. inversion_clear Hr as [|? ? rep reps' ? m1 ? Ho Hr'].
  destruct (IH _ _ Hr') as (r1 & r2 & m2 & Hr1 & Hr2). exists (rep :: r1), r2, m2. split; [by econstructor|done].
Qed.
End invariant.

(** ** The credentials and the member *)

Record tag := Tag {
  tag_networkId : Z; tag_ts : Z; tag_id : Z; tag_value : Z; tag_issuedTo : Z; tag_signedBy : Z; tag_signature : bytes;
}.

#[export] Instance tag_eq_dec : EqDecision tag.
Proof. solve_decision. Defined.

#[export] Instance tag_credential : Credential tag := {
  cred_timestamp := tag_ts; cred_id := tag_id; cred_same a b := bool_decide (a = b);
  cred_blank := Tag 0 0 0 0 0 0 (memset ZT_C25519_SIGNATURE_LEN 0);
}.

(** [ZT_VirtualNetworkRule]: the type with its two flags, and the bytes of the union. *)
Record rule := Rule { rule_t : Z; rule_v : bytes }.

#[export] Instance rule_eq_dec : EqDecision rule.
Proof. solve_decision. Defined.

Definition ZT_MAX_CAPABILITY_RULES : Z := 64.
Definition ZT_MAX_CAPABILITY_CUSTODY_CHAIN_LENGTH : Z := 7.
Definition sizeof_rule_v : Z := 24.

Record custody := Custody { custody_to : Z; custody_from : Z; custody_signature : bytes }.

#[export] Instance custody_eq_dec : EqDecision custody.
Proof. solve_decision. Defined.

Record capability := Capability {
  cap_nwid : Z; cap_ts : Z; cap_id : Z; cap_maxCustodyChainLength : Z; cap_ruleCount : Z; cap_rules : list rule; cap_custody : list custody;
}.

#[export] Instance capability_eq_dec : EqDecision capability.
Proof. solve_decision. Defined.

Definition no_rule : rule := Rule 0 (memset sizeof_rule_v 0).

#[export] Instance capability_credential : Credential capability := {
  cred_timestamp := cap_ts; cred_id := cap_id; cred_same a b := bool_decide (a = b);
  cred_blank := Capability 0 0 0 0 0 (replicate (Z.to_nat ZT_MAX_CAPABILITY_RULES) no_rule)
    (replicate (Z.to_nat ZT_MAX_CAPABILITY_CUSTODY_CHAIN_LENGTH) (Custody 0 0 (memset ZT_C25519_SIGNATURE_LEN 0)));
}.

Definition ZT_CERTIFICATEOFOWNERSHIP_MAX_THINGS : nat := 16.
Definition THING_MAC_ADDRESS : Z := 1.
Definition THING_IPV4_ADDRESS : Z := 2.
Definition THING_IPV6_ADDRESS : Z := 3.

Record ownership := Coo {
  coo_networkId : Z; coo_ts : Z; coo_flags : Z; coo_id : Z; coo_thingCount : Z;
  coo_thingTypes : list Z; coo_thingValues : list bytes; coo_issuedTo : Z; coo_signedBy : Z; coo_signature : bytes;
}.

#[export] Instance ownership_eq_dec : EqDecision ownership.
Proof. solve_decision. Defined.

#[export] Instance ownership_credential : Credential ownership := {
  cred_timestamp := coo_ts; cred_id := coo_id; cred_same a b := bool_decide (a = b);
  cred_blank := Coo 0 0 0 0 0 (replicate ZT_CERTIFICATEOFOWNERSHIP_MAX_THINGS 0) (replicate ZT_CERTIFICATEOFOWNERSHIP_MAX_THINGS (memset 16 0)) 0 0 (memset ZT_C25519_SIGNATURE_LEN 0);
}.

(** The loop of [_owns] over the things from [i] on. *)
Fixpoint owns_loop (n : nat) (t : Z) (v : bytes) (c : ownership) (i : nat) : cres bool :=
  match n with
  | O => Ok false
  | S n' =>
      match coo_thingTypes c !! i with
      | None => Undef OutOfBounds
      | Some ty =>
          if ty =? t then
            match coo_thingValues c !! i with
            | None => Undef OutOfBounds
            | Some x => if bool_decide (take (length v) x = v) then Ok true else owns_loop n' t v c (S i)
            end
          else owns_loop n' t v c (S i)
      end
  end.

Definition owns_thing (t : Z) (v : bytes) (c : ownership) : cres bool := owns_loop (Z.to_nat (coo_thingCount c)) t v c 0.

Definition owns_ip (ip : bytes) (c : ownership) : cres bool :=
  if InetAddress.isV4 ip then owns_thing THING_IPV4_ADDRESS (InetAddress.fld 4 4 ip) c
  else if InetAddress.isV6 ip then owns_thing THING_IPV6_ADDRESS (InetAddress.s6_addr ip) c
  else Ok false.

Definition owns_mac (mac : Z) (c : ownership) : cres bool := owns_thing THING_MAC_ADDRESS (MAC.octets mac) c.

(** The loop of [hasCertificateOfOwnershipFor]. *)
Fixpoint any_owner (owns : ownership → cres bool) (nconf : cred_conf) (s : store ownership) (ps : list nat) : cres bool :=
  match ps with
  | [] => Ok false
  | p :: ps' =>
      r ← slot s p;
      if r_id r =? ZT_MEMBERSHIP_CRED_ID_UNUSED then Ok false
      else if isCredentialTimestampValid nconf r then
        o ← owns (r_credential r);
        if o : bool then Ok true else any_owner owns nconf s ps'
      else any_owner owns nconf s ps'
  end.

(** A member: its certificate of membership and its other credentials. *)
Record membership := Membership {
  m_comRevocationThreshold : Z;
  m_com : com;
  m_tags : store tag;
  m_caps : store capability;
  m_coos : store ownership;
}.

Definition membership_new : membership :=
  Membership 0 com_empty (new_store ZT_MAX_NETWORK_TAGS) (new_store ZT_MAX_NETWORK_CAPABILITIES) (new_store ZT_MAX_CERTIFICATES_OF_OWNERSHIP).

Definition hasCertificateOfOwnershipFor (owns : ownership → cres bool) (nconf : cred_conf) (m : membership) : cres bool :=
  any_owner owns nconf (m_coos m) (ptrs (m_coos m)).

(** [operator==] of two certificates of membership. *)
Definition com_same (a b : com) : bool :=
  (_signedBy a =? _signedBy b) && (_qualifierCount a =? _qualifierCount b)
  && forallb (λ '(x, y), (q_id x =? q_id y) && (q_value x =? q_value y) && (q_maxDelta x =? q_maxDelta y)) (zip (used a) (used b))
  && bool_decide (_signature a = _signature b).

(** [addCredential] of a certificate of membership. *)
Definition add_com (verify : com → Z) (c : com) (m : membership) : AddCredentialResult * membership :=
  let newts := (timestamp c).1 in
  if newts <=? m_comRevocationThreshold m then (ADD_REJECTED, m)
  else
    let oldts := (timestamp (m_com m)).1 in
    if newts <? oldts then (ADD_REJECTED, m)
    else if (newts =? oldts) && com_same (m_com m) c then (ADD_ACCEPTED_REDUNDANT, m)
    else
      let v := verify c in
      if v =? 0 then (ADD_ACCEPTED_NEW, Membership (m_comRevocationThreshold m) c (m_tags m) (m_caps m) (m_coos m))
      else if v =? 1 then (ADD_DEFERRED_FOR_WHOIS, m)
      else (ADD_REJECTED, m).

(** [addCredential] of a tag, a capability and a certificate of ownership. *)
Definition add_tag `{StdSort} (nconf : cred_conf) (verify : tag → Z) (now : Z) (t : tag) (m : membership) : cres (AddCredentialResult * membership) :=
  '(a, s) ← addCredential nconf verify now t (m_tags m);
  Ok (a, Membership (m_comRevocationThreshold m) (m_com m) s (m_caps m) (m_coos m)).

Definition add_capability `{StdSort} (nconf : cred_conf) (verify : capability → Z) (now : Z) (c : capability) (m : membership) : cres (AddCredentialResult * membership) :=
  '(a, s) ← addCredential nconf verify now c (m_caps m);
  Ok (a, Membership (m_comRevocationThreshold m) (m_com m) (m_tags m) s (m_coos m)).

Definition add_ownership `{StdSort} (nconf : cred_conf) (verify : ownership → Z) (now : Z) (c : ownership) (m : membership) : cres (AddCredentialResult * membership) :=
  '(a, s) ← addCredential nconf verify now c (m_coos m);
  Ok (a, Membership (m_comRevocationThreshold m) (m_com m) (m_tags m) (m_caps m) s).

Definition CREDENTIAL_TYPE_COM : Z := 1.
Definition CREDENTIAL_TYPE_CAPABILITY : Z := 2.
Definition CREDENTIAL_TYPE_TAG : Z := 3.
Definition CREDENTIAL_TYPE_COO : Z := 4.

Record revocation := Revocation {
  rev_id : Z; rev_networkId : Z; rev_credentialId : Z; rev_threshold : Z; rev_flags : Z; rev_target : Z; rev_signedBy : Z; rev_type : Z; rev_signature : bytes;
}.

Definition revokeCom (rev : revocation) (m : membership) : bool * membership :=
  if m_comRevocationThreshold m <? rev_threshold rev then (true, Membership (rev_threshold rev) (m_com m) (m_tags m) (m_caps m) (m_coos m)) else (false, m).

(** [addCredential] of a revocation. *)
Definition add_revocation `{StdSort} (verify : revocation → Z) (now : Z) (rev : revocation) (m : membership) : cres (AddCredentialResult * membership) :=
  let answer (b : bool) := if b then ADD_ACCEPTED_NEW else ADD_ACCEPTED_REDUNDANT in
  let v := verify rev in
  if v =? 0 then
    let ty := rev_type rev in
    if ty =? CREDENTIAL_TYPE_COM then let '(b, m) := revokeCom rev m in Ok (answer b, m)
    else if ty =? CREDENTIAL_TYPE_CAPABILITY then
      '(b, s) ← revoke (rev_credentialId rev) (rev_threshold rev) now (m_caps m);
      Ok (answer b, Membership (m_comRevocationThreshold m) (m_com m) (m_tags m) s (m_coos m))
    else if ty =? CREDENTIAL_TYPE_TAG then
      '(b, s) ← revoke (rev_credentialId rev) (rev_threshold rev) now (m_tags m);
      Ok (answer b, Membership (m_comRevocationThreshold m) (m_com m) s (m_caps m) (m_coos m))
    else if ty =? CREDENTIAL_TYPE_COO then
      '(b, s) ← revoke (rev_credentialId rev) (rev_threshold rev) now (m_coos m);
      Ok (answer b, Membership (m_comRevocationThreshold m) (m_com m) (m_tags m) (m_caps m) s)
    else Ok (ADD_REJECTED, m)
  else if v =? 1 then Ok (ADD_DEFERRED_FOR_WHOIS, m)
  else Ok (ADD_REJECTED, m).

Definition isAllowedOnNetwork (isPublic : bool) (own : com) (m : membership) : cres bool :=
  if isPublic then Ok true
  else if (timestamp (m_com m)).1 <=? m_comRevocationThreshold m then Ok false
  else agreesWith own (m_com m).

(** ** Properties of credentials *)

(** C0: the credentials of a member are a bounded map.  Whatever sequence of credentials and revocations arrives, the operations
    on the sorted pointers and their binary search are defined and do to the finite map from ids to entries what the
    specification says: a credential is refused, redundant or put in the place of its predecessor; a new one takes
    a free place or that of one received longest ago.  [getTag] finds exactly the entry with the id, when it is
    valid for the configuration, and the iterator gives the valid ones in the order of their ids.  The order [std::sort] gives equal
    ids plays no part. *)
Theorem credentials_refine_map {T : Type} `{Credential T} `{StdSortOk} (n : nat) (ops : list cred_op) (nconf : cred_conf) :
  (0 < n)%nat → Forall op_ok ops →
  ∃ reps (s : store T), cred_run ops (new_store n) = Ok (reps, s)
    ∧ run_spec n ops reps ∅ (contents s) ∧ (size (contents s) <= n)%nat
    ∧ (∀ id, 0 <= id < ZT_MEMBERSHIP_CRED_ID_UNUSED → getTag nconf id s = Ok (valid_at nconf (contents s) id))
    ∧ ∃ rs, valid_credentials nconf s = Ok (r_credential <$> filter (λ r, isCredentialTimestampValid nconf r = true) rs)
        ∧ StronglySorted (λ r r', r_id r < r_id r') rs ∧ ∀ r, r ∈ rs ↔ contents s !! r_id r = Some r.
Proof.
  intros Hn Hops. destruct (cred_run_ok n ops (new_store n) (new_store_ok n) Hn Hops) as (reps & s & E & Hok & Hr). rewrite contents_new in Hr.
  exists reps, s. split_and!; [done|done|by apply contents_bounded|intros id Hid; by apply (getTag_ok n)|by apply (valid_credentials_ok n)].
Qed.

(** C0: a revocation stays in force.  As long as a member's credentials do not have more ids than there are places, a credential
    that is not newer than the threshold of a revocation received for its id is never returned, whatever else is received before
    and after, in whatever order. *)
Theorem revoked_stays_revoked {T : Type} `{Credential T} `{StdSortOk} (n : nat) (before after : list cred_op) (id threshold now : Z) (nconf : cred_conf) :
  let ops := before ++ OpRevoke id threshold now :: after in
  (0 < n)%nat → Forall op_ok ops → (size (list_to_set (op_id <$> ops) : gset Z) <= n)%nat →
  ∃ reps (s : store T), cred_run ops (new_store n) = Ok (reps, s) ∧ ∀ c, getTag nconf id s = Ok (Some c) → threshold < cred_timestamp c.
Proof.
  intros ops Hn Hops HI. set (I := list_to_set (op_id <$> ops) : gset Z) in *. destruct (cred_run_ok n ops (new_store n) (new_store_ok n) Hn Hops) as (reps & s & E & Hok & Hr).
  exists reps, s. split; [done|]. assert (∀ o, o ∈ ops → op_id o ∈ I) as Hin by (intros o Ho; apply elem_of_list_to_set, list_elem_of_fmap; eauto).
  assert (op_id (T := T) (OpRevoke id threshold now) ∈ I) as Hid by (apply Hin, elem_of_app; right; left). cbn [op_id] in Hid.
  rewrite contents_new in Hr. destruct (run_spec_app _ _ _ _ _ _ Hr) as (reps1 & reps2 & m1 & Hr1 & Hr2). inversion_clear Hr2 as [|? ? rep reps' ? m2 ? Ho Hr3].
  destruct (run_kept n before _ _ _ I Hr1) as [Hd1 _]; [intros o Ho'; apply Hin, elem_of_app; by left|done|done|]. destruct rep as [|b]; [done|]. cbn [op_spec] in Ho.
  destruct (revoke_threshold n _ _ _ _ _ _ I Ho Hid Hd1 HI) as (r & Hmr & Hle). destruct (op_kept n (OpRevoke id threshold now) m1 (Revoked b) m2 I Ho Hid Hd1 HI) as [Hd2 _].
  destruct (run_kept n after _ _ _ I Hr3) as [_ Hk]; [intros o Ho'; apply Hin, elem_of_app; right; by right|done..|]. destruct (Hk id r Hmr) as (r' & Hr' & Hle'). intros c.
  rewrite (getTag_ok n) by (done || by destruct (proj1 (Forall_forall _ _) Hops (OpRevoke id threshold now) ltac:(apply elem_of_app; right; left))).
  unfold valid_at. rewrite Hr'. cbn [mbind option_bind]. destruct (isCredentialTimestampValid nconf r') eqn:Ev; [|done]. intros [= <-].
  unfold isCredentialTimestampValid in Ev. destruct (_ =? 0); [done|]. apply andb_prop in Ev as [_ Ev]. lia.
Qed.

(** C0: a credential that is not valid any more is never replaced.  In every state the operations lead to, when the entry for an id
    is not valid for the configuration, because it is too old or was revoked, every new credential with this id is
    refused before its own time stamp or signature is looked at, however new it is; the same holds after
    the revocation of a credential that was not known before. *)
Theorem invalid_never_renewed {T : Type} `{Credential T} `{StdSortOk} (n : nat) (ops : list cred_op) (nconf : cred_conf) (id : Z) (reps : list cred_reply) (s : store T) :
  (0 < n)%nat → Forall op_ok ops → cred_run ops (new_store n) = Ok (reps, s) →
  (∃ r, contents s !! id = Some r ∧ isCredentialTimestampValid nconf r = false) →
  ∀ verify now c, cred_id c = id → addCredential nconf verify now c s = Ok (ADD_REJECTED, s).
Proof.
  intros Hn Hops E (r & Hr & Hv) verify now c Hc. destruct (cred_run_ok n ops (new_store n) (new_store_ok n) Hn Hops) as (reps' & s' & E' & Hok & _). rewrite E in E'. injection E' as <- <-.
  destruct (contents_lookup s id r (ok_distinct n s Hok)) as [Hl _]. destruct (Hl Hr) as (Hu & Hid & p & Hp). destruct (ok_range n s Hok p r Hp) as [Hrg _].
  destruct (have_or_new_ok n s id Hok Hn ltac:(lia)) as (o & q & s1 & Ef & _ & _ & Hm). rewrite Hr in Hm. destruct Hm as (-> & _ & Hq & _).
  unfold addCredential. rewrite Hc, Ef. cbn [mbind cres_bind]. assert (slot s q = Ok r) as -> by (unfold slot; by rewrite Hq). cbn [mbind cres_bind]. by rewrite Hv.
Qed.

(** [std::sort] as a merge sort. *)
Definition merge_std_sort : StdSort := λ key ps, @merge_sort nat (λ p q, key p <= key q) (λ p q, Z_le_dec (key p) (key q)) ps.

Lemma merge_std_sort_ok : @StdSortOk merge_std_sort.
Proof.
  split; intros key ps; unfold std_sort, merge_std_sort; [apply merge_sort_Permutation|].
  apply StronglySorted_merge_sort; [intros x y z; lia|intros x y; lia].
Qed.

Definition ex_tag (ts id value : Z) : tag := Tag 0x8056c2e21c000001 ts id value 0x1122334455 0x8056c2e21c (memset 96 0).
Definition ex_ops : list cred_op := [OpAdd (CredConf 10 100) (λ _, 0) 50 (ex_tag 9 7 1); OpRevoke 3 5 51; OpAdd (CredConf 10 100) (λ _, 0) 52 (ex_tag 11 7 2)].

Lemma ex_ops_ok : Forall op_ok ex_ops.
Proof. repeat (constructor; [split; split; by vm_compute|]). constructor. Qed.

Lemma credentials_refine_map_witness :
  ∃ reps s, @cred_run tag _ merge_std_sort ex_ops (new_store 4) = Ok (reps, s) ∧ getTag (CredConf 10 100) 7 s = Ok (valid_at (CredConf 10 100) (contents s) 7).
Proof.
  destruct (@credentials_refine_map tag _ merge_std_sort merge_std_sort_ok 4 ex_ops (CredConf 10 100)) as (reps & s & E & _ & _ & Hg & _); [lia|exact ex_ops_ok|].
  exact (ex_intro _ reps (ex_intro _ s (conj E (Hg 7 ltac:(done))))).
Defined.

Lemma revoked_stays_revoked_witness :
  ∃ reps s, @cred_run tag _ merge_std_sort ([] ++ OpRevoke 7 9 51 :: ex_ops) (new_store 4) = Ok (reps, s)
    ∧ ∀ c, getTag (CredConf 10 100) 7 s = Ok (Some c) → 9 < tag_ts c.
Proof.
  destruct (@revoked_stays_revoked tag _ merge_std_sort merge_std_sort_ok 4 [] ex_ops 7 9 51 (CredConf 10 100)) as (reps & s & E & Hg);
    [lia|constructor; [split; split; by vm_compute|exact ex_ops_ok]|vm_compute; lia|]. exact (ex_intro _ reps (ex_intro _ s (conj E Hg))).
Defined.

Lemma invalid_never_renewed_witness :
  ∃ reps s, @cred_run tag _ merge_std_sort ex_ops (new_store 4) = Ok (reps, s)
    ∧ @addCredential tag _ merge_std_sort (CredConf 10 100) (λ _, 0) 60 (ex_tag 12 3 8) s = Ok (ADD_REJECTED, s).
Proof.
  eexists _, _. split; [vm_compute; reflexivity|].
  refine (@invalid_never_renewed tag _ merge_std_sort merge_std_sort_ok 4 ex_ops (CredConf 10 100) 3 _ _ _ ex_ops_ok _ _ _ _ _ _);
    [lia|vm_compute; reflexivity|eexists; split; vm_compute; reflexivity|reflexivity].
Defined.
