(* ===== verification/Words.v ===== *)
(** * Machine words

    Unsigned arithmetic of [w] bits as the cryptographic code of the node uses it:
    sums, products and shifts that wrap, rotation, words loaded from and stored to
    bytes, and what the masks of that code compute. *)

From Stdlib Require Import ZArith Lia.
From stdpp Require Import base numbers list option.
From S2P Require Import Prelude.

Open Scope Z_scope.

(** ** Operations *)

Definition wadd (w a b : Z) : Z := wrap w (a + b).
Definition wsub (w a b : Z) : Z := wrap w (a - b).
Definition wmul (w a b : Z) : Z := wrap w (a * b).
Definition wshl (w a n : Z) : Z := wrap w (Z.shiftl a n).
Definition wnot (w a : Z) : Z := wrap w (Z.lnot a).

(** Rotation to the left, written as the sources do: two shifts and an or. *)
Definition rotl (w v c : Z) : Z := Z.lor (wshl w v c) (Z.shiftr v (w - c)).
Definition rotr (w v c : Z) : Z := Z.lor (Z.shiftr v c) (wshl w v (w - c)).

Definition word_ok (w z : Z) : Prop := 0 <= z < 2 ^ w.

(** Loads and stores in little-endian order, of [n] bytes at an offset. *)
Definition load_le (n : nat) (m : bytes) (off : Z) : cres Z :=
  d ← mem_read off (Z.of_nat n) m; Ok (le_val d).

(** ** Ranges *)

Lemma wrap_range w z : 0 <= w → word_ok w (wrap w z).
Proof. intros Hw. unfold word_ok, wrap. apply Z.mod_pos_bound. by apply Z.pow_pos_nonneg. Qed.

Lemma wrap_small w z : word_ok w z → wrap w z = z.
Proof. apply Z.mod_small. Qed.

Lemma wadd_small w a b : word_ok w (a + b) → wadd w a b = a + b.
Proof. apply wrap_small. Qed.

Lemma wmul_small w a b : word_ok w (a * b) → wmul w a b = a * b.
Proof. apply wrap_small. Qed.

Lemma testbit_high w z i : word_ok w z → 0 <= w → w <= i → Z.testbit z i = false.
Proof.
  intros Hz Hw Hi. unfold word_ok in Hz. rewrite <- (Z.mod_small z (2 ^ w)) by done.
  apply Z.mod_pow2_bits_high. lia.
Qed.

(** A number is a word when no bit at or above the width is set. *)
Lemma word_ok_bits w z :
  0 <= w → 0 <= z → (∀ i, w <= i → Z.testbit z i = false) → word_ok w z.
Proof.
  intros Hw Hz Hb. split; [done|]. assert (z = z mod 2 ^ w) as ->; [|apply Z.mod_pos_bound; by apply Z.pow_pos_nonneg].
  apply Z.bits_inj'. intros i Hi. destruct (decide (i < w)).
  - by rewrite Z.mod_pow2_bits_low.
  - rewrite Z.mod_pow2_bits_high by lia. apply Hb. lia.
Qed.

Lemma word_ok_lxor w a b : 0 <= w → word_ok w a → word_ok w b → word_ok w (Z.lxor a b).
Proof.
  intros Hw Ha Hb. apply word_ok_bits; [done|apply Z.lxor_nonneg; unfold word_ok in *; lia|].
  intros i Hi. by rewrite Z.lxor_spec, (testbit_high w a), (testbit_high w b).
Qed.

Lemma word_ok_lor w a b : 0 <= w → word_ok w a → word_ok w b → word_ok w (Z.lor a b).
Proof.
  intros Hw Ha Hb. apply word_ok_bits; [done|apply Z.lor_nonneg; unfold word_ok in *; lia|].
  intros i Hi. by rewrite Z.lor_spec, (testbit_high w a), (testbit_high w b).
Qed.

Lemma word_ok_land w a b : 0 <= w → 0 <= a → word_ok w b → word_ok w (Z.land a b).
Proof.
  intros Hw Ha Hb. apply word_ok_bits; [done|apply Z.land_nonneg; lia|].
  intros i Hi. by rewrite Z.land_spec, (testbit_high w b), andb_false_r.
Qed.

Lemma land_le a b : 0 <= a → 0 <= b → Z.land a b <= b.
Proof.
  intros Ha Hb. assert (b = Z.land a b + Z.ldiff b a) as Hsum.
  { rewrite Z.add_nocarry_lxor, Z.lxor_lor.
    all: apply Z.bits_inj'; intros i Hi; rewrite ?Z.lor_spec, ?Z.land_spec, ?Z.ldiff_spec, ?Z.bits_0;
      destruct (Z.testbit a i), (Z.testbit b i); done. }
  assert (0 <= Z.ldiff b a) by (apply Z.ldiff_nonneg; lia). lia.
Qed.

(** ** Masks *)

Lemma land_mask z k m : 0 <= k → m = Z.ones k → Z.land z m = z mod 2 ^ k.
Proof. intros Hk ->. by apply Z.land_ones. Qed.

(** An or of a low part and a shifted high part is a sum. *)
Lemma lor_low_high a b k : 0 <= k → 0 <= a < 2 ^ k → Z.lor a (Z.shiftl b k) = a + 2 ^ k * b.
Proof. intros Hk Ha. rewrite Z.lor_comm, lor_shiftl_add by done. lia. Qed.

(** All bits set and none set, as selectors. *)
Lemma land_ones_all w a : 0 <= w → word_ok w a → Z.land a (2 ^ w - 1) = a.
Proof.
  intros Hw Ha. replace (2 ^ w - 1) with (Z.ones w) by (rewrite Z.ones_equiv; lia).
  rewrite Z.land_ones by done. by apply Z.mod_small.
Qed.

Lemma wnot_zero w : 0 < w → wnot w 0 = 2 ^ w - 1.
Proof.
  intros Hw. unfold wnot, wrap. change (Z.lnot 0) with (-1).
  assert (0 < 2 ^ w) by (apply Z.pow_pos_nonneg; lia).
  symmetry. apply (Z.mod_unique _ _ (-1)); lia.
Qed.

Lemma wnot_all w : 0 < w → wnot w (2 ^ w - 1) = 0.
Proof.
  intros Hw. unfold wnot, wrap, Z.lnot. assert (0 < 2 ^ w) by (apply Z.pow_pos_nonneg; lia).
  symmetry. apply (Z.mod_unique _ _ (-1)); lia.
Qed.

(** ** Loads *)

Lemma load_le_seg n a x b off :
  length x = n → off = zlen a → load_le n (a ++ x ++ b) off = Ok (le_val x).
Proof.
  intros Hx ->. unfold load_le. rewrite (mem_read_seg a x b) by (done || (unfold zlen; lia)). done.
Qed.

Lemma le_val_app a b : le_val (a ++ b) = le_val a + 256 ^ zlen a * le_val b.
Proof.
  induction a as [|x a IH]; cbn [app le_val]; [change (zlen (@nil Z)) with 0; lia|].
  rewrite IH, zlen_cons, Z.pow_add_r by (done || apply zlen_nonneg). lia.
Qed.

Lemma le_bytes_app n k z : le_bytes (n + k) z = le_bytes n z ++ le_bytes k (z / 256 ^ Z.of_nat n).
Proof.
  revert z. induction n as [|n IH]; intros z; cbn [Nat.add le_bytes app]; [by rewrite Z.div_1_r|].
  rewrite IH. do 3 f_equal. rewrite Z.div_div by lia. f_equal. rewrite Nat2Z.inj_succ, Z.pow_succ_r by lia. lia.
Qed.

Lemma le_val_bound_n n l : bytes_ok l → length l = n → 0 <= le_val l < 2 ^ (8 * Z.of_nat n).
Proof.
  intros Hl <-. pose proof (le_val_bound l Hl) as H. unfold zlen in H.
  by rewrite Z.pow_mul_r by lia.
Qed.

(** ** Bit fields *)

(** A conjunction by fields of [k] bits. *)
Lemma land_split a b k :
  0 <= k → Z.land a b = Z.land (a mod 2 ^ k) (b mod 2 ^ k) + 2 ^ k * Z.land (a / 2 ^ k) (b / 2 ^ k).
Proof.
  intros Hk. rewrite Z.mul_comm, <- Z.shiftl_mul_pow2, Z.add_comm by done.
  assert (∀ i, 0 <= i → Z.testbit (Z.land (a mod 2 ^ k) (b mod 2 ^ k)) i
    = (i <? k) && (Z.testbit a i && Z.testbit b i)) as Hlow.
  { intros i Hi. rewrite Z.land_spec. destruct (Z.ltb_spec i k).
    - by rewrite !Z.mod_pow2_bits_low by lia.
    - by rewrite !Z.mod_pow2_bits_high by lia. }
  assert (∀ i, 0 <= i → Z.testbit (Z.shiftl (Z.land (a / 2 ^ k) (b / 2 ^ k)) k) i
    = negb (i <? k) && (Z.testbit a i && Z.testbit b i)) as Hhigh.
  { intros i Hi. destruct (Z.ltb_spec i k).
    - by rewrite Z.shiftl_spec_low.
    - rewrite Z.shiftl_spec, Z.land_spec, <- !Z.shiftr_div_pow2, !Z.shiftr_spec by lia.
      by replace (i - k + k) with i by lia. }
  rewrite Z.add_nocarry_lxor, Z.lxor_lor; try done.
  all: apply Z.bits_inj'; intros i Hi.
  1: rewrite Z.land_spec, Z.lor_spec, Hlow, Hhigh by done; destruct (i <? k), (Z.testbit a i), (Z.testbit b i); done.
  all: rewrite Z.land_spec, Hlow, Hhigh, Z.bits_0 by done; destruct (i <? k), (Z.testbit a i), (Z.testbit b i); done.
Qed.

(** A product of bounded factors. *)
Lemma mul_bound a b x y : 0 <= a <= x → 0 <= b <= y → 0 <= a * b <= x * y.
Proof. intros [? ?] [? ?]. split; [by apply Z.mul_nonneg_nonneg|]. apply Z.mul_le_mono_nonneg; lia. Qed.

(** The number [a] as a quotient and a remainder, for [lia]. *)
Ltac euclid a k :=
  let q := fresh "q" in let m := fresh "m" in
  pose proof (Z.div_mod a k ltac:(lia)); pose proof (Z.mod_pos_bound a k ltac:(lia));
  set (q := a / k) in *; set (m := a mod k) in *; clearbody q m.

(** A carry out of [x] and what stays, by name. *)
Lemma split_at x k B :
  0 <= k → 0 <= x < (B + 1) * 2 ^ k →
  ∃ c m, x / 2 ^ k = c ∧ x mod 2 ^ k = m ∧ x = c * 2 ^ k + m ∧ 0 <= m < 2 ^ k ∧ 0 <= c <= B.
Proof.
  intros Hk Hx. assert (0 < 2 ^ k) by (by apply Z.pow_pos_nonneg).
  exists (x / 2 ^ k), (x mod 2 ^ k). pose proof (Z.div_mod x (2 ^ k)). pose proof (Z.mod_pos_bound x (2 ^ k)).
  assert (x / 2 ^ k < B + 1) by (apply Z.div_lt_upper_bound; lia).
  assert (0 <= x / 2 ^ k) by (apply Z.div_pos; lia). lia.
Qed.

Ltac carry x k B c m :=
  let E := fresh "E" c in let Q := fresh in let R := fresh in
  destruct (split_at x k B) as (c & m & Q & R & E & ? & ?); [done|lia|]; rewrite ?Q, ?R; clear Q R.

(** A high part that is shifted up to the width. *)
Lemma lor_wshl w a b k :
  0 <= k <= w → 0 <= a < 2 ^ k → Z.lor a (wshl w b k) = a + 2 ^ k * (b mod 2 ^ (w - k)).
Proof.
  intros Hk Ha. assert (wshl w b k = Z.shiftl (b mod 2 ^ (w - k)) k) as ->; [|by rewrite lor_low_high by lia].
  unfold wshl, wrap. rewrite !Z.shiftl_mul_pow2 by lia.
  replace (2 ^ w) with (2 ^ (w - k) * 2 ^ k) by (rewrite <- Z.pow_add_r by lia; f_equal; lia).
  assert (0 < 2 ^ k) by (apply Z.pow_pos_nonneg; lia). assert (0 < 2 ^ (w - k)) by (apply Z.pow_pos_nonneg; lia).
  by rewrite Z.mul_mod_distr_r by lia.
Qed.

(** The low [k] bits of a word that was cut at its width. *)
Lemma land_wrap z w k m : 0 <= k <= w → m = Z.ones k → Z.land (wrap w z) m = z mod 2 ^ k.
Proof.
  intros Hk ->. rewrite Z.land_ones by lia. unfold wrap. apply Z.bits_inj'. intros i Hi. destruct (decide (i < k)).
  - by rewrite !Z.mod_pow2_bits_low by lia.
  - by rewrite !Z.mod_pow2_bits_high by lia.
Qed.

Lemma le_lt_bound z x y : 0 <= z <= x → (x <? y) = true → 0 <= z < y.
Proof. intros ? H%Z.ltb_lt. lia. Qed.

(** Two words are the two halves of the image of a longer one. *)
Lemma le_bytes_words n k x y z :
  x = z mod 256 ^ Z.of_nat n → y mod 256 ^ Z.of_nat k = z / 256 ^ Z.of_nat n mod 256 ^ Z.of_nat k →
  le_bytes n x ++ le_bytes k y = le_bytes (n + k) z.
Proof.
  intros -> Hy. rewrite le_bytes_app, le_bytes_mod. f_equal.
  by rewrite <- (le_bytes_mod k y), <- (le_bytes_mod k (z / _)), Hy.
Qed.

Lemma land_mod_l x k m : 0 <= k → word_ok k m → Z.land (x mod 2 ^ k) m = Z.land x m.
Proof.
  intros Hk Hm. apply Z.bits_inj'. intros i Hi. rewrite !Z.land_spec. destruct (decide (i < k)).
  - by rewrite Z.mod_pow2_bits_low.
  - by rewrite (testbit_high k m), !andb_false_r by (done || lia).
Qed.

(** The width divides out of smaller residues. *)
Lemma mod_wrap z k w : 0 <= k <= w → wrap w z mod 2 ^ k = z mod 2 ^ k.
Proof. intros Hk. rewrite <- !Z.land_ones by lia. rewrite (land_wrap z w k) by (done || lia). by rewrite Z.land_ones by lia. Qed.

Lemma le_bytes_wrap n z w : 8 * Z.of_nat n <= w → le_bytes n (wrap w z) = le_bytes n z.
Proof.
  intros Hw. rewrite <- (le_bytes_mod n z), <- (le_bytes_mod n (wrap w z)).
  change 256 with (2 ^ 8). rewrite <- Z.pow_mul_r by lia. by rewrite mod_wrap by lia.
Qed.

Lemma word_ok_le v w z : 0 <= v <= w → word_ok v z → word_ok w z.
Proof. unfold word_ok. intros Hw [? ?]. split; [done|]. eapply Z.lt_le_trans; [done|]. apply Z.pow_le_mono_r; lia. Qed.

(** A field of a field. *)
Lemma field_field z a b c d :
  0 <= a → 0 <= c → 0 <= d → c + d <= b →
  (z / 2 ^ a) mod 2 ^ b / 2 ^ c mod 2 ^ d = z / 2 ^ (a + c) mod 2 ^ d.
Proof.
  intros Ha Hc Hd Hb. rewrite <- !Z.shiftr_div_pow2 by lia. apply Z.bits_inj'. intros i Hi. destruct (decide (i < d)).
  - rewrite !Z.mod_pow2_bits_low, !Z.shiftr_spec, Z.mod_pow2_bits_low, Z.shiftr_spec by lia. f_equal. lia.
  - by rewrite !Z.mod_pow2_bits_high by lia.
Qed.

Lemma le_val_slice l k n :
  bytes_ok l → (k + n <= length l)%nat →
  le_val (take n (drop k l)) = le_val l / 256 ^ Z.of_nat k mod 256 ^ Z.of_nat n.
Proof.
  intros Hl Hk. rewrite <- (take_drop k l) at 2. rewrite <- (take_drop n (drop k l)) at 2.
  rewrite !le_val_app. unfold zlen. rewrite !length_take, length_drop, !Nat.min_l by lia.
  assert (0 <= le_val (take k l) < 256 ^ Z.of_nat k) as H1.
  { pose proof (le_val_bound (take k l)) as H. unfold zlen in H. rewrite length_take, Nat.min_l in H by lia.
    apply H. by apply Forall_take. }
  assert (0 <= le_val (take n (drop k l)) < 256 ^ Z.of_nat n) as H2.
  { pose proof (le_val_bound (take n (drop k l))) as H. unfold zlen in H.
    rewrite length_take, length_drop, Nat.min_l in H by lia. apply H. by apply Forall_take, Forall_drop. }
  rewrite (Z.mul_comm (256 ^ Z.of_nat k)), Z.div_add, Z.div_small, Z.add_0_l by lia.
  rewrite (Z.mul_comm (256 ^ Z.of_nat n)), Z.mod_add by lia. by rewrite Z.mod_small.
Qed.

(** ** Memory *)

(** Two adjacent reads or writes are one. *)
Lemma mem_adjacent off n k (m : bytes) :
  0 <= off → 0 <= n → 0 <= k → off + n + k <= zlen m →
  ∃ p a b q, m = p ++ a ++ b ++ q ∧ zlen p = off ∧ zlen a = n ∧ zlen b = k.
Proof.
  intros Ho Hn Hk Hl. destruct (bytes_split off m) as (p & r & -> & Hp); [lia|]. rewrite zlen_app in Hl.
  destruct (bytes_split n r) as (a & r' & -> & Ha); [lia|]. rewrite zlen_app in Hl.
  destruct (bytes_split k r') as (b & q & -> & Hb); [lia|]. by exists p, a, b, q.
Qed.

Lemma mem_read_adjacent off n k m :
  0 <= off → 0 <= n → 0 <= k → off + n + k <= zlen m →
  ∃ a b, mem_read off n m = Ok a ∧ mem_read (off + n) k m = Ok b ∧ mem_read off (n + k) m = Ok (a ++ b)
         ∧ zlen a = n ∧ zlen b = k.
Proof.
  intros Ho Hn Hk Hl. destruct (mem_adjacent off n k m) as (p & a & b & q & -> & Hp & Ha & Hb); [done..|].
  exists a, b. rewrite (mem_read_seg p a (b ++ q)) by lia. split_and!; try done.
  - rewrite app_assoc. apply mem_read_seg; rewrite ?zlen_app; lia.
  - rewrite (app_assoc a). apply mem_read_seg; rewrite ?zlen_app; lia.
Qed.

Lemma mem_write_adjacent off a b m :
  0 <= off → off + zlen a + zlen b <= zlen m →
  (m1 ← mem_write off a m; mem_write (off + zlen a) b m1) = mem_write off (a ++ b) m.
Proof.
  intros Ho Hl. destruct (mem_adjacent off (zlen a) (zlen b) m) as (p & x & y & q & -> & Hp & Hx & Hy);
    [apply zlen_nonneg || done..|].
  rewrite (mem_write_seg p x a) by lia. cbn [mbind cres_bind].
  rewrite (app_assoc p a), (mem_write_seg (p ++ a) y b) by (rewrite ?zlen_app; lia).
  rewrite (app_assoc x), (mem_write_seg p (x ++ y)) by (rewrite ?zlen_app; lia).
  by rewrite <- !app_assoc.
Qed.

(** Exclusive or acts on each byte. *)
Lemma le_bytes_lxor n x y :
  le_bytes n (Z.lxor x y) = zip_with Z.lxor (le_bytes n x) (le_bytes n y).
Proof.
  revert x y; induction n as [|n IH]; intros x y; simpl; [done|].
  rewrite <- IH. f_equal.
  - change 256 with (2 ^ 8). rewrite <- !Z.land_ones by lia.
    apply Z.bits_inj'. intros i Hi. rewrite !Z.land_spec, !Z.lxor_spec, !Z.land_spec.
    destruct (Z.testbit x i), (Z.testbit y i), (Z.testbit (Z.ones 8) i); done.
  - f_equal. change 256 with (2 ^ 8). rewrite <- !Z.shiftr_div_pow2 by lia.
    apply Z.shiftr_lxor.
Qed.

Lemma mem_read_bytes_ok off n m d : bytes_ok m → mem_read off n m = Ok d → bytes_ok d.
Proof. intros Hm (_ & _ & _ & ->)%mem_read_inv. by apply Forall_take, Forall_drop. Qed.

Lemma mem_write_bytes_ok off d m m' : bytes_ok m → bytes_ok d → mem_write off d m = Ok m' → bytes_ok m'.
Proof.
  intros Hm Hd (_ & _ & ->)%mem_write_inv. apply Forall_app_2; [by apply Forall_take|].
  apply Forall_app_2; [done|by apply Forall_drop].
Qed.

(** Bytes of a concrete list, by computation. *)
#[export] Instance byte_ok_dec z : Decision (byte_ok z).
Proof. unfold byte_ok. apply _. Defined.

#[export] Instance bytes_ok_dec l : Decision (bytes_ok l).
Proof. unfold bytes_ok. apply _. Defined.

Ltac bytes_compute := apply (bool_decide_unpack _); vm_compute; exact I.
