(* ===== verification/Filter.v ===== *)
(** * The rules engine (zto/node/Network.cpp)

    Which frames a network lets through: [_doZtFilter] evaluates a list of rules on a frame, and
    [filterOutgoingPacket] and [filterIncomingPacket] apply the rules of the network and of the capabilities and
    send copies to the targets of TEE, WATCH and REDIRECT.

    The memory the frame lies in is [frameData]; it may be longer than the frame.  The value the random number
    generator gives to the rule [rn] is [prng rn]: a rule draws at most once.  What leaves the network is a list of
    events; pushing credentials, which only notes when it was done, is one of them. *)

From Stdlib Require Import ZArith Lia Sorted.
From S2P Require Import Prelude Words Addr Buffer Wire Com Membership.
From stdpp Require Import base numbers list option gmap.
Open Scope Z_scope.

(** ** Constants *)

Definition ACTION_DROP : Z := 0.
Definition ACTION_ACCEPT : Z := 1.
Definition ACTION_TEE : Z := 2.
Definition ACTION_WATCH : Z := 3.
Definition ACTION_REDIRECT : Z := 4.
Definition ACTION_BREAK : Z := 5.
Definition ACTION__MAX_ID : Z := 15.
Definition MATCH_SOURCE_ZEROTIER_ADDRESS : Z := 24.
Definition MATCH_DEST_ZEROTIER_ADDRESS : Z := 25.
Definition MATCH_VLAN_ID : Z := 26.
Definition MATCH_VLAN_PCP : Z := 27.
Definition MATCH_VLAN_DEI : Z := 28.
Definition MATCH_MAC_SOURCE : Z := 29.
Definition MATCH_MAC_DEST : Z := 30.
Definition MATCH_IPV4_SOURCE : Z := 31.
Definition MATCH_IPV4_DEST : Z := 32.
Definition MATCH_IPV6_SOURCE : Z := 33.
Definition MATCH_IPV6_DEST : Z := 34.
Definition MATCH_IP_TOS : Z := 35.
Definition MATCH_IP_PROTOCOL : Z := 36.
Definition MATCH_ETHERTYPE : Z := 37.
Definition MATCH_ICMP : Z := 38.
Definition MATCH_IP_SOURCE_PORT_RANGE : Z := 39.
Definition MATCH_IP_DEST_PORT_RANGE : Z := 40.
Definition MATCH_CHARACTERISTICS : Z := 41.
Definition MATCH_FRAME_SIZE_RANGE : Z := 42.
Definition MATCH_RANDOM : Z := 43.
Definition MATCH_TAGS_DIFFERENCE : Z := 44.
Definition MATCH_TAGS_BITWISE_AND : Z := 45.
Definition MATCH_TAGS_BITWISE_OR : Z := 46.
Definition MATCH_TAGS_BITWISE_XOR : Z := 47.
Definition MATCH_TAGS_EQUAL : Z := 48.
Definition MATCH_TAG_SENDER : Z := 49.
Definition MATCH_TAG_RECEIVER : Z := 50.

Definition CHARACTERISTICS_INBOUND : Z := 0x8000000000000000.
Definition CHARACTERISTICS_MULTICAST : Z := 0x4000000000000000.
Definition CHARACTERISTICS_BROADCAST : Z := 0x2000000000000000.
Definition CHARACTERISTICS_SENDER_IP_AUTHENTICATED : Z := 0x1000000000000000.
Definition CHARACTERISTICS_SENDER_MAC_AUTHENTICATED : Z := 0x0800000000000000.

Definition FLAG_RULES_RESULT_OF_UNSUPPORTED_MATCH : Z := 8.
Definition ZT_ETHERTYPE_IPV4 : Z := 0x0800.
Definition ZT_ETHERTYPE_ARP : Z := 0x0806.
Definition ZT_ETHERTYPE_IPV6 : Z := 0x86dd.

(** A member of the union of a rule: the integer of [n] bytes at the offset [off]. *)
Definition member (n off : nat) (r : rule) : Z := le_val (take n (drop off (rule_v r))).

Definition rule_type (r : rule) : Z := Z.land (rule_t r) 0x3f.
Definition rule_not (r : rule) : bool := Z.testbit (rule_t r) 7.
Definition rule_or (r : rule) : bool := Z.testbit (rule_t r) 6.

(** [fwd.address], [fwd.length] *)
Definition fwd_address (r : rule) : Z := Address.of_u64 (member 8 0 r).
Definition fwd_length (r : rule) : Z := member 2 12 r.

(** The configuration of a network, as far as the rules look at it; the arrays are as long as their counts say. *)
Record net_conf := NetConf {
  nc_cred : cred_conf;
  nc_flags : Z;
  nc_tags : list tag;
  nc_coos : list ownership;
  nc_rules : list rule;
  nc_caps : list capability;
}.

Inductive filter_result := FILTER_NO_MATCH | FILTER_DROP | FILTER_REDIRECT | FILTER_ACCEPT | FILTER_SUPER_ACCEPT.

(** The mutable arguments: the destination, and the target of a TEE or WATCH. *)
Record filter_state := FState { f_dest : Z; f_cc : Z; f_ccLength : Z; f_ccWatch : bool }.

(** ** Frames *)

Section frame.
Context (frameData : bytes) (frameLen etherType : Z).

Definition frame_byte (i : Z) : cres Z := load_le 1 frameData i.

Definition is_extension (proto : Z) : bool := (proto =? 0) || (proto =? 43) || (proto =? 60) || (proto =? 135).

(** The loop of [_ipv6GetPayload]: position and protocol of the payload. *)
Fixpoint ipv6_payload (fuel : nat) (pos proto : Z) : cres (option (Z * Z)) :=
  if pos <=? frameLen then
    if is_extension proto then
      if frameLen <? wadd 32 pos 8 then Ok None
      else match fuel with
      | O => Undef OutOfFuel
      | S fuel' =>
          proto ← frame_byte pos;
          l ← frame_byte (pos + 1);
          ipv6_payload fuel' (wadd 32 pos (l * 8 + 8)) proto
      end
    else Ok (Some (pos, proto))
  else Ok None.

Definition ipv6GetPayload : cres (option (Z * Z)) :=
  if frameLen <? 40 then Ok None
  else
    proto ← frame_byte 6;
    ipv6_payload (Z.to_nat frameLen) 40 proto.

Definition is_ipv4 : bool := (etherType =? ZT_ETHERTYPE_IPV4) && (20 <=? frameLen).
Definition is_ipv6 : bool := (etherType =? ZT_ETHERTYPE_IPV6) && (40 <=? frameLen).

(** [InetAddress(ip,len,mask).containsAddress(InetAddress(frameData + off,len,0))] *)
Definition contains_at (ip : bytes) (len mask off : Z) : cres bool :=
  net ← InetAddress.set ip len mask;
  d ← mem_read off len frameData;
  a ← InetAddress.set d len 0;
  InetAddress.containsAddress net a.

Definition match_ipv4 (r : rule) (off : Z) : cres bool :=
  if is_ipv4 then contains_at (take 4 (rule_v r)) 4 (member 1 4 r) off else Ok false.

Definition match_ipv6 (r : rule) (off : Z) : cres bool :=
  if is_ipv6 then contains_at (take 16 (rule_v r)) 16 (member 1 16 r) off else Ok false.

Definition match_tos (r : rule) : cres bool :=
  let inside tos := let m := Z.land tos (member 1 0 r) in (member 1 1 r <=? m) && (m <=? member 1 2 r) in
  if is_ipv4 then b1 ← frame_byte 1; Ok (inside b1)
  else if is_ipv6 then
    b0 ← frame_byte 0;
    b1 ← frame_byte 1;
    Ok (inside (Z.lor (Z.land (Z.shiftl b0 4) 0xf0) (Z.land (Z.shiftr b1 4) 0x0f)))
  else Ok false.

Definition match_protocol (r : rule) : cres bool :=
  if is_ipv4 then b9 ← frame_byte 9; Ok (member 1 0 r =? b9)
  else if etherType =? ZT_ETHERTYPE_IPV6 then
    pp ← ipv6GetPayload;
    Ok (match pp with Some (_, proto) => member 1 0 r =? wrap 8 proto | None => false end)
  else Ok false.

(** Type and code of an ICMP message at [pos]. *)
Definition match_icmp_at (r : rule) (pos : Z) : cres bool :=
  ty ← frame_byte pos;
  if member 1 0 r =? ty then
    if Z.testbit (member 1 2 r) 0 then code ← frame_byte (pos + 1); Ok (code =? member 1 1 r)
    else Ok true
  else Ok false.

Definition match_icmp (r : rule) : cres bool :=
  if is_ipv4 then
    b9 ← frame_byte 9;
    if b9 =? 0x01 then
      b0 ← frame_byte 0;
      let ihl := Z.land b0 0xf * 4 in
      if ihl + 2 <=? frameLen then match_icmp_at r ihl else Ok false
    else Ok false
  else if etherType =? ZT_ETHERTYPE_IPV6 then
    pp ← ipv6GetPayload;
    match pp with
    | Some (pos, proto) => if (proto =? 0x3a) && (wadd 32 pos 2 <=? frameLen) then match_icmp_at r pos else Ok false
    | None => Ok false
    end
  else Ok false.

Definition has_ports (proto : Z) : bool := (proto =? 0x06) || (proto =? 0x11) || (proto =? 0x84) || (proto =? 0x88).

(** The port at [pos], or -1 if there is none. *)
Definition port_at (proto pos : Z) (dest : bool) : cres Z :=
  if has_ports proto && (wadd 32 pos 4 <? frameLen) then
    let pos := if dest then pos + 2 else pos in
    hi ← frame_byte pos;
    lo ← frame_byte (pos + 1);
    Ok (Z.lor (Z.shiftl hi 8) lo)
  else Ok (-1).

Definition match_port (r : rule) (dest : bool) : cres bool :=
  let inside p := (member 2 0 r <=? p) && (p <=? member 2 2 r) in
  if is_ipv4 then
    b0 ← frame_byte 0;
    b9 ← frame_byte 9;
    p ← port_at b9 (4 * Z.land b0 0xf) dest;
    Ok (if 0 <=? p then inside p else false)
  else if etherType =? ZT_ETHERTYPE_IPV6 then
    pp ← ipv6GetPayload;
    match pp with
    | Some (pos, proto) => p ← port_at proto pos dest; Ok (if 0 <? p then inside p else false)
    | None => Ok false
    end
  else Ok false.

(** The address of the sender as the frame gives it, and whether the frame is a neighbour solicitation, which
    counts as authenticated. *)
Definition sender_ip : cres (bytes * bool) :=
  if is_ipv4 then d ← mem_read 12 4 frameData; src ← InetAddress.set d 4 0; Ok (src, false)
  else if is_ipv6 then
    b6 ← (if 40 + 8 + 16 <=? frameLen then frame_byte 6 else Ok 0);
    b40 ← (if (40 + 8 + 16 <=? frameLen) && (b6 =? 0x3a) then frame_byte 40 else Ok 0);
    if b40 =? 0x87 then Ok (InetAddress.zero, true)
    else if b40 =? 0x88 then d ← mem_read (40 + 8) 16 frameData; src ← InetAddress.set d 16 0; Ok (src, false)
    else d ← mem_read 8 16 frameData; src ← InetAddress.set d 16 0; Ok (src, false)
  else if (etherType =? ZT_ETHERTYPE_ARP) && (28 <=? frameLen) then
    d ← mem_read 14 4 frameData; src ← InetAddress.set d 4 0; Ok (src, false)
  else Ok (InetAddress.zero, false).

(** The flags of a TCP header, in the low bits of the characteristics. *)
Definition tcp_flags_at (pos : Z) : cres Z :=
  b13 ← frame_byte (pos + 13);
  b12 ← frame_byte (pos + 12);
  Ok (Z.lor b13 (Z.shiftl (Z.land b12 0x0f) 8)).

Definition tcp_flags : cres Z :=
  b9 ← (if is_ipv4 then frame_byte 9 else Ok 0);
  if b9 =? 0x06 then b0 ← frame_byte 0; tcp_flags_at (4 * Z.land b0 0xf)
  else if etherType =? ZT_ETHERTYPE_IPV6 then
    pp ← ipv6GetPayload;
    match pp with
    | Some (pos, proto) => if (proto =? 0x06) && (wadd 32 pos 14 <? frameLen) then tcp_flags_at pos else Ok 0
    | None => Ok 0
    end
  else Ok 0.
End frame.

(** ** Rules *)

Section filter.
Context (self : Z) (nconf : net_conf) (member_ : option membership) (inbound : bool) (ztSource : Z) (macSource macDest : Z).
Context (frameData : bytes) (frameLen etherType vlanId : Z) (prng : Z → Z).

Definition flag (b : bool) (f : Z) : Z := if b then f else 0.

(** The certificates of ownership of this node. *)
Fixpoint own_flags (src : bytes) (cs : list ownership) (mask : Z) : cres Z :=
  match cs with
  | [] => Ok mask
  | c :: cs' =>
      ip ← (if negb (InetAddress.ss_family src =? 0) then owns_ip src c else Ok false);
      mac ← owns_mac macSource c;
      own_flags src cs' (Z.lor (Z.lor mask (flag ip CHARACTERISTICS_SENDER_IP_AUTHENTICATED)) (flag mac CHARACTERISTICS_SENDER_MAC_AUTHENTICATED))
  end.

Definition ownership_flags : cres Z :=
  '(src, solicit) ← sender_ip frameData frameLen etherType;
  let mask := flag solicit CHARACTERISTICS_SENDER_IP_AUTHENTICATED in
  if inbound then
    match member_ with
    | Some m =>
        ip ← (if negb (InetAddress.ss_family src =? 0) then hasCertificateOfOwnershipFor (owns_ip src) (nc_cred nconf) m else Ok false);
        mac ← hasCertificateOfOwnershipFor (owns_mac macSource) (nc_cred nconf) m;
        Ok (Z.lor (Z.lor mask (flag ip CHARACTERISTICS_SENDER_IP_AUTHENTICATED)) (flag mac CHARACTERISTICS_SENDER_MAC_AUTHENTICATED))
    | None => Ok mask
    end
  else own_flags src (nc_coos nconf) mask.

Definition match_characteristics (r : rule) : cres bool :=
  let cf := flag inbound CHARACTERISTICS_INBOUND in
  let cf := Z.lor cf (flag (MAC.isMulticast macDest) CHARACTERISTICS_MULTICAST) in
  let cf := Z.lor cf (flag (MAC.isBroadcast macDest) CHARACTERISTICS_BROADCAST) in
  own ← ownership_flags;
  tcp ← tcp_flags frameData frameLen etherType;
  Ok (negb (Z.land (Z.lor (Z.lor cf own) tcp) (member 8 0 r) =? 0)).

(** The tag of this node with an id. *)
Definition local_tag (id : Z) : cres (option tag) :=
  let n := length (nc_tags nconf) in
  i ← lower_bound (λ i, match nc_tags nconf !! i with Some t => Ok (tag_id t) | None => Undef OutOfBounds end) n id 0 n;
  Ok (match nc_tags nconf !! i with Some t => if tag_id t =? id then Some t else None | None => None end).

Definition remote_tag (id : Z) : cres (option tag) :=
  match member_ with Some m => getTag (nc_cred nconf) id (m_tags m) | None => Ok None end.

Definition match_tags (superAccept : bool) (r : rule) : cres bool :=
  let id := member 4 0 r in
  let value := member 4 4 r in
  let rt := rule_type r in
  lt ← local_tag id;
  match lt with
  | None => Ok false
  | Some l =>
      rem ← remote_tag id;
      match rem with
      | Some t =>
          let ltv := tag_value l in
          let rtv := tag_value t in
          if rt =? MATCH_TAGS_DIFFERENCE then Ok ((if rtv <? ltv then ltv - rtv else rtv - ltv) <=? value)
          else if rt =? MATCH_TAGS_BITWISE_AND then Ok (Z.land ltv rtv =? value)
          else if rt =? MATCH_TAGS_BITWISE_OR then Ok (Z.lor ltv rtv =? value)
          else if rt =? MATCH_TAGS_BITWISE_XOR then Ok (Z.lxor ltv rtv =? value)
          else if rt =? MATCH_TAGS_EQUAL then Ok ((ltv =? value) && (rtv =? value))
          else Ok false
      | None => Ok (negb (inbound && negb superAccept))
      end
  end.

Definition match_tag_of (superAccept : bool) (r : rule) : cres bool :=
  let id := member 4 0 r in
  let value := member 4 4 r in
  let sender := rule_type r =? MATCH_TAG_SENDER in
  let receiver := rule_type r =? MATCH_TAG_RECEIVER in
  if superAccept then Ok true
  else if (sender && inbound) || (receiver && negb inbound) then
    rem ← remote_tag id;
    Ok (match rem with Some t => tag_value t =? value | None => receiver end)
  else
    lt ← local_tag id;
    Ok (match lt with Some l => tag_value l =? value | None => false end).

(** The match of one rule, without its NOT. *)
Definition match_rule (superAccept : bool) (ztDest rn : Z) (r : rule) : cres bool :=
  let rt := rule_type r in
  if rt =? MATCH_SOURCE_ZEROTIER_ADDRESS then Ok (member 8 0 r =? ztSource)
  else if rt =? MATCH_DEST_ZEROTIER_ADDRESS then Ok (member 8 0 r =? ztDest)
  else if rt =? MATCH_VLAN_ID then Ok (member 2 0 r =? wrap 16 vlanId)
  else if rt =? MATCH_VLAN_PCP then Ok (member 1 0 r =? 0)
  else if rt =? MATCH_VLAN_DEI then Ok (member 1 0 r =? 0)
  else if rt =? MATCH_MAC_SOURCE then m ← MAC.setTo (take 6 (rule_v r)) 6; Ok (m =? macSource)
  else if rt =? MATCH_MAC_DEST then m ← MAC.setTo (take 6 (rule_v r)) 6; Ok (m =? macDest)
  else if rt =? MATCH_IPV4_SOURCE then match_ipv4 frameData frameLen etherType r 12
  else if rt =? MATCH_IPV4_DEST then match_ipv4 frameData frameLen etherType r 16
  else if rt =? MATCH_IPV6_SOURCE then match_ipv6 frameData frameLen etherType r 8
  else if rt =? MATCH_IPV6_DEST then match_ipv6 frameData frameLen etherType r 24
  else if rt =? MATCH_IP_TOS then match_tos frameData frameLen etherType r
  else if rt =? MATCH_IP_PROTOCOL then match_protocol frameData frameLen etherType r
  else if rt =? MATCH_ETHERTYPE then Ok (member 2 0 r =? wrap 16 etherType)
  else if rt =? MATCH_ICMP then match_icmp frameData frameLen etherType r
  else if (rt =? MATCH_IP_SOURCE_PORT_RANGE) || (rt =? MATCH_IP_DEST_PORT_RANGE) then match_port frameData frameLen etherType r (rt =? MATCH_IP_DEST_PORT_RANGE)
  else if rt =? MATCH_CHARACTERISTICS then match_characteristics r
  else if rt =? MATCH_FRAME_SIZE_RANGE then Ok ((member 2 0 r <=? frameLen) && (frameLen <=? member 2 2 r))
  else if rt =? MATCH_RANDOM then Ok (wrap 32 (prng rn) <=? member 4 0 r)
  else if (rt =? MATCH_TAGS_DIFFERENCE) || (rt =? MATCH_TAGS_BITWISE_AND) || (rt =? MATCH_TAGS_BITWISE_OR) || (rt =? MATCH_TAGS_BITWISE_XOR) || (rt =? MATCH_TAGS_EQUAL)
  then match_tags superAccept r
  else if (rt =? MATCH_TAG_SENDER) || (rt =? MATCH_TAG_RECEIVER) then match_tag_of superAccept r
  else Ok (negb (Z.land (nc_flags nconf) FLAG_RULES_RESULT_OF_UNSUPPORTED_MATCH =? 0)).

Definition is_forward (rt : Z) : bool := (rt =? ACTION_TEE) || (rt =? ACTION_WATCH) || (rt =? ACTION_REDIRECT).

(** An action that is taken: a result, or the state the evaluation goes on with. *)
Definition take_action (superAccept : bool) (r : rule) (st : filter_state) : option filter_result * filter_state :=
  let rt := rule_type r in
  if rt =? ACTION_DROP then (Some FILTER_DROP, st)
  else if rt =? ACTION_ACCEPT then (Some (if superAccept then FILTER_SUPER_ACCEPT else FILTER_ACCEPT), st)
  else if is_forward rt then
    let fwdAddr := fwd_address r in
    if fwdAddr =? ztSource then (None, st)
    else if fwdAddr =? self then (if inbound then Some FILTER_SUPER_ACCEPT else None, st)
    else if fwdAddr =? f_dest st then (None, st)
    else if rt =? ACTION_REDIRECT then (Some FILTER_REDIRECT, FState fwdAddr (f_cc st) (f_ccLength st) (f_ccWatch st))
    else (None, FState (f_dest st) fwdAddr (if fwd_length r =? 0 then frameLen else if frameLen <? fwd_length r then frameLen else fwd_length r) (rt =? ACTION_WATCH))
  else if rt =? ACTION_BREAK then (Some FILTER_NO_MATCH, st)
  else (None, st).

(** The loop of [_doZtFilter] from the rule [rn] on. *)
Fixpoint filter_loop (rules : list rule) (rn : Z) (superAccept thisSetMatches : bool) (st : filter_state) : cres (filter_result * filter_state) :=
  match rules with
  | [] => Ok (FILTER_NO_MATCH, st)
  | r :: rules' =>
      let rt := rule_type r in
      if rt <=? ACTION__MAX_ID then
        if thisSetMatches then
          match take_action superAccept r st with
          | (Some res, st) => Ok (res, st)
          | (None, st) => filter_loop rules' (rn + 1) superAccept true st
          end
        else
          let superAccept := if inbound && is_forward rt && (self =? fwd_address r) then true else superAccept in
          filter_loop rules' (rn + 1) superAccept true st
      else if negb thisSetMatches && negb (rule_or r) then filter_loop rules' (rn + 1) superAccept thisSetMatches st
      else
        m ← match_rule superAccept (f_dest st) rn r;
        let m := xorb m (rule_not r) in
        filter_loop rules' (rn + 1) superAccept (if rule_or r then thisSetMatches || m else thisSetMatches && m) st
  end.

Definition doZtFilter (rules : list rule) (st : filter_state) : cres (filter_result * filter_state) := filter_loop rules 0 false true st.
End filter.

(** ** Outgoing and incoming frames *)

Inductive net_event := PushCredentials (peer capIndex : Z) | SendExtFrame (dest : Z) (payload : bytes).

(** The members of the network and what was sent. *)
Record net_state := NetState { n_members : gmap Z membership; n_events : list net_event }.

(** [_membership(a)]: a member that is not known yet is added. *)
Definition membership_of (a : Z) (ns : net_state) : membership * net_state :=
  match n_members ns !! a with
  | Some m => (m, ns)
  | None => (membership_new, NetState (<[a := membership_new]> (n_members ns)) (n_events ns))
  end.

Definition emit (e : net_event) (ns : net_state) : net_state := NetState (n_members ns) (n_events ns ++ [e]).

Definition cap_rule_list (c : capability) : list rule := take (Z.to_nat (cap_ruleCount c)) (cap_rules c).

Section packets.
Context (self nwid : Z) (nconf : net_conf) (macSource macDest : Z) (frameData : bytes) (frameLen etherType vlanId : Z).
(* the random numbers of the i-th evaluation *)
Context (prng : Z → Z → Z).

(** Credentials and an EXT_FRAME packet with the first [len] bytes of the frame to another node. *)
Definition send_ext (dest capIndex flags len : Z) (ns : net_state) : cres net_state :=
  let '(_, ns) := membership_of dest ns in
  d ← mem_read 0 len frameData;
  Ok (emit (SendExtFrame dest (be_bytes 8 nwid ++ be_bytes 1 flags ++ MAC.octets macDest ++ MAC.octets macSource ++ be_bytes 2 etherType ++ d))
        (emit (PushCredentials dest capIndex) ns)).

(** The copy for the target of a TEE or WATCH, if there is one. *)
Definition send_copy (st : filter_state) (capIndex teeFlags watchFlags : Z) (ns : net_state) : cres net_state :=
  if f_cc st =? 0 then Ok ns
  else send_ext (f_cc st) capIndex (if f_ccWatch st then watchFlags else teeFlags) (f_ccLength st) ns.

Definition accepts (res : filter_result) : bool :=
  match res with FILTER_REDIRECT | FILTER_ACCEPT | FILTER_SUPER_ACCEPT => true | _ => false end.

Section outgoing.
Context (noTee : bool) (ztSource ztDest : Z).

Definition no_copy : filter_state := FState ztDest 0 0 false.

(** The capabilities of this node, from the [c]-th on: the first that accepts, and the destination it leaves. *)
Fixpoint outgoing_caps (m : option membership) (cs : list capability) (c : Z) (ns : net_state) : cres (option (Z * Z) * net_state) :=
  match cs with
  | [] => Ok (None, ns)
  | cap :: cs' =>
      '(res, st) ← doZtFilter self nconf m false ztSource macSource macDest frameData frameLen etherType vlanId (prng (c + 1)) (cap_rule_list cap) no_copy;
      if accepts res then
        ns ← (if noTee then Ok ns else send_copy st c 0x02 0x16 ns);
        Ok (Some (c, f_dest st), ns)
      else outgoing_caps m cs' (c + 1) ns
  end.

(** The part behind the switch. *)
Definition outgoing_accepted (m : option membership) (capIndex ztFinalDest : Z) (st : filter_state) (ns : net_state) : cres (bool * net_state) :=
  let ns := match m with Some _ => emit (PushCredentials ztDest capIndex) ns | None => ns end in
  ns ← (if noTee then Ok ns else send_copy st capIndex 0x02 0x16 ns);
  if negb (ztDest =? ztFinalDest) && negb (ztFinalDest =? 0) then
    ns ← send_ext ztFinalDest capIndex 0x04 frameLen ns;
    Ok (false, ns)
  else Ok (true, ns).

Definition filterOutgoingPacket (ns : net_state) : cres (bool * net_state) :=
  let m := if ztDest =? 0 then None else n_members ns !! ztDest in
  '(res, st) ← doZtFilter self nconf m false ztSource macSource macDest frameData frameLen etherType vlanId (prng 0) (nc_rules nconf) no_copy;
  match res with
  | FILTER_NO_MATCH =>
      '(found, ns) ← outgoing_caps m (nc_caps nconf) 0 ns;
      match found with
      | Some (c, dest) => outgoing_accepted m c dest st ns
      | None => Ok (false, ns)
      end
  | FILTER_DROP => Ok (false, ns)
  | FILTER_REDIRECT | FILTER_ACCEPT | FILTER_SUPER_ACCEPT => outgoing_accepted m (-1) (f_dest st) st ns
  end.
End outgoing.

Section incoming.
Context (source ztDest : Z).

Definition accept_code (res : filter_result) : Z :=
  match res with FILTER_REDIRECT | FILTER_ACCEPT => 1 | FILTER_SUPER_ACCEPT => 2 | _ => 0 end.

(** The capabilities the sender presented. *)
Fixpoint incoming_caps (m : membership) (cs : list capability) (c : Z) (ns : net_state) : cres (Z * Z * net_state) :=
  match cs with
  | [] => Ok (0, ztDest, ns)
  | cap :: cs' =>
      '(res, st) ← doZtFilter self nconf (Some m) true source macSource macDest frameData frameLen etherType vlanId (prng (c + 1)) (cap_rule_list cap) (FState ztDest 0 0 false);
      if accept_code res =? 0 then incoming_caps m cs' (c + 1) ns
      else
        ns ← send_copy st (-1) 0x08 0x1c ns;
        Ok (accept_code res, f_dest st, ns)
  end.

Definition incoming_accepted (accept ztFinalDest : Z) (st : filter_state) (ns : net_state) : cres (Z * net_state) :=
  if accept =? 0 then Ok (accept, ns)
  else
    ns ← send_copy st (-1) 0x08 0x1c ns;
    if negb (ztDest =? ztFinalDest) && negb (ztFinalDest =? 0) then
      ns ← send_ext ztFinalDest (-1) 0x0a frameLen ns;
      Ok (0, ns)
    else Ok (accept, ns).

Definition filterIncomingPacket (ns : net_state) : cres (Z * net_state) :=
  let '(m, ns) := membership_of source ns in
  '(res, st) ← doZtFilter self nconf (Some m) true source macSource macDest frameData frameLen etherType vlanId (prng 0) (nc_rules nconf) (FState ztDest 0 0 false);
  match res with
  | FILTER_NO_MATCH =>
      cs ← valid_credentials (nc_cred nconf) (m_caps m);
      '(accept, dest, ns) ← incoming_caps m cs 0 ns;
      incoming_accepted accept dest st ns
  | FILTER_DROP => Ok (0, ns)
  | _ => incoming_accepted (accept_code res) (f_dest st) st ns
  end.
End incoming.
End packets.

(** ** Frames with memory behind them *)

(** A computation that is defined on a frame gives the same on every object that starts with the frame. *)
Definition below {A} (x y : cres A) : Prop := ∀ a, x = Ok a → y = Ok a.

Lemma below_refl {A} (x : cres A) : below x x.
Proof. by intros a. Qed.

Lemma below_bind {A B} (x y : cres A) (f g : A → cres B) : below x y → (∀ a, below (f a) (g a)) → below (x ≫= f) (y ≫= g).
Proof. intros Hx Hf b. destruct x as [a|]; [|done]. rewrite (Hx a eq_refl). apply Hf. Qed.

Lemma below_if {A} (c : bool) (x x' y y' : cres A) : below x x' → below y y' → below (if c then x else y) (if c then x' else y').
Proof. by destruct c. Qed.

Lemma below_read off n F R : below (mem_read off n F) (mem_read off n (F ++ R)).
Proof.
  intros a. unfold mem_read. destruct ((0 <=? off) && (0 <=? n) && (off + n <=? zlen F)) eqn:E; [|done]. intros [= <-].
  apply andb_prop in E as [[E1 E2]%andb_prop E3]. pose proof (zlen_nonneg R). rewrite E1, E2, zlen_app, (proj2 (Z.leb_le _ _)) by lia. cbn [andb]. unfold zlen in *.
  rewrite drop_app_le, take_app_le by (rewrite ?length_drop; lia). done.
Qed.

Create HintDb below.
#[export] Hint Resolve below_refl below_read : below.

Ltac below_step := first [solve [auto with below]|apply below_bind; [|intros ?]|apply below_if].
Ltac below_tac := repeat first [below_step|case_match].

Section below.
Context (F R : bytes) (frameLen etherType : Z).

Lemma below_byte i : below (frame_byte F i) (frame_byte (F ++ R) i).
Proof. unfold frame_byte, load_le. below_tac. Qed.
#[local] Hint Resolve below_byte : below.

Lemma below_payload : below (ipv6GetPayload F frameLen) (ipv6GetPayload (F ++ R) frameLen).
Proof.
  unfold ipv6GetPayload. below_tac. generalize (Z.to_nat frameLen) as fuel, 40 as pos. intros fuel. revert a. induction fuel as [|fuel IH]; intros proto pos; cbn [ipv6_payload]; below_tac.
Qed.
#[local] Hint Resolve below_payload : below.

Lemma below_contains ip len mask off : below (contains_at F ip len mask off) (contains_at (F ++ R) ip len mask off).
Proof. unfold contains_at. below_tac. Qed.
#[local] Hint Resolve below_contains : below.

Lemma below_tcp : below (tcp_flags F frameLen etherType) (tcp_flags (F ++ R) frameLen etherType).
Proof. unfold tcp_flags, tcp_flags_at. below_tac. Qed.

Lemma below_sender : below (sender_ip F frameLen etherType) (sender_ip (F ++ R) frameLen etherType).
Proof. unfold sender_ip. below_tac. Qed.
#[local] Hint Resolve below_tcp below_sender : below.

Context (self : Z) (nconf : net_conf) (m : option membership) (inbound : bool) (ztSource macSource macDest vlanId : Z) (prng : Z → Z).

Lemma below_match superAccept dest rn r :
  below (match_rule nconf m inbound ztSource macSource macDest F frameLen etherType vlanId prng superAccept dest rn r)
        (match_rule nconf m inbound ztSource macSource macDest (F ++ R) frameLen etherType vlanId prng superAccept dest rn r).
Proof.
  unfold match_rule. cbv zeta. repeat (apply below_if; [solve [auto with below|unfold match_ipv4, match_ipv6, match_tos, match_protocol, match_icmp, match_icmp_at, match_port, port_at, match_characteristics, ownership_flags; below_tac]|]).
  auto with below.
Qed.
End below.

(** ** Where matching is defined *)

Definition defined {A} (x : cres A) : Prop := ∃ a, x = Ok a.

Lemma defined_ok {A} (a : A) : defined (Ok a).
Proof. by exists a. Qed.

Lemma defined_bind {A B} (x : cres A) (f : A → cres B) : defined x → (∀ a, x = Ok a → defined (f a)) → defined (x ≫= f).
Proof. intros [a Ha] Hf. rewrite Ha. by apply Hf. Qed.

Lemma defined_if {A} (c : bool) (x y : cres A) : (c = true → defined x) → (c = false → defined y) → defined (if c then x else y).
Proof. destruct c; auto. Qed.

(** A rule as large as the structure, with masks that are prefix lengths. *)
Record rule_ok (r : rule) : Prop := {
  rule_size : zlen (rule_v r) = sizeof_rule_v;
  rule_bytes : bytes_ok (rule_v r);
  rule_mask4 : rule_type r = MATCH_IPV4_SOURCE ∨ rule_type r = MATCH_IPV4_DEST → member 1 4 r <= 32;
  rule_mask6 : rule_type r = MATCH_IPV6_SOURCE ∨ rule_type r = MATCH_IPV6_DEST → member 1 16 r <= 128;
}.

(** A frame that is not the start of a TCP segment over IPv4 whose header is incomplete. *)
Record frame_ok (F : bytes) (etherType : Z) : Prop := {
  frame_bytes : bytes_ok F;
  frame_size : zlen F < 2 ^ 31;
  frame_tcp : etherType = ZT_ETHERTYPE_IPV4 → 20 <= zlen F → nth 9 F 0 = 0x06 → 4 * Z.land (nth 0 F 0) 0xf + 14 <= zlen F;
}.

Record coo_ok (c : ownership) : Prop := {
  coo_count : coo_thingCount c <= Z.of_nat ZT_CERTIFICATEOFOWNERSHIP_MAX_THINGS;
  coo_types : length (coo_thingTypes c) = ZT_CERTIFICATEOFOWNERSHIP_MAX_THINGS;
  coo_values : length (coo_thingValues c) = ZT_CERTIFICATEOFOWNERSHIP_MAX_THINGS;
}.

Record member_ok (m : membership) : Prop := {
  member_tags : store_ok ZT_MAX_NETWORK_TAGS (m_tags m);
  member_caps : store_ok ZT_MAX_NETWORK_CAPABILITIES (m_caps m);
  member_coos : store_ok ZT_MAX_CERTIFICATES_OF_OWNERSHIP (m_coos m);
  member_coos_ok : ∀ p r, slots (m_coos m) !! p = Some r → coo_ok (r_credential r);
}.

Lemma member_range n off r : rule_ok r → (off + n <= 24)%nat → 0 <= member n off r < 256 ^ Z.of_nat n.
Proof.
  intros [Hs Hb _ _] Hn. unfold member. assert (length (take n (drop off (rule_v r))) = n) as Hl by (unfold zlen, sizeof_rule_v in Hs; rewrite length_take, length_drop; lia).
  pose proof (le_val_bound (take n (drop off (rule_v r)))) as Hv. unfold zlen in Hv. rewrite Hl in Hv. apply Hv. by apply Forall_take, Forall_drop.
Qed.

(** *** Addresses *)

Lemma set_bits (ip : bytes) len bits : zlen ip = len → len = 4 ∨ len = 16 → 0 <= bits < 256 →
  ∃ x, InetAddress.set ip len bits = Ok x ∧ InetAddress.isV4 x = (len =? 4) ∧ InetAddress.isV6 x = (len =? 16) ∧ InetAddress.netmaskBits x = bits.
Proof.
  intros Hl Hlen Hb. assert (hton 2 (wrap 16 bits) = le_val (be_bytes 2 bits)) as Eh.
  { unfold hton. by rewrite wrap_small by (unfold word_ok; lia). }
  assert (le_bytes 2 (hton 2 (wrap 16 bits)) = be_bytes 2 bits) as Ep by (rewrite Eh; exact (le_bytes_val (be_bytes 2 bits) (be_bytes_ok 2 bits))).
  assert (ntoh 2 (le_val (be_bytes 2 bits)) = bits) as Hport by (rewrite ntoh_le_val by (apply be_bytes_ok || done); rewrite be_val_bytes; apply Z.mod_small; lia).
  assert (mem_read 0 len ip = Ok ip) as Er by (rewrite <- Hl; apply mem_read_all). unfold InetAddress.set. destruct Hlen as [-> | ->]; cbn [Z.eqb Pos.eqb]; rewrite Er; cbn [mbind cres_bind]; rewrite Ep.
  - destruct (fields_of InetAddress.AF_INET 4 ip bits) as (Ef & _ & Ept); [lia|unfold zlen in Hl; unfold InetAddress.SIZE; lia|]. set (y := InetAddress.set_fld 2 _ _) in *. clearbody y.
    exists y. unfold InetAddress.netmaskBits, InetAddress.port, InetAddress.isV4, InetAddress.isV6. rewrite Ef, Ept. done.
  - destruct (fields_of InetAddress.AF_INET6 8 ip bits) as (Ef & _ & Ept); [lia|unfold zlen in Hl; unfold InetAddress.SIZE; lia|]. set (y := InetAddress.set_fld 2 _ _) in *. clearbody y.
    exists y. unfold InetAddress.netmaskBits, InetAddress.port, InetAddress.isV4, InetAddress.isV6. rewrite Ef, Ept. done.
Qed.

Lemma contains_defined4 x a : InetAddress.isV4 x = true → 0 <= InetAddress.netmaskBits x <= 32 → defined (InetAddress.containsAddress x a).
Proof.
  intros H4 Hb. unfold InetAddress.containsAddress. destruct (_ =? _); [|apply defined_ok]. rewrite H4. destruct (Z.eqb_spec (InetAddress.netmaskBits x) 0); [apply defined_ok|].
  assert (wrap 32 (32 - InetAddress.netmaskBits x) = 32 - InetAddress.netmaskBits x) as -> by (apply wrap_small; unfold word_ok; lia). unfold shr.
  rewrite (proj2 (Z.leb_le 0 _)), (proj2 (Z.ltb_lt _ 32)) by lia. cbn. apply defined_ok.
Qed.

Lemma contains_defined6 x a : InetAddress.isV4 x = false → InetAddress.isV6 x = true → 0 <= InetAddress.netmaskBits x <= 128 → defined (InetAddress.containsAddress x a).
Proof.
  intros H4 H6 Hb. unfold InetAddress.containsAddress. destruct (_ =? _); [|apply defined_ok]. rewrite H4, H6. apply defined_bind; [|intros; apply defined_ok].
  unfold InetAddress.netmask. rewrite H4, H6. apply defined_if; [|intros; apply defined_ok]. intros Hz. apply negb_true_iff, Z.eqb_neq in Hz.
  apply defined_bind; [|intros hi _; apply defined_bind; [|intros; apply defined_ok]].
  - unfold InetAddress.mask6_hi. destruct (Z.leb_spec 64 (InetAddress.netmaskBits x)); [apply defined_ok|]. rewrite wrap_small by (unfold word_ok; lia). unfold shl.
    rewrite (proj2 (Z.leb_le 0 _)), (proj2 (Z.ltb_lt _ 64)) by lia. apply defined_ok.
  - unfold InetAddress.mask6_lo. destruct (Z.leb_spec (InetAddress.netmaskBits x) 64); [apply defined_ok|]. rewrite wrap_small by (unfold word_ok; lia). unfold shl.
    rewrite (proj2 (Z.leb_le 0 _)), (proj2 (Z.ltb_lt _ 64)) by lia. apply defined_ok.
Qed.

Lemma lower_bound_defined (at_ : nat → cres Z) n fuel id : (∀ i, (i < n)%nat → defined (at_ i)) → ∀ first len, (len <= fuel)%nat → (first + len <= n)%nat →
  defined (lower_bound at_ fuel id first len).
Proof.
  intros Hat. induction fuel as [|fuel IH]; intros first len Hf Hn; cbn [lower_bound]; case_decide; try apply defined_ok; [lia|].
  pose proof (Nat.lt_div2 len ltac:(lia)) as Hd. set (half := Nat.div2 len) in *. apply defined_bind; [apply Hat; lia|]. intros k _. apply defined_if; intros _; apply IH; lia.
Qed.

Lemma owns_defined t v c : coo_ok c → defined (owns_thing t v c).
Proof.
  intros [Hc Ht Hv]. unfold owns_thing. unfold ZT_CERTIFICATEOFOWNERSHIP_MAX_THINGS in *.
  assert (∀ n i, (i + n <= 16)%nat → defined (owns_loop n t v c i)) as Hl; [|apply Hl; lia]. induction n as [|n IH]; intros i Hn; cbn [owns_loop]; [apply defined_ok|].
  destruct (lookup_lt_is_Some_2 (coo_thingTypes c) i) as [ty ->]; [lia|]. destruct (lookup_lt_is_Some_2 (coo_thingValues c) i) as [x ->]; [lia|].
  repeat case_match; try apply defined_ok; apply IH; lia.
Qed.

Lemma owns_ip_defined ip c : coo_ok c → defined (owns_ip ip c).
Proof. intros Hc. unfold owns_ip. repeat case_match; try apply defined_ok; by apply owns_defined. Qed.

Lemma any_owner_defined owns nconf m : member_ok m → (∀ c, coo_ok c → defined (owns c)) → defined (hasCertificateOfOwnershipFor owns nconf m).
Proof.
  intros [_ _ Hs Hc] Ho. unfold hasCertificateOfOwnershipFor.
  assert (∀ p, p ∈ ptrs (m_coos m) → is_Some (slots (m_coos m) !! p)) as Hp.
  { intros p. rewrite (ok_ptrs _ _ Hs), elem_of_seq. intros Hp. apply lookup_lt_is_Some_2. rewrite (ok_slots _ _ Hs). lia. }
  revert Hp. generalize (ptrs (m_coos m)) as ps. induction ps as [|p ps IH]; intros Hp; cbn [any_owner]; [apply defined_ok|].
  destruct (Hp p ltac:(left)) as [r Hr]. unfold slot. rewrite Hr. cbn [mbind cres_bind]. assert (defined (any_owner owns nconf (m_coos m) ps)) as IH' by (apply IH; intros q Hq; apply Hp; by right).
  apply defined_if; intros _; [apply defined_ok|]. apply defined_if; intros _; [|done]. apply defined_bind; [apply Ho, (Hc p r Hr)|]. intros [] _; [apply defined_ok|done].
Qed.

Section defined.
Context (F : bytes) (etherType : Z) (HF : frame_ok F etherType).
Local Abbreviation frameLen := (zlen F).

Lemma byte_defined i : 0 <= i < frameLen → ∃ b, frame_byte F i = Ok b ∧ 0 <= b < 256 ∧ b = nth (Z.to_nat i) F 0.
Proof.
  intros Hi. destruct (lookup_lt_is_Some_2 F (Z.to_nat i)) as [b Hb]; [unfold zlen in Hi; lia|]. exists b. unfold frame_byte, load_le. rewrite mem_read_ok by lia.
  assert (take (Z.to_nat (Z.of_nat 1)) (drop (Z.to_nat i) F) = [b]) as ->.
  { rewrite (drop_S F b) by done. done. }
  cbn [mbind cres_bind]. pose proof (proj1 (Forall_lookup _ _) (frame_bytes _ _ HF) _ _ Hb) as Hbb. unfold byte_ok in Hbb. split_and!; [f_equal; cbn; lia|lia|lia|]. symmetry. by apply nth_lookup_Some.
Qed.

Lemma defined_byte {B} i (f : Z → cres B) : 0 <= i < frameLen → (∀ b, 0 <= b < 256 → b = nth (Z.to_nat i) F 0 → defined (f b)) → defined (frame_byte F i ≫= f).
Proof. intros Hi Hf. destruct (byte_defined i Hi) as (b & -> & Hb & Hn). by apply Hf. Qed.

Lemma payload_loop_defined fuel pos proto : 40 <= pos < 2 ^ 32 - 2 ^ 12 → frameLen - pos <= Z.of_nat fuel →
  ∃ o, ipv6_payload F frameLen fuel pos proto = Ok o ∧ match o with Some (pos, proto) => 40 <= pos <= frameLen | None => True end.
Proof.
  pose proof (frame_size _ _ HF) as Hs. revert pos proto. induction fuel as [|fuel IH]; intros pos proto Hp Hf; cbn [ipv6_payload]; (destruct (Z.leb_spec pos frameLen); [|by exists None]);
    (destruct (is_extension proto); [|exists (Some (pos, proto)); split; [done|lia]]);
    unfold wadd at 1; rewrite wrap_small by (unfold word_ok; lia); (destruct (Z.ltb_spec frameLen (pos + 8)); [by exists None|]); [lia|].
  destruct (byte_defined pos ltac:(lia)) as (proto' & -> & _). cbn [mbind cres_bind]. destruct (byte_defined (pos + 1) ltac:(lia)) as (l & -> & Hl & _). cbn [mbind cres_bind].
  unfold wadd. rewrite wrap_small by (unfold word_ok; lia). apply IH; lia.
Qed.

Lemma payload_defined : ∃ o, ipv6GetPayload F frameLen = Ok o ∧ match o with Some (pos, proto) => 40 <= pos <= frameLen | None => True end.
Proof.
  unfold ipv6GetPayload. destruct (Z.ltb_spec frameLen 40); [by exists None|]. destruct (byte_defined 6 ltac:(lia)) as (proto & -> & _). cbn [mbind cres_bind].
  apply payload_loop_defined; lia.
Qed.

Lemma defined_payload {B} (f : option (Z * Z) → cres B) : defined (f None) → (∀ pos proto, 40 <= pos <= frameLen → defined (f (Some (pos, proto)))) → defined (ipv6GetPayload F frameLen ≫= f).
Proof. intros Hn Hs. destruct payload_defined as (o & -> & Ho). cbn [mbind cres_bind]. destruct o as [[pos proto]|]; [by apply Hs|done]. Qed.

Lemma contains_at_defined ip len mask off : zlen ip = len → len = 4 ∨ len = 16 → 0 <= mask < 256 → mask <= (if len =? 4 then 32 else 128) → 0 <= off → off + len <= frameLen →
  defined (contains_at F ip len mask off).
Proof.
  intros Hip Hlen Hm Hmask H0 Hoff. unfold contains_at. destruct (set_bits ip len mask Hip Hlen Hm) as (x & -> & H4 & H6 & Hb). cbn [mbind cres_bind].
  rewrite mem_read_ok by lia. cbn [mbind cres_bind]. assert (zlen (take (Z.to_nat len) (drop (Z.to_nat off) F)) = len) as Hd by (unfold zlen in *; rewrite length_take, length_drop; lia).
  destruct (set_bits _ len 0 Hd Hlen ltac:(lia)) as (a & -> & _). cbn [mbind cres_bind]. destruct Hlen as [-> | ->]; [apply contains_defined4|apply contains_defined6]; try done; cbn in Hmask; lia.
Qed.

Lemma is_ipv4_len : is_ipv4 frameLen etherType = true → etherType = ZT_ETHERTYPE_IPV4 ∧ 20 <= frameLen.
Proof. unfold is_ipv4. intros [H1 H2]%andb_prop. split; lia. Qed.

Lemma is_ipv6_len : is_ipv6 frameLen etherType = true → 40 <= frameLen.
Proof. unfold is_ipv6. intros [_ H2]%andb_prop. lia. Qed.

Lemma low_nibble b : 0 <= b → 0 <= Z.land b 0xf < 16.
Proof. intros Hb. change 0xf with (Z.ones 4). rewrite Z.land_ones by lia. apply Z.mod_pos_bound. lia. Qed.

Lemma icmp_at_defined r pos : 0 <= pos → pos + 2 <= frameLen → defined (match_icmp_at F r pos).
Proof.
  intros H0 Hp. unfold match_icmp_at. apply defined_byte; [lia|]. intros ty _ _. apply defined_if; intros _; [|apply defined_ok]. apply defined_if; intros _; [|apply defined_ok].
  apply defined_byte; [lia|]. intros; apply defined_ok.
Qed.

Lemma port_at_defined proto pos dest : 0 <= pos < 2 ^ 32 - 8 → defined (port_at F frameLen proto pos dest).
Proof.
  intros Hp. unfold port_at. apply defined_if; intros E; [|apply defined_ok]. apply andb_prop in E as [_ E]. unfold wadd in E. rewrite wrap_small in E by (unfold word_ok; lia).
  apply defined_byte; [destruct dest; lia|]. intros hi _ _. apply defined_byte; [destruct dest; lia|]. intros; apply defined_ok.
Qed.

Lemma tcp_flags_defined : defined (tcp_flags F frameLen etherType).
Proof.
  pose proof (frame_size _ _ HF) as Hs. assert (∀ pos, 0 <= pos → pos + 14 <= frameLen → defined (tcp_flags_at F pos)) as Hat.
  { intros pos H0 Hp. unfold tcp_flags_at. apply defined_byte; [lia|]. intros b13 _ _. apply defined_byte; [lia|]. intros; apply defined_ok. }
  unfold tcp_flags. destruct (is_ipv4 frameLen etherType) eqn:E4.
  - destruct (is_ipv4_len E4) as [Ht Hl]. apply defined_byte; [lia|]. intros b9 _ H9. apply defined_if; intros Hb.
    + apply defined_byte; [lia|]. intros b0 Hb0 Hn0. pose proof (low_nibble b0 ltac:(lia)). apply Hat; [lia|]. subst b0. apply (frame_tcp _ _ HF Ht Hl). change (Z.to_nat 9) with 9%nat in H9. lia.
    + rewrite Ht. apply defined_ok.
  - cbn [mbind cres_bind Z.eqb]. apply defined_if; intros _; [|apply defined_ok]. apply defined_payload; [apply defined_ok|]. intros pos proto Hp. apply defined_if; intros E; [|apply defined_ok].
    apply andb_prop in E as [_ E]. unfold wadd in E. rewrite wrap_small in E by (unfold word_ok; lia). apply Hat; lia.
Qed.

Lemma set0_defined {B} off len (f : bytes → cres B) : len = 4 ∨ len = 16 → 0 <= off → off + len <= frameLen → (∀ x, defined (f x)) →
  defined (d ← mem_read off len F; src ← InetAddress.set d len 0; f src).
Proof.
  intros Hlen H0 Hoff Hf. rewrite mem_read_ok by lia. cbn [mbind cres_bind]. assert (zlen (take (Z.to_nat len) (drop (Z.to_nat off) F)) = len) as Hd by (unfold zlen in *; rewrite length_take, length_drop; lia).
  destruct (set_bits _ len 0 Hd Hlen ltac:(lia)) as (a & -> & _). apply Hf.
Qed.

Lemma sender_ip_defined : defined (sender_ip F frameLen etherType).
Proof.
  unfold sender_ip. apply defined_if; intros E4; [destruct (is_ipv4_len E4); apply set0_defined; [by left|lia|lia|intros; apply defined_ok]|].
  apply defined_if; intros E6; [pose proof (is_ipv6_len E6)|].
  - destruct (Z.leb_spec (40 + 8 + 16) frameLen); cbn [andb]; [apply defined_byte; [lia|]; intros b6 _ _|cbn [mbind cres_bind]].
    + apply defined_bind; [apply defined_if; intros _; [destruct (byte_defined 40 ltac:(lia)) as (b & -> & _)|]; apply defined_ok|]. intros b40 _.
      repeat (apply defined_if; intros _; [first [apply defined_ok|apply set0_defined; [by right|lia|lia|intros; apply defined_ok]]|]). apply set0_defined; [by right|lia|lia|intros; apply defined_ok].
    + cbn [Z.eqb]. apply set0_defined; [by right|lia|lia|intros; apply defined_ok].
  - apply defined_if; intros E; [|apply defined_ok]. apply andb_prop in E as [_ E]. apply set0_defined; [by left|lia|lia|intros; apply defined_ok].
Qed.
End defined.

Section rules_defined.
Context (F : bytes) (etherType : Z) (HF : frame_ok F etherType).
Context (nconf : net_conf) (m : option membership) (inbound : bool) (ztSource macSource macDest vlanId : Z) (prng : Z → Z).
Context (Hcoos : Forall coo_ok (nc_coos nconf)) (Hm : ∀ x, m = Some x → member_ok x).

Lemma own_flags_defined src cs mask : Forall coo_ok cs → defined (own_flags macSource src cs mask).
Proof.
  intros Hcs. revert mask. induction Hcs as [|c cs Hc _ IH]; intros mask; cbn [own_flags]; [apply defined_ok|].
  apply defined_bind; [apply defined_if; intros _; [by apply owns_ip_defined|apply defined_ok]|]. intros ip _. apply defined_bind; [by apply owns_defined|]. intros mac _. apply IH.
Qed.

Lemma ownership_flags_defined : defined (ownership_flags nconf m inbound macSource F (zlen F) etherType).
Proof.
  unfold ownership_flags. apply defined_bind; [by apply sender_ip_defined|]. intros [src solicit] _. apply defined_if; intros _; [|by apply own_flags_defined].
  destruct m as [x|] eqn:Em; [|apply defined_ok]. pose proof (Hm x eq_refl) as Hx.
  apply defined_bind; [apply defined_if; intros _; [apply any_owner_defined; [done|]; intros; by apply owns_ip_defined|apply defined_ok]|]. intros ip _.
  apply defined_bind; [apply any_owner_defined; [done|]; intros; by apply owns_defined|]. intros; apply defined_ok.
Qed.

Lemma local_tag_defined id : defined (local_tag nconf id).
Proof.
  unfold local_tag. apply defined_bind; [|intros; apply defined_ok]. apply (lower_bound_defined _ (length (nc_tags nconf))); [|lia|lia].
  intros i Hi. destruct (lookup_lt_is_Some_2 _ _ Hi) as [t ->]. apply defined_ok.
Qed.

Lemma remote_tag_defined r : rule_ok r → defined (remote_tag nconf m (member 4 0 r)).
Proof.
  intros Hr. unfold remote_tag. destruct m as [x|] eqn:Em; [|apply defined_ok]. pose proof (member_range 4 0 r Hr ltac:(lia)).
  rewrite (getTag_ok _ _ _ _ (member_tags x (Hm x eq_refl))) by (unfold ZT_MEMBERSHIP_CRED_ID_UNUSED; lia). apply defined_ok.
Qed.

Lemma match_tags_defined sa r : rule_ok r → defined (match_tags nconf m inbound sa r) ∧ defined (match_tag_of nconf m inbound sa r).
Proof.
  intros Hr. split; unfold match_tags, match_tag_of.
  - apply defined_bind; [apply local_tag_defined|]. intros [l|] _; [|apply defined_ok]. apply defined_bind; [by apply remote_tag_defined|]. intros [t|] _; [|apply defined_ok].
    cbv zeta. repeat (apply defined_if; intros _; [apply defined_ok|]). apply defined_ok.
  - apply defined_if; intros _; [apply defined_ok|]. apply defined_if; intros _; (apply defined_bind; [by apply remote_tag_defined || apply local_tag_defined|]); intros; apply defined_ok.
Qed.

Lemma mac_defined r : rule_ok r → defined (MAC.setTo (take 6 (rule_v r)) 6).
Proof.
  intros [Hs _ _ _]. unfold sizeof_rule_v in Hs. unfold MAC.setTo. change (6 <? 6) with false. cbv iota. assert (zlen (take 6 (rule_v r)) = 6) as Hl by (unfold zlen in *; rewrite length_take; lia).
  rewrite <- Hl at 1. rewrite mem_read_all. cbn [mbind cres_bind]. unfold zlen in Hl. destruct (take 6 (rule_v r)) as [|b0 [|b1 [|b2 [|b3 [|b4 [|b5 [|]]]]]]]; cbn in Hl; try lia. apply defined_ok.
Qed.

Lemma match_ip_defined r : rule_ok r →
  (rule_type r = MATCH_IPV4_SOURCE ∨ rule_type r = MATCH_IPV4_DEST → ∀ off, 0 <= off <= 16 → defined (match_ipv4 F (zlen F) etherType r off)) ∧
  (rule_type r = MATCH_IPV6_SOURCE ∨ rule_type r = MATCH_IPV6_DEST → ∀ off, 0 <= off <= 24 → defined (match_ipv6 F (zlen F) etherType r off)).
Proof.
  intros Hr. pose proof (rule_size r Hr) as Hs. unfold sizeof_rule_v in Hs. split; intros Ht off Hoff; unfold match_ipv4, match_ipv6; apply defined_if; intros E; try apply defined_ok.
  - destruct (is_ipv4_len F etherType E). pose proof (member_range 1 4 r Hr ltac:(lia)). pose proof (rule_mask4 r Hr Ht).
    apply contains_at_defined; [unfold zlen in *; rewrite length_take; lia|by left|lia|cbn; lia|lia|lia].
  - pose proof (is_ipv6_len F etherType E). pose proof (member_range 1 16 r Hr ltac:(lia)). pose proof (rule_mask6 r Hr Ht).
    apply contains_at_defined; [unfold zlen in *; rewrite length_take; lia|by right|lia|cbn; lia|lia|lia].
Qed.

Lemma match_header_defined r : defined (match_tos F (zlen F) etherType r) ∧ defined (match_protocol F (zlen F) etherType r)
  ∧ defined (match_icmp F (zlen F) etherType r) ∧ ∀ dest, defined (match_port F (zlen F) etherType r dest).
Proof.
  pose proof (frame_size _ _ HF) as Hs.
  split_and!; [..|intros dest]; unfold match_tos, match_protocol, match_icmp, match_port; cbv zeta; (apply defined_if; intros E4; [destruct (is_ipv4_len F etherType E4) as [_ H4]|]).
  - apply (defined_byte F etherType HF); [lia|]. intros; apply defined_ok.
  - apply defined_if; intros E6; [pose proof (is_ipv6_len F etherType E6)|apply defined_ok]. apply (defined_byte F etherType HF); [lia|]. intros b0 _ _. apply (defined_byte F etherType HF); [lia|]. intros; apply defined_ok.
  - apply (defined_byte F etherType HF); [lia|]. intros; apply defined_ok.
  - apply defined_if; intros _; [|apply defined_ok]. apply (defined_payload F etherType HF); [|intros]; apply defined_ok.
  - apply (defined_byte F etherType HF); [lia|]. intros b9 _ _. apply defined_if; intros _; [|apply defined_ok]. apply (defined_byte F etherType HF); [lia|]. intros b0 Hb0 _. pose proof (low_nibble b0 ltac:(lia)).
    apply defined_if; intros E; [|apply defined_ok]. apply (icmp_at_defined F etherType HF); lia.
  - apply defined_if; intros _; [|apply defined_ok]. apply (defined_payload F etherType HF); [apply defined_ok|]. intros pos proto Hp. apply defined_if; intros E; [|apply defined_ok].
    apply andb_prop in E as [_ E]. unfold wadd in E. rewrite wrap_small in E by (unfold word_ok; lia). apply (icmp_at_defined F etherType HF); lia.
  - apply (defined_byte F etherType HF); [lia|]. intros b0 Hb0 _. pose proof (low_nibble b0 ltac:(lia)). apply (defined_byte F etherType HF); [lia|]. intros b9 _ _.
    apply defined_bind; [apply (port_at_defined F etherType HF); lia|]. intros; apply defined_ok.
  - apply defined_if; intros _; [|apply defined_ok]. apply (defined_payload F etherType HF); [apply defined_ok|]. intros pos proto Hp.
    apply defined_bind; [apply (port_at_defined F etherType HF); lia|]. intros; apply defined_ok.
Qed.

Lemma match_rule_defined sa dest rn r : rule_ok r →
  defined (match_rule nconf m inbound ztSource macSource macDest F (zlen F) etherType vlanId prng sa dest rn r).
Proof.
  intros Hr. destruct (match_tags_defined sa r Hr) as [Ht1 Ht2]. destruct (match_ip_defined r Hr) as [H4 H6]. destruct (match_header_defined r) as (Htos & Hproto & Hicmp & Hport). pose proof (mac_defined r Hr) as Hmac.
  unfold match_rule. cbv zeta. repeat (apply defined_if; intros E; [first [apply defined_ok|assumption|apply Hport|apply defined_bind; [exact Hmac|intros; apply defined_ok]|apply H4; [lia|lia]|apply H6; [lia|lia]|idtac]|clear E]).
  - unfold match_characteristics. cbv zeta. apply defined_bind; [apply ownership_flags_defined|]. intros own _. apply defined_bind; [by apply tcp_flags_defined|]. intros; apply defined_ok.
  - apply defined_ok.
Qed.
End rules_defined.

(** ** What a list of rules means *)

(** The list as sets of matches, numbered, each with the action that follows them. *)
Fixpoint rule_sets (rn : Z) (ms : list (Z * rule)) (rules : list rule) : list (list (Z * rule) * rule) :=
  match rules with
  | [] => []
  | r :: rules' =>
      if rule_type r <=? ACTION__MAX_ID then (ms, r) :: rule_sets (rn + 1) [] rules'
      else rule_sets (rn + 1) (ms ++ [(rn, r)]) rules'
  end.

(** The place [k] of a set is its start or behind an OR that holds, and from there on every AND holds. *)
Definition matches_from (hold : Z → rule → bool) (ms : list (Z * rule)) (k : nat) : bool :=
  (match k with O => true | S k' => match ms !! k' with Some (rn, r) => rule_or r && hold rn r | None => false end end)
  && forallb (λ '(rn, r), rule_or r || hold rn r) (drop k ms).

(** A set matches when there is such a place in it. *)
Definition set_matches (hold : Z → rule → bool) (ms : list (Z * rule)) : bool := existsb (matches_from hold ms) (seq 0 (S (length ms))).

Lemma set_matches_nil hold : set_matches hold [] = true.
Proof. done. Qed.

Lemma matches_from_snoc hold ms rn r k : (k <= length ms)%nat → matches_from hold (ms ++ [(rn, r)]) k = matches_from hold ms k && (rule_or r || hold rn r).
Proof.
  intros Hk. unfold matches_from. rewrite drop_app_le, forallb_app by lia. cbn [forallb]. rewrite andb_true_r, andb_assoc. f_equal. f_equal. destruct k as [|k]; [done|]. by rewrite lookup_app_l by lia.
Qed.

Lemma set_matches_snoc hold ms rn r : set_matches hold (ms ++ [(rn, r)]) = if rule_or r then set_matches hold ms || hold rn r else set_matches hold ms && hold rn r.
Proof.
  assert (existsb (matches_from hold (ms ++ [(rn, r)])) (seq 0 (S (length ms))) = set_matches hold ms && (rule_or r || hold rn r)) as E.
  { unfold set_matches. assert (∀ k, k ∈ seq 0 (S (length ms)) → (k <= length ms)%nat) as Hks by (intros k Hk%elem_of_seq; lia). revert Hks. generalize (seq 0 (S (length ms))) as ks.
    induction ks as [|k ks IH]; intros Hks; [done|]. cbn [existsb]. rewrite IH by (intros x Hx; apply Hks; by right). rewrite matches_from_snoc by (apply Hks; left). by rewrite andb_orb_distrib_l. }
  assert (matches_from hold (ms ++ [(rn, r)]) (S (length ms)) = rule_or r && hold rn r) as E'.
  { unfold matches_from. rewrite lookup_app_r, Nat.sub_diag by lia. cbn [lookup list_lookup]. rewrite drop_ge by (rewrite length_app; cbn; lia). cbn [forallb]. by rewrite andb_true_r. }
  unfold set_matches at 1. rewrite length_app. replace (S (length ms + length [(rn, r)]))%nat with (S (length ms) + 1)%nat by (cbn; lia).
  rewrite seq_app, existsb_app, E. cbn [seq existsb]. rewrite Nat.add_0_l, E'. destruct (rule_or r), (hold rn r), (set_matches hold ms); done.
Qed.

Section reference.
Context (self : Z) (nconf : net_conf) (member_ : option membership) (inbound : bool) (ztSource macSource macDest : Z).
Context (frameData : bytes) (frameLen etherType vlanId : Z) (prng : Z → Z).
Local Abbreviation match_rule_ := (match_rule nconf member_ inbound ztSource macSource macDest frameData frameLen etherType vlanId prng).

(** Whether a match holds, its NOT included. *)
Definition holds_rule (superAccept : bool) (dest rn : Z) (r : rule) : bool :=
  match match_rule_ superAccept dest rn r with Ok b => xorb b (rule_not r) | Undef _ => false end.

(** The sets one after the other: the action of a set that matches is taken; passing over one that would have
    forwarded the frame to this node makes the node super-accept. *)
Fixpoint eval_sets (sets : list (list (Z * rule) * rule)) (superAccept : bool) (st : filter_state) : filter_result * filter_state :=
  match sets with
  | [] => (FILTER_NO_MATCH, st)
  | (ms, action) :: sets' =>
      if set_matches (holds_rule superAccept (f_dest st)) ms then
        match take_action self inbound ztSource frameLen superAccept action st with
        | (Some res, st) => (res, st)
        | (None, st) => eval_sets sets' superAccept st
        end
      else eval_sets sets' (superAccept || inbound && is_forward (rule_type action) && (self =? fwd_address action)) st
  end.

Lemma filter_loop_eval rules : (∀ sa dest rn r, r ∈ rules → defined (match_rule_ sa dest rn r)) → ∀ rn ms sa st,
  filter_loop self nconf member_ inbound ztSource macSource macDest frameData frameLen etherType vlanId prng rules rn sa (set_matches (holds_rule sa (f_dest st)) ms) st
  = Ok (eval_sets (rule_sets rn ms rules) sa st).
Proof.
  induction rules as [|r rules IH]; intros Hd rn ms sa st; [done|]. assert (∀ sa dest rn x, x ∈ rules → defined (match_rule_ sa dest rn x)) as Hd' by (intros; apply Hd; by right).
  specialize (IH Hd'). cbn [filter_loop rule_sets]. destruct (rule_type r <=? ACTION__MAX_ID).
  - cbn [eval_sets]. destruct (set_matches _ ms).
    + destruct (take_action _ _ _ _ sa r st) as [[res|] st']; [done|]. exact (IH (rn + 1) [] sa st').
    + rewrite <- (IH (rn + 1) []). rewrite set_matches_nil. f_equal. by destruct (inbound && _ && _), sa.
  - rewrite <- IH, set_matches_snoc. destruct (Hd sa (f_dest st) rn r ltac:(left)) as [b Hb]. destruct (negb (set_matches _ ms) && negb (rule_or r)) eqn:E.
    + apply andb_prop in E as [E1 E2]. apply negb_true_iff in E1, E2. by rewrite E1, E2.
    + assert (holds_rule sa (f_dest st) rn r = xorb b (rule_not r)) as Eh by (unfold holds_rule; by rewrite Hb). rewrite Hb, Eh. done.
Qed.
End reference.

Lemma below_filter self nconf m inbound ztSource macSource macDest F R frameLen etherType vlanId prng rules rn sa tsm st :
  below (filter_loop self nconf m inbound ztSource macSource macDest F frameLen etherType vlanId prng rules rn sa tsm st)
        (filter_loop self nconf m inbound ztSource macSource macDest (F ++ R) frameLen etherType vlanId prng rules rn sa tsm st).
Proof.
  revert rn sa tsm st. induction rules as [|r rules IH]; intros rn sa tsm st; cbn [filter_loop]; [apply below_refl|]. apply below_if; [apply below_if|apply below_if].
  - destruct (take_action _ _ _ _ sa r st) as [[res|] st']; [apply below_refl|apply IH].
  - apply IH.
  - apply IH.
  - apply below_bind; [apply below_match|]. intros b. apply IH.
Qed.

(** The verdict on a frame, whatever memory is behind it. *)
Lemma doZtFilter_ok self nconf m inbound ztSource macSource macDest F R etherType vlanId prng rules st :
  frame_ok F etherType → Forall rule_ok rules → Forall coo_ok (nc_coos nconf) → (∀ x, m = Some x → member_ok x) →
  doZtFilter self nconf m inbound ztSource macSource macDest (F ++ R) (zlen F) etherType vlanId prng rules st
  = Ok (eval_sets self nconf m inbound ztSource macSource macDest F (zlen F) etherType vlanId prng (rule_sets 0 [] rules) false st).
Proof.
  intros HF Hr Hc Hm. apply below_filter. rewrite Forall_forall in Hr. apply (filter_loop_eval self nconf m inbound ztSource macSource macDest F (zlen F) etherType vlanId prng rules) with (ms := []).
  intros sa dest rn r Hin. apply match_rule_defined; [done..|by apply Hr].
Qed.

(** ** What is sent *)

Lemma take_action_len self inbound ztSource frameLen sa r st : rule_ok r → 0 <= frameLen → 0 <= f_ccLength st <= frameLen →
  0 <= f_ccLength (take_action self inbound ztSource frameLen sa r st).2 <= frameLen.
Proof.
  intros Hr Hf Hst. pose proof (member_range 2 12 r Hr ltac:(lia)) as Hl. unfold take_action. cbv zeta. repeat case_match; cbn [snd f_ccLength]; unfold fwd_length in *; lia.
Qed.

Section eval_len.
Context (self : Z) (nconf : net_conf) (m : option membership) (inbound : bool) (ztSource macSource macDest : Z) (F : bytes) (etherType vlanId : Z) (prng : Z → Z).

Lemma eval_sets_len sets sa st : Forall (λ s, rule_ok s.2) sets → 0 <= f_ccLength st <= zlen F →
  0 <= f_ccLength (eval_sets self nconf m inbound ztSource macSource macDest F (zlen F) etherType vlanId prng sets sa st).2 <= zlen F.
Proof.
  pose proof (zlen_nonneg F). intros Hs. revert sa st. induction Hs as [|[ms a] sets Ha _ IH]; intros sa st Hst; [done|]. cbn [eval_sets]. cbn [snd] in Ha. destruct (set_matches _ ms); [|by apply IH].
  pose proof (take_action_len self inbound ztSource (zlen F) sa a st Ha ltac:(lia) Hst) as Hl. destruct (take_action _ _ _ _ sa a st) as [[res|] st']; [done|by apply IH].
Qed.

Lemma rule_sets_ok rn ms rules : Forall rule_ok rules → Forall (λ s, rule_ok s.2) (rule_sets rn ms rules).
Proof. intros Hr. revert rn ms. induction Hr as [|r rules Hr _ IH]; intros rn ms; cbn [rule_sets]; [constructor|]. destruct (_ <=? _); [constructor; [done|]|]; apply IH. Qed.
End eval_len.

Section outgoing_proofs.
Context (self nwid : Z) (nconf : net_conf) (macSource macDest : Z) (F R : bytes) (etherType vlanId : Z) (prng : Z → Z → Z) (noTee : bool) (ztSource ztDest : Z).
Context (HF : frame_ok F etherType) (Hrules : Forall rule_ok (nc_rules nconf)) (Hcaps : Forall (λ c, Forall rule_ok (cap_rule_list c)) (nc_caps nconf)) (Hcoos : Forall coo_ok (nc_coos nconf)).

(** The i-th evaluation: the rules of the network and of the capabilities. *)
Definition outgoing_verdict (m : option membership) (i : Z) (rules : list rule) : filter_result * filter_state :=
  eval_sets self nconf m false ztSource macSource macDest F (zlen F) etherType vlanId (prng i) (rule_sets 0 [] rules) false (FState ztDest 0 0 false).

Fixpoint first_capability (m : option membership) (cs : list capability) (c : Z) : option (Z * filter_state) :=
  match cs with
  | [] => None
  | cap :: cs' =>
      let '(res, st) := outgoing_verdict m (c + 1) (cap_rule_list cap) in
      if accepts res then Some (c, st) else first_capability m cs' (c + 1)
  end.

(** The packets for another node. *)
Definition ext_events (dest capIndex flags : Z) (d : bytes) : list net_event :=
  [PushCredentials dest capIndex;
   SendExtFrame dest (be_bytes 8 nwid ++ be_bytes 1 flags ++ MAC.octets macDest ++ MAC.octets macSource ++ be_bytes 2 etherType ++ d)].

Definition copy_events (st : filter_state) (capIndex : Z) : list net_event :=
  if noTee || (f_cc st =? 0) then [] else ext_events (f_cc st) capIndex (if f_ccWatch st then 0x16 else 0x02) (take (Z.to_nat (f_ccLength st)) F).

Definition redirected (dest : Z) : bool := negb (ztDest =? dest) && negb (dest =? 0).

Definition accepted_events (m : option membership) (capIndex dest : Z) (st : filter_state) : list net_event :=
  (match m with Some _ => [PushCredentials ztDest capIndex] | None => [] end) ++ copy_events st capIndex
  ++ (if redirected dest then ext_events dest capIndex 0x04 F else []).

(** Whether a frame goes on its way, and what is sent for it. *)
Definition outgoing_spec (m : option membership) : bool * list net_event :=
  let '(res, st) := outgoing_verdict m 0 (nc_rules nconf) in
  match res with
  | FILTER_DROP => (false, [])
  | FILTER_NO_MATCH =>
      match first_capability m (nc_caps nconf) 0 with
      | Some (c, cst) => (negb (redirected (f_dest cst)), copy_events cst c ++ accepted_events m c (f_dest cst) st)
      | None => (false, [])
      end
  | _ => (negb (redirected (f_dest st)), accepted_events m (-1) (f_dest st) st)
  end.

(** Members are only added. *)
Definition extends (ns ns' : net_state) (evs : list net_event) : Prop :=
  n_events ns' = n_events ns ++ evs ∧ n_members ns ⊆ n_members ns'.

Lemma extends_nil ns : extends ns ns [].
Proof. split; [by rewrite app_nil_r|done]. Qed.

Lemma extends_app ns ns1 ns2 e1 e2 : extends ns ns1 e1 → extends ns1 ns2 e2 → extends ns ns2 (e1 ++ e2).
Proof. intros [E1 M1] [E2 M2]. split; [by rewrite E2, E1, app_assoc|by etrans]. Qed.

Lemma send_ext_ok dest c flags len ns : 0 <= len <= zlen F →
  ∃ ns', send_ext nwid macSource macDest (F ++ R) etherType dest c flags len ns = Ok ns' ∧ extends ns ns' (ext_events dest c flags (take (Z.to_nat len) F)).
Proof.
  intros Hl. unfold send_ext, membership_of. assert (mem_read 0 len (F ++ R) = Ok (take (Z.to_nat len) F)) as E by (apply below_read; rewrite mem_read_ok by lia; done).
  destruct (n_members ns !! dest) as [x|] eqn:Ed; rewrite E; cbn [mbind cres_bind]; eexists; (split; [done|]); (split; [cbn [emit n_events]; by rewrite <- app_assoc|]); cbn [emit n_members]; [done|].
  by apply insert_subseteq.
Qed.

Lemma send_copy_ok st c ns : 0 <= f_ccLength st <= zlen F →
  ∃ ns', (if noTee then Ok ns else send_copy nwid macSource macDest (F ++ R) etherType st c 0x02 0x16 ns) = Ok ns' ∧ extends ns ns' (copy_events st c).
Proof.
  intros Hl. unfold copy_events, send_copy. destruct noTee; cbn [orb]; [exists ns; split; [done|apply extends_nil]|]. destruct (f_cc st =? 0); [exists ns; split; [done|apply extends_nil]|]. by apply send_ext_ok.
Qed.

Lemma accepted_ok m c dest st ns : 0 <= f_ccLength st <= zlen F →
  ∃ ns', outgoing_accepted nwid macSource macDest (F ++ R) (zlen F) etherType noTee ztDest m c dest st ns = Ok (negb (redirected dest), ns') ∧ extends ns ns' (accepted_events m c dest st).
Proof.
  intros Hl. unfold outgoing_accepted, accepted_events. set (ns0 := match m with Some _ => _ | None => ns end).
  assert (extends ns ns0 (match m with Some _ => [PushCredentials ztDest c] | None => [] end)) as H0 by (unfold ns0; destruct m; [split; done|apply extends_nil]).
  destruct (send_copy_ok st c ns0 Hl) as (ns1 & -> & H1). cbn [mbind cres_bind]. unfold redirected. destruct (negb (ztDest =? dest) && negb (dest =? 0)).
  - destruct (send_ext_ok dest c 0x04 (zlen F) ns1) as (ns2 & -> & H2); [pose proof (zlen_nonneg F); lia|]. cbn [mbind cres_bind]. exists ns2. split; [done|].
    rewrite take_ge in H2 by (unfold zlen; lia). eapply extends_app; [done|]. by eapply extends_app.
  - exists ns1. split; [done|]. eapply extends_app; [done|]. rewrite app_nil_r. done.
Qed.

Lemma verdict_ok m i rules : (∀ x, m = Some x → member_ok x) → Forall rule_ok rules →
  doZtFilter self nconf m false ztSource macSource macDest (F ++ R) (zlen F) etherType vlanId (prng i) rules (FState ztDest 0 0 false) = Ok (outgoing_verdict m i rules)
  ∧ 0 <= f_ccLength (outgoing_verdict m i rules).2 <= zlen F.
Proof.
  intros Hm Hr. split; [by apply doZtFilter_ok|]. apply eval_sets_len; [by apply rule_sets_ok|]. cbn. pose proof (zlen_nonneg F). lia.
Qed.

Lemma caps_ok m cs c ns : (∀ x, m = Some x → member_ok x) → Forall (λ c, Forall rule_ok (cap_rule_list c)) cs →
  ∃ ns', outgoing_caps self nwid nconf macSource macDest (F ++ R) (zlen F) etherType vlanId prng noTee ztSource ztDest m cs c ns
         = Ok ((λ x, (x.1, f_dest x.2)) <$> first_capability m cs c, ns')
    ∧ extends ns ns' (match first_capability m cs c with Some (i, st) => copy_events st i | None => [] end).
Proof.
  intros Hm Hcs. revert c. induction Hcs as [|cap cs Hcap _ IH]; intros c; cbn [outgoing_caps first_capability]; [exists ns; split; [done|apply extends_nil]|].
  unfold no_copy. destruct (verdict_ok m (c + 1) (cap_rule_list cap) Hm Hcap) as [-> Hl]. cbn [mbind cres_bind]. destruct (outgoing_verdict m (c + 1) (cap_rule_list cap)) as [res st].
  destruct (accepts res); [|apply IH]. cbn [snd] in Hl. destruct (send_copy_ok st c ns Hl) as (ns1 & -> & H1). exists ns1. by split.
Qed.
End outgoing_proofs.

Section incoming_proofs.
Context (self nwid : Z) (nconf : net_conf) (macSource macDest : Z) (F R : bytes) (etherType vlanId : Z) (prng : Z → Z → Z) (source ztDest : Z).
Context (HF : frame_ok F etherType) (Hrules : Forall rule_ok (nc_rules nconf)) (Hcoos : Forall coo_ok (nc_coos nconf)).

Definition incoming_verdict (m : membership) (i : Z) (rules : list rule) : filter_result * filter_state :=
  eval_sets self nconf (Some m) true source macSource macDest F (zlen F) etherType vlanId (prng i) (rule_sets 0 [] rules) false (FState ztDest 0 0 false).

(** The first of the capabilities that accepts. *)
Fixpoint first_presented (m : membership) (cs : list capability) (c : Z) : option (Z * filter_state) :=
  match cs with
  | [] => None
  | cap :: cs' =>
      let '(res, st) := incoming_verdict m (c + 1) (cap_rule_list cap) in
      if accept_code res =? 0 then first_presented m cs' (c + 1) else Some (accept_code res, st)
  end.

Local Abbreviation ext dest flags d := (ext_events nwid macSource macDest etherType dest (-1) flags d).

Definition incoming_copy (st : filter_state) : list net_event :=
  if f_cc st =? 0 then [] else ext (f_cc st) (if f_ccWatch st then 0x1c else 0x08) (take (Z.to_nat (f_ccLength st)) F).

Definition incoming_done (accept dest : Z) (st : filter_state) : Z * list net_event :=
  (if redirected ztDest dest then 0 else accept, incoming_copy st ++ (if redirected ztDest dest then ext dest 0x0a F else [])).

(** How a frame is accepted, and what is sent for it. *)
Definition incoming_spec (m : membership) (presented : list capability) : Z * list net_event :=
  let '(res, st) := incoming_verdict m 0 (nc_rules nconf) in
  match res with
  | FILTER_DROP => (0, [])
  | FILTER_NO_MATCH =>
      match first_presented m presented 0 with
      | Some (a, cst) => let '(a, evs) := incoming_done a (f_dest cst) st in (a, incoming_copy cst ++ evs)
      | None => (0, [])
      end
  | _ => incoming_done (accept_code res) (f_dest st) st
  end.

Lemma incoming_copy_ok st ns : 0 <= f_ccLength st <= zlen F →
  ∃ ns', send_copy nwid macSource macDest (F ++ R) etherType st (-1) 0x08 0x1c ns = Ok ns' ∧ extends ns ns' (incoming_copy st).
Proof. intros Hl. unfold incoming_copy, send_copy. destruct (f_cc st =? 0); [exists ns; split; [done|apply extends_nil]|]. by apply send_ext_ok. Qed.

Lemma incoming_accepted_ok accept dest st ns : accept ≠ 0 → 0 <= f_ccLength st <= zlen F →
  ∃ ns', incoming_accepted nwid macSource macDest (F ++ R) (zlen F) etherType ztDest accept dest st ns = Ok ((incoming_done accept dest st).1, ns')
    ∧ extends ns ns' (incoming_done accept dest st).2.
Proof.
  intros Ha Hl. unfold incoming_accepted, incoming_done. rewrite (proj2 (Z.eqb_neq _ _) Ha). destruct (incoming_copy_ok st ns Hl) as (ns1 & -> & H1). cbn [mbind cres_bind fst snd]. unfold redirected.
  destruct (negb (ztDest =? dest) && negb (dest =? 0)); [|exists ns1; split; [done|by rewrite app_nil_r]].
  destruct (send_ext_ok nwid macSource macDest F R etherType dest (-1) 0x0a (zlen F) ns1) as (ns2 & -> & H2); [pose proof (zlen_nonneg F); lia|]. exists ns2. split; [done|].
  rewrite take_ge in H2 by (unfold zlen; lia). by eapply extends_app.
Qed.

Lemma incoming_verdict_ok m i rules : member_ok m → Forall rule_ok rules →
  doZtFilter self nconf (Some m) true source macSource macDest (F ++ R) (zlen F) etherType vlanId (prng i) rules (FState ztDest 0 0 false) = Ok (incoming_verdict m i rules)
  ∧ 0 <= f_ccLength (incoming_verdict m i rules).2 <= zlen F.
Proof.
  intros Hm Hr. split; [apply doZtFilter_ok; [done..|by intros x [= <-]]|]. apply eval_sets_len; [by apply rule_sets_ok|]. cbn. pose proof (zlen_nonneg F). lia.
Qed.

Lemma incoming_caps_ok m cs c ns : member_ok m → Forall (λ c, Forall rule_ok (cap_rule_list c)) cs →
  ∃ ns', incoming_caps self nwid nconf macSource macDest (F ++ R) (zlen F) etherType vlanId prng source ztDest m cs c ns
         = Ok (match first_presented m cs c with Some (a, st) => (a, f_dest st, ns') | None => (0, ztDest, ns') end)
    ∧ match first_presented m cs c with Some (a, st) => a ≠ 0 ∧ extends ns ns' (incoming_copy st) | None => ns' = ns end.
Proof.
  intros Hm Hcs. revert c. induction Hcs as [|cap cs Hcap _ IH]; intros c; cbn [incoming_caps first_presented]; [by exists ns|].
  destruct (incoming_verdict_ok m (c + 1) (cap_rule_list cap) Hm Hcap) as [-> Hl]. cbn [mbind cres_bind]. destruct (incoming_verdict m (c + 1) (cap_rule_list cap)) as [res st].
  destruct (Z.eqb_spec (accept_code res) 0); [apply IH|]. cbn [snd] in Hl. destruct (incoming_copy_ok st ns Hl) as (ns1 & -> & H1). exists ns1. by split.
Qed.
End incoming_proofs.

(** ** Properties of the rules engine *)



(** The rules that drop TCP segments with the SYN flag and accept everything else. *)
Definition syn_rule : rule := Rule MATCH_CHARACTERISTICS (le_bytes 8 0x02 ++ memset 16 0).
Definition drop_rule : rule := Rule ACTION_DROP (memset 24 0).
Definition accept_rule : rule := Rule ACTION_ACCEPT (memset 24 0).
Definition no_syn : list rule := [syn_rule; drop_rule; accept_rule].

Lemma frame_byte_behind F R i : zlen F <= i → 0 <= i < zlen F + zlen R → frame_byte (F ++ R) i = Ok (nth (Z.to_nat (i - zlen F)) R 0).
Proof.
  intros Hi Hr. unfold frame_byte, load_le. rewrite mem_read_ok by (rewrite ?zlen_app; lia). unfold zlen in *. rewrite drop_app_ge by lia. replace (Z.to_nat i - length F)%nat with (Z.to_nat (i - Z.of_nat (length F))) by lia.
  destruct (lookup_lt_is_Some_2 R (Z.to_nat (i - Z.of_nat (length F)))) as [b Hb]; [lia|]. rewrite (drop_S R b), (nth_lookup_Some R _ 0 b Hb) by done. change (Z.to_nat (Z.of_nat 1)) with 1%nat. cbn [take]. cbn [mbind cres_bind]. f_equal. cbn. rewrite take_0. cbn. lia.
Qed.

Lemma no_syn_filter self nconf ztSource macSource macDest D len etherType vlanId prng st :
  doZtFilter self nconf None false ztSource macSource macDest D len etherType vlanId prng no_syn st
  = (b ← match_characteristics nconf None false macSource macDest D len etherType syn_rule; Ok (if b : bool then FILTER_DROP else FILTER_ACCEPT, st)).
Proof.
  unfold doZtFilter, no_syn. cbn [filter_loop]. unfold match_rule. change (rule_type syn_rule) with 41. change (rule_type drop_rule) with 0. change (rule_type accept_rule) with 1.
  cbn [Z.leb Z.compare Pos.compare Pos.compare_cont Z.eqb Pos.eqb orb negb andb ACTION__MAX_ID]. destruct (match_characteristics _ _ _ _ _ _ _ _ syn_rule) as [[]|u]; reflexivity.
Qed.

(** C36: the verdict on a short TCP segment depends on what lies behind it.  For every IPv4 frame of at least 20 bytes that says it carries TCP and
    ends before the flags of the TCP header, the match of the characteristics reads the flags behind the end of the frame: the frame is dropped or
    accepted by a bit of the memory there, and where no memory follows the frame the access is out of bounds. *)
Theorem verdict_depends_on_memory (self ztSource ztDest macSource macDest vlanId : Z) (prng : Z → Z) (conf : cred_conf) (F behind : bytes) :
  let nconf := NetConf conf 0 [] [] no_syn [] in
  let header := 4 * Z.land (nth 0 F 0) 0xf in
  let filter frameData := doZtFilter self nconf None false ztSource macSource macDest frameData (zlen F) ZT_ETHERTYPE_IPV4 vlanId prng no_syn (FState ztDest 0 0 false) in
  bytes_ok F → bytes_ok behind → nth 9 F 0 = 0x06 → 20 <= zlen F → zlen F <= header + 12 → header + 13 < zlen F + zlen behind →
  filter F = Undef OutOfBounds ∧
  filter (F ++ behind) = Ok (if Z.testbit (nth (Z.to_nat (header + 13 - zlen F)) behind 0) 1 then FILTER_DROP else FILTER_ACCEPT, FState ztDest 0 0 false).
Proof.
  intros nconf header filter HbF Hbb H9 Hl Hh Hr. pose proof (zlen_nonneg behind) as Hb0.
  assert (0 <= nth 0 F 0) as Hn by (destruct F as [|x F']; [done|apply Forall_cons_1 in HbF as [[? _] _]; done]). pose proof (low_nibble _ Hn) as Hnib. fold header in Hh.
  assert (frame_ok F 0) as HF by (split; [done|unfold header in *; lia|done]).
  assert (is_ipv4 (zlen F) ZT_ETHERTYPE_IPV4 = true) as E4 by (unfold is_ipv4; rewrite (proj2 (Z.leb_le _ _)) by lia; done).
  assert (∀ D i, F `prefix_of` D → 0 <= i < 20 → frame_byte D i = Ok (nth (Z.to_nat i) F 0)) as Hbyte.
  { intros D i [R' ->] Hi. apply below_byte. destruct (byte_defined F 0 HF i) as (x & -> & _ & ->); [lia|done]. }
  assert (∀ D, F `prefix_of` D → ownership_flags nconf None false macSource D (zlen F) ZT_ETHERTYPE_IPV4 = Ok 0) as Hown.
  { intros D [R' ->]. unfold ownership_flags, sender_ip. rewrite E4. rewrite mem_read_ok by (rewrite ?zlen_app; pose proof (zlen_nonneg R'); lia). cbn [mbind cres_bind].
    set (d := take _ _). assert (zlen d = 4) as Hd by (unfold d, zlen in *; rewrite length_take, length_drop, length_app; lia).
    destruct (set_bits d 4 0 Hd (or_introl eq_refl) ltac:(lia)) as (x & -> & _). done. }
  assert (∀ D, F `prefix_of` D → tcp_flags D (zlen F) ZT_ETHERTYPE_IPV4 = tcp_flags_at D header) as Htcp.
  { intros D HD. unfold tcp_flags. rewrite E4, (Hbyte D 9 HD) by lia. cbn [mbind cres_bind]. change (Z.to_nat 9) with 9%nat. rewrite H9. cbn [Z.eqb Pos.eqb]. by rewrite (Hbyte D 0 HD) by lia. }
  unfold filter. rewrite !no_syn_filter. unfold match_characteristics. rewrite !Hown, !Htcp by (done || by exists behind). cbn [mbind cres_bind]. unfold tcp_flags_at. split.
  - assert (frame_byte F (header + 13) = Undef OutOfBounds) as ->; [|done]. unfold frame_byte, load_le, mem_read. rewrite (proj2 (Z.leb_gt (header + 13 + Z.of_nat 1) _)) by lia. by rewrite andb_false_r.
  - rewrite !frame_byte_behind by lia. cbn [mbind cres_bind]. set (b13 := nth _ behind 0). set (b12 := nth _ behind 0). do 2 f_equal. change (member 8 0 syn_rule) with (2 ^ 1).
    rewrite land_pow2_testbit, !Z.lor_spec, Z.shiftl_spec_low by lia. destruct (MAC.isMulticast macDest), (MAC.isBroadcast macDest); cbn [flag]; by destruct (Z.testbit b13 1).
Qed.

Definition tcp_start : bytes := [0x45; 0; 0; 20; 0; 0; 0; 0; 64; 6; 0; 0; 10; 0; 0; 1; 10; 0; 0; 2].

Lemma verdict_depends_on_memory_witness :
  doZtFilter 1 (NetConf (CredConf 0 0) 0 [] [] no_syn []) None false 2 3 4 (tcp_start ++ [0; 0; 0; 0; 0; 0; 0; 0; 0; 0; 0; 0; 0; 0x02]) 20 ZT_ETHERTYPE_IPV4 0 (λ _, 0) no_syn (FState 5 0 0 false)
  = Ok (FILTER_DROP, FState 5 0 0 false).
Proof.
  destruct (verdict_depends_on_memory 1 2 5 3 4 0 (λ _, 0) (CredConf 0 0) tcp_start [0; 0; 0; 0; 0; 0; 0; 0; 0; 0; 0; 0; 0; 0x02]) as [_ E]; [bytes_compute|bytes_compute|reflexivity|by vm_compute|by vm_compute|by vm_compute|].
  exact E.
Defined.

(** A frame with an ICMP echo request, and rules that drop it unless it is from a node with a tag. *)
Definition ex_frame : bytes := [0x45; 0; 0; 28; 0; 0; 0; 0; 64; 1; 0; 0; 10; 0; 0; 1; 10; 0; 0; 2; 8; 0; 0; 0; 0; 0; 0; 0].
Definition ex_rules : list rule :=
  [Rule MATCH_ICMP ([8; 0; 0] ++ memset 21 0); Rule (Z.lor MATCH_ETHERTYPE 0x40) (le_bytes 2 0x0806 ++ memset 22 0); Rule (Z.lor MATCH_TAG_SENDER 0x80) (le_bytes 4 7 ++ le_bytes 4 1 ++ memset 16 0);
   drop_rule; Rule ACTION_TEE (le_bytes 8 0x1122334455 ++ memset 16 0); accept_rule].

Lemma ex_frame_ok : frame_ok ex_frame ZT_ETHERTYPE_IPV4.
Proof. split; [bytes_compute|vm_compute; reflexivity|]. intros _ _. by vm_compute. Qed.

Lemma ex_rules_ok : Forall rule_ok ex_rules.
Proof. repeat (constructor; [split; [reflexivity|bytes_compute|intros [E|E]; by vm_compute in E|intros [E|E]; by vm_compute in E]|]). constructor. Qed.

Definition ex_conf : net_conf := NetConf (CredConf 10 100) 0 [Tag 1 9 7 1 2 3 []] [] ex_rules [].




Lemma new_member_ok : member_ok membership_new.
Proof.
  split; [apply new_store_ok..|]. intros p r [-> _]%lookup_replicate. split; done.
Qed.

