(* ===== verification/Lz4.v ===== *)
(** * LZ4 as it is embedded in zto/node/Packet.cpp

    The block compressor and decompressor of LZ4 1.7.5 as they are compiled: the source keeps
    [LZ4_compress_fast] and [LZ4_decompress_safe] and removes the functions for dictionaries, streams
    and partial decoding, so that [LZ4_compress_generic] is only used without a dictionary and
    [LZ4_decompress_generic] with the end on the input size, without a dictionary and for the full
    output.  The machine is a 64-bit little-endian one with the bit counting built-ins of gcc and clang.

    A pointer into the source or into the destination is its offset in that object; a comparison
    of pointers, also of those before the start of an object, is one of offsets.  The places where
    the source looks at the address itself take the address of the destination or of the
    source as an argument. *)

From Stdlib Require Import ZArith Lia.
From stdpp Require Import base numbers list option.
From S2P Require Import Prelude Words.
Open Scope Z_scope.

(** ** Constants *)

Definition LZ4_MEMORY_USAGE : Z := 14.
Definition LZ4_MAX_INPUT_SIZE : Z := 0x7E000000.
Definition LZ4_HASHLOG : Z := LZ4_MEMORY_USAGE - 2.
Definition LZ4_HASHTABLESIZE : Z := Z.shiftl 1 LZ4_MEMORY_USAGE.
Definition ACCELERATION_DEFAULT : Z := 1.
Definition MINMATCH : Z := 4.
Definition WILDCOPYLENGTH : Z := 8.
Definition LASTLITERALS : Z := 5.
Definition MFLIMIT : Z := WILDCOPYLENGTH + MINMATCH.
Definition LZ4_minLength : Z := MFLIMIT + 1.
Definition MAX_DISTANCE : Z := Z.shiftl 1 16 - 1.
Definition ML_BITS : Z := 4.
Definition ML_MASK : Z := Z.shiftl 1 ML_BITS - 1.
Definition RUN_BITS : Z := 8 - ML_BITS.
Definition RUN_MASK : Z := Z.shiftl 1 RUN_BITS - 1.
Definition STEPSIZE : Z := 8.
Definition LZ4_64Klimit : Z := 64 * 1024 + (MFLIMIT - 1).
Definition LZ4_skipTrigger : Z := 6.

(** ** Reading and writing *)

Definition read8 : bytes → Z → cres Z := load_le 1.
Definition LZ4_read16 : bytes → Z → cres Z := load_le 2.
Definition LZ4_read32 : bytes → Z → cres Z := load_le 4.
Definition LZ4_read_ARCH : bytes → Z → cres Z := load_le 8.
Definition LZ4_readLE16 : bytes → Z → cres Z := LZ4_read16.

Definition write8 (p v : Z) (m : bytes) : cres bytes := mem_write p (le_bytes 1 v) m.
Definition LZ4_writeLE16 (p v : Z) (m : bytes) : cres bytes := mem_write p (le_bytes 2 v) m.
Definition LZ4_write32 (p v : Z) (m : bytes) : cres bytes := mem_write p (le_bytes 4 v) m.

(** [memcpy] between two parts of one object. *)
Definition memcpy_within (d s n : Z) (m : bytes) : cres bytes :=
  if (d <? s + n) && (s <? d + n) then Undef Overlap else mem_copy d m s n m.

(** [LZ4_copy8] from another object and within one. *)
Definition LZ4_copy8 (src : bytes) (d s : Z) (dst : bytes) : cres bytes := mem_copy d dst s 8 src.
Definition LZ4_copy8_within (d s : Z) (dst : bytes) : cres bytes := memcpy_within d s 8 dst.

(** Copies eight bytes at a time, up to seven or, if there is nothing to copy, eight too many. *)
Fixpoint wildCopy_loop (copy8 : Z → Z → bytes → cres bytes) (fuel : nat) (d s e : Z) (dst : bytes) : cres bytes :=
  match fuel with
  | O => Undef OutOfFuel
  | S fuel' =>
      dst ← copy8 d s dst;
      if d + 8 <? e then wildCopy_loop copy8 fuel' (d + 8) (s + 8) e dst else Ok dst
  end.

Definition LZ4_wildCopy (copy8 : Z → Z → bytes → cres bytes) (d s e : Z) : bytes → cres bytes :=
  wildCopy_loop copy8 (S (Z.to_nat (e - d))) d s e.

(** ** Decompression *)

Section decompress.
Context (src : bytes) (iend : Z) (oend : Z).
(* the addresses of the source and of the destination *)
Context (src_addr dst_addr : Z).

(** The rest of a literal length: the length and the position behind it. *)
Fixpoint lit_length (fuel : nat) (ip length : Z) : cres (Z * Z) :=
  match fuel with
  | O => Undef OutOfFuel
  | S fuel' =>
      s ← read8 src ip;
      let ip := ip + 1 in
      let length := wadd 64 length s in
      if (ip <? iend - RUN_MASK) && (s =? 255) then lit_length fuel' ip length else Ok (length, ip)
  end.

(** The rest of a match length; no length if the input ends before the last literals. *)
Fixpoint match_length (fuel : nat) (ip length : Z) : cres (option Z * Z) :=
  match fuel with
  | O => Undef OutOfFuel
  | S fuel' =>
      s ← read8 src ip;
      let ip := ip + 1 in
      if iend - LASTLITERALS <? ip then Ok (None, ip)
      else
        let length := wadd 64 length s in
        if s =? 255 then match_length fuel' ip length else Ok (Some length, ip)
  end.

(** The overflow test on an address. *)
Definition wraps (addr p length : Z) : bool := wadd 64 (addr + p) length <? addr + p.

(** The length of the literals, or none if it fails the overflow tests. *)
Definition get_literal_length (token ip op : Z) : cres (option Z * Z) :=
  let length := Z.shiftr token ML_BITS in
  if length =? RUN_MASK then
    '(length, ip) ← lit_length (S (Z.to_nat (iend - ip))) ip length;
    if wraps dst_addr op length || wraps src_addr ip length then Ok (None, ip) else Ok (Some length, ip)
  else Ok (Some length, ip).

Definition get_match_length (token ip op : Z) : cres (option Z * Z) :=
  let length := Z.land token ML_MASK in
  if length =? ML_MASK then
    '(length, ip) ← match_length (S (Z.to_nat (iend - ip))) ip length;
    match length with
    | None => Ok (None, ip)
    | Some length => if wraps dst_addr op length then Ok (None, ip) else Ok (Some (wadd 64 length MINMATCH), ip)
    end
  else Ok (Some (wadd 64 length MINMATCH), ip).

Definition dec32table : list Z := [0; 1; 2; 1; 4; 4; 4; 4].
Definition dec64table : list Z := [0; 0; 0; -1; 0; 1; 2; 3].

Definition copy1 (d s : Z) (dst : bytes) : cres bytes := b ← read8 dst s; write8 d b dst.

(** The first eight bytes of a match and where it goes on. *)
Definition copy_start (op offset : Z) (dst : bytes) : cres (Z * bytes) :=
  let m := op - offset in
  if offset <? 8 then
    let dec64 := nth (Z.to_nat offset) dec64table 0 in
    dst ← copy1 op m dst;
    dst ← copy1 (op + 1) (m + 1) dst;
    dst ← copy1 (op + 2) (m + 2) dst;
    dst ← copy1 (op + 3) (m + 3) dst;
    let m := m + nth (Z.to_nat offset) dec32table 0 in
    dst ← memcpy_within (op + 4) m 4 dst;
    Ok (m - dec64, dst)
  else
    dst ← LZ4_copy8_within op m dst;
    Ok (m + 8, dst).

(** [while (op<cpy) *op++ = *match++] *)
Fixpoint copy_bytes (fuel : nat) (op m cpy : Z) (dst : bytes) : cres bytes :=
  if op <? cpy then
    match fuel with
    | O => Undef OutOfFuel
    | S fuel' => dst ← copy1 op m dst; copy_bytes fuel' (op + 1) (m + 1) cpy dst
    end
  else Ok dst.

(** A match of [length] bytes; false if it reaches into the last literals. *)
Definition copy_match (op offset length : Z) (dst : bytes) : cres (bool * bytes) :=
  let cpy := op + length in
  '(m, dst) ← copy_start op offset dst;
  let op := op + 8 in
  if oend - 12 <? cpy then
    let oCopyLimit := oend - (WILDCOPYLENGTH - 1) in
    if oend - LASTLITERALS <? cpy then Ok (false, dst)
    else if op <? oCopyLimit then
      dst ← LZ4_wildCopy LZ4_copy8_within op m oCopyLimit dst;
      dst ← copy_bytes (Z.to_nat (cpy - oCopyLimit)) oCopyLimit (m + (oCopyLimit - op)) cpy dst;
      Ok (true, dst)
    else
      dst ← copy_bytes (Z.to_nat (cpy - op)) op m cpy dst;
      Ok (true, dst)
  else
    dst ← LZ4_copy8_within op m dst;
    dst ← (if 16 <? length then LZ4_wildCopy LZ4_copy8_within (op + 8) (m + 8) cpy dst else Ok dst);
    Ok (true, dst).

(** [_output_error] *)
Definition output_error (ip : Z) : Z := swrap 32 (- ip) - 1.

(** The part of the loop behind the literals: the match of a sequence.  The result is the next
    [ip] and [op], or the [ip] of an error. *)
Definition decode_match (token ip op : Z) (dst : bytes) : cres (option Z * Z * bytes) :=
  offset ← LZ4_readLE16 src ip;
  let ip := ip + 2 in
  if op - offset <? 0 then Ok (None, ip, dst)
  else
    dst ← LZ4_write32 op offset dst;
    '(length, ip) ← get_match_length token ip op;
    match length with
    | None => Ok (None, ip, dst)
    | Some length =>
        '(ok, dst) ← copy_match op offset length dst;
        Ok (if ok : bool then Some (op + length) else None, ip, dst)
    end.

(** The main loop. *)
Fixpoint decode_loop (fuel : nat) (ip op : Z) (dst : bytes) : cres (Z * bytes) :=
  match fuel with
  | O => Undef OutOfFuel
  | S fuel' =>
      token ← read8 src ip;
      '(length, ip) ← get_literal_length token (ip + 1) op;
      match length with
      | None => Ok (output_error ip, dst)
      | Some length =>
          let cpy := op + length in
          if (oend - MFLIMIT <? cpy) || (iend - (2 + 1 + LASTLITERALS) <? ip + length) then
            if negb (ip + length =? iend) || (oend <? cpy) then Ok (output_error ip, dst)
            else
              dst ← mem_copy op dst ip length src;
              Ok (swrap 32 cpy, dst)
          else
            dst ← LZ4_wildCopy (LZ4_copy8 src) op ip cpy dst;
            '(next, ip, dst) ← decode_match token (ip + length) cpy dst;
            match next with
            | None => Ok (output_error ip, dst)
            | Some op => decode_loop fuel' ip op dst
            end
      end
  end.
End decompress.

Definition LZ4_decompress_generic (src : bytes) (src_addr dst_addr inputSize outputSize : Z) (dst : bytes) : cres (Z * bytes) :=
  if outputSize =? 0 then
    if inputSize =? 1 then b ← read8 src 0; Ok (if b =? 0 then 0 else -1, dst)
    else Ok (-1, dst)
  else decode_loop src inputSize outputSize src_addr dst_addr (S (Z.to_nat inputSize)) 0 0 dst.

Definition LZ4_decompress_safe (src : bytes) (src_addr dst_addr compressedSize maxDecompressedSize : Z) (dst : bytes) : cres (Z * bytes) :=
  LZ4_decompress_generic src src_addr dst_addr compressedSize maxDecompressedSize dst.

(** ** Compression *)

Definition LZ4_compressBound (isize : Z) : Z :=
  if LZ4_MAX_INPUT_SIZE <? wrap 32 isize then 0 else isize + isize / 255 + 16.

(** The number of equal bytes in front of the first difference of two words. *)
Fixpoint ctz_loop (fuel : nat) (z n : Z) : Z :=
  match fuel with
  | O => n
  | S fuel' => if Z.testbit z n then n else ctz_loop fuel' z (n + 1)
  end.

Definition LZ4_NbCommonBytes (val : Z) : Z := Z.shiftr (ctz_loop 64 val 0) 3.

(** Pointers are stored as their distance from the start of the source, in 32 or in 16 bits; the
    third kind, [byPtr], is only used where a pointer has 32 bits. *)
Inductive tableType_t := byU32 | byU16.

#[export] Instance tableType_eq_dec : EqDecision tableType_t.
Proof. solve_decision. Defined.

Definition entry_width (tableType : tableType_t) : Z :=
  match tableType with byU32 => 32 | byU16 => 16 end.

Definition hash_log (tableType : tableType_t) : Z :=
  match tableType with byU32 => LZ4_HASHLOG | byU16 => LZ4_HASHLOG + 1 end.

Definition LZ4_hash4 (sequence : Z) (tableType : tableType_t) : Z :=
  Z.shiftr (wmul 32 sequence 2654435761) (MINMATCH * 8 - hash_log tableType).

Definition LZ4_hash5 (sequence : Z) (tableType : tableType_t) : Z :=
  wrap 32 (Z.shiftr (wmul 64 (wshl 64 sequence 24) 889523592379) (64 - hash_log tableType)).

(** The table of the context, all zero. *)
Definition LZ4_resetStream (tableType : tableType_t) : list Z :=
  replicate (Z.to_nat (LZ4_HASHTABLESIZE * 8 / entry_width tableType)) 0.

Section compress.
Context (src : bytes) (inputSize : Z).
Context (maxOutputSize : Z) (outputLimited : bool) (tableType : tableType_t).

Definition iend : Z := inputSize.
Definition mflimit : Z := iend - MFLIMIT.
Definition matchlimit : Z := iend - LASTLITERALS.
Definition olimit : Z := maxOutputSize.

Definition LZ4_hashPosition (p : Z) : cres Z :=
  match tableType with
  | byU16 => s ← LZ4_read32 src p; Ok (LZ4_hash4 s tableType)
  | byU32 => s ← LZ4_read_ARCH src p; Ok (LZ4_hash5 s tableType)
  end.

Definition LZ4_putPositionOnHash (p h : Z) (t : list Z) : cres (list Z) :=
  if (0 <=? h) && (h <? zlen t) then Ok (<[Z.to_nat h := wrap (entry_width tableType) p]> t) else Undef OutOfBounds.

Definition LZ4_putPosition (p : Z) (t : list Z) : cres (list Z) :=
  h ← LZ4_hashPosition p; LZ4_putPositionOnHash p h t.

Definition LZ4_getPositionOnHash (h : Z) (t : list Z) : cres Z :=
  if (0 <=? h) && (h <? zlen t) then Ok (nth (Z.to_nat h) t 0) else Undef OutOfBounds.

Definition LZ4_getPosition (p : Z) (t : list Z) : cres Z :=
  h ← LZ4_hashPosition p; LZ4_getPositionOnHash h t.

(** The words of [LZ4_count]: the pointer, and whether the words differ there. *)
Fixpoint count_words (fuel : nat) (pIn pMatch pInLimit : Z) : cres (Z * Z * bool) :=
  if pIn <? pInLimit - (STEPSIZE - 1) then
    match fuel with
    | O => Undef OutOfFuel
    | S fuel' =>
        a ← LZ4_read_ARCH src pMatch;
        b ← LZ4_read_ARCH src pIn;
        let diff := Z.lxor a b in
        if diff =? 0 then count_words fuel' (pIn + STEPSIZE) (pMatch + STEPSIZE) pInLimit
        else Ok (pIn + LZ4_NbCommonBytes diff, pMatch, true)
    end
  else Ok (pIn, pMatch, false).

(** One of the three tests of [LZ4_count] behind the words. *)
Definition count_tail (read : bytes → Z → cres Z) (n : Z) (p : Z * Z) (pInLimit : Z) : cres (Z * Z) :=
  let '(pIn, pMatch) := p in
  if pIn <? pInLimit - (n - 1) then
    a ← read src pMatch;
    b ← read src pIn;
    Ok (if a =? b then (pIn + n, pMatch + n) else (pIn, pMatch))
  else Ok (pIn, pMatch).

Definition LZ4_count (pIn pMatch pInLimit : Z) : cres Z :=
  '(p, m, differ) ← count_words (Z.to_nat (pInLimit - pIn)) pIn pMatch pInLimit;
  if differ : bool then Ok (p - pIn)
  else
    q ← count_tail LZ4_read32 4 (p, m) pInLimit;
    q ← count_tail LZ4_read16 2 q pInLimit;
    q ← count_tail read8 1 q pInLimit;
    Ok (q.1 - pIn).

(** "Find a match": a position and an earlier one with the same four bytes, or none. *)
Fixpoint find_match (fuel : nat) (forwardIp step searchMatchNb forwardH : Z) (t : list Z) : cres (option (Z * Z * list Z)) :=
  match fuel with
  | O => Undef OutOfFuel
  | S fuel' =>
      let h := forwardH in
      let ip := forwardIp in
      let forwardIp := forwardIp + step in
      let step := Z.shiftr searchMatchNb LZ4_skipTrigger in
      let searchMatchNb := wadd 32 searchMatchNb 1 in
      if mflimit <? forwardIp then Ok None
      else
        m ← LZ4_getPositionOnHash h t;
        forwardH ← LZ4_hashPosition forwardIp;
        t ← LZ4_putPositionOnHash ip h t;
        if negb (bool_decide (tableType = byU16)) && (m + MAX_DISTANCE <? ip) then
          find_match fuel' forwardIp step searchMatchNb forwardH t
        else
          a ← LZ4_read32 src m;
          b ← LZ4_read32 src ip;
          if negb (a =? b) then find_match fuel' forwardIp step searchMatchNb forwardH t
          else Ok (Some (ip, m, t))
  end.

(** "Catch up" *)
Fixpoint catch_up (fuel : nat) (anchor ip m : Z) : cres (Z * Z) :=
  if (anchor <? ip) && (0 <? m) then
    a ← read8 src (ip - 1);
    b ← read8 src (m - 1);
    if a =? b then
      match fuel with
      | O => Undef OutOfFuel
      | S fuel' => catch_up fuel' anchor (ip - 1) (m - 1)
      end
    else Ok (ip, m)
  else Ok (ip, m).

(** [for(; len >= 255 ; len-=255) *op++ = 255] and the byte behind. *)
Fixpoint put_length (fuel : nat) (op len : Z) (dst : bytes) : cres (Z * bytes) :=
  if 255 <=? len then
    match fuel with
    | O => Undef OutOfFuel
    | S fuel' => dst ← write8 op 255 dst; put_length fuel' (op + 1) (len - 255) dst
    end
  else
    dst ← write8 op len dst;
    Ok (op + 1, dst).

(** "Encode Literals": the token and the position behind the literals, or none if there is no room. *)
Definition encode_literals (anchor ip op : Z) (dst : bytes) : cres (option (Z * Z) * bytes) :=
  let litLength := wrap 32 (ip - anchor) in
  let token := op in
  let op := op + 1 in
  if outputLimited && (olimit <? op + litLength + (2 + 1 + LASTLITERALS) + litLength / 255) then Ok (None, dst)
  else
    '(op, dst) ← (if RUN_MASK <=? litLength then
                    let len := litLength - RUN_MASK in
                    dst ← write8 token (Z.shiftl RUN_MASK ML_BITS) dst;
                    put_length (Z.to_nat len) op len dst
                  else
                    dst ← write8 token (Z.shiftl litLength ML_BITS) dst;
                    Ok (op, dst));
    dst ← LZ4_wildCopy (LZ4_copy8 src) op anchor (op + litLength) dst;
    Ok (Some (token, op + litLength), dst).

(** [*token += v] *)
Definition add_token (token v : Z) (dst : bytes) : cres bytes :=
  b ← read8 dst token; write8 token (b + v) dst.

(** [while (matchCode >= 4*255) op+=4, LZ4_write32(op, 0xFFFFFFFF), matchCode -= 4*255] *)
Fixpoint put_match_words (fuel : nat) (op matchCode : Z) (dst : bytes) : cres (Z * Z * bytes) :=
  if 4 * 255 <=? matchCode then
    match fuel with
    | O => Undef OutOfFuel
    | S fuel' =>
        dst ← LZ4_write32 (op + 4) 0xFFFFFFFF dst;
        put_match_words fuel' (op + 4) (matchCode - 4 * 255) dst
    end
  else Ok (op, matchCode, dst).

(** "Encode Offset" and "Encode MatchLength": the positions behind the match, or none. *)
Definition encode_match (token ip m op : Z) (dst : bytes) : cres (option (Z * Z) * bytes) :=
  dst ← LZ4_writeLE16 op (wrap 16 (ip - m)) dst;
  let op := op + 2 in
  matchCode ← LZ4_count (ip + MINMATCH) (m + MINMATCH) matchlimit;
  let ip := ip + (MINMATCH + matchCode) in
  if outputLimited && (olimit <? op + (1 + LASTLITERALS) + Z.shiftr matchCode 8) then Ok (None, dst)
  else if ML_MASK <=? matchCode then
    dst ← add_token token ML_MASK dst;
    let matchCode := matchCode - ML_MASK in
    dst ← LZ4_write32 op 0xFFFFFFFF dst;
    '(op, matchCode, dst) ← put_match_words (Z.to_nat matchCode) op matchCode dst;
    let op := op + matchCode / 255 in
    dst ← write8 op (matchCode mod 255) dst;
    Ok (Some (ip, op + 1), dst)
  else
    dst ← add_token token matchCode dst;
    Ok (Some (ip, op), dst).

(** [_last_literals] and the end. *)
Definition last_literals (anchor op : Z) (dst : bytes) : cres (Z * bytes) :=
  let lastRun := iend - anchor in
  if outputLimited && (wrap 32 maxOutputSize <? op + lastRun + 1 + (lastRun + 255 - RUN_MASK) / 255) then Ok (0, dst)
  else
    '(op, dst) ← (if RUN_MASK <=? lastRun then
                    let accumulator := lastRun - RUN_MASK in
                    dst ← write8 op (Z.shiftl RUN_MASK ML_BITS) dst;
                    put_length (Z.to_nat accumulator) (op + 1) accumulator dst
                  else
                    dst ← write8 op (Z.shiftl lastRun ML_BITS) dst;
                    Ok (op + 1, dst));
    dst ← mem_copy op dst anchor lastRun src;
    Ok (swrap 32 (op + lastRun), dst).

(** What a round of the main loop starts with: the search for a match, or a match that directly
    follows the last one ([goto _next_match]), whose token is written already. *)
Inductive round := Search (ip forwardH : Z) | NextMatch (token ip m : Z).

Fixpoint compress_loop (acceleration : Z) (fuel : nat) (r : round) (anchor op : Z) (t : list Z) (dst : bytes) : cres (Z * bytes) :=
  match fuel with
  | O => Undef OutOfFuel
  | S fuel' =>
      found ← (match r with
        | Search ip forwardH =>
            f ← find_match (S (Z.to_nat (iend - ip))) ip 1 (wshl 32 acceleration LZ4_skipTrigger) forwardH t;
            match f with
            | None => Ok (None, dst)
            | Some (ip, m, t) =>
                '(ip, m) ← catch_up (Z.to_nat ip) anchor ip m;
                '(lit, dst) ← encode_literals anchor ip op dst;
                Ok (Some (lit, ip, m, t), dst)
            end
        | NextMatch token ip m => Ok (Some (Some (token, op), ip, m, t), dst)
        end);
      match found with
      | (None, dst) => last_literals anchor op dst
      | (Some (None, _, _, _), dst) => Ok (0, dst)
      | (Some (Some (token, op), ip, m, t), dst) =>
          '(e, dst) ← encode_match token ip m op dst;
          match e with
          | None => Ok (0, dst)
          | Some (ip, op) =>
              let anchor := ip in
              if mflimit <? ip then last_literals anchor op dst
              else
                t ← LZ4_putPosition (ip - 2) t;
                m ← LZ4_getPosition ip t;
                t ← LZ4_putPosition ip t;
                hit ← (if ip <=? m + MAX_DISTANCE then
                         a ← LZ4_read32 src m;
                         b ← LZ4_read32 src ip;
                         Ok (a =? b)
                       else Ok false);
                if hit : bool then
                  dst ← write8 op 0 dst;
                  compress_loop acceleration fuel' (NextMatch op ip m) anchor (op + 1) t dst
                else
                  forwardH ← LZ4_hashPosition (ip + 1);
                  compress_loop acceleration fuel' (Search (ip + 1) forwardH) anchor op t dst
          end
      end
  end.

Definition LZ4_compress_generic (acceleration : Z) (dst : bytes) : cres (Z * bytes) :=
  if LZ4_MAX_INPUT_SIZE <? wrap 32 inputSize then Ok (0, dst)
  else if bool_decide (tableType = byU16) && (LZ4_64Klimit <=? inputSize) then Ok (0, dst)
  else if inputSize <? LZ4_minLength then last_literals 0 0 dst
  else
    t ← LZ4_putPosition 0 (LZ4_resetStream tableType);
    forwardH ← LZ4_hashPosition 1;
    compress_loop acceleration (S (Z.to_nat inputSize)) (Search 1 forwardH) 0 0 t dst.
End compress.

Definition LZ4_compress_fast_extState (src : bytes) (inputSize maxOutputSize acceleration : Z) (dst : bytes) : cres (Z * bytes) :=
  let acceleration := if acceleration <? 1 then ACCELERATION_DEFAULT else acceleration in
  let tableType := if inputSize <? LZ4_64Klimit then byU16 else byU32 in
  if LZ4_compressBound inputSize <=? maxOutputSize then
    LZ4_compress_generic src inputSize 0 false tableType acceleration dst
  else LZ4_compress_generic src inputSize maxOutputSize true tableType acceleration dst.

Definition LZ4_compress_fast (src : bytes) (inputSize maxOutputSize acceleration : Z) (dst : bytes) : cres (Z * bytes) :=
  LZ4_compress_fast_extState src inputSize maxOutputSize acceleration dst.
