(* ===== verification/Lz4Block.v ===== *)
(** * The LZ4 block format and the decompressor

    The format as a reference decoder on byte lists, [block_decode], and as a grammar, [block]; and the
    proof that [LZ4_decompress_safe], which copies eight bytes at a time and more than it has to,
    computes the reference decoder on every input. *)

From Stdlib Require Import ZArith Lia.
From stdpp Require Import base numbers list option.
From S2P Require Import Prelude Words Lz4.
Open Scope Z_scope.

(** ** Memory that agrees with a function *)

(** The first [k] bytes of [m] are those of [v]. *)
Definition agree (m : bytes) (v : Z → Z) (k : Z) : Prop := ∀ i, 0 <= i < k → m !! Z.to_nat i = Some (v i).

Lemma agree_len m v k : agree m v k → k <= zlen m.
Proof.
  intros Ha. destruct (decide (k <= 0)) as [Hk|Hk]; [pose proof (zlen_nonneg m); lia|].
  pose proof (lookup_lt_Some _ _ _ (Ha (k - 1) ltac:(lia))). unfold zlen. lia.
Qed.

Lemma agree_le m v k k' : agree m v k → k' <= k → agree m v k'.
Proof. intros Ha Hk i Hi. apply Ha. lia. Qed.

Lemma agree_ext m v w k : agree m v k → (∀ i, 0 <= i < k → v i = w i) → agree m w k.
Proof. intros Ha Hv i Hi. rewrite <- Hv by done. by apply Ha. Qed.

Lemma mem_read_lookup off n m d i : mem_read off n m = Ok d → 0 <= i < n → d !! Z.to_nat i = m !! Z.to_nat (off + i).
Proof.
  intros (H0 & H1 & H2 & ->)%mem_read_inv Hi. rewrite lookup_take_lt, lookup_drop by lia. f_equal. lia.
Qed.

Lemma mem_write_lookup off d m m' i : mem_write off d m = Ok m' → 0 <= i →
  m' !! Z.to_nat i = if decide (off <= i < off + zlen d) then d !! Z.to_nat (i - off) else m !! Z.to_nat i.
Proof.
  intros (H0 & H1 & ->)%mem_write_inv Hi. unfold zlen in *. case_decide.
  - rewrite lookup_app_r, lookup_app_l; rewrite length_take; [f_equal|..]; lia.
  - destruct (decide (i < off)).
    + rewrite lookup_app_l, lookup_take_lt by (rewrite ?length_take; lia). done.
    + rewrite lookup_app_r, lookup_app_r, lookup_drop; rewrite ?length_take; [f_equal|..]; lia.
Qed.

(** Values of [v] are read, and written at the end or inside of what agrees. *)
Definition values (v : Z → Z) (s : Z) (x : bytes) : Prop := ∀ i, 0 <= i < zlen x → x !! Z.to_nat i = Some (v (s + i)).

Lemma agree_read m v k s n : agree m v k → 0 <= s → 0 <= n → s + n <= k →
  ∃ x, mem_read s n m = Ok x ∧ zlen x = n ∧ values v s x.
Proof.
  intros Ha Hs Hn Hk. pose proof (agree_len _ _ _ Ha). destruct (mem_read s n m) as [x|u] eqn:E; [|rewrite mem_read_ok in E by lia; done].
  pose proof (mem_read_zlen _ _ _ _ E) as Hx. exists x. split_and!; [done..|]. intros i Hi. rewrite (mem_read_lookup _ _ _ _ _ E) by lia. apply Ha. lia.
Qed.

Lemma agree_write m v k d x : agree m v k → 0 <= d <= k → d + zlen x <= zlen m → values v d x →
  ∃ m', mem_write d x m = Ok m' ∧ zlen m' = zlen m ∧ agree m' v (Z.max k (d + zlen x)).
Proof.
  intros Ha Hd Hl Hv. destruct (mem_write_total d x m) as (m' & E & Hm); [lia|done|]. exists m'. split_and!; [done..|].
  intros i Hi. rewrite (mem_write_lookup _ _ _ _ _ E) by lia. case_decide; [|apply Ha; lia].
  rewrite Hv by lia. do 2 f_equal. lia.
Qed.

(** Copying within the memory where [v] repeats itself. *)
Lemma agree_memcpy m v k d s n : agree m v k → 0 <= s → 0 <= n → s + n <= k → 0 <= d <= k → d + n <= zlen m →
  s + n <= d ∨ d + n <= s → (∀ i, 0 <= i < n → v (s + i) = v (d + i)) →
  ∃ m', memcpy_within d s n m = Ok m' ∧ zlen m' = zlen m ∧ agree m' v (Z.max k (d + n)).
Proof.
  intros Ha Hs Hn Hk Hd Hl Ho Hv. unfold memcpy_within.
  assert ((d <? s + n) && (s <? d + n) = false) as -> by lia. unfold mem_copy.
  destruct (agree_read _ _ _ s n Ha) as (x & -> & Hx & Hvx); [lia..|]. cbn [mbind cres_bind]. rewrite <- Hx.
  apply agree_write; [done|lia|lia|]. intros i Hi. rewrite Hvx by lia. f_equal. apply Hv. lia.
Qed.

Lemma agree_copy1 m v k d s : agree m v k → 0 <= s < k → 0 <= d <= k → d < zlen m → v s = v d → (∀ i, byte_ok (v i)) →
  ∃ m', copy1 d s m = Ok m' ∧ zlen m' = zlen m ∧ agree m' v (Z.max k (d + 1)).
Proof.
  intros Ha Hs Hd Hl Hv Hb. unfold copy1, read8, load_le.
  destruct (agree_read _ _ _ s 1 Ha) as (x & E & Hx & Hvx); [lia..|]. change (Z.of_nat 1) with 1. rewrite E. cbn [mbind cres_bind].
  pose proof (Hvx 0 ltac:(lia)) as H0. destruct x as [|b [|c x]]; [done| |rewrite !zlen_cons in Hx; pose proof (zlen_nonneg x); lia]. injection H0 as ->. rewrite Z.add_0_r.
  unfold write8. apply (agree_write _ _ _ d (le_bytes 1 (le_val [v s]))); [done|lia|rewrite zlen_le_bytes; lia|].
  intros i Hi. change (zlen _) with 1 in Hi. replace i with 0 by lia. cbn. rewrite !Z.add_0_r, Hv, Z.mod_small by apply Hb. done.
Qed.

(** The end of a wild copy. *)
Definition wild_end (d e : Z) : Z := d + 8 * Z.max 1 ((e - d + 7) / 8).

Lemma wild_end_step d e : d + 8 < e → wild_end (d + 8) e = wild_end d e.
Proof.
  intros H. unfold wild_end. replace (e - d + 7) with (e - (d + 8) + 7 + 1 * 8) by lia. rewrite Z.div_add by lia.
  assert (1 <= (e - (d + 8) + 7) / 8) by (apply Z.div_le_lower_bound; lia). lia.
Qed.

Lemma wild_end_last d e : e <= d + 8 → wild_end d e = d + 8.
Proof. intros H. unfold wild_end. assert ((e - d + 7) / 8 < 2) by (apply Z.div_lt_upper_bound; lia). lia. Qed.

Lemma wild_end_bound d e : d <= e → e <= wild_end d e <= Z.max (d + 8) (e + 7).
Proof. intros H. unfold wild_end. pose proof (Z.div_mod (e - d + 7) 8). pose proof (Z.mod_pos_bound (e - d + 7) 8). lia. Qed.

Lemma agree_wildCopy (copy8 : Z → Z → bytes → cres bytes) v m d s e : agree m v d → 0 <= d → wild_end d e <= zlen m →
  (∀ m' j, 0 <= j → d + j + 8 <= wild_end d e → zlen m' = zlen m → agree m' v (d + j) →
    ∃ m'', copy8 (d + j) (s + j) m' = Ok m'' ∧ zlen m'' = zlen m ∧ agree m'' v (d + j + 8)) →
  ∃ m', LZ4_wildCopy copy8 d s e m = Ok m' ∧ zlen m' = zlen m ∧ agree m' v (wild_end d e).
Proof.
  unfold LZ4_wildCopy. intros Ha Hd Hl Hc. remember (S (Z.to_nat (e - d))) as fuel eqn:Ef. assert (Z.to_nat (e - d) < fuel)%nat as Hf by lia. clear Ef.
  revert m d s Ha Hd Hl Hc Hf. induction fuel as [|fuel IH]; intros m d s Ha Hd Hl Hc Hf; [lia|]. cbn [wildCopy_loop].
  assert (d + 8 <= wild_end d e) as H8 by (unfold wild_end; lia).
  destruct (Hc m 0) as (m1 & E1 & Hm1 & Ha1); [lia|lia|done|by rewrite Z.add_0_r|]. rewrite !Z.add_0_r in E1. rewrite Z.add_0_r in Ha1. rewrite E1. cbn [mbind cres_bind].
  destruct (Z.ltb_spec (d + 8) e) as [He|He].
  - destruct (IH m1 (d + 8) (s + 8)) as (m2 & E2 & Hm2 & Ha2); [done|lia|rewrite wild_end_step by done; lia| |lia|].
    + intros m' j Hj Hw Hm' Ham. rewrite wild_end_step in Hw by done. destruct (Hc m' (8 + j)) as (m'' & E & Hm'' & Ha''); [lia..| |].
      * by replace (d + (8 + j)) with (d + 8 + j) by lia.
      * exists m''. replace (d + 8 + j) with (d + (8 + j)) by lia. replace (s + 8 + j) with (s + (8 + j)) by lia. split_and!; [done|congruence|done].
    + exists m2. rewrite wild_end_step in Ha2 by done. split_and!; [done|congruence|done].
  - exists m1. rewrite wild_end_last by lia. done.
Qed.

(** From the source, and from [D] bytes before in the destination. *)
Lemma agree_wildCopy_src src v m d s e : agree m v d → 0 <= d → wild_end d e <= zlen m → 0 <= s → s + (wild_end d e - d) <= zlen src →
  (∀ i, 0 <= i < wild_end d e - d → src !! Z.to_nat (s + i) = Some (v (d + i))) →
  ∃ m', LZ4_wildCopy (LZ4_copy8 src) d s e m = Ok m' ∧ zlen m' = zlen m ∧ agree m' v (wild_end d e).
Proof.
  intros Ha Hd Hl Hs Hsl Hv. apply agree_wildCopy; [done..|]. intros m' j Hj Hw Hm' Ham. unfold LZ4_copy8, mem_copy.
  destruct (mem_read (s + j) 8 src) as [x|u] eqn:E; [|rewrite mem_read_ok in E by lia; done]. pose proof (mem_read_zlen _ _ _ _ E) as Hx. cbn [mbind cres_bind].
  destruct (agree_write m' v (d + j) (d + j) x) as (m'' & Ew & Hm'' & Ha''); [done|lia|lia| |].
  - intros i Hi. rewrite (mem_read_lookup _ _ _ _ _ E) by lia. rewrite <- !Z.add_assoc. apply Hv. lia.
  - exists m''. rewrite Hx in Ha''. split_and!; [done|congruence|]. eapply agree_le; [exact Ha''|lia].
Qed.

Lemma agree_wildCopy_within v m d D e : agree m v d → 8 <= D <= d → wild_end d e <= zlen m →
  (∀ i, d <= i → v (i - D) = v i) →
  ∃ m', LZ4_wildCopy LZ4_copy8_within d (d - D) e m = Ok m' ∧ zlen m' = zlen m ∧ agree m' v (wild_end d e).
Proof.
  intros Ha Hd Hl Hv. apply agree_wildCopy; [done|lia|done|]. intros m' j Hj Hw Hm' Ham. unfold LZ4_copy8_within.
  destruct (agree_memcpy m' v (d + j) (d + j) (d - D + j) 8) as (m'' & E & Hm'' & Ha''); [done|lia..| |].
  - intros i Hi. rewrite <- (Hv (d + j + i)) by lia. f_equal. lia.
  - exists m''. split_and!; [done|congruence|]. eapply agree_le; [exact Ha''|lia].
Qed.

(** ** Matches *)

(** A match of [n] bytes that starts [off] bytes before the end: byte by byte, so that it may
    overlap with what it appends.  The decoder takes an offset of zero for zero bytes. *)
Fixpoint repeat_match (n : nat) (off : Z) (out : bytes) : bytes :=
  match n with
  | O => out
  | S n' => repeat_match n' off (out ++ [if off =? 0 then 0 else nth (Z.to_nat (zlen out - off)) out 0])
  end.

(** The byte at [i] of the result. *)
Definition match_value (out : bytes) (off i : Z) : Z :=
  if i <? zlen out then nth (Z.to_nat i) out 0
  else if off =? 0 then 0
  else nth (Z.to_nat (zlen out - off + (i - zlen out) mod off)) out 0.

Lemma match_value_shift out off q i : 0 < off <= zlen out → zlen out <= i → zlen out - off <= i - q * off → 0 <= q →
  match_value out off (i - q * off) = match_value out off i.
Proof.
  intros Ho Hi Hq Hq0. unfold match_value. set (n := zlen out) in *. rewrite (proj2 (Z.ltb_ge i n)) by lia.
  rewrite (proj2 (Z.eqb_neq off 0)) by lia. destruct (Z.ltb_spec (i - q * off) n) as [Hl|Hl].
  - do 2 f_equal. rewrite <- (Z.mod_unique_pos (i - n) off (q - 1) (i - q * off - n + off)) by lia. lia.
  - do 3 f_equal. replace (i - q * off - n) with (i - n + - q * off) by lia. by rewrite Z.mod_add by lia.
Qed.

Lemma match_value_zero out i : zlen out <= i → match_value out 0 i = 0.
Proof. intros Hi. unfold match_value. by rewrite (proj2 (Z.ltb_ge _ _)) by lia. Qed.

Lemma nth_byte_ok i l : bytes_ok l → byte_ok (nth i l 0).
Proof.
  intros Hl. rewrite nth_lookup. destruct (l !! i) as [b|] eqn:E; [|done]. exact (Forall_lookup_1 _ _ _ _ Hl E).
Qed.

Lemma match_value_ok out off i : bytes_ok out → byte_ok (match_value out off i).
Proof. intros Ho. unfold match_value. destruct (_ <? _); [by apply nth_byte_ok|]. destruct (_ =? _); [done|by apply nth_byte_ok]. Qed.

(** A list that agrees with a function. *)
Lemma agree_nth l v k i : agree l v k → 0 <= i < k → nth (Z.to_nat i) l 0 = v i.
Proof. intros Ha Hi. apply nth_lookup_Some, Ha, Hi. Qed.

Lemma agree_self l : agree l (λ i, nth (Z.to_nat i) l 0) (zlen l).
Proof.
  intros i Hi. destruct (lookup_lt_is_Some_2 l (Z.to_nat i)) as [x Hx]; [unfold zlen in Hi; lia|]. rewrite Hx. f_equal. symmetry. by apply nth_lookup_Some.
Qed.

Lemma agree_eq l l' v : agree l v (zlen l) → agree l' v (zlen l) → zlen l' = zlen l → l = l'.
Proof.
  intros Ha Ha' Hl. apply list_eq. intros i. destruct (decide (i < length l)%nat) as [Hi|Hi].
  - rewrite <- (Nat2Z.id i), Ha, Ha' by (unfold zlen; lia). done.
  - rewrite !lookup_ge_None_2; [done|unfold zlen in *; lia..].
Qed.

Lemma agree_prefix m l : agree m (λ i, nth (Z.to_nat i) l 0) (zlen l) ↔ l `prefix_of` m.
Proof.
  split.
  - intros Ha. pose proof (agree_len _ _ _ Ha) as Hl. exists (drop (length l) m).
    rewrite <- (take_drop (length l) m) at 1. f_equal. apply (agree_eq _ _ (λ i, nth (Z.to_nat i) l 0)).
    + intros i Hi. unfold zlen in *. rewrite length_take in Hi. rewrite lookup_take_lt by lia. apply Ha. lia.
    + intros i Hi. apply agree_self. unfold zlen in *. rewrite length_take in Hi. lia.
    + unfold zlen in *. rewrite length_take. lia.
  - intros [k ->] i Hi. rewrite lookup_app_l by (unfold zlen in Hi; lia). by apply agree_self.
Qed.

Lemma agree_app m v l x : agree l v (zlen l) → values v (zlen l) x → agree m v (zlen (l ++ x)) → (l ++ x) `prefix_of` m.
Proof.
  intros Hl Hx Ha. apply agree_prefix. eapply agree_ext; [exact Ha|]. intros i Hi. symmetry. apply nth_lookup_Some. rewrite zlen_app in Hi.
  destruct (decide (i < zlen l)).
  - rewrite lookup_app_l by (unfold zlen in *; lia). apply Hl. lia.
  - rewrite lookup_app_r by (unfold zlen in *; lia). specialize (Hx (i - zlen l) ltac:(lia)).
    replace (Z.to_nat i - length l)%nat with (Z.to_nat (i - zlen l)) by (unfold zlen in *; lia). rewrite Hx. do 2 f_equal. lia.
Qed.

Lemma repeat_match_agree_aux n off out l : 0 <= off <= zlen out → zlen out <= zlen l → agree l (match_value out off) (zlen l) →
  agree (repeat_match n off l) (match_value out off) (zlen l + Z.of_nat n) ∧ zlen (repeat_match n off l) = zlen l + Z.of_nat n.
Proof.
  intros Ho. revert l. induction n as [|n IH]; intros l Hl Ha; cbn [repeat_match]; [by rewrite Z.add_0_r|].
  set (b := if off =? 0 then 0 else _).
  assert (zlen (l ++ [b]) = zlen l + 1) as Hz by (by rewrite zlen_app).
  destruct (IH (l ++ [b])) as [IH1 IH2]; [lia| |rewrite Hz in IH1, IH2; split; [eapply agree_le; [exact IH1|lia]|lia]].
  intros i Hi. destruct (decide (i < zlen l)).
  - rewrite lookup_app_l by (unfold zlen in *; lia). apply Ha. lia.
  - replace i with (zlen l) by lia. rewrite lookup_app_r by (unfold zlen; lia). replace (Z.to_nat (zlen l) - length l)%nat with 0%nat by (unfold zlen; lia).
    cbn. f_equal. subst b. destruct (Z.eqb_spec off 0) as [->|Hoff]; [by rewrite match_value_zero|].
    rewrite (agree_nth _ _ _ _ Ha) by lia. rewrite <- (match_value_shift out off 1 (zlen l)) by lia. f_equal. lia.
Qed.

Lemma match_value_self out off : agree out (match_value out off) (zlen out).
Proof. eapply agree_ext; [apply agree_self|]. intros i Hi. unfold match_value. by rewrite (proj2 (Z.ltb_lt _ _)) by lia. Qed.

Lemma repeat_match_agree n off out : 0 <= off <= zlen out →
  agree (repeat_match n off out) (match_value out off) (zlen out + Z.of_nat n) ∧ zlen (repeat_match n off out) = zlen out + Z.of_nat n.
Proof. intros Ho. apply repeat_match_agree_aux; [done|done|apply match_value_self]. Qed.

Lemma repeat_match_prefix n off out m : 0 <= off <= zlen out → agree m (match_value out off) (zlen out + Z.of_nat n) → repeat_match n off out `prefix_of` m.
Proof.
  intros Ho Ha. destruct (repeat_match_agree n off out Ho) as [Hr Hl]. apply agree_prefix. rewrite Hl. eapply agree_ext; [exact Ha|].
  intros i Hi. symmetry. by apply (agree_nth _ _ _ _ Hr).
Qed.

Lemma repeat_match_ok n off out : bytes_ok out → bytes_ok (repeat_match n off out).
Proof.
  revert out. induction n as [|n IH]; intros out Ho; [done|]. apply IH, Forall_app_2; [done|]. constructor; [|constructor].
  destruct (_ =? _); [done|by apply nth_byte_ok].
Qed.

(** ** The copy of a match *)

Lemma dec_tables off : 0 <= off < 8 →
  let S := off - nth (Z.to_nat off) dec32table 0 + 4 in let D := S + nth (Z.to_nat off) dec64table 0 + 4 in
  4 <= S <= off + 4 ∧ 8 <= D <= off + 8 ∧ (off ≠ 0 → ∃ q q', S = q * off ∧ 0 <= q ∧ D = q' * off ∧ 0 <= q').
Proof.
  intros Ho S D. assert ((off, S, D) ∈ [(0, 4, 8); (1, 4, 8); (2, 4, 8); (3, 6, 9); (4, 4, 8); (5, 5, 10); (6, 6, 12); (7, 7, 14)]) as Hin.
  { subst S D. assert (off = 0 ∨ off = 1 ∨ off = 2 ∨ off = 3 ∨ off = 4 ∨ off = 5 ∨ off = 6 ∨ off = 7) as Hc by lia.
    by destruct Hc as [->|[->|[->|[->|[->|[->|[->| ->]]]]]]]; apply (bool_decide_unpack _); vm_compute. }
  rewrite !elem_of_cons, elem_of_nil in Hin. clearbody S D. repeat (destruct Hin as [[= -> -> ->]|Hin]; [split_and!; [lia..|intros Hne]|]); [..|done].
  - done.
  - by exists 4, 8.
  - by exists 2, 4.
  - by exists 2, 3.
  - by exists 1, 2.
  - by exists 1, 2.
  - by exists 1, 2.
  - by exists 1, 2.
Qed.

(** Where the copy goes on: a multiple of the offset before, and at least eight bytes. *)
Lemma copy_start_ok out off m : 0 <= off <= zlen out → bytes_ok out → zlen out + 8 <= zlen m →
  agree m (match_value out off) (zlen out) → (off = 0 → agree m (match_value out off) (zlen out + 4)) →
  ∃ D m', copy_start (zlen out) off m = Ok (zlen out + 8 - D, m') ∧ zlen m' = zlen m ∧ agree m' (match_value out off) (zlen out + 8)
          ∧ 8 <= D <= zlen out + 8 ∧ ∀ i, zlen out + 8 <= i → match_value out off (i - D) = match_value out off i.
Proof.
  intros Ho Hok Hl Ha Ha0. set (v := match_value out off) in *. set (n := zlen out) in *. unfold copy_start.
  assert (∀ i, byte_ok (v i)) as Hb by (intros i; by apply match_value_ok).
  destruct (Z.ltb_spec off 8) as [H8|H8].
  2:{ destruct (agree_memcpy m v n n (n - off) 8) as (m1 & E1 & Hm1 & Ha1); [done|lia..| |].
      { intros i Hi. replace (n - off + i) with (n + i - 1 * off) by lia. apply match_value_shift; lia. }
      exists off, m1. unfold LZ4_copy8_within. rewrite E1. split_and!; [cbn; do 2 f_equal; lia|done|eapply agree_le; [exact Ha1|lia]|lia|lia|].
      intros i Hi. replace (i - off) with (i - 1 * off) by lia. apply match_value_shift; lia. }
  set (k := if off =? 0 then n + 4 else n).
  assert (agree m v k ∧ (off = 0 ∧ k = n + 4 ∨ 0 < off ∧ k = n)) as (Hk & Hk1).
  { subst k. destruct (Z.eqb_spec off 0); (split; [|lia]); [by apply Ha0|done]. }
  assert (∀ j, 0 <= j → v (n - off + j) = v (n + j)) as Hs.
  { intros j Hj. destruct (decide (off = 0)) as [->|]; [by rewrite Z.sub_0_r|]. replace (n - off + j) with (n + j - 1 * off) by lia. apply match_value_shift; lia. }
  destruct (agree_copy1 m v k n (n - off)) as (m1 & E1 & Hm1 & Ha1); [done|lia..| |done|].
  { specialize (Hs 0 ltac:(lia)). by rewrite !Z.add_0_r in Hs. }
  rewrite E1. cbn [mbind cres_bind].
  destruct (agree_copy1 m1 v (Z.max k (n + 1)) (n + 1) (n - off + 1)) as (m2 & E2 & Hm2 & Ha2); [done|lia..|by apply Hs|done|].
  rewrite E2. cbn [mbind cres_bind].
  destruct (agree_copy1 m2 v (Z.max (Z.max k (n + 1)) (n + 1 + 1)) (n + 2) (n - off + 2)) as (m3 & E3 & Hm3 & Ha3); [done|lia..|by apply Hs|done|].
  rewrite E3. cbn [mbind cres_bind].
  destruct (agree_copy1 m3 v (Z.max (Z.max (Z.max k (n + 1)) (n + 1 + 1)) (n + 2 + 1)) (n + 3) (n - off + 3)) as (m4 & E4 & Hm4 & Ha4); [done|lia..|by apply Hs|done|].
  rewrite E4. cbn [mbind cres_bind].
  assert (agree m4 v (n + 4)) as Ha4' by (eapply agree_le; [exact Ha4|lia]). clear Ha1 Ha2 Ha3 Ha4 E1 E2 E3 E4 Hk Hk1 k.
  set (S := off - nth (Z.to_nat off) dec32table 0 + 4). set (D := S + nth (Z.to_nat off) dec64table 0 + 4).
  assert (4 <= S <= off + 4 ∧ 8 <= D <= off + 8 ∧ (off ≠ 0 → ∃ q q', S = q * off ∧ 0 <= q ∧ D = q' * off ∧ 0 <= q')) as (HS & HD & Hq).
  { subst S D. exact (dec_tables off ltac:(lia)). }
  assert (∀ i, n + 4 <= i → v (i - S) = v i) as HvS.
  { intros i Hi. destruct (decide (off = 0)) as [E0|E0].
    - subst v. rewrite E0, !match_value_zero by lia. done.
    - destruct (Hq E0) as (q & _ & -> & ? & _). apply match_value_shift; lia. }
  destruct (agree_memcpy m4 v (n + 4) (n + 4) (n + 4 - S) 4) as (m5 & E5 & Hm5 & Ha5); [done|lia..| |].
  { intros i Hi. rewrite <- (HvS (n + 4 + i)) by lia. f_equal. lia. }
  replace (n - off + nth (Z.to_nat off) dec32table 0) with (n + 4 - S) by (subst S; lia). rewrite E5. cbn [mbind cres_bind].
  exists D, m5. split_and!; [do 2 f_equal; subst D; lia|congruence|eapply agree_le; [exact Ha5|lia]|lia|lia|].
  intros i Hi. destruct (decide (off = 0)) as [E0|E0].
  - subst v. rewrite E0, !match_value_zero by lia. done.
  - destruct (Hq E0) as (_ & q & _ & _ & -> & ?). apply match_value_shift; lia.
Qed.

Lemma copy_bytes_ok v D cpy fuel op k m : agree m v k → (∀ i, byte_ok (v i)) → 0 < D → D <= op <= k → cpy <= zlen m → cpy - op <= Z.of_nat fuel →
  (∀ i, op <= i → v (i - D) = v i) → ∃ m', copy_bytes fuel op (op - D) cpy m = Ok m' ∧ zlen m' = zlen m ∧ agree m' v (Z.max k cpy).
Proof.
  intros Ha Hb HD. revert op k m Ha. induction fuel as [|fuel IH]; intros op k m Ha Hop Hl Hf Hv; cbn [copy_bytes].
  - rewrite (proj2 (Z.ltb_ge _ _)) by lia. exists m. split_and!; [done..|]. eapply agree_le; [exact Ha|lia].
  - destruct (Z.ltb_spec op cpy); [|exists m; split_and!; [done..|eapply agree_le; [exact Ha|lia]]].
    destruct (agree_copy1 m v k op (op - D)) as (m1 & E1 & Hm1 & Ha1); [done|lia..|apply Hv; lia|done|]. rewrite E1. cbn [mbind cres_bind].
    replace (op - D + 1) with (op + 1 - D) by lia.
    destruct (IH (op + 1) (Z.max k (op + 1)) m1) as (m2 & E2 & Hm2 & Ha2); [done|lia..|intros i Hi; apply Hv; lia|].
    exists m2. split_and!; [done|congruence|]. eapply agree_le; [exact Ha2|lia].
Qed.

Lemma copy_match_ok oend out off length m : 0 <= off <= zlen out → bytes_ok out → zlen out + MFLIMIT <= oend <= zlen m → 4 <= length →
  agree m (match_value out off) (zlen out) → (off = 0 → agree m (match_value out off) (zlen out + 4)) →
  ∃ b m', copy_match oend (zlen out) off length m = Ok (b, m') ∧ zlen m' = zlen m
          ∧ b = (zlen out + length <=? oend - LASTLITERALS) ∧ (b = true → agree m' (match_value out off) (zlen out + length)).
Proof.
  unfold MFLIMIT, LASTLITERALS, WILDCOPYLENGTH, MINMATCH. intros Ho Hok Hl Hlen Ha Ha0. unfold copy_match, LASTLITERALS, WILDCOPYLENGTH.
  destruct (copy_start_ok out off m Ho Hok) as (D & m1 & E1 & Hm1 & Ha1 & HD & Hv); [lia|done..|]. rewrite E1. cbn [mbind cres_bind].
  set (n := zlen out) in *. set (v := match_value out off) in *. assert (∀ i, byte_ok (v i)) as Hb by (intros i; by apply match_value_ok).
  destruct (Z.ltb_spec (oend - 12) (n + length)) as [H12|H12].
  - destruct (Z.ltb_spec (oend - 5) (n + length)) as [H5|H5]; [exists false, m1; split_and!; [done..|lia|done]|].
    destruct (Z.ltb_spec (n + 8) (oend - (8 - 1))) as [Hc|Hc].
    + pose proof (wild_end_bound (n + 8) (oend - (8 - 1)) ltac:(lia)) as Hw.
      destruct (agree_wildCopy_within v m1 (n + 8) D (oend - (8 - 1))) as (m2 & E2 & Hm2 & Ha2); [done|lia|lia|done|].
      rewrite E2. cbn [mbind cres_bind]. replace (n + 8 - D + (oend - (8 - 1) - (n + 8))) with (oend - (8 - 1) - D) by lia.
      destruct (copy_bytes_ok v D (n + length) (Z.to_nat (n + length - (oend - (8 - 1)))) (oend - (8 - 1)) (wild_end (n + 8) (oend - (8 - 1))) m2)
        as (m3 & E3 & Hm3 & Ha3); [done|done|lia..|intros i Hi; apply Hv; lia|]. rewrite E3. exists true, m3.
      split_and!; [done|congruence|lia|]. intros _. eapply agree_le; [exact Ha3|lia].
    + destruct (copy_bytes_ok v D (n + length) (Z.to_nat (n + length - (n + 8))) (n + 8) (n + 8) m1)
        as (m3 & E3 & Hm3 & Ha3); [done|done|lia..|done|]. rewrite E3. exists true, m3.
      split_and!; [done|congruence|lia|]. intros _. eapply agree_le; [exact Ha3|lia].
  - change (LZ4_copy8_within (n + 8) (n + 8 - D) m1) with (memcpy_within (n + 8) (n + 8 - D) 8 m1). destruct (agree_memcpy m1 v (n + 8) (n + 8) (n + 8 - D) 8) as (m2 & E2 & Hm2 & Ha2); [done|lia..| |].
    { intros i Hi. rewrite <- (Hv (n + 8 + i)) by lia. f_equal. lia. }
    rewrite E2. cbn [mbind cres_bind]. assert (agree m2 v (n + 8 + 8)) as Ha2' by (eapply agree_le; [exact Ha2|lia]).
    destruct (Z.ltb_spec 16 length) as [H16|H16].
    + pose proof (wild_end_bound (n + 8 + 8) (n + length) ltac:(lia)) as Hw. replace (n + 8 - D + 8) with (n + 8 + 8 - D) by lia.
      destruct (agree_wildCopy_within v m2 (n + 8 + 8) D (n + length)) as (m3 & E3 & Hm3 & Ha3); [done|lia|lia|intros i Hi; apply Hv; lia|].
      rewrite E3. exists true, m3. split_and!; [done|congruence|lia|]. intros _. eapply agree_le; [exact Ha3|lia].
    + exists true, m2. split_and!; [done|congruence|lia|]. intros _. eapply agree_le; [exact Ha2'|lia].
Qed.

(** ** The reference decoder *)

(** The bytes behind a length of 15. *)
Fixpoint read_length (x : Z) (l : bytes) : option (Z * bytes) :=
  match l with
  | [] => None
  | s :: l' => if s =? 255 then read_length (x + 255) l' else Some (x + s, l')
  end.

Definition lz4_length (nibble : Z) (l : bytes) : option (Z * bytes) :=
  if nibble =? 15 then read_length 15 l else Some (nibble, l).

(** The output for the input [inp], behind the output [out], in at most [oend] bytes.  A sequence that
    is not the last one leaves twelve bytes of the output behind its literals, five behind its match, and
    eight bytes of the input behind its literals. *)
Fixpoint block_decode (fuel : nat) (oend : Z) (inp out : bytes) : option bytes :=
  match fuel, inp with
  | S fuel', token :: inp =>
      '(lit, inp) ← lz4_length (token / 16) inp;
      if (oend - 12 <? zlen out + lit) || (zlen inp - 8 <? lit) then
        if (lit =? zlen inp) && (zlen out + lit <=? oend) then Some (out ++ inp) else None
      else
        let out := out ++ take (Z.to_nat lit) inp in
        let inp := drop (Z.to_nat lit) inp in
        let off := le_val (take 2 inp) in
        if zlen out <? off then None
        else
          '(len, inp) ← lz4_length (token mod 16) (drop 2 inp);
          if (zlen inp <? 5) || (oend - 5 <? zlen out + (len + 4)) then None
          else block_decode fuel' oend inp (repeat_match (Z.to_nat (len + 4)) off out)
  | _, _ => None
  end.

Lemma read_length_suffix x l n r : read_length x l = Some (n, r) → bytes_ok l → ∃ p, l = p ++ r ∧ 0 < zlen p ∧ x <= n <= x + 255 * zlen p.
Proof.
  revert x. induction l as [|s l IH]; intros x Hr Hl; cbn [read_length] in Hr; [done|]. apply Forall_cons_1 in Hl as [Hs Hl]. unfold byte_ok in Hs.
  destruct (Z.eqb_spec s 255) as [->|Hne].
  - destruct (IH _ Hr Hl) as (p & -> & Hp & Hx). exists (255 :: p). rewrite zlen_cons. split_and!; [done|lia..].
  - injection Hr as <- <-. exists [s]. change (zlen [s]) with 1. split_and!; [done|lia..].
Qed.

Lemma lz4_length_suffix x l n r : lz4_length x l = Some (n, r) → bytes_ok l → ∃ p, l = p ++ r.
Proof.
  unfold lz4_length. destruct (x =? 15); [|intros [= <- <-] _; by exists []]. intros Hr Hl. destruct (read_length_suffix _ _ _ _ Hr Hl) as (p & ? & _). by exists p.
Qed.

Lemma read8_seg src a s b ip : src = a ++ s :: b → ip = zlen a → read8 src ip = Ok s.
Proof. intros -> ->. unfold read8. rewrite (load_le_seg 1 a [s] b) by done. cbn. by rewrite Z.add_0_r. Qed.

(** The loop of the literal length stops at the end of the input, which is then too short for the
    literals. *)
Lemma lit_length_ok src iend fuel a inp post ip x : src = a ++ inp ++ post → bytes_ok src → ip = zlen a → ip + zlen inp = iend → inp ++ post ≠ [] →
  15 <= x → x + 255 * zlen inp + 255 < 2 ^ 64 → (length inp < fuel)%nat →
  ∃ len ip', lit_length src iend fuel ip x = Ok (len, ip') ∧ 15 <= len < 2 ^ 64 ∧ 0 < ip' <= iend + 1 ∧
    match read_length x inp with
    | Some (l, r) => (len = l ∧ ip' + zlen r = iend) ∨ (iend < ip' + len ∧ zlen r < l)
    | None => iend < ip' + len
    end.
Proof.
  revert a inp ip x. induction fuel as [|fuel IH]; intros a inp ip x Hsrc Hok Hip Hend Hne Hx Hb Hf; [lia|]. cbn [lit_length]. unfold RUN_MASK, RUN_BITS, ML_BITS.
  change (Z.shiftl 1 (8 - 4) - 1) with 15. pose proof (zlen_nonneg a).
  destruct inp as [|s inp].
  - destruct post as [|s post]; [done|]. rewrite (read8_seg src a s post) by done. cbn [mbind cres_bind].
    assert (byte_ok s) as Hs. { subst src. apply Forall_app in Hok as [_ Hok]. by apply Forall_cons_1 in Hok as [? _]. }
    unfold byte_ok in Hs. change (zlen []) with 0 in *. rewrite wadd_small by (unfold word_ok; lia).
    rewrite (proj2 (Z.ltb_ge (ip + 1) _)) by lia. cbn [andb]. eexists _, _. split_and!; [done|lia..|]. cbn. lia.
  - rewrite (read8_seg src a s (inp ++ post)) by done. cbn [mbind cres_bind read_length]. rewrite zlen_cons in *. pose proof (zlen_nonneg inp).
    assert (byte_ok s ∧ bytes_ok inp) as [Hs Hinp].
    { subst src. apply Forall_app in Hok as [_ Hok]. apply Forall_cons_1 in Hok as [? Hok]. by apply Forall_app in Hok as [? _]. }
    unfold byte_ok in Hs. rewrite wadd_small by (unfold word_ok; lia). destruct (Z.eqb_spec s 255) as [->|Hs255].
    + destruct (Z.ltb_spec (ip + 1) (iend - 15)) as [Hc|Hc]; cbn [andb].
      * apply (IH (a ++ [255]) inp); [by rewrite <- app_assoc|done|rewrite zlen_app, zlen_cons, zlen_nil; lia|lia| |lia|lia|cbn in Hf; lia].
        intros Hnil. apply app_nil in Hnil as [-> _]. change (zlen []) with 0 in *. lia.
      * eexists _, _. split_and!; [done|lia..|]. destruct (read_length _ inp) as [[l r]|] eqn:Er; [|lia].
        right. apply read_length_suffix in Er as (p & -> & Hp & Hl); [|done]. rewrite zlen_app in *. lia.
    + rewrite andb_false_r. eexists _, _. split_and!; [done|lia..|]. left. lia.
Qed.

Lemma match_length_ok src iend fuel a inp post ip x : src = a ++ inp ++ post → bytes_ok src → ip = zlen a → ip + zlen inp = iend → 5 <= zlen inp →
  0 <= x → x + 255 * zlen inp < 2 ^ 64 → (length inp < fuel)%nat →
  ∃ o ip', match_length src iend fuel ip x = Ok (o, ip') ∧ 0 < ip' <= iend ∧
    match o with
    | Some l => ∃ r, read_length x inp = Some (l, r) ∧ 5 <= zlen r ∧ ip' + zlen r = iend
    | None => ∀ l r, read_length x inp = Some (l, r) → zlen r < 5
    end.
Proof.
  revert a inp ip x. induction fuel as [|fuel IH]; intros a inp ip x Hsrc Hok Hip Hend H5 Hx Hb Hf; [lia|]. cbn [match_length]. unfold LASTLITERALS.
  pose proof (zlen_nonneg a). destruct inp as [|s inp]; [done|]. rewrite (read8_seg src a s (inp ++ post)) by done. cbn [mbind cres_bind read_length].
  rewrite zlen_cons in *. pose proof (zlen_nonneg inp). assert (byte_ok s ∧ bytes_ok inp) as [Hs Hinp].
  { subst src. apply Forall_app in Hok as [_ Hok]. apply Forall_cons_1 in Hok as [? Hok]. by apply Forall_app in Hok as [? _]. }
  unfold byte_ok in Hs. destruct (Z.ltb_spec (iend - 5) (ip + 1)) as [Hc|Hc].
  - exists None, (ip + 1). split_and!; [done|lia..|]. intros l r. destruct (s =? 255).
    + intros Hr. apply read_length_suffix in Hr as (p & -> & Hp & Hl); [|done]. rewrite zlen_app in *. lia.
    + intros [= <- <-]. lia.
  - rewrite wadd_small by (unfold word_ok; lia). destruct (Z.eqb_spec s 255) as [->|Hs255].
    + apply (IH (a ++ [255]) inp); [by rewrite <- app_assoc|done|rewrite zlen_app, zlen_cons, zlen_nil; lia|lia..|cbn in Hf; lia].
    + eexists _, _. split_and!; [done|lia..|]. cbn. eexists. split_and!; [done|lia..].
Qed.

(** ** The decoder *)

Section decoder.
Context (src : bytes) (iend oend src_addr dst_addr : Z).
Context (Hsrc : bytes_ok src) (Hiend : 0 <= iend < 2 ^ 31) (Hoend : 0 <= oend < 2 ^ 31).
Context (Hsa : 0 <= src_addr) (Hsa64 : src_addr + zlen src < 2 ^ 64).

(** An address overflows only when the length is longer than the object. *)
Lemma wraps_spec addr p len n : 0 <= addr → 0 <= p → addr + p < 2 ^ 64 → addr + n < 2 ^ 64 → 0 <= len < 2 ^ 64 → p + len <= n → wraps addr p len = false.
Proof. intros. unfold wraps. apply Z.ltb_ge. rewrite wadd_small by (unfold word_ok; lia). lia. Qed.

Lemma output_error_neg ip : 0 <= ip <= 2 ^ 31 → output_error ip < 0.
Proof. intros H. unfold output_error. rewrite swrap_small by lia. lia. Qed.

Lemma get_literal_length_ok a inp post ip op token : src = a ++ inp ++ post → ip = zlen a → ip + zlen inp = iend → inp ++ post ≠ [] →
  byte_ok token → 0 <= op <= oend → 0 <= dst_addr → dst_addr + oend < 2 ^ 64 →
  ∃ o ip', get_literal_length src iend src_addr dst_addr token ip op = Ok (o, ip') ∧ 0 <= ip' <= iend + 1 ∧
    match o, lz4_length (token / 16) inp with
    | Some len, Some (l, r) => 0 <= len ∧ ((len = l ∧ ip' + zlen r = iend) ∨ (iend < ip' + len ∧ zlen r < l))
    | Some len, None => 0 <= len ∧ iend < ip' + len
    | None, Some (l, r) => zlen r < l ∨ oend < op + l
    | None, None => True
    end.
Proof.
  intros Hs Hip Hend Hne Ht Hop Hda Hd64. unfold get_literal_length, ML_BITS, lz4_length. rewrite shiftr_div by lia. change (2 ^ 4) with 16. change RUN_MASK with 15.
  pose proof (zlen_nonneg a). pose proof (zlen_nonneg inp). pose proof (zlen_nonneg post).
  assert (0 <= token / 16) by (apply Z.div_pos; unfold byte_ok in Ht; lia).
  assert (zlen src = zlen a + (zlen inp + zlen post)) as Hl by (by rewrite Hs, !zlen_app).
  destruct (Z.eqb_spec (token / 16) 15) as [->|Hn].
  2:{ eexists (Some _), _. split_and!; [done|lia|lia|lia|]. left. lia. }
  destruct (lit_length_ok src iend (S (Z.to_nat (iend - ip))) a inp post ip 15) as (len & ip' & E & Hlen & Hip' & Hr); try done; [lia|unfold zlen in *; lia|].
  rewrite E. cbn [mbind cres_bind]. destruct (wraps dst_addr op len || wraps src_addr ip' len) eqn:Ew.
  - exists None, ip'. split_and!; [done|lia..|]. destruct (read_length 15 inp) as [[l r]|]; [|done].
    destruct Hr as [[-> Hr]|[_ Hr]]; [|by left]. apply orb_prop in Ew as [Ew|Ew].
    + right. destruct (decide (op + l <= oend)); [|lia]. rewrite (wraps_spec _ _ _ oend) in Ew by lia. done.
    + left. destruct (decide (ip' + l <= iend)); [|lia]. pose proof (zlen_nonneg r). rewrite (wraps_spec _ _ _ iend) in Ew by lia. done.
  - exists (Some len), ip'. split_and!; [done|lia..|]. destruct (read_length 15 inp) as [[l r]|]; (split; [lia|done]).
Qed.

Lemma get_match_length_ok a inp post ip op token : src = a ++ inp ++ post → ip = zlen a → ip + zlen inp = iend → 6 <= zlen inp →
  byte_ok token → 0 <= op <= oend → 0 <= dst_addr → dst_addr + oend < 2 ^ 64 →
  ∃ o ip', get_match_length src iend dst_addr token ip op = Ok (o, ip') ∧ 0 <= ip' <= iend ∧
    match o, lz4_length (token mod 16) inp with
    | Some len, Some (l, r) => len = l + 4 ∧ 4 <= len ∧ ip' + zlen r = iend ∧ 5 <= zlen r
    | Some _, None => False
    | None, Some (l, r) => zlen r < 5 ∨ oend < op + l
    | None, None => True
    end.
Proof.
  intros Hs Hip Hend H6 Ht Hop Hda Hd64. unfold get_match_length, lz4_length, MINMATCH. change ML_MASK with 15.
  rewrite (land_mask token 4 15) by done. change (2 ^ 4) with 16. pose proof (zlen_nonneg a). pose proof (Z.mod_pos_bound token 16 ltac:(lia)).
  destruct (Z.eqb_spec (token mod 16) 15) as [->|Hn].
  2:{ eexists (Some _), _. split_and!; [done|lia..|rewrite wadd_small by (unfold word_ok; lia); lia|rewrite wadd_small by (unfold word_ok; lia); lia|lia|lia]. }
  destruct (match_length_ok src iend (S (Z.to_nat (iend - ip))) a inp post ip 15) as (o & ip' & E & Hip' & Hr); try done; [lia|lia|unfold zlen in *; lia|].
  rewrite E. cbn [mbind cres_bind]. destruct o as [len|].
  - destruct Hr as (r & Hr & H5 & He). rewrite Hr. assert (bytes_ok inp) as Hinp by (subst src; apply Forall_app in Hsrc as [_ Hx]; by apply Forall_app in Hx as [? _]).
    destruct (read_length_suffix _ _ _ _ Hr Hinp) as (p & -> & _ & Hx). rewrite zlen_app in *.
    destruct (wraps dst_addr op len) eqn:Ew.
    + exists None, ip'. split_and!; [done|lia..|]. right. destruct (decide (op + len <= oend)); [|lia]. rewrite (wraps_spec _ _ _ oend) in Ew by lia. done.
    + eexists (Some _), ip'. rewrite wadd_small by (unfold word_ok; lia). split_and!; [done|lia..].
  - exists None, ip'. split_and!; [done|lia..|]. destruct (read_length 15 inp) as [[l r]|]; [|done]. left. by apply (Hr l r).
Qed.

(** The literals of a sequence, with more than it has to copy. *)
Lemma copy_literals_ok a r post out dst l : src = a ++ r ++ post → out `prefix_of` dst → 0 <= l <= zlen r - 8 → zlen out + Z.max 8 (l + 7) <= zlen dst →
  ∃ dst', LZ4_wildCopy (LZ4_copy8 src) (zlen out) (zlen a) (zlen out + l) dst = Ok dst' ∧ zlen dst' = zlen dst
          ∧ (out ++ take (Z.to_nat l) r) `prefix_of` dst'.
Proof.
  intros Hs Hpre Hl Hd. set (v := λ i, nth (Z.to_nat i) (out ++ r) 0). pose proof (zlen_nonneg a). pose proof (zlen_nonneg out). pose proof (zlen_nonneg post).
  pose proof (wild_end_bound (zlen out) (zlen out + l) ltac:(lia)) as Hw.
  assert (zlen src = zlen a + (zlen r + zlen post)) as Hsl by (by rewrite Hs, !zlen_app).
  assert (agree (out ++ r) v (zlen out + zlen r)) as Hv by (rewrite <- zlen_app; apply agree_self).
  destruct (agree_wildCopy_src src v dst (zlen out) (zlen a) (zlen out + l)) as (dst' & E & Hl' & Ha); [|lia..| |].
  - apply agree_prefix in Hpre. eapply agree_ext; [exact Hpre|]. intros i Hi. subst v. cbn. by rewrite app_nth1 by (unfold zlen in Hi; lia).
  - intros i Hi. rewrite Hs, lookup_app_r by (unfold zlen; lia). rewrite lookup_app_l by (unfold zlen in *; lia).
    specialize (Hv (zlen out + i) ltac:(lia)). rewrite lookup_app_r in Hv by (unfold zlen; lia). rewrite <- Hv. f_equal. unfold zlen. lia.
  - exists dst'. split_and!; [done..|]. assert (zlen (take (Z.to_nat l) r) = l) as Ht by (apply zlen_take; lia).
    apply (agree_app _ v).
    + intros i Hi. rewrite <- Hv by lia. by rewrite lookup_app_l by (unfold zlen in Hi; lia).
    + intros i Hi. rewrite Ht in Hi. rewrite lookup_take_lt by lia. specialize (Hv (zlen out + i) ltac:(lia)). rewrite lookup_app_r in Hv by (unfold zlen; lia).
      rewrite <- Hv. f_equal. unfold zlen. lia.
    + eapply agree_le; [exact Ha|]. rewrite zlen_app. lia.
Qed.

(** The match of a sequence, behind the literals. *)
Lemma decode_match_ok a inp post out dst token : src = a ++ inp ++ post → zlen a + zlen inp = iend → 8 <= zlen inp → byte_ok token →
  out `prefix_of` dst → bytes_ok out → zlen out + MFLIMIT <= oend <= zlen dst → 0 <= dst_addr → dst_addr + oend < 2 ^ 64 →
  let off := le_val (take 2 inp) in
  ∃ next ip' dst', decode_match src iend oend dst_addr token (zlen a) (zlen out) dst = Ok (next, ip', dst') ∧ zlen dst' = zlen dst ∧ 0 <= ip' <= iend ∧
    match next with
    | Some op => ∃ len r, lz4_length (token mod 16) (drop 2 inp) = Some (len, r) ∧ 0 <= off <= zlen out ∧ 5 <= zlen r ∧ ip' + zlen r = iend ∧ 0 <= len
        ∧ op = zlen out + (len + 4) ∧ op <= oend - 5 ∧ repeat_match (Z.to_nat (len + 4)) off out `prefix_of` dst'
    | None => zlen out < off ∨ ∀ len r, lz4_length (token mod 16) (drop 2 inp) = Some (len, r) → zlen r < 5 ∨ oend - 5 < zlen out + (len + 4)
    end.
Proof.
  intros Hs Hend H8 Ht Hpre Hok Hl Hda Hd64 off. unfold decode_match, LZ4_readLE16, LZ4_read16.
  pose proof (zlen_nonneg a). pose proof (zlen_nonneg out). unfold MFLIMIT, WILDCOPYLENGTH, MINMATCH in Hl.
  destruct (bytes_split 2 inp) as (o2 & inp2 & -> & Ho2); [lia|]. rewrite zlen_app in *.
  assert (take 2 (o2 ++ inp2) = o2) as Et by (apply take_app_length'; unfold zlen in Ho2; lia).
  assert (drop 2 (o2 ++ inp2) = inp2) as Edr by (apply drop_app_length'; unfold zlen in Ho2; lia).
  subst off. rewrite Et, Edr. 
  assert (load_le 2 src (zlen a) = Ok (le_val o2)) as ->
    by (rewrite Hs, <- app_assoc; apply load_le_seg; [unfold zlen in Ho2; lia|done]). cbn [mbind cres_bind].
  assert (bytes_ok o2) as Ho2ok by (subst src; apply Forall_app in Hsrc as [_ Hx]; apply Forall_app in Hx as [Hx _]; by apply Forall_app in Hx as [? _]).
  pose proof (le_val_bound _ Ho2ok) as Hoff. set (off := le_val o2) in *. replace (zlen out - off <? 0) with (zlen out <? off) by lia.
  destruct (Z.ltb_spec (zlen out) off) as [Hlt|Hge].
  { eexists None, _, dst. split_and!; [done..|lia|lia|by left]. }
  destruct (mem_write_total (zlen out) (le_bytes 4 off) dst) as (dst1 & Ew & Hd1); [lia|rewrite zlen_le_bytes; lia|].
  unfold LZ4_write32. rewrite Ew. cbn [mbind cres_bind].
  destruct (get_match_length_ok (a ++ o2) inp2 post (zlen a + 2) (zlen out) token) as (o & ip' & Eg & Hip' & Hr);
    [by rewrite Hs, <- !app_assoc|rewrite zlen_app; lia|lia..|done|lia|done|done|]. rewrite Eg. cbn [mbind cres_bind].
  destruct o as [len|].
  2:{ eexists None, _, dst1. split_and!; [done..|lia|lia|]. right. intros len r E. rewrite E in Hr. lia. }
  destruct (lz4_length (token mod 16) inp2) as [[l r]|] eqn:El; [|done]. destruct Hr as (-> & Hl4 & Hr & H5).
  assert (agree dst (match_value out off) (zlen out)) as Ha0.
  { apply agree_prefix in Hpre. eapply agree_ext; [exact Hpre|]. intros i Hi. unfold match_value. by rewrite (proj2 (Z.ltb_lt _ _)) by lia. }
  assert (∀ i, 0 <= i → dst1 !! Z.to_nat i = if decide (zlen out <= i < zlen out + 4) then le_bytes 4 off !! Z.to_nat (i - zlen out) else dst !! Z.to_nat i) as Hlk
    by (intros i Hi; exact (mem_write_lookup _ _ _ _ i Ew Hi)).
  destruct (copy_match_ok oend out off (l + 4) dst1) as (b & dst2 & Ec & Hd2 & Hb & Ha); [lia|done|unfold MFLIMIT, WILDCOPYLENGTH, MINMATCH; lia|lia| | |].
  - intros i Hi. rewrite Hlk by lia. rewrite decide_False by lia. by apply Ha0.
  - intros E0 i Hi. rewrite Hlk by lia. case_decide; [|apply Ha0; lia]. rewrite E0, match_value_zero by lia.
    assert (i - zlen out = 0 ∨ i - zlen out = 1 ∨ i - zlen out = 2 ∨ i - zlen out = 3) as Hc by lia. by destruct Hc as [->|[->|[->| ->]]].
  - rewrite Ec. cbn [mbind cres_bind]. unfold LASTLITERALS in Hb. destruct b.
    + eexists (Some _), ip', dst2. split_and!; [done|congruence|lia..|]. exists l, r. split_and!; try done || lia.
      apply repeat_match_prefix; [lia|]. rewrite Z2Nat.id by lia. by apply Ha.
    + eexists None, ip', dst2. split_and!; [done|congruence|lia..|]. right. intros ?? [= <- <-]. right. lia.
Qed.

Lemma decode_loop_ok fuel a inp post out dst : src = a ++ inp ++ post → zlen a + zlen inp = iend → inp ≠ [] → 2 <= zlen inp + zlen post → (length inp < fuel)%nat →
  out `prefix_of` dst → bytes_ok out → zlen out <= oend <= zlen dst → 0 <= dst_addr → dst_addr + oend < 2 ^ 64 →
  ∃ r dst', decode_loop src iend oend src_addr dst_addr fuel (zlen a) (zlen out) dst = Ok (r, dst') ∧ zlen dst' = zlen dst ∧
    match block_decode fuel oend inp out with Some out' => r = zlen out' ∧ out' `prefix_of` dst' | None => r < 0 end.
Proof.
  revert a inp out dst. induction fuel as [|fuel IH]; intros a inp out dst Hs Hend Hne H2 Hf Hpre Hok Hl Hda Hd64; [lia|].
  destruct inp as [|token inp]; [done|]. cbn [decode_loop block_decode]; cbv zeta. pose proof (zlen_nonneg a). pose proof (zlen_nonneg inp). rewrite zlen_cons in *.
  assert (byte_ok token ∧ bytes_ok inp) as [Ht Hinp].
  { rewrite Hs in Hsrc. apply Forall_app in Hsrc as [_ Hx]. apply Forall_cons_1 in Hx as [? Hx]. by apply Forall_app in Hx as [? _]. }
  rewrite (read8_seg src a token (inp ++ post)) by done. cbn [mbind cres_bind].
  destruct (get_literal_length_ok (a ++ [token]) inp post (zlen a + 1) (zlen out) token) as (o & ip' & Eg & Hip' & Hr);
    [by rewrite Hs, <- app_assoc|by rewrite zlen_app|lia| |done|pose proof (zlen_nonneg out); lia|done|done|].
  { intros E. apply app_nil in E as [-> ->]. change (zlen []) with 0 in *. lia. }
  rewrite Eg. cbn [mbind cres_bind]. destruct o as [len|].
  2:{ exists (output_error ip'), dst. split_and!; [done..|]. destruct (lz4_length (token / 16) inp) as [[l r]|]; cbn [mbind option_bind];
      [|apply output_error_neg; lia]. replace (_ || _) with true by lia. replace (_ && _) with false by lia. apply output_error_neg; lia. }
  unfold MFLIMIT, WILDCOPYLENGTH, MINMATCH, LASTLITERALS.
  destruct (lz4_length (token / 16) inp) as [[l r]|] eqn:El; cbn [mbind option_bind].
  2:{ replace (_ || _) with true by lia. replace (negb _ || _) with true by lia. exists (output_error ip'), dst. split_and!; [done..|apply output_error_neg; lia]. }
  destruct Hr as [Hlen [[-> Hr]|[Hlt Hr]]].
  2:{ replace (_ || _) with true by lia. replace (negb _ || _) with true by lia. replace (_ || _) with true by lia. replace (_ && _) with false by lia.
      exists (output_error ip'), dst. split_and!; [done..|apply output_error_neg; lia]. }
  destruct (lz4_length_suffix _ _ _ _ El Hinp) as [p ->]. rewrite zlen_app in *. pose proof (zlen_nonneg r). pose proof (zlen_nonneg p). pose proof (zlen_nonneg out).
  pose proof (zlen_nonneg post). assert (src = (a ++ token :: p) ++ r ++ post) as Hs2 by (rewrite Hs, <- !app_assoc; cbn [app]; by rewrite <- app_assoc).
  assert (zlen (a ++ token :: p) = ip') as Hip2 by (rewrite zlen_app, zlen_cons; lia). set (a2 := a ++ token :: p) in *. rewrite <- Hip2.
  apply Forall_app in Hinp as [_ Hrok]. replace (iend - (2 + 1 + 5) <? zlen a2 + l) with (zlen r - 8 <? l) by lia.
  destruct ((oend - (8 + 4) <? zlen out + l) || (zlen r - 8 <? l)) eqn:Elast; change (8 + 4) with 12 in Elast; rewrite Elast.
  - replace (negb _ || _) with (negb ((l =? zlen r) && (zlen out + l <=? oend))) by lia. destruct ((l =? zlen r) && (zlen out + l <=? oend)) eqn:Efit; cbn [negb].
    2:{ exists (output_error (zlen a2)), dst. split_and!; [done..|apply output_error_neg; lia]. }
    unfold mem_copy. rewrite Hs2, (mem_read_seg a2 r post) by (done || lia). cbn [mbind cres_bind]. destruct Hpre as [junk ->]. rewrite zlen_app in *.
    destruct (bytes_split l junk) as (j1 & j2 & -> & Hj); [lia|]. rewrite (mem_write_seg out j1 r j2) by (done || lia). cbn [mbind cres_bind].
    rewrite swrap_small by lia. eexists _, _. split_and!; [done|rewrite !zlen_app in *; lia|rewrite zlen_app; lia|]. exists j2. by rewrite <- app_assoc.
  - destruct (copy_literals_ok a2 r post out dst l Hs2 Hpre) as (dst1 & Ec & Hd1 & Hpre1); [lia..|]. rewrite Ec. cbn [mbind cres_bind].
    destruct (bytes_split l r) as (lits & r2 & -> & Hlits); [lia|]. rewrite zlen_app in *.
    rewrite (take_app_length' lits r2), (drop_app_length' lits r2) by (unfold zlen in Hlits; lia).
    rewrite (take_app_length' lits r2) in Hpre1 by (unfold zlen in Hlits; lia). apply Forall_app in Hrok as [Hlok Hr2ok].
    replace (zlen out + l) with (zlen (out ++ lits)) in * by (rewrite zlen_app; lia). set (out1 := out ++ lits) in *.
    replace (zlen a2 + l) with (zlen (a2 ++ lits)) by (rewrite zlen_app; lia).
    replace (zlen out + zlen lits) with (zlen out1) by (subst out1; by rewrite zlen_app).
    destruct (decode_match_ok (a2 ++ lits) r2 post out1 dst1 token) as (next & ip3 & dst2 & Em & Hd2 & Hip3 & Hm);
      [by rewrite Hs2, <- !app_assoc|rewrite zlen_app; lia|lia|done|done|by apply Forall_app_2|unfold MFLIMIT, WILDCOPYLENGTH, MINMATCH; lia|done|done|].
    rewrite Em. cbn [mbind cres_bind]. destruct next as [op|].
    2:{ exists (output_error ip3), dst2. split_and!; [done|congruence|]. assert (output_error ip3 < 0) as He by (apply output_error_neg; lia).
        destruct (Z.ltb_spec (zlen out1) (le_val (take 2 r2))); [done|]. destruct Hm as [Hm|Hm]; [lia|].
        destruct (lz4_length (token mod 16) (drop 2 r2)) as [[len r3]|]; cbn [mbind option_bind]; [|done]. destruct (Hm len r3 eq_refl).
        all: replace (_ || _) with true by lia; done. }
    destruct Hm as (len & r3 & Elm & Hoff & Hfive & Hr3 & Hlen0 & -> & Hop & Hpre2). rewrite (proj2 (Z.ltb_ge _ _)), Elm by lia. cbn [mbind option_bind].
    replace (_ || _) with false by lia. assert (bytes_ok (drop 2 r2)) as Hdr by (by apply Forall_drop). destruct (lz4_length_suffix _ _ _ _ Elm Hdr) as [p3 Ep3].
    assert (r2 = take 2 r2 ++ p3 ++ r3) as Er2 by (by rewrite <- Ep3, take_drop).
    assert (zlen (take 2 r2) = 2) as Ht2 by (apply (zlen_take 2); lia). destruct (repeat_match_agree (Z.to_nat (len + 4)) (le_val (take 2 r2)) out1 Hoff) as [_ Hrl].
    assert (zlen r2 = 2 + (zlen p3 + zlen r3)) as Hzr2 by (by rewrite Er2 at 1; rewrite !zlen_app, Ht2).
    destruct (IH ((a2 ++ lits) ++ take 2 r2 ++ p3) r3 (repeat_match (Z.to_nat (len + 4)) (le_val (take 2 r2)) out1) dst2) as (rr & dst3 & E3 & Hd3 & Hres).
    + rewrite <- !app_assoc. rewrite Er2 in Hs2 at 1. by rewrite Hs2, <- !app_assoc.
    + rewrite !zlen_app, Ht2. lia.
    + by intros ->.
    + lia.
    + unfold zlen in *. cbn in Hf. rewrite !length_app in Hf. lia.
    + done.
    + apply repeat_match_ok. by apply Forall_app_2.
    + rewrite Hrl. lia.
    + done.
    + done.
    + replace ip3 with (zlen ((a2 ++ lits) ++ take 2 r2 ++ p3)) by (rewrite !zlen_app, Ht2; lia).
      replace (zlen out1 + (len + 4)) with (zlen (repeat_match (Z.to_nat (len + 4)) (le_val (take 2 r2)) out1)) by (rewrite Hrl; lia).
      rewrite E3. exists rr, dst3. split_and!; [done|congruence|done].
Qed.
End decoder.

(** ** Blocks *)

Record sequence := Seq { s_lits : bytes; s_off : Z; s_len : Z }.

Definition length_code (x : Z) : bytes :=
  if 15 <=? x then replicate (Z.to_nat ((x - 15) / 255)) 255 ++ [(x - 15) mod 255] else [].

Definition lit_token (lit : Z) : Z := Z.min lit 15 * 16.

(** The literals of a sequence with its token, and the sequence. *)
Definition enc_literals (match_code : Z) (lits : bytes) : bytes :=
  (lit_token (zlen lits) + Z.min match_code 15) :: length_code (zlen lits) ++ lits.
Definition enc_seq (s : sequence) : bytes :=
  enc_literals (s_len s - 4) (s_lits s) ++ le_bytes 2 (s_off s) ++ length_code (s_len s - 4).
Definition enc_seqs (ss : list sequence) : bytes := concat (enc_seq <$> ss).

Definition block (ss : list sequence) (last : bytes) : bytes := enc_seqs ss ++ enc_literals 0 last.

(** What a sequence appends. *)
Definition seq_step (out : bytes) (s : sequence) : bytes := repeat_match (Z.to_nat (s_len s)) (s_off s) (out ++ s_lits s).
Definition expand (ss : list sequence) (out : bytes) : bytes := foldl seq_step out ss.

(** A sequence of a block with an output of [total] bytes that starts behind [out]. *)
Record seq_ok (total : Z) (out : bytes) (s : sequence) : Prop := {
  sk_lits : bytes_ok (s_lits s);
  sk_off : 0 < s_off s < 2 ^ 16;
  sk_back : s_off s <= zlen out + zlen (s_lits s);
  sk_len : 4 <= s_len s;
  sk_room : zlen out + zlen (s_lits s) + 12 <= total;
  sk_end : zlen out + zlen (s_lits s) + s_len s + 5 <= total;
}.

Fixpoint seqs_ok (total : Z) (out : bytes) (ss : list sequence) : Prop :=
  match ss with
  | [] => True
  | s :: ss' => seq_ok total out s ∧ seqs_ok total (seq_step out s) ss'
  end.

Lemma expand_snoc ss s out : expand (ss ++ [s]) out = seq_step (expand ss out) s.
Proof. unfold expand. by rewrite foldl_app. Qed.

Lemma enc_seqs_snoc ss s : enc_seqs (ss ++ [s]) = enc_seqs ss ++ enc_seq s.
Proof. unfold enc_seqs. rewrite fmap_app, concat_app. cbn. by rewrite app_nil_r. Qed.

Lemma seqs_ok_snoc total out ss s : seqs_ok total out ss → seq_ok total (expand ss out) s → seqs_ok total out (ss ++ [s]).
Proof. revert out. induction ss as [|s0 ss IH]; intros out; cbn; [done|]. intros [H0 Hs] H. split; [done|by apply IH]. Qed.

Lemma zlen_seq_step total out s : seq_ok total out s → zlen (seq_step out s) = zlen out + zlen (s_lits s) + s_len s.
Proof.
  intros []. unfold seq_step. destruct (repeat_match_agree (Z.to_nat (s_len s)) (s_off s) (out ++ s_lits s)) as [_ ->]; rewrite zlen_app; lia.
Qed.

Lemma zlen_length_code x : 0 <= x → 255 * zlen (length_code x) <= x + 240 ∧ (x < 15 → zlen (length_code x) = 0) ∧ (15 <= x → zlen (length_code x) = (x - 15) / 255 + 1).
Proof.
  intros Hx. unfold length_code. destruct (Z.leb_spec 15 x) as [H|H]; [|change (zlen []) with 0; lia].
  rewrite zlen_app. assert (0 <= (x - 15) / 255) by (apply Z.div_pos; lia). change (zlen [_]) with 1. unfold zlen. rewrite length_replicate.
  pose proof (Z.div_mod (x - 15) 255). pose proof (Z.mod_pos_bound (x - 15) 255). lia.
Qed.

Lemma read_length_code x r : 15 <= x → read_length 15 (length_code x ++ r) = Some (x, r).
Proof.
  intros Hx. unfold length_code. rewrite (proj2 (Z.leb_le _ _)), <- app_assoc by lia. cbn [app].
  pose proof (Z.mod_pos_bound (x - 15) 255 ltac:(lia)) as Hm. assert (0 <= (x - 15) / 255) as Hq by (apply Z.div_pos; lia).
  pose proof (Z.div_mod (x - 15) 255 ltac:(lia)) as Hd. set (m := (x - 15) mod 255) in *. set (q := (x - 15) / 255) in *. clearbody m q.
  assert (∀ k y, read_length y (replicate k 255 ++ m :: r) = Some (y + 255 * Z.of_nat k + m, r)) as Hrep.
  { induction k as [|k IH]; intros y; cbn [replicate app read_length].
    - rewrite (proj2 (Z.eqb_neq m 255)) by lia. do 2 f_equal. lia.
    - rewrite IH. cbn. do 2 f_equal. lia. }
  rewrite Hrep. do 2 f_equal. lia.
Qed.

Lemma lz4_length_code x r : 0 <= x → lz4_length (Z.min x 15) (length_code x ++ r) = Some (x, r).
Proof.
  intros Hx. unfold lz4_length. destruct (Z.eqb_spec (Z.min x 15) 15).
  - apply read_length_code. lia.
  - unfold length_code. rewrite (proj2 (Z.leb_gt _ _)) by lia. cbn. do 2 f_equal. lia.
Qed.

Lemma token_high a b : 0 <= b < 16 → (a * 16 + b) / 16 = a.
Proof. intros. rewrite Z.div_add_l, Z.div_small by lia. lia. Qed.
Lemma token_low a b : 0 <= b < 16 → (a * 16 + b) mod 16 = b.
Proof. intros. rewrite Z.add_comm, Z.mod_add, Z.mod_small by lia. lia. Qed.

Lemma zlen_enc_literals m lits : zlen (enc_literals m lits) = 1 + zlen (length_code (zlen lits)) + zlen lits.
Proof. unfold enc_literals. rewrite zlen_cons, zlen_app. lia. Qed.

(** The reference decoder decodes blocks. *)
Lemma block_decode_block fuel oend ss last out : seqs_ok (zlen (expand ss out) + zlen last) out ss → (length ss < fuel)%nat →
  zlen (expand ss out) + zlen last <= oend → (ss ≠ [] → 5 <= zlen last) →
  block_decode fuel oend (block ss last) out = Some (expand ss out ++ last).
Proof.
  revert fuel out. induction ss as [|s ss IH]; intros fuel out Hok Hf Ho H5; (destruct fuel as [|fuel]; [cbn in Hf; lia|]).
  - unfold block. cbn [enc_seqs fmap list_fmap concat app expand foldl] in *. unfold enc_literals. cbn [block_decode]. pose proof (zlen_nonneg last).
    unfold lit_token. rewrite token_high, lz4_length_code by lia. cbn [mbind option_bind]. replace (_ || _) with true by lia. by replace (_ && _) with true by lia.
  - destruct Hok as [Hs Hok]. pose proof (zlen_seq_step _ _ _ Hs) as Hstep. pose proof Hs as []. specialize (H5 ltac:(done)).
    change (expand (s :: ss) out) with (expand ss (seq_step out s)) in *. set (rest := block ss last).
    assert (block (s :: ss) last = enc_seq s ++ rest) as -> by (unfold block, rest, enc_seqs; cbn; by rewrite <- app_assoc).
    pose proof (zlen_nonneg (s_lits s)). pose proof (zlen_nonneg (length_code (s_len s - 4))).
    assert (6 <= zlen rest) as Hrest.
    { subst rest. unfold block. rewrite zlen_app, zlen_enc_literals. pose proof (zlen_nonneg (enc_seqs ss)). pose proof (zlen_nonneg (length_code (zlen last))). lia. }
    specialize (IH fuel (seq_step out s) Hok ltac:(cbn in Hf; lia) Ho ltac:(done)). fold rest in IH. clearbody rest.
    unfold enc_seq, enc_literals. rewrite <- !app_assoc. cbn [app block_decode]; cbv zeta. unfold lit_token.
    rewrite token_high, token_low, <- app_assoc, lz4_length_code by lia. cbn [mbind option_bind].
    replace (_ || _) with false by (symmetry; apply orb_false_iff; rewrite !zlen_app, zlen_le_bytes; split; apply Z.ltb_ge; lia).
    rewrite take_app_length', drop_app_length' by (unfold zlen; lia). rewrite take_app_length', drop_app_length' by (by rewrite length_le_bytes).
    rewrite le_val_bytes_small by (change (256 ^ Z.of_nat 2) with (2 ^ 16); lia). rewrite (proj2 (Z.ltb_ge _ _)) by (rewrite zlen_app; lia).
    rewrite lz4_length_code by lia. cbn [mbind option_bind]. replace (_ || _) with false by (symmetry; apply orb_false_iff; rewrite zlen_app; split; apply Z.ltb_ge; lia).
    replace (s_len s - 4 + 4) with (s_len s) by lia. exact IH.
Qed.

Lemma block_decode_ok fuel oend inp out r : block_decode fuel oend inp out = Some r → bytes_ok inp → bytes_ok out → bytes_ok r.
Proof.
  revert inp out. induction fuel as [|fuel IH]; intros inp out Hd Hi Ho; [by destruct inp|]. destruct inp as [|token inp]; [done|]. cbn [block_decode] in Hd; cbv zeta in Hd.
  apply Forall_cons_1 in Hi as [_ Hi]. destruct (lz4_length (token / 16) inp) as [[lit inp1]|] eqn:El; [|done]. cbn [mbind option_bind] in Hd.
  destruct (lz4_length_suffix _ _ _ _ El Hi) as [p1 ->]. apply Forall_app in Hi as [_ Hi]. destruct (_ || _).
  - destruct (_ && _); [|done]. injection Hd as <-. by apply Forall_app_2.
  - destruct (_ <? _); [done|]. destruct (lz4_length (token mod 16) _) as [[len inp2]|] eqn:El2; [|done]. cbn [mbind option_bind] in Hd.
    destruct (lz4_length_suffix _ _ _ _ El2) as [p2 Ep2]; [by apply Forall_drop, Forall_drop|]. destruct (_ || _); [done|]. eapply IH; [exact Hd| |].
    + assert (bytes_ok (p2 ++ inp2)) as Hx by (rewrite <- Ep2; by apply Forall_drop, Forall_drop). by apply Forall_app in Hx as [_ ?].
    + apply repeat_match_ok, Forall_app_2; [done|by apply Forall_take].
Qed.

(** ** Properties of the decompressor *)

(** What [LZ4_decompress_safe] does, for an object of the source that may be longer than the input. *)
Lemma decompress_block src src_addr dst_addr n oend dst : bytes_ok src → 0 < n <= zlen src → n < 2 ^ 31 → 2 <= zlen src →
  0 < oend <= zlen dst → oend < 2 ^ 31 → 0 <= src_addr → src_addr + zlen src < 2 ^ 64 → 0 <= dst_addr → dst_addr + zlen dst < 2 ^ 64 →
  ∃ r dst', LZ4_decompress_safe src src_addr dst_addr n oend dst = Ok (r, dst') ∧ zlen dst' = zlen dst ∧
    match block_decode (S (Z.to_nat n)) oend (take (Z.to_nat n) src) [] with Some out => r = zlen out ∧ out `prefix_of` dst' | None => r < 0 end.
Proof.
  intros Hs Hn Hn31 H2 Ho Ho31 Hsa Hsa64 Hda Hda64. unfold LZ4_decompress_safe, LZ4_decompress_generic. rewrite (proj2 (Z.eqb_neq oend 0)) by lia.
  assert (zlen (take (Z.to_nat n) src) = n) as Ht by (apply zlen_take; lia).
  assert (zlen (drop (Z.to_nat n) src) = zlen src - n) as Hd by (apply zlen_drop; lia).
  apply (decode_loop_ok src n oend src_addr dst_addr Hs ltac:(lia) ltac:(lia) Hsa Hsa64 (S (Z.to_nat n)) [] (take (Z.to_nat n) src) (drop (Z.to_nat n) src) [] dst).
  - by rewrite app_nil_l, take_drop.
  - by rewrite Ht.
  - intros E. rewrite E in Ht. change (zlen []) with 0 in Ht. lia.
  - lia.
  - unfold zlen in Ht. lia.
  - by exists dst.
  - constructor.
  - change (zlen []) with 0. lia.
  - done.
  - lia.
Qed.

(** C17: decompression is the reference decoder.  For every input of at least two bytes and every output buffer,
    [LZ4_decompress_safe] reads and writes inside of the two, although it copies eight bytes at a time; it returns the
    length of the output of the block format, with this output at the start of the buffer, when the input is a block whose
    output fits, and a negative number when it is not. *)
Theorem decompress_correct (src dst : bytes) (src_addr dst_addr : Z) :
  bytes_ok src → 2 <= zlen src < 2 ^ 31 → 0 < zlen dst < 2 ^ 31 →
  0 <= src_addr → src_addr + zlen src < 2 ^ 64 → 0 <= dst_addr → dst_addr + zlen dst < 2 ^ 64 →
  ∃ r dst', LZ4_decompress_safe src src_addr dst_addr (zlen src) (zlen dst) dst = Ok (r, dst') ∧ zlen dst' = zlen dst
    ∧ match block_decode (S (length src)) (zlen dst) src [] with
      | Some out => r = zlen out ∧ out `prefix_of` dst'
      | None => r < 0
      end.
Proof.
  intros Hs Hn Hd Hsa Hsa64 Hda Hda64.
  destruct (decompress_block src src_addr dst_addr (zlen src) (zlen dst) dst) as (r & dst' & E & Hl & Hr); [done|lia..|].
  exists r, dst'. split_and!; [done..|]. replace (Z.to_nat (zlen src)) with (length src) in Hr by (unfold zlen; lia). by rewrite firstn_all in Hr.
Qed.

(** Seven literals with a match of nine bytes that overlaps with what it appends. *)
Lemma decompress_correct_witness :
  let src := [0x75; 1; 2; 3; 4; 5; 6; 7; 3; 0; 0x50; 9; 9; 9; 9; 9] in
  ∃ dst', LZ4_decompress_safe src 4096 8192 16 32 (memset 32 0) = Ok (21, dst')
    ∧ [1; 2; 3; 4; 5; 6; 7; 5; 6; 7; 5; 6; 7; 5; 6; 7; 9; 9; 9; 9; 9] `prefix_of` dst'.
Proof.
  intros src. destruct (decompress_correct src (memset 32 0) 4096 8192) as (r & dst' & E & _ & Hr); [bytes_compute|done..|].
  change (block_decode _ _ src []) with (Some [1; 2; 3; 4; 5; 6; 7; 5; 6; 7; 5; 6; 7; 5; 6; 7; 9; 9; 9; 9; 9]) in Hr.
  destruct Hr as [-> Hr]. exact (ex_intro _ dst' (conj E Hr)).
Defined.

(** An input of one byte, a token that announces a longer length, is the exception: the length is read behind
    the end of the input. *)
Lemma decompress_overread : LZ4_decompress_safe [0xf0] 4096 8192 1 32 (memset 32 0) = Undef OutOfBounds.
Proof. done. Qed.
