(* ===== verification/Lz4Compress.v ===== *)
(** * The LZ4 compressor

    Proofs about [LZ4_compress_fast]: what it writes is a block of the format whose output is the
    source, and [LZ4_decompress_safe] gives the source back.  The choice of the matches, which depends on the hash
    table, does not matter for this: whatever position the table holds, four equal bytes are compared. *)

From Stdlib Require Import ZArith Lia.
From stdpp Require Import base numbers list option gmap.
From S2P Require Import Prelude Words Lz4 Lz4Block.
Open Scope Z_scope.

(** ** Writing *)

Lemma prefix_write l x m : l `prefix_of` m → zlen l + zlen x <= zlen m →
  ∃ m', mem_write (zlen l) x m = Ok m' ∧ zlen m' = zlen m ∧ (l ++ x) `prefix_of` m'.
Proof.
  intros [k ->] Hl. rewrite zlen_app in *. destruct (bytes_split (zlen x) k) as (k1 & k2 & -> & Hk); [pose proof (zlen_nonneg x); lia|].
  rewrite (mem_write_seg l k1 x k2) by done. eexists. split_and!; [done|rewrite !zlen_app; lia|]. exists k2. by rewrite <- app_assoc.
Qed.

Lemma prefix_write8 l v m p : l `prefix_of` m → p = zlen l → p + 1 <= zlen m →
  ∃ m', write8 p v m = Ok m' ∧ zlen m' = zlen m ∧ (l ++ [v mod 256]) `prefix_of` m'.
Proof. intros Hp -> Hl. by apply (prefix_write l (le_bytes 1 v)). Qed.

(** Of what was written too far only the beginning counts. *)
Lemma prefix_app_l {A} (a b m : list A) : (a ++ b) `prefix_of` m → a `prefix_of` m.
Proof. intros [k ->]. exists (b ++ k). by rewrite app_assoc. Qed.

Lemma add_token_ok a t r m v : (a ++ t :: r) `prefix_of` m → 0 <= t → 0 <= v → t + v < 256 →
  ∃ m', add_token (zlen a) v m = Ok m' ∧ zlen m' = zlen m ∧ (a ++ (t + v) :: r) `prefix_of` m'.
Proof.
  intros [k ->] Ht Hv Hb. unfold add_token. rewrite (read8_seg _ a t (r ++ k)) by (by rewrite <- app_assoc || done). cbn [mbind cres_bind].
  unfold write8. rewrite <- app_assoc. cbn [app]. change (t :: r ++ k) with ([t] ++ (r ++ k)). rewrite (mem_write_seg a [t] (le_bytes 1 (t + v)) (r ++ k)) by done.
  eexists. split_and!; [done|by rewrite !zlen_app|]. exists k. rewrite <- app_assoc. cbn. by rewrite Z.mod_small by lia.
Qed.

(** The two loops that write a length. *)
Lemma put_length_ok fuel l len m op : l `prefix_of` m → op = zlen l → 0 <= len → len / 255 <= Z.of_nat fuel → op + len / 255 + 1 <= zlen m →
  ∃ m', put_length fuel op len m = Ok (op + len / 255 + 1, m') ∧ zlen m' = zlen m
        ∧ (l ++ replicate (Z.to_nat (len / 255)) 255 ++ [len mod 255]) `prefix_of` m'.
Proof.
  revert l len m op. induction fuel as [|fuel IH]; intros l len m op Hp Hop Hlen Hf Hm; cbn [put_length]; destruct (Z.leb_spec 255 len) as [H|H].
  - assert (1 <= len / 255) by (apply Z.div_le_lower_bound; lia). lia.
  - rewrite !Z.div_small, !Z.mod_small in * by lia. destruct (prefix_write8 l len m op) as (m1 & E1 & Hm1 & Hp1); [done|done|lia|].
    rewrite E1. cbn [mbind cres_bind]. exists m1. rewrite Z.add_0_r. split_and!; [done..|]. cbn. by rewrite Z.mod_small in Hp1 by lia.
  - assert (len / 255 = (len - 255) / 255 + 1) as Hq. { rewrite <- (Z.div_add _ 1) by lia. f_equal. lia. }
    assert (0 <= (len - 255) / 255) by (apply Z.div_pos; lia).
    destruct (prefix_write8 l 255 m op) as (m1 & E1 & Hm1 & Hp1); [done|done|lia|]. rewrite E1. cbn [mbind cres_bind].
    destruct (IH (l ++ [255]) (len - 255) m1 (op + 1)) as (m2 & E2 & Hm2 & Hp2); [done|rewrite zlen_app; change (zlen [255]) with 1; lia|lia..|].
    exists m2. rewrite E2. split_and!; [do 2 f_equal; lia|congruence|]. rewrite Hq. replace (Z.to_nat ((len - 255) / 255 + 1)) with (S (Z.to_nat ((len - 255) / 255))) by lia.
    cbn [replicate app]. rewrite <- app_assoc in Hp2. replace (len mod 255) with ((len - 255) mod 255); [done|].
    replace len with (len - 255 + 1 * 255) at 2 by lia. by rewrite Z.mod_add by lia.
  - rewrite !Z.div_small, !Z.mod_small in * by lia. destruct (prefix_write8 l len m op) as (m1 & E1 & Hm1 & Hp1); [done|done|lia|].
    rewrite E1. cbn [mbind cres_bind]. exists m1. rewrite Z.add_0_r. split_and!; [done..|]. cbn. by rewrite Z.mod_small in Hp1 by lia.
Qed.

Lemma replicate_snoc_4 k : replicate (k + 4) 255 = replicate k 255 ++ le_bytes 4 0xFFFFFFFF.
Proof. by rewrite replicate_add. Qed.

Lemma put_match_words_ok fuel l k mc m op : (l ++ replicate (k + 4) 255) `prefix_of` m → op = zlen l + Z.of_nat k → 0 <= mc → mc / 1020 <= Z.of_nat fuel →
  op + 4 * (mc / 1020) + 4 <= zlen m →
  ∃ m', put_match_words fuel op mc m = Ok (op + 4 * (mc / 1020), mc mod 1020, m') ∧ zlen m' = zlen m
        ∧ (l ++ replicate (k + Z.to_nat (4 * (mc / 1020)) + 4) 255) `prefix_of` m'.
Proof.
  revert k mc m op. induction fuel as [|fuel IH]; intros k mc m op Hp Hop Hmc Hf Hm; cbn [put_match_words]; change (4 * 255) with 1020; destruct (Z.leb_spec 1020 mc) as [H|H].
  - assert (1 <= mc / 1020) by (apply Z.div_le_lower_bound; lia). lia.
  - rewrite !Z.div_small, !Z.mod_small in * by lia. exists m. rewrite Z.add_0_r, Nat.add_0_r. done.
  - assert (mc / 1020 = (mc - 1020) / 1020 + 1) as Hq. { rewrite <- (Z.div_add _ 1) by lia. f_equal. lia. }
    assert (0 <= (mc - 1020) / 1020) by (apply Z.div_pos; lia).
    assert (op + 4 = zlen (l ++ replicate (k + 4) 255)) as Hop4 by (rewrite zlen_app; unfold zlen; rewrite length_replicate; unfold zlen in Hop; lia).
    destruct (prefix_write (l ++ replicate (k + 4) 255) (le_bytes 4 0xFFFFFFFF) m) as (m1 & E1 & Hm1 & Hp1); [done|rewrite zlen_le_bytes; lia|].
    unfold LZ4_write32. rewrite Hop4, E1, <- Hop4. cbn [mbind cres_bind]. rewrite <- app_assoc, <- replicate_snoc_4 in Hp1.
    destruct (IH (k + 4)%nat (mc - 1020) m1 (op + 4)) as (m2 & E2 & Hm2 & Hp2); [done|lia..|].
    exists m2. rewrite E2. split_and!; [|congruence|].
    + replace (mc mod 1020) with ((mc - 1020) mod 1020) by (replace mc with (mc - 1020 + 1 * 1020) at 2 by lia; by rewrite Z.mod_add by lia). do 3 f_equal. lia.
    + rewrite Hq. by replace (k + Z.to_nat (4 * ((mc - 1020) / 1020 + 1)) + 4)%nat with (k + 4 + Z.to_nat (4 * ((mc - 1020) / 1020)) + 4)%nat by lia.
  - rewrite !Z.div_small, !Z.mod_small in * by lia. exists m. rewrite Z.add_0_r, Nat.add_0_r. done.
Qed.

(** ** Equal bytes *)

Section source.
Context (src : bytes) (Hsrc : bytes_ok src).

(** The [n] bytes at [p] and at [q] are equal. *)
Definition same (p q n : Z) : Prop := ∀ i, 0 <= i < n → src !! Z.to_nat (p + i) = src !! Z.to_nat (q + i).

Lemma same_app p q n k : same p q n → same (p + n) (q + n) k → 0 <= n → same p q (n + k).
Proof.
  intros Hn Hk H0 i Hi. destruct (decide (i < n)); [apply Hn; lia|]. specialize (Hk (i - n) ltac:(lia)).
  replace (p + n + (i - n)) with (p + i) in Hk by lia. by replace (q + n + (i - n)) with (q + i) in Hk by lia.
Qed.

Lemma same_le p q n k : same p q n → k <= n → same p q k.
Proof. intros Hn Hk i Hi. apply Hn. lia. Qed.

Lemma load_le_ok n p : 0 <= p → p + Z.of_nat n <= zlen src →
  ∃ x, load_le n src p = Ok (le_val x) ∧ bytes_ok x ∧ zlen x = Z.of_nat n ∧ ∀ i, 0 <= i < Z.of_nat n → x !! Z.to_nat i = src !! Z.to_nat (p + i).
Proof.
  intros Hp Hl. unfold load_le. destruct (mem_read p (Z.of_nat n) src) as [x|u] eqn:E; [|rewrite mem_read_ok in E by lia; done].
  exists x. split_and!; [done|by eapply mem_read_bytes_ok|by eapply mem_read_zlen|]. intros i Hi. by apply (mem_read_lookup _ _ _ _ _ E).
Qed.

(** Words whose low [8 * k] bits are equal. *)
Lemma load_le_same n p q k a b : load_le n src p = Ok a → load_le n src q = Ok b → 0 <= p → 0 <= q → p + Z.of_nat n <= zlen src → q + Z.of_nat n <= zlen src →
  0 <= k <= Z.of_nat n → a mod 2 ^ (8 * k) = b mod 2 ^ (8 * k) → same p q k.
Proof.
  intros Ea Eb Hp Hq Hpl Hql Hk Hab. destruct (load_le_ok n p Hp Hpl) as (x & Ex & Hx & Hxl & Hxs). destruct (load_le_ok n q Hq Hql) as (y & Ey & Hy & Hyl & Hys).
  rewrite Ea in Ex. rewrite Eb in Ey. injection Ex as ->. injection Ey as ->.
  assert (∀ z, bytes_ok z → zlen z = Z.of_nat n → le_bytes (Z.to_nat k) (le_val z mod 2 ^ (8 * k)) = take (Z.to_nat k) z) as Hlow.
  { intros z Hz Hzl. rewrite <- (take_drop (Z.to_nat k) z) at 1. rewrite le_val_app. rewrite zlen_take by lia.
    replace (2 ^ (8 * k)) with (256 ^ k) by (rewrite Z.pow_mul_r by lia; done). rewrite Z.mul_comm, Z.mod_add by (apply Z.pow_nonzero; lia).
    assert (bytes_ok (take (Z.to_nat k) z)) as Ht by (by apply Forall_take). pose proof (le_val_bound _ Ht) as Hb. rewrite zlen_take in Hb by lia.
    rewrite Z.mod_small by done. rewrite <- (le_bytes_val _ Ht) at 2. f_equal. rewrite length_take. unfold zlen in Hzl. lia. }
  pose proof (Hlow x Hx Hxl) as H1. rewrite Hab, (Hlow y Hy Hyl) in H1. intros i Hi. rewrite <- Hxs, <- Hys by lia.
  rewrite <- (lookup_take_lt x (Z.to_nat k)), <- (lookup_take_lt y (Z.to_nat k)) by lia. by rewrite H1.
Qed.

Lemma load_le_eq n p q a : load_le n src p = Ok a → load_le n src q = Ok a → 0 <= p → 0 <= q → p + Z.of_nat n <= zlen src → q + Z.of_nat n <= zlen src →
  same p q (Z.of_nat n).
Proof. intros Ea Eb Hp Hq Hpl Hql. by eapply load_le_same; [exact Ea|exact Eb|done..|lia|]. Qed.

Lemma load_le_total n p : 0 <= p → p + Z.of_nat n <= zlen src → ∃ a, load_le n src p = Ok a ∧ 0 <= a < 256 ^ Z.of_nat n.
Proof. intros Hp Hl. destruct (load_le_ok n p Hp Hl) as (x & E & Hx & Hxl & _). exists (le_val x). split; [done|]. rewrite <- Hxl. by apply le_val_bound. Qed.

Lemma same_load_le n p q k a b : load_le n src p = Ok a → load_le n src q = Ok b → 0 <= p → 0 <= q → p + Z.of_nat n <= zlen src → q + Z.of_nat n <= zlen src →
  0 <= k <= Z.of_nat n → same p q k → a mod 2 ^ (8 * k) = b mod 2 ^ (8 * k).
Proof.
  intros Ea Eb Hp Hq Hpl Hql Hk Hs. destruct (load_le_ok n p Hp Hpl) as (x & Ex & Hx & Hxl & Hxs). destruct (load_le_ok n q Hq Hql) as (y & Ey & Hy & Hyl & Hys).
  rewrite Ea in Ex. rewrite Eb in Ey. injection Ex as ->. injection Ey as ->. replace (2 ^ (8 * k)) with (256 ^ k) by (rewrite Z.pow_mul_r by lia; done).
  assert (take (Z.to_nat k) x = take (Z.to_nat k) y) as Exy.
  { apply list_eq. intros i. destruct (decide (i < Z.to_nat k)%nat) as [Hi|Hi]; [|by rewrite !lookup_take_ge by lia].
    rewrite !lookup_take_lt by done. specialize (Hxs (Z.of_nat i) ltac:(lia)). specialize (Hys (Z.of_nat i) ltac:(lia)). rewrite Nat2Z.id in Hxs, Hys. rewrite Hxs, Hys. apply Hs. lia. }
  rewrite <- (take_drop (Z.to_nat k) x), <- (take_drop (Z.to_nat k) y), !le_val_app, Exy. rewrite !zlen_take by lia.
  by rewrite !(Z.mul_comm (256 ^ k)), !Z.mod_add by (apply Z.pow_nonzero; lia).
Qed.

(** ** Counting *)

Lemma ctz_loop_ok fuel z n : 0 <= n → n <= ctz_loop fuel z n <= n + Z.of_nat fuel ∧ (∀ i, n <= i < ctz_loop fuel z n → Z.testbit z i = false)
  ∧ (ctz_loop fuel z n < n + Z.of_nat fuel → Z.testbit z (ctz_loop fuel z n) = true).
Proof.
  revert n. induction fuel as [|fuel IH]; intros n Hn; cbn [ctz_loop]; [split_and!; intros; lia|].
  destruct (Z.testbit z n) eqn:E; [split_and!; intros; try lia; done|]. destruct (IH (n + 1) ltac:(lia)) as (H1 & H2 & H3). split_and!; [lia..| |intros; apply H3; lia].
  intros i Hi. destruct (decide (i = n)) as [->|]; [done|]. apply H2. lia.
Qed.

Lemma NbCommonBytes_ok a b : a ≠ b → 0 <= a < 2 ^ 64 → 0 <= b < 2 ^ 64 → let k := LZ4_NbCommonBytes (Z.lxor a b) in
  0 <= k < 8 ∧ a mod 2 ^ (8 * k) = b mod 2 ^ (8 * k) ∧ a mod 2 ^ (8 * (k + 1)) ≠ b mod 2 ^ (8 * (k + 1)).
Proof.
  intros Hne Ha Hb. unfold LZ4_NbCommonBytes. destruct (ctz_loop_ok 64 (Z.lxor a b) 0 ltac:(lia)) as (H1 & H2 & H3). set (c := ctz_loop 64 (Z.lxor a b) 0) in *.
  assert (c < 64) as Hc.
  { destruct (decide (c < 64)); [done|]. destruct Hne. apply Z.lxor_eq, Z.bits_inj'. intros i Hi. rewrite Z.bits_0. destruct (decide (i < 64)); [apply H2; lia|].
    apply (testbit_high 64); [apply word_ok_lxor; unfold word_ok; lia|lia..]. }
  specialize (H3 ltac:(lia)). rewrite shiftr_div by lia. change (2 ^ 3) with 8. pose proof (Z.div_mod c 8 ltac:(lia)). pose proof (Z.mod_pos_bound c 8 ltac:(lia)). cbv zeta. split_and!; [lia..| |].
  - apply Z.bits_inj'. intros i Hi. destruct (decide (i < 8 * (c / 8))) as [Hlt|Hge].
    + rewrite !Z.mod_pow2_bits_low by lia. specialize (H2 i ltac:(lia)). rewrite Z.lxor_spec in H2. by apply xorb_eq.
    + rewrite !Z.mod_pow2_bits_high by lia. done.
  - intros E. rewrite Z.lxor_spec in H3. rewrite <- (Z.mod_pow2_bits_low a (8 * (c / 8 + 1)) c), <- (Z.mod_pow2_bits_low b (8 * (c / 8 + 1)) c), E, xorb_nilpotent in H3 by lia. done.
Qed.

(** The pointers move on by the same number of equal bytes. *)
Definition counted (pIn pMatch pInLimit : Z) (q : Z * Z) : Prop :=
  ∃ n, q = (pIn + n, pMatch + n) ∧ 0 <= n ∧ pIn + n <= pInLimit ∧ same pMatch pIn n.

(** Less than [k] bytes are left, or [k] bytes differ. *)
Definition stops (k pInLimit : Z) (q : Z * Z) : Prop := pInLimit - q.1 < k ∨ ¬ same q.2 q.1 k.

Lemma counted_start pIn pMatch pInLimit : pIn <= pInLimit → counted pIn pMatch pInLimit (pIn, pMatch).
Proof. intros H. exists 0. split_and!; [f_equal; lia|lia..|]. intros i. lia. Qed.

Lemma count_words_ok fuel pIn pMatch pInLimit : 0 <= pMatch <= pIn → pIn <= pInLimit <= zlen src → pInLimit - pIn <= Z.of_nat fuel →
  ∃ p m d, count_words src fuel pIn pMatch pInLimit = Ok (p, m, d) ∧ let q := (p, if d : bool then p - pIn + pMatch else m) in
    counted pIn pMatch pInLimit q ∧ stops (if d then 1 else 8) pInLimit q.
Proof.
  revert pIn pMatch. induction fuel as [|fuel IH]; intros pIn pMatch Hm Hi Hf; cbn [count_words]; unfold STEPSIZE.
  { rewrite (proj2 (Z.ltb_ge _ _)) by lia. eexists _, _, false. split; [done|]. split; [apply counted_start; lia|]. left. cbn. lia. }
  destruct (Z.ltb_spec pIn (pInLimit - (8 - 1))) as [H8|H8].
  2:{ eexists _, _, false. split; [done|]. split; [apply counted_start; lia|]. left. cbn. lia. }
  unfold LZ4_read_ARCH. destruct (load_le_total 8 pMatch) as (a & Ea & Ha); [lia..|]. destruct (load_le_total 8 pIn) as (b & Eb & Hb); [lia..|].
  rewrite Ea, Eb. cbn [mbind cres_bind]. destruct (Z.eqb_spec (Z.lxor a b) 0) as [E0|E0].
  - apply Z.lxor_eq in E0 as <-. assert (same pMatch pIn 8) as Hs by (apply (load_le_eq 8 pMatch pIn a); [done|done|lia..]).
    destruct (IH (pIn + 8) (pMatch + 8)) as (p & m & d & E & (n & Eq & Hn & Hl & Hsn) & Hst); [lia..|]. rewrite E. exists p, m, d. split; [done|]. injection Eq as -> Eq. split.
    + exists (8 + n). split_and!; [f_equal; [lia|destruct d; lia]|lia..|]. by apply same_app.
    + destruct d; [|done]. by replace (pIn + 8 + n - pIn + pMatch) with (pIn + 8 + n - (pIn + 8) + (pMatch + 8)) by lia.
  - assert (a ≠ b) as Hne by (intros ->; by rewrite Z.lxor_nilpotent in E0). change (256 ^ Z.of_nat 8) with (2 ^ 64) in Ha, Hb.
    destruct (NbCommonBytes_ok a b Hne Ha Hb) as (Hk & Hab & Hab'). set (k := LZ4_NbCommonBytes (Z.lxor a b)) in *. eexists _, _, true. split; [done|].
    replace (pIn + k - pIn + pMatch) with (pMatch + k) by lia. assert (same pMatch pIn k) as Hs by (by apply (load_le_same 8 pMatch pIn k a b); [| |lia..|]).
    split; [by exists k; split_and!; [|lia..|]|]. right. intros Hs1. destruct Hab'. apply (same_load_le 8 pMatch pIn (k + 1) a b); [done|done|lia..|]. by apply same_app; [| |lia].
Qed.

Lemma count_tail_ok n p m pInLimit pIn pMatch : counted pIn pMatch pInLimit (p, m) → stops (2 * Z.of_nat n) pInLimit (p, m) → 0 <= pMatch <= pIn → pInLimit <= zlen src → (0 < n)%nat →
  ∃ q, count_tail src (load_le n) (Z.of_nat n) (p, m) pInLimit = Ok q ∧ counted pIn pMatch pInLimit q ∧ stops (Z.of_nat n) pInLimit q.
Proof.
  intros (k & [= -> ->] & Hk & Hl & Hs) Hst Hm Hlim Hn. unfold count_tail, stops in *. cbn [fst snd] in Hst. destruct (Z.ltb_spec (pIn + k) (pInLimit - (Z.of_nat n - 1))) as [H|H].
  2:{ eexists. split; [done|]. split; [by exists k|]. left. cbn. lia. }
  destruct (load_le_total n (pMatch + k)) as (a & Ea & Ha); [lia..|]. destruct (load_le_total n (pIn + k)) as (b & Eb & Hb); [lia..|].
  rewrite Ea, Eb. cbn [mbind cres_bind]. eexists. split; [done|]. destruct (Z.eqb_spec a b) as [->|Hne].
  - assert (same (pMatch + k) (pIn + k) (Z.of_nat n)) as Hsn by (by apply (load_le_eq n _ _ b); [| |lia..]). split.
    + exists (k + Z.of_nat n). split_and!; [f_equal; lia|lia..|]. by apply same_app.
    + cbn [fst snd]. destruct Hst as [Hst|Hst]; [left; lia|right]. intros Hs2. apply Hst. replace (2 * Z.of_nat n) with (Z.of_nat n + Z.of_nat n) by lia. by apply same_app; [| |lia].
  - split; [by exists k|]. right. cbn [fst snd]. intros Hs2. destruct Hne. assert (256 ^ Z.of_nat n = 2 ^ (8 * Z.of_nat n)) as Ep by (rewrite Z.pow_mul_r by lia; done).
    rewrite <- (Z.mod_small a (256 ^ Z.of_nat n)), <- (Z.mod_small b (256 ^ Z.of_nat n)), Ep by done. by apply (same_load_le n (pMatch + k) (pIn + k)); [| |lia..|].
Qed.

(** [LZ4_count] is the number of equal bytes before the first difference or the limit. *)
Lemma count_ok pIn pMatch pInLimit : 0 <= pMatch <= pIn → pIn <= pInLimit <= zlen src →
  ∃ n, LZ4_count src pIn pMatch pInLimit = Ok n ∧ 0 <= n ∧ pIn + n <= pInLimit ∧ same pMatch pIn n ∧ ∀ k, pIn + k <= pInLimit → same pMatch pIn k → k <= n.
Proof.
  intros Hm Hi. assert (∀ q, counted pIn pMatch pInLimit q → stops 1 pInLimit q → 0 <= q.1 - pIn ∧ pIn + (q.1 - pIn) <= pInLimit ∧ same pMatch pIn (q.1 - pIn)
    ∧ ∀ k, pIn + k <= pInLimit → same pMatch pIn k → k <= q.1 - pIn) as Hend.
  { intros q (n & -> & Hn & Hl & Hs) Hst. unfold stops in Hst. cbn [fst snd] in *. replace (pIn + n - pIn) with n by lia. split_and!; [done..|]. intros k Hk Hsk.
    destruct (decide (k <= n)); [done|]. destruct Hst as [Hst|Hst]; [lia|]. destruct Hst. intros i Hii. specialize (Hsk (n + i) ltac:(lia)). by rewrite !Z.add_assoc in Hsk. }
  unfold LZ4_count. destruct (count_words_ok (Z.to_nat (pInLimit - pIn)) pIn pMatch pInLimit Hm Hi ltac:(lia)) as (p & m & d & E & Hc & Hst).
  rewrite E. cbn [mbind cres_bind]. destruct d.
  - destruct (Hend _ Hc Hst) as (H1 & H2 & H3 & H4). by exists (p - pIn).
  - destruct (count_tail_ok 4 _ _ _ _ _ Hc Hst Hm ltac:(lia) ltac:(lia)) as ([p4 m4] & E4 & H4 & S4). change (Z.of_nat 4) with 4 in E4. unfold LZ4_read32. rewrite E4. cbn [mbind cres_bind].
    destruct (count_tail_ok 2 _ _ _ _ _ H4 S4 Hm ltac:(lia) ltac:(lia)) as ([p2 m2] & E2 & H2 & S2). change (Z.of_nat 2) with 2 in E2. unfold LZ4_read16. rewrite E2. cbn [mbind cres_bind].
    destruct (count_tail_ok 1 _ _ _ _ _ H2 S2 Hm ltac:(lia) ltac:(lia)) as (q & E1 & H1 & S1). change (Z.of_nat 1) with 1 in E1. unfold read8. rewrite E1. cbn [mbind cres_bind].
    destruct (Hend _ H1 S1) as (Hn & Hl & Hs & Hmax). by exists (q.1 - pIn).
Qed.

(** Equal bytes are a match. *)
Lemma same_match m ip len : 0 <= m < ip → 0 <= len → ip + len <= zlen src → same m ip len →
  repeat_match (Z.to_nat len) (ip - m) (take (Z.to_nat ip) src) = take (Z.to_nat (ip + len)) src.
Proof.
  intros Hm Hlen Hl Hs. set (out := take (Z.to_nat ip) src). assert (zlen out = ip) as Ho by (apply zlen_take; lia).
  assert (∀ k, (Z.of_nat k <= len) → agree src (match_value out (ip - m)) (ip + Z.of_nat k)) as Ha.
  { induction k as [|k IH]; intros Hk.
    - rewrite Z.add_0_r. intros i Hi. rewrite <- (match_value_self out (ip - m)) by lia. subst out. by rewrite lookup_take_lt by lia.
    - intros i Hi. destruct (decide (i < ip + Z.of_nat k)); [apply IH; lia|]. specialize (Hs (i - ip) ltac:(lia)).
      replace (ip + (i - ip)) with i in Hs by lia. rewrite <- Hs, IH by lia. f_equal. rewrite <- (match_value_shift out (ip - m) 1 i) by lia. f_equal. lia. }
  assert (repeat_match (Z.to_nat len) (ip - m) out `prefix_of` src) as [k Ek].
  { apply repeat_match_prefix; [lia|]. rewrite Ho. apply Ha. lia. }
  destruct (repeat_match_agree (Z.to_nat len) (ip - m) out ltac:(lia)) as [_ Hz]. set (r := repeat_match _ _ _) in *. clearbody r.
  rewrite Ek. symmetry. apply take_app_length'. unfold zlen in *. lia.
Qed.


(** ** The hash table *)

Context (inputSize : Z) (Hsize : zlen src = inputSize) (Hmax : inputSize <= 0x7E000000).
Context (tableType : tableType_t) (Htype : tableType = byU16 → inputSize < LZ4_64Klimit).

(** All positions in the table are before [b]. *)
Definition table_ok (b : Z) (t : list Z) : Prop := zlen t = 2 ^ hash_log tableType ∧ Forall (λ e, 0 <= e < b) t.

Lemma table_ok_mono b b' t : table_ok b t → b <= b' → table_ok b' t.
Proof. intros [Hl Ht] Hb. split; [done|]. eapply Forall_impl; [exact Ht|]. cbn. lia. Qed.

Lemma hash_ok h x k : 0 <= x < 2 ^ h → 0 <= k <= h → 0 <= Z.shiftr x (h - k) < 2 ^ k.
Proof.
  intros Hx Hk. rewrite shiftr_div by lia. split; [apply Z.div_pos; [lia|apply Z.pow_pos_nonneg; lia]|].
  apply Z.div_lt_upper_bound; [apply Z.pow_pos_nonneg; lia|]. rewrite <- Z.pow_add_r by lia. replace (h - k + k) with h by lia. lia.
Qed.

Lemma hashPosition_ok p : 0 <= p → p + 8 <= inputSize → ∃ h, LZ4_hashPosition src tableType p = Ok h ∧ 0 <= h < 2 ^ hash_log tableType.
Proof.
  intros Hp Hl. unfold LZ4_hashPosition, LZ4_read_ARCH, LZ4_read32. destruct tableType.
  - destruct (load_le_total 8 p) as (a & -> & _); [lia..|]. eexists. split; [done|]. unfold LZ4_hash5.
    pose proof (wrap_range 64 (wshl 64 a 24 * 889523592379) ltac:(lia)) as Hw. unfold word_ok in Hw. fold (wmul 64 (wshl 64 a 24) 889523592379) in Hw.
    pose proof (hash_ok 64 _ (hash_log byU32) Hw ltac:(change (hash_log byU32) with 12; lia)) as Hh. rewrite wrap_small; [done|]. unfold word_ok. change (2 ^ hash_log byU32) with 4096 in Hh. lia.
  - destruct (load_le_total 4 p) as (a & -> & _); [lia..|]. eexists. split; [done|]. unfold LZ4_hash4.
    pose proof (wrap_range 32 (a * 2654435761) ltac:(lia)) as Hw. unfold word_ok in Hw. fold (wmul 32 a 2654435761) in Hw. change (MINMATCH * 8) with 32.
    apply (hash_ok 32 _ (hash_log byU16) Hw). change (hash_log byU16) with 13. lia.
Qed.

Lemma get_position_ok h b t : table_ok b t → 0 <= h < 2 ^ hash_log tableType → ∃ m, LZ4_getPositionOnHash h t = Ok m ∧ 0 <= m < b.
Proof.
  intros [Hl Ht] Hh. unfold LZ4_getPositionOnHash. replace (_ && _) with true by lia. eexists. split; [done|].
  destruct (lookup_lt_is_Some_2 t (Z.to_nat h)) as [x Hx]; [unfold zlen in Hl; lia|]. rewrite (nth_lookup_Some _ _ _ _ Hx). exact (Forall_lookup_1 _ _ _ _ Ht Hx).
Qed.

Lemma put_position_ok p h b t : table_ok b t → 0 <= h < 2 ^ hash_log tableType → 0 <= p → p + MFLIMIT <= inputSize → b <= p + 1 →
  ∃ t', LZ4_putPositionOnHash tableType p h t = Ok t' ∧ table_ok (p + 1) t'.
Proof.
  unfold MFLIMIT, WILDCOPYLENGTH, MINMATCH. intros Ht Hh Hp Hpl Hb. destruct (table_ok_mono _ (p + 1) _ Ht Hb) as [Hl Ht']. unfold LZ4_putPositionOnHash. replace (_ && _) with true by lia. eexists. split; [done|].
  split; [unfold zlen; by rewrite length_insert|]. apply Forall_insert; [done|]. rewrite wrap_small; [lia|]. unfold word_ok.
  destruct tableType; [change (entry_width byU32) with 32; lia|]. specialize (Htype eq_refl). unfold LZ4_64Klimit, MFLIMIT, WILDCOPYLENGTH, MINMATCH in Htype.
  change (entry_width byU16) with 16. lia.
Qed.

(** ** The search *)

(** A match found at [ip]. *)
Record found (ip m : Z) : Prop := {
  fd_m : 0 <= m < ip;
  fd_ip : ip + MFLIMIT <= inputSize;
  fd_far : ip - m < 2 ^ 16;
  fd_same : same m ip 4;
}.

Lemma find_match_ok fuel ip step nb h t : table_ok ip t → 0 < ip <= inputSize → 0 <= h < 2 ^ hash_log tableType → 1 <= step → 64 <= nb → nb + Z.of_nat fuel < 2 ^ 32 →
  inputSize - ip < Z.of_nat fuel →
  ∃ f, find_match src inputSize tableType fuel ip step nb h t = Ok f ∧
    match f with None => True | Some (ip', m, t') => ip <= ip' ∧ found ip' m ∧ table_ok (ip' + 1) t' end.
Proof.
  revert ip step nb h t. induction fuel as [|fuel IH]; intros ip step nb h t Ht Hip Hh Hs Hnb Hw Hf; [lia|]. cbn [find_match]; cbv zeta.
  unfold mflimit, iend, MFLIMIT, WILDCOPYLENGTH, MINMATCH, LZ4_skipTrigger.
  destruct (Z.ltb_spec (inputSize - (8 + 4)) (ip + step)) as [Hend|Hend]; [by exists None|].
  destruct (get_position_ok h ip t Ht Hh) as (m & Em & Hm). rewrite Em. cbn [mbind cres_bind].
  destruct (hashPosition_ok (ip + step)) as (h' & Eh & Hh'); [lia..|]. rewrite Eh. cbn [mbind cres_bind].
  destruct (put_position_ok ip h ip t Ht Hh) as (t' & Et & Ht'); [lia|unfold MFLIMIT, WILDCOPYLENGTH, MINMATCH; lia|lia|]. rewrite Et. cbn [mbind cres_bind].
  assert (1 <= Z.shiftr nb 6) as Hstep by (rewrite shiftr_div by lia; apply Z.div_le_lower_bound; lia).
  assert (wadd 32 nb 1 = nb + 1) as Hwa by (apply wadd_small; unfold word_ok; lia). rewrite Hwa.
  assert (∃ f, find_match src inputSize tableType fuel (ip + step) (Z.shiftr nb 6) (nb + 1) h' t' = Ok f ∧
    match f with None => True | Some (ip', m, t') => ip <= ip' ∧ found ip' m ∧ table_ok (ip' + 1) t' end) as Hnext.
  { destruct (IH (ip + step) (Z.shiftr nb 6) (nb + 1) h' t') as (f & Ef & Hfd); [eapply table_ok_mono; [done|lia]|lia|done|lia..|].
    exists f. split; [done|]. destruct f as [[[ip' m'] t'']|]; [|done]. split; [lia|apply Hfd]. }
  destruct (negb (bool_decide (tableType = byU16)) && (m + MAX_DISTANCE <? ip)) eqn:Efar; [done|].
  unfold LZ4_read32. destruct (load_le_total 4 m) as (a & Ea & _); [lia..|]. destruct (load_le_total 4 ip) as (b & Eb & _); [lia..|]. rewrite Ea, Eb. cbn [mbind cres_bind].
  destruct (Z.eqb_spec a b) as [->|Hne]; cbn [negb]; [|done]. eexists. split; [done|]. split_and!; [lia| |done].
  split; [done|unfold MFLIMIT, WILDCOPYLENGTH, MINMATCH; lia| |by apply (load_le_eq 4 m ip b); [| |lia..]].
  unfold MAX_DISTANCE in Efar. change (Z.shiftl 1 16) with 65536 in Efar. change (2 ^ 16) with 65536.
  case_bool_decide as Htt; [|lia]. specialize (Htype Htt). unfold LZ4_64Klimit, MFLIMIT, WILDCOPYLENGTH, MINMATCH in Htype. lia.
Qed.

Lemma catch_up_ok fuel anchor ip m n : found ip m → same m ip n → 4 <= n → anchor <= ip → 0 <= anchor → ip <= Z.of_nat fuel →
  ∃ ip' m', catch_up src fuel anchor ip m = Ok (ip', m') ∧ found ip' m' ∧ anchor <= ip' <= ip ∧ same m' ip' (n + (ip - ip')).
Proof.
  revert ip m n. induction fuel as [|fuel IH]; intros ip m n Hfd Hsame Hn Ha H0 Hf; pose proof Hfd as [Hm Hip Hfar _]; [lia|]. cbn [catch_up].
  assert (same m ip (n + (ip - ip))) as Hself by (by replace (n + (ip - ip)) with n by lia). unfold MFLIMIT, WILDCOPYLENGTH, MINMATCH in Hip.
  destruct ((anchor <? ip) && (0 <? m)) eqn:E; [|by exists ip, m]. unfold read8.
  destruct (load_le_total 1 (ip - 1)) as (a & Ea & _); [lia..|]. destruct (load_le_total 1 (m - 1)) as (b & Eb & _); [lia..|]. rewrite Ea, Eb. cbn [mbind cres_bind].
  destruct (Z.eqb_spec a b) as [->|Hne]; [|by exists ip, m].
  assert (same (m - 1) (ip - 1) (1 + n)) as Hs1.
  { apply same_app; [by apply (load_le_eq 1 _ _ b); [| |lia..]| |lia]. replace (m - 1 + 1) with m by lia. by replace (ip - 1 + 1) with ip by lia. }
  destruct (IH (ip - 1) (m - 1) (1 + n)) as (ip' & m' & Er & Hfd' & Ha' & Hs'); [|done|lia..|].
  - split; [lia|unfold MFLIMIT, WILDCOPYLENGTH, MINMATCH; lia|lia|]. eapply same_le; [exact Hs1|lia].
  - exists ip', m'. split_and!; [done|done|lia..|]. by replace (n + (ip - ip')) with (1 + n + (ip - 1 - ip')) by lia.
Qed.

(** ** Room in the destination *)

Context (maxOutputSize : Z) (outputLimited : bool) (cap : Z).

(** Without a limit the destination is as large as [LZ4_compressBound] says; with one, the source is short enough for
    the test behind a match to be right. *)
Definition enough : Prop :=
  if outputLimited then 0 <= maxOutputSize <= cap ∧ maxOutputSize < 2 ^ 31 ∧ inputSize < LZ4_64Klimit
  else inputSize + inputSize / 255 + 16 <= cap.

Context (Henough : enough).

(** The output is not longer than this. *)
Definition out_bound : Z := if outputLimited then maxOutputSize else inputSize + inputSize / 255 + 16.

(** The destination is filled up to [op] when the source is encoded up to [anchor], and behind the literals of a
    sequence. *)
Definition room (anchor op : Z) : Prop := if outputLimited then True else 255 * op <= 256 * anchor.
Definition room_match (ip op : Z) : Prop := if outputLimited then op + 2 <= maxOutputSize else 255 * op <= 256 * ip + 495.

(** The bytes of the source from [a] to [b]. *)
Definition slice (a b : Z) : bytes := take (Z.to_nat (b - a)) (drop (Z.to_nat a) src).

Lemma zlen_slice a b : 0 <= a <= b → b <= inputSize → zlen (slice a b) = b - a.
Proof. intros Ha Hb. unfold slice. rewrite zlen_take; [done|]. rewrite zlen_drop; lia. Qed.

Lemma slice_ok a b : bytes_ok (slice a b).
Proof. by apply Forall_take, Forall_drop. Qed.

Lemma take_slice a b : 0 <= a <= b → take (Z.to_nat a) src ++ slice a b = take (Z.to_nat b) src.
Proof. intros H. unfold slice. rewrite take_take_drop. f_equal. lia. Qed.

(** A token and the length behind it. *)
Lemma put_run_ok E len dst : E `prefix_of` dst → 0 <= len → zlen E + 1 + zlen (length_code len) <= zlen dst →
  ∃ dst', (if RUN_MASK <=? len then
             dst ← write8 (zlen E) (Z.shiftl RUN_MASK ML_BITS) dst; put_length (Z.to_nat (len - RUN_MASK)) (zlen E + 1) (len - RUN_MASK) dst
           else dst ← write8 (zlen E) (Z.shiftl len ML_BITS) dst; Ok (zlen E + 1, dst))
          = Ok (zlen E + 1 + zlen (length_code len), dst')
    ∧ zlen dst' = zlen dst ∧ (E ++ lit_token len :: length_code len) `prefix_of` dst'.
Proof.
  intros Hp Hlen Hl. destruct (zlen_length_code len Hlen) as (_ & Hs & Hb). pose proof (zlen_nonneg (length_code len)) as Hn0. change RUN_MASK with 15. unfold ML_BITS, lit_token. change (Z.shiftl 15 4) with 240.
  rewrite Z.shiftl_mul_pow2 by lia. change (2 ^ 4) with 16. destruct (Z.leb_spec 15 len) as [H|H].
  - specialize (Hb H). destruct (prefix_write8 E 240 dst (zlen E)) as (d1 & E1 & Hd1 & Hp1); [done|done|lia|]. rewrite E1. cbn [mbind cres_bind].
    destruct (put_length_ok (Z.to_nat (len - 15)) (E ++ [240 mod 256]) (len - 15) d1 (zlen E + 1)) as (d2 & E2 & Hd2 & Hp2);
      [done|by rewrite zlen_app|lia|rewrite Z2Nat.id by lia; apply Z.div_le_upper_bound; lia|lia|].
    rewrite E2. exists d2. split_and!; [do 2 f_equal; lia|congruence|]. unfold length_code. rewrite (proj2 (Z.leb_le _ _)) by lia.
    rewrite <- app_assoc in Hp2. by replace (Z.min len 15 * 16) with 240 by lia.
  - specialize (Hs H). destruct (prefix_write8 E (len * 16) dst (zlen E)) as (d1 & E1 & Hd1 & Hp1); [done|done|lia|]. rewrite E1. cbn [mbind cres_bind].
    exists d1. split_and!; [by rewrite Hs, Z.add_0_r|done|]. unfold length_code. rewrite (proj2 (Z.leb_gt _ _)) by lia. rewrite Z.mod_small in Hp1 by lia. by replace (Z.min len 15) with len by lia.
Qed.

Lemma encode_literals_ok E anchor ip dst : E `prefix_of` dst → zlen dst = cap → room anchor (zlen E) → 0 <= anchor <= ip → ip + MFLIMIT <= inputSize →
  let P := E ++ enc_literals 0 (slice anchor ip) in
  ∃ o dst', encode_literals src maxOutputSize outputLimited anchor ip (zlen E) dst = Ok (o, dst') ∧ zlen dst' = cap ∧
    match o with Some (token, op) => token = zlen E ∧ op = zlen P ∧ P `prefix_of` dst' ∧ room_match ip op | None => outputLimited = true end.
Proof.
  intros Hp Hcap Hroom Ha Hip P. unfold MFLIMIT, WILDCOPYLENGTH, MINMATCH in Hip. unfold encode_literals, LASTLITERALS, olimit. pose proof (zlen_nonneg E) as HE0.
  rewrite (wrap_small 32) by (unfold word_ok; lia). set (lit := ip - anchor). assert (zlen (slice anchor ip) = lit) as Hlit by (apply zlen_slice; lia).
  destruct (zlen_length_code lit ltac:(lia)) as (Hlc & Hlc0 & Hlc1). set (lc := zlen (length_code lit)) in *. pose proof (Z.div_mod lit 255 ltac:(lia)). pose proof (Z.mod_pos_bound lit 255 ltac:(lia)).
  pose proof (zlen_nonneg (length_code lit)) as Hlcn. fold lc in Hlcn.
  assert (zlen P = zlen E + 1 + lc + lit) as HP by (unfold P; rewrite zlen_app, zlen_enc_literals, Hlit; subst lc; lia).
  destruct (outputLimited && (maxOutputSize <? zlen E + 1 + lit + (2 + 1 + 5) + lit / 255)) eqn:Elim.
  { exists None, dst. split_and!; [done..|]. by destruct outputLimited. }
  assert (zlen E + 1 + lc + lit + 8 <= cap + 1 ∧ zlen E + 1 + lc + 8 <= cap ∧ room_match ip (zlen P)) as (Hfit & Hfit0 & Hmid).
  { revert Henough Hroom Elim. unfold enough, room, room_match. rewrite HP. destruct outputLimited; cbn [andb]; intros Hen Hr Hlm.
    - apply Z.ltb_ge in Hlm. assert (lc <= lit / 255 + 1) by lia. lia.
    - pose proof (Z.div_mod inputSize 255 ltac:(lia)). pose proof (Z.mod_pos_bound inputSize 255 ltac:(lia)). lia. }
  destruct (put_run_ok E lit dst Hp ltac:(lia)) as (d1 & E1 & Hd1 & Hp1); [fold lc; lia|]. rewrite E1. cbn [mbind cres_bind]. fold lc.
  set (Q := E ++ lit_token lit :: length_code lit) in *. assert (zlen Q = zlen E + 1 + lc) as HQ by (unfold Q; rewrite zlen_app, zlen_cons; subst lc; lia).
  destruct (copy_literals_ok src (take (Z.to_nat anchor) src) (drop (Z.to_nat anchor) src) [] Q d1 lit) as (d2 & E2 & Hd2 & Hp2).
  - by rewrite app_nil_r, take_drop.
  - done.
  - rewrite zlen_drop; lia.
  - lia.
  - rewrite zlen_take in E2 by lia. rewrite HQ in E2. rewrite E2. cbn [mbind cres_bind]. eexists (Some _), d2. split; [done|]. split; [lia|]. split_and!; [done|lia| |by replace (zlen E + 1 + lc + lit) with (zlen P)].
    unfold P, enc_literals. rewrite Hlit. unfold Q in Hp2. rewrite <- app_assoc in Hp2. by rewrite Z.add_0_r.
Qed.

(** The length of a match. *)
Lemma put_match_ok Q mc dst : Q `prefix_of` dst → 15 <= mc → zlen Q + 4 * ((mc - 15) / 1020) + 4 <= zlen dst → zlen Q + zlen (length_code mc) <= zlen dst →
  ∃ dst', (dst ← LZ4_write32 (zlen Q) 0xFFFFFFFF dst;
           '(op, matchCode, dst) ← put_match_words (Z.to_nat (mc - 15)) (zlen Q) (mc - 15) dst;
           dst ← write8 (op + matchCode / 255) (matchCode mod 255) dst;
           Ok (op + matchCode / 255 + 1, dst)) = Ok (zlen Q + zlen (length_code mc), dst')
    ∧ zlen dst' = zlen dst ∧ (Q ++ length_code mc) `prefix_of` dst'.
Proof.
  intros Hp Hmc Hfit Hfit2. destruct (zlen_length_code mc ltac:(lia)) as (_ & _ & Hlc). specialize (Hlc Hmc). set (x := mc - 15) in *.
  pose proof (Z.div_mod x 1020 ltac:(lia)). pose proof (Z.mod_pos_bound x 1020 ltac:(lia)). set (q := x / 1020) in *. set (r := x mod 1020) in *.
  pose proof (Z.div_mod r 255 ltac:(lia)). pose proof (Z.mod_pos_bound r 255 ltac:(lia)). assert (0 <= q) by (apply Z.div_pos; lia).
  assert (x / 255 = 4 * q + r / 255 ∧ x mod 255 = r mod 255) as [Hdiv Hmod].
  { split; [symmetry; apply (Z.div_unique x 255 _ (r mod 255)); lia|symmetry; apply (Z.mod_unique x 255 (4 * q + r / 255)); lia]. }
  assert (0 <= r / 255) by (apply Z.div_pos; lia).
  destruct (prefix_write Q (le_bytes 4 0xFFFFFFFF) dst Hp) as (d1 & E1 & Hd1 & Hp1); [rewrite zlen_le_bytes; lia|]. unfold LZ4_write32 at 1. rewrite E1. cbn [mbind cres_bind].
  destruct (put_match_words_ok (Z.to_nat x) Q 0 x d1 (zlen Q)) as (d2 & E2 & Hd2 & Hp2); [done|lia|lia| |fold q; lia|].
  { rewrite Z2Nat.id by lia. apply Z.div_le_upper_bound; lia. }
  fold q r in E2, Hp2. rewrite E2. cbn [mbind cres_bind].
  assert ((Q ++ replicate (Z.to_nat (4 * q + r / 255)) 255) `prefix_of` d2) as Hp3.
  { replace (0 + Z.to_nat (4 * q) + 4)%nat with (Z.to_nat (4 * q + r / 255) + Z.to_nat (4 - r / 255))%nat in Hp2 by lia.
    rewrite replicate_add, app_assoc in Hp2. by eapply prefix_app_l. }
  destruct (prefix_write8 _ (r mod 255) d2 (zlen Q + 4 * q + r / 255) Hp3) as (d3 & E3 & Hd3 & Hp4).
  { rewrite zlen_app. unfold zlen at 3. rewrite length_replicate. lia. }
  { lia. }
  rewrite E3. cbn [mbind cres_bind]. exists d3. split_and!; [do 2 f_equal; lia|congruence|]. unfold length_code. rewrite (proj2 (Z.leb_le _ _)) by lia. fold x.
  rewrite Hdiv, Hmod. rewrite Z.mod_small in Hp4 by lia. by rewrite <- app_assoc in Hp4.
Qed.

(** The output is the source up to the end of the match. *)
Record matched (E lits : bytes) (ip m : Z) (dst : bytes) (ip' op' : Z) : Prop := {
  mt_len : ip + 4 <= ip';
  mt_end : ip' + 5 <= inputSize;
  mt_same : same m ip (ip' - ip);
  mt_op : op' = zlen (E ++ enc_seq (Seq lits (ip - m) (ip' - ip)));
  mt_enc : (E ++ enc_seq (Seq lits (ip - m) (ip' - ip))) `prefix_of` dst;
  mt_room : room ip' op';
  mt_max k : ip + k + 5 <= inputSize → same m ip k → ip + k <= ip';
  mt_limit : outputLimited = true → op' + 4 <= maxOutputSize;
}.

(** Room for a match of [mc + 4] bytes. *)
Lemma match_room ip op mc : room_match ip op → 0 <= ip → 0 <= mc → ip + 4 + mc + 5 <= inputSize →
  (outputLimited = true → op + 2 + 6 + mc / 256 <= maxOutputSize) →
  op + 2 <= cap ∧ op + 2 + 4 * ((mc - 15) / 1020) + 4 <= cap ∧ op + 2 + zlen (length_code mc) <= cap
  ∧ room (ip + (4 + mc)) (op + 2 + zlen (length_code mc)) ∧ (outputLimited = true → op + 2 + zlen (length_code mc) + 4 <= maxOutputSize).
Proof.
  intros Hroom Hip Hmc Hend Hlim. destruct (zlen_length_code mc Hmc) as (Hlc & Hlc0 & _). set (lc := zlen (length_code mc)) in *.
  assert (1020 * ((mc - 15) / 1020) <= mc - 15) as Hq by (apply Z.mul_div_le; lia). set (q := (mc - 15) / 1020) in *.
  pose proof (Z.div_mod mc 256 ltac:(lia)). pose proof (Z.mod_pos_bound mc 256 ltac:(lia)). set (a := mc / 256) in *.
  pose proof (Z.div_mod inputSize 255 ltac:(lia)). pose proof (Z.mod_pos_bound inputSize 255 ltac:(lia)).
  revert Henough Hroom Hlim. unfold enough, room_match, room. unfold LZ4_64Klimit, MFLIMIT, WILDCOPYLENGTH, MINMATCH. clearbody lc q a.
  destruct outputLimited; intros Hen Hr Hlm; [specialize (Hlm eq_refl)|]; split_and!; try done; intros; lia.
Qed.

Lemma room_match_offset ip op : room_match ip op → ip + 9 <= inputSize → op + 2 <= cap.
Proof.
  intros Hroom Hip. revert Henough Hroom. unfold enough, room_match. pose proof (Z.div_mod inputSize 255 ltac:(lia)). pose proof (Z.mod_pos_bound inputSize 255 ltac:(lia)).
  destruct outputLimited; lia.
Qed.

Lemma encode_match_ok E lits ip m dst : let P := E ++ enc_literals 0 lits in P `prefix_of` dst → zlen dst = cap → found ip m → room_match ip (zlen P) →
  ∃ o dst', encode_match src inputSize maxOutputSize outputLimited (zlen E) ip m (zlen P) dst = Ok (o, dst') ∧ zlen dst' = cap ∧
    match o with Some (ip', op') => matched E lits ip m dst' ip' op' | None => outputLimited = true end.
Proof.
  intros P Hp Hcap [Hm Hip Hfar Hsame] Hroom. unfold encode_match, LZ4_writeLE16, matchlimit, iend, olimit, LASTLITERALS. unfold MFLIMIT, WILDCOPYLENGTH, MINMATCH in *.
  pose proof (room_match_offset _ _ Hroom ltac:(lia)) as Hoff.
  destruct (prefix_write P (le_bytes 2 (wrap 16 (ip - m))) dst Hp) as (d1 & E1 & Hd1 & Hp1); [rewrite zlen_le_bytes; lia|]. rewrite E1. cbn [mbind cres_bind].
  rewrite wrap_small in Hp1 by (unfold word_ok; lia).
  destruct (count_ok (ip + 4) (m + 4) (inputSize - 5)) as (mc & Ec & Hmc & Hend & Hsm & Hmx); [lia..|]. rewrite Ec. cbn [mbind cres_bind].
  rewrite shiftr_div by lia. change (2 ^ 8) with 256. change (1 + 5) with 6.
  destruct (outputLimited && (maxOutputSize <? zlen P + 2 + 6 + mc / 256)) eqn:Elim.
  { exists None, d1. split_and!; [done|congruence|]. by destruct outputLimited. }
  destruct (match_room ip (zlen P) mc Hroom ltac:(lia) Hmc ltac:(lia)) as (_ & Hf1 & Hf2 & Hr & Hl); [intros Ho; rewrite Ho in Elim; cbn in Elim; lia|].
  assert (same m ip (4 + mc)) as Hs4 by (by apply same_app).
  set (t := lit_token (zlen lits)) in *. assert (0 <= t <= 240) as Ht by (unfold t, lit_token; pose proof (zlen_nonneg lits); lia).
  set (R := (length_code (zlen lits) ++ lits) ++ le_bytes 2 (ip - m)) in *.
  assert (P ++ le_bytes 2 (ip - m) = E ++ t :: R) as EP by (unfold P, enc_literals, R; rewrite <- !app_assoc; cbn; by rewrite Z.add_0_r, <- !app_assoc).
  assert (∀ k, zlen (E ++ (t + k) :: R) = zlen P + 2) as Hz.
  { intros k. transitivity (zlen (E ++ t :: R)); [by rewrite !zlen_app, !zlen_cons|]. rewrite <- EP, zlen_app, zlen_le_bytes. done. }
  assert (∀ op' d', (E ++ (t + Z.min mc 15) :: R ++ length_code mc) `prefix_of` d' → op' = zlen P + 2 + zlen (length_code mc) → zlen d' = cap →
    matched E lits ip m d' (ip + (4 + mc)) op') as Hmatched.
  { intros op' d' Hpd -> Hd. assert (E ++ (t + Z.min mc 15) :: R ++ length_code mc = E ++ enc_seq (Seq lits (ip - m) (ip + (4 + mc) - ip))) as EE.
    { unfold enc_seq, enc_literals, R, t. cbn [s_lits s_off s_len]. replace (ip + (4 + mc) - ip - 4) with mc by lia. cbn [app]. by rewrite <- !app_assoc. }
    split; [lia|lia|by replace (ip + (4 + mc) - ip) with (4 + mc) by lia| |by rewrite <- EE|done| |done].
    2:{ intros k Hk Hsk. destruct (decide (k <= 4)); [lia|]. assert (k - 4 <= mc); [|lia]. apply Hmx; [lia|]. intros i Hi. specialize (Hsk (4 + i) ltac:(lia)). by rewrite !Z.add_assoc in Hsk. }
    rewrite <- EE, app_comm_cons, app_assoc, zlen_app, Hz. done. }
  rewrite EP in Hp1. change ML_MASK with 15. destruct (Z.leb_spec 15 mc) as [H15|H15].
  - destruct (add_token_ok E t R d1 15 Hp1) as (d2 & E2 & Hd2 & Hp2); [lia..|]. rewrite E2. cbn [mbind cres_bind].
    destruct (put_match_ok (E ++ (t + 15) :: R) mc d2 Hp2 H15) as (d3 & E3 & Hd3 & Hp3); [rewrite Hz; lia..|]. rewrite Hz in E3.
    revert E3. unfold mbind, cres_bind. destruct (LZ4_write32 _ _ d2) as [d2a|]; [|done]. destruct (put_match_words _ _ _ d2a) as [[[op3 mc3] d2b]|]; [|done].
    destruct (write8 _ _ d2b) as [d2c|]; [|done]. intros [= Hop <-]. eexists (Some _), _. split; [done|]. split; [congruence|].
    apply Hmatched; [|lia|congruence]. replace (Z.min mc 15) with 15 by lia. by rewrite <- app_assoc in Hp3.
  - destruct (add_token_ok E t R d1 mc Hp1) as (d2 & E2 & Hd2 & Hp2); [lia..|]. rewrite E2. cbn [mbind cres_bind]. eexists (Some _), _. split; [done|]. split; [congruence|].
    assert (length_code mc = []) as Hnil by (unfold length_code; by rewrite (proj2 (Z.leb_gt _ _)) by lia).
    apply Hmatched; [|rewrite Hnil; by rewrite Z.add_0_r|congruence]. rewrite Hnil, app_nil_r. by replace (Z.min mc 15) with mc by lia.
Qed.

Lemma last_literals_ok E anchor dst : E `prefix_of` dst → zlen dst = cap → room anchor (zlen E) → 0 <= anchor <= inputSize →
  let B := E ++ enc_literals 0 (slice anchor inputSize) in
  ∃ r dst', last_literals src inputSize maxOutputSize outputLimited anchor (zlen E) dst = Ok (r, dst') ∧ zlen dst' = cap ∧
    (r = zlen B ∧ B `prefix_of` dst' ∧ r <= out_bound ∨ outputLimited = true ∧ r = 0).
Proof.
  intros Hp Hcap Hroom Ha B. unfold last_literals, iend. set (run := inputSize - anchor). pose proof (zlen_nonneg E) as HE0.
  assert (zlen (slice anchor inputSize) = run) as Hrun by (apply zlen_slice; lia).
  destruct (zlen_length_code run ltac:(lia)) as (Hlc & Hlc0 & _). pose proof (zlen_nonneg (length_code run)) as Hlcn. set (lc := zlen (length_code run)) in *.
  assert (zlen B = zlen E + 1 + lc + run) as HB by (unfold B; rewrite zlen_app, zlen_enc_literals, Hrun; subst lc; lia).
  change RUN_MASK with 15 at 1. pose proof (Z.div_mod (run + 255 - 15) 255 ltac:(lia)). pose proof (Z.mod_pos_bound (run + 255 - 15) 255 ltac:(lia)).
  destruct (outputLimited && (wrap 32 maxOutputSize <? zlen E + run + 1 + (run + 255 - 15) / 255)) eqn:Elim.
  { exists 0, dst. split_and!; [done|done|]. right. by destruct outputLimited. }
  assert (zlen B <= cap ∧ zlen B < 2 ^ 31 ∧ zlen B <= out_bound) as (Hfit & H31 & Hbound).
  { revert Henough Hroom Elim. unfold enough, room, out_bound. rewrite HB. pose proof (Z.div_mod inputSize 255 ltac:(lia)). pose proof (Z.mod_pos_bound inputSize 255 ltac:(lia)).
    destruct outputLimited; cbn [andb]; intros Hen Hr Hlm; [|lia]. rewrite wrap_small in Hlm by (unfold word_ok; lia). lia. }
  destruct (put_run_ok E run dst Hp ltac:(lia)) as (d1 & E1 & Hd1 & Hp1); [fold lc; lia|]. rewrite E1. cbn [mbind cres_bind]. fold lc.
  set (Q := E ++ lit_token run :: length_code run) in *. assert (zlen Q = zlen E + 1 + lc) as HQ by (unfold Q; rewrite zlen_app, zlen_cons; subst lc; lia).
  unfold mem_copy. rewrite mem_read_ok by lia. fold (slice anchor inputSize). cbn [mbind cres_bind].
  replace (take (Z.to_nat run) (drop (Z.to_nat anchor) src)) with (slice anchor inputSize) by done.
  destruct (prefix_write Q (slice anchor inputSize) d1 Hp1) as (d2 & E2 & Hd2 & Hp2); [lia|]. rewrite HQ in E2. rewrite E2. cbn [mbind cres_bind].
  eexists _, d2. split_and!; [done|congruence|]. left. assert (swrap 32 (zlen E + 1 + lc + run) = zlen B) as -> by (rewrite swrap_small; lia). split; [done|split; [|done]]. unfold B, enc_literals. rewrite Hrun. unfold Q in Hp2.
  rewrite <- app_assoc in Hp2. by rewrite Z.add_0_r.
Qed.


(** ** The main loop *)

(** [E] encodes the source up to [anchor]. *)
Definition encoded (anchor : Z) (E : bytes) : Prop :=
  ∃ ss, E = enc_seqs ss ∧ expand ss [] = take (Z.to_nat anchor) src ∧ seqs_ok inputSize [] ss ∧ (ss ≠ [] → anchor + 5 <= inputSize).

(** What was written is a block for the source. *)
Definition compressed_to (dst : bytes) (r : Z) : Prop :=
  ∃ ss last, block ss last `prefix_of` dst ∧ r = zlen (block ss last) ∧ expand ss [] ++ last = src ∧ seqs_ok inputSize [] ss ∧ (ss ≠ [] → 5 <= zlen last).

Lemma encoded_step E anchor ip m dst ip' op' : encoded anchor E → 0 <= anchor <= ip → found ip m → matched E (slice anchor ip) ip m dst ip' op' →
  encoded ip' (E ++ enc_seq (Seq (slice anchor ip) (ip - m) (ip' - ip))).
Proof.
  intros (ss & -> & Hexp & Hok & _) Ha [Hm Hip Hfar _] [Hlen Hend Hsame _ _ _ _ _]. unfold MFLIMIT, WILDCOPYLENGTH, MINMATCH in Hip.
  assert (zlen (take (Z.to_nat anchor) src) = anchor) as Hta by (apply zlen_take; lia). assert (zlen (slice anchor ip) = ip - anchor) as Hsl by (apply zlen_slice; lia).
  set (s := Seq _ _ _). exists (ss ++ [s]). rewrite enc_seqs_snoc, expand_snoc, Hexp. split_and!; [done| | |lia].
  - unfold seq_step, s. cbn [s_lits s_off s_len]. rewrite take_slice by lia. rewrite same_match by (done || lia). f_equal. lia.
  - apply seqs_ok_snoc; [done|]. rewrite Hexp. split; unfold s; cbn [s_lits s_off s_len]; rewrite ?Hta, ?Hsl; [apply slice_ok|lia..].
Qed.

Lemma compressed_end E anchor dst : encoded anchor E → 0 <= anchor <= inputSize →
  (E ++ enc_literals 0 (slice anchor inputSize)) `prefix_of` dst → compressed_to dst (zlen (E ++ enc_literals 0 (slice anchor inputSize))).
Proof.
  intros (ss & -> & Hexp & Hok & H5) Ha Hp. exists ss, (slice anchor inputSize). split_and!; [done|done| |done|].
  - rewrite Hexp, take_slice by lia. apply take_ge. unfold zlen in Hsize. lia.
  - intros Hne. rewrite zlen_slice by lia. specialize (H5 Hne). lia.
Qed.

(** Room for the token of a match that follows directly. *)
Lemma next_token_room ip op : room ip op → (outputLimited = true → op + 4 <= maxOutputSize) → ip <= inputSize → op + 1 <= cap ∧ room_match ip (op + 1).
Proof.
  intros Hr Hl Hip. revert Henough Hr Hl. unfold enough, room, room_match. pose proof (Z.div_mod inputSize 255 ltac:(lia)). pose proof (Z.mod_pos_bound inputSize 255 ltac:(lia)).
  destruct outputLimited; intros Hen Hr Hl; [specialize (Hl eq_refl)|]; lia.
Qed.

(** What a round starts with. *)
Definition round_ok (r : round) (anchor : Z) (E : bytes) (op : Z) (t : list Z) (dst : bytes) : Prop :=
  match r with
  | Search ip h => anchor < ip <= inputSize ∧ 0 <= h < 2 ^ hash_log tableType ∧ table_ok ip t ∧ op = zlen E ∧ E `prefix_of` dst ∧ room anchor op
  | NextMatch token ip m => ip = anchor ∧ found ip m ∧ table_ok (ip + 1) t ∧ token = zlen E ∧ op = zlen E + 1 ∧ (E ++ [0]) `prefix_of` dst ∧ room_match ip op
  end.

Context (acceleration : Z) (Hacc : 1 <= acceleration < 2 ^ 20).

(** The search and the literals of a round. *)
Lemma round_literals r anchor E op t dst : round_ok r anchor E op t dst → zlen dst = cap → 0 <= anchor →
  ∃ f dst', (match r with
      | Search ip forwardH =>
          f ← find_match src inputSize tableType (S (Z.to_nat (iend inputSize - ip))) ip 1 (wshl 32 acceleration LZ4_skipTrigger) forwardH t;
          match f with
          | None => Ok (None, dst)
          | Some (ip, m, t) =>
              '(ip, m) ← catch_up src (Z.to_nat ip) anchor ip m;
              '(lit, dst) ← encode_literals src maxOutputSize outputLimited anchor ip op dst;
              Ok (Some (lit, ip, m, t), dst)
          end
      | NextMatch token ip m => Ok (Some (Some (token, op), ip, m, t), dst)
      end) = Ok (f, dst') ∧ zlen dst' = cap ∧
    match f with
    | None => dst' = dst ∧ op = zlen E ∧ E `prefix_of` dst ∧ room anchor op
    | Some (None, _, _, _) => outputLimited = true
    | Some (Some (token, op'), ip, m, t') => let P := E ++ enc_literals 0 (slice anchor ip) in
        anchor <= ip ∧ found ip m ∧ (∃ k, 4 <= k ∧ same m ip k ∧ ip + k + 8 <= inputSize ∧ table_ok (ip + k - 3) t')
        ∧ token = zlen E ∧ op' = zlen P ∧ P `prefix_of` dst' ∧ room_match ip op'
    end.
Proof.
  intros Hr Hcap Ha. destruct r as [ip h|token ip m]; cbn [round_ok] in Hr.
  - destruct Hr as (Hip & Hh & Ht & -> & Hp & Hroom). unfold iend, LZ4_skipTrigger.
    assert (wshl 32 acceleration 6 = acceleration * 64) as Hw. { unfold wshl. rewrite Z.shiftl_mul_pow2 by lia. apply wrap_small. unfold word_ok. lia. }
    destruct (find_match_ok (S (Z.to_nat (inputSize - ip))) ip 1 (wshl 32 acceleration 6) h t) as (f & Ef & Hf); [done|lia|done|lia|rewrite Hw; lia..|lia|].
    rewrite Ef. cbn [mbind cres_bind]. destruct f as [[[ip1 m1] t1]|]; [|by exists None, dst]. destruct Hf as (Hip1 & Hfd1 & Ht1).
    destruct (catch_up_ok (Z.to_nat ip1) anchor ip1 m1 4) as (ip2 & m2 & Ec & Hfd2 & Hip2 & Hs2); [done|apply Hfd1|lia..|]. rewrite Ec. cbn [mbind cres_bind].
    destruct (encode_literals_ok E anchor ip2 dst Hp Hcap Hroom) as (o & d1 & El & Hd1 & Ho); [lia|apply Hfd2|]. rewrite El. cbn [mbind cres_bind].
    eexists (Some _), d1. split; [done|]. split; [done|]. destruct o as [[token op']|]; [|done]. destruct Ho as (-> & -> & Hp1 & Hm1). cbv zeta. split_and!; [lia|done| |done..].
    pose proof Hfd1 as [_ Hip1' _ _]. unfold MFLIMIT, WILDCOPYLENGTH, MINMATCH in Hip1'.
    exists (4 + (ip1 - ip2)). split_and!; [lia|done|lia|]. by replace (ip2 + (4 + (ip1 - ip2)) - 3) with (ip1 + 1) by lia.
  - destruct Hr as (-> & Hfd & Ht & -> & -> & Hp & Hroom). eexists (Some _), dst. split; [done|]. split; [done|]. cbv zeta.
    assert (slice anchor anchor = []) as -> by (unfold slice; by rewrite Z.sub_diag). pose proof Hfd as [_ Hip' _ Hs4]. unfold MFLIMIT, WILDCOPYLENGTH, MINMATCH in Hip'.
    split_and!; [lia|done| |done|by rewrite zlen_app|done|done].
    exists 4. split_and!; [lia|done|lia|]. by replace (anchor + 4 - 3) with (anchor + 1) by lia.
Qed.

Lemma compress_loop_ok fuel r anchor E op t dst : round_ok r anchor E op t dst → encoded anchor E → zlen dst = cap → 0 <= anchor <= inputSize → inputSize - anchor < Z.of_nat fuel →
  ∃ n dst', compress_loop src inputSize maxOutputSize outputLimited tableType acceleration fuel r anchor op t dst = Ok (n, dst') ∧ zlen dst' = cap
    ∧ (compressed_to dst' n ∧ n <= out_bound ∨ outputLimited = true ∧ n = 0).
Proof.
  revert r anchor E op t dst. induction fuel as [|fuel IH]; intros r anchor E op t dst Hr Henc Hcap Ha Hf; [lia|]. cbn [compress_loop].
  destruct (round_literals r anchor E op t dst Hr Hcap ltac:(lia)) as (f & d1 & Ef & Hd1 & Hfound). rewrite Ef. cbn [mbind cres_bind]. clear Ef Hr.
  destruct f as [[[[[[token op1]|] ip] m] t1]|].
  2:{ exists 0, d1. split_and!; [done..|]. by right. }
  2:{ destruct Hfound as (-> & -> & Hp & Hroom). destruct (last_literals_ok E anchor dst Hp Hcap Hroom Ha) as (n & d2 & El & Hd2 & Hn). rewrite El. exists n, d2. split_and!; [done..|].
      destruct Hn as [(-> & Hpn & Hbn)|Hn]; [left; split; [by apply compressed_end|done]|by right]. }
  destruct Hfound as (Haip & Hfd & (k & Hk & Hsk & Hkl & Ht) & -> & -> & Hp & Hmid).
  destruct (encode_match_ok E (slice anchor ip) ip m d1 Hp Hd1 Hfd Hmid) as (o & d2 & Em & Hd2 & Ho). rewrite Em. cbn [mbind cres_bind].
  destruct o as [[ip' op']|]; [|exists 0, d2; split_and!; [done..|by right]].
  pose proof (encoded_step E anchor ip m d2 ip' op' Henc ltac:(lia) Hfd Ho) as Henc'. pose proof Ho as [Hlen Hend _ -> Hp2 Hroom2 Hmx Hlm]. pose proof Hfd as [Hm Hip _ _].
  specialize (Hmx k ltac:(lia) Hsk). set (E2 := E ++ enc_seq _) in *. unfold mflimit, iend, MFLIMIT, WILDCOPYLENGTH, MINMATCH in *.
  destruct (Z.ltb_spec (inputSize - (8 + 4)) ip') as [Hlast|Hmore].
  { destruct (last_literals_ok E2 ip' d2 Hp2 Hd2 Hroom2 ltac:(lia)) as (n & d3 & El & Hd3 & Hn). rewrite El. exists n, d3. split_and!; [done..|].
    destruct Hn as [(-> & Hpn & Hbn)|Hn]; [left; split; [apply compressed_end; [done|lia|done]|done]|by right]. }
  unfold LZ4_putPosition, LZ4_getPosition.
  destruct (hashPosition_ok (ip' - 2)) as (h1 & Eh1 & Hh1); [lia..|]. rewrite Eh1. cbn [mbind cres_bind].
  destruct (put_position_ok (ip' - 2) h1 _ t1 Ht Hh1) as (t2 & Et2 & Ht2); [lia|unfold MFLIMIT, WILDCOPYLENGTH, MINMATCH; lia|lia|]. rewrite Et2. cbn [mbind cres_bind].
  destruct (hashPosition_ok ip') as (h2 & Eh2 & Hh2); [lia..|]. rewrite Eh2. cbn [mbind cres_bind].
  destruct (get_position_ok h2 _ t2 Ht2 Hh2) as (m' & Em' & Hm'). rewrite Em'. cbn [mbind cres_bind].
  destruct (put_position_ok ip' h2 _ t2 Ht2 Hh2) as (t3 & Et3 & Ht3); [lia|unfold MFLIMIT, WILDCOPYLENGTH, MINMATCH; lia|lia|]. rewrite Et3. cbn [mbind cres_bind].
  unfold LZ4_read32. destruct (load_le_total 4 m') as (a & Ea & _); [lia..|]. destruct (load_le_total 4 ip') as (b & Eb & _); [lia..|]. rewrite Ea, Eb. cbn [mbind cres_bind].
  assert (∀ d, E2 `prefix_of` d → zlen d = cap → ∃ n dst', (forwardH ← LZ4_hashPosition src tableType (ip' + 1);
      compress_loop src inputSize maxOutputSize outputLimited tableType acceleration fuel (Search (ip' + 1) forwardH) ip' (zlen E2) t3 d) = Ok (n, dst') ∧ zlen dst' = cap
      ∧ (compressed_to dst' n ∧ n <= out_bound ∨ outputLimited = true ∧ n = 0)) as Hsearch.
  { intros d Hpd Hd. destruct (hashPosition_ok (ip' + 1)) as (h3 & Eh3 & Hh3); [lia..|]. rewrite Eh3. cbn [mbind cres_bind].
    apply (IH _ ip' E2); [|done|done|lia|lia]. cbn [round_ok]. split_and!; [lia..|done|done|done|done]. }
  destruct (Z.leb_spec ip' (m' + MAX_DISTANCE)) as [Hfar|Hfar]; [|by apply Hsearch]. cbn [mbind cres_bind]. destruct (Z.eqb_spec a b) as [->|Hne]; [|by apply Hsearch].
  unfold MAX_DISTANCE in Hfar. change (Z.shiftl 1 16) with 65536 in Hfar.
  destruct (next_token_room ip' (zlen E2) Hroom2 Hlm ltac:(lia)) as [Hfit Hmid2].
  destruct (prefix_write8 E2 0 d2 (zlen E2) Hp2 eq_refl) as (d3 & Ew & Hd3 & Hp3); [lia|]. rewrite Ew. cbn [mbind cres_bind].
  apply (IH _ ip' E2); [|done|congruence|lia|lia]. cbn [round_ok]. split_and!; [done| |done..].
  split; [lia|unfold MFLIMIT, WILDCOPYLENGTH, MINMATCH; lia|lia|]. by apply (load_le_eq 4 _ _ b); [| |lia..].
Qed.
End source.

(** ** Properties of the compressor *)

(** What the compressor leaves in the destination. *)
Lemma compress_block src maxOutputSize acceleration dst : bytes_ok src → zlen src <= LZ4_MAX_INPUT_SIZE → 1 <= acceleration < 2 ^ 20 → 0 <= maxOutputSize <= zlen dst →
  maxOutputSize < 2 ^ 31 → LZ4_compressBound (zlen src) <= maxOutputSize ∨ zlen src < LZ4_64Klimit →
  ∃ n dst', LZ4_compress_fast src (zlen src) maxOutputSize acceleration dst = Ok (n, dst') ∧ zlen dst' = zlen dst
    ∧ ((n = 0 ∧ maxOutputSize < LZ4_compressBound (zlen src)) ∨ compressed_to src (zlen src) dst' n ∧ n <= Z.min maxOutputSize (LZ4_compressBound (zlen src))).
Proof.
  intros Hs Hmax Hacc Hout Hout31 Hlim. pose proof (zlen_nonneg src) as Hn. unfold LZ4_MAX_INPUT_SIZE in Hmax.
  assert (LZ4_compressBound (zlen src) = zlen src + zlen src / 255 + 16) as Hb.
  { unfold LZ4_compressBound, LZ4_MAX_INPUT_SIZE. rewrite wrap_small by (unfold word_ok; lia). by rewrite (proj2 (Z.ltb_ge _ _)) by lia. }
  unfold LZ4_compress_fast, LZ4_compress_fast_extState. rewrite (proj2 (Z.ltb_ge acceleration 1)) by lia.
  set (tt := if zlen src <? LZ4_64Klimit then byU16 else byU32). assert (tt = byU16 → zlen src < LZ4_64Klimit) as Htt by (unfold tt; destruct (Z.ltb_spec (zlen src) LZ4_64Klimit); done).
  assert (∀ mo lim, enough (zlen src) mo lim (zlen dst) → ∃ n dst', LZ4_compress_generic src (zlen src) mo lim tt acceleration dst = Ok (n, dst') ∧ zlen dst' = zlen dst
    ∧ (compressed_to src (zlen src) dst' n ∧ n <= out_bound (zlen src) mo lim ∨ lim = true ∧ n = 0)) as Hgen.
  { intros mo lim Hen. unfold LZ4_compress_generic, LZ4_MAX_INPUT_SIZE. rewrite wrap_small by (unfold word_ok; lia). rewrite (proj2 (Z.ltb_ge _ _)) by lia.
    assert (bool_decide (tt = byU16) && (LZ4_64Klimit <=? zlen src) = false) as ->. { case_bool_decide as E; [|done]. specialize (Htt E). cbn. lia. }
    assert (encoded src (zlen src) 0 []) as Henc by (by exists []). assert (room lim 0 (zlen (@nil Z))) as Hroom by (by destruct lim).
    unfold LZ4_minLength, MFLIMIT, WILDCOPYLENGTH, MINMATCH. destruct (Z.ltb_spec (zlen src) (8 + 4 + 1)) as [Hsmall|Hbig].
    - destruct (last_literals_ok src (zlen src) eq_refl Hmax mo lim (zlen dst) Hen [] 0 dst) as (n & d & E & Hd & Hr); [apply prefix_nil|done|done|lia|].
      change (zlen []) with 0 in E. rewrite E. exists n, d. split_and!; [done..|]. destruct Hr as [(-> & Hr & Hbn)|Hr]; [left; split; [apply compressed_end; [done|done|lia|done]|done]|by right].
    - assert (table_ok tt 1 (LZ4_resetStream tt)) as Ht0 by (unfold tt; destruct (_ <? _); split; [by vm_compute|by apply Forall_replicate|by vm_compute|by apply Forall_replicate]).
      unfold LZ4_putPosition. destruct (hashPosition_ok src Hs (zlen src) eq_refl tt Htt 0) as (h0 & E0 & Hh0); [lia..|]. rewrite E0. cbn [mbind cres_bind].
      destruct (put_position_ok (zlen src) Hmax tt Htt 0 h0 1 _ Ht0 Hh0) as (t1 & E1 & Ht1); [lia|unfold MFLIMIT, WILDCOPYLENGTH, MINMATCH; lia|lia|]. rewrite E1. cbn [mbind cres_bind].
      destruct (hashPosition_ok src Hs (zlen src) eq_refl tt Htt 1) as (h1 & Eh1 & Hh1); [lia..|]. rewrite Eh1. cbn [mbind cres_bind].
      apply (compress_loop_ok src Hs (zlen src) eq_refl Hmax tt Htt mo lim (zlen dst) Hen acceleration Hacc _ _ 0 []); [|done|done|lia|lia].
      cbn [round_ok]. split_and!; [lia..|done|done|apply prefix_nil|done]. }
  destruct (Z.leb_spec (LZ4_compressBound (zlen src)) maxOutputSize) as [Hle|Hgt].
  - destruct (Hgen 0 false) as (n & d & E & Hd & Hr); [unfold enough; lia|]. rewrite E. exists n, d. split_and!; [done..|]. right. destruct Hr as [[Hr Hbn]|[? _]]; [|done]. unfold out_bound in Hbn. split; [done|lia].
  - destruct (Hgen maxOutputSize true) as (n & d & E & Hd & Hr); [unfold enough; split_and!; [lia..|destruct Hlim; [lia|done]]|]. rewrite E. exists n, d. split_and!; [done..|].
    destruct Hr as [[Hr Hbn]|[_ ->]]; [right|left; lia]. unfold out_bound in Hbn. split; [done|lia].
Qed.

Lemma zlen_block_pos ss last : 0 < zlen (block ss last).
Proof. unfold block. rewrite zlen_app, zlen_enc_literals. pose proof (zlen_nonneg (enc_seqs ss)). pose proof (zlen_nonneg (length_code (zlen last))). pose proof (zlen_nonneg last). lia. Qed.

Lemma seqs_length ss last : (length ss < length (block ss last))%nat.
Proof.
  unfold block, enc_seqs. rewrite length_app. cbn. assert (length ss <= length (concat (enc_seq <$> ss)))%nat; [|lia].
  induction ss as [|s ss IH]; cbn; [lia|]. rewrite length_app. lia.
Qed.

Lemma length_code_ok x : bytes_ok (length_code x).
Proof.
  unfold length_code. destruct (_ <=? _); [|constructor]. apply Forall_app_2; [by apply Forall_replicate|]. constructor; [|constructor].
  pose proof (Z.mod_pos_bound (x - 15) 255 ltac:(lia)). unfold byte_ok. lia.
Qed.

Lemma enc_literals_ok m lits : 0 <= m → bytes_ok lits → bytes_ok (enc_literals m lits).
Proof.
  intros Hm Hl. constructor; [unfold byte_ok, lit_token; pose proof (zlen_nonneg lits); lia|]. apply Forall_app_2; [apply length_code_ok|done].
Qed.

Lemma enc_seqs_ok total out ss : seqs_ok total out ss → bytes_ok (enc_seqs ss).
Proof.
  revert out. induction ss as [|s ss IH]; intros out; [constructor|]. intros [[] Hok]. apply Forall_app_2; [|by eapply IH].
  apply Forall_app_2; [by apply enc_literals_ok; [lia|]|]. apply Forall_app_2; [apply le_bytes_ok|apply length_code_ok].
Qed.

(** A block for the source is decoded to the source. *)
Lemma compressed_decode src dst n oend : compressed_to src (zlen src) dst n → zlen src <= oend → bytes_ok src →
  0 < n <= zlen dst ∧ (0 < zlen src → 2 <= n) ∧ bytes_ok (take (Z.to_nat n) dst) ∧ block_decode (S (Z.to_nat n)) oend (take (Z.to_nat n) dst) [] = Some src.
Proof.
  intros (ss & last & [junk ->] & -> & Hsrc & Hok & H5) Ho Hs. pose proof (zlen_block_pos ss last). pose proof (zlen_nonneg junk). rewrite zlen_app.
  rewrite take_app_length' by (unfold zlen; lia). split_and!; [lia|lia| | |].
  - intros Hpos. unfold block. rewrite zlen_app, zlen_enc_literals. pose proof (zlen_nonneg (enc_seqs ss)). pose proof (zlen_nonneg (length_code (zlen last))).
    destruct ss as [|s ss]; [cbn in Hsrc; subst last; lia|]. specialize (H5 ltac:(done)). lia.
  - apply Forall_app_2; [by eapply enc_seqs_ok|]. apply enc_literals_ok; [done|]. rewrite <- Hsrc in Hs. by apply Forall_app in Hs as [_ ?].
  - rewrite <- Hsrc in Ho. rewrite <- Hsrc in Hok. rewrite zlen_app in Hok, Ho. rewrite block_decode_block; [by rewrite Hsrc|done| |done|done].
    pose proof (seqs_length ss last). unfold zlen. lia.
Qed.


