(* ===== verification/Poly1305.v ===== *)
(** * Poly1305 (zto/node/Poly1305.hpp, Poly1305.cpp)

    The one-time authenticator of packets.  The source has two implementations that
    the preprocessor chooses between: [P64], with limbs of 44 bits and 128-bit
    products, for x86-64, and [P32], with limbs of 26 bits, for the rest, where
    [unsigned long] has 32 or 64 bits.  Both are instances of [Poly], over which
    [poly1305_update] and [compute] are written once, as in the source.  [poly1305] is
    the function of the definition of Poly1305; the laws [PolyLaws] say that an
    implementation computes it on limbs, and both implementations satisfy them. *)

From Stdlib Require Import ZArith Lia.
From stdpp Require Import base numbers list option.
From S2P Require Import Prelude Words.

Open Scope Z_scope.

Definition poly1305_block_size : Z := 16.
Definition ZT_POLY1305_KEY_LEN : Z := 32.
Definition ZT_POLY1305_MAC_LEN : Z := 16.

(** [poly1305_state_internal_t], over the arrays of limbs. *)
Record poly_state (L P : Type) := PolyState {
  st_r : L;
  st_h : L;
  st_pad : P;
  st_leftover : Z;
  st_buffer : bytes;
  st_final : Z;
}.
Arguments PolyState {L P} _ _ _ _ _ _.
Arguments st_r {L P} _.
Arguments st_h {L P} _.
Arguments st_pad {L P} _.
Arguments st_leftover {L P} _.
Arguments st_buffer {L P} _.
Arguments st_final {L P} _.

(** What the two implementations define.  The state is an uninitialised local of the
    caller: its buffer holds [junk] before. *)
Class Poly (L P : Type) := {
  poly1305_init : bytes → bytes → cres (poly_state L P);
  poly1305_blocks : poly_state L P → bytes → Z → cres (poly_state L P);
  poly1305_finish : poly_state L P → cres (bytes * poly_state L P);
}.

(** The loop of [poly1305_blocks] around its body [step]. *)
Fixpoint while_blocks {L} (step : bytes → L → cres L) (fuel : nat) (m : bytes) (n : Z) (h : L) : cres L :=
  if poly1305_block_size <=? n then
    match fuel with
    | O => Undef OutOfFuel
    | S fuel' =>
        h ← step m h;
        while_blocks step fuel' (drop (Z.to_nat poly1305_block_size) m) (n - poly1305_block_size) h
    end
  else Ok h.

(** The fuel of the loop: one round for each block. *)
Definition rounds (n : Z) : nat := Z.to_nat (n / poly1305_block_size).

(** What [poly1305_finish] does to the buffer of the last block: a byte 1 and zeros. *)
Definition pad_buffer (leftover : Z) (buffer : bytes) : cres bytes :=
  mem_write leftover (1 :: memset (poly1305_block_size - leftover - 1) 0) buffer.

(** ** The implementation with 128-bit products *)

Module P64.

Definition limbs : Type := Z * Z * Z.
Definition pads : Type := Z * Z.

Definition U8TO64 (p : bytes) (off : Z) : cres Z :=
  d ← mem_read off 8 p;
  match d with
  | [p0; p1; p2; p3; p4; p5; p6; p7] =>
      Ok (Z.lor (Z.lor (Z.lor (Z.lor (Z.lor (Z.lor (Z.lor
            (Z.land p0 0xff) (wshl 64 (Z.land p1 0xff) 8)) (wshl 64 (Z.land p2 0xff) 16))
            (wshl 64 (Z.land p3 0xff) 24)) (wshl 64 (Z.land p4 0xff) 32)) (wshl 64 (Z.land p5 0xff) 40))
            (wshl 64 (Z.land p6 0xff) 48)) (wshl 64 (Z.land p7 0xff) 56))
  | _ => Undef OutOfBounds
  end.

Definition U64TO8 (v : Z) : bytes :=
  map (λ k, Z.land (Z.shiftr v k) 0xff) [0; 8; 16; 24; 32; 40; 48; 56].

Definition init (junk key : bytes) : cres (poly_state limbs pads) :=
  t0 ← U8TO64 key 0;
  t1 ← U8TO64 key 8;
  let r0 := Z.land t0 0xffc0fffffff in
  let r1 := Z.land (Z.lor (Z.shiftr t0 44) (wshl 64 t1 20)) 0xfffffc0ffff in
  let r2 := Z.land (Z.shiftr t1 24) 0x00ffffffc0f in
  pad0 ← U8TO64 key 16;
  pad1 ← U8TO64 key 24;
  Ok (PolyState (r0, r1, r2) (0, 0, 0) (pad0, pad1) 0 junk 0).

(** h *= r, and (partial) h %= p. *)
Definition mul_mod (r h : limbs) : limbs :=
  let '(r0, r1, r2) := r in
  let '(h0, h1, h2) := h in
  let s1 := wmul 64 r1 20 in
  let s2 := wmul 64 r2 20 in
  let d0 := wadd 128 (wadd 128 (wmul 128 h0 r0) (wmul 128 h1 s2)) (wmul 128 h2 s1) in
  let d1 := wadd 128 (wadd 128 (wmul 128 h0 r1) (wmul 128 h1 r0)) (wmul 128 h2 s2) in
  let d2 := wadd 128 (wadd 128 (wmul 128 h0 r2) (wmul 128 h1 r1)) (wmul 128 h2 r0) in
  let c := wrap 64 (Z.shiftr d0 44) in let h0 := Z.land (wrap 64 d0) 0xfffffffffff in
  let d1 := wadd 128 d1 c in
  let c := wrap 64 (Z.shiftr d1 44) in let h1 := Z.land (wrap 64 d1) 0xfffffffffff in
  let d2 := wadd 128 d2 c in
  let c := wrap 64 (Z.shiftr d2 42) in let h2 := Z.land (wrap 64 d2) 0x3ffffffffff in
  let h0 := wadd 64 h0 (wmul 64 c 5) in
  let c := Z.shiftr h0 44 in let h0 := Z.land h0 0xfffffffffff in
  let h1 := wadd 64 h1 c in
  (h0, h1, h2).

(** The body of the loop, after the loads: h += m[i], and the multiplication. *)
Definition block (r : limbs) (hibit t0 t1 : Z) (h : limbs) : limbs :=
  let '(h0, h1, h2) := h in
  mul_mod r
    (wadd 64 h0 (Z.land t0 0xfffffffffff),
     wadd 64 h1 (Z.land (Z.lor (Z.shiftr t0 44) (wshl 64 t1 20)) 0xfffffffffff),
     wadd 64 h2 (Z.lor (Z.land (Z.shiftr t1 24) 0x3ffffffffff) hibit)).

Definition step (r : limbs) (hibit : Z) (m : bytes) (h : limbs) : cres limbs :=
  t0 ← U8TO64 m 0;
  t1 ← U8TO64 m 8;
  Ok (block r hibit t0 t1 h).

Definition blocks (st : poly_state limbs pads) (m : bytes) (n : Z) : cres (poly_state limbs pads) :=
  let hibit := if negb (st_final st =? 0) then 0 else wshl 64 1 40 in
  h ← while_blocks (step (st_r st) hibit) (rounds n) m n (st_h st);
  Ok (PolyState (st_r st) h (st_pad st) (st_leftover st) (st_buffer st) (st_final st)).

(** Fully carry h. *)
Definition carry (h : limbs) : limbs :=
  let '(h0, h1, h2) := h in
  let c := Z.shiftr h1 44 in let h1 := Z.land h1 0xfffffffffff in
  let h2 := wadd 64 h2 c in let c := Z.shiftr h2 42 in let h2 := Z.land h2 0x3ffffffffff in
  let h0 := wadd 64 h0 (wmul 64 c 5) in let c := Z.shiftr h0 44 in let h0 := Z.land h0 0xfffffffffff in
  let h1 := wadd 64 h1 c in let c := Z.shiftr h1 44 in let h1 := Z.land h1 0xfffffffffff in
  let h2 := wadd 64 h2 c in let c := Z.shiftr h2 42 in let h2 := Z.land h2 0x3ffffffffff in
  let h0 := wadd 64 h0 (wmul 64 c 5) in let c := Z.shiftr h0 44 in let h0 := Z.land h0 0xfffffffffff in
  let h1 := wadd 64 h1 c in
  (h0, h1, h2).

(** Compute h + -p, and select h if h < p, or h + -p if h >= p. *)
Definition reduce (h : limbs) : limbs :=
  let '(h0, h1, h2) := h in
  let g0 := wadd 64 h0 5 in let c := Z.shiftr g0 44 in let g0 := Z.land g0 0xfffffffffff in
  let g1 := wadd 64 h1 c in let c := Z.shiftr g1 44 in let g1 := Z.land g1 0xfffffffffff in
  let g2 := wsub 64 (wadd 64 h2 c) (wshl 64 1 42) in
  let c := wsub 64 (Z.shiftr g2 63) 1 in
  let g0 := Z.land g0 c in
  let g1 := Z.land g1 c in
  let g2 := Z.land g2 c in
  let c := wnot 64 c in
  (Z.lor (Z.land h0 c) g0, Z.lor (Z.land h1 c) g1, Z.lor (Z.land h2 c) g2).

(** h = (h + pad), and the code is h mod 2^128. *)
Definition add_pad (h : limbs) (pad : pads) : bytes :=
  let '(h0, h1, h2) := h in
  let '(t0, t1) := pad in
  let h0 := wadd 64 h0 (Z.land t0 0xfffffffffff) in
  let c := Z.shiftr h0 44 in let h0 := Z.land h0 0xfffffffffff in
  let h1 := wadd 64 h1 (wadd 64 (Z.land (Z.lor (Z.shiftr t0 44) (wshl 64 t1 20)) 0xfffffffffff) c) in
  let c := Z.shiftr h1 44 in let h1 := Z.land h1 0xfffffffffff in
  let h2 := wadd 64 h2 (wadd 64 (Z.land (Z.shiftr t1 24) 0x3ffffffffff) c) in
  let h2 := Z.land h2 0x3ffffffffff in
  let m0 := Z.lor h0 (wshl 64 h1 44) in
  let m1 := Z.lor (Z.shiftr h1 20) (wshl 64 h2 24) in
  U64TO8 m0 ++ U64TO8 m1.

Definition finish (st : poly_state limbs pads) : cres (bytes * poly_state limbs pads) :=
  st ← (if negb (st_leftover st =? 0) then
          b ← pad_buffer (st_leftover st) (st_buffer st);
          blocks (PolyState (st_r st) (st_h st) (st_pad st) (st_leftover st) b 1) b poly1305_block_size
        else Ok st);
  Ok (add_pad (reduce (carry (st_h st))) (st_pad st),
      PolyState (0, 0, 0) (0, 0, 0) (0, 0) (st_leftover st) (st_buffer st) (st_final st)).

End P64.

#[export] Instance poly64 : Poly P64.limbs P64.pads := {
  poly1305_init := P64.init; poly1305_blocks := P64.blocks; poly1305_finish := P64.finish;
}.

(** ** The portable implementation *)

Module P32.

Definition limbs : Type := Z * Z * Z * Z * Z.
Definition pads : Type := Z * Z * Z * Z.

Section word.
(** The width of [unsigned long]. *)
Context (W : Z).

Definition U8TO32 (p : bytes) (off : Z) : cres Z :=
  d ← mem_read off 4 p;
  match d with
  | [p0; p1; p2; p3] =>
      Ok (Z.lor (Z.lor (Z.lor (Z.land p0 0xff) (wshl W (Z.land p1 0xff) 8)) (wshl W (Z.land p2 0xff) 16))
            (wshl W (Z.land p3 0xff) 24))
  | _ => Undef OutOfBounds
  end.

Definition U32TO8 (v : Z) : bytes := map (λ k, Z.land (Z.shiftr v k) 0xff) [0; 8; 16; 24].

Definition init (junk key : bytes) : cres (poly_state limbs pads) :=
  k0 ← U8TO32 key 0; k3 ← U8TO32 key 3; k6 ← U8TO32 key 6; k9 ← U8TO32 key 9; k12 ← U8TO32 key 12;
  let r0 := Z.land k0 0x3ffffff in
  let r1 := Z.land (Z.shiftr k3 2) 0x3ffff03 in
  let r2 := Z.land (Z.shiftr k6 4) 0x3ffc0ff in
  let r3 := Z.land (Z.shiftr k9 6) 0x3f03fff in
  let r4 := Z.land (Z.shiftr k12 8) 0x00fffff in
  pad0 ← U8TO32 key 16; pad1 ← U8TO32 key 20; pad2 ← U8TO32 key 24; pad3 ← U8TO32 key 28;
  Ok (PolyState (r0, r1, r2, r3, r4) (0, 0, 0, 0, 0) (pad0, pad1, pad2, pad3) 0 junk 0).

(** The five words of a block as they are added to the limbs. *)
Definition words (hibit : Z) (m : bytes) : cres limbs :=
  m0 ← U8TO32 m 0; m3 ← U8TO32 m 3; m6 ← U8TO32 m 6; m9 ← U8TO32 m 9; m12 ← U8TO32 m 12;
  Ok (Z.land m0 0x3ffffff, Z.land (Z.shiftr m3 2) 0x3ffffff, Z.land (Z.shiftr m6 4) 0x3ffffff,
      Z.land (Z.shiftr m9 6) 0x3ffffff, Z.lor (Z.shiftr m12 8) hibit).

(** A sum of five products in [unsigned long long]. *)
Definition dot (a b c d e : Z * Z) : Z :=
  wadd 64 (wadd 64 (wadd 64 (wadd 64 (wmul 64 a.1 a.2) (wmul 64 b.1 b.2)) (wmul 64 c.1 c.2))
             (wmul 64 d.1 d.2)) (wmul 64 e.1 e.2).

(** h *= r, and (partial) h %= p. *)
Definition mul_mod (r h : limbs) : limbs :=
  let '(r0, r1, r2, r3, r4) := r in
  let '(h0, h1, h2, h3, h4) := h in
  let s1 := wmul W r1 5 in let s2 := wmul W r2 5 in let s3 := wmul W r3 5 in let s4 := wmul W r4 5 in
  let d0 := dot (h0, r0) (h1, s4) (h2, s3) (h3, s2) (h4, s1) in
  let d1 := dot (h0, r1) (h1, r0) (h2, s4) (h3, s3) (h4, s2) in
  let d2 := dot (h0, r2) (h1, r1) (h2, r0) (h3, s4) (h4, s3) in
  let d3 := dot (h0, r3) (h1, r2) (h2, r1) (h3, r0) (h4, s4) in
  let d4 := dot (h0, r4) (h1, r3) (h2, r2) (h3, r1) (h4, r0) in
  let c := wrap W (Z.shiftr d0 26) in let h0 := Z.land (wrap W d0) 0x3ffffff in
  let d1 := wadd 64 d1 c in let c := wrap W (Z.shiftr d1 26) in let h1 := Z.land (wrap W d1) 0x3ffffff in
  let d2 := wadd 64 d2 c in let c := wrap W (Z.shiftr d2 26) in let h2 := Z.land (wrap W d2) 0x3ffffff in
  let d3 := wadd 64 d3 c in let c := wrap W (Z.shiftr d3 26) in let h3 := Z.land (wrap W d3) 0x3ffffff in
  let d4 := wadd 64 d4 c in let c := wrap W (Z.shiftr d4 26) in let h4 := Z.land (wrap W d4) 0x3ffffff in
  let h0 := wadd W h0 (wmul W c 5) in let c := Z.shiftr h0 26 in let h0 := Z.land h0 0x3ffffff in
  let h1 := wadd W h1 c in
  (h0, h1, h2, h3, h4).

(** h += m[i], and the multiplication. *)
Definition block (r w h : limbs) : limbs :=
  let '(w0, w1, w2, w3, w4) := w in
  let '(h0, h1, h2, h3, h4) := h in
  mul_mod r (wadd W h0 w0, wadd W h1 w1, wadd W h2 w2, wadd W h3 w3, wadd W h4 w4).

Definition step (r : limbs) (hibit : Z) (m : bytes) (h : limbs) : cres limbs :=
  w ← words hibit m; Ok (block r w h).

Definition blocks (st : poly_state limbs pads) (m : bytes) (n : Z) : cres (poly_state limbs pads) :=
  let hibit := if negb (st_final st =? 0) then 0 else Z.shiftl 1 24 in
  h ← while_blocks (step (st_r st) hibit) (rounds n) m n (st_h st);
  Ok (PolyState (st_r st) h (st_pad st) (st_leftover st) (st_buffer st) (st_final st)).

(** Fully carry h. *)
Definition carry (h : limbs) : limbs :=
  let '(h0, h1, h2, h3, h4) := h in
  let c := Z.shiftr h1 26 in let h1 := Z.land h1 0x3ffffff in
  let h2 := wadd W h2 c in let c := Z.shiftr h2 26 in let h2 := Z.land h2 0x3ffffff in
  let h3 := wadd W h3 c in let c := Z.shiftr h3 26 in let h3 := Z.land h3 0x3ffffff in
  let h4 := wadd W h4 c in let c := Z.shiftr h4 26 in let h4 := Z.land h4 0x3ffffff in
  let h0 := wadd W h0 (wmul W c 5) in let c := Z.shiftr h0 26 in let h0 := Z.land h0 0x3ffffff in
  let h1 := wadd W h1 c in
  (h0, h1, h2, h3, h4).

(** Compute h + -p, and select h if h < p, or h + -p if h >= p. *)
Definition reduce (h : limbs) : limbs :=
  let '(h0, h1, h2, h3, h4) := h in
  let g0 := wadd W h0 5 in let c := Z.shiftr g0 26 in let g0 := Z.land g0 0x3ffffff in
  let g1 := wadd W h1 c in let c := Z.shiftr g1 26 in let g1 := Z.land g1 0x3ffffff in
  let g2 := wadd W h2 c in let c := Z.shiftr g2 26 in let g2 := Z.land g2 0x3ffffff in
  let g3 := wadd W h3 c in let c := Z.shiftr g3 26 in let g3 := Z.land g3 0x3ffffff in
  let g4 := wsub W (wadd W h4 c) (Z.shiftl 1 26) in
  let mask := wsub W (Z.shiftr g4 (W - 1)) 1 in
  let g0 := Z.land g0 mask in let g1 := Z.land g1 mask in let g2 := Z.land g2 mask in
  let g3 := Z.land g3 mask in let g4 := Z.land g4 mask in
  let mask := wnot W mask in
  (Z.lor (Z.land h0 mask) g0, Z.lor (Z.land h1 mask) g1, Z.lor (Z.land h2 mask) g2,
   Z.lor (Z.land h3 mask) g3, Z.lor (Z.land h4 mask) g4).

(** h = h mod 2^128, and the code is (h + pad) mod 2^128. *)
Definition add_pad (h : limbs) (pad : pads) : bytes :=
  let '(h0, h1, h2, h3, h4) := h in
  let '(p0, p1, p2, p3) := pad in
  let m0 := Z.land (Z.lor h0 (wshl W h1 26)) 0xffffffff in
  let m1 := Z.land (Z.lor (Z.shiftr h1 6) (wshl W h2 20)) 0xffffffff in
  let m2 := Z.land (Z.lor (Z.shiftr h2 12) (wshl W h3 14)) 0xffffffff in
  let m3 := Z.land (Z.lor (Z.shiftr h3 18) (wshl W h4 8)) 0xffffffff in
  let f := wadd 64 m0 p0 in let m0 := wrap W f in
  let f := wadd 64 (wadd 64 m1 p1) (Z.shiftr f 32) in let m1 := wrap W f in
  let f := wadd 64 (wadd 64 m2 p2) (Z.shiftr f 32) in let m2 := wrap W f in
  let f := wadd 64 (wadd 64 m3 p3) (Z.shiftr f 32) in let m3 := wrap W f in
  U32TO8 m0 ++ U32TO8 m1 ++ U32TO8 m2 ++ U32TO8 m3.

Definition finish (st : poly_state limbs pads) : cres (bytes * poly_state limbs pads) :=
  st ← (if negb (st_leftover st =? 0) then
          b ← pad_buffer (st_leftover st) (st_buffer st);
          blocks (PolyState (st_r st) (st_h st) (st_pad st) (st_leftover st) b 1) b poly1305_block_size
        else Ok st);
  Ok (add_pad (reduce (carry (st_h st))) (st_pad st),
      PolyState (0, 0, 0, 0, 0) (0, 0, 0, 0, 0) (0, 0, 0, 0) (st_leftover st) (st_buffer st) (st_final st)).

End word.
End P32.

(** The instance for a width of [unsigned long]. *)
Definition poly32 (W : Z) : Poly P32.limbs P32.pads := {|
  poly1305_init := P32.init W; poly1305_blocks := P32.blocks W; poly1305_finish := P32.finish W;
|}.

(** ** What is common to both *)

Section common.
Context {L P : Type} `{Poly L P}.

(** The second half of [poly1305_update]: process full blocks, store leftover. *)
Definition update_rest (st : poly_state L P) (m : bytes) (n : Z) : cres (poly_state L P) :=
  '(st, m, n) ←
    (if poly1305_block_size <=? n then
       let want := Z.land n (Z.lnot (poly1305_block_size - 1)) in
       st ← poly1305_blocks st m want;
       Ok (st, drop (Z.to_nat want) m, n - want)
     else Ok (st, m, n));
  if n =? 0 then Ok st
  else
    d ← mem_read 0 n m;
    b ← mem_write (st_leftover st) d (st_buffer st);
    Ok (PolyState (st_r st) (st_h st) (st_pad st) (st_leftover st + n) b (st_final st)).

Definition poly1305_update (st : poly_state L P) (m : bytes) (n : Z) : cres (poly_state L P) :=
  if st_leftover st =? 0 then update_rest st m n
  else
    (* handle leftover *)
    let want := poly1305_block_size - st_leftover st in
    let want := if n <? want then n else want in
    d ← mem_read 0 want m;
    b ← mem_write (st_leftover st) d (st_buffer st);
    let n := n - want in
    let m := drop (Z.to_nat want) m in
    let left := st_leftover st + want in
    let st := PolyState (st_r st) (st_h st) (st_pad st) left b (st_final st) in
    if left <? poly1305_block_size then Ok st
    else
      st ← poly1305_blocks st b poly1305_block_size;
      update_rest (PolyState (st_r st) (st_h st) (st_pad st) 0 (st_buffer st) (st_final st)) m n.

(** [Poly1305::compute]: the 16 bytes of the code. *)
Definition compute (junk data : bytes) (len : Z) (key : bytes) : cres bytes :=
  ctx ← poly1305_init junk key;
  ctx ← poly1305_update ctx data len;
  '(mac, _) ← poly1305_finish ctx;
  Ok mac.

End common.

(** ** Poly1305 by definition *)

Definition P1305 : Z := 2 ^ 130 - 5.

(** The message in blocks of 16 bytes, the last one possibly shorter. *)
Definition chunks (m : bytes) : list bytes :=
  (λ i, take 16 (drop (16 * i) m)) <$> seq 0 (Nat.div (length m + 15) 16).

(** The clamped first half of the key, and the second half. *)
Definition key_r (key : bytes) : Z := Z.land (le_val (take 16 key)) 0xffffffc0ffffffc0ffffffc0fffffff.
Definition key_s (key : bytes) : Z := le_val (take 16 (drop 16 key)).

Definition poly_eval (r : Z) (bs : list bytes) : Z :=
  fold_left (λ a b, (a + le_val (b ++ [1])) * r mod P1305) bs 0.

Definition poly1305 (m key : bytes) : bytes :=
  le_bytes 16 (poly_eval (key_r key) (chunks m) + key_s key).

(** ** The blocks of a message *)

Lemma chunks_nil : chunks [] = [].
Proof. done. Qed.

Lemma chunks_cons m : (16 <= length m)%nat → chunks m = take 16 m :: chunks (drop 16 m).
Proof.
  intros Hm. unfold chunks. rewrite length_drop.
  replace (Nat.div (length m + 15) 16) with (S (Nat.div (length m - 16 + 15) 16)).
  2: { replace (length m + 15)%nat with (length m - 16 + 15 + 1 * 16)%nat by lia. rewrite Nat.div_add by lia. lia. }
  cbn [seq fmap list_fmap]. f_equal. rewrite <- seq_shift, <- list_fmap_compose. apply list_fmap_ext.
  intros i x _. cbn. rewrite drop_drop. do 2 f_equal. lia.
Qed.

Lemma chunks_short m : m ≠ [] → (length m <= 16)%nat → chunks m = [m].
Proof.
  intros Hne Hm. unfold chunks. destruct m as [|x m]; [done|]. cbn [length] in *.
  replace (Nat.div (S (length m) + 15) 16) with 1%nat.
  - cbn. f_equal. f_equal. apply take_ge. lia.
  - apply (Nat.div_unique _ _ _ (length m)); lia.
Qed.

Lemma chunks_app a b k : length a = (16 * k)%nat → chunks (a ++ b) = chunks a ++ chunks b.
Proof.
  revert a. induction k as [|k IH]; intros a Ha.
  - destruct a; [done|cbn in Ha; lia].
  - rewrite (chunks_cons (a ++ b)), (chunks_cons a) by (rewrite ?length_app; lia).
    rewrite take_app_le, drop_app_le by lia. cbn [app]. f_equal. apply IH. rewrite length_drop. lia.
Qed.

(** What absorbing blocks does to an accumulator. *)
Definition absorb (r : Z) (bs : list bytes) (a : Z) : Z :=
  fold_left (λ a b, (a + le_val (b ++ [1])) * r mod P1305) bs a.

Lemma absorb_mod r bs a a' : a mod P1305 = a' mod P1305 → absorb r bs a mod P1305 = absorb r bs a' mod P1305.
Proof.
  revert a a'. unfold absorb. induction bs as [|b bs IH]; intros a a' E; cbn [fold_left]; [done|].
  apply IH. rewrite !Z.mod_mod by done. rewrite (Z.mul_mod (a + _)), (Z.mul_mod (a' + _)) by done.
  rewrite (Z.add_mod a), (Z.add_mod a'), E by done. done.
Qed.

Lemma absorb_range r bs a : 0 <= a < P1305 → 0 <= absorb r bs a < P1305.
Proof.
  revert a. unfold absorb. induction bs as [|b bs IH]; intros a Ha; cbn [fold_left]; [done|].
  apply IH. by apply Z.mod_pos_bound.
Qed.

Lemma le_val_zeros b n : le_val (b ++ memset n 0) = le_val b.
Proof.
  rewrite le_val_app. assert (le_val (memset n 0) = 0) as ->; [|lia].
  unfold memset. generalize (Z.to_nat n). intros k. induction k as [|k IH]; cbn [replicate le_val]; lia.
Qed.

Lemma le_val_mark b : le_val (b ++ [1]) = le_val b + 256 ^ zlen b.
Proof. rewrite le_val_app. cbn [le_val]. lia. Qed.

(** ** The loop *)

Section loop.
Context {L : Type} (step : bytes → L → cres L) (ok : L → Prop) (eval : L → Z) (r hb : Z).
Context (Hstep : ∀ m h, bytes_ok m → 16 <= zlen m → ok h →
  ∃ h', step m h = Ok h' ∧ ok h' ∧ ∃ k, eval h' = (eval h + le_val (take 16 m) + hb) * r - k * P1305).

Lemma step_mod m h :
  bytes_ok m → 16 <= zlen m → ok h →
  ∃ h', step m h = Ok h' ∧ ok h' ∧ eval h' mod P1305 = (eval h + le_val (take 16 m) + hb) * r mod P1305.
Proof.
  intros Hm Hl Hh. destruct (Hstep m h Hm Hl Hh) as (h' & E & Hok & k & Hev). exists h'. split_and!; [done..|].
  rewrite Hev. replace (_ - k * P1305) with ((eval h + le_val (take 16 m) + hb) * r + (- k) * P1305) by lia.
  by rewrite Z.mod_add by done.
Qed.

Lemma while_blocks_spec (k : nat) m h :
  hb = 2 ^ 128 → bytes_ok m → 16 * Z.of_nat k <= zlen m → ok h →
  ∃ h', while_blocks step k m (16 * Z.of_nat k) h = Ok h' ∧ ok h'
    ∧ eval h' mod P1305 = absorb r (chunks (take (16 * k) m)) (eval h) mod P1305.
Proof.
  intros Hhb. revert m h. induction k as [|k IH]; intros m h Hm Hl Hh.
  { exists h. by rewrite Nat.mul_0_r, take_0, chunks_nil. }
  destruct (step_mod m h Hm ltac:(lia) Hh) as (h1 & E & Hok & Hev).
  cbn [while_blocks]. unfold poly1305_block_size. rewrite (proj2 (Z.leb_le _ _)) by lia. rewrite E.
  unfold mbind at 1, cres_bind at 1. replace (16 * Z.of_nat (S k) - 16) with (16 * Z.of_nat k) by lia.
  change (Z.to_nat 16) with 16%nat.
  destruct (IH (drop 16 m) h1) as (h' & E' & Hok' & Hev');
    [by apply Forall_drop|unfold zlen in *; rewrite length_drop; lia|done|].
  exists h'. split_and!; [done..|]. rewrite Hev'. unfold zlen in Hl.
  rewrite (chunks_cons (take (16 * S k) m)) by (rewrite length_take; lia).
  rewrite take_take, Nat.min_l, skipn_firstn_comm by lia. replace (16 * S k - 16)%nat with (16 * k)%nat by lia.
  unfold absorb at 2. cbn [fold_left]. apply absorb_mod. rewrite Hev, Z.mod_mod, le_val_mark, Hhb by done.
  unfold zlen. rewrite length_take, Nat.min_l by lia. by rewrite Z.add_assoc.
Qed.
End loop.

(** ** What an implementation promises *)

Definition key_ok (key : bytes) : Prop := bytes_ok key ∧ zlen key = ZT_POLY1305_KEY_LEN.

Definition with_h {L P} (st : poly_state L P) (h : L) : poly_state L P :=
  PolyState (st_r st) h (st_pad st) (st_leftover st) (st_buffer st) (st_final st).

Class PolyLaws (L P : Type) `{Poly L P} := {
  pl_eval : L → Z;
  pl_ok : L → Prop;
  pl_zero : L;
  pl_r : bytes → L;
  pl_pad : bytes → P;
  pl_zero_ok : pl_ok pl_zero ∧ pl_eval pl_zero = 0;
  pl_init junk key : key_ok key →
    poly1305_init junk key = Ok (PolyState (pl_r key) pl_zero (pl_pad key) 0 junk 0);
  pl_blocks key st m (k : nat) :
    key_ok key → st_r st = pl_r key → st_final st = 0 → pl_ok (st_h st) → bytes_ok m → 16 * Z.of_nat k <= zlen m →
    ∃ h', poly1305_blocks st m (16 * Z.of_nat k) = Ok (with_h st h') ∧ pl_ok h'
      ∧ pl_eval h' mod P1305 = absorb (key_r key) (chunks (take (16 * k) m)) (pl_eval (st_h st)) mod P1305;
  pl_finish key st rest tail :
    key_ok key → st_r st = pl_r key → st_pad st = pl_pad key → st_final st = 0 → pl_ok (st_h st) →
    st_buffer st = rest ++ tail → zlen (st_buffer st) = 16 → zlen rest < 16 → st_leftover st = zlen rest → bytes_ok rest →
    ∃ st', poly1305_finish st
      = Ok (le_bytes 16 (absorb (key_r key) (chunks rest) (pl_eval (st_h st)) mod P1305 + key_s key), st');
}.

Section implementation.
Context {L P : Type} `{PolyLaws L P} (key : bytes) (Hkey : key_ok key).

(** The state after [msg]: full blocks are in the accumulator, the rest is in the
    buffer. *)
Definition absorbed (msg : bytes) (st : poly_state L P) : Prop :=
  ∃ full rest tail k, msg = full ++ rest ∧ length full = (16 * k)%nat ∧ zlen rest < 16
  ∧ st_r st = pl_r key ∧ st_pad st = pl_pad key ∧ st_final st = 0 ∧ st_leftover st = zlen rest
  ∧ st_buffer st = rest ++ tail ∧ zlen (st_buffer st) = 16 ∧ bytes_ok msg ∧ pl_ok (st_h st)
  ∧ pl_eval (st_h st) mod P1305 = absorb (key_r key) (chunks full) 0 mod P1305.

Lemma absorbed_init junk :
  zlen junk = 16 → ∃ st, poly1305_init junk key = Ok st ∧ absorbed [] st.
Proof.
  intros Hj. rewrite pl_init by done. eexists. split; [done|]. exists [], [], junk, 0%nat.
  destruct pl_zero_ok as [Hz Hz0]. split_and!; try done; [constructor|]. cbn. by rewrite Hz0.
Qed.

(** One pass over full blocks. *)
Lemma absorbed_blocks msg st m (k : nat) :
  absorbed msg st → st_leftover st = 0 → bytes_ok m → 16 * Z.of_nat k <= zlen m →
  ∃ h', poly1305_blocks st m (16 * Z.of_nat k) = Ok (with_h st h') ∧ absorbed (msg ++ take (16 * k) m) (with_h st h').
Proof.
  intros (full & rest & tail & j & -> & Hf & Hr & Er & Ep & Efin & El & Eb & Hb & Hm & Hok & Hev) Hl0 Hbm Hle.
  rewrite El in Hl0. assert (rest = []) as -> by (destruct rest; [done|unfold zlen in Hl0; cbn in Hl0; lia]).
  rewrite app_nil_r in *. destruct (pl_blocks key st m k) as (h' & E & Hok' & Hev'); [done..|].
  exists h'. split; [done|]. exists (full ++ take (16 * k) m), [], (st_buffer st), (j + k)%nat.
  unfold zlen in Hle. rewrite app_nil_r. split_and!; try done.
  - rewrite length_app, length_take. lia.
  - apply Forall_app. split; [done|]. by apply Forall_take.
  - cbn [st_h with_h]. rewrite Hev', (chunks_app _ _ j) by done. unfold absorb at 2. rewrite fold_left_app.
    by apply absorb_mod.
Qed.

(** Bytes that go to the buffer only. *)
Lemma absorbed_store msg st m (n : Z) :
  absorbed msg st → bytes_ok m → 0 <= n <= zlen m → st_leftover st + n < 16 →
  ∃ d b, mem_read 0 n m = Ok d ∧ mem_write (st_leftover st) d (st_buffer st) = Ok b
    ∧ absorbed (msg ++ take (Z.to_nat n) m)
        (PolyState (st_r st) (st_h st) (st_pad st) (st_leftover st + n) b (st_final st)).
Proof.
  intros (full & rest & tail & j & -> & Hf & Hr & Er & Ep & Efin & El & Eb & Hb & Hm & Hok & Hev) Hbm Hn Hlt.
  rewrite mem_read_ok, drop_0 by lia. set (d := take (Z.to_nat n) m).
  assert (zlen d = n) as Hd by (unfold d; rewrite zlen_take; lia).
  rewrite Eb, zlen_app in Hb. pose proof (zlen_nonneg rest).
  exists d. rewrite Eb, El. destruct (bytes_split n tail) as (t1 & t2 & -> & Ht1); [lia|].
  rewrite (mem_write_seg rest t1 d t2) by lia. eexists. split; [done|]. split; [done|].
  exists full, (rest ++ d), t2, j. rewrite <- !app_assoc. cbn [st_r st_h st_pad st_leftover st_buffer st_final].
  rewrite !zlen_app in *. split_and!; try done; try lia.
  rewrite app_assoc. apply Forall_app. split; [done|]. by apply Forall_take.
Qed.

Lemma land_lnot_15 n : Z.land n (Z.lnot 15) = 16 * (n / 16).
Proof.
  change 15 with (Z.ones 4). rewrite <- Z.ldiff_land, Z.ldiff_ones_r, Z.shiftl_mul_pow2, Z.shiftr_div_pow2 by lia.
  change (2 ^ 4) with 16. lia.
Qed.

Lemma absorbed_rest msg st m n :
  absorbed msg st → st_leftover st = 0 → bytes_ok m → 0 <= n <= zlen m →
  ∃ st', update_rest st m n = Ok st' ∧ absorbed (msg ++ take (Z.to_nat n) m) st'.
Proof.
  intros Ha Hl Hm Hn. unfold update_rest, poly1305_block_size. change (16 - 1) with 15. rewrite land_lnot_15.
  pose proof (Z.div_mod n 16 ltac:(done)). pose proof (Z.mod_pos_bound n 16 ltac:(done)).
  assert (0 <= n / 16) by (apply Z.div_pos; lia). set (k := Z.to_nat (n / 16)). assert (n / 16 = Z.of_nat k) as Hk by lia.
  assert (∃ st1, (if 16 <=? n then st ← poly1305_blocks st m (16 * (n / 16)); Ok (st, drop (Z.to_nat (16 * (n / 16))) m, n - 16 * (n / 16))
      else Ok (st, m, n)) = Ok (st1, drop (16 * k) m, n - 16 * (n / 16))
      ∧ absorbed (msg ++ take (16 * k) m) st1 ∧ st_leftover st1 = 0) as (st1 & -> & Ha1 & Hl1).
  { destruct (Z.leb_spec 16 n).
    - destruct (absorbed_blocks msg st m k) as (h' & E & Ha'); [done..|lia|]. rewrite Hk, E.
      exists (with_h st h'). split; [|done]. cbn. do 4 f_equal. lia.
    - assert (n / 16 = 0) as Hz by lia. exists st. replace k with 0%nat by lia.
      rewrite Hz, Nat.mul_0_r, drop_0, take_0, app_nil_r, Z.mul_0_r, Z.sub_0_r. done. }
  unfold mbind at 1, cres_bind at 1. cbn beta iota. replace (n - 16 * (n / 16)) with (n mod 16) by lia.
  assert (take (Z.to_nat n) m = take (16 * k) m ++ take (Z.to_nat (n mod 16)) (drop (16 * k) m)) as Ht.
  { rewrite take_take_drop. f_equal. lia. }
  destruct (Z.eqb_spec (n mod 16) 0) as [E|Hne].
  - exists st1. split; [done|]. by rewrite Ht, E, take_0, app_nil_r.
  - destruct (absorbed_store (msg ++ take (16 * k) m) st1 (drop (16 * k) m) (n mod 16)) as (d & b & -> & E & Ha2).
    + done.
    + by apply Forall_drop.
    + unfold zlen in *. rewrite length_drop. lia.
    + lia.
    + unfold mbind, cres_bind. rewrite E. eexists. split; [done|]. by rewrite Ht, app_assoc.
Qed.

Lemma absorbed_update msg st m n :
  absorbed msg st → bytes_ok m → 0 <= n <= zlen m →
  ∃ st', poly1305_update st m n = Ok st' ∧ absorbed (msg ++ take (Z.to_nat n) m) st'.
Proof.
  intros Ha Hm Hn. unfold poly1305_update, poly1305_block_size.
  destruct (Z.eqb_spec (st_leftover st) 0) as [E|Hne]; [by apply absorbed_rest|].
  destruct (Z.ltb_spec n (16 - st_leftover st)) as [Hlt|Hge].
  - destruct (absorbed_store msg st m n) as (d & b & -> & E & Ha'); [done..|lia|].
    unfold mbind, cres_bind. rewrite E. rewrite (proj2 (Z.ltb_lt _ _)) by lia. by eexists.
  - destruct Ha as (full & rest & tail & j & -> & Hf & Hr & Er & Ep & Efin & El & Eb & Hb & Hmm & Hok & Hev).
    set (want := 16 - st_leftover st) in *. rewrite mem_read_ok, drop_0 by lia. set (d := take (Z.to_nat want) m).
    assert (zlen d = want) as Hd by (unfold d; rewrite zlen_take; lia).
    rewrite Eb, zlen_app in Hb. unfold mbind at 1, cres_bind at 1.
    assert (mem_write (st_leftover st) d (st_buffer st) = Ok (rest ++ d)) as ->.
    { rewrite Eb, El, <- (app_nil_r tail), (mem_write_seg rest tail d []), app_nil_r by lia. done. }
    unfold mbind at 1, cres_bind at 1. rewrite (proj2 (Z.ltb_ge _ _)) by lia. set (st0 := PolyState _ _ _ _ _ _).
    apply Forall_app in Hmm as [Hfull Hrest].
    assert (bytes_ok d) as Hdok by by apply Forall_take.
    destruct (pl_blocks key st0 (rest ++ d) 1) as (h' & E & Hok' & Hev'); try done.
    { by apply Forall_app. } { rewrite zlen_app. lia. }
    change (16 * Z.of_nat 1) with 16 in E. rewrite E. unfold mbind at 1, cres_bind at 1.
    rewrite take_ge in Hev' by (rewrite length_app; unfold zlen in *; lia).
    assert (take (Z.to_nat n) m = d ++ take (Z.to_nat (n - want)) (drop (Z.to_nat want) m)) as ->.
    { unfold d. rewrite take_take_drop. f_equal. lia. }
    rewrite app_assoc. apply absorbed_rest; [|done|by apply Forall_drop|rewrite zlen_drop; lia].
    exists (full ++ rest ++ d), [], (rest ++ d), (S j). rewrite !app_nil_r, <- !app_assoc.
    split_and!; try done.
    + rewrite !length_app. unfold zlen in *. lia.
    + cbn. rewrite zlen_app. lia.
    + by repeat (apply Forall_app; split).
    + cbn [st_h with_h]. rewrite Hev', (chunks_app full _ j) by done. unfold absorb at 2. rewrite fold_left_app.
      by apply absorb_mod.
Qed.

Lemma absorbed_finish msg st :
  absorbed msg st → ∃ st', poly1305_finish st = Ok (poly1305 msg key, st').
Proof.
  intros (full & rest & tail & j & -> & Hf & Hr & Er & Ep & Efin & El & Eb & Hb & Hmm & Hok & Hev).
  apply Forall_app in Hmm as [Hfull Hrest].
  destruct (pl_finish key st rest tail) as (st' & ->); [done..|]. exists st'. unfold poly1305.
  rewrite (absorb_mod _ _ _ _ Hev), (chunks_app full _ j) by done. unfold poly_eval. rewrite fold_left_app.
  rewrite Z.mod_small; [done|]. by apply absorb_range, absorb_range.
Qed.

(** The whole message in any number of calls of [poly1305_update]. *)
Lemma absorbed_updates parts : ∀ msg st,
  absorbed msg st → Forall bytes_ok parts →
  ∃ st', foldl (λ r m, st ← r; poly1305_update st m (zlen m)) (Ok st) parts = Ok st' ∧ absorbed (msg ++ concat parts) st'.
Proof.
  induction parts as [|m parts IH]; intros msg st Ha Hp; cbn [foldl concat].
  - exists st. by rewrite app_nil_r.
  - apply list.Forall_cons in Hp as [Hm Hp].
    destruct (absorbed_update msg st m (zlen m)) as (st1 & E & Ha1); [done..|pose proof (zlen_nonneg m); lia|].
    unfold mbind at 2, cres_bind at 2. rewrite E, app_assoc.
    unfold zlen in Ha1. rewrite Nat2Z.id, take_ge in Ha1 by done. by apply IH.
Qed.

Lemma compute_correct junk data len :
  zlen junk = 16 → bytes_ok data → 0 <= len <= zlen data →
  compute junk data len key = Ok (poly1305 (take (Z.to_nat len) data) key).
Proof.
  intros Hj Hd Hl. unfold compute. destruct (absorbed_init junk Hj) as (st & -> & Ha).
  destruct (absorbed_update [] st data len) as (st1 & E1 & Ha1); [done..|].
  destruct (absorbed_finish _ _ Ha1) as (st2 & E2). unfold mbind, cres_bind. by rewrite E1, E2.
Qed.
End implementation.

(** The last block: what is left of the message, a byte 1 and zeros. *)
Lemma pad_buffer_rest rest tail :
  zlen (rest ++ tail) = 16 → zlen rest < 16 →
  ∃ b, pad_buffer (zlen rest) (rest ++ tail) = Ok b ∧ zlen b = 16 ∧ le_val b = le_val (rest ++ [1])
    ∧ (bytes_ok rest → bytes_ok b).
Proof.
  intros Hl Hr. unfold pad_buffer, poly1305_block_size. rewrite zlen_app in Hl.
  pose proof (zlen_nonneg rest). rewrite <- (app_nil_r tail).
  rewrite (mem_write_seg rest tail _ []) by (done || (rewrite zlen_cons, zlen_memset; lia)). rewrite app_nil_r.
  eexists. split; [done|]. split_and!.
  - rewrite zlen_app, zlen_cons, zlen_memset by lia. lia.
  - change (1 :: ?z) with ([1] ++ z). rewrite app_assoc. apply le_val_zeros.
  - intros Hok. apply Forall_app. split; [done|]. constructor; [done|]. by apply Forall_replicate.
Qed.

Lemma while_one {L} (step : bytes → L → cres L) b h : while_blocks step 1 b 16 h = step b h.
Proof. cbn. by destruct (step b h). Qed.

Lemma absorb_short r rest a :
  zlen rest < 16 →
  absorb r (chunks rest) a = if zlen rest =? 0 then a else (a + le_val (rest ++ [1])) * r mod P1305.
Proof.
  intros Hr. destruct (Z.eqb_spec (zlen rest) 0) as [E|Hne].
  - destruct rest; [done|]. rewrite zlen_cons in E. pose proof (zlen_nonneg rest). lia.
  - rewrite chunks_short; [done| |unfold zlen in Hr; lia]. by intros ->.
Qed.

(** ** The implementation with 128-bit products keeps the laws *)

Module P64Facts.
Import P64.

Definition eval (h : limbs) : Z := let '(h0, h1, h2) := h in h0 + 2 ^ 44 * h1 + 2 ^ 88 * h2.
Definition limbs_ok (h : limbs) : Prop :=
  let '(h0, h1, h2) := h in 0 <= h0 < 2 ^ 44 ∧ 0 <= h1 < 2 ^ 44 + 2 ^ 8 ∧ 0 <= h2 < 2 ^ 42.
Definition r_ok (r : limbs) : Prop :=
  let '(r0, r1, r2) := r in 0 <= r0 < 2 ^ 44 ∧ 0 <= r1 < 2 ^ 44 ∧ 0 <= r2 < 2 ^ 36.

Lemma U8TO64_val p off :
  bytes_ok p → 0 <= off → off + 8 <= zlen p →
  U8TO64 p off = Ok (le_val (take 8 (drop (Z.to_nat off) p))).
Proof.
  intros Hp Ho Hl. unfold U8TO64. rewrite mem_read_ok by lia. change (Z.to_nat 8) with 8%nat.
  assert (bytes_ok (take 8 (drop (Z.to_nat off) p))) as Hok by (apply Forall_take, Forall_drop, Hp).
  assert (length (take 8 (drop (Z.to_nat off) p)) = 8%nat) as Hlen
    by (rewrite length_take, length_drop; unfold zlen in Hl; lia).
  destruct (take 8 _) as [|p0 [|p1 [|p2 [|p3 [|p4 [|p5 [|p6 [|p7 [|]]]]]]]]]; try done.
  unfold mbind, cres_bind. f_equal. unfold bytes_ok in Hok. decompose_Forall_hyps. unfold byte_ok in *.
  unfold wshl. rewrite !land_ff, !Z.mod_small by lia. rewrite !Z.shiftl_mul_pow2 by lia.
  rewrite !wrap_small by (unfold word_ok; lia). rewrite <- !Z.shiftl_mul_pow2 by lia.
  rewrite (lor_low_high p0 p1 8), (lor_low_high _ p2 16), (lor_low_high _ p3 24), (lor_low_high _ p4 32) by lia.
  rewrite (lor_low_high _ p5 40), (lor_low_high _ p6 48), (lor_low_high _ p7 56) by lia. cbn [le_val]. lia.
Qed.

(** The two words of a block as limbs of 44, 44 and 42 bits. *)
Lemma split44 t0 t1 :
  0 <= t0 < 2 ^ 64 → 0 <= t1 < 2 ^ 64 →
  let T := t0 + 2 ^ 64 * t1 in
  t0 mod 2 ^ 44 = T mod 2 ^ 44
  ∧ Z.lor (Z.shiftr t0 44) (wshl 64 t1 20) mod 2 ^ 44 = T / 2 ^ 44 mod 2 ^ 44
  ∧ Z.shiftr t1 24 = T / 2 ^ 44 / 2 ^ 44.
Proof.
  intros H0 H1 T. rewrite !Z.shiftr_div_pow2 by lia.
  rewrite lor_wshl by (lia || (split; [apply Z.div_pos|apply Z.div_lt_upper_bound]; lia)).
  unfold T. clear T. Z.to_euclidean_division_equations. lia.
Qed.

(** The carries after the multiplication: [d0], [d1], [d2] are the column sums. *)
Lemma carry_columns d0 d1 d2 :
  0 <= d0 < 2 ^ 95 → 0 <= d1 < 2 ^ 95 → 0 <= d2 < 2 ^ 91 →
  let c0 := d0 / 2 ^ 44 in
  let c1 := (d1 + c0) / 2 ^ 44 in
  let c2 := (d2 + c1) / 2 ^ 42 in
  let x := d0 mod 2 ^ 44 + c2 * 5 in
  limbs_ok (x mod 2 ^ 44, (d1 + c0) mod 2 ^ 44 + x / 2 ^ 44, (d2 + c1) mod 2 ^ 42)
  ∧ eval (x mod 2 ^ 44, (d1 + c0) mod 2 ^ 44 + x / 2 ^ 44, (d2 + c1) mod 2 ^ 42)
    = d0 + 2 ^ 44 * d1 + 2 ^ 88 * d2 - c2 * P1305.
Proof.
  intros H0 H1 H2 c0 c1 c2 x. unfold x, c2, c1, c0, limbs_ok, eval, P1305. clear x c2 c1 c0.
  Z.to_euclidean_division_equations. lia.
Qed.

Lemma lor_hibit a hibit :
  0 <= a < 2 ^ 40 → hibit = 0 ∨ hibit = 2 ^ 40 → Z.lor (Z.land a 0x3ffffffffff) hibit = a + hibit.
Proof.
  intros Ha Hh. rewrite (land_mask _ 42), Z.mod_small by (done || lia). destruct Hh as [-> | ->].
  - by rewrite Z.lor_0_r, Z.add_0_r.
  - change (2 ^ 40) with (Z.shiftl 1 40). by rewrite lor_low_high.
Qed.

(** Three products and their sum in 128 bits. *)
Lemma column_small a b c d e f x y z :
  0 <= a * b <= x → 0 <= c * d <= y → 0 <= e * f <= z → (x + y + z <? 2 ^ 128) = true →
  wadd 128 (wadd 128 (wmul 128 a b) (wmul 128 c d)) (wmul 128 e f) = a * b + c * d + e * f
  ∧ 0 <= a * b + c * d + e * f <= x + y + z.
Proof.
  unfold wmul. generalize (a * b) (c * d) (e * f). intros u v w Hu Hv Hw Hx%Z.ltb_lt.
  rewrite !wrap_small, (wadd_small 128 u), wadd_small by (unfold word_ok; lia). lia.
Qed.

Lemma carry_words d0 d1 d2 :
  0 <= d0 < 2 ^ 95 → 0 <= d1 < 2 ^ 95 → 0 <= d2 < 2 ^ 91 →
  let c0 := d0 / 2 ^ 44 in
  let c1 := (d1 + c0) / 2 ^ 44 in
  let c2 := (d2 + c1) / 2 ^ 42 in
  let x := d0 mod 2 ^ 44 + c2 * 5 in
  wrap 64 (Z.shiftr d0 44) = c0 ∧ wadd 128 d1 c0 = d1 + c0 ∧ wrap 64 (Z.shiftr (d1 + c0) 44) = c1
  ∧ wadd 128 d2 c1 = d2 + c1 ∧ wrap 64 (Z.shiftr (d2 + c1) 42) = c2 ∧ wmul 64 c2 5 = c2 * 5
  ∧ wadd 64 (d0 mod 2 ^ 44) (c2 * 5) = x
  ∧ wadd 64 ((d1 + c0) mod 2 ^ 44) (x / 2 ^ 44) = (d1 + c0) mod 2 ^ 44 + x / 2 ^ 44.
Proof.
  intros H0 H1 H2 c0 c1 c2 x.
  assert (0 <= c0 < 2 ^ 51) as B0 by (split; [apply Z.div_pos|apply Z.div_lt_upper_bound]; lia).
  assert (0 <= c1 < 2 ^ 52) as B1 by (split; [apply Z.div_pos|apply Z.div_lt_upper_bound]; lia).
  assert (0 <= c2 < 2 ^ 50) as B2 by (split; [apply Z.div_pos|apply Z.div_lt_upper_bound]; lia).
  pose proof (Z.mod_pos_bound d0 (2 ^ 44) ltac:(lia)). pose proof (Z.mod_pos_bound (d1 + c0) (2 ^ 44) ltac:(lia)).
  assert (0 <= x < 2 ^ 53) as Bx by lia.
  assert (0 <= x / 2 ^ 44 < 2 ^ 9) as Bc by (split; [apply Z.div_pos|apply Z.div_lt_upper_bound]; lia).
  rewrite !Z.shiftr_div_pow2 by lia. fold c0. fold c1. fold c2.
  rewrite !wrap_small, !wadd_small, !wmul_small by (unfold word_ok; lia). done.
Qed.

(** Limbs that are added to: no column overflows 128 bits. *)
Definition sum_ok (h : limbs) : Prop :=
  let '(h0, h1, h2) := h in 0 <= h0 <= 2 ^ 45 ∧ 0 <= h1 <= 2 ^ 46 ∧ 0 <= h2 <= 2 ^ 43.

Lemma mul_mod_spec r h :
  r_ok r → sum_ok h →
  limbs_ok (mul_mod r h) ∧ ∃ k, eval (mul_mod r h) = eval h * eval r - k * P1305.
Proof.
  destruct r as [[r0 r1] r2], h as [[h0 h1] h2]. intros (Hr0 & Hr1 & Hr2) (Hh0 & Hh1 & Hh2).
  unfold mul_mod. rewrite (wmul_small 64 r1 20), (wmul_small 64 r2 20) by (unfold word_ok; lia).
  assert (0 <= r0 <= 2 ^ 44) as R0 by lia. assert (0 <= r1 <= 2 ^ 44) as R1 by lia.
  assert (0 <= r2 <= 2 ^ 36) as R2 by lia.
  assert (0 <= r1 * 20 <= 2 ^ 49) as S1 by lia. assert (0 <= r2 * 20 <= 2 ^ 41) as S2 by lia.
  destruct (column_small _ _ _ _ _ _ _ _ _ (mul_bound _ _ _ _ Hh0 R0) (mul_bound _ _ _ _ Hh1 S2)
    (mul_bound _ _ _ _ Hh2 S1) eq_refl) as [-> D0].
  destruct (column_small _ _ _ _ _ _ _ _ _ (mul_bound _ _ _ _ Hh0 R1) (mul_bound _ _ _ _ Hh1 R0)
    (mul_bound _ _ _ _ Hh2 S2) eq_refl) as [-> D1].
  destruct (column_small _ _ _ _ _ _ _ _ _ (mul_bound _ _ _ _ Hh0 R2) (mul_bound _ _ _ _ Hh1 R1)
    (mul_bound _ _ _ _ Hh2 R0) eq_refl) as [-> D2].
  set (d0 := h0 * r0 + _ + _) in *. set (d1 := h0 * r1 + _ + _) in *. set (d2 := h0 * r2 + _ + _) in *.
  pose proof (le_lt_bound _ _ (2 ^ 95) D0 eq_refl) as BD0. pose proof (le_lt_bound _ _ (2 ^ 95) D1 eq_refl) as BD1.
  pose proof (le_lt_bound _ _ (2 ^ 91) D2 eq_refl) as BD2.
  destruct (carry_words d0 d1 d2 BD0 BD1 BD2) as (E0 & E1 & E2 & E3 & E4 & E5 & E6 & E7).
  rewrite E0, E1, E2, E3, E4, E5. rewrite !(land_wrap _ 64 44), (land_wrap _ 64 42) by (clear; done || lia).
  rewrite E6, Z.shiftr_div_pow2, E7 by lia. rewrite (land_mask _ 44) by done.
  destruct (carry_columns d0 d1 d2 BD0 BD1 BD2) as [Hok Hev]. split; [exact Hok|].
  eexists. rewrite Hev. unfold d0, d1, d2, eval.
  instantiate (1 := (d2 + (d1 + d0 / 2 ^ 44) / 2 ^ 44) / 2 ^ 42 + 4 * (h1 * r2 + h2 * r1) + 2 ^ 46 * (h2 * r2)).
  unfold P1305. fold d0 d1 d2. generalize ((d2 + (d1 + d0 / 2 ^ 44) / 2 ^ 44) / 2 ^ 42). intros c. unfold d0, d1, d2. ring.
Qed.

Lemma block_spec r hibit t0 t1 h :
  r_ok r → limbs_ok h → word_ok 64 t0 → word_ok 64 t1 → hibit = 0 ∨ hibit = 2 ^ 40 →
  limbs_ok (block r hibit t0 t1 h)
  ∧ ∃ k, eval (block r hibit t0 t1 h) = (eval h + (t0 + 2 ^ 64 * t1) + 2 ^ 88 * hibit) * eval r - k * P1305.
Proof.
  destruct h as [[h0 h1] h2]. intros Hr (Hh0 & Hh1 & Hh2) Ht0 Ht1 Hhi.
  unfold word_ok in Ht0, Ht1. destruct (split44 t0 t1 Ht0 Ht1) as (E0 & E1 & E2).
  assert (0 <= t1 / 2 ^ 24 < 2 ^ 40) as Hw2.
  { split; [apply Z.div_pos|apply Z.div_lt_upper_bound]; lia. }
  unfold block. rewrite lor_hibit by (rewrite ?Z.shiftr_div_pow2 by lia; done).
  rewrite !(land_mask _ 44) by done. rewrite E0, E1, E2. set (T := t0 + 2 ^ 64 * t1) in *.
  set (w0 := T mod 2 ^ 44). set (w1 := T / 2 ^ 44 mod 2 ^ 44). set (w2 := T / 2 ^ 44 / 2 ^ 44).
  assert (T = w0 + 2 ^ 44 * w1 + 2 ^ 88 * w2) as HT.
  { unfold w0, w1, w2. clear. Z.to_euclidean_division_equations. lia. }
  assert (0 <= w0 < 2 ^ 44) as B0 by (apply Z.mod_pos_bound; lia).
  assert (0 <= w1 < 2 ^ 44) as B1 by (apply Z.mod_pos_bound; lia).
  assert (0 <= w2 < 2 ^ 40) as B2 by (unfold w2; rewrite <- E2, Z.shiftr_div_pow2 by lia; done).
  rewrite (wadd_small 64 h0 w0), (wadd_small 64 h1 w1), (wadd_small 64 h2 (w2 + hibit)) by (unfold word_ok; lia).
  replace (eval (h0, h1, h2) + T + 2 ^ 88 * hibit) with (eval (h0 + w0, h1 + w1, h2 + (w2 + hibit)))
    by (unfold eval; rewrite HT; lia).
  apply mul_mod_spec; [done|]. unfold sum_ok. lia.
Qed.

(** Limbs after the carries. *)
Definition carried (h : limbs) : Prop :=
  let '(h0, h1, h2) := h in 0 <= h0 < 2 ^ 44 ∧ 0 <= h1 <= 2 ^ 44 ∧ 0 <= h2 < 2 ^ 42.

Lemma carry_spec h : limbs_ok h → carried (carry h) ∧ ∃ k, eval (carry h) = eval h - k * P1305.
Proof.
  destruct h as [[h0 h1] h2]. intros (H0 & H1 & H2). unfold carry.
  rewrite !(land_mask _ 44 0xfffffffffff), !(land_mask _ 42 0x3ffffffffff), !Z.shiftr_div_pow2 by done.
  carry h1 44 1 c1 x1. rewrite (wadd_small 64 h2 c1) by (unfold word_ok; lia).
  carry (h2 + c1) 42 1 c2 x2. rewrite (wmul_small 64 c2 5), (wadd_small 64 h0) by (unfold word_ok; lia).
  carry (h0 + c2 * 5) 44 1 c3 x0. rewrite (wadd_small 64 x1 c3) by (unfold word_ok; lia).
  carry (x1 + c3) 44 1 c4 y1. rewrite (wadd_small 64 x2 c4) by (unfold word_ok; lia).
  carry (x2 + c4) 42 1 c5 y2. rewrite (wmul_small 64 c5 5), (wadd_small 64 x0) by (unfold word_ok; lia).
  carry (x0 + c5 * 5) 44 1 c6 y0. rewrite (wadd_small 64 y1 c6) by (unfold word_ok; lia).
  split; [unfold carried; lia|]. exists (c2 + c5). unfold eval, P1305. lia.
Qed.

(** A selection by masks: all ones keeps the first, zero the second. *)
Lemma select_h h g : word_ok 64 h → Z.lor (Z.land h (wnot 64 0)) (Z.land g 0) = h.
Proof. intros Hh. rewrite wnot_zero, Z.land_0_r, Z.lor_0_r, land_ones_all by done. done. Qed.

Lemma select_g h g : word_ok 64 g → Z.lor (Z.land h (wnot 64 (2 ^ 64 - 1))) (Z.land g (2 ^ 64 - 1)) = g.
Proof. intros Hg. rewrite wnot_all, Z.land_0_r, Z.lor_0_l, land_ones_all by done. done. Qed.

Lemma reduce_spec h : carried h → carried (reduce h) ∧ eval (reduce h) = eval h mod P1305.
Proof.
  destruct h as [[h0 h1] h2]. intros (H0 & H1 & H2). unfold reduce.
  rewrite !(land_mask _ 44 0xfffffffffff), !(Z.shiftr_div_pow2 _ 44) by done.
  rewrite (wadd_small 64 h0) by (unfold word_ok; lia). carry (h0 + 5) 44 1 c0 g0.
  rewrite (wadd_small 64 h1) by (unfold word_ok; lia). carry (h1 + c0) 44 1 c1 g1.
  rewrite (wadd_small 64 h2) by (unfold word_ok; lia). change (wshl 64 1 42) with (2 ^ 42).
  rewrite Z.shiftr_div_pow2 by done.
  destruct (decide (h2 + c1 < 2 ^ 42)) as [Hlt|Hge].
  - assert (wsub 64 (h2 + c1) (2 ^ 42) = h2 + c1 - 2 ^ 42 + 2 ^ 64) as ->
      by (unfold wsub, wrap; symmetry; apply (Z.mod_unique _ _ (-1)); lia).
    assert ((h2 + c1 - 2 ^ 42 + 2 ^ 64) / 2 ^ 63 = 1) as -> by (symmetry; apply (Z.div_unique _ _ _ (h2 + c1 - 2 ^ 42 + 2 ^ 63)); lia).
    change (wsub 64 1 1) with 0. rewrite !select_h by (unfold word_ok; lia).
    split; [unfold carried; lia|]. unfold eval, P1305. rewrite Z.mod_small; lia.
  - assert (wsub 64 (h2 + c1) (2 ^ 42) = h2 + c1 - 2 ^ 42) as -> by (apply wrap_small; unfold word_ok; lia).
    assert ((h2 + c1 - 2 ^ 42) / 2 ^ 63 = 0) as -> by (apply Z.div_small; lia).
    change (wsub 64 0 1) with (2 ^ 64 - 1). rewrite !select_g by (unfold word_ok; lia).
    split; [unfold carried; lia|]. unfold eval, P1305. apply (Z.mod_unique _ _ 1); lia.
Qed.

Lemma U64TO8_bytes v : U64TO8 v = le_bytes 8 v.
Proof.
  unfold U64TO8. cbn [map le_bytes]. rewrite !land_ff, !Z.shiftr_div_pow2, !Z.div_div, Z.div_1_r by done. done.
Qed.

Lemma add_pad_spec h t0 t1 :
  carried h → word_ok 64 t0 → word_ok 64 t1 → add_pad h (t0, t1) = le_bytes 16 (eval h + (t0 + 2 ^ 64 * t1)).
Proof.
  destruct h as [[h0 h1] h2]. intros (H0 & H1 & H2) Ht0 Ht1. unfold word_ok in Ht0, Ht1.
  destruct (split44 t0 t1 Ht0 Ht1) as (E0 & E1 & E2). unfold add_pad.
  rewrite !(land_mask _ 44 0xfffffffffff), !(land_mask _ 42 0x3ffffffffff), E0, E1, E2 by done.
  set (T := t0 + 2 ^ 64 * t1) in *.
  set (w0 := T mod 2 ^ 44). set (w1 := T / 2 ^ 44 mod 2 ^ 44). set (w2 := T / 2 ^ 44 / 2 ^ 44).
  assert (T = w0 + 2 ^ 44 * w1 + 2 ^ 88 * w2) as HT.
  { unfold w0, w1, w2. clear. Z.to_euclidean_division_equations. lia. }
  assert (0 <= w0 < 2 ^ 44) as B0 by (apply Z.mod_pos_bound; lia).
  assert (0 <= w1 < 2 ^ 44) as B1 by (apply Z.mod_pos_bound; lia).
  assert (0 <= w2 < 2 ^ 40) as B2
    by (unfold w2, T; clear - Ht0 Ht1; Z.to_euclidean_division_equations; lia).
  rewrite (Z.mod_small w2) by lia. clearbody w0 w1 w2 T.
  rewrite !(Z.shiftr_div_pow2 _ 44), (wadd_small 64 h0) by (done || (unfold word_ok; lia)).
  carry (h0 + w0) 44 1 c0 x0. rewrite (wadd_small 64 w1), (wadd_small 64 h1) by (unfold word_ok; lia).
  carry (h1 + (w1 + c0)) 44 2 c1 x1. rewrite (wadd_small 64 w2), (wadd_small 64 h2) by (unfold word_ok; lia).
  carry (h2 + (w2 + c1)) 42 1 c2 x2.
  rewrite !U64TO8_bytes, (lor_wshl 64 x0), Z.shiftr_div_pow2 by lia. change (2 ^ (64 - 44)) with (2 ^ 20).
  carry x1 20 (2 ^ 24 - 1) y0 y1. rewrite lor_wshl by lia. change (2 ^ (64 - 24)) with (2 ^ 40).
  carry x2 40 3 z1 z0. apply (le_bytes_words 8 8).
  - change (256 ^ Z.of_nat 8) with (2 ^ 64). apply (Z.mod_unique _ _ (y0 + 2 ^ 24 * z0 + 2 ^ 64 * (z1 + 4 * c2))); unfold eval; lia.
  - change (256 ^ Z.of_nat 8) with (2 ^ 64).
    replace ((eval (h0, h1, h2) + T) / 2 ^ 64) with (y0 + 2 ^ 24 * z0 + (z1 + 4 * c2) * 2 ^ 64).
    + by rewrite Z.mod_add.
    + apply (Z.div_unique _ _ _ (x0 + 2 ^ 44 * y1)); unfold eval; lia.
Qed.

(** The limbs of a key. *)
Definition r_of (key : bytes) : limbs :=
  let T := le_val (take 16 key) in
  (Z.land (T mod 2 ^ 44) 0xffc0fffffff, Z.land (T / 2 ^ 44 mod 2 ^ 44) 0xfffffc0ffff,
   Z.land (T / 2 ^ 44 / 2 ^ 44) 0x00ffffffc0f).
Definition pad_of (key : bytes) : pads :=
  (le_val (take 8 (drop 16 key)), le_val (take 8 (drop 24 key))).

(** Sixteen bytes as two words. *)
Lemma two_words m :
  bytes_ok m → 16 <= zlen m →
  ∃ t0 t1, U8TO64 m 0 = Ok t0 ∧ U8TO64 m 8 = Ok t1 ∧ word_ok 64 t0 ∧ word_ok 64 t1
    ∧ le_val (take 16 m) = t0 + 2 ^ 64 * t1.
Proof.
  intros Hm Hl. rewrite !U8TO64_val by (done || lia). eexists _, _. split; [done|]. split; [done|].
  change (Z.to_nat 0) with 0%nat. change (Z.to_nat 8) with 8%nat. rewrite drop_0. unfold zlen in Hl.
  split_and!.
  - apply (le_val_bound_n 8); [by apply Forall_take|rewrite length_take; lia].
  - apply (le_val_bound_n 8); [by apply Forall_take, Forall_drop|rewrite length_take, length_drop; lia].
  - change 16%nat with (8 + 8)%nat. rewrite <- take_take_drop, le_val_app. unfold zlen. rewrite length_take, Nat.min_l by lia. done.
Qed.

Lemma r_of_spec key : key_ok key → r_ok (r_of key) ∧ eval (r_of key) = key_r key.
Proof.
  intros [Hk Hl]. unfold ZT_POLY1305_KEY_LEN in Hl.
  assert (0 <= le_val (take 16 key) < 2 ^ 128) as HT.
  { apply (le_val_bound_n 16); [by apply Forall_take|rewrite length_take; unfold zlen in Hl; lia]. }
  unfold r_of, key_r, eval, r_ok. generalize dependent (le_val (take 16 key)). intros T HT. split.
  - assert (0 <= T / 2 ^ 44) by (apply Z.div_pos; lia). assert (0 <= T / 2 ^ 44 / 2 ^ 44) by (apply Z.div_pos; lia).
    pose proof (Z.mod_pos_bound T (2 ^ 44) eq_refl). pose proof (Z.mod_pos_bound (T / 2 ^ 44) (2 ^ 44) eq_refl).
    split_and!; try (apply Z.land_nonneg; lia); (eapply Z.le_lt_trans; [apply land_le|]; lia).
  - rewrite (land_split T _ 44) by lia. rewrite (land_split (T / 2 ^ 44) _ 44) by lia.
    change (0xffffffc0ffffffc0ffffffc0fffffff mod 2 ^ 44) with 0xffc0fffffff.
    change (0xffffffc0ffffffc0ffffffc0fffffff / 2 ^ 44 mod 2 ^ 44) with 0xfffffc0ffff.
    change (0xffffffc0ffffffc0ffffffc0fffffff / 2 ^ 44 / 2 ^ 44) with 0x00ffffffc0f. lia.
Qed.

Lemma init_spec junk key :
  key_ok key → init junk key = Ok (PolyState (r_of key) (0, 0, 0) (pad_of key) 0 junk 0).
Proof.
  intros [Hk Hl]. unfold ZT_POLY1305_KEY_LEN in Hl. destruct (two_words key Hk) as (t0 & t1 & E0 & E1 & H0 & H1 & HT); [lia|].
  unfold init. rewrite E0, E1, !U8TO64_val by (done || lia). unfold mbind, cres_bind. unfold r_of. rewrite HT.
  destruct (split44 t0 t1 H0 H1) as (S0 & S1 & S2). rewrite S2, <- S0, <- S1.
  by rewrite !land_mod_l.
Qed.

Lemma step_spec key hibit m h :
  key_ok key → hibit = 0 ∨ hibit = 2 ^ 40 → bytes_ok m → 16 <= zlen m → limbs_ok h →
  ∃ h', step (r_of key) hibit m h = Ok h' ∧ limbs_ok h'
    ∧ ∃ k, eval h' = (eval h + le_val (take 16 m) + 2 ^ 88 * hibit) * key_r key - k * P1305.
Proof.
  intros Hkey Hhi Hm Hl Hh. destruct (two_words m Hm Hl) as (t0 & t1 & E0 & E1 & H0 & H1 & ->).
  destruct (r_of_spec key Hkey) as [Hr <-]. unfold step. rewrite E0, E1. unfold mbind, cres_bind.
  eexists. split; [done|]. by apply block_spec.
Qed.

Lemma mac_spec key h :
  key_ok key → limbs_ok h →
  add_pad (reduce (carry h)) (pad_of key) = le_bytes 16 (eval h mod P1305 + key_s key).
Proof.
  intros [Hk Hl] Hh. unfold ZT_POLY1305_KEY_LEN, zlen in Hl. destruct (carry_spec h Hh) as (Hc & k & Hev).
  destruct (reduce_spec _ Hc) as (Hr & Hrv). unfold pad_of.
  rewrite add_pad_spec; [|done| |].
  - rewrite Hrv, Hev. replace (eval h - k * P1305) with (eval h + (- k) * P1305) by lia. rewrite Z.mod_add by done.
    do 2 f_equal. unfold key_s. change (take 16) with (@take Z (8 + 8)). rewrite <- take_take_drop, le_val_app, drop_drop. unfold zlen.
    by rewrite length_take, length_drop, Nat.min_l by lia.
  - apply (le_val_bound_n 8); [by apply Forall_take, Forall_drop|rewrite length_take, length_drop; lia].
  - apply (le_val_bound_n 8); [by apply Forall_take, Forall_drop|rewrite length_take, length_drop; lia].
Qed.
End P64Facts.

Module P64Laws.
Import P64 P64Facts.

Lemma blocks_law key st m (k : nat) :
  key_ok key → st_r st = r_of key → st_final st = 0 → limbs_ok (st_h st) → bytes_ok m → 16 * Z.of_nat k <= zlen m →
  ∃ h', blocks st m (16 * Z.of_nat k) = Ok (with_h st h') ∧ limbs_ok h'
    ∧ eval h' mod P1305 = absorb (key_r key) (chunks (take (16 * k) m)) (eval (st_h st)) mod P1305.
Proof.
  intros Hkey Hr Hf Hh Hm Hl. unfold blocks, rounds. rewrite Hf, Hr. cbn [negb Z.eqb].
  unfold poly1305_block_size. rewrite Z.mul_comm, Z.div_mul, Nat2Z.id, (Z.mul_comm _ 16) by done.
  destruct (while_blocks_spec (step (r_of key) (wshl 64 1 40)) limbs_ok eval (key_r key) (2 ^ 128)) with (k := k) (m := m) (h := st_h st)
    as (h' & -> & Hok & Hev); try done.
  - intros m' h Hm' Hl' Hh'. apply (step_spec key (2 ^ 40)); [done|by right|done..].
  - exists h'. unfold with_h. by rewrite Hr, Hf.
Qed.

Lemma finish_law key st rest tail :
  key_ok key → st_r st = r_of key → st_pad st = pad_of key → st_final st = 0 → limbs_ok (st_h st) →
  st_buffer st = rest ++ tail → zlen (st_buffer st) = 16 → zlen rest < 16 → st_leftover st = zlen rest → bytes_ok rest →
  ∃ st', finish st = Ok (le_bytes 16 (absorb (key_r key) (chunks rest) (eval (st_h st)) mod P1305 + key_s key), st').
Proof.
  intros Hkey Hr Hp Hf Hh Hb Hbl Hrest Hl Hok. unfold finish. rewrite absorb_short, Hl by done.
  destruct (Z.eqb_spec (zlen rest) 0) as [E|Hne]; cbn [negb].
  - unfold mbind, cres_bind. eexists. by rewrite Hp, mac_spec.
  - rewrite Hb in *. destruct (pad_buffer_rest rest tail Hbl Hrest) as (b & -> & Hb16 & Hval & Hbok).
    unfold mbind, cres_bind. unfold blocks. cbn [st_r st_h st_pad st_leftover st_buffer st_final negb Z.eqb].
    change (rounds poly1305_block_size) with 1%nat. unfold poly1305_block_size. rewrite while_one, Hr.
    destruct (step_spec key 0 b (st_h st) Hkey) as (h' & -> & Hh' & k & Hev); [by left|by apply Hbok|lia|done|].
    cbn [mbind cres_bind st_h st_pad]. eexists. rewrite Hp, mac_spec by done. rewrite Hev, Z.add_0_r.
    rewrite take_ge, Hval by (unfold zlen in Hb16; lia).
    rewrite Z.mod_mod by done. replace (_ - k * P1305) with ((eval (st_h st) + le_val (rest ++ [1])) * key_r key + (- k) * P1305) by lia.
    by rewrite Z.mod_add.
Qed.
Lemma zero_law : limbs_ok (0, 0, 0) ∧ eval (0, 0, 0) = 0.
Proof. by split_and!. Qed.
End P64Laws.

#[export] Instance poly64_laws : PolyLaws P64.limbs P64.pads := {
  pl_eval := P64Facts.eval; pl_ok := P64Facts.limbs_ok; pl_zero := (0, 0, 0);
  pl_r := P64Facts.r_of; pl_pad := P64Facts.pad_of;
  pl_init := P64Facts.init_spec; pl_blocks := P64Laws.blocks_law; pl_finish := P64Laws.finish_law; pl_zero_ok := P64Laws.zero_law;
}.

(** ** The portable implementation keeps the laws *)

Module P32Facts.
Import P32.

Definition eval (h : limbs) : Z :=
  let '(h0, h1, h2, h3, h4) := h in h0 + 2 ^ 26 * h1 + 2 ^ 52 * h2 + 2 ^ 78 * h3 + 2 ^ 104 * h4.
Definition limbs_ok (h : limbs) : Prop :=
  let '(h0, h1, h2, h3, h4) := h in
  0 <= h0 < 2 ^ 26 ∧ 0 <= h1 < 2 ^ 26 + 2 ^ 7 ∧ 0 <= h2 < 2 ^ 26 ∧ 0 <= h3 < 2 ^ 26 ∧ 0 <= h4 < 2 ^ 26.
Definition r_ok (r : limbs) : Prop :=
  let '(r0, r1, r2, r3, r4) := r in
  0 <= r0 < 2 ^ 26 ∧ 0 <= r1 < 2 ^ 26 ∧ 0 <= r2 < 2 ^ 26 ∧ 0 <= r3 < 2 ^ 26 ∧ 0 <= r4 < 2 ^ 20.

Section word.
Context (W : Z) (HW : W = 32 ∨ W = 64).

Lemma wide z : 0 <= z < 2 ^ 32 → word_ok W z.
Proof. intros Hz. apply (word_ok_le 32); [lia|done]. Qed.

Lemma wadd_w a b : 0 <= a + b < 2 ^ 32 → wadd W a b = a + b.
Proof. intros H. by apply wadd_small, wide. Qed.

Lemma wmul_w a b : 0 <= a * b < 2 ^ 32 → wmul W a b = a * b.
Proof. intros H. by apply wmul_small, wide. Qed.

Lemma U8TO32_val p off :
  bytes_ok p → 0 <= off → off + 4 <= zlen p →
  U8TO32 W p off = Ok (le_val (take 4 (drop (Z.to_nat off) p))).
Proof.
  intros Hp Ho Hl. unfold U8TO32. rewrite mem_read_ok by lia. change (Z.to_nat 4) with 4%nat.
  assert (bytes_ok (take 4 (drop (Z.to_nat off) p))) as Hok by (apply Forall_take, Forall_drop, Hp).
  assert (length (take 4 (drop (Z.to_nat off) p)) = 4%nat) as Hlen
    by (rewrite length_take, length_drop; unfold zlen in Hl; lia).
  destruct (take 4 _) as [|p0 [|p1 [|p2 [|p3 [|]]]]]; try done.
  unfold mbind, cres_bind. f_equal. unfold bytes_ok in Hok. decompose_Forall_hyps. unfold byte_ok in *.
  unfold wshl. rewrite !land_ff, !Z.mod_small by lia. rewrite !Z.shiftl_mul_pow2 by lia.
  rewrite !wrap_small by (apply wide; lia). rewrite <- !Z.shiftl_mul_pow2 by lia.
  rewrite (lor_low_high p0 p1 8), (lor_low_high _ p2 16), (lor_low_high _ p3 24) by lia. cbn [le_val]. lia.
Qed.

(** The carries after the multiplication. *)
Lemma carry_columns32 d0 d1 d2 d3 d4 :
  0 <= d0 < 2 ^ 57 → 0 <= d1 < 2 ^ 57 → 0 <= d2 < 2 ^ 57 → 0 <= d3 < 2 ^ 57 → 0 <= d4 < 2 ^ 55 →
  let c := wrap W (Z.shiftr d0 26) in let h0 := Z.land (wrap W d0) 0x3ffffff in
  let d1' := wadd 64 d1 c in let c := wrap W (Z.shiftr d1' 26) in let h1 := Z.land (wrap W d1') 0x3ffffff in
  let d2' := wadd 64 d2 c in let c := wrap W (Z.shiftr d2' 26) in let h2 := Z.land (wrap W d2') 0x3ffffff in
  let d3' := wadd 64 d3 c in let c := wrap W (Z.shiftr d3' 26) in let h3 := Z.land (wrap W d3') 0x3ffffff in
  let d4' := wadd 64 d4 c in let c := wrap W (Z.shiftr d4' 26) in let h4 := Z.land (wrap W d4') 0x3ffffff in
  let h0 := wadd W h0 (wmul W c 5) in let c := Z.shiftr h0 26 in let h0 := Z.land h0 0x3ffffff in
  let h1 := wadd W h1 c in
  limbs_ok (h0, h1, h2, h3, h4)
  ∧ ∃ k, eval (h0, h1, h2, h3, h4) = d0 + 2 ^ 26 * d1 + 2 ^ 52 * d2 + 2 ^ 78 * d3 + 2 ^ 104 * d4 - k * P1305.
Proof.
  intros D0 D1 D2 D3 D4. cbv zeta. rewrite !(land_wrap _ W 26 0x3ffffff), !(land_mask _ 26 0x3ffffff), !Z.shiftr_div_pow2 by (done || lia).
  carry d0 26 (2 ^ 31) c0 x0. rewrite (wrap_small W c0) by (apply wide; lia).
  rewrite (wadd_small 64 d1) by (unfold word_ok; lia). carry (d1 + c0) 26 (2 ^ 31 + 2 ^ 6) c1 x1.
  rewrite (wrap_small W c1), (wadd_small 64 d2) by ((apply wide; lia) || (unfold word_ok; lia)). carry (d2 + c1) 26 (2 ^ 31 + 2 ^ 6) c2 x2.
  rewrite (wrap_small W c2), (wadd_small 64 d3) by ((apply wide; lia) || (unfold word_ok; lia)). carry (d3 + c2) 26 (2 ^ 31 + 2 ^ 6) c3 x3.
  rewrite (wrap_small W c3), (wadd_small 64 d4) by ((apply wide; lia) || (unfold word_ok; lia)). carry (d4 + c3) 26 (2 ^ 29 + 2 ^ 6) c4 x4.
  rewrite (wrap_small W c4), wmul_w, (wadd_w x0) by ((apply wide; lia) || lia). carry (x0 + c4 * 5) 26 (2 ^ 6) c5 y0.
  rewrite wadd_w by lia. split; [unfold limbs_ok; lia|]. exists c4. unfold eval, P1305. lia.
Qed.

Lemma dot_small a b c d e a' b' c' d' e' x0 x1 x2 x3 x4 :
  0 <= a * a' <= x0 → 0 <= b * b' <= x1 → 0 <= c * c' <= x2 → 0 <= d * d' <= x3 → 0 <= e * e' <= x4 →
  (x0 + x1 + x2 + x3 + x4 <? 2 ^ 64) = true →
  dot (a, a') (b, b') (c, c') (d, d') (e, e') = a * a' + b * b' + c * c' + d * d' + e * e'
  ∧ 0 <= a * a' + b * b' + c * c' + d * d' + e * e' <= x0 + x1 + x2 + x3 + x4.
Proof.
  unfold dot, wmul. cbn [fst snd]. generalize (a * a') (b * b') (c * c') (d * d') (e * e').
  intros u v w y z Hu Hv Hw Hy Hz H%Z.ltb_lt. rewrite !wrap_small by (unfold word_ok; lia).
  rewrite (wadd_small 64 u), (wadd_small 64 (u + v)), (wadd_small 64 (u + v + w)), wadd_small by (unfold word_ok; lia). lia.
Qed.

(** Limbs that are added to: no column overflows 64 bits. *)
Definition sum_ok (h : limbs) : Prop :=
  let '(h0, h1, h2, h3, h4) := h in
  0 <= h0 <= 2 ^ 27 ∧ 0 <= h1 <= 2 ^ 27 + 2 ^ 7 ∧ 0 <= h2 <= 2 ^ 27 ∧ 0 <= h3 <= 2 ^ 27 ∧ 0 <= h4 <= 2 ^ 26 + 2 ^ 25.

Lemma mul_mod_spec32 r h :
  r_ok r → sum_ok h →
  limbs_ok (mul_mod W r h) ∧ ∃ k, eval (mul_mod W r h) = eval h * eval r - k * P1305.
Proof.
  destruct r as [[[[r0 r1] r2] r3] r4], h as [[[[h0 h1] h2] h3] h4].
  intros (R0 & R1 & R2 & R3 & R4) (H0 & H1 & H2 & H3 & H4). unfold mul_mod. rewrite !wmul_w by lia.
  assert (0 <= r0 <= 2 ^ 26) as B0 by lia. assert (0 <= r1 <= 2 ^ 26) as B1 by lia. assert (0 <= r2 <= 2 ^ 26) as B2 by lia.
  assert (0 <= r3 <= 2 ^ 26) as B3 by lia. assert (0 <= r4 <= 2 ^ 20) as B4 by lia.
  assert (0 <= r1 * 5 <= 5 * 2 ^ 26) as S1 by lia. assert (0 <= r2 * 5 <= 5 * 2 ^ 26) as S2 by lia.
  assert (0 <= r3 * 5 <= 5 * 2 ^ 26) as S3 by lia. assert (0 <= r4 * 5 <= 5 * 2 ^ 20) as S4 by lia.
  destruct (dot_small _ _ _ _ _ _ _ _ _ _ _ _ _ _ _ (mul_bound _ _ _ _ H0 B0) (mul_bound _ _ _ _ H1 S4) (mul_bound _ _ _ _ H2 S3)
    (mul_bound _ _ _ _ H3 S2) (mul_bound _ _ _ _ H4 S1) eq_refl) as [-> D0].
  destruct (dot_small _ _ _ _ _ _ _ _ _ _ _ _ _ _ _ (mul_bound _ _ _ _ H0 B1) (mul_bound _ _ _ _ H1 B0) (mul_bound _ _ _ _ H2 S4)
    (mul_bound _ _ _ _ H3 S3) (mul_bound _ _ _ _ H4 S2) eq_refl) as [-> D1].
  destruct (dot_small _ _ _ _ _ _ _ _ _ _ _ _ _ _ _ (mul_bound _ _ _ _ H0 B2) (mul_bound _ _ _ _ H1 B1) (mul_bound _ _ _ _ H2 B0)
    (mul_bound _ _ _ _ H3 S4) (mul_bound _ _ _ _ H4 S3) eq_refl) as [-> D2].
  destruct (dot_small _ _ _ _ _ _ _ _ _ _ _ _ _ _ _ (mul_bound _ _ _ _ H0 B3) (mul_bound _ _ _ _ H1 B2) (mul_bound _ _ _ _ H2 B1)
    (mul_bound _ _ _ _ H3 B0) (mul_bound _ _ _ _ H4 S4) eq_refl) as [-> D3].
  destruct (dot_small _ _ _ _ _ _ _ _ _ _ _ _ _ _ _ (mul_bound _ _ _ _ H0 B4) (mul_bound _ _ _ _ H1 B3) (mul_bound _ _ _ _ H2 B2)
    (mul_bound _ _ _ _ H3 B1) (mul_bound _ _ _ _ H4 B0) eq_refl) as [-> D4].
  destruct (carry_columns32 _ _ _ _ _ (le_lt_bound _ _ (2 ^ 57) D0 eq_refl) (le_lt_bound _ _ (2 ^ 57) D1 eq_refl)
    (le_lt_bound _ _ (2 ^ 57) D2 eq_refl) (le_lt_bound _ _ (2 ^ 57) D3 eq_refl) (le_lt_bound _ _ (2 ^ 55) D4 eq_refl))
    as (Hok & k & Hev).
  split; [exact Hok|].
  exists (k + (h1 * r4 + h2 * r3 + h3 * r2 + h4 * r1) + 2 ^ 26 * (h2 * r4 + h3 * r3 + h4 * r2)
          + 2 ^ 52 * (h3 * r4 + h4 * r3) + 2 ^ 78 * (h4 * r4)).
  etransitivity; [exact Hev|]. unfold eval, P1305. ring.
Qed.

(** A load inside sixteen bytes is a field of their value. *)
Lemma load_field m off :
  bytes_ok m → 16 <= zlen m → 0 <= off <= 12 →
  U8TO32 W m off = Ok (le_val (take 16 m) / 2 ^ (8 * off) mod 2 ^ 32).
Proof.
  intros Hm Hl Ho. unfold zlen in Hl. rewrite U8TO32_val by (done || (unfold zlen; lia)). f_equal.
  assert (take 4 (drop (Z.to_nat off) m) = take 4 (drop (Z.to_nat off) (take 16 m))) as ->.
  { rewrite skipn_firstn_comm, take_take. f_equal. lia. }
  rewrite le_val_slice by ((by apply Forall_take) || (rewrite length_take; lia)).
  change 256 with (2 ^ 8). rewrite <- !Z.pow_mul_r by lia. do 3 f_equal. lia.
Qed.

(** The limbs of a number of 128 bits. *)
Definition split26 (T : Z) : limbs :=
  (T mod 2 ^ 26, T / 2 ^ 26 mod 2 ^ 26, T / 2 ^ 52 mod 2 ^ 26, T / 2 ^ 78 mod 2 ^ 26, T / 2 ^ 104).

Lemma eval_split26 T : eval (split26 T) = T.
Proof. unfold eval, split26. Z.to_euclidean_division_equations. lia. Qed.

Lemma take_16_range m : bytes_ok m → 16 <= zlen m → 0 <= le_val (take 16 m) < 2 ^ 128.
Proof.
  intros Hm Hl. apply (le_val_bound_n 16); [by apply Forall_take|]. rewrite length_take. unfold zlen in Hl. lia.
Qed.

Lemma words_spec hibit m :
  bytes_ok m → 16 <= zlen m → hibit = 0 ∨ hibit = 2 ^ 24 →
  ∃ w0 w1 w2 w3 w4, split26 (le_val (take 16 m)) = (w0, w1, w2, w3, w4)
    ∧ words W hibit m = Ok (w0, w1, w2, w3, w4 + hibit) ∧ 0 <= w4 < 2 ^ 24.
Proof.
  intros Hm Hl Hhi. pose proof (take_16_range m Hm Hl) as HT. unfold words.
  rewrite !load_field by (done || lia). set (T := le_val (take 16 m)) in *. unfold mbind, cres_bind.
  eexists _, _, _, _, _. split; [done|].
  assert (0 <= T / 2 ^ 104 < 2 ^ 24) as H4 by (split; [apply Z.div_pos|apply Z.div_lt_upper_bound]; lia).
  split; [|done]. rewrite !(land_mask _ 26 0x3ffffff), !Z.shiftr_div_pow2 by done.
  change (8 * 3) with 24. change (8 * 6) with 48. change (8 * 9) with 72. change (8 * 12) with 96. rewrite Z.mul_0_r, Z.div_1_r.
  rewrite !field_field by lia. change (24 + 2) with 26. change (48 + 4) with 52. change (72 + 6) with 78.
  pose proof (field_field T 96 32 8 24 ltac:(lia) ltac:(lia) ltac:(lia) ltac:(lia)) as E4. change (96 + 8) with 104 in E4.
  rewrite (Z.mod_small (T / 2 ^ 104)) in E4 by done.
  assert (0 <= (T / 2 ^ 96) mod 2 ^ 32 / 2 ^ 8 < 2 ^ 24) as H8.
  { pose proof (Z.mod_pos_bound (T / 2 ^ 96) (2 ^ 32) eq_refl). split; [apply Z.div_pos|apply Z.div_lt_upper_bound]; lia. }
  rewrite Z.mod_small in E4 by done. rewrite E4.
  assert (Z.lor (T / 2 ^ 104) hibit = T / 2 ^ 104 + hibit) as ->.
  { destruct Hhi as [-> | ->]; [by rewrite Z.lor_0_r, Z.add_0_r|]. change (2 ^ 24) with (Z.shiftl 1 24). by rewrite lor_low_high. }
  rewrite <- (Z.div_1_r T) at 1. change 1 with (2 ^ 0) at 1.
  pose proof (field_field T 0 32 0 26 ltac:(lia) ltac:(lia) ltac:(lia) ltac:(lia)) as E0.
  rewrite Z.add_0_l, !Z.div_1_r in E0. rewrite Z.div_1_r, E0. done.
Qed.

Lemma block_spec32 r w h hibit T :
  r_ok r → limbs_ok h → 0 <= T < 2 ^ 128 → hibit = 0 ∨ hibit = 2 ^ 24 →
  (∃ w0 w1 w2 w3 w4, split26 T = (w0, w1, w2, w3, w4) ∧ w = (w0, w1, w2, w3, w4 + hibit) ∧ 0 <= w4 < 2 ^ 24) →
  limbs_ok (block W r w h)
  ∧ ∃ k, eval (block W r w h) = (eval h + T + 2 ^ 104 * hibit) * eval r - k * P1305.
Proof.
  destruct h as [[[[h0 h1] h2] h3] h4]. intros Hr (H0 & H1 & H2 & H3 & H4) HT Hhi (w0 & w1 & w2 & w3 & w4 & Hs & -> & Hw4).
  assert (eval (w0, w1, w2, w3, w4) = T) as Hev by (rewrite <- Hs; apply eval_split26).
  unfold split26 in Hs. injection Hs as E0 E1 E2 E3 E4.
  assert (0 <= w0 < 2 ^ 26) as B0 by (rewrite <- E0; by apply Z.mod_pos_bound).
  assert (0 <= w1 < 2 ^ 26) as B1 by (rewrite <- E1; by apply Z.mod_pos_bound).
  assert (0 <= w2 < 2 ^ 26) as B2 by (rewrite <- E2; by apply Z.mod_pos_bound).
  assert (0 <= w3 < 2 ^ 26) as B3 by (rewrite <- E3; by apply Z.mod_pos_bound).
  clear E0 E1 E2 E3 E4. unfold block. rewrite !wadd_w by lia.
  replace (eval (h0, h1, h2, h3, h4) + T + 2 ^ 104 * hibit) with (eval (h0 + w0, h1 + w1, h2 + w2, h3 + w3, h4 + (w4 + hibit)))
    by (rewrite <- Hev; unfold eval; lia).
  apply mul_mod_spec32; [done|]. unfold sum_ok. lia.
Qed.

(** Limbs after the carries. *)
Definition carried (h : limbs) : Prop :=
  let '(h0, h1, h2, h3, h4) := h in
  0 <= h0 < 2 ^ 26 ∧ 0 <= h1 < 2 ^ 26 ∧ 0 <= h2 < 2 ^ 26 ∧ 0 <= h3 < 2 ^ 26 ∧ 0 <= h4 < 2 ^ 26.

(** One pass is enough: a carry that goes all the way round leaves the second limb small. *)
Lemma carry_spec32 h : limbs_ok h → carried (carry W h) ∧ ∃ k, eval (carry W h) = eval h - k * P1305.
Proof.
  destruct h as [[[[h0 h1] h2] h3] h4]. intros (H0 & H1 & H2 & H3 & H4). unfold carry.
  rewrite !(land_mask _ 26 0x3ffffff), !Z.shiftr_div_pow2 by done.
  carry h1 26 1 c1 x1. rewrite (wadd_w h2) by lia. carry (h2 + c1) 26 1 c2 x2. rewrite (wadd_w h3) by lia.
  carry (h3 + c2) 26 1 c3 x3. rewrite (wadd_w h4) by lia. carry (h4 + c3) 26 1 c4 x4.
  rewrite wmul_w, (wadd_w h0) by lia. carry (h0 + c4 * 5) 26 1 c5 x0. rewrite wadd_w by lia.
  split; [unfold carried; lia|]. exists c4. unfold eval, P1305. lia.
Qed.

Lemma select_h32 h g : word_ok W h → Z.lor (Z.land h (wnot W 0)) (Z.land g 0) = h.
Proof. intros Hh. rewrite wnot_zero, Z.land_0_r, Z.lor_0_r, land_ones_all by (done || lia). done. Qed.

Lemma select_g32 h g : word_ok W g → Z.lor (Z.land h (wnot W (2 ^ W - 1))) (Z.land g (2 ^ W - 1)) = g.
Proof. intros Hg. rewrite wnot_all, Z.land_0_r, Z.lor_0_l, land_ones_all by (done || lia). done. Qed.

Lemma mask_negative x :
  - 2 ^ 26 <= x < 0 → wsub W (Z.shiftr (wrap W x) (W - 1)) 1 = 0.
Proof.
  intros Hx. assert (wrap W x = x + 2 ^ W) as ->.
  { unfold wrap. symmetry. apply (Z.mod_unique _ _ (-1)); destruct HW as [-> | ->]; lia. }
  rewrite Z.shiftr_div_pow2 by lia. assert ((x + 2 ^ W) / 2 ^ (W - 1) = 1) as ->; [|done].
  symmetry. apply (Z.div_unique _ _ _ (x + 2 ^ W - 2 ^ (W - 1))); destruct HW as [-> | ->]; lia.
Qed.

Lemma mask_nonnegative x :
  0 <= x < 2 ^ 26 → wsub W (Z.shiftr x (W - 1)) 1 = 2 ^ W - 1.
Proof.
  intros Hx. rewrite Z.shiftr_div_pow2, Z.div_small by (destruct HW as [-> | ->]; lia).
  unfold wsub, wrap. symmetry. apply (Z.mod_unique _ _ (-1)); destruct HW as [-> | ->]; lia.
Qed.

Lemma reduce_spec32 h : carried h → carried (reduce W h) ∧ eval (reduce W h) = eval h mod P1305.
Proof.
  destruct h as [[[[h0 h1] h2] h3] h4]. intros (H0 & H1 & H2 & H3 & H4). unfold reduce.
  rewrite !(land_mask _ 26 0x3ffffff), !(Z.shiftr_div_pow2 _ 26) by done.
  rewrite (wadd_w h0) by lia. carry (h0 + 5) 26 1 c0 g0. rewrite (wadd_w h1) by lia. carry (h1 + c0) 26 1 c1 g1.
  rewrite (wadd_w h2) by lia. carry (h2 + c1) 26 1 c2 g2. rewrite (wadd_w h3) by lia. carry (h3 + c2) 26 1 c3 g3.
  rewrite (wadd_w h4) by lia. change (Z.shiftl 1 26) with (2 ^ 26).
  destruct (decide (h4 + c3 < 2 ^ 26)) as [Hlt|Hge].
  - pose proof (mask_negative (h4 + c3 - 2 ^ 26) ltac:(lia)) as Hm.
    change (wrap W (h4 + c3 - 2 ^ 26)) with (wsub W (h4 + c3) (2 ^ 26)) in Hm.
    rewrite Hm, !select_h32 by (apply wide; lia).
    split; [unfold carried; lia|]. unfold eval, P1305. rewrite Z.mod_small; lia.
  - assert (wsub W (h4 + c3) (2 ^ 26) = h4 + c3 - 2 ^ 26) as -> by (apply wrap_small, wide; lia).
    rewrite mask_nonnegative, !select_g32 by ((apply wide; lia) || lia).
    split; [unfold carried; lia|]. unfold eval, P1305. apply (Z.mod_unique _ _ 1); lia.
Qed.

Lemma U32TO8_bytes v : U32TO8 v = le_bytes 4 v.
Proof.
  unfold U32TO8. cbn [map le_bytes]. rewrite !land_ff, !Z.shiftr_div_pow2, !Z.div_div, Z.div_1_r by done. done.
Qed.

(** A word of the sum from two neighbouring limbs. *)
Lemma word_of_limbs a b k :
  0 <= k <= 32 → 0 <= a < 2 ^ k → Z.land (Z.lor a (wshl W b k)) 0xffffffff = (a + 2 ^ k * b) mod 2 ^ 32.
Proof.
  intros Hk Ha. rewrite lor_wshl, (land_mask _ 32) by (done || lia).
  rewrite (Z.add_mod a), (Z.add_mod a (2 ^ k * b)) by done. do 2 f_equal.
  rewrite <- (Z.mul_mod_distr_l b (2 ^ (W - k)) (2 ^ k)) by (apply Z.pow_nonzero; lia).
  rewrite <- Z.pow_add_r by lia. replace (k + (W - k)) with W by lia.
  exact (mod_wrap (2 ^ k * b) 32 W ltac:(lia)).
Qed.

Lemma low_word c x : le_bytes 4 (c * 2 ^ 32 + x) = le_bytes 4 x.
Proof.
  rewrite <- (le_bytes_mod 4 x), <- (le_bytes_mod 4 (_ + x)). change (256 ^ Z.of_nat 4) with (2 ^ 32).
  by rewrite Z.add_comm, Z.mod_add.
Qed.

Lemma peel_word n x y : 0 <= x < 2 ^ 32 → le_bytes (4 + n) (x + 2 ^ 32 * y) = le_bytes 4 x ++ le_bytes n y.
Proof.
  intros Hx. rewrite le_bytes_app. change (256 ^ Z.of_nat 4) with (2 ^ 32).
  rewrite Z.add_comm, Z.mul_comm, low_word, Z.add_comm, Z.div_add, Z.div_small by done. done.
Qed.

(** The sum of two numbers of four words, with the carries in 64 bits. *)
Lemma sum_words m0 m1 m2 m3 p0 p1 p2 p3 a :
  word_ok 32 m0 → word_ok 32 m1 → word_ok 32 m2 → word_ok 32 m3 →
  word_ok 32 p0 → word_ok 32 p1 → word_ok 32 p2 → word_ok 32 p3 →
  let f0 := wadd 64 m0 p0 in
  let f1 := wadd 64 (wadd 64 m1 p1) (Z.shiftr f0 32) in
  let f2 := wadd 64 (wadd 64 m2 p2) (Z.shiftr f1 32) in
  let f3 := wadd 64 (wadd 64 m3 p3) (Z.shiftr f2 32) in
  U32TO8 (wrap W f0) ++ U32TO8 (wrap W f1) ++ U32TO8 (wrap W f2) ++ U32TO8 (wrap W f3)
  = le_bytes 16 ((m0 + p0) + 2 ^ 32 * (m1 + p1) + 2 ^ 64 * (m2 + p2) + 2 ^ 96 * (m3 + p3) + 2 ^ 128 * a).
Proof.
  unfold word_ok. intros M0 M1 M2 M3 P0 P1 P2 P3. cbv zeta. rewrite !U32TO8_bytes, !le_bytes_wrap, !Z.shiftr_div_pow2 by lia.
  rewrite (wadd_small 64 m0), (wadd_small 64 m1), (wadd_small 64 m2), (wadd_small 64 m3) by (unfold word_ok; lia).
  carry (m0 + p0) 32 1 c0 x0. rewrite (wadd_small 64 (m1 + p1)) by (unfold word_ok; lia).
  carry (m1 + p1 + c0) 32 1 c1 x1. rewrite (wadd_small 64 (m2 + p2)) by (unfold word_ok; lia).
  carry (m2 + p2 + c1) 32 1 c2 x2. rewrite (wadd_small 64 (m3 + p3)) by (unfold word_ok; lia).
  set (S := _ + 2 ^ 128 * a).
  assert (S = x0 + 2 ^ 32 * (x1 + 2 ^ 32 * (x2 + 2 ^ 32 * (m3 + p3 + c2 + 2 ^ 32 * a)))) as -> by (unfold S; lia).
  rewrite Ec0, Ec1, Ec2, !low_word by done. change 16%nat with (4 + (4 + (4 + 4)))%nat.
  rewrite !peel_word by done. replace (m3 + p3 + c2 + 2 ^ 32 * a) with (a * 2 ^ 32 + (m3 + p3 + c2)) by lia.
  by rewrite low_word.
Qed.

Lemma add_pad_spec32 h p0 p1 p2 p3 :
  carried h → word_ok 32 p0 → word_ok 32 p1 → word_ok 32 p2 → word_ok 32 p3 →
  add_pad W h (p0, p1, p2, p3) = le_bytes 16 (eval h + (p0 + 2 ^ 32 * p1 + 2 ^ 64 * p2 + 2 ^ 96 * p3)).
Proof.
  destruct h as [[[[h0 h1] h2] h3] h4]. intros (H0 & H1 & H2 & H3 & H4) P0 P1 P2 P3.
  unfold add_pad. rewrite !(Z.shiftr_div_pow2 h1), !(Z.shiftr_div_pow2 h2), !(Z.shiftr_div_pow2 h3) by done.
  carry h1 6 (2 ^ 20 - 1) a1 b1. carry h2 12 (2 ^ 14 - 1) a2 b2. carry h3 18 (2 ^ 8 - 1) a3 b3.
  rewrite !word_of_limbs by lia. carry h4 24 3 a4 b4.
  assert ((h0 + 2 ^ 26 * h1) mod 2 ^ 32 = h0 + 2 ^ 26 * b1) as -> by (symmetry; apply (Z.mod_unique _ _ a1); lia).
  assert ((a1 + 2 ^ 20 * h2) mod 2 ^ 32 = a1 + 2 ^ 20 * b2) as -> by (symmetry; apply (Z.mod_unique _ _ a2); lia).
  assert ((a2 + 2 ^ 14 * h3) mod 2 ^ 32 = a2 + 2 ^ 14 * b3) as -> by (symmetry; apply (Z.mod_unique _ _ a3); lia).
  assert ((a3 + 2 ^ 8 * h4) mod 2 ^ 32 = a3 + 2 ^ 8 * b4) as -> by (symmetry; apply (Z.mod_unique _ _ a4); lia).
  rewrite (sum_words _ _ _ _ p0 p1 p2 p3 a4) by (done || (unfold word_ok; lia)).
  f_equal. unfold eval. lia.
Qed.

(** The limbs of a key. *)
Definition r_of (key : bytes) : limbs :=
  let T := le_val (take 16 key) in
  (Z.land (T mod 2 ^ 26) 0x3ffffff, Z.land (T / 2 ^ 26 mod 2 ^ 26) 0x3ffff03, Z.land (T / 2 ^ 52 mod 2 ^ 26) 0x3ffc0ff,
   Z.land (T / 2 ^ 78 mod 2 ^ 26) 0x3f03fff, Z.land (T / 2 ^ 104) 0x00fffff).
Definition pad_of (key : bytes) : pads :=
  let T := key_s key in (T mod 2 ^ 32, T / 2 ^ 32 mod 2 ^ 32, T / 2 ^ 64 mod 2 ^ 32, T / 2 ^ 96 mod 2 ^ 32).

Lemma land_range x k m b : 0 <= k → 0 <= m < b → 0 <= Z.land (x mod 2 ^ k) m < b.
Proof.
  intros Hk Hm. pose proof (Z.mod_pos_bound x (2 ^ k) ltac:(by apply Z.pow_pos_nonneg)).
  split; [apply Z.land_nonneg; lia|]. eapply Z.le_lt_trans; [apply land_le|]; lia.
Qed.

Lemma r_of_spec32 key : key_ok key → r_ok (r_of key) ∧ eval (r_of key) = key_r key.
Proof.
  intros [Hk Hl]. unfold ZT_POLY1305_KEY_LEN in Hl. pose proof (take_16_range key Hk ltac:(lia)) as HT.
  unfold r_of, key_r, eval, r_ok. generalize dependent (le_val (take 16 key)). intros T HT. split.
  - assert (0 <= T / 2 ^ 104 < 2 ^ 24) as H4 by (split; [apply Z.div_pos|apply Z.div_lt_upper_bound]; lia).
    do 4 (split; [apply land_range; lia|]). rewrite <- (Z.mod_small (T / 2 ^ 104) (2 ^ 24)) by done. apply land_range; lia.
  - assert (∀ k, 0 <= k → T / 2 ^ k / 2 ^ 26 = T / 2 ^ (k + 26)) as Hd
      by (intros k Hk0; rewrite Z.div_div, <- Z.pow_add_r by (apply Z.pow_pos_nonneg; lia) || lia; done).
    rewrite (land_split T _ 26), (land_split (T / 2 ^ 26) _ 26), Hd by lia.
    change (26 + 26) with 52. rewrite (land_split (T / 2 ^ 52) _ 26), Hd by lia.
    change (52 + 26) with 78. rewrite (land_split (T / 2 ^ 78) _ 26), Hd by lia. change (78 + 26) with 104.
    change (0xffffffc0ffffffc0ffffffc0fffffff mod 2 ^ 26) with 0x3ffffff.
    change (0xffffffc0ffffffc0ffffffc0fffffff / 2 ^ 26 mod 2 ^ 26) with 0x3ffff03.
    change (0xffffffc0ffffffc0ffffffc0fffffff / 2 ^ 26 / 2 ^ 26 mod 2 ^ 26) with 0x3ffc0ff.
    change (0xffffffc0ffffffc0ffffffc0fffffff / 2 ^ 26 / 2 ^ 26 / 2 ^ 26 mod 2 ^ 26) with 0x3f03fff.
    change (0xffffffc0ffffffc0ffffffc0fffffff / 2 ^ 26 / 2 ^ 26 / 2 ^ 26 / 2 ^ 26) with 0x00fffff. lia.
Qed.

Lemma init_spec32 junk key :
  key_ok key → init W junk key = Ok (PolyState (r_of key) (0, 0, 0, 0, 0) (pad_of key) 0 junk 0).
Proof.
  intros [Hk Hl]. unfold ZT_POLY1305_KEY_LEN in Hl. unfold init.
  rewrite (load_field key 0), (load_field key 3), (load_field key 6), (load_field key 9), (load_field key 12) by (done || lia).
  assert (∀ off, 0 <= off <= 12 → U8TO32 W key (16 + off) = Ok (key_s key / 2 ^ (8 * off) mod 2 ^ 32)) as Hpad.
  { intros off Ho. rewrite U8TO32_val by (done || lia).
    pose proof (load_field (drop 16 key) off) as E. rewrite U8TO32_val in E.
    - rewrite drop_drop in E. rewrite Z2Nat.inj_add by lia. change (Z.to_nat 16) with 16%nat.
      apply E; [by apply Forall_drop|unfold zlen in *; rewrite length_drop; lia|done].
    - by apply Forall_drop.
    - lia.
    - unfold zlen in *. rewrite length_drop. lia. }
  rewrite (Hpad 0 ltac:(lia) : U8TO32 W key 16 = _), (Hpad 4 ltac:(lia) : U8TO32 W key 20 = _),
    (Hpad 8 ltac:(lia) : U8TO32 W key 24 = _), (Hpad 12 ltac:(lia) : U8TO32 W key 28 = _).
  unfold mbind, cres_bind. unfold r_of, pad_of. set (T := le_val (take 16 key)).
  rewrite !Z.shiftr_div_pow2, !Z.mul_0_r, !Z.div_1_r by lia.
  change (8 * 3) with 24. change (8 * 6) with 48. change (8 * 9) with 72. change (8 * 12) with 96.
  change (8 * 4) with 32. change (8 * 8) with 64.
  rewrite <- (land_mod_l (_ / 2 ^ 2) 26), <- (land_mod_l (_ / 2 ^ 4) 26), <- (land_mod_l (_ / 2 ^ 6) 26), <- (land_mod_l (_ / 2 ^ 8) 24) by done.
  rewrite !field_field by lia. change (24 + 2) with 26. change (48 + 4) with 52. change (72 + 6) with 78. change (96 + 8) with 104.
  rewrite (land_mod_l (T / 2 ^ 104) 24), (land_mod_l T 32), (land_mod_l T 26) by done. done.
Qed.

Lemma step_spec32 key hibit m h :
  key_ok key → hibit = 0 ∨ hibit = 2 ^ 24 → bytes_ok m → 16 <= zlen m → limbs_ok h →
  ∃ h', step W (r_of key) hibit m h = Ok h' ∧ limbs_ok h'
    ∧ ∃ k, eval h' = (eval h + le_val (take 16 m) + 2 ^ 104 * hibit) * key_r key - k * P1305.
Proof.
  intros Hkey Hhi Hm Hl Hh. destruct (words_spec hibit m Hm Hl Hhi) as (w0 & w1 & w2 & w3 & w4 & Hs & E & Hw).
  destruct (r_of_spec32 key Hkey) as [Hr <-]. unfold step. rewrite E. unfold mbind, cres_bind.
  eexists. split; [done|]. apply (block_spec32 _ _ _ hibit (le_val (take 16 m))); try done.
  - by apply take_16_range.
  - by exists w0, w1, w2, w3, w4.
Qed.

Lemma mac_spec32 key h :
  key_ok key → limbs_ok h →
  add_pad W (reduce W (carry W h)) (pad_of key) = le_bytes 16 (eval h mod P1305 + key_s key).
Proof.
  intros [Hk Hl] Hh. unfold ZT_POLY1305_KEY_LEN in Hl. destruct (carry_spec32 h Hh) as (Hc & k & Hev).
  destruct (reduce_spec32 _ Hc) as (Hr & Hrv). unfold pad_of.
  assert (0 <= key_s key < 2 ^ 128) as Hs.
  { apply take_16_range; [by apply Forall_drop|unfold zlen in *; rewrite length_drop; lia]. }
  rewrite add_pad_spec32 by (done || by apply Z.mod_pos_bound). rewrite Hrv, Hev.
  replace (eval h - k * P1305) with (eval h + (- k) * P1305) by lia. rewrite Z.mod_add by done.
  do 2 f_equal. clear - Hs. Z.to_euclidean_division_equations. lia.
Qed.
End word.
End P32Facts.

Module P32Laws.
Import P32 P32Facts.
Section word.
Context (W : Z) (HW : W = 32 ∨ W = 64).

Lemma blocks_law32 key st m (k : nat) :
  key_ok key → st_r st = r_of key → st_final st = 0 → limbs_ok (st_h st) → bytes_ok m → 16 * Z.of_nat k <= zlen m →
  ∃ h', blocks W st m (16 * Z.of_nat k) = Ok (with_h st h') ∧ limbs_ok h'
    ∧ eval h' mod P1305 = absorb (key_r key) (chunks (take (16 * k) m)) (eval (st_h st)) mod P1305.
Proof.
  intros Hkey Hr Hf Hh Hm Hl. unfold blocks, rounds. rewrite Hf, Hr. cbn [negb Z.eqb].
  unfold poly1305_block_size. rewrite Z.mul_comm, Z.div_mul, Nat2Z.id, (Z.mul_comm _ 16) by done.
  destruct (while_blocks_spec (step W (r_of key) (Z.shiftl 1 24)) limbs_ok eval (key_r key) (2 ^ 128)) with (k := k) (m := m) (h := st_h st)
    as (h' & -> & Hok & Hev); try done.
  - intros m' h Hm' Hl' Hh'. apply (step_spec32 W HW key (2 ^ 24)); [done|by right|done..].
  - exists h'. unfold with_h. by rewrite Hr, Hf.
Qed.

Lemma finish_law32 key st rest tail :
  key_ok key → st_r st = r_of key → st_pad st = pad_of key → st_final st = 0 → limbs_ok (st_h st) →
  st_buffer st = rest ++ tail → zlen (st_buffer st) = 16 → zlen rest < 16 → st_leftover st = zlen rest → bytes_ok rest →
  ∃ st', finish W st = Ok (le_bytes 16 (absorb (key_r key) (chunks rest) (eval (st_h st)) mod P1305 + key_s key), st').
Proof.
  intros Hkey Hr Hp Hf Hh Hb Hbl Hrest Hl Hok. unfold finish. rewrite absorb_short, Hl by done.
  destruct (Z.eqb_spec (zlen rest) 0) as [E|Hne]; cbn [negb].
  - unfold mbind, cres_bind. eexists. by rewrite Hp, mac_spec32.
  - rewrite Hb in *. destruct (pad_buffer_rest rest tail Hbl Hrest) as (b & -> & Hb16 & Hval & Hbok).
    unfold mbind, cres_bind. unfold blocks. cbn [st_r st_h st_pad st_leftover st_buffer st_final negb Z.eqb].
    change (rounds poly1305_block_size) with 1%nat. unfold poly1305_block_size. rewrite while_one, Hr.
    destruct (step_spec32 W HW key 0 b (st_h st) Hkey) as (h' & -> & Hh' & k & Hev); [by left|by apply Hbok|lia|done|].
    cbn [mbind cres_bind st_h st_pad]. eexists. rewrite Hp, mac_spec32 by done. rewrite Hev, Z.add_0_r.
    rewrite take_ge, Hval by (unfold zlen in Hb16; lia).
    rewrite Z.mod_mod by done. replace (_ - k * P1305) with ((eval (st_h st) + le_val (rest ++ [1])) * key_r key + (- k) * P1305) by lia.
    by rewrite Z.mod_add.
Qed.

Lemma zero_law32 : limbs_ok (0, 0, 0, 0, 0) ∧ eval (0, 0, 0, 0, 0) = 0.
Proof. by split_and!. Qed.

Definition laws : PolyLaws (H := poly32 W) P32.limbs P32.pads :=
  Build_PolyLaws P32.limbs P32.pads (poly32 W) eval limbs_ok (0, 0, 0, 0, 0) r_of pad_of
    zero_law32 (init_spec32 W HW) blocks_law32 finish_law32.
End word.
End P32Laws.

(** ** Both implementations are Poly1305 *)

(** A message in several calls of [poly1305_update]. *)
Definition mac_of_parts {L P : Type} `{Poly L P} (junk : bytes) (parts : list bytes) (key : bytes) : cres bytes :=
  ctx ← poly1305_init junk key;
  ctx ← foldl (λ r m, st ← r; poly1305_update st m (zlen m)) (Ok ctx) parts;
  '(mac, _) ← poly1305_finish ctx;
  Ok mac.

Lemma mac_of_parts_correct {L P : Type} `{PolyLaws L P} junk parts key :
  key_ok key → zlen junk = 16 → Forall bytes_ok parts →
  mac_of_parts junk parts key = Ok (poly1305 (concat parts) key).
Proof.
  intros Hkey Hj Hp. unfold mac_of_parts. destruct (absorbed_init key Hkey junk Hj) as (st & -> & Ha).
  destruct (absorbed_updates key Hkey parts [] st Ha Hp) as (st1 & E1 & Ha1).
  destruct (absorbed_finish key Hkey _ _ Ha1) as (st2 & E2). unfold mbind, cres_bind in *. by rewrite E1, E2.
Qed.

(** What the users of the authenticator rely on. *)
Class Authenticator {L P : Type} (Impl : Poly L P) := {
  authenticator junk data len key :
    key_ok key → zlen junk = 16 → bytes_ok data → 0 <= len <= zlen data →
    compute junk data len key = Ok (poly1305 (take (Z.to_nat len) data) key);
}.

#[export] Instance poly64_authenticator : Authenticator poly64.
Proof. split. intros. by apply (compute_correct (H0 := poly64_laws)). Qed.

Lemma poly32_authenticator W : W = 32 ∨ W = 64 → Authenticator (poly32 W).
Proof. intros HW. split. intros. by apply (compute_correct (H0 := P32Laws.laws W HW)). Qed.

(** C3: both implementations of Poly1305 compute Poly1305.  For every 32-byte key and every
    message the one with 44-bit limbs and the one with 26-bit limbs, the latter with an
    [unsigned long] of 32 or of 64 bits, are defined and give the sixteen bytes of the
    polynomial over the clamped key modulo 2^130 - 5 plus the second half of the key: no
    product or carry is lost, the last partial block is padded right and the reduction at
    the end is complete.  So does [poly1305_update] in any number of pieces of any size. *)
Theorem poly1305_correct (key junk data : bytes) (len : Z) (parts : list bytes) :
  key_ok key → zlen junk = 16 → bytes_ok data → 0 <= len <= zlen data → Forall bytes_ok parts →
  (compute (H := poly64) junk data len key = Ok (poly1305 (take (Z.to_nat len) data) key)
   ∧ mac_of_parts (H := poly64) junk parts key = Ok (poly1305 (concat parts) key))
  ∧ ∀ W, W = 32 ∨ W = 64 →
      compute (H := poly32 W) junk data len key = Ok (poly1305 (take (Z.to_nat len) data) key)
      ∧ mac_of_parts (H := poly32 W) junk parts key = Ok (poly1305 (concat parts) key).
Proof.
  intros Hkey Hj Hd Hl Hp. split; [split|].
  - by apply (compute_correct (H0 := poly64_laws)).
  - by apply (mac_of_parts_correct (H0 := poly64_laws)).
  - intros W HW. split.
    + by apply (compute_correct (H0 := P32Laws.laws W HW)).
    + by apply (mac_of_parts_correct (H0 := P32Laws.laws W HW)).
Qed.

(** The example of RFC 8439, section 2.5.2. *)
Definition rfc_key : bytes :=
  [133; 214; 190; 120; 87; 85; 109; 51; 127; 68; 82; 254; 66; 213; 6; 168;
   1; 3; 128; 138; 251; 13; 178; 253; 74; 191; 246; 175; 65; 73; 245; 27].
Definition rfc_message : bytes :=
  [67; 114; 121; 112; 116; 111; 103; 114; 97; 112; 104; 105; 99; 32; 70; 111; 114;
   117; 109; 32; 82; 101; 115; 101; 97; 114; 99; 104; 32; 71; 114; 111; 117; 112].
Definition rfc_tag : bytes := [168; 6; 29; 193; 48; 81; 54; 198; 194; 43; 139; 175; 12; 1; 39; 169].

Lemma poly1305_correct_witness :
  compute (H := poly64) (memset 16 0) rfc_message 34 rfc_key = Ok rfc_tag
  ∧ compute (H := poly32 32) (memset 16 0) rfc_message 34 rfc_key = Ok rfc_tag.
Proof.
  assert (bytes_ok rfc_message) as Hm by (repeat constructor; lia).
  destruct (poly1305_correct rfc_key (memset 16 0) rfc_message 34 [rfc_message]) as [[H64 _] H32].
  - split; [repeat constructor; lia|done].
  - done.
  - exact Hm.
  - vm_compute. split; discriminate.
  - by repeat constructor.
  - destruct (H32 32 (or_introl eq_refl)) as [H32' _].
    change (poly1305 (take (Z.to_nat 34) rfc_message) rfc_key) with (poly1305 rfc_message rfc_key) in *.
    assert (poly1305 rfc_message rfc_key = rfc_tag) as E by (vm_compute; reflexivity).
    rewrite E in *. split; [exact H64|exact H32'].
Defined.
