(* ===== verification/Salsa20.v ===== *)
(** * Salsa20 (zto/node/Salsa20.hpp, Salsa20.cpp)

    The stream cipher of packets.  The source has two implementations that the
    preprocessor chooses between: [Scalar], sixteen 32-bit words, and [SSE], the same
    matrix by diagonals in four vector registers with another order of the words in
    memory.  Both are instances of [Salsa]; the loop of [crypt12] and [crypt20] over
    the blocks of a message is written once, as in the source.  A call works on one
    memory with two positions in it, as callers encrypt in place.

    The specification is the definition of the cipher: quarter rounds on rows and
    columns, [salsa20_block] for a key, a nonce and a block number, and [keystream]. *)

From Stdlib Require Import ZArith Lia.
From stdpp Require Import base numbers list option.
From S2P Require Import Prelude Words.

Open Scope Z_scope.

(** ** The sixteen words of [_state.i] *)

Record words := W16 {
  i0 : Z; i1 : Z; i2 : Z; i3 : Z; i4 : Z; i5 : Z; i6 : Z; i7 : Z;
  i8 : Z; i9 : Z; i10 : Z; i11 : Z; i12 : Z; i13 : Z; i14 : Z; i15 : Z;
}.

Definition XOR (v w : Z) : Z := Z.lxor v w.
Definition PLUS (v w : Z) : Z := wadd 32 v w.
Definition ROTATE (v c : Z) : Z := rotl 32 v c.

(** What the two implementations define: [init], one block (the keystream of the state
    combined with 64 bytes of the memory), the step of the counter, and what a call leaves
    in the state it started from. *)
Class Salsa := {
  salsa_init : bytes → Z → bytes → cres words;
  salsa_block12 : words → bytes → Z → Z → cres bytes;
  salsa_block20 : words → bytes → Z → Z → cres bytes;
  salsa_next : words → words;
  salsa_save : words → words → words;
}.

(** ** The portable implementation *)

Module Scalar.

(** U8TO32_LITTLE and U32TO8_LITTLE. *)
Definition U8TO32_LITTLE (p : bytes) (off : Z) : cres Z := load_le 4 p off.
Definition U32TO8_LITTLE (c : Z) (v : Z) (mem : bytes) : cres bytes := mem_write c (le_bytes 4 v) mem.

(** The strings "expand 32-byte k" and "expand 16-byte k". *)
Definition sigma : bytes := [101; 120; 112; 97; 110; 100; 32; 51; 50; 45; 98; 121; 116; 101; 32; 107].
Definition tau : bytes := [101; 120; 112; 97; 110; 100; 32; 49; 54; 45; 98; 121; 116; 101; 32; 107].

Definition init (key : bytes) (kbits : Z) (iv : bytes) : cres words :=
  s1 ← U8TO32_LITTLE key 0;
  s2 ← U8TO32_LITTLE key 4;
  s3 ← U8TO32_LITTLE key 8;
  s4 ← U8TO32_LITTLE key 12;
  let k := if kbits =? 256 then 16 else 0 in
  let constants := if kbits =? 256 then sigma else tau in
  s5 ← U8TO32_LITTLE constants 4;
  s6 ← U8TO32_LITTLE iv 0;
  s7 ← U8TO32_LITTLE iv 4;
  s10 ← U8TO32_LITTLE constants 8;
  s11 ← U8TO32_LITTLE key (k + 0);
  s12 ← U8TO32_LITTLE key (k + 4);
  s13 ← U8TO32_LITTLE key (k + 8);
  s14 ← U8TO32_LITTLE key (k + 12);
  s15 ← U8TO32_LITTLE constants 12;
  s0 ← U8TO32_LITTLE constants 0;
  Ok (W16 s0 s1 s2 s3 s4 s5 s6 s7 0 0 s10 s11 s12 s13 s14 s15).

(** One "2X round". *)
Definition round2 (x : words) : words :=
  let '(W16 x0 x1 x2 x3 x4 x5 x6 x7 x8 x9 x10 x11 x12 x13 x14 x15) := x in
  let x4 := XOR x4 (ROTATE (PLUS x0 x12) 7) in
  let x8 := XOR x8 (ROTATE (PLUS x4 x0) 9) in
  let x12 := XOR x12 (ROTATE (PLUS x8 x4) 13) in
  let x0 := XOR x0 (ROTATE (PLUS x12 x8) 18) in
  let x9 := XOR x9 (ROTATE (PLUS x5 x1) 7) in
  let x13 := XOR x13 (ROTATE (PLUS x9 x5) 9) in
  let x1 := XOR x1 (ROTATE (PLUS x13 x9) 13) in
  let x5 := XOR x5 (ROTATE (PLUS x1 x13) 18) in
  let x14 := XOR x14 (ROTATE (PLUS x10 x6) 7) in
  let x2 := XOR x2 (ROTATE (PLUS x14 x10) 9) in
  let x6 := XOR x6 (ROTATE (PLUS x2 x14) 13) in
  let x10 := XOR x10 (ROTATE (PLUS x6 x2) 18) in
  let x3 := XOR x3 (ROTATE (PLUS x15 x11) 7) in
  let x7 := XOR x7 (ROTATE (PLUS x3 x15) 9) in
  let x11 := XOR x11 (ROTATE (PLUS x7 x3) 13) in
  let x15 := XOR x15 (ROTATE (PLUS x11 x7) 18) in
  let x1 := XOR x1 (ROTATE (PLUS x0 x3) 7) in
  let x2 := XOR x2 (ROTATE (PLUS x1 x0) 9) in
  let x3 := XOR x3 (ROTATE (PLUS x2 x1) 13) in
  let x0 := XOR x0 (ROTATE (PLUS x3 x2) 18) in
  let x6 := XOR x6 (ROTATE (PLUS x5 x4) 7) in
  let x7 := XOR x7 (ROTATE (PLUS x6 x5) 9) in
  let x4 := XOR x4 (ROTATE (PLUS x7 x6) 13) in
  let x5 := XOR x5 (ROTATE (PLUS x4 x7) 18) in
  let x11 := XOR x11 (ROTATE (PLUS x10 x9) 7) in
  let x8 := XOR x8 (ROTATE (PLUS x11 x10) 9) in
  let x9 := XOR x9 (ROTATE (PLUS x8 x11) 13) in
  let x10 := XOR x10 (ROTATE (PLUS x9 x8) 18) in
  let x12 := XOR x12 (ROTATE (PLUS x15 x14) 7) in
  let x13 := XOR x13 (ROTATE (PLUS x12 x15) 9) in
  let x14 := XOR x14 (ROTATE (PLUS x13 x12) 13) in
  let x15 := XOR x15 (ROTATE (PLUS x14 x13) 18) in
  W16 x0 x1 x2 x3 x4 x5 x6 x7 x8 x9 x10 x11 x12 x13 x14 x15.

(** The unrolled rounds of [crypt12] and of [crypt20]. *)
Definition rounds12 (x : words) : words :=
  round2 (round2 (round2 (round2 (round2 (round2 x))))).
Definition rounds20 (x : words) : words :=
  round2 (round2 (round2 (round2 (round2 (round2 (round2 (round2 (round2 (round2 x))))))))).

(** x<n> = PLUS(x<n>,j<n>). *)
Definition add_input (x j : words) : list Z :=
  [PLUS (i0 x) (i0 j); PLUS (i1 x) (i1 j); PLUS (i2 x) (i2 j); PLUS (i3 x) (i3 j);
   PLUS (i4 x) (i4 j); PLUS (i5 x) (i5 j); PLUS (i6 x) (i6 j); PLUS (i7 x) (i7 j);
   PLUS (i8 x) (i8 j); PLUS (i9 x) (i9 j); PLUS (i10 x) (i10 j); PLUS (i11 x) (i11 j);
   PLUS (i12 x) (i12 j); PLUS (i13 x) (i13 j); PLUS (i14 x) (i14 j); PLUS (i15 x) (i15 j)].

(** U32TO8_LITTLE(c + 4n,XOR(x<n>,U8TO32_LITTLE(m + 4n))), for each word in turn. *)
Fixpoint xor_out (mem : bytes) (m c : Z) (xs : list Z) : cres bytes :=
  match xs with
  | [] => Ok mem
  | x :: xs' =>
      w ← U8TO32_LITTLE mem m;
      mem ← U32TO8_LITTLE c (XOR x w) mem;
      xor_out mem (m + 4) (c + 4) xs'
  end.

Definition block12 (j : words) (mem : bytes) (m c : Z) : cres bytes := xor_out mem m c (add_input (rounds12 j) j).
Definition block20 (j : words) (mem : bytes) (m c : Z) : cres bytes := xor_out mem m c (add_input (rounds20 j) j).

(** if (!(++j8)) ++j9. *)
Definition next (j : words) : words :=
  let j8 := wadd 32 (i8 j) 1 in
  let j9 := if j8 =? 0 then wadd 32 (i9 j) 1 else i9 j in
  W16 (i0 j) (i1 j) (i2 j) (i3 j) (i4 j) (i5 j) (i6 j) (i7 j) j8 j9
    (i10 j) (i11 j) (i12 j) (i13 j) (i14 j) (i15 j).

(** _state.i[8] = j8; _state.i[9] = j9. *)
Definition save (state j : words) : words :=
  W16 (i0 state) (i1 state) (i2 state) (i3 state) (i4 state) (i5 state) (i6 state) (i7 state) (i8 j) (i9 j)
    (i10 state) (i11 state) (i12 state) (i13 state) (i14 state) (i15 state).

End Scalar.

Definition scalar : Salsa := {|
  salsa_init := Scalar.init;
  salsa_block12 := Scalar.block12;
  salsa_block20 := Scalar.block20;
  salsa_next := Scalar.next;
  salsa_save := Scalar.save;
|}.

(** ** The implementation on vector registers *)

Module SSE.

(** [__m128i] as its four 32-bit lanes, the lowest first. *)
Record m128i := V4 { v0 : Z; v1 : Z; v2 : Z; v3 : Z }.

Definition lanes (f : Z → Z) (x : m128i) : m128i := V4 (f (v0 x)) (f (v1 x)) (f (v2 x)) (f (v3 x)).
Definition lanes2 (f : Z → Z → Z) (x y : m128i) : m128i :=
  V4 (f (v0 x) (v0 y)) (f (v1 x) (v1 y)) (f (v2 x) (v2 y)) (f (v3 x) (v3 y)).
(** An operation on the two 64-bit halves. *)
Definition halves (f : Z → Z) (x : m128i) : m128i :=
  let lo := f (v0 x + 2 ^ 32 * v1 x) in
  let hi := f (v2 x + 2 ^ 32 * v3 x) in
  V4 (lo mod 2 ^ 32) (lo / 2 ^ 32) (hi mod 2 ^ 32) (hi / 2 ^ 32).

Definition mm_add_epi32 : m128i → m128i → m128i := lanes2 (wadd 32).
Definition mm_xor_si128 : m128i → m128i → m128i := lanes2 Z.lxor.
Definition mm_or_si128 : m128i → m128i → m128i := lanes2 Z.lor.
Definition mm_and_si128 : m128i → m128i → m128i := lanes2 Z.land.
Definition mm_slli_epi32 (x : m128i) (n : Z) : m128i := lanes (λ z, wshl 32 z n) x.
Definition mm_srli_epi32 (x : m128i) (n : Z) : m128i := lanes (λ z, Z.shiftr z n) x.
Definition mm_slli_epi64 (x : m128i) (n : Z) : m128i := halves (λ z, wshl 64 z n) x.
Definition mm_srli_epi64 (x : m128i) (n : Z) : m128i := halves (λ z, Z.shiftr z n) x.

(** The lane that two bits of the constant of a shuffle name. *)
Definition lane (x : m128i) (k : Z) : Z :=
  if k =? 0 then v0 x else if k =? 1 then v1 x else if k =? 2 then v2 x else v3 x.
Definition mm_shuffle_epi32 (x : m128i) (imm : Z) : m128i :=
  V4 (lane x (Z.land imm 3)) (lane x (Z.land (Z.shiftr imm 2) 3))
     (lane x (Z.land (Z.shiftr imm 4) 3)) (lane x (Z.land (Z.shiftr imm 6) 3)).
Definition MM_SHUFFLE (z y x w : Z) : Z :=
  Z.lor (Z.lor (Z.lor (Z.shiftl z 6) (Z.shiftl y 4)) (Z.shiftl x 2)) w.
Definition mm_unpackhi_epi64 (a b : m128i) : m128i := V4 (v2 a) (v3 a) (v2 b) (v3 b).
Definition mm_unpacklo_epi64 (a b : m128i) : m128i := V4 (v0 a) (v1 a) (v0 b) (v1 b).
Definition mm_cvtsi32_si128 (z : Z) : m128i := V4 (wrap 32 z) 0 0 0.
Definition mm_loadu (mem : bytes) (m : Z) : cres m128i :=
  d ← mem_read m 16 mem;
  Ok (V4 (le_val (take 4 d)) (le_val (take 4 (drop 4 d))) (le_val (take 4 (drop 8 d))) (le_val (take 4 (drop 12 d)))).
Definition mm_storeu (c : Z) (x : m128i) (mem : bytes) : cres bytes :=
  mem_write c (le_bytes 4 (v0 x) ++ le_bytes 4 (v1 x) ++ le_bytes 4 (v2 x) ++ le_bytes 4 (v3 x)) mem.

(** [_s20sseconsts]. *)
Definition maskLo32 : m128i := mm_shuffle_epi32 (mm_cvtsi32_si128 (-1)) (MM_SHUFFLE 1 0 1 0).
Definition maskHi32 : m128i := mm_slli_epi64 maskLo32 32.

(** The order of the words in [_state] is that of the registers. *)
Definition init (key : bytes) (kbits : Z) (iv : bytes) : cres words :=
  s13 ← load_le 4 key 0;
  s10 ← load_le 4 key 4;
  s7 ← load_le 4 key 8;
  s4 ← load_le 4 key 12;
  let k := if kbits =? 256 then 16 else 0 in
  let s1 := if kbits =? 256 then 0x3320646e else 0x3120646e in
  let s2 := if kbits =? 256 then 0x79622d32 else 0x79622d36 in
  s15 ← load_le 4 key (k + 0);
  s12 ← load_le 4 key (k + 4);
  s9 ← load_le 4 key (k + 8);
  s6 ← load_le 4 key (k + 12);
  s14 ← load_le 4 iv 0;
  s11 ← load_le 4 iv 4;
  Ok (W16 0x61707865 s1 s2 0x6b206574 s4 0 s6 s7 0 s9 s10 s11 s12 s13 s14 s15).

(** The union: [_state.v[n]] is four words of [_state.i]. *)
Record regs := Regs { X0 : m128i; X1 : m128i; X2 : m128i; X3 : m128i }.
Definition load_state (s : words) : regs :=
  Regs (V4 (i0 s) (i1 s) (i2 s) (i3 s)) (V4 (i4 s) (i5 s) (i6 s) (i7 s))
       (V4 (i8 s) (i9 s) (i10 s) (i11 s)) (V4 (i12 s) (i13 s) (i14 s) (i15 s)).

(** X = X ^ (T << n) ^ (T >> (32 - n)). *)
Definition rot_in (X T : m128i) (l r : Z) : m128i :=
  mm_xor_si128 (mm_xor_si128 X (mm_slli_epi32 T l)) (mm_srli_epi32 T r).

(** One "2X round". *)
Definition round2 (x : regs) : regs :=
  let '(Regs X0 X1 X2 X3) := x in
  let T := mm_add_epi32 X0 X3 in
  let X1 := rot_in X1 T 7 25 in
  let T := mm_add_epi32 X1 X0 in
  let X2 := rot_in X2 T 9 23 in
  let T := mm_add_epi32 X2 X1 in
  let X3 := rot_in X3 T 13 19 in
  let T := mm_add_epi32 X3 X2 in
  let X0 := rot_in X0 T 18 14 in
  let X1 := mm_shuffle_epi32 X1 0x93 in
  let X2 := mm_shuffle_epi32 X2 0x4E in
  let X3 := mm_shuffle_epi32 X3 0x39 in
  let T := mm_add_epi32 X0 X1 in
  let X3 := rot_in X3 T 7 25 in
  let T := mm_add_epi32 X3 X0 in
  let X2 := rot_in X2 T 9 23 in
  let T := mm_add_epi32 X2 X3 in
  let X1 := rot_in X1 T 13 19 in
  let T := mm_add_epi32 X1 X2 in
  let X0 := rot_in X0 T 18 14 in
  let X1 := mm_shuffle_epi32 X1 0x39 in
  let X2 := mm_shuffle_epi32 X2 0x4E in
  let X3 := mm_shuffle_epi32 X3 0x93 in
  Regs X0 X1 X2 X3.

Definition rounds12 (x : regs) : regs :=
  round2 (round2 (round2 (round2 (round2 (round2 x))))).
Definition rounds20 (x : regs) : regs :=
  round2 (round2 (round2 (round2 (round2 (round2 (round2 (round2 (round2 (round2 x))))))))).

(** The sums with the input, and the four vectors of output in the order of the memory. *)
Definition add_input (x s : regs) : regs :=
  Regs (mm_add_epi32 (X0 s) (X0 x)) (mm_add_epi32 (X1 s) (X1 x))
       (mm_add_epi32 (X2 s) (X2 x)) (mm_add_epi32 (X3 s) (X3 x)).

Definition out_vectors (x : regs) : list m128i :=
  let '(Regs X0 X1 X2 X3) := x in
  let k02 := mm_shuffle_epi32 (mm_or_si128 (mm_slli_epi64 X0 32) (mm_srli_epi64 X3 32)) (MM_SHUFFLE 0 1 2 3) in
  let k13 := mm_shuffle_epi32 (mm_or_si128 (mm_slli_epi64 X1 32) (mm_srli_epi64 X0 32)) (MM_SHUFFLE 0 1 2 3) in
  let k20 := mm_or_si128 (mm_and_si128 X2 maskLo32) (mm_and_si128 X1 maskHi32) in
  let k31 := mm_or_si128 (mm_and_si128 X3 maskLo32) (mm_and_si128 X2 maskHi32) in
  [mm_unpackhi_epi64 k02 k20; mm_unpackhi_epi64 k13 k31; mm_unpacklo_epi64 k20 k02; mm_unpacklo_epi64 k31 k13].

(** A vector of the memory at [m] combined and stored at [c], for each vector in turn. *)
Fixpoint xor_out (mem : bytes) (m c : Z) (vs : list m128i) : cres bytes :=
  match vs with
  | [] => Ok mem
  | v :: vs' =>
      w ← mm_loadu mem m;
      mem ← mm_storeu c (mm_xor_si128 v w) mem;
      xor_out mem (m + 16) (c + 16) vs'
  end.

Definition block12 (s : words) (mem : bytes) (m c : Z) : cres bytes :=
  let x := load_state s in xor_out mem m c (out_vectors (add_input (rounds12 x) x)).
Definition block20 (s : words) (mem : bytes) (m c : Z) : cres bytes :=
  let x := load_state s in xor_out mem m c (out_vectors (add_input (rounds20 x) x)).

(** if (!(++_state.i[8])) ++_state.i[5]. *)
Definition next (s : words) : words :=
  let s8 := wadd 32 (i8 s) 1 in
  let s5 := if s8 =? 0 then wadd 32 (i5 s) 1 else i5 s in
  W16 (i0 s) (i1 s) (i2 s) (i3 s) (i4 s) s5 (i6 s) (i7 s) s8 (i9 s)
    (i10 s) (i11 s) (i12 s) (i13 s) (i14 s) (i15 s).

(** The loop works on [_state] itself. *)
Definition save (state s : words) : words := s.

End SSE.

Definition sse : Salsa := {|
  salsa_init := SSE.init;
  salsa_block12 := SSE.block12;
  salsa_block20 := SSE.block20;
  salsa_next := SSE.next;
  salsa_save := SSE.save;
|}.

(** ** A message *)

(** The loop of [crypt12] and [crypt20] around a block: a last piece of less than 64 bytes
    goes through [tmp], whose other bytes are whatever the stack held. *)
Fixpoint crypt_loop (block : words → bytes → Z → Z → cres bytes) (next : words → words) (tmp : bytes)
    (fuel : nat) (j : words) (mem : bytes) (m c n : Z) : cres (bytes * words) :=
  match fuel with
  | O => Undef OutOfFuel
  | S fuel' =>
      if n <? 64 then
        tmp ← mem_copy 0 tmp m n mem;
        tmp ← block j tmp 0 0;
        mem ← mem_copy c mem 0 n tmp;
        Ok (mem, next j)
      else
        mem ← block j mem m c;
        let j := next j in
        if n <=? 64 then Ok (mem, j)
        else crypt_loop block next tmp fuel' j mem (m + 64) (c + 64) (n - 64)
  end.

(** One round for each block, and one for the rest. *)
Definition crypt_fuel (n : Z) : nat := S (Z.to_nat (n / 64)).

Definition crypt `{Salsa} (block : words → bytes → Z → Z → cres bytes) (tmp : bytes) (state : words) (mem : bytes)
    (m c n : Z) : cres (bytes * words) :=
  if n =? 0 then Ok (mem, state)
  else
    '(mem, j) ← crypt_loop block salsa_next tmp (crypt_fuel n) state mem m c n;
    Ok (mem, salsa_save state j).

(** [crypt12] and [crypt20]: [n] bytes of [mem] from [m] on, written from [c] on. *)
Definition crypt12 `{Salsa} : bytes → words → bytes → Z → Z → Z → cres (bytes * words) := crypt salsa_block12.
Definition crypt20 `{Salsa} : bytes → words → bytes → Z → Z → Z → cres (bytes * words) := crypt salsa_block20.

(** ** The cipher *)

Definition quarterround (y0 y1 y2 y3 : Z) : Z * Z * Z * Z :=
  let z1 := Z.lxor y1 (rotl 32 (wadd 32 y0 y3) 7) in
  let z2 := Z.lxor y2 (rotl 32 (wadd 32 z1 y0) 9) in
  let z3 := Z.lxor y3 (rotl 32 (wadd 32 z2 z1) 13) in
  let z0 := Z.lxor y0 (rotl 32 (wadd 32 z3 z2) 18) in
  (z0, z1, z2, z3).

Definition rowround (y : words) : words :=
  let '(W16 y0 y1 y2 y3 y4 y5 y6 y7 y8 y9 y10 y11 y12 y13 y14 y15) := y in
  let '(z0, z1, z2, z3) := quarterround y0 y1 y2 y3 in
  let '(z5, z6, z7, z4) := quarterround y5 y6 y7 y4 in
  let '(z10, z11, z8, z9) := quarterround y10 y11 y8 y9 in
  let '(z15, z12, z13, z14) := quarterround y15 y12 y13 y14 in
  W16 z0 z1 z2 z3 z4 z5 z6 z7 z8 z9 z10 z11 z12 z13 z14 z15.

Definition columnround (x : words) : words :=
  let '(W16 x0 x1 x2 x3 x4 x5 x6 x7 x8 x9 x10 x11 x12 x13 x14 x15) := x in
  let '(y0, y4, y8, y12) := quarterround x0 x4 x8 x12 in
  let '(y5, y9, y13, y1) := quarterround x5 x9 x13 x1 in
  let '(y10, y14, y2, y6) := quarterround x10 x14 x2 x6 in
  let '(y15, y3, y7, y11) := quarterround x15 x3 x7 x11 in
  W16 y0 y1 y2 y3 y4 y5 y6 y7 y8 y9 y10 y11 y12 y13 y14 y15.

Definition doubleround (x : words) : words := rowround (columnround x).

(** The words of a matrix in order, its bytes, and the sum of two matrices. *)
Definition word_list (x : words) : list Z :=
  [i0 x; i1 x; i2 x; i3 x; i4 x; i5 x; i6 x; i7 x; i8 x; i9 x; i10 x; i11 x; i12 x; i13 x; i14 x; i15 x].

Definition bytes_of (x : words) : bytes := concat (le_bytes 4 <$> word_list x).

Definition sum (x y : words) : words :=
  W16 (wadd 32 (i0 x) (i0 y)) (wadd 32 (i1 x) (i1 y)) (wadd 32 (i2 x) (i2 y)) (wadd 32 (i3 x) (i3 y))
      (wadd 32 (i4 x) (i4 y)) (wadd 32 (i5 x) (i5 y)) (wadd 32 (i6 x) (i6 y)) (wadd 32 (i7 x) (i7 y))
      (wadd 32 (i8 x) (i8 y)) (wadd 32 (i9 x) (i9 y)) (wadd 32 (i10 x) (i10 y)) (wadd 32 (i11 x) (i11 y))
      (wadd 32 (i12 x) (i12 y)) (wadd 32 (i13 x) (i13 y)) (wadd 32 (i14 x) (i14 y)) (wadd 32 (i15 x) (i15 y)).

(** The core with [n] double rounds: the bytes of the sum of the matrix and its image. *)
Definition core (n : nat) (x : words) : bytes := bytes_of (sum (Nat.iter n doubleround x) x).

(** The matrix of a key of 32 bytes, or of 16 bytes twice, a nonce of 8 bytes and a block number. *)
Definition word (l : bytes) (k : nat) : Z := le_val (take 4 (drop (4 * k) l)).

Definition matrix (kbits : Z) (key iv : bytes) (n : Z) : words :=
  let c := if kbits =? 256 then Scalar.sigma else Scalar.tau in
  let k := if kbits =? 256 then drop 16 key else key in
  let ctr := le_bytes 8 n in
  W16 (word c 0) (word key 0) (word key 1) (word key 2) (word key 3) (word c 1) (word iv 0) (word iv 1)
      (word ctr 0) (word ctr 1) (word c 2) (word k 0) (word k 1) (word k 2) (word k 3) (word c 3).

(** The blocks [n], [n+1], ... of the keystream with [2 * r] rounds, and its first [len] bytes. *)
Definition salsa20_block (r : nat) (kbits : Z) (key iv : bytes) (n : Z) : bytes := core r (matrix kbits key iv n).

Definition blocks_of (len : Z) : Z := (len + 63) / 64.

Definition keystream (r : nat) (kbits : Z) (key iv : bytes) (n len : Z) : bytes :=
  take (Z.to_nat len)
    (concat ((λ k, salsa20_block r kbits key iv (n + Z.of_nat k)) <$> seq 0 (Z.to_nat (blocks_of len)))).

Definition xor_bytes : bytes → bytes → bytes := zip_with Z.lxor.

(** [xor_at mem m c ks]: the bytes from [m] on combined with [ks], written from [c] on. *)
Definition xor_at (mem : bytes) (m c : Z) (ks : bytes) : cres bytes :=
  d ← mem_read m (zlen ks) mem; mem_write c (xor_bytes d ks) mem.

(** ** Combining a memory with a keystream *)

(** The bytes read and the bytes written lie in the memory, and are the same or do not overlap. *)
Definition apart (m c n : Z) : Prop := m = c ∨ m + n <= c ∨ c + n <= m.
Definition within (mem : bytes) (m c n : Z) : Prop := 0 <= m ∧ 0 <= c ∧ m + n <= zlen mem ∧ c + n <= zlen mem ∧ apart m c n.

Lemma zlen_xor_bytes a b : zlen a = zlen b → zlen (xor_bytes a b) = zlen a.
Proof. unfold zlen, xor_bytes. rewrite length_zip_with. lia. Qed.

Lemma xor_at_total mem m c ks : within mem m c (zlen ks) →
  ∃ mem', xor_at mem m c ks = Ok mem' ∧ zlen mem' = zlen mem.
Proof.
  intros (Hm & Hc & Hml & Hcl & _). unfold xor_at. pose proof (zlen_nonneg ks).
  destruct (mem_read m (zlen ks) mem) as [d|] eqn:E; [|by rewrite mem_read_ok in E].
  apply mem_read_zlen in E. cbn [mbind cres_bind]. apply mem_write_total; [done|]. rewrite zlen_xor_bytes; lia.
Qed.

Lemma xor_at_app mem m c k1 k2 : within mem m c (zlen k1 + zlen k2) →
  (mem1 ← xor_at mem m c k1; xor_at mem1 (m + zlen k1) (c + zlen k1) k2) = xor_at mem m c (k1 ++ k2).
Proof.
  intros (Hm & Hc & Hml & Hcl & Hap). pose proof (zlen_nonneg k1). pose proof (zlen_nonneg k2).
  destruct (mem_read_adjacent m (zlen k1) (zlen k2) mem) as (d1 & d2 & E1 & E2 & E12 & L1 & L2); [lia..|].
  unfold xor_at. rewrite zlen_app, E1, E12. cbn [mbind cres_bind].
  unfold xor_bytes at 3. rewrite zip_with_app by (unfold zlen in *; lia). fold (xor_bytes d1 k1) (xor_bytes d2 k2).
  rewrite <- mem_write_adjacent by (rewrite ?zlen_xor_bytes; lia).
  destruct (mem_write c (xor_bytes d1 k1) mem) as [mem1|] eqn:E; [|done]. cbn [mbind cres_bind].
  rewrite (mem_read_write_diff _ _ _ _ (m + zlen k1) _ E) by (rewrite zlen_xor_bytes by lia; unfold apart in Hap; lia).
  rewrite E2. cbn [mbind cres_bind]. rewrite zlen_xor_bytes, L1 by lia. done.
Qed.

Lemma xor_at_nil mem m c : within mem m c 0 → xor_at mem m c [] = Ok mem.
Proof.
  intros (Hm & Hc & Hml & Hcl & _). unfold xor_at. change (zlen (@nil Z)) with 0.
  rewrite mem_read_ok by lia. change (mem_write c [] mem = Ok mem).
  rewrite mem_write_ok by (change (zlen (@nil Z)) with 0; lia). change (zlen (@nil Z)) with 0.
  rewrite Z.add_0_r. cbn [app]. by rewrite take_drop.
Qed.

Lemma within_head mem m c n k : 0 <= n → 0 <= k → within mem m c (n + k) → within mem m c n.
Proof. unfold within, apart. lia. Qed.

Lemma within_tail mem mem' m c n k : 0 <= n → 0 <= k → zlen mem' = zlen mem →
  within mem m c (n + k) → within mem' (m + n) (c + n) k.
Proof. unfold within, apart. lia. Qed.

Lemma byte_ok_lxor a b : byte_ok a → byte_ok b → byte_ok (Z.lxor a b).
Proof. apply (word_ok_lxor 8). lia. Qed.

Lemma bytes_ok_xor a b : bytes_ok a → bytes_ok b → bytes_ok (xor_bytes a b).
Proof.
  intros Ha. revert b. induction Ha as [|x a Hx Ha IH]; intros b Hb; [constructor|].
  destruct Hb as [|y b Hy Hb]; [constructor|]. constructor; [by apply byte_ok_lxor|by apply IH].
Qed.

Lemma xor_at_bytes_ok mem m c ks mem' : bytes_ok mem → bytes_ok ks → xor_at mem m c ks = Ok mem' → bytes_ok mem'.
Proof.
  intros Hm Hk. unfold xor_at. destruct (mem_read m _ mem) as [d|] eqn:E; [|done].
  cbn [mbind cres_bind]. apply mem_write_bytes_ok; [done|]. apply bytes_ok_xor; [exact (mem_read_bytes_ok _ _ _ _ Hm E)|done].
Qed.

Lemma zlen_concat_fmap {A} (f : A → bytes) k l :
  (∀ x, zlen (f x) = k) → zlen (concat (f <$> l)) = k * zlen l.
Proof.
  intros Hf. induction l as [|x l IH]; cbn [fmap list_fmap concat].
  - change (zlen (@nil A)) with 0. change (zlen (@nil Z)) with 0. lia.
  - rewrite zlen_app, zlen_cons, Hf. lia.
Qed.

(** A pass over the memory in pieces of the keystream, of which each is combined as a whole. *)
Lemma xor_pieces {A} (out : bytes → Z → Z → list A → cres bytes) (k : Z) (piece : A → bytes) :
  0 <= k →
  (∀ x, zlen (piece x) = k) → (∀ x, bytes_ok (piece x)) →
  (∀ mem m c, out mem m c [] = Ok mem) →
  (∀ mem m c x xs, bytes_ok mem → within mem m c k →
     out mem m c (x :: xs) = mem ← xor_at mem m c (piece x); out mem (m + k) (c + k) xs) →
  ∀ xs mem m c, bytes_ok mem → within mem m c (k * zlen xs) →
  out mem m c xs = xor_at mem m c (concat (piece <$> xs)).
Proof.
  intros Hk Hlen Hok Hnil Hcons xs. induction xs as [|x xs IH]; intros mem m c Hmem Hw.
  { rewrite Hnil. symmetry. apply xor_at_nil. change (zlen (@nil A)) with 0 in Hw. by rewrite Z.mul_0_r in Hw. }
  rewrite zlen_cons, Z.mul_add_distr_l, Z.mul_1_r in Hw.
  assert (0 <= k * zlen xs) by (pose proof (zlen_nonneg xs); lia).
  pose proof (within_head _ _ _ _ _ Hk H Hw) as Hw1. rewrite Hcons by done. cbn [fmap list_fmap concat].
  pose proof (zlen_concat_fmap piece k xs Hlen) as Hl.
  rewrite <- xor_at_app by (by rewrite Hlen, Hl).
  destruct (xor_at_total mem m c (piece x)) as (mem1 & E & Hl1); [by rewrite Hlen|]. rewrite E. cbn [mbind cres_bind].
  rewrite Hlen. apply IH; [exact (xor_at_bytes_ok _ _ _ _ _ Hmem (Hok x) E)|].
  exact (within_tail _ _ _ _ _ _ Hk H Hl1 Hw).
Qed.

Lemma scalar_xor_out xs mem m c : bytes_ok mem → within mem m c (4 * zlen xs) →
  Scalar.xor_out mem m c xs = xor_at mem m c (concat (le_bytes 4 <$> xs)).
Proof.
  apply (xor_pieces Scalar.xor_out 4 (le_bytes 4)); [done|intros x; apply zlen_le_bytes|intros x; apply le_bytes_ok|done|].
  clear. intros mem m c x xs Hok (Hm & Hc & Hml & Hcl & _). cbn [Scalar.xor_out].
  unfold Scalar.U8TO32_LITTLE, Scalar.U32TO8_LITTLE, load_le, xor_at. rewrite zlen_le_bytes. change (Z.of_nat 4) with 4.
  destruct (mem_read m 4 mem) as [d|] eqn:E; [|done]. cbn [mbind cres_bind].
  unfold XOR. rewrite Z.lxor_comm, le_bytes_lxor.
  pose proof (mem_read_zlen _ _ _ _ E) as Hd. apply mem_read_bytes_ok in E; [|done].
  replace (le_bytes 4 (le_val d)) with d; [done|]. symmetry. replace 4%nat with (length d) by (unfold zlen in Hd; lia).
  by apply le_bytes_val.
Qed.

Definition vbytes (v : SSE.m128i) : bytes :=
  le_bytes 4 (SSE.v0 v) ++ le_bytes 4 (SSE.v1 v) ++ le_bytes 4 (SSE.v2 v) ++ le_bytes 4 (SSE.v3 v).

Lemma sse_load_bytes mem m v : bytes_ok mem → SSE.mm_loadu mem m = Ok v → mem_read m 16 mem = Ok (vbytes v).
Proof.
  intros Hok. unfold SSE.mm_loadu. destruct (mem_read m 16 mem) as [d|] eqn:E; [|done].
  pose proof (mem_read_zlen _ _ _ _ E) as Hd. apply mem_read_bytes_ok in E; [|done].
  cbn [mbind cres_bind]. intros [= <-]. unfold vbytes. cbn [SSE.v0 SSE.v1 SSE.v2 SSE.v3].
  assert (∀ k, (k + 4 <= 16)%nat → le_bytes 4 (le_val (take 4 (drop k d))) = take 4 (drop k d)) as H4.
  { intros k Hk. replace 4%nat with (length (take 4 (drop k d))) at 1.
    - apply le_bytes_val. by apply Forall_take, Forall_drop.
    - unfold zlen in Hd. rewrite length_take, length_drop. lia. }
  pose proof (H4 0%nat ltac:(lia)) as H0. rewrite drop_0 in H0. rewrite H0, !H4 by lia. f_equal.
  rewrite <- (take_drop 4 d) at 1. f_equal. rewrite <- (take_drop 4 (drop 4 d)) at 1. f_equal. rewrite drop_drop.
  rewrite <- (take_drop 4 (drop (4 + 4) d)) at 1. f_equal. rewrite drop_drop.
  symmetry. apply take_ge. rewrite length_drop. unfold zlen in Hd. simpl. lia.
Qed.

Lemma vbytes_xor v w : vbytes (SSE.mm_xor_si128 v w) = xor_bytes (vbytes w) (vbytes v).
Proof.
  unfold vbytes, SSE.mm_xor_si128, SSE.lanes2. cbn [SSE.v0 SSE.v1 SSE.v2 SSE.v3].
  unfold xor_bytes. rewrite !zip_with_app by (by rewrite !length_le_bytes).
  rewrite <- !le_bytes_lxor. rewrite (Z.lxor_comm (SSE.v0 v)), (Z.lxor_comm (SSE.v1 v)), (Z.lxor_comm (SSE.v2 v)),
    (Z.lxor_comm (SSE.v3 v)). done.
Qed.

Lemma zlen_vbytes v : zlen (vbytes v) = 16.
Proof. unfold vbytes. by rewrite !zlen_app, !zlen_le_bytes. Qed.

Lemma vbytes_ok v : bytes_ok (vbytes v).
Proof. unfold vbytes. repeat apply Forall_app_2; apply le_bytes_ok. Qed.

Lemma sse_xor_out vs mem m c : bytes_ok mem → within mem m c (16 * zlen vs) →
  SSE.xor_out mem m c vs = xor_at mem m c (concat (vbytes <$> vs)).
Proof.
  apply (xor_pieces SSE.xor_out 16 vbytes); [done|apply zlen_vbytes|apply vbytes_ok|done|].
  clear. intros mem m c v vs Hok (Hm & Hc & Hml & Hcl & _). cbn [SSE.xor_out]. unfold xor_at. rewrite zlen_vbytes.
  destruct (SSE.mm_loadu mem m) as [w|] eqn:E.
  - rewrite (sse_load_bytes _ _ _ Hok E). cbn [mbind cres_bind]. unfold SSE.mm_storeu.
    fold (vbytes (SSE.mm_xor_si128 v w)). by rewrite vbytes_xor.
  - unfold SSE.mm_loadu in E. by rewrite mem_read_ok in E.
Qed.

(** ** The rounds *)

Lemma lxor_rotl w a t l r : 0 <= l → 0 <= r → l + r = w → word_ok w t →
  Z.lxor (Z.lxor a (wshl w t l)) (Z.shiftr t r) = Z.lxor a (rotl w t l).
Proof.
  intros Hl Hr Hw Ht. rewrite Z.lxor_assoc. f_equal. unfold rotl. replace (w - l) with r by lia.
  apply Z.lxor_lor, Z.bits_inj'. intros i Hi. rewrite Z.land_spec, Z.bits_0. unfold wshl, wrap.
  destruct (decide (i < l)).
  - rewrite Z.mod_pow2_bits_low, Z.shiftl_spec_low by lia. done.
  - rewrite Z.shiftr_spec, (testbit_high w t (i + r)) by (done || lia). by rewrite andb_false_r.
Qed.

Lemma scalar_round2 x : Scalar.round2 x = doubleround x.
Proof. by destruct x. Qed.

Module SSEFacts.
Import SSE.

Definition layout (x : words) : words :=
  W16 (i0 x) (i5 x) (i10 x) (i15 x) (i4 x) (i9 x) (i14 x) (i3 x)
      (i8 x) (i13 x) (i2 x) (i7 x) (i12 x) (i1 x) (i6 x) (i11 x).

Lemma rot_in_add X Y T l r : 0 <= l → 0 <= r → l + r = 32 →
  rot_in X (mm_add_epi32 Y T) l r = lanes2 (λ a t, Z.lxor a (rotl 32 t l)) X (mm_add_epi32 Y T).
Proof.
  intros Hl Hr Hw. unfold rot_in, mm_xor_si128, mm_add_epi32, lanes2. simpl.
  rewrite !(lxor_rotl 32) by (done || by apply wrap_range). done.
Qed.

Lemma sse_round2 x : round2 (load_state (layout x)) = load_state (layout (doubleround x)).
Proof.
  unfold round2. cbv zeta. unfold load_state at 1. cbv iota.
  rewrite !rot_in_add by lia. by destruct x.
Qed.

Lemma slli32 a b c d : word_ok 32 a → word_ok 32 b → word_ok 32 c → word_ok 32 d →
  mm_slli_epi64 (V4 a b c d) 32 = V4 0 a 0 c.
Proof.
  unfold word_ok. intros Ha Hb Hc Hd. unfold mm_slli_epi64, halves, wshl, wrap. cbn [v0 v1 v2 v3].
  rewrite !Z.shiftl_mul_pow2 by lia.
  f_equal; Z.to_euclidean_division_equations; lia.
Qed.

Lemma srli32 a b c d : word_ok 32 a → word_ok 32 b → word_ok 32 c → word_ok 32 d →
  mm_srli_epi64 (V4 a b c d) 32 = V4 b 0 d 0.
Proof.
  unfold word_ok. intros Ha Hb Hc Hd. unfold mm_srli_epi64, halves. cbn [v0 v1 v2 v3].
  rewrite !Z.shiftr_div_pow2 by lia. f_equal; Z.to_euclidean_division_equations; lia.
Qed.

Lemma out_vectors_layout y : Forall (word_ok 32) (word_list y) →
  out_vectors (load_state (layout y)) =
  [V4 (i0 y) (i1 y) (i2 y) (i3 y); V4 (i4 y) (i5 y) (i6 y) (i7 y);
   V4 (i8 y) (i9 y) (i10 y) (i11 y); V4 (i12 y) (i13 y) (i14 y) (i15 y)].
Proof.
  destruct y. unfold word_list. cbn. rewrite !list.Forall_cons. intros Hw. destruct_and! Hw.
  rewrite !slli32, !srli32 by done.
  change maskLo32 with (V4 (2 ^ 32 - 1) 0 (2 ^ 32 - 1) 0). change maskHi32 with (V4 0 (2 ^ 32 - 1) 0 (2 ^ 32 - 1)).
  unfold mm_shuffle_epi32, mm_or_si128, mm_and_si128, mm_unpackhi_epi64, mm_unpacklo_epi64, lanes2.
  cbn -[Z.land Z.lor Z.pow Z.sub]. rewrite !(land_ones_all 32) by done. rewrite !Z.land_0_r, !Z.lor_0_r, !Z.lor_0_l.
  reflexivity.
Qed.
End SSEFacts.

Lemma concat_words x : concat (vbytes <$>
  [SSE.V4 (i0 x) (i1 x) (i2 x) (i3 x); SSE.V4 (i4 x) (i5 x) (i6 x) (i7 x);
   SSE.V4 (i8 x) (i9 x) (i10 x) (i11 x); SSE.V4 (i12 x) (i13 x) (i14 x) (i15 x)]) = bytes_of x.
Proof. unfold bytes_of, word_list, vbytes. cbn [fmap list_fmap concat SSE.v0 SSE.v1 SSE.v2 SSE.v3]. by rewrite <- !app_assoc. Qed.

(** ** What an implementation promises *)

Definition key_len (kbits : Z) : Z := if kbits =? 256 then 32 else 16.

Class SalsaLaws (S : Salsa) (layout : words → words) := {
  law_init kbits key iv : zlen key = key_len kbits → zlen iv = 8 →
    salsa_init key kbits iv = Ok (layout (matrix kbits key iv 0));
  law_block12 x mem m c : bytes_ok mem → within mem m c 64 →
    salsa_block12 (layout x) mem m c = xor_at mem m c (core 6 x);
  law_block20 x mem m c : bytes_ok mem → within mem m c 64 →
    salsa_block20 (layout x) mem m c = xor_at mem m c (core 10 x);
  law_next kbits key iv n : salsa_next (layout (matrix kbits key iv n)) = layout (matrix kbits key iv (n + 1));
  law_save kbits key iv n k :
    salsa_save (layout (matrix kbits key iv n)) (layout (matrix kbits key iv k)) = layout (matrix kbits key iv k);
}.

Lemma load_word l k off : off = 4 * Z.of_nat k → off + 4 <= zlen l → load_le 4 l off = Ok (word l k).
Proof.
  intros -> Hl. unfold load_le, word. rewrite mem_read_ok by lia. cbn [mbind cres_bind]. do 3 f_equal. f_equal. lia.
Qed.

Lemma load_word_drop l k off : off = 16 + 4 * Z.of_nat k → off + 4 <= zlen l → load_le 4 l off = Ok (word (drop 16 l) k).
Proof.
  intros -> Hl. rewrite (load_word l (4 + k)) by lia. unfold word. by rewrite drop_drop, Nat.mul_add_distr_l.
Qed.

Lemma counter_bytes n : le_bytes 8 n = le_bytes 4 n ++ le_bytes 4 (n / 2 ^ 32).
Proof. exact (le_bytes_app 4 4 n). Qed.

Lemma counter_low n : word (le_bytes 8 n) 0 = n mod 2 ^ 32.
Proof. unfold word. rewrite counter_bytes, drop_0, take_app_length' by done. apply le_val_bytes. Qed.

Lemma counter_high n : word (le_bytes 8 n) 1 = (n / 2 ^ 32) mod 2 ^ 32.
Proof. unfold word. rewrite counter_bytes, drop_app_length', take_ge by done. apply le_val_bytes. Qed.

(** The carry from the low word of the counter to the high one. *)
Lemma counter_next n :
  let lo := wadd 32 (n mod 2 ^ 32) 1 in
  lo = (n + 1) mod 2 ^ 32
  ∧ (if lo =? 0 then wadd 32 ((n / 2 ^ 32) mod 2 ^ 32) 1 else (n / 2 ^ 32) mod 2 ^ 32) = ((n + 1) / 2 ^ 32) mod 2 ^ 32.
Proof.
  cbv zeta. unfold wadd, wrap. rewrite Zplus_mod_idemp_l. split; [done|]. rewrite Zplus_mod_idemp_l.
  destruct ((n + 1) mod 2 ^ 32 =? 0) eqn:E; bool_hyps; f_equal; Z.to_euclidean_division_equations; lia.
Qed.

Lemma scalar_block r x mem m c : bytes_ok mem → within mem m c 64 →
  Scalar.xor_out mem m c (Scalar.add_input (Nat.iter r doubleround x) x) = xor_at mem m c (core r x).
Proof. intros Hok Hw. rewrite scalar_xor_out by done. done. Qed.

#[export] Instance scalar_laws : SalsaLaws scalar (λ x, x).
Proof.
  split.
  - intros kbits key iv Hk Hv. cbn [salsa_init scalar]. unfold Scalar.init, Scalar.U8TO32_LITTLE, matrix, key_len in *.
    destruct (kbits =? 256).
    all: rewrite (load_word key 0 0), (load_word key 1 4), (load_word key 2 8), (load_word key 3 12),
      (load_word iv 0 0), (load_word iv 1 4) by lia.
    + rewrite (load_word_drop key 0 (16 + 0)), (load_word_drop key 1 (16 + 4)), (load_word_drop key 2 (16 + 8)),
        (load_word_drop key 3 (16 + 12)) by lia. done.
    + rewrite (load_word key 0 (0 + 0)), (load_word key 1 (0 + 4)), (load_word key 2 (0 + 8)),
        (load_word key 3 (0 + 12)) by lia. done.
  - intros x mem m c Hok Hw. cbn [salsa_block12 scalar]. unfold Scalar.block12, Scalar.rounds12. rewrite !scalar_round2.
    by apply (scalar_block 6).
  - intros x mem m c Hok Hw. cbn [salsa_block20 scalar]. unfold Scalar.block20, Scalar.rounds20. rewrite !scalar_round2.
    by apply (scalar_block 10).
  - intros kbits key iv n. cbn [salsa_next scalar]. unfold Scalar.next, matrix. cbn [i0 i1 i2 i3 i4 i5 i6 i7 i8 i9 i10 i11 i12 i13 i14 i15].
    rewrite !counter_low, !counter_high. destruct (counter_next n) as [-> ->]. done.
  - done.
Qed.

Lemma wadd_comm w a b : wadd w a b = wadd w b a.
Proof. unfold wadd. by rewrite Z.add_comm. Qed.

Lemma sum_ok x y : Forall (word_ok 32) (word_list (sum x y)).
Proof. unfold word_list, sum. cbn. repeat constructor; apply wrap_range; lia. Qed.

Lemma sse_sum x y : SSE.add_input (SSE.load_state (SSEFacts.layout x)) (SSE.load_state (SSEFacts.layout y)) =
  SSE.load_state (SSEFacts.layout (sum x y)).
Proof.
  unfold SSE.add_input, SSE.mm_add_epi32, SSE.lanes2, SSE.load_state, SSEFacts.layout, sum. cbn.
  do 2 f_equal; apply wadd_comm.
Qed.

Lemma sse_block r x mem m c : bytes_ok mem → within mem m c 64 →
  SSE.xor_out mem m c (SSE.out_vectors (SSE.add_input (SSE.load_state (SSEFacts.layout (Nat.iter r doubleround x)))
    (SSE.load_state (SSEFacts.layout x)))) = xor_at mem m c (core r x).
Proof.
  intros Hok Hw. rewrite sse_sum, SSEFacts.out_vectors_layout by apply sum_ok.
  rewrite sse_xor_out by done. by rewrite concat_words.
Qed.

#[export] Instance sse_laws : SalsaLaws sse SSEFacts.layout.
Proof.
  split.
  - intros kbits key iv Hk Hv. cbn [salsa_init sse]. unfold SSE.init, matrix, key_len in *.
    destruct (kbits =? 256).
    all: rewrite (load_word key 0 0), (load_word key 1 4), (load_word key 2 8), (load_word key 3 12),
      (load_word iv 0 0), (load_word iv 1 4) by lia.
    + rewrite (load_word_drop key 0 (16 + 0)), (load_word_drop key 1 (16 + 4)), (load_word_drop key 2 (16 + 8)),
        (load_word_drop key 3 (16 + 12)) by lia. done.
    + rewrite (load_word key 0 (0 + 0)), (load_word key 1 (0 + 4)), (load_word key 2 (0 + 8)),
        (load_word key 3 (0 + 12)) by lia. done.
  - intros x mem m c Hok Hw. cbn [salsa_block12 sse]. unfold SSE.block12, SSE.rounds12. cbv zeta. rewrite !SSEFacts.sse_round2.
    by apply (sse_block 6).
  - intros x mem m c Hok Hw. cbn [salsa_block20 sse]. unfold SSE.block20, SSE.rounds20. cbv zeta. rewrite !SSEFacts.sse_round2.
    by apply (sse_block 10).
  - intros kbits key iv n. cbn [salsa_next sse]. unfold SSE.next, matrix, SSEFacts.layout.
    cbn [i0 i1 i2 i3 i4 i5 i6 i7 i8 i9 i10 i11 i12 i13 i14 i15].
    rewrite !counter_low, !counter_high. destruct (counter_next n) as [-> ->]. done.
  - done.
Qed.

(** ** A message of any length *)

Lemma xor_through_tmp mem tmp m c len ks :
  0 <= len <= 64 → within mem m c len → zlen tmp = 64 → zlen ks = 64 →
  (tmp ← mem_copy 0 tmp m len mem; tmp ← xor_at tmp 0 0 ks; mem_copy c mem 0 len tmp)
  = xor_at mem m c (take (Z.to_nat len) ks).
Proof.
  intros Hl (Hm & Hc & Hml & Hcl & _) Ht Hk.
  destruct (bytes_split len tmp) as (t1 & t2 & -> & Ht1); [lia|].
  destruct (bytes_split len ks) as (k1 & k2 & -> & Hk1); [lia|]. rewrite zlen_app in Ht, Hk.
  rewrite take_app_length' by (unfold zlen in *; lia). unfold mem_copy, xor_at. rewrite Hk1.
  destruct (mem_read m len mem) as [d|] eqn:E; [|done]. apply mem_read_zlen in E. cbn [mbind cres_bind].
  rewrite mem_write_head by lia. cbn [mbind cres_bind].
  replace (zlen (k1 ++ k2)) with (zlen (d ++ t2)) by (rewrite !zlen_app; lia). rewrite mem_read_all. cbn [mbind cres_bind].
  unfold xor_bytes at 1. rewrite zip_with_app by (unfold zlen in *; lia). fold (xor_bytes d k1) (xor_bytes t2 k2).
  rewrite <- (app_nil_r (d ++ t2)), mem_write_head by (rewrite !zlen_app, !zlen_xor_bytes by lia; lia).
  cbn [mbind cres_bind]. rewrite app_nil_r, mem_read_head by (rewrite zlen_xor_bytes; lia). done.
Qed.

Section Crypt.
Context (Impl : Salsa) (layout : words → words) (laws : SalsaLaws Impl layout).
Context (kbits : Z) (key iv : bytes).

Local Abbreviation matrix_at n := (layout (matrix kbits key iv n)).

Lemma zlen_block r n : zlen (salsa20_block r kbits key iv n) = 64.
Proof. unfold salsa20_block, core, bytes_of, word_list. cbn [fmap list_fmap concat]. by rewrite !zlen_app, !zlen_le_bytes. Qed.

Lemma block_ok r n : bytes_ok (salsa20_block r kbits key iv n).
Proof.
  unfold salsa20_block, core, bytes_of, word_list. cbn [fmap list_fmap concat].
  repeat (apply Forall_app_2; [apply le_bytes_ok|]). constructor.
Qed.

Lemma keystream_short r n len : 0 < len <= 64 →
  keystream r kbits key iv n len = take (Z.to_nat len) (salsa20_block r kbits key iv n).
Proof.
  intros Hl. unfold keystream. replace (blocks_of len) with 1 by (unfold blocks_of; Z.to_euclidean_division_equations; lia).
  change (Z.to_nat 1) with 1%nat. cbn [seq fmap list_fmap concat]. by rewrite app_nil_r, Z.add_0_r.
Qed.

Lemma keystream_long r n len : 64 < len →
  keystream r kbits key iv n len = salsa20_block r kbits key iv n ++ keystream r kbits key iv (n + 1) (len - 64).
Proof.
  intros Hl. unfold keystream.
  replace (Z.to_nat (blocks_of len)) with (S (Z.to_nat (blocks_of (len - 64))))
    by (unfold blocks_of; Z.to_euclidean_division_equations; lia).
  cbn [seq fmap list_fmap concat]. rewrite Z.add_0_r. pose proof (zlen_block r n) as Hb. unfold zlen in Hb.
  rewrite take_app_ge by lia. f_equal. f_equal; [lia|]. rewrite <- fmap_S_seq, <- list_fmap_compose.
  f_equal. apply list_fmap_ext. intros i x _. unfold compose. f_equal. lia.
Qed.

Lemma zlen_keystream r n len : 0 <= len → zlen (keystream r kbits key iv n len) = len.
Proof.
  intros Hl. unfold keystream. apply zlen_take. rewrite (zlen_concat_fmap _ 64) by (intros k; apply zlen_block).
  unfold zlen. rewrite length_seq. unfold blocks_of. Z.to_euclidean_division_equations; lia.
Qed.


Section Loop.
Context (r : nat) (block : words → bytes → Z → Z → cres bytes).
Context (Hblock : ∀ x mem m c, bytes_ok mem → within mem m c 64 → block (layout x) mem m c = xor_at mem m c (core r x)).
Context (tmp : bytes) (Htmp : zlen tmp = 64) (Htok : bytes_ok tmp).

Lemma crypt_loop_spec fuel n mem m c len :
  0 < len → len / 64 < Z.of_nat fuel → bytes_ok mem → within mem m c len →
  crypt_loop block salsa_next tmp fuel (matrix_at n) mem m c len =
  (mem ← xor_at mem m c (keystream r kbits key iv n len); Ok (mem, matrix_at (n + blocks_of len))).
Proof.
  revert n mem m c len. induction fuel as [|fuel IH]; intros n mem m c len Hl Hf Hok Hw.
  { assert (0 <= len / 64) by (apply Z.div_pos; lia). lia. }
  assert (64 + (len - 64) = len) as H64 by lia.
  cbn [crypt_loop]. rewrite law_next. destruct (len <? 64) eqn:E64; bool_hyps.
  - rewrite keystream_short, <- (xor_through_tmp mem tmp) by (done || lia || apply zlen_block).
    replace (blocks_of len) with 1 by (unfold blocks_of; Z.to_euclidean_division_equations; lia).
    destruct (mem_copy 0 tmp m len mem) as [tmp1|] eqn:Et; [|done]. cbn [mbind cres_bind].
    unfold mem_copy in Et. destruct (mem_read m len mem) as [d|] eqn:Ed; [|done]. cbn [mbind cres_bind] in Et.
    rewrite Hblock; [by destruct (xor_at tmp1 _ _ _)| |].
    + eapply mem_write_bytes_ok; [exact Htok| |exact Et]. exact (mem_read_bytes_ok _ _ _ _ Hok Ed).
    + apply mem_write_zlen in Et. unfold within, apart. lia.
  - assert (within mem m c 64) as Hw1 by (apply (within_head _ _ _ 64 (len - 64)); rewrite ?H64; done || lia).
    rewrite Hblock by done.
    destruct (len <=? 64) eqn:E; bool_hyps.
    + replace len with 64 in * by lia. rewrite keystream_short by lia. rewrite take_ge; [done|].
      pose proof (zlen_block r n) as Hz. unfold zlen in Hz. simpl. lia.
    + rewrite keystream_long by lia. pose proof (zlen_keystream r (n + 1) (len - 64)) as Hz.
      rewrite <- xor_at_app by (by rewrite zlen_block, Hz, H64 by lia).
      rewrite zlen_block. fold (salsa20_block r kbits key iv n).
      destruct (xor_at_total mem m c (salsa20_block r kbits key iv n)) as (mem1 & Em & Hm1);
        [by rewrite zlen_block|].
      rewrite Em. cbn [mbind cres_bind]. rewrite IH.
      * by replace (n + 1 + blocks_of (len - 64)) with (n + blocks_of len)
          by (unfold blocks_of; clear; Z.to_euclidean_division_equations; lia).
      * lia.
      * Z.to_euclidean_division_equations; lia.
      * exact (xor_at_bytes_ok _ _ _ _ _ Hok (block_ok r n) Em).
      * apply (within_tail mem); rewrite ?H64; done || lia.
Qed.

Lemma crypt_spec n mem m c len :
  0 <= len → bytes_ok mem → within mem m c len →
  crypt block tmp (matrix_at n) mem m c len =
  (mem ← xor_at mem m c (keystream r kbits key iv n len); Ok (mem, matrix_at (n + blocks_of len))).
Proof.
  intros Hl Hok Hw. unfold crypt. destruct (len =? 0) eqn:E; bool_hyps.
  - subst len. change (keystream r kbits key iv n 0) with (@nil Z). rewrite xor_at_nil by done.
    change (blocks_of 0) with 0. by rewrite Z.add_0_r.
  - rewrite crypt_loop_spec; [|lia|unfold crypt_fuel; assert (0 <= len / 64) by (apply Z.div_pos; lia); lia|done..].
    destruct (xor_at _ _ _ _); [|done]. cbn [mbind cres_bind]. by rewrite law_save.
Qed.
End Loop.
End Crypt.

(** An implementation streams the cipher: from the state of [init] on, each call of [crypt12] or
    [crypt20] combines its bytes with the keystream from a fresh block on and leaves the state at the
    block after the last one it used. *)
Definition streams (Impl : Salsa) (kbits : Z) (key iv : bytes) : Prop :=
  ∃ st : Z → words,
    salsa_init key kbits iv = Ok (st 0) ∧
    ∀ tmp n mem m c len, zlen tmp = 64 → bytes_ok tmp → 0 <= len → bytes_ok mem → within mem m c len →
      (∃ mem', xor_at mem m c (keystream 6 kbits key iv n len) = Ok mem' ∧
               crypt12 tmp (st n) mem m c len = Ok (mem', st (n + blocks_of len))) ∧
      (∃ mem', xor_at mem m c (keystream 10 kbits key iv n len) = Ok mem' ∧
               crypt20 tmp (st n) mem m c len = Ok (mem', st (n + blocks_of len))).

Lemma laws_stream (Impl : Salsa) layout (laws : SalsaLaws Impl layout) kbits key iv :
  zlen key = key_len kbits → zlen iv = 8 → streams Impl kbits key iv.
Proof.
  intros Hk Hv. exists (λ n, layout (matrix kbits key iv n)). split; [by apply law_init|].
  intros tmp n mem m c len Ht Hto Hl Hok Hw.
  destruct (xor_at_total mem m c (keystream 6 kbits key iv n len)) as (m6 & E6 & _); [by rewrite zlen_keystream|].
  destruct (xor_at_total mem m c (keystream 10 kbits key iv n len)) as (m10 & E10 & _); [by rewrite zlen_keystream|].
  split; [exists m6|exists m10]; (split; [done|]).
  - unfold crypt12. rewrite (crypt_spec _ _ _ kbits key iv 6) by (done || apply law_block12). by rewrite E6.
  - unfold crypt20. rewrite (crypt_spec _ _ _ kbits key iv 10) by (done || apply law_block20). by rewrite E10.
Qed.

(** What the users of the cipher rely on. *)
Class StreamCipher (Impl : Salsa) := {
  stream_cipher kbits key iv : zlen key = key_len kbits → zlen iv = 8 → streams Impl kbits key iv;
}.

#[export] Instance scalar_cipher : StreamCipher scalar.
Proof. split. apply (laws_stream _ _ scalar_laws). Qed.

#[export] Instance sse_cipher : StreamCipher sse.
Proof. split. apply (laws_stream _ _ sse_laws). Qed.

(** Combining twice with the same keystream gives the memory back. *)
Lemma xor_bytes_twice d ks : zlen d = zlen ks → xor_bytes (xor_bytes d ks) ks = d.
Proof.
  unfold xor_bytes, zlen. revert ks. induction d as [|x d IH]; intros [|k ks]; try (cbn [length]; lia); [done|].
  cbn [zip_with length]. intros Hl. rewrite Z.lxor_assoc, Z.lxor_nilpotent, Z.lxor_0_r, IH by lia. done.
Qed.

Lemma xor_at_seg a d b m ks : m = zlen a → zlen ks = zlen d →
  xor_at (a ++ d ++ b) m m ks = Ok (a ++ xor_bytes d ks ++ b).
Proof.
  intros -> Hk. unfold xor_at. rewrite (mem_read_seg a d b) by done. cbn [mbind cres_bind].
  apply mem_write_seg; [done|]. by rewrite zlen_xor_bytes.
Qed.

(** C5: both implementations of Salsa20, with twelve and with twenty rounds, are Salsa20.  For
    every 256-bit or 128-bit key and every nonce, [init] and any calls of [crypt12] and [crypt20]
    on a memory are defined, in place or between places that do not overlap, for every length:
    each combines the bytes with the keystream of the definition of the cipher, block by block
    with the 64-bit counter carried over both of its words, a last partial block through the
    buffer on the stack included, and changes no other byte. *)
Theorem salsa20_correct (kbits : Z) (key iv : bytes) :
  zlen key = key_len kbits → zlen iv = 8 →
  streams scalar kbits key iv ∧ streams sse kbits key iv.
Proof. intros Hk Hv. by split; apply stream_cipher. Qed.

(** The first vector of the first set of ECRYPT, for a 256-bit key. *)
Definition ecrypt_key : bytes := 128 :: memset 31 0.
Definition ecrypt_stream : bytes := [227; 190; 143; 221; 139; 236; 162; 227; 234; 142; 249; 71; 91; 41; 166; 231].

Lemma salsa20_correct_witness :
  ∃ st, salsa_init (Salsa := sse) ecrypt_key 256 (memset 8 0) = Ok st ∧
  ∃ st', crypt20 (H := sse) (memset 64 0) st (memset 16 0) 0 0 16 = Ok (ecrypt_stream, st').
Proof.
  destruct (salsa20_correct 256 ecrypt_key (memset 8 0)) as [_ (st & Hi & Hc)]; [reflexivity|reflexivity|].
  exists (st 0). split; [exact Hi|]. exists (st (0 + blocks_of 16)).
  destruct (Hc (memset 64 0) 0 (memset 16 0) 0 0 16) as [_ (mem & Hm & Hr)];
    [done|apply Forall_replicate; done|done|apply Forall_replicate; done|by vm_compute; intuition discriminate|].
  assert (xor_at (memset 16 0) 0 0 (keystream 10 256 ecrypt_key (memset 8 0) 0 16) = Ok ecrypt_stream) as E
    by (vm_compute; reflexivity).
  rewrite E in Hm. injection Hm as <-. exact Hr.
Defined.
