(* ===== verification/Packet.v ===== *)
(** * Packets (zto/node/Packet.hpp, Packet.cpp)

    The header of a packet and its accessors, fragments, the key of a packet, and
    [armor], [dearmor] and [cryptField] over any implementation of Salsa20 and of
    Poly1305.  A packet is a [Buffer]; a method may throw [std::out_of_range] like
    those of the buffer it is made of, and a read or write outside the array is
    [Undef]. *)

From S2P Require Import Prelude Words Utils Addr Buffer Wire Poly1305 Salsa20.
From Stdlib Require Import ZArith Lia.
From stdpp Require Import base numbers list option.

Open Scope Z_scope.

(** ** Constants *)

Definition ZT_MAX_PACKET_FRAGMENTS : Z := 4.
Definition ZT_UDP_DEFAULT_PAYLOAD_MTU : Z := 1444.
Definition ZT_PROTO_MAX_PACKET_LENGTH : Z := ZT_MAX_PACKET_FRAGMENTS * ZT_UDP_DEFAULT_PAYLOAD_MTU.
Definition ZT_PROTO_MAX_HOPS : Z := 7.

Definition ZT_PROTO_CIPHER_SUITE__C25519_POLY1305_NONE : Z := 0.
Definition ZT_PROTO_CIPHER_SUITE__C25519_POLY1305_SALSA2012 : Z := 1.
Definition ZT_PROTO_CIPHER_SUITE__NO_CRYPTO_TRUSTED_PATH : Z := 2.
Definition ZT_PROTO_FLAG_ENCRYPTED : Z := 0x80.
Definition ZT_PROTO_FLAG_FRAGMENTED : Z := 0x40.
Definition ZT_PROTO_VERB_FLAG_COMPRESSED : Z := 0x80.

Definition ZT_PACKET_IDX_IV : Z := 0.
Definition ZT_PACKET_IDX_DEST : Z := 8.
Definition ZT_PACKET_IDX_SOURCE : Z := 13.
Definition ZT_PACKET_IDX_FLAGS : Z := 18.
Definition ZT_PACKET_IDX_MAC : Z := 19.
Definition ZT_PACKET_IDX_VERB : Z := 27.
Definition ZT_PACKET_IDX_PAYLOAD : Z := 28.
Definition ZT_PROTO_MIN_PACKET_LENGTH : Z := ZT_PACKET_IDX_PAYLOAD.

Definition ZT_PACKET_FRAGMENT_IDX_PACKET_ID : Z := 0.
Definition ZT_PACKET_FRAGMENT_IDX_DEST : Z := 8.
Definition ZT_PACKET_FRAGMENT_IDX_FRAGMENT_INDICATOR : Z := 13.
Definition ZT_PACKET_FRAGMENT_IDX_FRAGMENT_NO : Z := 14.
Definition ZT_PACKET_FRAGMENT_IDX_HOPS : Z := 15.
Definition ZT_PACKET_FRAGMENT_IDX_PAYLOAD : Z := 16.
Definition ZT_PACKET_FRAGMENT_INDICATOR : Z := Address.ZT_ADDRESS_RESERVED_PREFIX.
Definition ZT_PROTO_MIN_FRAGMENT_LENGTH : Z := ZT_PACKET_FRAGMENT_IDX_PAYLOAD.

(** ** Access to the bytes of a buffer *)

Definition lift_meth {A} (r : cres A) : meth A := λ b, a ← r; done_ a b.
Definition size : meth Z := λ b, done_ (_l b) b.
(** [data()] and [unsafeData()]: the array, without a check of the size. *)
Definition raw_read (off n : Z) : meth bytes := λ b, d ← mem_read off n (_b b); done_ d b.
Definition raw_write (off : Z) (x : bytes) : meth unit := λ b, m ← mem_write off x (_b b); done_ tt (Buf (_l b) m).
(** Reads and writes through [field(i,l)]. *)
Definition field_read (i l : Z) : meth bytes := off ← field i l; raw_read off l.
Definition field_write (i : Z) (x : bytes) : meth unit := off ← field i (zlen x); raw_write off x.
(** An assignment to the byte [i] that uses its value. *)
Definition index_mod (i : Z) (f : Z → Z) : meth unit := v ← index i; index_set i (wrap 8 (f v)).

(** ** The header *)

(** [Utils::getSecureRandom]: [rnd] is the eight bytes it gives. *)
Definition newInitializationVector (rnd : bytes) : meth unit := field_write ZT_PACKET_IDX_IV rnd.

Definition setDestination (dest : Z) : meth unit := field_write ZT_PACKET_IDX_DEST (Address.octets dest).
Definition setSource (source : Z) : meth unit := field_write ZT_PACKET_IDX_SOURCE (Address.octets source).
Definition destination : meth Z := d ← field_read ZT_PACKET_IDX_DEST 5; lift_meth (Address.setTo d 5).
Definition source : meth Z := d ← field_read ZT_PACKET_IDX_SOURCE 5; lift_meth (Address.setTo d 5).

Definition lengthValid : meth bool := n ← size; mret (ZT_PROTO_MIN_PACKET_LENGTH <=? n).

Definition fragmented : meth bool :=
  v ← index ZT_PACKET_IDX_FLAGS; mret (negb (Z.land v ZT_PROTO_FLAG_FRAGMENTED =? 0)).
Definition setFragmented (f : bool) : meth unit :=
  index_mod ZT_PACKET_IDX_FLAGS (λ v,
    if f then Z.lor v (swrap 8 ZT_PROTO_FLAG_FRAGMENTED) else Z.land v (swrap 8 (Z.lnot ZT_PROTO_FLAG_FRAGMENTED))).

Definition compressed : meth bool :=
  v ← index ZT_PACKET_IDX_VERB; mret (negb (Z.land v ZT_PROTO_VERB_FLAG_COMPRESSED =? 0)).

Definition hops : meth Z := v ← index ZT_PACKET_IDX_FLAGS; mret (Z.land v 0x07).
Definition incrementHops : meth unit :=
  index_mod ZT_PACKET_IDX_FLAGS (λ b, Z.lor (Z.land b 0xf8) (Z.land (b + 1) 0x07)).

Definition cipher : meth Z := v ← index ZT_PACKET_IDX_FLAGS; mret (Z.shiftr (Z.land v 0x38) 3).
Definition setCipher (c : Z) : meth unit :=
  b ← index ZT_PACKET_IDX_FLAGS;
  let b := Z.lor (Z.land b 0xc7) (wrap 8 (Z.land (wrap 32 (Z.shiftl c 3)) 0x38)) in
  let b := if c =? ZT_PROTO_CIPHER_SUITE__C25519_POLY1305_SALSA2012
           then Z.lor b ZT_PROTO_FLAG_ENCRYPTED else Z.land b (Z.lnot ZT_PROTO_FLAG_ENCRYPTED) in
  index_set ZT_PACKET_IDX_FLAGS (wrap 8 b).

Definition trustedPathId : meth Z := at_ 8 ZT_PACKET_IDX_MAC.
Definition setTrusted (tpid : Z) : meth unit :=
  _ ← setCipher ZT_PROTO_CIPHER_SUITE__NO_CRYPTO_TRUSTED_PATH; setAt 8 ZT_PACKET_IDX_MAC tpid.

Definition packetId : meth Z := at_ 8 ZT_PACKET_IDX_IV.
Definition linkQualityCounter : meth Z := d ← raw_read 7 1; mret (Z.land (be_val d) 7).

Definition setVerb (v : Z) : meth unit := index_set ZT_PACKET_IDX_VERB (wrap 8 v).
Definition verb : meth Z := v ← index ZT_PACKET_IDX_VERB; mret (Z.land v 0x1f).

Definition payloadLength : meth Z :=
  n ← size; mret (if n <? ZT_PROTO_MIN_PACKET_LENGTH then 0 else n - ZT_PROTO_MIN_PACKET_LENGTH).
(** The pointer, as the offset in the array. *)
Definition payload : meth Z := n ← size; field ZT_PACKET_IDX_PAYLOAD (u32 (n - ZT_PACKET_IDX_PAYLOAD)).

(** ** Construction *)

Definition C : Z := ZT_PROTO_MAX_PACKET_LENGTH.

(** [Packet()], on memory that holds [m]: the buffer has the size of the header. *)
Definition packet_new (m rnd : bytes) : cres (outcome Buffer.t) :=
  match make_sized C ZT_PROTO_MIN_PACKET_LENGTH m with
  | Ret b =>
      r ← (_ ← newInitializationVector rnd; index_set ZT_PACKET_IDX_FLAGS 0) b;
      Ok (match r with (Ret _, b') => Ret b' | (OutOfRange, _) => OutOfRange end)
  | OutOfRange => Ok OutOfRange
  end.

(** [Packet(prototype,dest)] after the copy of the buffer, and [reset(dest,source,v)]. *)
Definition packet_copy (prototype : Buffer.t) (rnd : bytes) (dest : Z) : meth unit :=
  _ ← assign C prototype; _ ← newInitializationVector rnd; setDestination dest.

Definition reset (rnd : bytes) (dest source v : Z) : meth unit :=
  _ ← setSize C ZT_PROTO_MIN_PACKET_LENGTH;
  _ ← newInitializationVector rnd;
  _ ← setDestination dest;
  _ ← setSource source;
  _ ← index_set ZT_PACKET_IDX_FLAGS 0;
  setVerb v.

(** ** Fragments *)

Module Fragment.

(** [init] reads the packet [p] and fills this buffer. *)
Definition init (p : Buffer.t) (fragStart fragLen fragNo fragTotal : Z) : meth unit :=
  if _l p <? u32 (fragStart + fragLen) then throw
  else
    _ ← setSize C (u32 (fragLen + ZT_PROTO_MIN_FRAGMENT_LENGTH));
    off ← field ZT_PACKET_FRAGMENT_IDX_PACKET_ID 13;
    h ← lift_meth (field_read ZT_PACKET_IDX_IV 13 p);
    _ ← (match h with (Ret h, _) => raw_write off h | (OutOfRange, _) => throw end);
    _ ← index_set ZT_PACKET_FRAGMENT_IDX_FRAGMENT_INDICATOR ZT_PACKET_FRAGMENT_INDICATOR;
    _ ← index_set ZT_PACKET_FRAGMENT_IDX_FRAGMENT_NO
          (wrap 8 (Z.lor (Z.shiftl (Z.land fragTotal 0xf) 4) (Z.land fragNo 0xf)));
    _ ← index_set ZT_PACKET_FRAGMENT_IDX_HOPS 0;
    off ← field ZT_PACKET_FRAGMENT_IDX_PAYLOAD fragLen;
    x ← lift_meth (field_read fragStart fragLen p);
    match x with (Ret x, _) => raw_write off x | (OutOfRange, _) => throw end.

Definition destination : meth Z := d ← field_read ZT_PACKET_FRAGMENT_IDX_DEST 5; lift_meth (Address.setTo d 5).
Definition lengthValid : meth bool := n ← size; mret (ZT_PACKET_FRAGMENT_IDX_PAYLOAD <=? n).
Definition packetId : meth Z := at_ 8 ZT_PACKET_FRAGMENT_IDX_PACKET_ID.
Definition totalFragments : meth Z := v ← index ZT_PACKET_FRAGMENT_IDX_FRAGMENT_NO; mret (Z.land (Z.shiftr v 4) 0xf).
Definition fragmentNumber : meth Z := v ← index ZT_PACKET_FRAGMENT_IDX_FRAGMENT_NO; mret (Z.land v 0xf).
Definition hops : meth Z := index ZT_PACKET_FRAGMENT_IDX_HOPS.
Definition incrementHops : meth unit := index_mod ZT_PACKET_FRAGMENT_IDX_HOPS (λ v, Z.land (v + 1) ZT_PROTO_MAX_HOPS).
Definition payloadLength : meth Z :=
  n ← size; mret (if ZT_PACKET_FRAGMENT_IDX_PAYLOAD <? n then n - ZT_PACKET_FRAGMENT_IDX_PAYLOAD else 0).
Definition payload : meth Z :=
  n ← size; field ZT_PACKET_FRAGMENT_IDX_PAYLOAD (u32 (n - ZT_PACKET_FRAGMENT_IDX_PAYLOAD)).

End Fragment.

(** ** The key of a packet *)

Definition ZERO_KEY : bytes := memset 32 0.

Definition salsa20MangleKey (key : bytes) : meth bytes :=
  d ← raw_read 0 18;
  k ← lift_meth (mem_read 0 18 key);
  f ← raw_read ZT_PACKET_IDX_FLAGS 1;
  k18 ← lift_meth (mem_read 18 1 key);
  n ← size;
  k19 ← lift_meth (mem_read 19 2 key);
  rest ← lift_meth (mem_read 21 11 key);
  mret (xor_bytes k d
        ++ [Z.lxor (be_val k18) (Z.land (be_val f) 0xf8)]
        ++ xor_bytes k19 [wrap 8 (Z.land n 0xff); wrap 8 (Z.land (Z.shiftr n 8) 0xff)]
        ++ rest).

(** ** Encryption and authentication *)

(** The locals of [armor] and [dearmor], and of the calls they make, before they are written. *)
Record stack := Stack { s_macKey : bytes; s_tmp1 : bytes; s_tmp2 : bytes; s_poly : bytes }.

Section armor.
Context {L P : Type} (Cipher : Salsa) (Auth : Poly L P).

(** [s20.crypt12(in,out,n)] between two objects, of which [out] has [n] bytes. *)
Definition crypt12_to (tmp : bytes) (s20 : words) (inp out : bytes) (n : Z) : cres (bytes * words) :=
  '(mem, s20) ← crypt12 tmp s20 (inp ++ out) 0 (zlen inp) n;
  Ok (drop (length inp) mem, s20).

(** [s20.crypt12(data + start,data + start,n)] in the packet. *)
Definition crypt12_in (tmp : bytes) (s20 : words) (start n : Z) : meth words := λ b,
  '(m, s20) ← crypt12 tmp s20 (_b b) start start n;
  done_ s20 (Buf (_l b) m).

(** [Poly1305::compute(mac,payload,payloadLen,macKey)]. *)
Definition packet_mac (junk : bytes) (n : Z) (macKey : bytes) : meth bytes := λ b,
  mac ← compute junk (drop (Z.to_nat ZT_PACKET_IDX_VERB) (_b b)) n macKey;
  done_ mac b.

(** The cipher of a packet, and the key of its authenticator. *)
Definition packet_cipher (st : stack) (key : bytes) : meth (bytes * words) :=
  mangledKey ← salsa20MangleKey key;
  iv ← raw_read ZT_PACKET_IDX_IV 8;
  s20 ← lift_meth (salsa_init mangledKey 256 iv);
  lift_meth (crypt12_to (s_tmp1 st) s20 ZERO_KEY (s_macKey st) 32).

Definition armor (st : stack) (key : bytes) (encryptPayload : bool) (counter : Z) : meth unit :=
  d ← raw_read 7 1;
  _ ← raw_write 7 [Z.lor (Z.land (be_val d) 0xf8) (Z.land (wrap 8 counter) 0x07)];
  _ ← setCipher (if encryptPayload then ZT_PROTO_CIPHER_SUITE__C25519_POLY1305_SALSA2012
                 else ZT_PROTO_CIPHER_SUITE__C25519_POLY1305_NONE);
  '(macKey, s20) ← packet_cipher st key;
  n ← size;
  let payloadLen := u32 (n - ZT_PACKET_IDX_VERB) in
  _ ← (if encryptPayload then crypt12_in (s_tmp2 st) s20 ZT_PACKET_IDX_VERB payloadLen else mret s20);
  mac ← packet_mac (s_poly st) payloadLen macKey;
  raw_write ZT_PACKET_IDX_MAC (take 8 mac).

Definition dearmor (st : stack) (key : bytes) : meth bool :=
  n ← size;
  let payloadLen := u32 (n - ZT_PACKET_IDX_VERB) in
  cs ← cipher;
  if (cs =? ZT_PROTO_CIPHER_SUITE__C25519_POLY1305_NONE) || (cs =? ZT_PROTO_CIPHER_SUITE__C25519_POLY1305_SALSA2012) then
    '(macKey, s20) ← packet_cipher st key;
    mac ← packet_mac (s_poly st) payloadLen macKey;
    d ← raw_read ZT_PACKET_IDX_MAC 8;
    eq ← lift_meth (secureEq mac d 8);
    if negb eq then mret false
    else
      _ ← (if cs =? ZT_PROTO_CIPHER_SUITE__C25519_POLY1305_SALSA2012
           then crypt12_in (s_tmp2 st) s20 ZT_PACKET_IDX_VERB payloadLen else mret s20);
      mret true
  else mret false.

Definition cryptField (st : stack) (key : bytes) (start len : Z) : meth unit :=
  iv ← raw_read 0 8;
  let iv := take 7 iv ++ [Z.land (be_val (drop 7 iv)) 0xf8] in
  s20 ← lift_meth (salsa_init key 256 iv);
  _ ← crypt12_in (s_tmp2 st) s20 start len;
  mret tt.

End armor.

(** ** A buffer and its contents *)

(** The array is one of bytes, its used part [d]. *)
Definition holds (b : Buffer.t) (d : bytes) : Prop := repr C b d ∧ bytes_ok (_b b).

Lemma C_uint : uint C.
Proof. done. Qed.

Lemma holds_ok b d : holds b d → bytes_ok d.
Proof. intros [(r & E & _ & _) Hok]. rewrite E in Hok. by apply Forall_app in Hok as [? _]. Qed.

Lemma meth_bind_ret {A B} (m : meth A) (f : A → meth B) b a b' :
  m b = Ok (Ret a, b') → (m ≫= f) b = f a b'.
Proof. intros E. unfold mbind, meth_bind. by rewrite E. Qed.

Lemma size_holds b d : holds b d → size b = Ok (Ret (zlen d), b).
Proof. intros [Hr _]. destruct (repr_bounds C _ _ Hr) as (Hl & _). unfold size. by rewrite Hl. Qed.

Lemma raw_read_holds b p x q off n : holds b (p ++ x ++ q) → off = zlen p → n = zlen x →
  raw_read off n b = Ok (Ret x, b).
Proof. intros [Hr _] -> ->. unfold raw_read. by rewrite (inside C b p x q Hr). Qed.

Lemma raw_write_holds b p x q y off : holds b (p ++ x ++ q) → zlen x = zlen y → off = zlen p → bytes_ok y →
  ∃ b', raw_write off y b = Ok (Ret tt, b') ∧ holds b' (p ++ y ++ q).
Proof.
  intros [Hr Hok] Hl -> Hy. destruct (overwrite C b p x q y Hr Hl) as (m & E & Hm). unfold raw_write. rewrite E.
  eexists. split; [done|]. split; [done|]. exact (mem_write_bytes_ok _ _ _ _ Hok Hy E).
Qed.

Lemma be_val_single v : be_val [v] = v.
Proof. unfold be_val. cbn [rev app le_val]. lia. Qed.

Lemma index_holds b p v q i : holds b (p ++ v :: q) → i = zlen p → index i b = Ok (Ret v, b).
Proof.
  intros [Hr _] ->. destruct (repr_bounds C _ _ Hr) as (Hl & Hd & _).
  rewrite zlen_app, zlen_cons in Hl. pose proof (zlen_nonneg p). pose proof (zlen_nonneg q).
  unfold index. rewrite (proj2 (Z.leb_gt _ _)) by lia.
  change 1 with (zlen [v]). rewrite (inside C b p [v] q Hr). cbn [mbind cres_bind]. by rewrite be_val_single.
Qed.

Lemma at_holds b p x q n i : holds b (p ++ x ++ q) → i = zlen p → Z.of_nat n = zlen x →
  at_ n i b = Ok (Ret (be_val x), b).
Proof.
  intros [Hr _] -> Hn. destruct (repr_bounds C _ _ Hr) as (Hl & Hd & _). change C with 5776 in Hd.
  rewrite !zlen_app in *. pose proof (zlen_nonneg p). pose proof (zlen_nonneg q). pose proof (zlen_nonneg x).
  unfold at_. rewrite u64_small, (proj2 (Z.ltb_ge _ _)) by lia. rewrite Hn. by rewrite (inside C b p x q Hr).
Qed.

Lemma index_set_holds b p v q i w : holds b (p ++ v :: q) → i = zlen p → byte_ok w →
  ∃ b', index_set i w b = Ok (Ret tt, b') ∧ holds b' (p ++ w :: q).
Proof.
  intros [Hr Hok] -> Hw. destruct (repr_bounds C _ _ Hr) as (Hl & Hd & _).
  rewrite zlen_app, zlen_cons in Hl. pose proof (zlen_nonneg p). pose proof (zlen_nonneg q).
  unfold index_set. rewrite (proj2 (Z.leb_gt _ _)) by lia.
  destruct (overwrite C b p [v] q [w] Hr eq_refl) as (m & E & Hm). rewrite E. eexists. split; [done|]. split; [done|].
  refine (mem_write_bytes_ok _ _ _ _ Hok _ E). constructor; [done|constructor].
Qed.

Lemma index_mod_holds b p v q i f : holds b (p ++ v :: q) → i = zlen p →
  ∃ b', index_mod i f b = Ok (Ret tt, b') ∧ holds b' (p ++ wrap 8 (f v) :: q).
Proof.
  intros Hh Hi. unfold index_mod. rewrite (meth_bind_ret _ _ _ _ _ (index_holds _ _ _ _ _ Hh Hi)).
  apply (index_set_holds b p v q); [done|done|]. by apply (wrap_range 8).
Qed.

(** ** Bits of a byte *)

Lemma byte_forall (p : Z → bool) : forallb p (seqZ 0 256) = true → ∀ f, byte_ok f → p f = true.
Proof.
  intros H f Hf. rewrite forallb_forall in H. apply H, list_elem_of_In, elem_of_seqZ. unfold byte_ok in Hf. lia.
Qed.

(** An equation on a byte, by trying all values. *)
Ltac byte_cases f H :=
  apply Z.eqb_eq; revert f H; apply byte_forall; vm_compute; reflexivity.

(** ** The packet on the wire *)

(** The identifier, the two addresses, the flags, the authenticator and the rest. *)
Definition pkt (iv addrs : bytes) (f : Z) (mac body : bytes) : bytes := iv ++ addrs ++ f :: mac ++ body.

Record pkt_ok (iv addrs mac : bytes) : Prop := {
  ok_iv : zlen iv = 8;
  ok_addrs : zlen addrs = 10;
  ok_mac : zlen mac = 8;
}.

Lemma iv_split (iv : bytes) : zlen iv = 8 → ∃ i7 x, iv = i7 ++ [x] ∧ zlen i7 = 7.
Proof.
  intros Hl. destruct (exists_last (l := iv)) as (i7 & x & ->); [by intros ->|]. exists i7, x. split; [done|].
  rewrite zlen_app in Hl. change (zlen [x]) with 1 in Hl. lia.
Qed.

Lemma pkt_split d : 27 <= zlen d → ∃ iv addrs f mac body, d = pkt iv addrs f mac body ∧ pkt_ok iv addrs mac.
Proof.
  intros Hd. destruct (bytes_split 8 d) as (iv & d1 & -> & Hiv); [lia|]. rewrite zlen_app in Hd.
  destruct (bytes_split 10 d1) as (ad & d2 & -> & Had); [lia|]. rewrite zlen_app in Hd.
  destruct d2 as [|f d3]; [change (zlen (@nil Z)) with 0 in Hd; lia|]. rewrite zlen_cons in Hd.
  destruct (bytes_split 8 d3) as (mac & body & -> & Hm); [lia|]. by exists iv, ad, f, mac, body.
Qed.

(** The parts of a packet at their positions. *)
Section parts.
Context (iv addrs : bytes) (f : Z) (mac body : bytes) (Hok : pkt_ok iv addrs mac).

Lemma pkt_flags : pkt iv addrs f mac body = (iv ++ addrs) ++ f :: mac ++ body ∧ ZT_PACKET_IDX_FLAGS = zlen (iv ++ addrs).
Proof. destruct Hok. unfold pkt. rewrite zlen_app, <- app_assoc. split; [done|]. unfold ZT_PACKET_IDX_FLAGS. lia. Qed.

Lemma pkt_mac : pkt iv addrs f mac body = (iv ++ addrs ++ [f]) ++ mac ++ body ∧ ZT_PACKET_IDX_MAC = zlen (iv ++ addrs ++ [f]).
Proof.
  destruct Hok. unfold pkt. rewrite !zlen_app, <- !app_assoc. split; [done|]. unfold ZT_PACKET_IDX_MAC.
  change (zlen [f]) with 1. lia.
Qed.

Lemma pkt_body : pkt iv addrs f mac body = (iv ++ addrs ++ [f] ++ mac) ++ body ∧ ZT_PACKET_IDX_VERB = zlen (iv ++ addrs ++ [f] ++ mac).
Proof.
  destruct Hok. unfold pkt. rewrite !zlen_app, <- !app_assoc. split; [done|]. unfold ZT_PACKET_IDX_VERB.
  change (zlen [f]) with 1. lia.
Qed.

Lemma pkt_drop_body : drop 27 (pkt iv addrs f mac body) = body.
Proof. destruct pkt_body as [-> H]. apply drop_app_length'. unfold ZT_PACKET_IDX_VERB, zlen in H. lia. Qed.

Lemma pkt_addrs : take 10 (drop 8 (pkt iv addrs f mac body)) = addrs.
Proof.
  destruct Hok as [Hi Ha _]. unfold zlen in *. unfold pkt. rewrite drop_app_length', take_app_length' by lia. done.
Qed.

Lemma zlen_pkt : zlen (pkt iv addrs f mac body) = 27 + zlen body.
Proof. destruct pkt_body as [-> H]. rewrite zlen_app, <- H. done. Qed.

End parts.

(** ** The key of a packet *)

Definition mangled (key iv addrs : bytes) (f n : Z) : bytes :=
  xor_bytes (take 18 key) (iv ++ addrs) ++ [Z.lxor (key !!! 18%nat) (Z.land f 0xf8)]
  ++ xor_bytes (take 2 (drop 19 key)) [n mod 256; n / 256 mod 256] ++ drop 21 key.

Lemma mangle_holds b key iv addrs f mac body : holds b (pkt iv addrs f mac body) → pkt_ok iv addrs mac → key_ok key →
  salsa20MangleKey key b = Ok (Ret (mangled key iv addrs f (zlen (pkt iv addrs f mac body))), b).
Proof.
  intros Hh Hok [Hk Hkl]. unfold ZT_POLY1305_KEY_LEN in Hkl. destruct Hok.
  destruct (mem_adjacent 18 1 2 key) as (k0 & k1 & k2 & k3 & -> & L0 & L1 & L2); [lia..|]. rewrite !zlen_app in Hkl.
  unfold salsa20MangleKey.
  rewrite (meth_bind_ret _ _ b (iv ++ addrs) b)
    by (apply (raw_read_holds _ [] (iv ++ addrs) (f :: mac ++ body)); rewrite ?zlen_app; [by rewrite <- app_assoc|done|lia]).
  rewrite (meth_bind_ret _ _ b k0 b) by (unfold lift_meth; by rewrite mem_read_head by lia).
  rewrite (meth_bind_ret _ _ b [f] b)
    by (apply (raw_read_holds _ (iv ++ addrs) [f] (mac ++ body)); rewrite ?zlen_app; [by rewrite <- app_assoc|unfold ZT_PACKET_IDX_FLAGS; lia|done]).
  rewrite (meth_bind_ret _ _ b k1 b) by (unfold lift_meth; by rewrite (mem_read_seg k0 k1) by lia).
  rewrite (meth_bind_ret _ _ b _ b (size_holds _ _ Hh)).
  rewrite (meth_bind_ret _ _ b k2 b)
    by (unfold lift_meth; rewrite (app_assoc k0 k1), (mem_read_seg (k0 ++ k1) k2) by (rewrite ?zlen_app; lia); done).
  rewrite (meth_bind_ret _ _ b k3 b).
  2:{ pose proof (mem_read_seg (k0 ++ k1 ++ k2) k3 [] 21 11) as E. rewrite app_nil_r, <- !app_assoc, !zlen_app in E.
      unfold lift_meth. rewrite E by lia. done. }
  unfold mret, meth_ret, done_. do 3 f_equal. unfold mangled. f_equal; [|f_equal; [|f_equal]].
  - rewrite take_app_length' by (unfold zlen in *; lia). done.
  - destruct k1 as [|x [|]]; unfold zlen in L1; cbn in L1; try lia.
    rewrite lookup_total_app_r by (unfold zlen in *; lia). replace (18 - length k0)%nat with 0%nat by (unfold zlen in *; lia).
    by rewrite !be_val_single.
  - rewrite (app_assoc k0 k1), drop_app_length', take_app_length' by (rewrite ?length_app; unfold zlen in *; lia).
    f_equal. change 255 with (Z.ones 8). rewrite !Z.land_ones, !shiftr_div by lia.
    unfold wrap. rewrite !Z.mod_mod by done. done.
  - rewrite (app_assoc k0 k1), (app_assoc (k0 ++ k1)), drop_app_length' by (rewrite ?length_app; unfold zlen in *; lia). done.
Qed.

(** ** The flags *)

Definition cipher_of (f : Z) : Z := Z.shiftr (Z.land f 0x38) 3.
Definition cipher_flags (c f : Z) : Z :=
  wrap 8 (if c =? 1 then Z.lor (Z.lor (Z.land f 0xc7) (Z.land (8 * c) 0x38)) 0x80
          else Z.land (Z.lor (Z.land f 0xc7) (Z.land (8 * c) 0x38)) (Z.lnot 0x80)).
Definition hop_flags (f : Z) : Z := wrap 8 (Z.lor (Z.land f 0xf8) (Z.land (f + 1) 0x07)).

Lemma three_bits c : 0 <= c < 8 → c = 0 ∨ c = 1 ∨ c = 2 ∨ c = 3 ∨ c = 4 ∨ c = 5 ∨ c = 6 ∨ c = 7.
Proof. lia. Qed.

Lemma cipher_flags_ok c f : byte_ok (cipher_flags c f).
Proof. by apply (wrap_range 8). Qed.

(** The cipher is set, the other bits of the field but the deprecated flag stay. *)
Lemma cipher_flags_cipher c f : 0 <= c < 8 → byte_ok f → cipher_of (cipher_flags c f) = c.
Proof.
  intros Hc Hf. destruct (three_bits c Hc) as [|[|[|[|[|[|[]]]]]]]; subst c; byte_cases f Hf.
Qed.

Lemma hop_flags_ok f : byte_ok (hop_flags f).
Proof. by apply (wrap_range 8). Qed.

(** Only the low three bits change on a hop. *)
Lemma hop_flags_high f : byte_ok f → Z.land (hop_flags f) 0xf8 = Z.land f 0xf8.
Proof. intros Hf. byte_cases f Hf. Qed.

Lemma hop_flags_cipher f : byte_ok f → cipher_of (hop_flags f) = cipher_of f.
Proof. intros Hf. byte_cases f Hf. Qed.

Lemma setCipher_holds b iv addrs f mac body c :
  holds b (pkt iv addrs f mac body) → pkt_ok iv addrs mac → 0 <= c < 8 →
  ∃ b', setCipher c b = Ok (Ret tt, b') ∧ holds b' (pkt iv addrs (cipher_flags c f) mac body).
Proof.
  intros Hh Hok Hc. destruct (pkt_flags iv addrs f mac body Hok) as [E Hi]. rewrite E in Hh.
  destruct (pkt_flags iv addrs (cipher_flags c f) mac body Hok) as [-> _].
  unfold setCipher. rewrite (meth_bind_ret _ _ _ _ _ (index_holds _ _ _ _ _ Hh Hi)).
  assert (wrap 8 (Z.land (wrap 32 (Z.shiftl c 3)) 0x38) = Z.land (8 * c) 0x38) as ->
    by (by destruct (three_bits c Hc) as [|[|[|[|[|[|[]]]]]]]; subst c).
  apply (index_set_holds _ _ f); [done|done|]. by apply (wrap_range 8).
Qed.

Lemma incrementHops_holds b iv addrs f mac body :
  holds b (pkt iv addrs f mac body) → pkt_ok iv addrs mac →
  ∃ b', incrementHops b = Ok (Ret tt, b') ∧ holds b' (pkt iv addrs (hop_flags f) mac body).
Proof.
  intros Hh Hok. destruct (pkt_flags iv addrs f mac body Hok) as [E Hi]. rewrite E in Hh.
  destruct (pkt_flags iv addrs (hop_flags f) mac body Hok) as [-> _].
  exact (index_mod_holds _ _ _ _ _ _ Hh Hi).
Qed.

(** ** The cipher of a packet *)

Lemma keystream_ok r kbits key iv n len : bytes_ok (keystream r kbits key iv n len).
Proof.
  unfold keystream. apply Forall_take, Forall_concat, Forall_fmap, list.Forall_forall. intros k _. apply block_ok.
Qed.

Lemma poly1305_bytes m key : bytes_ok (poly1305 m key) ∧ zlen (poly1305 m key) = 16.
Proof. split; [apply le_bytes_ok|apply zlen_le_bytes]. Qed.

#[local] Opaque keystream poly1305.

Lemma zlen_mangled key iv addrs f n : zlen key = 32 → zlen iv = 8 → zlen addrs = 10 → zlen (mangled key iv addrs f n) = 32.
Proof.
  unfold zlen, mangled, xor_bytes. intros Hk Hi Ha. rewrite !length_app, !length_zip_with, !length_app, !length_take, !length_drop.
  cbn [length]. lia.
Qed.

Record stack_ok (st : stack) : Prop := {
  ok_macKey : bytes_ok (s_macKey st) ∧ zlen (s_macKey st) = 32;
  ok_tmp1 : bytes_ok (s_tmp1 st) ∧ zlen (s_tmp1 st) = 64;
  ok_tmp2 : bytes_ok (s_tmp2 st) ∧ zlen (s_tmp2 st) = 64;
  ok_poly : zlen (s_poly st) = 16;
}.

(** The authenticator and the encrypted body of a packet. *)
Definition tag (mk iv body : bytes) : bytes := take 8 (poly1305 body (keystream 6 256 mk iv 0 32)).
Definition sealed (enc : bool) (mk iv body : bytes) : bytes :=
  if enc then xor_bytes body (keystream 6 256 mk iv 1 (zlen body)) else body.

Section armored.
Context {L P : Type} (Cipher : Salsa) (Auth : Poly L P) (HC : StreamCipher Cipher) (HA : Authenticator Auth).

(** [st n] is the state of the cipher at block [n]. *)
Definition cipher_at (mk iv : bytes) (st : Z → words) : Prop :=
  ∀ tmp n mem m c len, zlen tmp = 64 → bytes_ok tmp → 0 <= len → bytes_ok mem → within mem m c len →
  ∃ mem', xor_at mem m c (keystream 6 256 mk iv n len) = Ok mem' ∧
          crypt12 tmp (st n) mem m c len = Ok (mem', st (n + blocks_of len)).

Lemma xor_zero d : xor_bytes (memset (zlen d) 0) d = d.
Proof.
  unfold memset, zlen. rewrite Nat2Z.id. induction d as [|x d IH]; [done|].
  unfold xor_bytes in *. cbn [length replicate zip_with]. by rewrite Z.lxor_0_l, IH.
Qed.

Lemma packet_cipher_holds st key b iv addrs f mac body :
  holds b (pkt iv addrs f mac body) → pkt_ok iv addrs mac → key_ok key → stack_ok st →
  let mk := mangled key iv addrs f (zlen (pkt iv addrs f mac body)) in
  ∃ s20, packet_cipher Cipher st key b = Ok (Ret (keystream 6 256 mk iv 0 32, s20 1), b) ∧ cipher_at mk iv s20.
Proof.
  intros Hh Hok Hk [[Hmk Hml] [Ht1 Htl] _ _] mk. destruct (id Hok) as [Hiv Had Hmac].
  assert (zlen mk = 32) as Hmk32 by (apply zlen_mangled; try done; apply Hk).
  destruct (stream_cipher 256 mk iv Hmk32 Hiv) as (s20 & Hi & Hc). exists s20. split.
  2:{ intros tmp n mem m c len H1 H2 H3 H4 H5. by destruct (Hc tmp n mem m c len) as [? _]. }
  unfold packet_cipher. rewrite (meth_bind_ret _ _ _ _ _ (mangle_holds _ _ _ _ _ _ _ Hh Hok Hk)). fold mk.
  rewrite (meth_bind_ret _ _ b iv b) by (by apply (raw_read_holds _ [] iv (addrs ++ f :: mac ++ body))).
  rewrite (meth_bind_ret _ _ b (s20 0) b) by (unfold lift_meth; by rewrite Hi).
  assert (zlen ZERO_KEY = 32) as HZ by done. set (ks := keystream 6 256 mk iv 0 32).
  assert (zlen ks = 32) as Hks by (by apply zlen_keystream).
  destruct (Hc (s_tmp1 st) 0 (ZERO_KEY ++ s_macKey st) 0 32 32) as [(mem & Hx & Hr) _].
  { done. } { done. } { done. } { apply Forall_app_2; [by apply Forall_replicate|done]. }
  { unfold within, apart. rewrite zlen_app. lia. }
  unfold lift_meth, crypt12_to. rewrite HZ, Hr. cbn [mbind cres_bind]. change (0 + blocks_of 32) with 1.
  unfold xor_at in Hx. fold ks in Hx. rewrite Hks, mem_read_head in Hx by done. cbn [mbind cres_bind] in Hx.
  rewrite <- (app_nil_r (s_macKey st)) in Hx.
  unfold ZERO_KEY at 1 in Hx. rewrite <- Hks, xor_zero, Hks in Hx.
  rewrite (mem_write_seg ZERO_KEY (s_macKey st) ks []) in Hx by (done || lia).
  assert (mem = ZERO_KEY ++ ks ++ []) as -> by congruence.
  rewrite drop_app_length, app_nil_r. done.
Qed.

Lemma crypt12_in_holds mk iv s20 tmp n b p x q : cipher_at mk iv s20 → zlen tmp = 64 → bytes_ok tmp → holds b (p ++ x ++ q) →
  ∃ b', crypt12_in Cipher tmp (s20 n) (zlen p) (zlen x) b = Ok (Ret (s20 (n + blocks_of (zlen x))), b')
        ∧ holds b' (p ++ xor_bytes x (keystream 6 256 mk iv n (zlen x)) ++ q).
Proof.
  intros Hc Ht Hto [(r & Eb & El & Er) Hok]. pose proof (zlen_nonneg x). pose proof (zlen_nonneg p).
  set (ks := keystream 6 256 mk iv n (zlen x)). assert (zlen ks = zlen x) as Hks by (by apply zlen_keystream).
  destruct (Hc tmp n (_b b) (zlen p) (zlen p) (zlen x)) as (mem & Hx & Hr); [done..| |].
  { unfold within, apart. rewrite Eb, !zlen_app. pose proof (zlen_nonneg q). pose proof (zlen_nonneg r). lia. }
  fold ks in Hx. assert (bytes_ok mem) as Hm by (exact (xor_at_bytes_ok _ _ _ _ _ Hok (keystream_ok _ _ _ _ _ _) Hx)).
  unfold crypt12_in. rewrite Hr. cbn [mbind cres_bind]. eexists. split; [done|]. split; [|done].
  rewrite Eb, <- !app_assoc, xor_at_seg in Hx by done. injection Hx as <-.
  exists r. cbn [_b _l]. rewrite <- !app_assoc, El, !zlen_app, zlen_xor_bytes by lia. rewrite !zlen_app in Er. split_and!; [done|lia..].
Qed.

Lemma packet_mac_holds st b iv addrs f mac body k : holds b (pkt iv addrs f mac body) → pkt_ok iv addrs mac →
  key_ok k → zlen (s_poly st) = 16 →
  packet_mac Auth (s_poly st) (zlen body) k b = Ok (Ret (poly1305 body k), b).
Proof.
  intros [(r & Eb & El & Er) Hbok] Hok Hk Hp. unfold packet_mac.
  destruct (pkt_body iv addrs f mac body Hok) as [E ->]. rewrite E in Eb. rewrite <- app_assoc in Eb.
  rewrite Eb, drop_app_length' by (unfold zlen; lia). rewrite Eb in Hbok.
  apply Forall_app in Hbok as [_ Hbok].
  rewrite (authenticator (Impl := Auth)) by (done || (rewrite zlen_app; pose proof (zlen_nonneg body); pose proof (zlen_nonneg r); lia)).
  rewrite take_app_length' by (unfold zlen; lia). done.
Qed.

Lemma mac_key_ok mk iv : key_ok (keystream 6 256 mk iv 0 32).
Proof. split; [apply keystream_ok|by apply zlen_keystream]. Qed.

Definition stamped (i7 : bytes) (x counter : Z) : bytes := i7 ++ [Z.lor (Z.land x 0xf8) (Z.land (wrap 8 counter) 7)].

Lemma zlen_sealed enc mk iv body : zlen (sealed enc mk iv body) = zlen body.
Proof. destruct enc; cbn; [|done]. by rewrite zlen_xor_bytes by (rewrite zlen_keystream; [done|apply zlen_nonneg]). Qed.

Lemma sealed_twice enc mk iv body : sealed enc mk iv (sealed enc mk iv body) = body.
Proof.
  pose proof (zlen_sealed enc mk iv body) as Hl. destruct enc; cbn in *; [|done]. rewrite Hl.
  apply xor_bytes_twice. by rewrite zlen_keystream by apply zlen_nonneg.
Qed.

Lemma zlen_tag mk iv body : zlen (tag mk iv body) = 8.
Proof. unfold tag. apply (zlen_take 8). pose proof (proj2 (poly1305_bytes body (keystream 6 256 mk iv 0 32))). lia. Qed.

Lemma tag_ok mk iv body : bytes_ok (tag mk iv body).
Proof. apply Forall_take, poly1305_bytes. Qed.

(** The body is encrypted in place, or left. *)
Lemma seal_holds (enc : bool) st mk s20 b iv addrs f mac body :
  cipher_at mk iv s20 → stack_ok st → holds b (pkt iv addrs f mac body) → pkt_ok iv addrs mac →
  ∃ w b', (if enc then crypt12_in Cipher (s_tmp2 st) (s20 1) ZT_PACKET_IDX_VERB (zlen body) else mret (s20 1)) b = Ok (Ret w, b')
        ∧ holds b' (pkt iv addrs f mac (sealed enc mk iv body)).
Proof.
  intros Hc [_ _ [Ht Htl] _] Hh Hok. destruct enc; [|by exists (s20 1), b].
  destruct (pkt_body iv addrs f mac body Hok) as [E ->]. rewrite E, <- (app_nil_r body) in Hh.
  destruct (crypt12_in_holds mk iv s20 (s_tmp2 st) 1 b _ _ _ Hc Htl Ht Hh) as (b' & Hr & Hh').
  exists (s20 (1 + blocks_of (zlen body))), b'. split; [done|].
  destruct (pkt_body iv addrs f mac (sealed true mk iv body) Hok) as [-> _]. by rewrite app_nil_r in Hh'.
Qed.

Lemma body_len n : 0 <= n < 2 ^ 32 - 27 → u32 (27 + n - ZT_PACKET_IDX_VERB) = n.
Proof. intros Hn. unfold ZT_PACKET_IDX_VERB. rewrite u32_small by (unfold uint; lia). lia. Qed.

Lemma holds_len b iv addrs f mac body : holds b (pkt iv addrs f mac body) → pkt_ok iv addrs mac → 0 <= zlen body < 2 ^ 32 - 27.
Proof.
  intros [Hr _] Hok. destruct (repr_bounds C _ _ Hr) as (_ & Hd & _). rewrite zlen_pkt in Hd by done.
  pose proof (zlen_nonneg body). change C with 5776 in Hd. lia.
Qed.

Lemma armor_holds st key b (enc : bool) counter i7 x addrs f mac body :
  holds b (pkt (i7 ++ [x]) addrs f mac body) → pkt_ok (i7 ++ [x]) addrs mac → key_ok key → stack_ok st →
  let iv := stamped i7 x counter in
  let f' := cipher_flags (if enc then 1 else 0) f in
  let mk := mangled key iv addrs f' (27 + zlen body) in
  let body' := sealed enc mk iv body in
  ∃ b', armor Cipher Auth st key enc counter b = Ok (Ret tt, b') ∧ holds b' (pkt iv addrs f' (tag mk iv body') body').
Proof.
  intros Hh Hok Hk Hst iv f' mk body'. destruct (id Hok) as [Hiv Had Hmac]. rewrite zlen_app in Hiv. change (zlen [x]) with 1 in Hiv.
  assert (pkt_ok iv addrs mac) as Hok' by (by split; [unfold iv, stamped; rewrite zlen_app|..]).
  assert (holds b (i7 ++ [x] ++ addrs ++ f :: mac ++ body)) as Hh0 by (unfold pkt in Hh; by rewrite <- app_assoc in Hh).
  unfold armor. rewrite (meth_bind_ret _ _ b [x] b) by (apply (raw_read_holds _ i7 [x] _ _ _ Hh0); [lia|done]).
  rewrite be_val_single. set (y := Z.lor _ _).
  destruct (raw_write_holds b i7 [x] _ [y] 7 Hh0) as (b1 & E1 & Hh1); [done|lia|constructor; [|constructor]|].
  { apply (word_ok_lor 8); [done|apply (word_ok_land 8); [done|apply holds_ok in Hh0; apply Forall_app in Hh0 as [_ Hx];
      apply list.Forall_cons in Hx as [Hx _]; apply Hx|done]|apply (word_ok_land 8); [done|by apply (wrap_range 8)|done]]. }
  rewrite (meth_bind_ret _ _ _ _ _ E1). rewrite app_assoc in Hh1. fold (stamped i7 x counter) in Hh1.
  change ((i7 ++ [y]) ++ addrs ++ f :: mac ++ body) with (pkt iv addrs f mac body) in Hh1.
  destruct (setCipher_holds b1 iv addrs f mac body (if enc then 1 else 0) Hh1 Hok') as (b2 & E2 & Hh2); [by destruct enc|].
  assert (setCipher (if enc then ZT_PROTO_CIPHER_SUITE__C25519_POLY1305_SALSA2012
    else ZT_PROTO_CIPHER_SUITE__C25519_POLY1305_NONE) b1 = Ok (Ret tt, b2)) as E2' by (by destruct enc).
  rewrite (meth_bind_ret _ _ _ _ _ E2'). fold f' in Hh2.
  destruct (packet_cipher_holds st key b2 iv addrs f' mac body Hh2 Hok' Hk Hst) as (s20 & E3 & Hc).
  rewrite (meth_bind_ret _ _ _ _ _ E3). rewrite zlen_pkt in Hc, E3 by done. fold mk in Hc.
  rewrite (meth_bind_ret _ _ _ _ _ (size_holds _ _ Hh2)), zlen_pkt by done. fold mk.
  cbv zeta. rewrite body_len by exact (holds_len _ _ _ _ _ _ Hh2 Hok').
  destruct (seal_holds enc st mk s20 b2 iv addrs f' mac body Hc Hst Hh2 Hok') as (w & b3 & E4 & Hh3).
  rewrite (meth_bind_ret _ _ _ _ _ E4). fold body' in Hh3.
  assert (zlen body' = zlen body) as Hbl by apply zlen_sealed. rewrite <- Hbl.
  pose proof (packet_mac_holds st b3 iv addrs f' mac body' _ Hh3 Hok' (mac_key_ok mk iv) (ok_poly _ Hst)) as E5.
  rewrite Hbl in *. rewrite (meth_bind_ret _ _ _ _ _ E5). fold (tag mk iv body').
  destruct (pkt_mac iv addrs f' mac body' Hok') as [Ep Hp]. rewrite Ep in Hh3.
  destruct (raw_write_holds b3 _ mac body' (tag mk iv body') _ Hh3 Hmac Hp (tag_ok _ _ _)) as (b4 & E6 & Hh4).
  exists b4. split; [exact E6|]. unfold pkt. by rewrite <- !app_assoc in Hh4.
Qed.

Lemma dearmor_holds st key b iv addrs f mac body :
  holds b (pkt iv addrs f mac body) → pkt_ok iv addrs mac → key_ok key → stack_ok st →
  let mk := mangled key iv addrs f (27 + zlen body) in
  let cs := cipher_of f in
  if ((cs =? 0) || (cs =? 1)) && bool_decide (tag mk iv body = mac)
  then ∃ b', dearmor Cipher Auth st key b = Ok (Ret true, b') ∧ holds b' (pkt iv addrs f mac (sealed (cs =? 1) mk iv body))
  else dearmor Cipher Auth st key b = Ok (Ret false, b).
Proof.
  intros Hh Hok Hk Hst mk cs. unfold dearmor.
  rewrite (meth_bind_ret _ _ _ _ _ (size_holds _ _ Hh)), zlen_pkt by done.
  cbv zeta. rewrite body_len by exact (holds_len _ _ _ _ _ _ Hh Hok).
  destruct (pkt_flags iv addrs f mac body Hok) as [Ef Hf].
  assert (cipher b = Ok (Ret cs, b)) as Ec.
  { unfold cipher. rewrite Ef in Hh. by rewrite (meth_bind_ret _ _ _ _ _ (index_holds _ _ _ _ _ Hh Hf)). }
  rewrite (meth_bind_ret _ _ _ _ _ Ec). unfold ZT_PROTO_CIPHER_SUITE__C25519_POLY1305_NONE, ZT_PROTO_CIPHER_SUITE__C25519_POLY1305_SALSA2012.
  destruct ((cs =? 0) || (cs =? 1)); [|done]. cbn [andb].
  destruct (packet_cipher_holds st key b iv addrs f mac body Hh Hok Hk Hst) as (s20 & E3 & Hc).
  rewrite (meth_bind_ret _ _ _ _ _ E3). rewrite zlen_pkt in Hc by done. rewrite zlen_pkt by done. fold mk in Hc |- *.
  pose proof (packet_mac_holds st b iv addrs f mac body _ Hh Hok (mac_key_ok mk iv) (ok_poly _ Hst)) as E5.
  rewrite (meth_bind_ret _ _ _ _ _ E5).
  destruct (pkt_mac iv addrs f mac body Hok) as [Ep Hp].
  rewrite (meth_bind_ret _ _ b mac b) by (rewrite Ep in Hh; apply (raw_read_holds _ _ _ _ _ _ Hh Hp); by rewrite (ok_mac _ _ _ Hok)).
  set (full := poly1305 body _).
  assert (secureEq full mac 8 = Ok (bool_decide (tag mk iv body = mac))) as Es.
  { pose proof (ok_mac _ _ _ Hok) as Hm. unfold zlen in Hm. unfold secureEq.
    destruct (secureEq_loop_spec full mac (Z.to_nat 8) 0) as (d & -> & Hd); [|lia|].
    { pose proof (proj2 (poly1305_bytes body (keystream 6 256 mk iv 0 32))) as H16. fold full in H16. unfold zlen in H16. lia. }
    cbn [mbind cres_bind]. f_equal. rewrite (take_ge mac) in Hd by lia. change (take (Z.to_nat 8) full) with (tag mk iv body) in Hd.
    case_bool_decide as Et; [apply Z.eqb_eq|apply Z.eqb_neq]; rewrite Hd; [done|by intros [_ ?]]. }
  rewrite (meth_bind_ret _ _ b _ b) by (unfold lift_meth; by rewrite Es).
  case_bool_decide as Et; [|done]. cbn [negb].
  destruct (seal_holds (cs =? 1) st mk s20 b iv addrs f mac body Hc Hst Hh Hok) as (w & b3 & E4 & Hh3).
  rewrite (meth_bind_ret _ _ _ _ _ E4). by exists b3.
Qed.

End armored.

(** ** Forwarding *)

(** A packet that [k] nodes pass on. *)
Fixpoint forward (k : nat) : meth unit :=
  match k with O => mret tt | S k' => _ ← incrementHops; forward k' end.

Lemma forward_holds k b iv addrs f mac body :
  holds b (pkt iv addrs f mac body) → pkt_ok iv addrs mac → byte_ok f →
  ∃ b' f', forward k b = Ok (Ret tt, b') ∧ holds b' (pkt iv addrs f' mac body)
           ∧ Z.land f' 0xf8 = Z.land f 0xf8 ∧ cipher_of f' = cipher_of f.
Proof.
  revert b f. induction k as [|k IH]; intros b f Hh Hok Hf; [by exists b, f|].
  cbn [forward]. destruct (incrementHops_holds b iv addrs f mac body Hh Hok) as (b1 & E1 & Hh1).
  rewrite (meth_bind_ret _ _ _ _ _ E1).
  destruct (IH b1 (hop_flags f) Hh1 Hok (hop_flags_ok f)) as (b2 & f2 & E2 & Hh2 & Hm & Hc).
  exists b2, f2. rewrite Hm, Hc. split_and!; [done|done|by apply hop_flags_high|by apply hop_flags_cipher].
Qed.

Lemma mangled_hops key iv addrs f f' n : Z.land f' 0xf8 = Z.land f 0xf8 →
  mangled key iv addrs f' n = mangled key iv addrs f n.
Proof. intros H. unfold mangled. by rewrite H. Qed.

Lemma holds_flag b iv addrs f mac body : holds b (pkt iv addrs f mac body) → byte_ok f.
Proof. intros Hh%holds_ok. unfold bytes_ok, pkt in Hh. rewrite !Forall_app, list.Forall_cons in Hh. by destruct_and! Hh. Qed.

Lemma armor_opens {L P L' P' : Type} (Cipher Cipher' : Salsa) (Auth : Poly L P) (Auth' : Poly L' P')
    (HC : StreamCipher Cipher) (HC' : StreamCipher Cipher') (HA : Authenticator Auth) (HA' : Authenticator Auth')
    st st' key b (enc : bool) counter hops_ i7 x addrs f mac body :
  holds b (pkt (i7 ++ [x]) addrs f mac body) → pkt_ok (i7 ++ [x]) addrs mac → key_ok key → stack_ok st → stack_ok st' →
  ∃ b1 b2 b3 f' mac', armor Cipher Auth st key enc counter b = Ok (Ret tt, b1)
    ∧ forward hops_ b1 = Ok (Ret tt, b2)
    ∧ dearmor Cipher' Auth' st' key b2 = Ok (Ret true, b3)
    ∧ holds b3 (pkt (stamped i7 x counter) addrs f' mac' body) ∧ pkt_ok (stamped i7 x counter) addrs mac'.
Proof.
  intros Hh Hok Hk Hst Hst'.
  destruct (armor_holds Cipher Auth HC HA st key b enc counter i7 x addrs f mac body Hh Hok Hk Hst) as (b1 & E1 & Hh1).
  set (iv := stamped i7 x counter) in *. set (f1 := cipher_flags _ f) in *. set (mk := mangled _ _ _ _ _) in *.
  set (body1 := sealed enc mk iv body) in *.
  assert (pkt_ok iv addrs (tag mk iv body1)) as Hok1.
  { destruct Hok as [Hi Ha Hm]. split; [|done|apply zlen_tag]. unfold iv, stamped. rewrite zlen_app in Hi |- *. exact Hi. }
  destruct (forward_holds hops_ b1 _ _ _ _ _ Hh1 Hok1 (holds_flag _ _ _ _ _ _ Hh1)) as (b2 & f2 & E2 & Hh2 & Hm & Hc).
  pose proof (dearmor_holds Cipher' Auth' HC' HA' st' key b2 _ _ _ _ _ Hh2 Hok1 Hk Hst') as Hd. cbv zeta in Hd.
  rewrite (mangled_hops _ _ _ _ _ _ Hm), Hc in Hd. unfold f1 in Hd.
  rewrite cipher_flags_cipher in Hd by (exact (holds_flag _ _ _ _ _ _ Hh) || by destruct enc).
  assert (zlen body1 = zlen body) as Hl by apply zlen_sealed. rewrite Hl in Hd. fold f1 mk in Hd.
  rewrite bool_decide_eq_true_2, andb_true_r in Hd by done.
  replace (((if enc then 1 else 0) =? 0) || ((if enc then 1 else 0) =? 1)) with true in Hd by (by destruct enc).
  destruct Hd as (b3 & E3 & Hh3). exists b1, b2, b3, f2, (tag mk iv body1). split_and!; try done.
  replace ((if enc then 1 else 0) =? 1) with enc in Hh3 by (by destruct enc).
  unfold body1 in Hh3 at 2. by rewrite sealed_twice in Hh3.
Qed.

(** ** A field encrypted on its own *)

Lemma masked_counter x counter : Z.land (Z.lor (Z.land x 0xf8) (Z.land (wrap 8 counter) 7)) 0xf8 = Z.land x 0xf8.
Proof.
  rewrite Z.land_lor_distr_l, <- !Z.land_assoc. change (Z.land 0xf8 0xf8) with 0xf8. change (Z.land 7 0xf8) with 0.
  by rewrite Z.land_0_r, Z.lor_0_r.
Qed.

Lemma cryptField_holds (Cipher : Salsa) (HC : StreamCipher Cipher) st key b i7 x addrs f mac u y w :
  holds b (pkt (i7 ++ [x]) addrs f mac (u ++ y ++ w)) → pkt_ok (i7 ++ [x]) addrs mac → key_ok key → stack_ok st →
  ∃ b', cryptField Cipher st key (27 + zlen u) (zlen y) b = Ok (Ret tt, b')
        ∧ holds b' (pkt (i7 ++ [x]) addrs f mac (u ++ xor_bytes y (keystream 6 256 key (i7 ++ [Z.land x 0xf8]) 0 (zlen y)) ++ w)).
Proof.
  intros Hh Hok [_ Hk] [_ _ [Ht Htl] _]. pose proof (ok_iv _ _ _ Hok) as Hiv. rewrite zlen_app in Hiv. change (zlen [x]) with 1 in Hiv.
  unfold cryptField. rewrite (meth_bind_ret _ _ b (i7 ++ [x]) b)
    by (apply (raw_read_holds _ [] (i7 ++ [x]) _ _ _ Hh); [done|rewrite zlen_app; change (zlen [x]) with 1; lia]).
  rewrite take_app_length', drop_app_length', be_val_single by (unfold zlen in Hiv; lia). set (iv := i7 ++ [Z.land x 0xf8]).
  assert (zlen iv = 8) as Hiv8 by (unfold iv; rewrite zlen_app; change (zlen [Z.land x 0xf8]) with 1; lia).
  destruct (stream_cipher (Impl := Cipher) 256 key iv Hk Hiv8) as (s20 & Hi & Hc).
  rewrite (meth_bind_ret _ _ b (s20 0) b) by (unfold lift_meth; by rewrite Hi).
  destruct (pkt_body (i7 ++ [x]) addrs f mac (u ++ y ++ w) Hok) as [E Hp]. rewrite E, (app_assoc _ u) in Hh.
  assert (cipher_at Cipher key iv s20) as Hc12.
  { intros tmp n mem m c len H1 H2 H3 H4 H5. by destruct (Hc tmp n mem m c len) as [? _]. }
  destruct (crypt12_in_holds Cipher key iv s20 (s_tmp2 st) 0 b _ y w Hc12 Htl Ht Hh) as (b' & Er & Hh').
  rewrite zlen_app, <- Hp in Er. unfold ZT_PACKET_IDX_VERB in Er. rewrite (meth_bind_ret _ _ _ _ _ Er).
  exists b'. split; [done|]. rewrite (proj1 (pkt_body _ _ _ _ _ Hok)). by rewrite <- app_assoc in Hh'.
Qed.

(** ** Properties of packets *)

(** A packet survives the way to its receiver.  For every packet with at least the header, every
    32-byte key, send counter and choice of encryption: [armor] succeeds, and after any number of nodes
    have incremented the hop count, [dearmor] with the same key accepts the packet and restores verb and
    payload byte for byte; the addresses and the identifier but for its three counter bits are the sender's.
    The two ends may use different implementations of Salsa20 and of Poly1305, and the uninitialised
    memory of the stack plays no part. *)
Theorem packet_roundtrip {L P L' P' : Type} (Cipher Cipher' : Salsa) (Auth : Poly L P) (Auth' : Poly L' P')
    (st st' : stack) (key d : bytes) (b : Buffer.t) (enc : bool) (counter : Z) (hops_ : nat) :
  StreamCipher Cipher → StreamCipher Cipher' → Authenticator Auth → Authenticator Auth' →
  stack_ok st → stack_ok st' → key_ok key → holds b d → 27 <= zlen d →
  ∃ b1 b2 b3 d',
    armor Cipher Auth st key enc counter b = Ok (Ret tt, b1)
    ∧ forward hops_ b1 = Ok (Ret tt, b2)
    ∧ dearmor Cipher' Auth' st' key b2 = Ok (Ret true, b3)
    ∧ holds b3 d' ∧ zlen d' = zlen d ∧ drop 27 d' = drop 27 d
    ∧ take 7 d' = take 7 d ∧ take 10 (drop 8 d') = take 10 (drop 8 d).
Proof.
  intros HC HC' HA HA' Hst Hst' Hk Hh Hd. destruct (pkt_split d Hd) as (iv & addrs & f & mac & body & -> & Hok).
  destruct (iv_split iv (ok_iv _ _ _ Hok)) as (i7 & x & -> & Hi).
  destruct (armor_opens Cipher Cipher' Auth Auth' HC HC' HA HA' st st' key b enc counter hops_ i7 x addrs f mac body)
    as (b1 & b2 & b3 & f' & mac' & E1 & E2 & E3 & Hh3 & Hok'); [done..|].
  eexists b1, b2, b3, _. do 3 (split; [done|]). split; [exact Hh3|].
  rewrite !zlen_pkt by done. split; [done|].
  rewrite !pkt_drop_body, !pkt_addrs by done. split_and!; [done| |done].
  unfold pkt, stamped, zlen in *. by rewrite <- !app_assoc, !take_app_length' by lia.
Qed.

Definition zero_stack : stack := Stack (memset 32 0) (memset 64 0) (memset 64 0) (memset 16 0).

Lemma zero_stack_ok : stack_ok zero_stack.
Proof. split; [..|done]; (split; [by apply Forall_replicate|done]). Qed.

Lemma zero_packet : holds (Buf 30 (memset C 0)) (memset 30 0).
Proof.
  split; [|by apply Forall_replicate]. exists (memset (C - 30) 0). split_and!; [|done..]. cbn [_b]. by rewrite memset_app.
Qed.

Lemma zero_key_ok : key_ok (memset 32 0).
Proof. split; [by apply Forall_replicate|done]. Qed.

Lemma packet_roundtrip_witness :
  ∃ b1 b2 b3,
    armor sse poly64 zero_stack (memset 32 0) true 5 (Buf 30 (memset C 0)) = Ok (Ret tt, b1)
    ∧ forward 3 b1 = Ok (Ret tt, b2)
    ∧ dearmor scalar (poly32 32) zero_stack (memset 32 0) b2 = Ok (Ret true, b3).
Proof.
  destruct (packet_roundtrip sse scalar poly64 (poly32 32) _ _ (memset 32 0) (memset 30 0) (Buf 30 (memset C 0)) true 5 3
    sse_cipher scalar_cipher poly64_authenticator (poly32_authenticator 32 (or_introl eq_refl)) zero_stack_ok zero_stack_ok
    zero_key_ok zero_packet) as (b1 & b2 & b3 & d' & H1 & H2 & H3 & _).
  - unfold zlen, memset. rewrite length_replicate. lia.
  - exact (ex_intro _ b1 (ex_intro _ b2 (ex_intro _ b3 (conj H1 (conj H2 H3))))).
Defined.

(** C21: what [dearmor] accepts.  For every packet with at least the header and every key it is
    defined; it returns true exactly when the cipher suite is one of the two it knows and the MAC
    field holds the first eight bytes of Poly1305 over verb and payload, under the key that the first
    32 bytes of the keystream of this packet give; the keystream depends on the key, the identifier,
    both addresses, the flags but for the hops, and the length.  An accepted packet is decrypted when
    its cipher suite says so, and a rejected one is left as it is. *)
Theorem packet_authentication {L P : Type} (Cipher : Salsa) (Auth : Poly L P) (st : stack)
    (key iv addrs : bytes) (f : Z) (mac body : bytes) (b : Buffer.t) :
  StreamCipher Cipher → Authenticator Auth → stack_ok st → key_ok key →
  holds b (pkt iv addrs f mac body) → pkt_ok iv addrs mac →
  let mk := mangled key iv addrs f (27 + zlen body) in
  let cs := cipher_of f in
  if ((cs =? 0) || (cs =? 1)) && bool_decide (tag mk iv body = mac)
  then ∃ b', dearmor Cipher Auth st key b = Ok (Ret true, b') ∧ holds b' (pkt iv addrs f mac (sealed (cs =? 1) mk iv body))
  else dearmor Cipher Auth st key b = Ok (Ret false, b).
Proof. intros HC HA Hst Hk Hh Hok. by apply dearmor_holds. Qed.

Lemma packet_authentication_witness :
  dearmor sse poly64 zero_stack (memset 32 0) (Buf 30 (memset C 0))
  = Ok (Ret false, Buf 30 (memset C 0)).
Proof.
  assert (memset 30 0 = pkt (memset 8 0) (memset 10 0) 0 (memset 8 0) (memset 3 0)) as E by (vm_compute; reflexivity).
  pose proof zero_packet as Hz. rewrite E in Hz.
  pose proof (packet_authentication sse poly64 _ (memset 32 0) (memset 8 0) (memset 10 0) 0 (memset 8 0) (memset 3 0) _
    sse_cipher poly64_authenticator zero_stack_ok zero_key_ok Hz) as H.
  assert (bool_decide (tag (mangled (memset 32 0) (memset 8 0) (memset 10 0) 0 (27 + zlen (memset 3 0))) (memset 8 0) (memset 3 0)
    = memset 8 0) = false) as Eb by (vm_compute; reflexivity).
  cbv zeta in H. rewrite Eb, andb_false_r in H. apply H. split; reflexivity.
Defined.

(** The part of a HELLO that is encrypted on its own.  [cryptField] on any field behind the header,
    then [armor], any number of hops, [dearmor] and [cryptField] on the same field give verb and payload
    back, although [armor] puts the send counter into the identifier that [cryptField] derives its
    nonce from. *)
Theorem packet_field_roundtrip {L P L' P' : Type} (Cipher Cipher' : Salsa) (Auth : Poly L P) (Auth' : Poly L' P')
    (st st' : stack) (key i7 addrs : bytes) (x f : Z) (mac u y w : bytes) (b : Buffer.t) (enc : bool) (counter : Z) (hops_ : nat) :
  StreamCipher Cipher → StreamCipher Cipher' → Authenticator Auth → Authenticator Auth' →
  stack_ok st → stack_ok st' → key_ok key →
  holds b (pkt (i7 ++ [x]) addrs f mac (u ++ y ++ w)) → pkt_ok (i7 ++ [x]) addrs mac →
  ∃ b0 b1 b2 b3 b4 d',
    cryptField Cipher st key (27 + zlen u) (zlen y) b = Ok (Ret tt, b0)
    ∧ armor Cipher Auth st key enc counter b0 = Ok (Ret tt, b1)
    ∧ forward hops_ b1 = Ok (Ret tt, b2)
    ∧ dearmor Cipher' Auth' st' key b2 = Ok (Ret true, b3)
    ∧ cryptField Cipher' st' key (27 + zlen u) (zlen y) b3 = Ok (Ret tt, b4)
    ∧ holds b4 d' ∧ drop 27 d' = u ++ y ++ w.
Proof.
  intros HC HC' HA HA' Hst Hst' Hk Hh Hok.
  destruct (cryptField_holds Cipher HC st key b _ _ _ _ _ _ _ _ Hh Hok Hk Hst) as (b0 & E0 & Hh0).
  set (ks := keystream 6 256 key _ 0 (zlen y)) in *.
  assert (zlen ks = zlen y) as Hks by (apply zlen_keystream, zlen_nonneg).
  destruct (armor_opens Cipher Cipher' Auth Auth' HC HC' HA HA' st st' key b0 enc counter hops_ _ _ _ _ _ _ Hh0 Hok Hk Hst Hst')
    as (b1 & b2 & b3 & f' & mac' & E1 & E2 & E3 & Hh3 & Hok3).
  destruct (cryptField_holds Cipher' HC' st' key b3 _ _ _ _ _ _ _ _ Hh3 Hok3 Hk Hst') as (b4 & E4 & Hh4).
  rewrite masked_counter in Hh4. assert (zlen (xor_bytes y ks) = zlen y) as Hxl by (by rewrite zlen_xor_bytes).
  rewrite Hxl in *. fold ks in Hh4. rewrite xor_bytes_twice in Hh4 by done.
  eexists b0, b1, b2, b3, b4, _. do 5 (split; [done|]). split; [exact Hh4|]. by apply pkt_drop_body.
Qed.

Lemma packet_field_roundtrip_witness :
  ∃ b0 b1 b2 b3 b4, cryptField sse zero_stack (memset 32 0) 28 2 (Buf 30 (memset C 0)) = Ok (Ret tt, b0)
    ∧ armor sse poly64 zero_stack (memset 32 0) false 3 b0 = Ok (Ret tt, b1)
    ∧ forward 2 b1 = Ok (Ret tt, b2)
    ∧ dearmor scalar poly64 zero_stack (memset 32 0) b2 = Ok (Ret true, b3)
    ∧ cryptField scalar zero_stack (memset 32 0) 28 2 b3 = Ok (Ret tt, b4).
Proof.
  assert (memset 30 0 = pkt (memset 7 0 ++ [0]) (memset 10 0) 0 (memset 8 0) ([0] ++ [0; 0] ++ [])) as E by (vm_compute; reflexivity).
  pose proof zero_packet as Hz. rewrite E in Hz.
  destruct (packet_field_roundtrip sse scalar poly64 poly64 zero_stack zero_stack (memset 32 0) (memset 7 0) (memset 10 0) 0 0
    (memset 8 0) [0] [0; 0] [] _ false 3 2 sse_cipher scalar_cipher poly64_authenticator poly64_authenticator
    zero_stack_ok zero_stack_ok zero_key_ok Hz) as (b0 & b1 & b2 & b3 & b4 & d' & H0 & H1 & H2 & H3 & H4 & _).
  - split; reflexivity.
  - exact (ex_intro _ b0 (ex_intro _ b1 (ex_intro _ b2 (ex_intro _ b3 (ex_intro _ b4 (conj H0 (conj H1 (conj H2 (conj H3 H4))))))))).
Defined.

(** ** The header *)

Lemma field_holds b d i l : holds b d → 0 <= i → 0 <= l → i + l <= zlen d → field i l b = Ok (Ret i, b).
Proof.
  intros [Hr _] Hi Hl Hd. destruct (repr_bounds C _ _ Hr) as (El & Hc & _). change C with 5776 in Hc.
  unfold field. rewrite u32_small by (unfold uint; lia). by rewrite (proj2 (Z.ltb_ge _ _)) by lia.
Qed.

Lemma field_read_holds b p x q i l : holds b (p ++ x ++ q) → i = zlen p → l = zlen x →
  field_read i l b = Ok (Ret x, b).
Proof.
  intros Hh -> ->. pose proof (zlen_nonneg p). pose proof (zlen_nonneg x). pose proof (zlen_nonneg q).
  unfold field_read. rewrite (meth_bind_ret _ _ b (zlen p) b) by (apply (field_holds _ _ _ _ Hh); rewrite ?zlen_app; lia).
  exact (raw_read_holds _ _ _ _ _ _ Hh eq_refl eq_refl).
Qed.

Lemma field_write_holds b p x q y i : holds b (p ++ x ++ q) → zlen x = zlen y → i = zlen p → bytes_ok y →
  ∃ b', field_write i y b = Ok (Ret tt, b') ∧ holds b' (p ++ y ++ q).
Proof.
  intros Hh Hl -> Hy. pose proof (zlen_nonneg p). pose proof (zlen_nonneg x). pose proof (zlen_nonneg q).
  unfold field_write. rewrite (meth_bind_ret _ _ b (zlen p) b) by (apply (field_holds _ _ _ _ Hh); rewrite ?zlen_app; lia).
  by apply (raw_write_holds _ _ x).
Qed.

Lemma setSize_holds b d n : holds b d → 0 <= n <= C → ∃ d', zlen d' = n ∧ setSize C n b = Ok (Ret tt, Buf n (_b b)) ∧ holds (Buf n (_b b)) d'.
Proof.
  intros [Hr Hok] Hn. destruct (repr_bounds C _ _ Hr) as (_ & _ & Hc).
  destruct (bytes_split n (_b b)) as (d' & r & E & Hd); [lia|]. exists d'. split; [done|]. unfold setSize.
  rewrite (proj2 (Z.ltb_ge _ _)) by lia. split; [done|]. split; [|done].
  exists r. cbn [_b _l]. rewrite E, zlen_app in Hc. split_and!; [done|lia..].
Qed.

Lemma octets_ok a : bytes_ok (Address.octets a).
Proof. rewrite address_octets_bytes. apply be_bytes_ok. Qed.

(** A packet by its fields: the two addresses apart and the verb in front of the payload. *)
Section fields.
Context (b : Buffer.t) (iv : bytes) (dest src : Z) (f : Z) (mac : bytes) (v : Z) (rest : bytes).
Context (Hh : holds b (pkt iv (be_bytes 5 dest ++ be_bytes 5 src) f mac (v :: rest))).
Context (Hok : pkt_ok iv (be_bytes 5 dest ++ be_bytes 5 src) mac).

Lemma read_destination : 0 <= dest < 2 ^ 40 → destination b = Ok (Ret dest, b).
Proof.
  intros Hd. unfold destination. unfold pkt in Hh. rewrite <- app_assoc in Hh.
  rewrite (meth_bind_ret _ _ _ _ _ (field_read_holds b _ _ _ ZT_PACKET_IDX_DEST 5 Hh (eq_sym (ok_iv _ _ _ Hok)) eq_refl)).
  unfold lift_meth. by rewrite address_wire.
Qed.

Lemma read_source : 0 <= src < 2 ^ 40 → source b = Ok (Ret src, b).
Proof.
  intros Hd. unfold source. unfold pkt in Hh. rewrite <- app_assoc, app_assoc in Hh.
  rewrite (meth_bind_ret _ _ b (be_bytes 5 src) b).
  - unfold lift_meth. by rewrite address_wire.
  - apply (field_read_holds b _ _ _ ZT_PACKET_IDX_SOURCE 5 Hh); [|done]. rewrite zlen_app, (ok_iv _ _ _ Hok). done.
Qed.

Lemma read_verb : index ZT_PACKET_IDX_VERB b = Ok (Ret v, b).
Proof. destruct (pkt_body _ _ f _ (v :: rest) Hok) as [E Hp]. rewrite E in Hh. exact (index_holds _ _ _ _ _ Hh Hp). Qed.

Lemma read_flags : index ZT_PACKET_IDX_FLAGS b = Ok (Ret f, b).
Proof. destruct (pkt_flags _ _ f _ (v :: rest) Hok) as [E Hp]. rewrite E in Hh. exact (index_holds _ _ _ _ _ Hh Hp). Qed.

Lemma read_id : packetId b = Ok (Ret (be_val iv), b).
Proof. apply (at_holds b [] iv _ _ _ Hh); [done|by rewrite (ok_iv _ _ _ Hok)]. Qed.

Lemma read_mac : trustedPathId b = Ok (Ret (be_val mac), b).
Proof.
  destruct (pkt_mac _ _ f _ (v :: rest) Hok) as [E Hp]. rewrite E in Hh.
  apply (at_holds b _ mac _ _ _ Hh Hp). by rewrite (ok_mac _ _ _ Hok).
Qed.
End fields.

(** [reset] writes every field of the header but the authenticator. *)
Lemma reset_holds b d rnd dest src v : holds b d → zlen rnd = 8 → bytes_ok rnd → byte_ok v →
  ∃ b' mac, reset rnd dest src v b = Ok (Ret tt, b')
    ∧ holds b' (pkt rnd (be_bytes 5 dest ++ be_bytes 5 src) 0 mac [v]) ∧ pkt_ok rnd (be_bytes 5 dest ++ be_bytes 5 src) mac.
Proof.
  intros Hh Hrnd Hro Hv. unfold reset.
  destruct (setSize_holds b d ZT_PROTO_MIN_PACKET_LENGTH Hh) as (d1 & Hd1 & E1 & Hh1); [done|].
  rewrite (meth_bind_ret _ _ _ _ _ E1). unfold ZT_PROTO_MIN_PACKET_LENGTH, ZT_PACKET_IDX_PAYLOAD in Hd1.
  destruct (pkt_split d1) as (iv & addrs & f & mac & body & -> & Hok); [lia|].
  rewrite zlen_pkt in Hd1 by done. destruct body as [|w [|]]; unfold zlen in Hd1; cbn in Hd1; try lia. clear Hd1.
  destruct (bytes_split 5 addrs) as (a1 & a2 & -> & Ha); [rewrite (ok_addrs _ _ _ Hok); lia|].
  destruct Hok as [Hi Hal Hm]. rewrite zlen_app in Hal.
  destruct (field_write_holds _ [] iv _ rnd ZT_PACKET_IDX_IV Hh1) as (b2 & E2 & Hh2); [lia|done|done|].
  rewrite (meth_bind_ret _ _ _ _ _ E2). cbn [app] in Hh2. rewrite <- app_assoc in Hh2.
  destruct (field_write_holds _ rnd a1 _ (Address.octets dest) ZT_PACKET_IDX_DEST Hh2) as (b3 & E3 & Hh3); [done|done|apply octets_ok|].
  unfold setDestination. rewrite (meth_bind_ret _ _ _ _ _ E3). rewrite app_assoc in Hh3.
  destruct (field_write_holds _ (rnd ++ Address.octets dest) a2 _ (Address.octets src) ZT_PACKET_IDX_SOURCE Hh3)
    as (b4 & E4 & Hh4); [change (zlen (Address.octets src)) with 5; lia|rewrite zlen_app, Hrnd; done|apply octets_ok|].
  unfold setSource. rewrite (meth_bind_ret _ _ _ _ _ E4).
  rewrite !address_octets_bytes in Hh4.
  assert (pkt_ok rnd (be_bytes 5 dest ++ be_bytes 5 src) mac) as Hok by (split; done).
  rewrite <- app_assoc, (app_assoc (be_bytes 5 dest)) in Hh4.
  change (rnd ++ (be_bytes 5 dest ++ be_bytes 5 src) ++ f :: mac ++ [w]) with (pkt rnd (be_bytes 5 dest ++ be_bytes 5 src) f mac [w]) in Hh4.
  destruct (pkt_flags _ _ f _ [w] Hok) as [Ef Hf]. rewrite Ef in Hh4.
  destruct (index_set_holds _ _ f _ _ 0 Hh4 Hf) as (b5 & E5 & Hh5); [done|].
  rewrite (meth_bind_ret _ _ _ _ _ E5). rewrite <- (proj1 (pkt_flags _ _ 0 _ [w] Hok)) in Hh5.
  destruct (pkt_body _ _ 0 _ [w] Hok) as [Ev Hp]. rewrite Ev in Hh5.
  destruct (index_set_holds _ _ w _ _ v Hh5 Hp) as (b6 & E6 & Hh6); [done|]. exists b6, mac.
  split; [|split; [|done]].
  - unfold setVerb. by rewrite wrap_small.
  - by rewrite (proj1 (pkt_body _ _ 0 _ [v] Hok)).
Qed.

Lemma setTrusted_holds b iv addrs f mac body tpid :
  holds b (pkt iv addrs f mac body) → pkt_ok iv addrs mac →
  ∃ b', setTrusted tpid b = Ok (Ret tt, b')
    ∧ holds b' (pkt iv addrs (cipher_flags 2 f) (be_bytes 8 tpid) body) ∧ pkt_ok iv addrs (be_bytes 8 tpid).
Proof.
  intros Hh Hok. unfold setTrusted. destruct (setCipher_holds b iv addrs f mac body 2 Hh Hok) as (b1 & E1 & Hh1); [done|].
  unfold ZT_PROTO_CIPHER_SUITE__NO_CRYPTO_TRUSTED_PATH. rewrite (meth_bind_ret _ _ _ _ _ E1).
  assert (pkt_ok iv addrs (be_bytes 8 tpid)) as Hok' by (destruct Hok; by split).
  destruct (pkt_mac iv addrs (cipher_flags 2 f) mac body Hok) as [Ep Hp]. pose proof Hh1 as Hh2. rewrite Ep in Hh2.
  destruct (raw_write_holds b1 _ mac body (be_bytes 8 tpid) _ Hh2 (ok_mac _ _ _ Hok) Hp (be_bytes_ok _ _)) as (b2 & E2 & Hh3).
  exists b2. split; [|split; [|done]].
  - destruct (proj1 Hh1) as (r & _ & El & _). rewrite zlen_pkt in El by done. pose proof (zlen_nonneg body).
    unfold setAt. rewrite u64_small, (proj2 (Z.ltb_ge _ _)) by (done || (rewrite El; unfold ZT_PACKET_IDX_MAC; lia)). exact E2.
  - unfold pkt. by rewrite <- !app_assoc in Hh3.
Qed.

Definition frag_flags (fr : bool) (f : Z) : Z := wrap 8 (if fr then Z.lor f 0x40 else Z.land f (-65)).

Lemma setFragmented_holds b iv addrs f mac body fr :
  holds b (pkt iv addrs f mac body) → pkt_ok iv addrs mac →
  ∃ b', setFragmented fr b = Ok (Ret tt, b') ∧ holds b' (pkt iv addrs (frag_flags fr f) mac body).
Proof.
  intros Hh Hok. destruct (pkt_flags iv addrs f mac body Hok) as [E Hi]. rewrite E in Hh.
  destruct (pkt_flags iv addrs (frag_flags fr f) mac body Hok) as [-> _].
  destruct (index_mod_holds _ _ _ _ _ (λ v, if fr then Z.lor v (swrap 8 ZT_PROTO_FLAG_FRAGMENTED)
    else Z.land v (swrap 8 (Z.lnot ZT_PROTO_FLAG_FRAGMENTED))) Hh Hi) as (b' & Eb & Hb). exists b'. split; [exact Eb|].
  by destruct fr.
Qed.

(** The header of a new packet.  After [reset] on any packet, with random bytes for the
    identifier, the accessors give back what was set: both addresses, the verb, the identifier, no
    hops, no cipher, not fragmented, an empty payload and a valid length.  [setTrusted] then makes the
    cipher suite that of a trusted path, stores its identifier in the place of the MAC and keeps the rest;
    [setFragmented] sets or clears its flag and keeps the cipher suite and the hops. *)
Theorem packet_header (b : Buffer.t) (d rnd : bytes) (dest src v tpid : Z) :
  holds b d → zlen rnd = 8 → bytes_ok rnd → 0 <= dest < 2 ^ 40 → 0 <= src < 2 ^ 40 → byte_ok v → 0 <= tpid < 2 ^ 64 →
  ∃ b', reset rnd dest src v b = Ok (Ret tt, b')
    ∧ destination b' = Ok (Ret dest, b') ∧ source b' = Ok (Ret src, b')
    ∧ verb b' = Ok (Ret (v mod 32), b') ∧ compressed b' = Ok (Ret (Z.testbit v 7), b')
    ∧ packetId b' = Ok (Ret (be_val rnd), b')
    ∧ hops b' = Ok (Ret 0, b') ∧ cipher b' = Ok (Ret 0, b') ∧ fragmented b' = Ok (Ret false, b')
    ∧ payloadLength b' = Ok (Ret 0, b') ∧ lengthValid b' = Ok (Ret true, b')
    ∧ ∃ b'', setTrusted tpid b' = Ok (Ret tt, b'') ∧ trustedPathId b'' = Ok (Ret tpid, b'')
        ∧ cipher b'' = Ok (Ret ZT_PROTO_CIPHER_SUITE__NO_CRYPTO_TRUSTED_PATH, b'') ∧ destination b'' = Ok (Ret dest, b'')
        ∧ ∀ fr, ∃ b3, setFragmented fr b'' = Ok (Ret tt, b3) ∧ fragmented b3 = Ok (Ret fr, b3) ∧ hops b3 = Ok (Ret 0, b3)
            ∧ cipher b3 = Ok (Ret ZT_PROTO_CIPHER_SUITE__NO_CRYPTO_TRUSTED_PATH, b3).
Proof.
  intros Hh Hr Hro Hd Hs Hv Ht. destruct (reset_holds b d rnd dest src v Hh Hr Hro Hv) as (b' & mac & E & Hh' & Hok).
  exists b'. split; [done|]. pose proof (read_flags _ _ _ _ _ _ _ _ Hh' Hok) as Ef. pose proof (read_verb _ _ _ _ _ _ _ _ Hh' Hok) as Ev.
  split; [by apply (read_destination _ _ _ _ _ _ _ _ Hh' Hok)|]. split; [by apply (read_source _ _ _ _ _ _ _ _ Hh' Hok)|].
  split; [unfold verb; rewrite (meth_bind_ret _ _ _ _ _ Ev), (land_mask v 5 0x1f); done|].
  split; [unfold compressed; rewrite (meth_bind_ret _ _ _ _ _ Ev); unfold ZT_PROTO_VERB_FLAG_COMPRESSED;
          change 0x80 with (2 ^ 7); by rewrite land_pow2_testbit|].
  split; [exact (read_id _ _ _ _ _ _ _ _ Hh' Hok)|].
  do 3 (split; [unfold hops, cipher, fragmented; by rewrite (meth_bind_ret _ _ _ _ _ Ef)|]).
  do 2 (split; [unfold payloadLength, lengthValid; by rewrite (meth_bind_ret _ _ _ _ _ (size_holds _ _ Hh')), zlen_pkt|]).
  destruct (setTrusted_holds b' _ _ _ _ _ tpid Hh' Hok) as (b1 & E1 & Hh1 & Hok1).
  exists b1. split; [done|]. split; [|split; [|split]].
  - rewrite (read_mac _ _ _ _ _ _ _ _ Hh1 Hok1), be_val_bytes. by rewrite Z.mod_small.
  - unfold cipher. by rewrite (meth_bind_ret _ _ _ _ _ (read_flags _ _ _ _ _ _ _ _ Hh1 Hok1)).
  - by apply (read_destination _ _ _ _ _ _ _ _ Hh1 Hok1).
  - intros fr. destruct (setFragmented_holds b1 _ _ _ _ _ fr Hh1 Hok1) as (b3 & E3 & Hh3). exists b3. split; [done|].
    pose proof (read_flags _ _ _ _ _ _ _ _ Hh3 Hok1) as Ef3. unfold fragmented, hops, cipher.
    rewrite !(meth_bind_ret _ _ _ _ _ Ef3). by destruct fr.
Qed.

Lemma packet_header_witness :
  ∃ b', reset (memset 8 7) 0x0102030405 0x1112131415 0x86 (Buf 30 (memset C 0)) = Ok (Ret tt, b')
        ∧ destination b' = Ok (Ret 0x0102030405, b') ∧ verb b' = Ok (Ret 6, b').
Proof.
  destruct (packet_header (Buf 30 (memset C 0)) (memset 30 0) (memset 8 7) 0x0102030405 0x1112131415 0x86 9 zero_packet)
    as (b' & E & Hd & _ & Hv & _); [done|by apply Forall_replicate|done..|].
  exact (ex_intro _ b' (conj E (conj Hd Hv))).
Defined.
