(* ===== verification/Compression.v ===== *)
(** * Compression of packets (zto/node/Packet.cpp)

    [Packet::compress] and [Packet::uncompress] on top of [Buffer] and LZ4.  The arrays on the stack are
    arguments, and so are the addresses that LZ4 looks at. *)

From Stdlib Require Import ZArith Lia.
From stdpp Require Import base numbers list option gmap.
From S2P Require Import Prelude Words Utils Addr Buffer Wire Poly1305 Salsa20 Packet Lz4 Lz4Block Lz4Compress.
Open Scope Z_scope.

(** The memory from [off] on. *)
Definition raw_tail (off : Z) : meth bytes := λ b, done_ (drop (Z.to_nat off) (_b b)) b.

(** [memcpy(field(i,n),buf,n)] behind [setSize]. *)
Definition replace_payload (buf : bytes) (n : Z) : meth unit :=
  _ ← setSize C (u32 (u32 n + ZT_PACKET_IDX_PAYLOAD));
  off ← field ZT_PACKET_IDX_PAYLOAD (u32 n);
  x ← lift_meth (mem_read 0 n buf);
  raw_write off x.

(** The block for a packet of [n] bytes that is not compressed; whether the payload got shorter. *)
Definition compress_payload (buf : bytes) (n : Z) : meth bool :=
  let pl := swrap 32 (u32 (n - ZT_PACKET_IDX_PAYLOAD)) in
  off ← field ZT_PACKET_IDX_PAYLOAD (u32 pl);
  src ← raw_read off pl;
  '(cl, buf) ← lift_meth (LZ4_compress_fast src pl (ZT_PROTO_MAX_PACKET_LENGTH * 2) 2 buf);
  if (0 <? cl) && (cl <? pl) then
    _ ← index_mod ZT_PACKET_IDX_VERB (λ v, Z.lor v (swrap 8 ZT_PROTO_VERB_FLAG_COMPRESSED));
    _ ← replace_payload buf cl;
    mret true
  else mret false.

(** The flag of the verb is cleared. *)
Definition clear_flag : meth unit :=
  index_mod ZT_PACKET_IDX_VERB (λ v, Z.land v (swrap 8 (Z.lnot ZT_PROTO_VERB_FLAG_COMPRESSED))).

Definition compress (buf : bytes) : meth bool :=
  c ← compressed;
  n ← size;
  shrunk ← (if negb c && (ZT_PACKET_IDX_PAYLOAD + 32 <? n) then compress_payload buf n else mret false);
  if shrunk : bool then mret true else _ ← clear_flag; mret false.

(** The block for a compressed packet with a payload. *)
Definition uncompress_payload (buf : bytes) (src_addr dst_addr n : Z) : meth bool :=
  let compLen := u32 (n - ZT_PACKET_IDX_PAYLOAD) in
  off ← field ZT_PACKET_IDX_PAYLOAD compLen;
  src ← raw_tail off;
  '(ucl, buf) ← lift_meth (LZ4_decompress_safe src src_addr dst_addr (swrap 32 compLen) ZT_PROTO_MAX_PACKET_LENGTH buf);
  if (0 <? ucl) && (ucl <=? swrap 32 (u32 (C - ZT_PACKET_IDX_PAYLOAD))) then
    _ ← replace_payload buf ucl;
    mret true
  else mret false.

Definition uncompress (buf : bytes) (src_addr dst_addr : Z) : meth bool :=
  c ← compressed;
  n ← size;
  if c && (ZT_PROTO_MIN_PACKET_LENGTH <=? n) then
    ok ← (if ZT_PACKET_IDX_PAYLOAD <? n then uncompress_payload buf src_addr dst_addr n else mret true);
    if ok : bool then _ ← clear_flag; mret true else mret false
  else mret true.

(** ** Verbs *)

Definition set_compressed (v : Z) : Z := wrap 8 (Z.lor v (swrap 8 ZT_PROTO_VERB_FLAG_COMPRESSED)).
Definition clear_compressed (v : Z) : Z := wrap 8 (Z.land v (swrap 8 (Z.lnot ZT_PROTO_VERB_FLAG_COMPRESSED))).

Lemma set_compressed_spec v : byte_ok v → Z.testbit (set_compressed v) 7 = true ∧ clear_compressed (set_compressed v) = clear_compressed v ∧ byte_ok (set_compressed v).
Proof.
  intros Hv. split_and!; [|byte_cases v Hv|by apply (wrap_range 8)]. revert v Hv. apply byte_forall. vm_compute. reflexivity.
Qed.

Lemma clear_compressed_spec v : byte_ok v → Z.testbit v 7 = false → clear_compressed v = v.
Proof.
  intros Hv Ht. assert (clear_compressed v = v - 128 * Z.b2z (Z.testbit v 7)) as ->; [clear Ht; byte_cases v Hv|]. rewrite Ht. cbn. lia.
Qed.

Lemma clear_compressed_bit v : byte_ok v → Z.testbit (clear_compressed v) 7 = false ∧ byte_ok (clear_compressed v).
Proof.
  intros Hv. split; [|by apply (wrap_range 8)]. apply negb_true_iff. revert v Hv. apply byte_forall. vm_compute. reflexivity.
Qed.

(** ** The payload of a packet *)

Section payload.
Context (iv addrs : bytes) (f : Z) (mac : bytes) (Hok : pkt_ok iv addrs mac).
Local Abbreviation packet v p := (pkt iv addrs f mac (v :: p)).

Lemma compressed_holds b v p : holds b (packet v p) → compressed b = Ok (Ret (Z.testbit v 7), b).
Proof.
  intros Hh. destruct (pkt_body iv addrs f mac (v :: p) Hok) as [E Hi]. rewrite E in Hh. unfold compressed.
  rewrite (meth_bind_ret _ _ _ _ _ (index_holds _ _ _ _ _ Hh Hi)). unfold ZT_PROTO_VERB_FLAG_COMPRESSED. change 0x80 with (2 ^ 7). by rewrite land_pow2_testbit.
Qed.

Lemma verb_mod_holds b v p g : holds b (packet v p) → ∃ b', index_mod ZT_PACKET_IDX_VERB g b = Ok (Ret tt, b') ∧ holds b' (packet (wrap 8 (g v)) p).
Proof.
  intros Hh. destruct (pkt_body iv addrs f mac (v :: p) Hok) as [E Hi]. rewrite E in Hh.
  destruct (pkt_body iv addrs f mac (wrap 8 (g v) :: p) Hok) as [-> _]. exact (index_mod_holds _ _ _ _ _ _ Hh Hi).
Qed.

Lemma packet_split v p : packet v p = (iv ++ addrs ++ [f] ++ mac ++ [v]) ++ p ∧ zlen (iv ++ addrs ++ [f] ++ mac ++ [v]) = ZT_PACKET_IDX_PAYLOAD.
Proof. destruct Hok. unfold pkt. rewrite !zlen_app, <- !app_assoc. split; [done|]. change (zlen [f]) with 1. change (zlen [v]) with 1. unfold ZT_PACKET_IDX_PAYLOAD. lia. Qed.

Lemma packet_len b v p : holds b (packet v p) → 0 <= zlen p <= C - 28 ∧ byte_ok v ∧ bytes_ok p.
Proof.
  intros Hh. pose proof (holds_ok _ _ Hh) as Hb. destruct (packet_split v p) as [E Hl]. destruct Hh as [Hr _]. destruct (repr_bounds C _ _ Hr) as (_ & Hd & _).
  rewrite E, zlen_app, Hl in Hd. unfold ZT_PACKET_IDX_PAYLOAD in Hd. pose proof (zlen_nonneg p). rewrite E in Hb. apply Forall_app in Hb as [Hb1 Hb2].
  split_and!; [lia..| |done]. apply Forall_app in Hb1 as [_ Hb1]. apply Forall_app in Hb1 as [_ Hb1]. apply Forall_app in Hb1 as [_ Hb1]. apply Forall_app in Hb1 as [_ Hb1].
  by apply Forall_cons_1 in Hb1 as [? _].
Qed.

(** The payload is replaced by the first bytes of an array. *)
Lemma replace_payload_holds b v p buf x : holds b (packet v p) → x `prefix_of` buf → bytes_ok x → zlen x <= C - 28 →
  ∃ b', replace_payload buf (zlen x) b = Ok (Ret tt, b') ∧ holds b' (packet v x).
Proof.
  intros Hh [r ->] Hx Hl. pose proof (zlen_nonneg x). change C with 5776 in Hl. unfold replace_payload, ZT_PACKET_IDX_PAYLOAD.
  rewrite (u32_small (zlen x)), (u32_small (zlen x + 28)) by (unfold uint; lia).
  destruct (setSize_holds b _ (zlen x + 28) Hh) as (d' & Hd' & E1 & Hh1); [change C with 5776; lia|]. rewrite (meth_bind_ret _ _ _ _ _ E1).
  destruct (packet_split v p) as [Ep Hp]. destruct (packet_split v x) as [Ex _]. set (h := iv ++ addrs ++ [f] ++ mac ++ [v]) in *. unfold ZT_PACKET_IDX_PAYLOAD in Hp.
  assert (∃ y, d' = h ++ y ++ [] ∧ zlen y = zlen x) as (y & -> & Hy).
  { destruct Hh as [(r0 & Er0 & _) _]. destruct Hh1 as [(r1 & Er1 & _) _]. cbn [_b] in Er1. rewrite Er0, Ep, <- app_assoc in Er1.
    destruct (bytes_split 28 d') as (h' & y & -> & Hh'); [lia|]. rewrite <- app_assoc in Er1. apply app_inj_1 in Er1 as [-> _]; [|unfold zlen in *; lia].
    exists y. rewrite app_nil_r. split; [done|]. rewrite zlen_app in Hd'. lia. }
  rewrite (meth_bind_ret _ _ _ _ _ (field_holds _ _ 28 (zlen x) Hh1 ltac:(lia) ltac:(lia) ltac:(lia))).
  rewrite (meth_bind_ret _ _ _ x (Buf (zlen x + 28) (_b b))) by (unfold lift_meth; by rewrite mem_read_head).
  rewrite Ex. replace (h ++ x) with (h ++ x ++ []) by (by rewrite app_nil_r). by apply (raw_write_holds _ h y).
Qed.

(** ** Compression *)

Lemma clear_flag_holds b v p : holds b (packet v p) → ∃ b', clear_flag b = Ok (Ret tt, b') ∧ holds b' (packet (clear_compressed v) p).
Proof. exact (verb_mod_holds b v p _). Qed.

(** [q] is a block for the payload [p]. *)
Definition block_for (q p : bytes) : Prop := bytes_ok q ∧ 0 < zlen q ∧ ∀ oend, zlen p <= oend → block_decode (S (length q)) oend q [] = Some p.

Lemma compress_payload_holds b v p buf : holds b (packet v p) → zlen buf = ZT_PROTO_MAX_PACKET_LENGTH * 2 → 0 < zlen p →
  ∃ r b', compress_payload buf (28 + zlen p) b = Ok (Ret r, b') ∧
    if r : bool then ∃ q, holds b' (packet (set_compressed v) q) ∧ zlen q < zlen p ∧ block_for q p else b' = b.
Proof.
  intros Hh Hbuf Hpos. destruct (packet_len b v p Hh) as (Hp & Hv & Hpok). change C with 5776 in Hp. unfold compress_payload, ZT_PACKET_IDX_PAYLOAD.
  change (ZT_PROTO_MAX_PACKET_LENGTH * 2) with 11552 in *. replace (28 + zlen p - 28) with (zlen p) by lia.
  rewrite (u32_small (zlen p)), swrap_small, (u32_small (zlen p)) by (unfold uint; lia).
  destruct (packet_split v p) as [Ep Hl]. set (h := iv ++ addrs ++ [f] ++ mac ++ [v]) in *. unfold ZT_PACKET_IDX_PAYLOAD in Hl.
  pose proof Hh as Hh'. rewrite Ep in Hh'.
  rewrite (meth_bind_ret _ _ _ _ _ (field_holds _ _ 28 (zlen p) Hh' ltac:(lia) ltac:(lia) ltac:(rewrite zlen_app; lia))).
  rewrite (meth_bind_ret _ _ b p b) by (apply (raw_read_holds b h p []); [by rewrite app_nil_r|done|done]).
  assert (LZ4_compressBound (zlen p) <= 11552) as Hcb.
  { unfold LZ4_compressBound, LZ4_MAX_INPUT_SIZE. rewrite wrap_small by (unfold word_ok; lia). rewrite (proj2 (Z.ltb_ge _ _)) by lia.
    pose proof (Z.div_le_upper_bound (zlen p) 255 (zlen p) ltac:(lia) ltac:(lia)). lia. }
  destruct (compress_block p 11552 2 buf Hpok) as (n & buf' & E & Hb' & Hr); [unfold LZ4_MAX_INPUT_SIZE; lia|lia|lia|lia|by left|].
  rewrite (meth_bind_ret _ _ b (n, buf') b) by (unfold lift_meth; by rewrite E).
  destruct ((0 <? n) && (n <? zlen p)) eqn:En; [|by exists false, b]. destruct Hr as [[-> _]|[Hr Hb]]; [done|].
  destruct (verb_mod_holds b v p (λ v, Z.lor v (swrap 8 ZT_PROTO_VERB_FLAG_COMPRESSED)) Hh) as (b1 & E1 & Hh1). rewrite (meth_bind_ret _ _ _ _ _ E1).
  destruct (compressed_decode p buf' n (zlen p) Hr ltac:(lia) Hpok) as (Hn & _ & Hqok & _). set (q := take (Z.to_nat n) buf') in *.
  assert (zlen q = n) as Hq by (apply zlen_take; lia). assert (q `prefix_of` buf') as Hpre by apply prefix_take.
  destruct (replace_payload_holds b1 _ p buf' q Hh1 Hpre Hqok) as (b2 & E2 & Hh2); [change C with 5776; lia|]. rewrite <- Hq, (meth_bind_ret _ _ _ _ _ E2).
  exists true, b2. split; [done|]. exists q. split_and!; [done|lia|]. split_and!; [done|lia|]. intros oend Ho.
  destruct (compressed_decode p buf' n oend Hr Ho Hpok) as (_ & _ & _ & Hdec). fold q in Hdec.
  assert (Z.to_nat n = length q) as Hz by (unfold zlen in Hq; lia). by rewrite Hz in Hdec.
Qed.

Lemma compress_holds b v p buf : holds b (packet v p) → zlen buf = ZT_PROTO_MAX_PACKET_LENGTH * 2 →
  ∃ r b', compress buf b = Ok (Ret r, b') ∧
    if r : bool then Z.testbit v 7 = false ∧ ∃ q, holds b' (packet (set_compressed v) q) ∧ zlen q < zlen p ∧ block_for q p
    else holds b' (packet (clear_compressed v) p).
Proof.
  intros Hh Hbuf. unfold compress. rewrite (meth_bind_ret _ _ _ _ _ (compressed_holds b v p Hh)), (meth_bind_ret _ _ _ _ _ (size_holds _ _ Hh)), zlen_pkt, zlen_cons by done.
  replace (27 + (1 + zlen p)) with (28 + zlen p) by lia. unfold ZT_PACKET_IDX_PAYLOAD at 1. destruct (clear_flag_holds b v p Hh) as (b0 & E0 & Hh0).
  destruct (negb (Z.testbit v 7) && (28 + 32 <? 28 + zlen p)) eqn:Eg.
  - apply andb_prop in Eg as [Ev Eg]. apply negb_true_iff in Ev. destruct (compress_payload_holds b v p buf Hh Hbuf ltac:(lia)) as (r & b' & E & Hr).
    rewrite (meth_bind_ret _ _ _ _ _ E). destruct r; [by exists true, b'|]. subst b'. rewrite (meth_bind_ret _ _ _ _ _ E0). by exists false, b0.
  - rewrite (meth_bind_ret _ _ b false b) by done. rewrite (meth_bind_ret _ _ _ _ _ E0). by exists false, b0.
Qed.

(** ** Decompression *)

(** The payload that a packet with the verb [v] and the payload [p] stands for. *)
Definition payload_of (v : Z) (p : bytes) : option bytes :=
  if negb (Z.testbit v 7) then Some p
  else match p with
       | [] => Some []
       | _ => out ← block_decode (S (length p)) C p []; if (0 <? zlen out) && (zlen out <=? C - 28) then Some out else None
       end.

Lemma uncompress_payload_holds b v p buf src_addr dst_addr : holds b (packet v p) → zlen buf = C → 0 < zlen p →
  0 <= src_addr → src_addr + C < 2 ^ 64 → 0 <= dst_addr → dst_addr + C < 2 ^ 64 →
  ∃ r b', uncompress_payload buf src_addr dst_addr (28 + zlen p) b = Ok (Ret r, b') ∧
    match out ← block_decode (S (length p)) C p []; if (0 <? zlen out) && (zlen out <=? C - 28) then Some out else None with
    | Some out => r = true ∧ holds b' (packet v out)
    | None => r = false ∧ b' = b
    end.
Proof.
  intros Hh Hbuf Hpos Hsa Hsa64 Hda Hda64. destruct (packet_len b v p Hh) as (Hp & Hv & Hpok). change C with 5776 in Hp. unfold uncompress_payload, ZT_PACKET_IDX_PAYLOAD.
  change ZT_PROTO_MAX_PACKET_LENGTH with C. replace (28 + zlen p - 28) with (zlen p) by lia. rewrite (u32_small (zlen p)) by (unfold uint; lia). replace (swrap 32 (zlen p)) with (zlen p) by (symmetry; apply swrap_small; lia).
  change (swrap 32 (u32 (C - 28))) with (C - 28). destruct (packet_split v p) as [Ep Hl]. set (h := iv ++ addrs ++ [f] ++ mac ++ [v]) in *. unfold ZT_PACKET_IDX_PAYLOAD in Hl.
  pose proof Hh as Hh'. rewrite Ep in Hh'. rewrite (meth_bind_ret _ _ _ _ _ (field_holds _ _ 28 (zlen p) Hh' ltac:(lia) ltac:(lia) ltac:(rewrite zlen_app; lia))).
  destruct Hh' as [Hr Hbok]. destruct (repr_bounds C _ _ Hr) as (_ & _ & Hc). destruct Hr as (rest & Er & _). rewrite <- app_assoc in Er.
  rewrite Er in Hbok. rewrite Er, !zlen_app in Hc.
  rewrite (meth_bind_ret _ _ b (p ++ rest) b) by (unfold raw_tail; rewrite Er, drop_app_length' by (unfold zlen in Hl; lia); done).
  apply Forall_app in Hbok as [_ Hrok]. change C with 5776 in Hc.
  destruct (decompress_block (p ++ rest) src_addr dst_addr (zlen p) C buf Hrok) as (r & buf' & E & Hb' & Hr);
    [rewrite zlen_app; pose proof (zlen_nonneg rest); lia|lia|rewrite zlen_app; lia|rewrite Hbuf; done|done|done|rewrite zlen_app; change C with 5776 in *; lia|done|by rewrite Hbuf|].
  rewrite take_app_length' in Hr by (unfold zlen; lia). replace (Z.to_nat (zlen p)) with (length p) in Hr by (unfold zlen; lia).
  rewrite (meth_bind_ret _ _ b (r, buf') b) by (unfold lift_meth; by rewrite E).
  destruct (block_decode (S (length p)) C p []) as [out|] eqn:Ed; cbn [mbind option_bind].
  2:{ rewrite (proj2 (Z.ltb_ge 0 r)) by lia. by exists false, b. }
  destruct Hr as [-> Hpre]. destruct ((0 <? zlen out) && (zlen out <=? C - 28)) eqn:Eo; [|by exists false, b].
  assert (bytes_ok out) as Hook by (by eapply block_decode_ok; [exact Ed| |constructor]).
  destruct (replace_payload_holds b v p buf' out Hh Hpre Hook) as (b2 & E2 & Hh2); [lia|]. rewrite (meth_bind_ret _ _ _ _ _ E2). by exists true, b2.
Qed.

Lemma uncompress_holds b v p buf src_addr dst_addr : holds b (packet v p) → zlen buf = C →
  0 <= src_addr → src_addr + C < 2 ^ 64 → 0 <= dst_addr → dst_addr + C < 2 ^ 64 →
  ∃ r b', uncompress buf src_addr dst_addr b = Ok (Ret r, b') ∧
    match payload_of v p with
    | Some out => r = true ∧ holds b' (packet (clear_compressed v) out)
    | None => r = false ∧ b' = b
    end.
Proof.
  intros Hh Hbuf Hsa Hsa64 Hda Hda64. destruct (packet_len b v p Hh) as (Hp & Hv & Hpok). unfold uncompress.
  rewrite (meth_bind_ret _ _ _ _ _ (compressed_holds b v p Hh)), (meth_bind_ret _ _ _ _ _ (size_holds _ _ Hh)), zlen_pkt, zlen_cons by done.
  replace (27 + (1 + zlen p)) with (28 + zlen p) by lia. unfold payload_of. destruct (Z.testbit v 7) eqn:Ev; cbn [negb andb].
  2:{ exists true, b. split; [done|]. split; [done|]. by rewrite clear_compressed_spec. }
  change ZT_PROTO_MIN_PACKET_LENGTH with 28. unfold ZT_PACKET_IDX_PAYLOAD. rewrite (proj2 (Z.leb_le 28 _)) by lia. destruct p as [|x p].
  - rewrite (meth_bind_ret _ _ b true b) by done. destruct (clear_flag_holds b v [] Hh) as (b' & E & Hb'). rewrite (meth_bind_ret _ _ _ _ _ E). by exists true, b'.
  - rewrite (proj2 (Z.ltb_lt _ _)) by (rewrite zlen_cons; pose proof (zlen_nonneg p); lia).
    destruct (uncompress_payload_holds b v (x :: p) buf src_addr dst_addr Hh Hbuf) as (r & b1 & E & Hr); [rewrite zlen_cons; pose proof (zlen_nonneg p); lia|done..|].
    rewrite (meth_bind_ret _ _ _ _ _ E). revert Hr. destruct (_ ≫= _) as [out|]; [intros [-> Hh1]|intros [-> ->]; by exists false, b].
    destruct (clear_flag_holds b1 v out Hh1) as (b' & E' & Hb'). rewrite (meth_bind_ret _ _ _ _ _ E'). by exists true, b'.
Qed.
End payload.

Lemma uncompress_of_compress iv addrs f mac v p q b buf src_addr dst_addr :
  pkt_ok iv addrs mac → holds b (pkt iv addrs f mac (set_compressed v :: q)) → block_for q p → byte_ok v → Z.testbit v 7 = false →
  0 < zlen p <= C - 28 → zlen buf = C → 0 <= src_addr → src_addr + C < 2 ^ 64 → 0 <= dst_addr → dst_addr + C < 2 ^ 64 →
  ∃ b', uncompress buf src_addr dst_addr b = Ok (Ret true, b') ∧ holds b' (pkt iv addrs f mac (v :: p)).
Proof.
  intros Hok Hh (Hq & Hq0 & Hdec) Hv Ev Hp Hbuf Hsa Hsa64 Hda Hda64. destruct (set_compressed_spec v Hv) as (Hs & Hc & _).
  destruct (uncompress_holds iv addrs f mac Hok b _ q buf src_addr dst_addr Hh Hbuf Hsa Hsa64 Hda Hda64) as (r & b' & E & Hr). revert Hr.
  unfold payload_of. rewrite Hs, Hc, clear_compressed_spec by done. cbn [negb]. destruct q as [|x q]; [done|]. rewrite Hdec by lia. cbn [mbind option_bind].
  rewrite (proj2 (Z.ltb_lt _ _)), (proj2 (Z.leb_le _ _)) by lia. intros [-> Hh']. by exists b'.
Qed.

(** A second [compress] takes the flag of a compressed packet away and leaves the block in its place. *)
Lemma compress_again iv addrs f mac v q b buf : pkt_ok iv addrs mac → holds b (pkt iv addrs f mac (v :: q)) → Z.testbit v 7 = true →
  zlen buf = ZT_PROTO_MAX_PACKET_LENGTH * 2 →
  ∃ b', compress buf b = Ok (Ret false, b') ∧ holds b' (pkt iv addrs f mac (clear_compressed v :: q)).
Proof.
  intros Hok Hh Ev Hbuf. destruct (compress_holds iv addrs f mac Hok b v q buf Hh Hbuf) as ([] & b' & E & Hr); [|by exists b'].
  destruct Hr as [Hf _]. by rewrite Hf in Ev.
Qed.

(** ** Properties of compressed packets *)

(** C4: a packet as it is sent and received.  Whatever a packet carries behind its header, [compress], [armor], any number of
    nodes that increment the hop count, [dearmor] with the same key and [uncompress] all succeed, and the receiver has the verb,
    the payload and the addresses of the sender, and its identifier but for the three bits of the send counter; the packet under way is never longer than the original, and shorter when
    [compress] says that it compressed it.  The arrays on the stack may hold anything, and the two
    ends may use different implementations of Salsa20 and Poly1305. *)
Theorem packet_delivery {L P L' P' : Type} (Cipher Cipher' : Salsa) (Auth : Poly L P) (Auth' : Poly L' P') (st st' : stack)
    (key iv addrs mac p buf buf' : bytes) (f v : Z) (b : Buffer.t) (enc : bool) (counter : Z) (hops_ : nat) (src_addr dst_addr : Z) :
  StreamCipher Cipher → StreamCipher Cipher' → Authenticator Auth → Authenticator Auth' → stack_ok st → stack_ok st' → key_ok key →
  pkt_ok iv addrs mac → holds b (pkt iv addrs f mac (v :: p)) → Z.testbit v 7 = false →
  zlen buf = ZT_PROTO_MAX_PACKET_LENGTH * 2 → zlen buf' = C →
  0 <= src_addr → src_addr + C < 2 ^ 64 → 0 <= dst_addr → dst_addr + C < 2 ^ 64 →
  ∃ r b0 b1 b2 b3 b4 iv' f' mac',
    compress buf b = Ok (Ret r, b0)
    ∧ armor Cipher Auth st key enc counter b0 = Ok (Ret tt, b1)
    ∧ forward hops_ b1 = Ok (Ret tt, b2)
    ∧ dearmor Cipher' Auth' st' key b2 = Ok (Ret true, b3)
    ∧ uncompress buf' src_addr dst_addr b3 = Ok (Ret true, b4)
    ∧ holds b4 (pkt iv' addrs f' mac' (v :: p)) ∧ zlen iv' = 8 ∧ take 7 iv' = take 7 iv ∧ (if r then _l b3 < _l b else _l b3 = _l b).
Proof.
  intros HC HC' HA HA' Hst Hst' Hk Hok Hh Ev Hbuf Hbuf' Hsa Hsa64 Hda Hda64. destruct (packet_len iv addrs f mac Hok b v p Hh) as (Hp & Hv & _).
  destruct (compress_holds iv addrs f mac Hok b v p buf Hh Hbuf) as (r & b0 & E0 & Hr).
  assert (∃ w q, holds b0 (pkt iv addrs f mac (w :: q)) ∧ if r then w = set_compressed v ∧ zlen q < zlen p ∧ block_for q p else w = v ∧ q = p) as (w & q & Hh0 & Hr').
  { destruct r; [destruct Hr as (_ & q & ? & ? & ?); by exists (set_compressed v), q|]. rewrite clear_compressed_spec in Hr by done. by exists v, p. }
  destruct (iv_split iv (ok_iv _ _ _ Hok)) as (i7 & x & -> & Hi).
  destruct (armor_opens Cipher Cipher' Auth Auth' HC HC' HA HA' st st' key b0 enc counter hops_ i7 x addrs f mac (w :: q) Hh0 Hok Hk Hst Hst')
    as (b1 & b2 & b3 & f' & mac' & E1 & E2 & E3 & Hh3 & Hok'). set (iv' := stamped i7 x counter) in *.
  assert (∃ b4, uncompress buf' src_addr dst_addr b3 = Ok (Ret true, b4) ∧ holds b4 (pkt iv' addrs f' mac' (v :: p))) as (b4 & E4 & Hh4).
  { destruct r; [destruct Hr' as (-> & Hl & Hbf)|destruct Hr' as [-> ->]].
    - apply (uncompress_of_compress iv' addrs f' mac' v p q b3 buf' src_addr dst_addr Hok' Hh3 Hbf Hv Ev); [destruct Hbf as (_ & ? & _); lia|done..].
    - destruct (uncompress_holds iv' addrs f' mac' Hok' b3 v p buf' src_addr dst_addr Hh3 Hbuf' Hsa Hsa64 Hda Hda64) as (r' & b4 & E4 & Hr'). revert Hr'.
      unfold payload_of. rewrite Ev, clear_compressed_spec by done. intros [-> ?]. by exists b4. }
  exists r, b0, b1, b2, b3, b4, iv', f', mac'. do 6 (split; [done|]). split; [by destruct Hok'|]. split; [unfold iv', stamped, zlen in *; by rewrite !take_app_length' by lia|].
  assert (_l b3 = 28 + zlen q) as -> by (destruct Hh3 as [Hr3 _]; destruct (repr_bounds C _ _ Hr3) as [-> _]; rewrite zlen_pkt, zlen_cons by done; lia).
  assert (_l b = 28 + zlen p) as -> by (destruct Hh as [Hr3 _]; destruct (repr_bounds C _ _ Hr3) as [-> _]; rewrite zlen_pkt, zlen_cons by done; lia).
  destruct r; [lia|]. by destruct Hr' as [_ ->].
Qed.

(** A packet of 128 bytes, all of them zero. *)
Lemma long_packet : holds (Buf 128 (memset C 0)) (pkt (memset 8 0) (memset 10 0) 0 (memset 8 0) (0 :: memset 100 0)).
Proof.
  assert (pkt (memset 8 0) (memset 10 0) 0 (memset 8 0) (0 :: memset 100 0) = memset 128 0) as -> by (vm_compute; reflexivity).
  split; [|by apply Forall_replicate]. exists (memset (C - 128) 0). split_and!; [|done..]. cbn [_b]. by rewrite memset_app.
Qed.

Lemma packet_delivery_witness :
  ∃ r b0 b1 b2 b3 b4, compress (memset (ZT_PROTO_MAX_PACKET_LENGTH * 2) 7) (Buf 128 (memset C 0)) = Ok (Ret r, b0)
    ∧ armor sse poly64 zero_stack (memset 32 0) true 5 b0 = Ok (Ret tt, b1)
    ∧ forward 3 b1 = Ok (Ret tt, b2)
    ∧ dearmor scalar (poly32 32) zero_stack (memset 32 0) b2 = Ok (Ret true, b3)
    ∧ uncompress (memset C 9) 4096 16384 b3 = Ok (Ret true, b4).
Proof.
  destruct (packet_delivery sse scalar poly64 (poly32 32) _ _ (memset 32 0) (memset 8 0) (memset 10 0) (memset 8 0) (memset 100 0)
    (memset (ZT_PROTO_MAX_PACKET_LENGTH * 2) 7) (memset C 9) 0 0 (Buf 128 (memset C 0)) true 5 3 4096 16384
    sse_cipher scalar_cipher poly64_authenticator (poly32_authenticator 32 (or_introl eq_refl)) zero_stack_ok zero_stack_ok zero_key_ok)
    as (r & b0 & b1 & b2 & b3 & b4 & iv' & f' & mac' & H0 & H1 & H2 & H3 & H4 & _); [split; reflexivity|exact long_packet|reflexivity|apply zlen_memset; done..|lia|done|lia|done|].
  exact (ex_intro _ r (ex_intro _ b0 (ex_intro _ b1 (ex_intro _ b2 (ex_intro _ b3 (ex_intro _ b4 (conj H0 (conj H1 (conj H2 (conj H3 H4)))))))))).
Defined.

(** C19: what [uncompress] does with a packet that anybody may have sent.  It is defined for every packet, wherever
    the packet and its own array lie in memory.  A packet without the flag or without a payload is accepted with its payload as
    it is; with the flag the payload is replaced by what the reference decoder of LZ4 makes of it, and the
    flag is cleared.  It returns false exactly when the payload is not an LZ4 block or the block holds
    nothing or more than a packet can carry, and then the packet is left as it was. *)
Theorem packet_uncompress (iv addrs mac p buf : bytes) (f v : Z) (b : Buffer.t) (src_addr dst_addr : Z) :
  pkt_ok iv addrs mac → holds b (pkt iv addrs f mac (v :: p)) → zlen buf = C →
  0 <= src_addr → src_addr + C < 2 ^ 64 → 0 <= dst_addr → dst_addr + C < 2 ^ 64 →
  ∃ r b', uncompress buf src_addr dst_addr b = Ok (Ret r, b') ∧
    match payload_of v p with
    | Some out => r = true ∧ holds b' (pkt iv addrs f mac (clear_compressed v :: out)) ∧ Z.testbit (clear_compressed v) 7 = false
    | None => r = false ∧ b' = b
    end.
Proof.
  intros Hok Hh Hbuf Hsa Hsa64 Hda Hda64. destruct (packet_len iv addrs f mac Hok b v p Hh) as (_ & Hv & _).
  destruct (uncompress_holds iv addrs f mac Hok b v p buf src_addr dst_addr Hh Hbuf Hsa Hsa64 Hda Hda64) as (r & b' & E & Hr). exists r, b'. split; [done|].
  destruct (payload_of v p) as [out|]; [|done]. destruct Hr as [-> Hr]. split_and!; [done|done|]. by apply clear_compressed_bit.
Qed.

(** A block of one sequence, 0x15 a hundred times and then five literals, and a payload that is not a block. *)
Lemma packet_uncompress_witness :
  payload_of 0x86 ([0x1f; 0x15; 1; 0; 80; 0x50; 1; 2; 3; 4; 5]) = Some (memset 100 0x15 ++ [1; 2; 3; 4; 5])
  ∧ payload_of 0x86 (memset 100 0) = None
  ∧ ∃ b', uncompress (memset C 9) 4096 16384 (Buf 128 (memset C 0)) = Ok (Ret true, b').
Proof.
  split; [vm_compute; reflexivity|]. split; [vm_compute; reflexivity|].
  destruct (packet_uncompress (memset 8 0) (memset 10 0) (memset 8 0) (memset 100 0) (memset C 9) 0 0 (Buf 128 (memset C 0)) 4096 16384)
    as (r & b' & E & Hr); [split; reflexivity|exact long_packet|apply zlen_memset; done|lia|done|lia|done|].
  destruct Hr as [-> _]. exact (ex_intro _ b' E).
Defined.
