(* ===== verification/Switch.v ===== *)
(** * The switch: datagrams, fragments and reassembly (zto/node/Switch.hpp, Switch.cpp)

    What the node does with a datagram from the network ([onRemotePacket]): beacons,
    relaying of fragments and packets for other nodes, the queue in which the
    fragments of a packet for this node are collected, and the hand-over of complete
    packets to [IncomingPacket::tryDecode]; and how [_trySend] cuts a packet into
    datagrams once it has chosen a path.

    The rest of the node is an environment: an abstract state with the operations
    [Env] that the switch calls.  A handler runs in [sw]: it changes the switch and
    the environment and may throw [std::out_of_range], which [onRemotePacket]
    catches.  The build is the one without [ZT_ENABLE_CLUSTER]. *)

From S2P Require Import Prelude Words Utils Addr Buffer Wire Poly1305 Salsa20 Packet.
From Stdlib Require Import ZArith Lia.
From stdpp Require Import base numbers list option gmap.

Open Scope Z_scope.

Definition ZT_RX_QUEUE_SIZE : nat := 64.
Definition ZT_RX_QUEUE_EXPIRE : Z := 4000.
Definition ZT_RELAY_MAX_HOPS : Z := 3.
Definition ZT_MIN_UNITE_INTERVAL : Z := 30000.
Definition VERB_NOP : Z := 0x00.
Definition VERB_RENDEZVOUS : Z := 0x05.

(** [Utils::countBits(uint32_t)]. *)
Definition countBits (v : Z) : Z :=
  let v := wsub 32 v (Z.land (Z.shiftr v 1) 0x55555555) in
  let v := wadd 32 (Z.land v 0x33333333) (Z.land (Z.shiftr v 2) 0x33333333) in
  Z.shiftr (wmul 32 (Z.land (wadd 32 v (Z.shiftr v 4)) 0xF0F0F0F) 0x1010101) 24.

(** ** The environment *)

Section env.
Context (W Peer Path : Type).

(** [IncomingPacket]: a packet, when it came and on which path. *)
Record incoming := Incoming { ip_packet : Buffer.t; ip_time : Z; ip_path : option Path }.

Record Env := {
  (* RR->identity, RR->node *)
  self : Z;
  shouldUsePathForZeroTierTraffic : Z → bytes → bytes → bool;
  prng : W → Z * W;
  getSecureRandom : W → bytes * W;
  (* memory under local variables *)
  stack_of : W → stack;
  memory_of : W → bytes;
  (* RR->topology *)
  amRoot : W → bool;
  getPath : bytes → bytes → W → Path * W;
  getPeer : Z → W → option Peer * W;
  getUpstreamPeer : list Z → bool → W → option Peer * W;
  getOutboundPathTrust : Path → W → Z;
  (* Path *)
  path_received : Path → Z → W → W;
  path_send : Path → bytes → Z → W → bool * W;
  trustEstablished : Path → Z → W → bool;
  nextOutgoingCounter : Path → W → Z * W;
  (* Peer *)
  peer_address : Peer → Z;
  peer_key : Peer → bytes;
  sendDirect : Peer → bytes → Z → bool → W → bool * W;
  getRendezvousAddresses : Peer → Z → W → bytes * bytes;
  (* IncomingPacket and Switch::send *)
  tryDecode : incoming → W → bool * incoming * W;
  send : Buffer.t → bool → W → W;
}.

(** ** The state of the switch *)

Record RXQueueEntry := RX {
  timestamp : Z;
  rx_packetId : Z;
  frag0 : incoming;
  frags : list Buffer.t;
  totalFragments : Z;
  haveFragments : Z;
  complete : bool;
}.

Record state := Switch {
  lastBeaconResponse : Z;
  rxQueue : list RXQueueEntry;
  lastUniteAttempt : gmap (Z * Z) Z;
  world : W;
}.

Definition sw (A : Type) : Type := state → cres (outcome A * state).

End env.

Arguments Incoming {Path} _ _ _.
Arguments ip_packet {Path} _.
Arguments ip_time {Path} _.
Arguments ip_path {Path} _.
Arguments RX {Path} _ _ _ _ _ _ _.
Arguments timestamp {Path} _.
Arguments rx_packetId {Path} _.
Arguments frag0 {Path} _.
Arguments frags {Path} _.
Arguments totalFragments {Path} _.
Arguments haveFragments {Path} _.
Arguments complete {Path} _.
Arguments Switch {W Path} _ _ _ _.
Arguments lastBeaconResponse {W Path} _.
Arguments rxQueue {W Path} _.
Arguments lastUniteAttempt {W Path} _.
Arguments world {W Path} _.

#[export] Instance sw_ret {W Path} : MRet (sw W Path) := λ _ a s, Ok (Ret a, s).
#[export] Instance sw_bind {W Path} : MBind (sw W Path) := λ _ _ f m s,
  match m s with
  | Ok (Ret a, s') => f a s'
  | Ok (OutOfRange, s') => Ok (OutOfRange, s')
  | Undef u => Undef u
  end.

(** ** Operations of the environment and of local buffers in a handler *)

Section handlers.
Context {L P : Type} (Cipher : Salsa) (Auth : Poly L P).
Context {W Peer Path : Type} (E : Env W Peer Path).

Local Abbreviation M := (sw W Path).

Definition sw_throw {A} : M A := λ s, Ok (OutOfRange, s).
Definition sw_lift {A} (r : cres A) : M A := λ s, a ← r; Ok (Ret a, s).
Definition call {A} (f : W → A * W) : M A := λ s,
  let '(a, w) := f (world s) in Ok (Ret a, Switch (lastBeaconResponse s) (rxQueue s) (lastUniteAttempt s) w).
Definition ask {A} (f : W → A) : M A := λ s, Ok (Ret (f (world s)), s).
Definition tell (f : W → W) : M unit := call (λ w, (tt, f w)).

(** A method on a buffer that is a local variable: its result and the new buffer. *)
Definition on {A} (b : Buffer.t) (m : meth A) : M (A * Buffer.t) := λ s,
  r ← m b;
  match r with
  | (Ret a, b') => Ok (Ret (a, b'), s)
  | (OutOfRange, _) => Ok (OutOfRange, s)
  end.

(** [Buffer(data,len)]. *)
Definition new_buffer (data : bytes) : M Buffer.t :=
  mem ← ask (memory_of W Peer Path E);
  '(_, b) ← on (Buf 0 mem) (copyFrom C data (zlen data));
  mret b.

(** [data()] with [size()]. *)
Definition contents (b : Buffer.t) : M bytes := sw_lift (mem_read 0 (_l b) (_b b)).

(** [Packet(dest,source,verb)]. *)
Definition new_packet (dest source v : Z) : M Buffer.t :=
  mem ← ask (memory_of W Peer Path E);
  rnd ← call (getSecureRandom W Peer Path E);
  '(_, b) ← on (Buf 0 mem) (reset rnd dest source v);
  mret b.

(** ** The receive queue *)

Definition no_entry : RXQueueEntry Path := RX 0 0 (Incoming (Buf 0 []) 0 None) [] 0 0 false.

Definition get_entry (i : nat) : M (RXQueueEntry Path) := λ s,
  match rxQueue s !! i with Some e => Ok (Ret e, s) | None => Undef OutOfBounds end.
Definition set_entry (i : nat) (e : RXQueueEntry Path) : M unit := λ s,
  Ok (Ret tt, Switch (lastBeaconResponse s) (<[i := e]> (rxQueue s)) (lastUniteAttempt s) (world s)).

Definition with_timestamp (t : Z) (e : RXQueueEntry Path) : RXQueueEntry Path :=
  RX t (rx_packetId e) (frag0 e) (frags e) (totalFragments e) (haveFragments e) (complete e).
Definition with_frag0 (p : incoming Path) (e : RXQueueEntry Path) : RXQueueEntry Path :=
  RX (timestamp e) (rx_packetId e) p (frags e) (totalFragments e) (haveFragments e) (complete e).
Definition with_complete (c : bool) (e : RXQueueEntry Path) : RXQueueEntry Path :=
  RX (timestamp e) (rx_packetId e) (frag0 e) (frags e) (totalFragments e) (haveFragments e) c.
Definition with_have (h : Z) (e : RXQueueEntry Path) : RXQueueEntry Path :=
  RX (timestamp e) (rx_packetId e) (frag0 e) (frags e) (totalFragments e) h (complete e).

(** The loop of [_findRXQueueEntry] with [i] entries to go: the matching entry, or the
    one with the least timestamp; expired entries are freed on the way. *)
Fixpoint find_loop (now packetId : Z) (i : nat) (oldest : nat) (q : list (RXQueueEntry Path)) : nat * list (RXQueueEntry Path) :=
  match i with
  | O => (oldest, q)
  | S i' =>
      let rq := default no_entry (q !! i') in
      if (rx_packetId rq =? packetId) && negb (timestamp rq =? 0) then (i', q)
      else
        let q := if ZT_RX_QUEUE_EXPIRE <=? wsub 64 now (timestamp rq) then <[i' := with_timestamp 0 rq]> q else q in
        let rq := default no_entry (q !! i') in
        let oldest := if timestamp rq <? timestamp (default no_entry (q !! oldest)) then i' else oldest in
        find_loop now packetId i' oldest q
  end.

Definition findRXQueueEntry (now packetId : Z) : M nat := λ s,
  let '(k, q) := find_loop now packetId ZT_RX_QUEUE_SIZE (ZT_RX_QUEUE_SIZE - 1) (rxQueue s) in
  Ok (Ret k, Switch (lastBeaconResponse s) q (lastUniteAttempt s) (world s)).

(** [IncomingPacket::init] on the head of an entry. *)
Definition init_head (i : nat) (data : bytes) (path : Path) (now : Z) : M unit :=
  e ← get_entry i;
  '(_, b) ← on (ip_packet (frag0 e)) (copyFrom C data (zlen data));
  set_entry i (with_frag0 (Incoming b now (Some path)) e).

(** [rq->frags[n] = fragment]. *)
Definition assign_frag (i : nat) (n : nat) (fragment : Buffer.t) : M unit :=
  e ← get_entry i;
  match frags e !! n with
  | None => sw_lift (Undef OutOfBounds)
  | Some old =>
      '(_, b) ← on old (assign C fragment);
      set_entry i (RX (timestamp e) (rx_packetId e) (frag0 e) (<[n := b]> (frags e)) (totalFragments e)
                     (haveFragments e) (complete e))
  end.

(** rq->frag0.append(rq->frags[f - 1].payload(),rq->frags[f - 1].payloadLength()), for each [f]. *)
Fixpoint append_frags (i : nat) (fs : list nat) : M unit :=
  match fs with
  | [] => mret tt
  | f :: fs' =>
      e ← get_entry i;
      match frags e !! f with
      | None => sw_lift (Undef OutOfBounds)
      | Some fr =>
          '(off, _) ← on fr Fragment.payload;
          '(n, _) ← on fr Fragment.payloadLength;
          '(_, b) ← on (ip_packet (frag0 e)) (append C (drop (Z.to_nat off) (_b fr)) n);
          _ ← set_entry i (with_frag0 (Incoming b (ip_time (frag0 e)) (ip_path (frag0 e))) e);
          append_frags i fs'
      end
  end.

(** The entry is complete: assemble and process the full packet. *)
Definition assemble (i : nat) (total : Z) : M unit :=
  _ ← append_frags i (seq 0 (Z.to_nat (total - 1)));
  e ← get_entry i;
  '(ok, p) ← call (λ w, let '(ok, p, w) := tryDecode W Peer Path E (frag0 e) w in ((ok, p), w));
  let e := with_frag0 p e in
  set_entry i (if (ok : bool) then with_timestamp 0 e else with_complete true e).

(** ** Fragments *)

Definition relay_fragment (path : Path) (now : Z) (fragment : Buffer.t) (destination : Z) : M unit :=
  root ← ask (amRoot W Peer Path E);
  trust ← ask (trustEstablished W Peer Path E path now);
  if negb root && negb trust then mret tt
  else
    '(h, fragment) ← on fragment Fragment.hops;
    if h <? ZT_RELAY_MAX_HOPS then
      '(_, fragment) ← on fragment Fragment.incrementHops;
      data ← contents fragment;
      relayTo ← call (getPeer W Peer Path E destination);
      sent ← match relayTo with
             | Some p => call (sendDirect W Peer Path E p data now false)
             | None => mret false
             end;
      if sent : bool then mret tt
      else
        relayTo ← call (getUpstreamPeer W Peer Path E [] false);
        match relayTo with
        | Some p => _ ← call (sendDirect W Peer Path E p data now true); mret tt
        | None => mret tt
        end
    else mret tt.

(** A sane fragment goes into its entry, or into a new one. *)
Definition store_fragment (now fragmentPacketId fragmentNumber total : Z) (fragment : Buffer.t) : M unit :=
  i ← findRXQueueEntry now fragmentPacketId;
  rq ← get_entry i;
  let n := Z.to_nat (fragmentNumber - 1) in
  let bit := Z.shiftl 1 fragmentNumber in
  if (timestamp rq =? 0) || negb (rx_packetId rq =? fragmentPacketId) then
    _ ← set_entry i (RX now fragmentPacketId (frag0 rq) (frags rq) (totalFragments rq) (haveFragments rq) (complete rq));
    _ ← assign_frag i n fragment;
    rq ← get_entry i;
    set_entry i (RX (timestamp rq) (rx_packetId rq) (frag0 rq) (frags rq) total bit false)
  else if Z.land (haveFragments rq) bit =? 0 then
    _ ← assign_frag i n fragment;
    rq ← get_entry i;
    let have := Z.lor (haveFragments rq) bit in
    _ ← set_entry i (RX (timestamp rq) (rx_packetId rq) (frag0 rq) (frags rq) total have (complete rq));
    if countBits have =? total then assemble i total else mret tt
  else mret tt.

Definition collect_fragment (now : Z) (fragment : Buffer.t) : M unit :=
  '(fragmentPacketId, _) ← on fragment Fragment.packetId;
  '(fragmentNumber, _) ← on fragment Fragment.fragmentNumber;
  '(total, _) ← on fragment Fragment.totalFragments;
  if (total <=? ZT_MAX_PACKET_FRAGMENTS) && (fragmentNumber <? ZT_MAX_PACKET_FRAGMENTS) && (0 <? fragmentNumber) && (1 <? total)
  then store_fragment now fragmentPacketId fragmentNumber total fragment
  else mret tt.

Definition handle_fragment (path : Path) (now : Z) (data : bytes) : M unit :=
  fragment ← new_buffer data;
  '(destination, _) ← on fragment Fragment.destination;
  if negb (destination =? self W Peer Path E) then relay_fragment path now fragment destination
  else collect_fragment now fragment.

(** ** Packets and heads of packets *)

(** [_shouldUnite]; the key is the pair in ascending order. *)
Definition shouldUnite (now source destination : Z) : M bool := λ s,
  let key := if destination <? source then (destination, source) else (source, destination) in
  let ts := default 0 (lastUniteAttempt s !! key) in
  let unite := ZT_MIN_UNITE_INTERVAL <=? wsub 64 now ts in
  Ok (Ret unite, Switch (lastBeaconResponse s) (rxQueue s)
        (<[key := if unite then now else ts]> (lastUniteAttempt s)) (world s)).

(** One RENDEZVOUS to [to] about [about] at [hint]. *)
Definition send_rendezvous (to about : Z) (hint : bytes) : M unit :=
  outp ← new_packet to (self W Peer Path E) VERB_RENDEZVOUS;
  '(_, outp) ← on outp (append_int C 1 0);
  '(_, outp) ← on outp (AddressWire.appendTo C about);
  '(_, outp) ← on outp (append_int C 2 (wrap 16 (InetAddress.port hint)));
  '(_, outp) ← (match InetAddress.rawIpData hint with
     | None => sw_lift (Undef OutOfBounds)
     | Some ip =>
         if InetAddress.ss_family hint =? InetAddress.AF_INET6
         then '(_, outp) ← on outp (append_int C 1 16); on outp (append C ip 16)
         else '(_, outp) ← on outp (append_int C 1 4); on outp (append C ip 4)
     end);
  tell (send W Peer Path E outp true).

(** The two RENDEZVOUS messages, the order of which [alt] decides. *)
Definition unite (now source destination : Z) (relayTo : Peer) : M unit :=
  '(destV4, destV6) ← ask (getRendezvousAddresses W Peer Path E relayTo now);
  sourcePeer ← call (getPeer W Peer Path E source);
  match sourcePeer with
  | None => mret tt
  | Some sp =>
      '(sourceV4, sourceV6) ← ask (getRendezvousAddresses W Peer Path E sp now);
      let valid a := negb (InetAddress.ss_family a =? 0) in
      match (if valid destV6 && valid sourceV6 then Some (destV6, sourceV6)
             else if valid destV4 && valid sourceV4 then Some (destV4, sourceV4) else None) with
      | None => mret tt
      | Some (hintToSource, hintToDest) =>
          r ← call (prng W Peer Path E);
          if Z.land r 1 =? 0
          then _ ← send_rendezvous source destination hintToSource; send_rendezvous destination source hintToDest
          else _ ← send_rendezvous destination source hintToDest; send_rendezvous source destination hintToSource
      end
  end.

Definition relay_packet (path : Path) (now : Z) (data : bytes) (source destination : Z) : M unit :=
  root ← ask (amRoot W Peer Path E);
  trust ← ask (trustEstablished W Peer Path E path now);
  if negb root && negb trust && negb (source =? self W Peer Path E) then mret tt
  else
    packet ← new_buffer data;
    '(h, _) ← on packet hops;
    if h <? ZT_RELAY_MAX_HOPS then
      '(_, packet) ← on packet incrementHops;
      data ← contents packet;
      relayTo ← call (getPeer W Peer Path E destination);
      sent ← match relayTo with
             | Some p => call (sendDirect W Peer Path E p data now false)
             | None => mret false
             end;
      match relayTo, (sent : bool) with
      | Some p, true =>
          if negb (source =? self W Peer Path E) then
            u ← shouldUnite now source destination;
            if u : bool then unite now source destination p else mret tt
          else mret tt
      | _, _ =>
          relayTo ← call (getUpstreamPeer W Peer Path E [source] true);
          match relayTo with
          | Some p => _ ← call (sendDirect W Peer Path E p data now true); mret tt
          | None => mret tt
          end
      end
    else mret tt.

(** The eight bytes of the identifier, shifted into place. *)
Definition packetId_of (d : bytes) : cres Z :=
  match d with
  | [d0; d1; d2; d3; d4; d5; d6; d7] =>
      Ok (Z.lor (Z.lor (Z.lor (Z.lor (Z.lor (Z.lor (Z.lor (Z.shiftl d0 56) (Z.shiftl d1 48)) (Z.shiftl d2 40))
            (Z.shiftl d3 32)) (Z.shiftl d4 24)) (Z.shiftl d5 16)) (Z.shiftl d6 8)) d7)
  | _ => Undef OutOfBounds
  end.

(** The head of a fragmented packet goes into its entry, or into a new one. *)
Definition store_head (path : Path) (now packetId : Z) (data : bytes) : M unit :=
  i ← findRXQueueEntry now packetId;
  rq ← get_entry i;
  if (timestamp rq =? 0) || negb (rx_packetId rq =? packetId) then
    _ ← set_entry i (RX now packetId (frag0 rq) (frags rq) (totalFragments rq) (haveFragments rq) (complete rq));
    _ ← init_head i data path now;
    rq ← get_entry i;
    set_entry i (RX (timestamp rq) (rx_packetId rq) (frag0 rq) (frags rq) 0 1 false)
  else if Z.land (haveFragments rq) 1 =? 0 then
    let have := if 1 <? totalFragments rq then Z.lor (haveFragments rq) 1 else haveFragments rq in
    _ ← set_entry i (with_have have rq);
    _ ← init_head i data path now;
    if (1 <? totalFragments rq) && (countBits have =? totalFragments rq)
    then assemble i (totalFragments rq)
    else mret tt
  else mret tt.

Definition collect_head (path : Path) (now : Z) (data : bytes) : M unit :=
  d ← sw_lift (mem_read 0 8 data);
  packetId ← sw_lift (packetId_of d);
  store_head path now packetId data.

(** The loop for an entry to keep an undecoded packet in. *)
Fixpoint oldest_loop (i rq : nat) (q : list (RXQueueEntry Path)) : nat :=
  match i with
  | O => rq
  | S i' =>
      if timestamp (default no_entry (q !! rq)) =? 0 then rq
      else oldest_loop i' (if timestamp (default no_entry (q !! i')) <? timestamp (default no_entry (q !! rq)) then i' else rq) q
  end.

Definition oldest_entry : M nat := λ s,
  Ok (Ret (oldest_loop (ZT_RX_QUEUE_SIZE - 1) (ZT_RX_QUEUE_SIZE - 1) (rxQueue s)), s).

(** An unfragmented packet. *)
Definition handle_whole (path : Path) (now : Z) (data : bytes) : M unit :=
  b ← new_buffer data;
  '(ok, p) ← call (λ w, let '(ok, p, w) := tryDecode W Peer Path E (Incoming b now (Some path)) w in ((ok, p), w));
  if ok : bool then mret tt
  else
    i ← oldest_entry;
    rq ← get_entry i;
    '(id, _) ← on (ip_packet p) packetId;
    '(_, b) ← on (ip_packet (frag0 rq)) (assign C (ip_packet p));
    set_entry i (RX now id (Incoming b (ip_time p) (ip_path p)) (frags rq) 1 1 true).

Definition handle_packet (path : Path) (now : Z) (data : bytes) : M unit :=
  destination ← sw_lift (d ← mem_read 8 5 data; Address.setTo d 5);
  source ← sw_lift (d ← mem_read 13 5 data; Address.setTo d 5);
  if source =? self W Peer Path E then mret tt
  else if negb (destination =? self W Peer Path E) then relay_packet path now data source destination
  else
    f ← sw_lift (mem_read ZT_PACKET_IDX_FLAGS 1 data);
    if negb (Z.land (be_val f) ZT_PROTO_FLAG_FRAGMENTED =? 0) then collect_head path now data
    else handle_whole path now data.

(** ** Beacons *)

Definition beacon_response (p : Peer) (path : Path) (now : Z) : M unit :=
  outp ← new_packet (peer_address W Peer Path E p) (self W Peer Path E) VERB_NOP;
  counter ← call (nextOutgoingCounter W Peer Path E path);
  st ← ask (stack_of W Peer Path E);
  '(_, outp) ← on outp (armor Cipher Auth st (peer_key W Peer Path E p) true counter);
  d ← contents outp;
  _ ← call (path_send W Peer Path E path d now);
  mret tt.

(** At most one response in 2500 ms. *)
Definition beacon_rate (now : Z) : M bool := λ s,
  if 2500 <=? wsub 64 now (lastBeaconResponse s)
  then Ok (Ret true, Switch now (rxQueue s) (lastUniteAttempt s) (world s))
  else Ok (Ret false, s).

Definition handle_beacon (localAddr fromAddr : bytes) (path : Path) (now : Z) (data : bytes) : M unit :=
  beaconAddr ← sw_lift (d ← mem_read 8 5 data; Address.setTo d 5);
  if beaconAddr =? self W Peer Path E then mret tt
  else if negb (shouldUsePathForZeroTierTraffic W Peer Path E beaconAddr localAddr fromAddr) then mret tt
  else
    peer ← call (getPeer W Peer Path E beaconAddr);
    match peer with
    | None => mret tt
    | Some p => ok ← beacon_rate now; if ok : bool then beacon_response p path now else mret tt
    end.

(** ** The handler *)

Definition handle_datagram (localAddr fromAddr : bytes) (now : Z) (data : bytes) : M unit :=
  path ← call (getPath W Peer Path E localAddr fromAddr);
  _ ← tell (path_received W Peer Path E path now);
  if zlen data =? 13 then handle_beacon localAddr fromAddr path now data
  else if ZT_PROTO_MIN_FRAGMENT_LENGTH <? zlen data then
    x ← sw_lift (mem_read ZT_PACKET_FRAGMENT_IDX_FRAGMENT_INDICATOR 1 data);
    if be_val x =? ZT_PACKET_FRAGMENT_INDICATOR then handle_fragment path now data
    else if ZT_PROTO_MIN_PACKET_LENGTH <=? zlen data then handle_packet path now data
    else mret tt
  else mret tt.

(** [onRemotePacket]: an exception ends the handler and leaves what it has done. *)
Definition onRemotePacket (localAddr fromAddr : bytes) (now : Z) (data : bytes) (s : state W Path) : cres (state W Path) :=
  '(_, s') ← handle_datagram localAddr fromAddr now data s;
  Ok s'.

(** ** Sending *)

(** The loop over the fragments after the head. *)
Fixpoint send_fragments (path : Path) (now : Z) (packet : Buffer.t) (total : Z) (k : nat) (fno fragStart remaining : Z) : M unit :=
  match k with
  | O => mret tt
  | S k' =>
      let chunkSize := Z.min remaining (ZT_UDP_DEFAULT_PAYLOAD_MTU - ZT_PROTO_MIN_FRAGMENT_LENGTH) in
      mem ← ask (memory_of W Peer Path E);
      '(_, frag) ← on (Buf 0 mem) (Fragment.init packet fragStart chunkSize fno total);
      d ← contents frag;
      _ ← call (path_send W Peer Path E path d now);
      send_fragments path now packet total k' (fno + 1) (u32 (fragStart + chunkSize)) (u32 (remaining - chunkSize))
  end.

(** The head, and when it was sent and the packet is too big for one datagram the rest. *)
Definition send_datagrams (path : Path) (now : Z) (packet : Buffer.t) : M unit :=
  let chunkSize := Z.min (_l packet) ZT_UDP_DEFAULT_PAYLOAD_MTU in
  d ← sw_lift (mem_read 0 chunkSize (_b packet));
  sent ← call (path_send W Peer Path E path d now);
  if (sent : bool) && (chunkSize <? _l packet) then
    let remaining := u32 (_l packet - chunkSize) in
    let per := ZT_UDP_DEFAULT_PAYLOAD_MTU - ZT_PROTO_MIN_FRAGMENT_LENGTH in
    let fragsRemaining := remaining / per in
    let fragsRemaining := if fragsRemaining * per <? remaining then fragsRemaining + 1 else fragsRemaining in
    let total := fragsRemaining + 1 in
    send_fragments path now packet total (Z.to_nat (total - 1)) 1 chunkSize remaining
  else mret tt.

(** [_trySend] from the choice of [viaPath] to [peer] on. *)
Definition transmit (peer : Peer) (viaPath : Path) (now : Z) (packet : Buffer.t) (encrypt : bool) : M Buffer.t :=
  '(_, packet) ← on packet (setFragmented (Z.min (_l packet) ZT_UDP_DEFAULT_PAYLOAD_MTU <? _l packet));
  trusted ← ask (getOutboundPathTrust W Peer Path E viaPath);
  '(_, packet) ← (if negb (trusted =? 0) then on packet (setTrusted trusted)
     else
       counter ← call (nextOutgoingCounter W Peer Path E viaPath);
       st ← ask (stack_of W Peer Path E);
       on packet (armor Cipher Auth st (peer_key W Peer Path E peer) encrypt counter));
  _ ← send_datagrams viaPath now packet;
  mret packet.

End handlers.
