(* ===== verification/Reassembly.v ===== *)
(** * Fragmented packets through two switches

    The proofs about [Switch.v].  A packet that is too big for a datagram is cut into a head and
    fragments by [_trySend] ([transmit_spec]); the receive queue of the other switch collects them
    ([store_head], [store_fragment]) and assembles the packet when the last one is there
    ([receive_all]).  The main theorem composes the two with [armor] and [dearmor].

    The queue is described by [queue_ok] (64 entries of three fragment buffers, each buffer
    well-formed), [idle id] (no live entry for the packet [id]), and [gathering S] (one live entry,
    which holds the datagrams whose bits are in [S]).  [datagram d i x] says that [x] is the [i]-th datagram of
    the packet [d]; the hop count of a fragment is arbitrary, since relays count it up. *)

From Stdlib Require Import ZArith Lia.
From stdpp Require Import base numbers list option gmap.
From S2P Require Import Prelude Words Utils Addr Buffer Wire Poly1305 Salsa20 Packet Switch.
Open Scope Z_scope.

(** ** Running a handler *)

Section run.
Context {W Peer Path : Type} (E : Env W Peer Path).

Lemma sw_bind_ret {A B} (m : sw W Path A) (f : A → sw W Path B) s a s' :
  m s = Ok (Ret a, s') → (m ≫= f) s = f a s'.
Proof. intros H. unfold mbind, sw_bind. by rewrite H. Qed.

Lemma on_ret {A} (b : Buffer.t) (m : meth A) (s : state W Path) a b' :
  m b = Ok (Ret a, b') → on b m s = Ok (Ret (a, b'), s).
Proof. intros H. unfold on. by rewrite H. Qed.

Lemma get_entry_ret (s : state W Path) i e : rxQueue s !! i = Some e → get_entry i s = Ok (Ret e, s).
Proof. intros H. unfold get_entry. by rewrite H. Qed.

Definition with_queue (q : list (RXQueueEntry Path)) (s : state W Path) : state W Path :=
  Switch (lastBeaconResponse s) q (lastUniteAttempt s) (world s).

End run.

(** ** The receive queue *)

Section queue.
Context {Path : Type}.
Implicit Types (q : list (RXQueueEntry Path)) (e : RXQueueEntry Path).

Definition live (id : Z) (e : RXQueueEntry Path) : Prop := rx_packetId e = id ∧ timestamp e ≠ 0.

(** Entries may have been freed. *)
Definition freed (q q' : list (RXQueueEntry Path)) : Prop :=
  Forall2 (λ e e', e' = e ∨ e' = with_timestamp 0 e) q q'.

Lemma freed_refl q : freed q q.
Proof. induction q; constructor; auto. Qed.

Lemma with_timestamp_twice e : with_timestamp 0 (with_timestamp 0 e) = with_timestamp 0 e.
Proof. done. Qed.

Lemma freed_trans q1 q2 q3 : freed q1 q2 → freed q2 q3 → freed q1 q3.
Proof.
  intros H1. revert q3. induction H1 as [|a b l1 l2 Hab H1 IH]; intros q3 H2; inversion_clear H2; [constructor|].
  constructor; [|by apply IH]. destruct Hab as [->| ->], H as [->| ->]; rewrite ?with_timestamp_twice; auto.
Qed.

Lemma freed_insert q i e : q !! i = Some e → freed q (<[i := with_timestamp 0 e]> q).
Proof.
  revert i. induction q as [|a q IH]; intros [|i] H; try done; cbn in *.
  - injection H as ->. constructor; [by right|apply freed_refl].
  - constructor; [by left|by apply IH].
Qed.

Lemma freed_length q q' : freed q q' → length q' = length q.
Proof. intros H. by rewrite (Forall2_length _ _ _ H). Qed.

Lemma freed_lookup q q' i e : freed q q' → q !! i = Some e → ∃ e', q' !! i = Some e' ∧ (e' = e ∨ e' = with_timestamp 0 e).
Proof. intros H Hi. destruct (Forall2_lookup_l _ _ _ _ _ H Hi) as (e' & ? & ?). by exists e'. Qed.

Lemma freed_live q q' i e' id : freed q q' → q' !! i = Some e' → live id e' → q !! i = Some e'.
Proof.
  intros H Hi [Hid Ht]. destruct (Forall2_lookup_r _ _ _ _ _ H Hi) as (e & He & [->| ->]); [done|].
  by destruct Ht.
Qed.

(** What the search returns: a live entry for the packet, untouched, or, when there is
    none among the entries searched, one that is not live for it. *)
Lemma find_loop_spec now id i oldest q k q' :
  (oldest < length q)%nat → (i <= length q)%nat → find_loop now id i oldest q = (k, q') →
  freed q q' ∧ (k < length q)%nat ∧
  ((∃ e, (k < i)%nat ∧ q !! k = Some e ∧ live id e ∧ q' !! k = Some e)
   ∨ ∀ j e, (j < i)%nat → q !! j = Some e → ¬ live id e).
Proof.
  revert oldest q. induction i as [|i IH]; intros oldest q Ho Hi; cbn [find_loop].
  { intros [= <- <-]. split; [apply freed_refl|]. split; [done|]. right. lia. }
  destruct (lookup_lt_is_Some_2 q i ltac:(lia)) as [e He]. rewrite He. change (default no_entry (Some e)) with e.
  destruct ((rx_packetId e =? id) && negb (timestamp e =? 0)) eqn:Em.
  { intros [= <- <-]. bool_hyps. split; [apply freed_refl|]. split; [lia|]. left. exists e. split_and!; [lia|done| |done]. done. }
  assert (¬ live id e) as Hne.
  { intros [Hid Ht]. apply andb_false_iff in Em. rewrite Hid, Z.eqb_refl in Em. destruct Em as [|Em]; [done|].
    apply negb_false_iff, Z.eqb_eq in Em. done. }
  set (q1 := if _ <=? _ then _ else q). assert (freed q q1) as Hq1.
  { unfold q1. destruct (_ <=? _); [by apply freed_insert|apply freed_refl]. }
  pose proof (freed_length _ _ Hq1) as Hl1. intros Hf. apply IH in Hf; [|by destruct (_ <? _); lia|lia].
  destruct Hf as (Hfr & Hk & Hr). rewrite Hl1 in Hk. split; [by eapply freed_trans|]. split; [done|].
  destruct Hr as [(e1 & Hki & He1 & Hl & Hq')|Hno].
  - left. exists e1. split; [lia|]. split; [|done]. by eapply freed_live.
  - right. intros j e1 Hj Hje Hlive. destruct (decide (j = i)) as [->|]; [naive_solver|].
    destruct (freed_lookup _ _ _ _ Hq1 Hje) as (e2 & He2 & Hor).
    assert (e2 = e1) as ->; [|by apply (Hno j e1); [lia|..]].
    destruct Hor as [?| ->]; [done|]. exfalso.
    unfold q1 in He2. destruct (_ <=? _).
    + rewrite list_lookup_insert_ne in He2 by done. rewrite Hje in He2. injection He2 as He2.
      destruct Hlive as [_ Ht]. apply Ht. by rewrite He2.
    + rewrite Hje in He2. injection He2 as He2. destruct Hlive as [_ Ht]. apply Ht. by rewrite He2.
Qed.

End queue.

(** ** Buffers of the switch *)

Lemma copyFrom_holds b d x : holds b d → bytes_ok x → zlen x <= C →
  ∃ b', copyFrom C x (zlen x) b = Ok (Ret tt, b') ∧ holds b' x.
Proof.
  intros [(r & Eb & El & Er) Hok] Hx Hl. unfold copyFrom. rewrite (proj2 (Z.ltb_ge _ _)) by lia.
  unfold mem_copy. rewrite mem_read_all. cbn [mbind cres_bind].
  destruct (bytes_split (zlen x) (_b b)) as (p & q & E & Hp); [rewrite Eb, zlen_app; pose proof (zlen_nonneg x); lia|].
  rewrite E in Hok |- *. rewrite mem_write_head by lia. eexists. split; [done|].
  apply Forall_app in Hok as [_ Hq]. split; [|by apply Forall_app_2].
  exists q. cbn [_b _l]. rewrite Eb in E. assert (zlen (d ++ r) = zlen (p ++ q)) as H by (by rewrite E). rewrite !zlen_app in H.
  split_and!; [done|done|lia].
Qed.

Lemma assign_holds b d o x : holds b d → holds o x → ∃ b', assign C o b = Ok (Ret tt, b') ∧ holds b' x.
Proof.
  intros Hb [(r & Eb & El & Er) Hok]. pose proof (zlen_nonneg r).
  rewrite Eb in Hok. apply Forall_app in Hok as [Hx _].
  destruct (copyFrom_holds b d x Hb Hx) as (b' & E & Hh); [lia|]. exists b'. split; [|done].
  unfold assign, copyFrom in *. rewrite El. destruct (C <? zlen x); [done|]. unfold mem_copy in *.
  rewrite Eb, mem_read_head by done. by rewrite mem_read_all in E.
Qed.

Lemma append_holds b d x y : holds b d → bytes_ok x → zlen d + zlen x <= C →
  ∃ b', append C (x ++ y) (zlen x) b = Ok (Ret tt, b') ∧ holds b' (d ++ x).
Proof.
  intros [Hr Hok] Hx Hl. destruct (repr_bounds C _ _ Hr) as (El & Hd & _).
  destruct (grow C b d x Hr Hl) as (m & E & Hm). pose proof (zlen_nonneg x).
  assert (C = 5776) as HC5 by done. unfold append. rewrite El, u32_small by (unfold uint; lia).
  rewrite (proj2 (Z.ltb_ge _ _)) by lia. unfold mem_copy. rewrite mem_read_head by done. cbn [mbind cres_bind].
  rewrite <- El. rewrite E. cbn [mbind cres_bind]. rewrite El. eexists. split; [done|]. split; [done|].
  exact (mem_write_bytes_ok _ _ _ _ Hok Hx E).
Qed.

(** ** A fragment on the wire *)

Section fragment.
Context (b : Buffer.t) (p c : bytes) (t h : Z).
Context (Hp : zlen p = 13).

Lemma frag_len : zlen (p ++ [255; t; h] ++ c) = 16 + zlen c.
Proof. rewrite !zlen_app, Hp. change (zlen [255; t; h]) with 3. lia. Qed.

Context (Hh : holds b (p ++ [255; t; h] ++ c)).

Lemma frag_packetId : Fragment.packetId b = Ok (Ret (be_val (take 8 p)), b).
Proof.
  rewrite <- (take_drop 8 p), <- app_assoc in Hh.
  apply (at_holds b [] (take 8 p) _ _ _ Hh); [done|]. symmetry. apply (zlen_take 8). lia.
Qed.

Lemma frag_destination : bytes_ok p → Fragment.destination b = Ok (Ret (be_val (drop 8 p)), b).
Proof.
  intros Hok. rewrite <- (take_drop 8 p), <- app_assoc in Hh. unfold Fragment.destination.
  assert (zlen (drop 8 p) = 5) as H5 by (rewrite (zlen_drop 8); lia).
  rewrite (meth_bind_ret _ _ b (drop 8 p) b).
  - unfold lift_meth. rewrite address_setTo_val by (done || by apply Forall_drop). done.
  - apply (field_read_holds b _ _ _ _ _ Hh); [|done]. symmetry. apply (zlen_take 8). lia.
Qed.

Lemma frag_byte : index ZT_PACKET_FRAGMENT_IDX_FRAGMENT_NO b = Ok (Ret t, b).
Proof.
  rewrite (app_assoc p [255]) in Hh || (change ([255; t; h] ++ c) with ([255] ++ t :: h :: c) in Hh; rewrite app_assoc in Hh).
  apply (index_holds b _ _ _ _ Hh). rewrite zlen_app, Hp. done.
Qed.

Lemma frag_payload : Fragment.payload b = Ok (Ret 16, b) ∧ Fragment.payloadLength b = Ok (Ret (zlen c), b)
  ∧ ∃ r, drop 16 (_b b) = c ++ r.
Proof.
  pose proof frag_len as Hl. pose proof (zlen_nonneg c) as Hc. destruct (proj1 Hh) as (r & Eb & El & Er). change C with 5776 in Er.
  pose proof (zlen_nonneg r).
  unfold Fragment.payload, Fragment.payloadLength. rewrite !(meth_bind_ret _ _ _ _ _ (size_holds _ _ Hh)), Hl.
  unfold ZT_PACKET_FRAGMENT_IDX_PAYLOAD. split; [|split].
  - replace (16 + zlen c - 16) with (zlen c) by lia. rewrite u32_small by (unfold uint; lia).
    apply (field_holds _ _ _ _ Hh); rewrite ?Hl; lia.
  - destruct (Z.ltb_spec 16 (16 + zlen c)); [by replace (16 + zlen c - 16) with (zlen c) by lia|by replace (zlen c) with 0 by lia].
  - exists r. rewrite Eb, <- !app_assoc, (app_assoc p). apply drop_app_length'. rewrite length_app. unfold zlen in Hp. cbn. lia.
Qed.

End fragment.

(** The identifier by shifts. *)
Lemma packetId_of_val d : bytes_ok d → zlen d = 8 → packetId_of d = Ok (be_val d).
Proof.
  intros Hd Hl. unfold zlen in Hl. do 9 (destruct d as [|? d]; cbn [length] in Hl; try lia).
  unfold bytes_ok in Hd. rewrite !list.Forall_cons in Hd. unfold byte_ok in Hd. destruct_and! Hd.
  cbn [packetId_of]. f_equal. rewrite <- !Z.lor_assoc. rewrite (lor_shiftl_add _ _ 8), (lor_shiftl_add _ _ 16), (lor_shiftl_add _ _ 24),
    (lor_shiftl_add _ _ 32), (lor_shiftl_add _ _ 40), (lor_shiftl_add _ _ 48), (lor_shiftl_add _ _ 56) by lia.
  unfold be_val. cbn [rev app le_val]. lia.
Qed.

(** ** Well-formed queues *)

Definition buffer_ok (b : Buffer.t) : Prop := ∃ d, holds b d.

Record entry_ok {Path} (e : RXQueueEntry Path) : Prop := {
  ok_frag0 : buffer_ok (ip_packet (frag0 e));
  ok_frags : length (frags e) = 3%nat ∧ Forall buffer_ok (frags e);
  ok_total : 0 <= totalFragments e <= ZT_MAX_PACKET_FRAGMENTS;
}.

Definition queue_ok {Path} (q : list (RXQueueEntry Path)) : Prop := length q = ZT_RX_QUEUE_SIZE ∧ Forall entry_ok q.

Lemma freed_ok {Path} (q q' : list (RXQueueEntry Path)) : freed q q' → queue_ok q → queue_ok q'.
Proof.
  intros H [Hl Hq]. split; [by rewrite (freed_length _ _ H)|]. clear Hl. induction H as [|e e' q q' He H IH]; [constructor|].
  apply list.Forall_cons in Hq as [H1 H2]. constructor; [|by apply IH]. destruct He as [->| ->]; [done|]. by destruct H1.
Qed.

Lemma queue_ok_insert {Path} (q : list (RXQueueEntry Path)) k e : queue_ok q → entry_ok e → queue_ok (<[k := e]> q).
Proof. intros [Hl Hq] He. split; [by rewrite length_insert|]. by apply Forall_insert. Qed.

Lemma queue_ok_lookup {Path} (q : list (RXQueueEntry Path)) k e : queue_ok q → q !! k = Some e → entry_ok e ∧ (k < ZT_RX_QUEUE_SIZE)%nat.
Proof.
  intros [Hl Hq] Hk. split; [by eapply Forall_lookup_1|]. rewrite <- Hl. by apply lookup_lt_Some in Hk.
Qed.

(** No entry is live for the packet, or only the one at [k]. *)
Definition idle {Path} (id : Z) (q : list (RXQueueEntry Path)) : Prop := ∀ j e, q !! j = Some e → ¬ live id e.
Definition only {Path} (id : Z) (k : nat) (q : list (RXQueueEntry Path)) : Prop := ∀ j e, q !! j = Some e → live id e → j = k.

#[local] Opaque find_loop.

Section search.
Context {W Path : Type}.
Implicit Types (s : state W Path).

Lemma find_loop_queue s now id k q' : length (rxQueue s) = ZT_RX_QUEUE_SIZE →
  find_loop now id ZT_RX_QUEUE_SIZE (ZT_RX_QUEUE_SIZE - 1) (rxQueue s) = (k, q') →
  freed (rxQueue s) q' ∧ (k < length (rxQueue s))%nat ∧
  ((∃ e, (k < ZT_RX_QUEUE_SIZE)%nat ∧ rxQueue s !! k = Some e ∧ live id e ∧ q' !! k = Some e)
   ∨ ∀ j e, (j < ZT_RX_QUEUE_SIZE)%nat → rxQueue s !! j = Some e → ¬ live id e).
Proof. intros Hl. apply find_loop_spec; rewrite Hl; unfold ZT_RX_QUEUE_SIZE; lia. Qed.

Lemma find_idle s now id : queue_ok (rxQueue s) → idle id (rxQueue s) →
  ∃ k q' e, findRXQueueEntry now id s = Ok (Ret k, with_queue q' s) ∧ queue_ok q' ∧ idle id q'
    ∧ q' !! k = Some e ∧ (timestamp e =? 0) || negb (rx_packetId e =? id) = true.
Proof.
  intros Hok Hid. destruct (find_loop now id ZT_RX_QUEUE_SIZE (ZT_RX_QUEUE_SIZE - 1) (rxQueue s)) as [k q'] eqn:Ef.
  destruct (find_loop_queue s now id _ _ (proj1 Hok) Ef)
    as (Hfr & Hk & Hr).
  assert (idle id q') as Hid' by (intros j e He Hl; exact (Hid j e (freed_live _ _ _ _ _ Hfr He Hl) Hl)).
  pose proof (freed_ok _ _ Hfr Hok) as Hok'.
  destruct (lookup_lt_is_Some_2 q' k ltac:(by rewrite (freed_length _ _ Hfr))) as [e He].
  exists k, q', e. split; [unfold findRXQueueEntry; by rewrite Ef|]. split_and!; try done.
  pose proof (Hid' _ _ He) as Hn. unfold live in Hn. destruct (Z.eqb_spec (timestamp e) 0); [done|].
  destruct (Z.eqb_spec (rx_packetId e) id); [naive_solver|done].
Qed.

Lemma find_only s now id k e : queue_ok (rxQueue s) → rxQueue s !! k = Some e → live id e → only id k (rxQueue s) →
  ∃ q', findRXQueueEntry now id s = Ok (Ret k, with_queue q' s) ∧ queue_ok q' ∧ only id k q'
    ∧ q' !! k = Some e ∧ (timestamp e =? 0) || negb (rx_packetId e =? id) = false.
Proof.
  intros Hok Hk Hl Ho. destruct (find_loop now id ZT_RX_QUEUE_SIZE (ZT_RX_QUEUE_SIZE - 1) (rxQueue s)) as [k' q'] eqn:Ef.
  destruct (find_loop_queue s now id _ _ (proj1 Hok) Ef)
    as (Hfr & _ & [(e' & _ & He' & Hl' & Hq')|Hno]).
  2:{ exfalso. refine (Hno k e _ Hk Hl). by apply (queue_ok_lookup _ _ _ Hok) in Hk as [_ ?]. }
  assert (k' = k) as -> by (exact (Ho _ _ He' Hl')). rewrite Hk in He'. injection He' as <-.
  exists q'. split; [unfold findRXQueueEntry; by rewrite Ef|]. split; [by eapply freed_ok|]. split; [|split; [done|]].
  - intros j e1 He1 Hl1. exact (Ho j e1 (freed_live _ _ _ _ _ Hfr He1 Hl1) Hl1).
  - destruct Hl as [-> Ht]. by rewrite Z.eqb_refl, (proj2 (Z.eqb_neq _ _)).
Qed.

(** ** Steps on an entry *)

Lemma rxQueue_with q s : rxQueue (with_queue q s) = q.
Proof. done. Qed.

Lemma with_queue_twice q q' s : with_queue q (with_queue q' s) = with_queue q s.
Proof. done. Qed.

Lemma set_entry_ret s k e : set_entry k e s = Ok (Ret tt, with_queue (<[k := e]> (rxQueue s)) s).
Proof. done. Qed.

Lemma assign_frag_ret s k m e b x : rxQueue s !! k = Some e → entry_ok e → (m < 3)%nat → holds b x →
  ∃ b', assign_frag k m b s = Ok (Ret tt, with_queue (<[k := RX (timestamp e) (rx_packetId e) (frag0 e) (<[m := b']> (frags e))
      (totalFragments e) (haveFragments e) (complete e)]> (rxQueue s)) s) ∧ holds b' x.
Proof.
  intros Hk [_ [Hl Hf] _] Hm Hb. unfold assign_frag. rewrite (sw_bind_ret _ _ _ _ _ (get_entry_ret _ _ _ Hk)).
  destruct (lookup_lt_is_Some_2 (frags e) m ltac:(lia)) as [old Ho]. rewrite Ho.
  destruct (Forall_lookup_1 _ _ _ _ Hf Ho) as [d0 Hd0]. destruct (assign_holds old d0 b x Hd0 Hb) as (b' & E & Hb').
  exists b'. split; [|done]. by rewrite (sw_bind_ret _ _ _ _ _ (on_ret _ _ _ _ _ E)).
Qed.

Lemma init_head_ret s k e x path now : rxQueue s !! k = Some e → entry_ok e → bytes_ok x → zlen x <= C →
  ∃ b', init_head k x path now s = Ok (Ret tt, with_queue (<[k := with_frag0 (Incoming b' now (Some path)) e]> (rxQueue s)) s) ∧ holds b' x.
Proof.
  intros Hk [[d0 Hd0] _ _] Hx Hl. unfold init_head. rewrite (sw_bind_ret _ _ _ _ _ (get_entry_ret _ _ _ Hk)).
  destruct (copyFrom_holds _ _ x Hd0 Hx Hl) as (b' & E & Hb'). exists b'. split; [|done].
  by rewrite (sw_bind_ret _ _ _ _ _ (on_ret _ _ _ _ _ E)).
Qed.

Lemma lookup_set k e (q : list (RXQueueEntry Path)) : (k < length q)%nat → <[k := e]> q !! k = Some e.
Proof. apply list_lookup_insert_eq. Qed.

Lemma get_queue s k e (q : list (RXQueueEntry Path)) : q !! k = Some e →
  get_entry k (with_queue q s) = Ok (Ret e, with_queue q s).
Proof. intros Hk. by apply get_entry_ret. Qed.

Lemma get_set s k e (q : list (RXQueueEntry Path)) : (k < length q)%nat →
  get_entry k (with_queue (<[k := e]> q) s) = Ok (Ret e, with_queue (<[k := e]> q) s).
Proof. intros Hk. apply get_entry_ret. by apply lookup_set. Qed.

Lemma only_insert id k e (q : list (RXQueueEntry Path)) : only id k q → only id k (<[k := e]> q).
Proof.
  intros Ho j e' Hj Hl. destruct (decide (j = k)) as [|Hne]; [done|].
  rewrite list_lookup_insert_ne in Hj by done. by apply (Ho j e').
Qed.

Lemma idle_only id k (q : list (RXQueueEntry Path)) : idle id q → only id k q.
Proof. intros Hi j e Hj Hl. by destruct (Hi j e Hj). Qed.
End search.

(** ** The datagrams of a packet *)

(** The number of datagrams for a packet of [n] bytes that does not fit into one. *)
Definition pieces (n : Z) : Z := 1 + (n - 1444 + 1427) / 1428.

(** What fragment [i] carries, [i] from 1 on. *)
Definition chunk (d : bytes) (i : nat) : bytes := take 1428 (drop (1444 + 1428 * (i - 1)) d).

(** A fragment as it arrives, after relays have set its hop count to [h]. *)
Definition wire (d : bytes) (i : nat) (h : Z) : bytes :=
  take 13 d ++ [255; 16 * pieces (zlen d) + Z.of_nat i; h] ++ chunk d i.

Inductive datagram (d : bytes) : nat → bytes → Prop :=
| datagram_head : datagram d 0 (take 1444 d)
| datagram_frag i h : (1 <= i)%nat → Z.of_nat i < pieces (zlen d) → byte_ok h → datagram d i (wire d i h).

Lemma chunks_of d a i : (1 <= i)%nat → a = (1444 + 1428 * (i - 1))%nat → take a d ++ chunk d i = take (a + 1428) d.
Proof. intros Hi ->. unfold chunk. apply take_take_drop. Qed.

(** A datagram of [d] that arrives, with its index. *)
Record event := Event { ev_local : bytes; ev_from : bytes; ev_now : Z; ev_data : bytes }.

Definition carries (d : bytes) (ie : nat * event) : Prop := datagram d ie.1 (ev_data ie.2) ∧ ev_now ie.2 ≠ 0.

(** The decoder got [d], and the entry is free again or kept complete as the decoder left it. *)
Definition decoded {W Peer Path : Type} (E : Env W Peer Path) (d : bytes) (id : Z) (p : incoming Path) (w : W) (s' : state W Path) : Prop :=
  holds (ip_packet p) d ∧ world s' = (tryDecode W Peer Path E p w).2
  ∧ ∃ k e, rxQueue s' !! k = Some e ∧ frag0 e = (tryDecode W Peer Path E p w).1.2
      ∧ if (tryDecode W Peer Path E p w).1.1 then timestamp e = 0 else complete e = true ∧ live id e.

(** A packet for the node, too long for one datagram, by its parts. *)
Record packet_for (self : Z) (iv dst src4 rest : bytes) (s0 f : Z) : Prop := {
  pf_iv : zlen iv = 8;
  pf_dst : zlen dst = 5;
  pf_src : zlen src4 = 4;
  pf_ok : bytes_ok (iv ++ dst ++ (s0 :: src4) ++ f :: rest);
  pf_len : 1444 < zlen (iv ++ dst ++ (s0 :: src4) ++ f :: rest) <= C;
  pf_self : be_val dst = self;
  pf_other : be_val (s0 :: src4) ≠ self;
  pf_prefix : s0 ≠ 255;
  pf_frag : Z.land f ZT_PROTO_FLAG_FRAGMENTED ≠ 0;
}.

(** The population count of a mask of [m] bits tells whether they are all set. *)
Lemma count_bits m S : m = 2 ∨ m = 3 ∨ m = 4 → 0 <= S < 2 ^ m → (countBits S =? m) = (S =? 2 ^ m - 1).
Proof.
  intros Hm HS. assert (byte_ok S) as Hb by (unfold byte_ok; destruct Hm as [->|[->| ->]]; lia).
  apply eqb_prop. assert (implb (S <? 2 ^ m) (Bool.eqb (countBits S =? m) (S =? 2 ^ m - 1)) = true) as H.
  { clear HS. destruct Hm as [->|[->| ->]]; revert S Hb; apply byte_forall; vm_compute; reflexivity. }
  by rewrite (proj2 (Z.ltb_lt _ _)) in H by lia.
Qed.

Section arrival.
Context {L P : Type} (Cipher : Salsa) (Auth : Poly L P).
Context {W Peer Path : Type} (E : Env W Peer Path).
Context (Hmem : ∀ w, bytes_ok (memory_of W Peer Path E w) ∧ zlen (memory_of W Peer Path E w) = C).
Context (iv dst src4 rest : bytes) (s0 f : Z).
Local Abbreviation d := (iv ++ dst ++ (s0 :: src4) ++ f :: rest).
Context (Hd : packet_for (self W Peer Path E) iv dst src4 rest s0 f).

(** The path of a datagram, and what its arrival does to the environment. *)
Definition path_of (localAddr fromAddr : bytes) (w : W) : Path := (getPath W Peer Path E localAddr fromAddr w).1.
Definition arrive (localAddr fromAddr : bytes) (now : Z) (w : W) : W :=
  path_received W Peer Path E (path_of localAddr fromAddr w) now (getPath W Peer Path E localAddr fromAddr w).2.
Definition with_world (w : W) (s : state W Path) : state W Path :=
  Switch (lastBeaconResponse s) (rxQueue s) (lastUniteAttempt s) w.

Lemma handle_arrive localAddr fromAddr now data s :
  handle_datagram Cipher Auth E localAddr fromAddr now data s =
  (let path := path_of localAddr fromAddr (world s) in
   let s' := with_world (arrive localAddr fromAddr now (world s)) s in
   if zlen data =? 13 then handle_beacon Cipher Auth E localAddr fromAddr path now data s'
   else if ZT_PROTO_MIN_FRAGMENT_LENGTH <? zlen data then
     (x ← sw_lift (mem_read ZT_PACKET_FRAGMENT_IDX_FRAGMENT_INDICATOR 1 data);
      if be_val x =? ZT_PACKET_FRAGMENT_INDICATOR then handle_fragment E path now data
      else if ZT_PROTO_MIN_PACKET_LENGTH <=? zlen data then handle_packet E path now data
      else mret tt) s'
   else Ok (Ret tt, s')).
Proof.
  unfold handle_datagram, path_of, arrive, path_of. destruct (getPath W Peer Path E localAddr fromAddr (world s)) as [path w] eqn:Ep.
  rewrite (sw_bind_ret _ _ s path (with_world w s)) by (unfold call; by rewrite Ep).
  rewrite (sw_bind_ret _ _ _ tt (with_world (path_received W Peer Path E path now w) s)) by done.
  cbn [fst snd]. destruct (zlen data =? 13); [done|]. by destruct (_ <? zlen data).
Qed.

Lemma d_prefix : take 13 d = iv ++ dst.
Proof.
  destruct Hd as [Hi Hs _ _ _ _ _ _ _]. rewrite app_assoc. apply take_app_length'. rewrite length_app. unfold zlen in *. lia.
Qed.

Lemma chunk_len i : (1 <= i)%nat → Z.of_nat i < pieces (zlen d) → 0 < zlen (chunk d i) <= 1428.
Proof.
  intros Hi Hn. pose proof (pf_len _ _ _ _ _ _ _ Hd) as Hl. unfold pieces in Hn. unfold zlen, chunk in *.
  rewrite length_take, length_drop. set (len := length d) in *. clearbody len. clear -Hi Hn Hl.
  Z.to_euclidean_division_equations; lia.
Qed.

Lemma head_split : take 1444 d = iv ++ dst ++ (s0 :: src4) ++ f :: take 1425 rest.
Proof.
  destruct Hd as [Hi Hs Ha _ _ _ _ _ _]. unfold zlen in *.
  rewrite (app_assoc iv), (app_assoc (iv ++ dst)). rewrite take_app_ge by (rewrite !length_app; cbn [length]; lia).
  replace (1444 - length ((iv ++ dst) ++ s0 :: src4))%nat with (S 1425) by (rewrite !length_app; cbn [length]; lia).
  by rewrite <- !app_assoc.
Qed.

(** A new buffer for a datagram. *)
Lemma new_buffer_ret x s : bytes_ok x → zlen x <= C → ∃ b, new_buffer E x s = Ok (Ret b, s) ∧ holds b x.
Proof.
  intros Hx Hl. destruct (Hmem (world s)) as [Hok Hlen]. unfold new_buffer.
  rewrite (sw_bind_ret _ _ s (memory_of W Peer Path E (world s)) s) by done.
  destruct (copyFrom_holds (Buf 0 (memory_of W Peer Path E (world s))) [] x) as (b & Eb & Hb); [|done|done|].
  { split; [|done]. exists (memory_of W Peer Path E (world s)). split_and!; [done|done|by rewrite Hlen]. }
  exists b. split; [|done]. by rewrite (sw_bind_ret _ _ _ _ _ (on_ret _ _ _ _ _ Eb)).
Qed.

Lemma fragment_arrives localAddr fromAddr now i h s :
  (1 <= i)%nat → Z.of_nat i < pieces (zlen d) → byte_ok h → pieces (zlen d) < 16 →
  ∃ b, holds b (wire d i h) ∧
    handle_datagram Cipher Auth E localAddr fromAddr now (wire d i h) s =
    collect_fragment E now b (with_world (arrive localAddr fromAddr now (world s)) s).
Proof.
  intros Hi Hn Hh H16. pose proof (chunk_len i Hi Hn) as Hc. destruct (id Hd) as [Hiv Hdst Hsrc Hok Hlen Hself Hoth Hpre Hfl].
  assert (0 <= pieces (zlen d)) as Hp0 by lia.
  assert (zlen (wire d i h) = 16 + zlen (chunk d i)) as Hwl.
  { unfold wire. rewrite d_prefix. apply frag_len. rewrite zlen_app. lia. }
  assert (bytes_ok (iv ++ dst)) as Hpok by (unfold bytes_ok in *; rewrite !Forall_app in *; naive_solver).
  assert (bytes_ok (wire d i h)) as Hwok.
  { unfold wire. rewrite d_prefix. apply Forall_app_2; [done|]. constructor; [done|].
    constructor; [unfold byte_ok; lia|]. constructor; [done|]. by apply Forall_take, Forall_drop. }
  set (s' := with_world _ s). destruct (new_buffer_ret (wire d i h) s' Hwok) as (b & Eb & Hb); [change C with 5776; lia|].
  exists b. split; [done|]. rewrite handle_arrive. cbv zeta. rewrite (proj2 (Z.eqb_neq _ _)) by lia.
  unfold ZT_PROTO_MIN_FRAGMENT_LENGTH, ZT_PACKET_FRAGMENT_IDX_PAYLOAD. rewrite (proj2 (Z.ltb_lt _ _)) by lia. fold s'.
  rewrite (sw_bind_ret _ _ s' [255] s').
  2:{ unfold sw_lift, wire. rewrite d_prefix. change ([255; ?a; ?b] ++ ?c) with ([255] ++ a :: b :: c).
      rewrite (mem_read_seg (iv ++ dst) [255]) by (rewrite ?zlen_app; unfold ZT_PACKET_FRAGMENT_IDX_FRAGMENT_INDICATOR; done || lia). done. }
  rewrite be_val_single. change (255 =? ZT_PACKET_FRAGMENT_INDICATOR) with true. cbv iota.
  unfold handle_fragment. rewrite (sw_bind_ret _ _ _ _ _ Eb).
  unfold wire in Hb. rewrite d_prefix in Hb.
  assert (zlen (iv ++ dst) = 13) as H13 by (rewrite zlen_app; lia).
  pose proof (frag_destination b _ _ _ _ H13 Hb Hpok) as Ed. rewrite drop_app_length' in Ed by (unfold zlen in Hiv; lia).
  rewrite (sw_bind_ret _ _ _ _ _ (on_ret _ _ _ _ _ Ed)), Hself, Z.eqb_refl. done.
Qed.

Lemma head_arrives localAddr fromAddr now s :
  handle_datagram Cipher Auth E localAddr fromAddr now (take 1444 d) s =
  collect_head E (path_of localAddr fromAddr (world s)) now (take 1444 d) (with_world (arrive localAddr fromAddr now (world s)) s).
Proof.
  destruct (id Hd) as [Hiv Hdst Hsrc Hok Hlen Hself Hoth Hpre Hfl].
  assert (zlen (take 1444 d) = 1444) as Hl by (apply (zlen_take 1444); lia).
  rewrite handle_arrive. cbv zeta. set (s' := with_world _ s). rewrite Hl. cbn [Z.eqb Z.ltb Z.compare Pos.eqb Pos.compare Pos.compare_cont].
  change (1444 =? 13) with false. change (ZT_PROTO_MIN_FRAGMENT_LENGTH <? 1444) with true. change (ZT_PROTO_MIN_PACKET_LENGTH <=? 1444) with true. cbv iota.
  rewrite head_split in *.
  rewrite (sw_bind_ret _ _ s' [s0] s').
  2:{ unfold sw_lift. change ((s0 :: src4) ++ ?z) with ([s0] ++ src4 ++ z). rewrite (app_assoc iv dst).
      rewrite (mem_read_seg (iv ++ dst) [s0]) by (rewrite ?zlen_app; unfold ZT_PACKET_FRAGMENT_IDX_FRAGMENT_INDICATOR; done || lia). done. }
  rewrite be_val_single. unfold ZT_PACKET_FRAGMENT_INDICATOR, Address.ZT_ADDRESS_RESERVED_PREFIX. rewrite (proj2 (Z.eqb_neq _ _)) by done.
  assert (bytes_ok dst ∧ bytes_ok (s0 :: src4)) as [Hdok Hsok].
  { unfold bytes_ok in *. rewrite !Forall_app in Hok. naive_solver. }
  unfold handle_packet.
  rewrite (sw_bind_ret _ _ s' (be_val dst) s').
  2:{ unfold sw_lift. rewrite (mem_read_seg iv dst) by lia. cbn [mbind cres_bind]. by rewrite address_setTo_val. }
  rewrite (sw_bind_ret _ _ s' (be_val (s0 :: src4)) s').
  2:{ unfold sw_lift. rewrite (app_assoc iv), (mem_read_seg (iv ++ dst) (s0 :: src4)) by (rewrite ?zlen_app, ?zlen_cons; lia).
      cbn [mbind cres_bind]. by rewrite address_setTo_val by (done || (rewrite zlen_cons; lia)). }
  rewrite (proj2 (Z.eqb_neq _ _)) by done. rewrite Hself, Z.eqb_refl. cbn [negb].
  rewrite (sw_bind_ret _ _ s' [f] s').
  2:{ unfold sw_lift. change (f :: ?z) with ([f] ++ z). rewrite (app_assoc iv), (app_assoc (iv ++ dst)).
      rewrite (mem_read_seg ((iv ++ dst) ++ s0 :: src4) [f]) by (rewrite ?zlen_app, ?zlen_cons; unfold ZT_PACKET_IDX_FLAGS; done || lia). done. }
  rewrite be_val_single, (proj2 (Z.eqb_neq _ _)) by done. done.
Qed.

Local Abbreviation id_ := (be_val iv).
Local Abbreviation n := (pieces (zlen d)).
Context (Hn4 : n <= ZT_MAX_PACKET_FRAGMENTS).

Lemma n_range : 2 <= n <= 4.
Proof.
  split; [|exact Hn4]. pose proof (pf_len _ _ _ _ _ _ _ Hd) as Hl. unfold pieces. set (len := zlen d) in *. clearbody len. clear -Hl.
  Z.to_euclidean_division_equations; lia.
Qed.

Lemma sane_fragment now i h b s : (1 <= i)%nat → Z.of_nat i < n → holds b (wire d i h) →
  collect_fragment E now b s = store_fragment E now id_ (Z.of_nat i) n b s.
Proof.
  intros Hi Hin Hb. pose proof n_range as Hn. destruct (id Hd) as [Hiv Hdst _ _ _ _ _ _ _].
  assert (zlen (iv ++ dst) = 13) as H13 by (rewrite zlen_app; lia).
  unfold wire in Hb. rewrite d_prefix in Hb. unfold collect_fragment.
  pose proof (frag_packetId b _ _ _ _ H13 Hb) as Ei. rewrite take_app_length' in Ei by (unfold zlen in Hiv; lia).
  pose proof (frag_byte b _ _ _ _ H13 Hb) as Et.
  assert (Fragment.fragmentNumber b = Ok (Ret (Z.of_nat i), b)) as En.
  { unfold Fragment.fragmentNumber. rewrite (meth_bind_ret _ _ _ _ _ Et). unfold mret, meth_ret, done_. do 3 f_equal.
    rewrite (land_mask _ 4 0xf) by done. rewrite Z.add_comm, Z.mul_comm, Z.mod_add by done. apply Z.mod_small. lia. }
  assert (Fragment.totalFragments b = Ok (Ret n, b)) as Eo.
  { unfold Fragment.totalFragments. rewrite (meth_bind_ret _ _ _ _ _ Et). unfold mret, meth_ret, done_. do 3 f_equal.
    rewrite shiftr_div, (land_mask _ 4 0xf) by done. change (2 ^ 4) with 16.
    rewrite Z.add_comm, Z.mul_comm, Z.div_add, (Z.div_small (Z.of_nat i)) by lia. apply Z.mod_small. lia. }
  rewrite (sw_bind_ret _ _ _ _ _ (on_ret _ _ _ _ _ Ei)), (sw_bind_ret _ _ _ _ _ (on_ret _ _ _ _ _ En)),
    (sw_bind_ret _ _ _ _ _ (on_ret _ _ _ _ _ Eo)).
  unfold ZT_MAX_PACKET_FRAGMENTS.
  rewrite (proj2 (Z.leb_le _ _)), (proj2 (Z.ltb_lt (Z.of_nat i) 4)), (proj2 (Z.ltb_lt 0 (Z.of_nat i))), (proj2 (Z.ltb_lt 1 n)) by lia. done.
Qed.

Lemma head_id path now s : collect_head E path now (take 1444 d) s = store_head E path now id_ (take 1444 d) s.
Proof.
  destruct (id Hd) as [Hiv _ _ Hok _ _ _ _ _]. unfold collect_head. rewrite head_split.
  rewrite (sw_bind_ret _ _ s iv s) by (unfold sw_lift; by rewrite mem_read_head by lia).
  rewrite (sw_bind_ret _ _ s id_ s); [done|]. unfold sw_lift. rewrite packetId_of_val; [done| |done].
  by apply Forall_app in Hok as [? _].
Qed.

(** ** An entry that collects the packet *)

(** The entry has the datagrams whose bits are set in [S]. *)
Record collects (S : Z) (e : RXQueueEntry Path) : Prop := {
  co_live : live id_ e;
  co_have : haveFragments e = S;
  co_total : totalFragments e = if S =? 1 then 0 else n;
  co_head : Z.testbit S 0 = true → ∃ b t p, frag0 e = Incoming b t (Some p) ∧ holds b (take 1444 d);
  co_frags i : (1 <= i)%nat → Z.of_nat i < n → Z.testbit S (Z.of_nat i) = true →
    ∃ b h, frags e !! (i - 1)%nat = Some b ∧ holds b (wire d i h);
}.

Definition gathering (S : Z) (q : list (RXQueueEntry Path)) : Prop :=
  queue_ok q ∧ ∃ k e, q !! k = Some e ∧ only id_ k q ∧ collects S e.

Definition all_bits : Z := 2 ^ n - 1.

Lemma bit_lor S i j : 0 <= i → 0 <= j → Z.testbit (Z.lor S (2 ^ i)) j = Z.testbit S j || (i =? j).
Proof. intros Hi Hj. by rewrite Z.lor_spec, Z.pow2_bits_eqb by done. Qed.

Lemma bit_land S i : 0 <= i → (Z.land S (2 ^ i) =? 0) = negb (Z.testbit S i).
Proof. intros Hi. rewrite <- (land_pow2_testbit S i Hi). by rewrite negb_involutive. Qed.

Lemma count_all S : 0 <= S < 2 ^ n → (countBits S =? n) = (S =? all_bits).
Proof. apply count_bits. pose proof n_range. lia. Qed.

Lemma frag_first now i h b s :
  (1 <= i)%nat → Z.of_nat i < n → holds b (wire d i h) → now ≠ 0 → queue_ok (rxQueue s) → idle id_ (rxQueue s) →
  ∃ q', store_fragment E now id_ (Z.of_nat i) n b s = Ok (Ret tt, with_queue q' s) ∧ gathering (2 ^ Z.of_nat i) q'.
Proof.
  intros Hi Hin Hb Hnow Hq Hid. pose proof n_range as Hn. destruct (find_idle s now id_ Hq Hid) as (k & q1 & e & Ef & Hq1 & Hid1 & Hk & Hc).
  destruct (queue_ok_lookup _ _ _ Hq1 Hk) as [He Hkl]. rewrite <- (proj1 Hq1) in Hkl.
  unfold store_fragment. rewrite (sw_bind_ret _ _ _ _ _ Ef), (sw_bind_ret _ _ _ _ _ (get_queue s _ _ _ Hk)). cbv zeta. rewrite Hc.
  rewrite (sw_bind_ret _ _ _ _ _ (set_entry_ret _ _ _)), rxQueue_with, with_queue_twice. set (e1 := RX now _ _ _ _ _ _).
  assert (entry_ok e1) as He1 by (by destruct He).
  destruct (assign_frag_ret (with_queue (<[k := e1]> q1) s) k (Z.to_nat (Z.of_nat i - 1)) e1 b (wire d i h)) as (b' & Ea & Hb');
    [by apply lookup_set|done|lia|done|].
  rewrite (sw_bind_ret _ _ _ _ _ Ea), rxQueue_with, with_queue_twice, list_insert_insert_eq.
  rewrite (sw_bind_ret _ _ _ _ _ (get_set _ _ _ _ Hkl)), set_entry_ret, rxQueue_with, with_queue_twice, list_insert_insert_eq.
  replace (Z.to_nat (Z.of_nat i - 1)) with (i - 1)%nat by lia. cbn [timestamp rx_packetId frag0 frags e1].
  rewrite Z.shiftl_1_l. eexists. split; [done|]. set (e3 := RX now _ _ _ _ _ _). destruct He as [H0 [Hfl Hfo] _].
  split; [|exists k, e3; split_and!].
  - apply queue_ok_insert; [done|]. split; [done| |change (0 <= n <= 4); lia]. cbn [frags e3]. rewrite length_insert. split; [done|].
    apply Forall_insert; [done|]. by exists (wire d i h).
  - by apply lookup_set.
  - apply only_insert. by apply idle_only.
  - split; cbn [rx_packetId timestamp haveFragments totalFragments frag0 frags e3].
    + done.
    + done.
    + rewrite (proj2 (Z.eqb_neq _ _)); [done|]. assert (2 ^ 1 <= 2 ^ Z.of_nat i) by (apply Z.pow_le_mono_r; lia). lia.
    + rewrite Z.pow2_bits_false by lia. done.
    + intros j Hj Hjn. rewrite Z.pow2_bits_eqb by lia. intros ->%Z.eqb_eq%Nat2Z.inj. exists b', h.
      split; [|done]. apply list_lookup_insert_eq. lia.
Qed.

Lemma head_first path now s :
  now ≠ 0 → queue_ok (rxQueue s) → idle id_ (rxQueue s) →
  ∃ q', store_head E path now id_ (take 1444 d) s = Ok (Ret tt, with_queue q' s) ∧ gathering 1 q'.
Proof.
  intros Hnow Hq Hid. destruct (find_idle s now id_ Hq Hid) as (k & q1 & e & Ef & Hq1 & Hid1 & Hk & Hc).
  destruct (queue_ok_lookup _ _ _ Hq1 Hk) as [He Hkl]. rewrite <- (proj1 Hq1) in Hkl.
  unfold store_head. rewrite (sw_bind_ret _ _ _ _ _ Ef), (sw_bind_ret _ _ _ _ _ (get_queue s _ _ _ Hk)), Hc.
  rewrite (sw_bind_ret _ _ _ _ _ (set_entry_ret _ _ _)), rxQueue_with, with_queue_twice. set (e1 := RX now _ _ _ _ _ _).
  assert (entry_ok e1) as He1 by (by destruct He).
  destruct (init_head_ret (with_queue (<[k := e1]> q1) s) k e1 (take 1444 d) path now) as (b' & Ea & Hb');
    [by apply lookup_set|done|apply Forall_take, Hd|pose proof (pf_len _ _ _ _ _ _ _ Hd); rewrite (zlen_take 1444); lia|].
  rewrite (sw_bind_ret _ _ _ _ _ Ea), rxQueue_with, with_queue_twice, list_insert_insert_eq.
  rewrite (sw_bind_ret _ _ _ _ _ (get_set _ _ _ _ Hkl)), set_entry_ret, rxQueue_with, with_queue_twice, list_insert_insert_eq.
  eexists. split; [done|]. cbn [with_frag0 timestamp rx_packetId frag0 frags e1]. set (e3 := RX now _ _ _ _ _ _). destruct He as [_ Hf _].
  split; [|exists k, e3; split_and!].
  - apply queue_ok_insert; [done|]. split; [by exists (take 1444 d)|done|done].
  - by apply lookup_set.
  - apply only_insert. by apply idle_only.
  - split; cbn [rx_packetId timestamp haveFragments totalFragments frag0 frags e3]; try done.
    + intros _. by exists b', now, path.
    + intros j Hj Hjn. change 1 with (2 ^ 0). rewrite Z.pow2_bits_false by lia. done.
Qed.

(** A datagram that is there already changes nothing. *)
Lemma frag_duplicate now i b s S :
  gathering S (rxQueue s) → Z.testbit S (Z.of_nat i) = true →
  ∃ q', store_fragment E now id_ (Z.of_nat i) n b s = Ok (Ret tt, with_queue q' s) ∧ gathering S q'.
Proof.
  intros (Hq & k & e & Hk & Ho & He) Ht. destruct (find_only s now id_ k e Hq Hk (co_live _ _ He) Ho) as (q' & Ef & Hq' & Ho' & Hk' & Hc).
  unfold store_fragment. rewrite (sw_bind_ret _ _ _ _ _ Ef), (sw_bind_ret _ _ _ _ _ (get_queue s _ _ _ Hk')). cbv zeta.
  rewrite Hc, (co_have _ _ He), Z.shiftl_1_l, bit_land, Ht by lia. exists q'. split; [done|]. split; [done|]. by exists k, e.
Qed.

Lemma head_duplicate path now s S :
  gathering S (rxQueue s) → Z.testbit S 0 = true →
  ∃ q', store_head E path now id_ (take 1444 d) s = Ok (Ret tt, with_queue q' s) ∧ gathering S q'.
Proof.
  intros (Hq & k & e & Hk & Ho & He) Ht. destruct (find_only s now id_ k e Hq Hk (co_live _ _ He) Ho) as (q' & Ef & Hq' & Ho' & Hk' & Hc).
  unfold store_head. rewrite (sw_bind_ret _ _ _ _ _ Ef), (sw_bind_ret _ _ _ _ _ (get_queue s _ _ _ Hk')).
  rewrite Hc, (co_have _ _ He). change 1 with (2 ^ 0) at 1. rewrite bit_land, Ht by lia. exists q'. split; [done|]. split; [done|]. by exists k, e.
Qed.
(** A datagram that is missing is added; with the last one the packet is assembled. *)
Lemma frag_new now i h b s S :
  (1 <= i)%nat → Z.of_nat i < n → holds b (wire d i h) → 0 <= S < 2 ^ n →
  gathering S (rxQueue s) → Z.testbit S (Z.of_nat i) = false →
  let S' := Z.lor S (2 ^ Z.of_nat i) in
  ∃ k q' e, queue_ok q' ∧ q' !! k = Some e ∧ only id_ k q' ∧ collects S' e ∧
    store_fragment E now id_ (Z.of_nat i) n b s = (if S' =? all_bits then assemble E k n else mret tt) (with_queue q' s).
Proof.
  intros Hi Hin Hb HS (Hq & k & e & Hk & Ho & He) Ht S'. pose proof n_range as Hn.
  destruct (find_only s now id_ k e Hq Hk (co_live _ _ He) Ho) as (q1 & Ef & Hq1 & Ho1 & Hk1 & Hc).
  destruct (queue_ok_lookup _ _ _ Hq1 Hk1) as [Heok Hkl]. rewrite <- (proj1 Hq1) in Hkl.
  destruct (assign_frag_ret (with_queue q1 s) k (Z.to_nat (Z.of_nat i - 1)) e b (wire d i h)) as (b' & Ea & Hb'); [done|done|lia|done|].
  set (e1 := RX (timestamp e) _ _ _ _ _ _) in Ea. set (e2 := RX (timestamp e) (rx_packetId e) (frag0 e) (frags e1) n S' (complete e)).
  exists k, (<[k := e2]> q1), e2. destruct Heok as [H0 [Hfl Hfo] _]. split_and!.
  - apply queue_ok_insert; [done|]. split; [done| |change (0 <= n <= 4); lia]. cbn [frags e2 e1]. rewrite length_insert. split; [done|].
    apply Forall_insert; [done|]. by exists (wire d i h).
  - by apply lookup_set.
  - by apply only_insert.
  - assert (S' ≠ 1) as HS1.
    { intros HS1. assert (Z.testbit S' (Z.of_nat i) = true) as Hb1 by (unfold S'; rewrite bit_lor, Z.eqb_refl, orb_true_r by lia; done).
      rewrite HS1 in Hb1. change 1 with (2 ^ 0) in Hb1. rewrite Z.pow2_bits_false in Hb1 by lia. done. }
    split; cbn [rx_packetId timestamp haveFragments totalFragments frag0 frags e2 e1].
    + apply He.
    + done.
    + by rewrite (proj2 (Z.eqb_neq _ _)).
    + unfold S'. rewrite bit_lor, (proj2 (Z.eqb_neq _ _)), orb_false_r by lia. apply He.
    + intros j Hj Hjn. unfold S'. rewrite bit_lor by lia. replace (Z.to_nat (Z.of_nat i - 1)) with (i - 1)%nat by lia.
      destruct (Z.eqb_spec (Z.of_nat i) (Z.of_nat j)) as [Hij|Hij].
      * intros _. apply Nat2Z.inj in Hij as ->. exists b', h. split; [|done]. apply list_lookup_insert_eq. lia.
      * rewrite orb_false_r. intros Htj. rewrite list_lookup_insert_ne by lia. by apply (co_frags _ _ He).
  - unfold store_fragment. rewrite (sw_bind_ret _ _ _ _ _ Ef), (sw_bind_ret _ _ _ _ _ (get_queue s _ _ _ Hk1)). cbv zeta.
    rewrite Hc, (co_have _ _ He), Z.shiftl_1_l, bit_land, Ht by lia. cbn [negb].
    rewrite (sw_bind_ret _ _ _ _ _ Ea), rxQueue_with, with_queue_twice, (sw_bind_ret _ _ _ _ _ (get_set _ _ _ _ Hkl)).
    rewrite (sw_bind_ret _ _ _ _ _ (set_entry_ret _ _ _)), rxQueue_with, with_queue_twice, list_insert_insert_eq.
    cbn [haveFragments timestamp rx_packetId frag0 frags complete e1]. rewrite (co_have _ _ He). fold S'. rewrite count_all; [done|].
    apply (word_ok_lor n); [lia|done|]. split; [apply Z.pow_nonneg; lia|]. apply Z.pow_lt_mono_r; lia.
Qed.

Lemma head_new path now s S :
  0 <= S < 2 ^ n → S ≠ 0 → gathering S (rxQueue s) → Z.testbit S 0 = false →
  let S' := Z.lor S 1 in
  ∃ k q' e, queue_ok q' ∧ q' !! k = Some e ∧ only id_ k q' ∧ collects S' e ∧
    store_head E path now id_ (take 1444 d) s = (if S' =? all_bits then assemble E k n else mret tt) (with_queue q' s).
Proof.
  intros HS HS0 (Hq & k & e & Hk & Ho & He) Ht S'. pose proof n_range as Hn.
  assert (S ≠ 1) as HS1 by (intros ->; done).
  assert (S' ≠ 1) as HS1'.
  { intros H1. apply HS0. apply Z.bits_inj'. intros j Hj. rewrite Z.bits_0. destruct (decide (j = 0)) as [->|]; [done|].
    assert (Z.testbit S' j = false) as Hbj by (rewrite H1; change 1 with (2 ^ 0); apply Z.pow2_bits_false; lia).
    unfold S' in Hbj. rewrite Z.lor_spec in Hbj. by apply orb_false_elim in Hbj as [? _]. }
  assert (totalFragments e = n) as Htot by (rewrite (co_total _ _ He), (proj2 (Z.eqb_neq _ _)); done).
  destruct (find_only s now id_ k e Hq Hk (co_live _ _ He) Ho) as (q1 & Ef & Hq1 & Ho1 & Hk1 & Hc).
  destruct (queue_ok_lookup _ _ _ Hq1 Hk1) as [Heok Hkl]. rewrite <- (proj1 Hq1) in Hkl.
  set (e1 := with_have S' e). assert (entry_ok e1) as He1 by (by destruct Heok).
  destruct (init_head_ret (with_queue (<[k := e1]> q1) s) k e1 (take 1444 d) path now) as (b' & Ea & Hb');
    [by apply lookup_set|done|apply Forall_take, Hd|pose proof (pf_len _ _ _ _ _ _ _ Hd); rewrite (zlen_take 1444); lia|].
  set (e2 := with_frag0 (Incoming b' now (Some path)) e1) in *. exists k, (<[k := e2]> q1), e2. destruct Heok as [_ Hf Hto]. split_and!.
  - apply queue_ok_insert; [done|]. split; [by exists (take 1444 d)|done|done].
  - by apply lookup_set.
  - by apply only_insert.
  - split; cbn [rx_packetId timestamp haveFragments totalFragments frag0 frags e2 e1 with_frag0 with_have].
    + apply He.
    + done.
    + by rewrite (proj2 (Z.eqb_neq _ _)).
    + intros _. by exists b', now, path.
    + intros j Hj Hjn. unfold S'. change (Z.lor S 1) with (Z.lor S (2 ^ 0)). rewrite bit_lor, (proj2 (Z.eqb_neq _ _)), orb_false_r by lia.
      by apply (co_frags _ _ He).
  - unfold store_head. rewrite (sw_bind_ret _ _ _ _ _ Ef), (sw_bind_ret _ _ _ _ _ (get_queue s _ _ _ Hk1)).
    rewrite Hc, (co_have _ _ He). change (Z.land S 1) with (Z.land S (2 ^ 0)). rewrite bit_land, Ht by lia. cbn [negb].
    rewrite Htot, (proj2 (Z.ltb_lt 1 n)) by lia. cbv zeta. fold S' e1.
    rewrite (sw_bind_ret _ _ _ _ _ (set_entry_ret _ _ _)), rxQueue_with, with_queue_twice, (sw_bind_ret _ _ _ _ _ Ea).
    rewrite rxQueue_with, with_queue_twice, list_insert_insert_eq. cbn [andb]. rewrite count_all; [done|].
    apply (word_ok_lor n); [lia|done|]. change 1 with (2 ^ 0). split; [done|]. apply Z.pow_lt_mono_r; lia.
Qed.

(** ** Assembly *)

Lemma append_frags_spec k m a (e : RXQueueEntry Path) b t p q (s : state W Path) :
  (k < length q)%nat → q !! k = Some e → frag0 e = Incoming b t p → holds b (take (1444 + 1428 * a) d) →
  (∀ i, (1 <= i <= a + m)%nat → ∃ b h, frags e !! (i - 1)%nat = Some b ∧ holds b (wire d i h)) →
  ∃ b', append_frags k (seq a m) (with_queue q s) = Ok (Ret tt, with_queue (<[k := with_frag0 (Incoming b' t p) e]> q) s)
        ∧ holds b' (take (1444 + 1428 * (a + m)) d).
Proof.
  revert a e b q. induction m as [|m IH]; intros a e b q Hkl Hk Hf Hb Hfr.
  { exists b. rewrite Nat.add_0_r. split; [|done]. cbn [seq append_frags]. rewrite <- Hf.
    replace (with_frag0 (frag0 e) e) with e by (by destruct e). by rewrite list_insert_id. }
  cbn [seq append_frags]. rewrite (sw_bind_ret _ _ _ _ _ (get_queue s _ _ _ Hk)).
  destruct (Hfr (S a)) as (fr & h & Hl & Hw); [lia|]. replace (S a - 1)%nat with a in Hl by lia. rewrite Hl.
  destruct (id Hd) as [Hiv Hdst _ Hok Hlen _ _ _ _]. unfold wire in Hw. rewrite d_prefix in Hw.
  assert (zlen (iv ++ dst) = 13) as H13 by (rewrite zlen_app; lia).
  destruct (frag_payload fr _ _ _ _ H13 Hw) as (E1 & E2 & r & Er).
  rewrite (sw_bind_ret _ _ _ _ _ (on_ret _ _ _ _ _ E1)), (sw_bind_ret _ _ _ _ _ (on_ret _ _ _ _ _ E2)).
  change (Z.to_nat 16) with 16%nat. rewrite Er, Hf. cbn [ip_packet ip_time ip_path].
  pose proof (chunks_of d (1444 + 1428 * a) (S a) ltac:(lia) ltac:(lia)) as Hch.
  destruct (append_holds b _ (chunk d (S a)) r Hb) as (b1 & E3 & Hb1).
  { by apply Forall_take, Forall_drop. }
  { rewrite <- zlen_app, Hch. unfold zlen. rewrite length_take. unfold zlen in Hlen. lia. }
  rewrite (sw_bind_ret _ _ _ _ _ (on_ret _ _ _ _ _ E3)), (sw_bind_ret _ _ _ _ _ (set_entry_ret _ _ _)), rxQueue_with, with_queue_twice.
  rewrite Hch in Hb1. replace (1444 + 1428 * a + 1428)%nat with (1444 + 1428 * S a)%nat in Hb1 by lia.
  set (e1 := with_frag0 (Incoming b1 t p) e).
  destruct (IH (S a) e1 b1 (<[k := e1]> q)) as (b' & E4 & Hb').
  { by rewrite length_insert. } { by apply lookup_set. } { done. } { done. } { intros i Hi. apply Hfr. lia. }
  exists b'. rewrite E4, list_insert_insert_eq. split; [done|]. by replace (a + S m)%nat with (S a + m)%nat by lia.
Qed.

Lemma assemble_all k e q s : queue_ok q → q !! k = Some e → collects all_bits e →
  ∃ p q', holds (ip_packet p) d ∧
    assemble E k n (with_queue q s) = Ok (Ret tt, with_world (tryDecode W Peer Path E p (world s)).2 (with_queue q' s))
    ∧ ∃ e', q' !! k = Some e' ∧ frag0 e' = (tryDecode W Peer Path E p (world s)).1.2
      ∧ if (tryDecode W Peer Path E p (world s)).1.1 then timestamp e' = 0 else complete e' = true ∧ live id_ e'.
Proof.
  intros Hq Hk He. pose proof n_range as Hn. destruct (queue_ok_lookup _ _ _ Hq Hk) as [_ Hkl]. rewrite <- (proj1 Hq) in Hkl.
  assert (∀ i, 0 <= i < n → Z.testbit all_bits i = true) as Hbits.
  { intros i Hi. unfold all_bits. rewrite Z.sub_1_r, <- Z.ones_equiv. by apply Z.ones_spec_low. }
  destruct (co_head _ _ He (Hbits 0 ltac:(lia))) as (b & t & p & Hf & Hb).
  destruct (append_frags_spec k (Z.to_nat (n - 1)) 0 e b t (Some p) q s Hkl Hk Hf Hb) as (b' & E1 & Hb').
  { intros i Hi. apply (co_frags _ _ He); [lia|lia|]. apply Hbits. lia. }
  rewrite take_ge in Hb'.
  2:{ pose proof (pf_len _ _ _ _ _ _ _ Hd) as Hl. assert (zlen d <= 1444 + 1428 * (n - 1)) as Hle.
      { unfold pieces. set (len := zlen d). clearbody len. clear. Z.to_euclidean_division_equations; lia. }
      unfold zlen in Hle at 1. lia. }
  set (e1 := with_frag0 (Incoming b' t (Some p)) e) in E1. set (w := world s).
  destruct (tryDecode W Peer Path E (Incoming b' t (Some p)) w) as [[ok p'] w'] eqn:Ed.
  set (e2 := if ok then with_timestamp 0 (with_frag0 p' e1) else with_complete true (with_frag0 p' e1)).
  exists (Incoming b' t (Some p)), (<[k := e2]> q). rewrite Ed. cbn [fst snd]. split; [done|]. split.
  - unfold assemble. rewrite (sw_bind_ret _ _ _ _ _ E1), (sw_bind_ret _ _ _ _ _ (get_set _ _ _ _ Hkl)).
    rewrite (sw_bind_ret _ _ _ (ok, p') (with_world w' (with_queue (<[k := e1]> q) s))).
    2:{ unfold call. cbn [world with_queue]. fold w. change (frag0 e1) with (Incoming b' t (Some p)). by rewrite Ed. }
    rewrite set_entry_ret. cbn [rxQueue with_world with_queue]. rewrite list_insert_insert_eq. done.
  - exists e2. split; [by apply lookup_set|]. unfold e2. destruct ok; [done|]. split_and!; [done|done|]. exact (co_live _ _ He).
Qed.
(** ** A sequence of datagrams *)

Definition deliver (ev : event) (s : state W Path) : cres (state W Path) :=
  onRemotePacket Cipher Auth E (ev_local ev) (ev_from ev) (ev_now ev) (ev_data ev) s.
Fixpoint receive (evs : list event) (s : state W Path) : cres (state W Path) :=
  match evs with [] => Ok s | ev :: evs' => s ← deliver ev s; receive evs' s end.
Definition noted (ev : event) (w : W) : W := arrive (ev_local ev) (ev_from ev) (ev_now ev) w.

(** The queue after the datagrams in [S]. *)
Definition progress (S : Z) (q : list (RXQueueEntry Path)) : Prop :=
  queue_ok q ∧ if S =? 0 then idle id_ q else gathering S q.

Lemma deliver_head ev s : ev_data ev = take 1444 d →
  deliver ev s = ('(_, s') ← store_head E (path_of (ev_local ev) (ev_from ev) (world s)) (ev_now ev) id_ (take 1444 d)
    (with_world (noted ev (world s)) s); Ok s').
Proof. intros Hev. unfold deliver, onRemotePacket. by rewrite Hev, head_arrives, head_id. Qed.

Lemma deliver_frag ev s i h : (1 <= i)%nat → Z.of_nat i < n → byte_ok h → ev_data ev = wire d i h →
  ∃ b, holds b (wire d i h) ∧ deliver ev s = ('(_, s') ← store_fragment E (ev_now ev) id_ (Z.of_nat i) n b
    (with_world (noted ev (world s)) s); Ok s').
Proof.
  intros Hi Hin Hh Hev. unfold deliver, onRemotePacket. rewrite Hev.
  destruct (fragment_arrives (ev_local ev) (ev_from ev) (ev_now ev) i h s) as (b & Hb & ->); [done..|pose proof n_range; lia|].
  exists b. split; [done|]. by rewrite (sane_fragment _ i h).
Qed.

Lemma pow_bit_nonzero S i : 0 <= i → 0 <= S → (Z.lor S (2 ^ i) =? 0) = false.
Proof.
  intros Hi HS. apply Z.eqb_neq. intros H. assert (Z.testbit (Z.lor S (2 ^ i)) i = true) as Hb.
  { rewrite bit_lor, Z.eqb_refl, orb_true_r by done. done. }
  by rewrite H, Z.bits_0 in Hb.
Qed.

Lemma lor_same S i : 0 <= i → Z.testbit S i = true → Z.lor S (2 ^ i) = S.
Proof.
  intros Hi Ht. apply Z.bits_inj'. intros j Hj. rewrite bit_lor by done. destruct (Z.eqb_spec i j) as [->|]; [by rewrite Ht|].
  by rewrite orb_false_r.
Qed.

(** One datagram that does not complete the packet. *)
Lemma deliver_more ie s S : carries d ie → 0 <= S < 2 ^ n → progress S (rxQueue s) → Z.lor S (2 ^ Z.of_nat ie.1) ≠ all_bits →
  ∃ q', deliver ie.2 s = Ok (with_world (noted ie.2 (world s)) (with_queue q' s)) ∧ progress (Z.lor S (2 ^ Z.of_nat ie.1)) q'.
Proof.
  destruct ie as [i ev]. cbn [fst snd]. intros [Hdg Hnow] HS [Hq Hp] Hall. cbn [fst snd] in *. pose proof n_range as Hn.
  set (s' := with_world (noted ev (world s)) s). unfold progress. rewrite pow_bit_nonzero by lia.
  assert (∀ q', gathering (Z.lor S (2 ^ Z.of_nat i)) q' → progress (Z.lor S (2 ^ Z.of_nat i)) q') as Hprog.
  { intros q' Hg. unfold progress. rewrite pow_bit_nonzero by lia. split; [apply Hg|done]. }
  unfold progress in Hprog. rewrite pow_bit_nonzero in Hprog by lia.
  inversion Hdg as [Hi Hx|i' h Hi Hin Hh Hi' Hx]; subst.
  - rewrite (deliver_head ev s) by done. fold s'. destruct (Z.eqb_spec S 0) as [->|HS0].
    + destruct (head_first (path_of (ev_local ev) (ev_from ev) (world s)) (ev_now ev) s' Hnow Hq Hp) as (q' & -> & Hg).
      exists q'. split; [done|]. apply Hprog. by rewrite Z.lor_0_l.
    + destruct (Z.testbit S 0) eqn:Ht.
      * destruct (head_duplicate (path_of (ev_local ev) (ev_from ev) (world s)) (ev_now ev) s' S Hp Ht) as (q' & -> & Hg).
        exists q'. split; [done|]. apply Hprog. by rewrite lor_same.
      * destruct (head_new (path_of (ev_local ev) (ev_from ev) (world s)) (ev_now ev) s' S HS HS0 Hp Ht) as (k & q' & e & Hq' & Hk & Ho & Hc & ->).
        change (Z.lor S 1) with (Z.lor S (2 ^ Z.of_nat 0)) in *. rewrite (proj2 (Z.eqb_neq _ _)) by done.
        exists q'. split; [done|]. apply Hprog. split; [done|]. by exists k, e.
  - destruct (deliver_frag ev s i h Hi Hin Hh) as (b & Hb & ->); [done|]. fold s'. destruct (Z.eqb_spec S 0) as [->|HS0].
    + destruct (frag_first (ev_now ev) i h b s' Hi Hin Hb Hnow Hq Hp) as (q' & -> & Hg).
      exists q'. split; [done|]. apply Hprog. by rewrite Z.lor_0_l.
    + destruct (Z.testbit S (Z.of_nat i)) eqn:Ht.
      * destruct (frag_duplicate (ev_now ev) i b s' S Hp Ht) as (q' & -> & Hg).
        exists q'. split; [done|]. apply Hprog. by rewrite lor_same by (done || lia).
      * destruct (frag_new (ev_now ev) i h b s' S Hi Hin Hb HS Hp Ht) as (k & q' & e & Hq' & Hk & Ho & Hc & ->).
        rewrite (proj2 (Z.eqb_neq _ _)) by done.
        exists q'. split; [done|]. apply Hprog. split; [done|]. by exists k, e.
Qed.

(** The datagram that completes the packet. *)
Lemma deliver_last ie s S : carries d ie → 0 < S < 2 ^ n → progress S (rxQueue s) → Z.testbit S (Z.of_nat ie.1) = false →
  Z.lor S (2 ^ Z.of_nat ie.1) = all_bits →
  ∃ s' p, deliver ie.2 s = Ok s' ∧ decoded E d id_ p (noted ie.2 (world s)) s'.
Proof.
  destruct ie as [i ev]. cbn [fst snd]. intros [Hdg Hnow] HS [_ Hp] Ht Hall. cbn [fst snd] in *. pose proof n_range as Hn.
  rewrite (proj2 (Z.eqb_neq _ _)) in Hp by lia. set (s' := with_world (noted ev (world s)) s).
  assert (∀ k q' e, queue_ok q' → q' !! k = Some e → collects all_bits e →
    ∃ s2 p, ('(_, s2) ← assemble E k n (with_queue q' s'); Ok s2) = Ok s2 ∧ decoded E d id_ p (noted ev (world s)) s2) as Hasm.
  { intros k q' e Hq' Hk Hc. destruct (assemble_all k e q' s' Hq' Hk Hc) as (p & q2 & Hh & -> & e' & He' & Hf' & Hif).
    eexists _, p. split; [done|]. split; [done|]. split; [done|]. by exists k, e'. }
  inversion Hdg as [Hi Hx|i' h Hi Hin Hh Hi' Hx]; subst.
  - rewrite (deliver_head ev s) by done. fold s'.
    destruct (head_new (path_of (ev_local ev) (ev_from ev) (world s)) (ev_now ev) s' S ltac:(lia) ltac:(lia) Hp Ht) as (k & q' & e & Hq' & Hk & Ho & Hc & ->).
    change (Z.lor S 1) with (Z.lor S (2 ^ Z.of_nat 0)) in *. rewrite Hall in *. rewrite Z.eqb_refl. by apply (Hasm k q' e).
  - destruct (deliver_frag ev s i h Hi Hin Hh) as (b & Hb & ->); [done|]. fold s'.
    destruct (frag_new (ev_now ev) i h b s' S Hi Hin Hb ltac:(lia) Hp Ht) as (k & q' & e & Hq' & Hk & Ho & Hc & ->).
    rewrite Hall in *. rewrite Z.eqb_refl. by apply (Hasm k q' e).
Qed.

(** The mask of a list of datagrams. *)
Definition mask (l : list nat) : Z := foldr (λ i m, Z.lor m (2 ^ Z.of_nat i)) 0 l.

Lemma mask_bit l j : Z.testbit (mask l) (Z.of_nat j) = bool_decide (j ∈ l).
Proof.
  induction l as [|i l IH]; [by rewrite Z.bits_0|]. cbn [mask foldr]. fold (mask l). rewrite bit_lor, IH by lia.
  destruct (Z.eqb_spec (Z.of_nat i) (Z.of_nat j)) as [->%Nat2Z.inj|Hne].
  - rewrite orb_true_r. symmetry. apply bool_decide_eq_true. left.
  - rewrite orb_false_r. apply bool_decide_ext. rewrite elem_of_cons. naive_solver lia.
Qed.
Lemma mask_range l : Forall (λ i, Z.of_nat i < n) l → 0 <= mask l < 2 ^ n.
Proof.
  pose proof n_range as Hn. induction 1 as [|i l Hi Hl IH]; [split; [done|by apply Z.pow_pos_nonneg; lia]|].
  cbn [mask foldr]. fold (mask l). apply (word_ok_lor n); [lia|done|]. split; [apply Z.pow_nonneg; lia|].
  apply Z.pow_lt_mono_r; lia.
Qed.

Lemma all_bits_bit j : 0 <= j → Z.testbit all_bits j = (j <? n).
Proof.
  intros Hj. unfold all_bits. rewrite Z.sub_1_r, <- Z.ones_equiv. apply Z.testbit_ones_nonneg; pose proof n_range; lia.
Qed.

Lemma carries_index ie : carries d ie → Z.of_nat ie.1 < n.
Proof. intros [Hdg _]. pose proof n_range. inversion Hdg; subst; [lia|done]. Qed.

Lemma receive_more before seen x s :
  Forall (carries d) before → Forall (λ i, Z.of_nat i < n) seen → Z.of_nat x < n → x ∉ before.*1 → x ∉ seen →
  progress (mask seen) (rxQueue s) →
  ∃ q', receive before.*2 s = Ok (with_world (foldl (λ w ev, noted ev w) (world s) before.*2) (with_queue q' s))
        ∧ progress (mask (reverse before.*1 ++ seen)) q'.
Proof.
  intros Hb. revert seen s. induction Hb as [|ie before Hie Hb IH]; intros seen s Hs Hx Hnb Hns Hp.
  { exists (rxQueue s). split; [by destruct s|done]. }
  cbn [fmap list_fmap receive foldl] in *. apply not_elem_of_cons in Hnb as [Hne Hnb].
  pose proof (carries_index _ Hie) as Hi.
  destruct (deliver_more ie s (mask seen) Hie (mask_range _ Hs) Hp) as (q1 & E1 & Hp1).
  { intros Hall. assert (Z.testbit (mask (ie.1 :: seen)) (Z.of_nat x) = true) as Ht.
    { cbn [mask foldr]. fold (mask seen). rewrite Hall, all_bits_bit by lia. by apply Z.ltb_lt. }
    rewrite mask_bit in Ht. apply bool_decide_eq_true in Ht. rewrite elem_of_cons in Ht. naive_solver. }
  rewrite E1. cbn [mbind cres_bind].
  destruct (IH (ie.1 :: seen) (with_world (noted ie.2 (world s)) (with_queue q1 s))) as (q' & E2 & Hp2); try done.
  { by constructor. } { by apply not_elem_of_cons. }
  exists q'. rewrite E2. split; [done|]. by rewrite reverse_cons, <- app_assoc.
Qed.

Lemma receive_all before last s :
  Forall (carries d) before → carries d last → last.1 ∉ before.*1 → (∀ i, Z.of_nat i < n → i ∈ last.1 :: before.*1) →
  queue_ok (rxQueue s) → idle id_ (rxQueue s) →
  ∃ s1 s2 p, receive before.*2 s = Ok s1 ∧ world s1 = foldl (λ w ev, noted ev w) (world s) before.*2
    ∧ deliver last.2 s1 = Ok s2 ∧ decoded E d id_ p (noted last.2 (world s1)) s2.
Proof.
  intros Hb Hl Hnb Hcov Hq Hid. pose proof (carries_index _ Hl) as Hli. pose proof n_range as Hn.
  destruct (receive_more before [] last.1 s Hb) as (q1 & E1 & Hp1); [constructor|done|done|apply not_elem_of_nil|by split|].
  rewrite app_nil_r in Hp1. set (S := mask (reverse before.*1)) in *.
  assert (0 <= S < 2 ^ n) as HS.
  { apply mask_range, Forall_reverse. clear -Hb Hn. induction Hb as [|ie l Hie Hb IH]; [constructor|]. constructor; [|done].
    destruct Hie as [Hdg _]. inversion Hdg; subst; [lia|done]. }
  assert (∀ j, Z.testbit S (Z.of_nat j) = bool_decide (j ∈ before.*1)) as Hbit.
  { intros j. unfold S. rewrite mask_bit. apply bool_decide_ext. by rewrite elem_of_reverse. }
  assert (Z.lor S (2 ^ Z.of_nat last.1) = all_bits) as Hall.
  { apply Z.bits_inj'. intros j Hj. rewrite bit_lor, all_bits_bit by lia.
    replace j with (Z.of_nat (Z.to_nat j)) in * by lia. set (m := Z.to_nat j) in *. clearbody m.
    destruct (Z.ltb_spec (Z.of_nat m) n) as [Hm|Hm].
    - specialize (Hcov m Hm). rewrite elem_of_cons in Hcov. rewrite Hbit. destruct Hcov as [->|Hin].
      + rewrite Z.eqb_refl. apply orb_true_r.
      + by rewrite bool_decide_eq_true_2.
    - rewrite (testbit_high n S) by (done || lia). apply Z.eqb_neq. lia. }
  set (s1 := with_world _ (with_queue q1 s)) in E1.
  destruct (deliver_last last s1 S Hl) as (s2 & p & E2 & Hd2); [|done|by rewrite Hbit; apply bool_decide_eq_false_2|done|].
  - destruct (decide (S = 0)) as [H0|]; [|lia]. exfalso. rewrite H0, Z.lor_0_l in Hall.
    assert (Z.testbit (2 ^ Z.of_nat last.1) 0 = true) as B0 by (rewrite Hall, all_bits_bit by lia; apply Z.ltb_lt; lia).
    assert (Z.testbit (2 ^ Z.of_nat last.1) 1 = true) as B1 by (rewrite Hall, all_bits_bit by lia; apply Z.ltb_lt; lia).
    rewrite Z.pow2_bits_eqb in B0, B1 by lia. bool_hyps. lia.
  - by exists s1, s2, p.
Qed.
End arrival.


Lemma pieces_4 m : m <= 5728 → pieces m <= 4.
Proof. intros Hm. unfold pieces. Z.to_euclidean_division_equations; lia. Qed.

(** ** Cutting a packet into datagrams *)

Lemma fragment_byte total no : 0 <= total < 16 → 0 <= no < 16 →
  wrap 8 (Z.lor (Z.shiftl (Z.land total 0xf) 4) (Z.land no 0xf)) = 16 * total + no.
Proof.
  intros Ht Hno. rewrite !(land_mask _ 4 0xf), !Z.mod_small, lor_shiftl_add by (done || lia).
  rewrite wrap_small; unfold word_ok; lia.
Qed.

(** The three bytes between the identifier with the destination and the payload. *)
Lemma frag_header_holds b p q b0 b1 b2 t : holds b (p ++ [b0; b1; b2] ++ q) → zlen p = 13 → byte_ok t →
  ∃ c2 c3 c4, index_set ZT_PACKET_FRAGMENT_IDX_FRAGMENT_INDICATOR ZT_PACKET_FRAGMENT_INDICATOR b = Ok (Ret tt, c2)
    ∧ index_set ZT_PACKET_FRAGMENT_IDX_FRAGMENT_NO t c2 = Ok (Ret tt, c3)
    ∧ index_set ZT_PACKET_FRAGMENT_IDX_HOPS 0 c3 = Ok (Ret tt, c4) ∧ holds c4 (p ++ [255; t; 0] ++ q).
Proof.
  intros Hh Hp Ht.
  destruct (index_set_holds b p b0 _ ZT_PACKET_FRAGMENT_IDX_FRAGMENT_INDICATOR ZT_PACKET_FRAGMENT_INDICATOR Hh) as (c2 & E2 & H2); [done|done|].
  replace (p ++ ZT_PACKET_FRAGMENT_INDICATOR :: b1 :: b2 :: q) with ((p ++ [255]) ++ b1 :: b2 :: q) in H2 by (by rewrite <- app_assoc).
  destruct (index_set_holds c2 _ b1 _ ZT_PACKET_FRAGMENT_IDX_FRAGMENT_NO t H2) as (c3 & E3 & H3); [by rewrite zlen_app, Hp|done|].
  replace ((p ++ [255]) ++ t :: b2 :: q) with ((p ++ [255; t]) ++ b2 :: q) in H3 by (by rewrite <- !app_assoc).
  destruct (index_set_holds c3 _ b2 _ ZT_PACKET_FRAGMENT_IDX_HOPS 0 H3) as (c4 & E4 & H4); [by rewrite zlen_app, Hp|done|].
  exists c2, c3, c4. split_and!; [done..|]. by rewrite <- app_assoc in H4.
Qed.

Lemma init_holds p mem d' start len no total :
  holds p d' → bytes_ok mem → zlen mem = C → 13 <= zlen d' → 0 <= start → 0 < len → start + len <= zlen d' → len <= 1428 →
  0 <= total < 16 → 0 <= no < 16 →
  ∃ b, Fragment.init p start len no total (Buf 0 mem) = Ok (Ret tt, b)
       ∧ holds b (take 13 d' ++ [255; 16 * total + no; 0] ++ take (Z.to_nat len) (drop (Z.to_nat start) d')).
Proof.
  intros Hp Hmo Hml H13 Hs Hl Hsl Hlm Ht Hno. pose proof (holds_ok _ _ Hp) as Hdok.
  destruct (proj1 Hp) as (rp & Ebp & Elp & Erp). assert (C = 5776) as HC by done. pose proof (zlen_nonneg rp).
  unfold Fragment.init. rewrite Elp, u32_small by (unfold uint; lia). rewrite (proj2 (Z.ltb_ge _ _)) by lia.
  unfold ZT_PROTO_MIN_FRAGMENT_LENGTH, ZT_PACKET_FRAGMENT_IDX_PAYLOAD, ZT_PACKET_FRAGMENT_IDX_PACKET_ID, ZT_PACKET_IDX_IV.
  rewrite u32_small by (unfold uint; lia).
  assert (holds (Buf 0 mem) []) as H0 by (split; [exists mem; cbn [_b _l]; by rewrite Hml|done]).
  destruct (setSize_holds (Buf 0 mem) [] (len + 16) H0) as (x & Hx & E1 & Hh1); [lia|].
  rewrite (meth_bind_ret _ _ _ _ _ E1). cbn [_b] in *.
  destruct (mem_adjacent 0 13 3 x) as (x0 & xa & xb & xc & -> & L0 & La & Lb); [lia..|].
  destruct x0; [|unfold zlen in L0; cbn in L0; lia]. cbn [app] in *. rewrite !zlen_app in Hx.
  destruct xb as [|b0 [|b1 [|b2 [|]]]]; unfold zlen in Lb; cbn in Lb; try lia. clear Lb L0.
  change (zlen [b0; b1; b2]) with 3 in Hx. pose proof (zlen_nonneg xc).
  rewrite (meth_bind_ret _ _ _ _ _ (field_holds _ _ 0 13 Hh1 ltac:(lia) ltac:(lia) ltac:(rewrite !zlen_app; change (zlen [b0; b1; b2]) with 3; lia))).
  assert (zlen (take 13 d') = 13) as Hl13 by (apply (zlen_take 13); lia).
  assert (field_read 0 13 p = Ok (Ret (take 13 d'), p)) as Er.
  { apply (field_read_holds p [] (take 13 d') (drop 13 d')); [by rewrite app_nil_l, take_drop|done|done]. }
  rewrite (meth_bind_ret _ _ _ (Ret (take 13 d'), p) (Buf (len + 16) mem)) by (unfold lift_meth; by rewrite Er).
  destruct (raw_write_holds _ [] xa ([b0; b1; b2] ++ xc) (take 13 d') 0 Hh1) as (c1 & E2 & Hh2); [lia|done|by apply Forall_take|].
  rewrite (meth_bind_ret _ _ _ _ _ E2). cbn [app] in Hh2.
  rewrite fragment_byte by done.
  destruct (frag_header_holds c1 (take 13 d') xc b0 b1 b2 (16 * total + no) Hh2 Hl13 ltac:(unfold byte_ok; lia)) as (c2 & c3 & c4 & E3 & E4 & E5 & Hh5).
  rewrite (meth_bind_ret _ _ _ _ _ E3), (meth_bind_ret _ _ _ _ _ E4), (meth_bind_ret _ _ _ _ _ E5). rewrite app_assoc in Hh5.
  assert (zlen (take 13 d' ++ [255; 16 * total + no; 0]) = 16) as Hl16 by (by rewrite zlen_app, Hl13).
  rewrite (meth_bind_ret _ _ _ _ _ (field_holds _ _ 16 len Hh5 ltac:(lia) ltac:(lia) ltac:(rewrite zlen_app, Hl16; lia))).
  set (y := take (Z.to_nat len) (drop (Z.to_nat start) d')).
  assert (zlen y = len) as Hy by (unfold y; rewrite zlen_take; [done|]; rewrite zlen_drop; lia).
  assert (field_read start len p = Ok (Ret y, p)) as Er2.
  { apply (field_read_holds p (take (Z.to_nat start) d') y (drop (Z.to_nat len) (drop (Z.to_nat start) d'))); [|by rewrite zlen_take by lia|done].
    unfold y. by rewrite take_drop, take_drop. }
  rewrite (meth_bind_ret _ _ _ (Ret y, p) c4) by (unfold lift_meth; by rewrite Er2).
  rewrite <- (app_nil_r xc) in Hh5.
  destruct (raw_write_holds c4 _ xc [] y 16 Hh5) as (c5 & E6 & Hh6); [lia|done|by apply Forall_take, Forall_drop|].
  exists c5. split; [exact E6|]. by rewrite app_nil_r, <- app_assoc in Hh6.
Qed.

Lemma contents_ret {W Path} b x (s : state W Path) : holds b x → contents b s = Ok (Ret x, s).
Proof.
  intros [(r & Eb & El & _) _]. unfold contents, sw_lift. by rewrite Eb, El, mem_read_head.
Qed.

Section sending.
Context {L P : Type} (Cipher : Salsa) (Auth : Poly L P) (HC : StreamCipher Cipher) (HA : Authenticator Auth).
Context {W Peer Path : Type} (E : Env W Peer Path).
Context (Hmem : ∀ w, bytes_ok (memory_of W Peer Path E w) ∧ zlen (memory_of W Peer Path E w) = C).

(** Datagrams handed to a path one after the other. *)
Definition sends (path : Path) (now : Z) (w : W) (l : list bytes) : W :=
  foldl (λ w x, (path_send W Peer Path E path x now w).2) w l.

(** The datagrams of a packet in the order they are sent. *)
Definition datagrams (d : bytes) : list bytes :=
  if 1444 <? zlen d then take 1444 d :: ((λ i, wire d i 0) <$> seq 1 (Z.to_nat (pieces (zlen d) - 1))) else [d].

Lemma chunk_min (d' : bytes) j : take 1428 (drop j d') = take (Z.to_nat (Z.min (zlen d' - Z.of_nat j) 1428)) (drop j d').
Proof.
  destruct (decide (zlen d' - Z.of_nat j <= 1428)) as [Hle|Hgt].
  - rewrite Z.min_l by lia. unfold zlen in *. rewrite !take_ge by (rewrite length_drop; lia). done.
  - by rewrite Z.min_r by lia.
Qed.

Lemma send_fragments_spec path now packet d' k j s :
  holds packet d' → 1444 < zlen d' → pieces (zlen d') < 16 → (1 <= j)%nat → Z.of_nat j + Z.of_nat k = pieces (zlen d') →
  let start := 1444 + 1428 * (Z.of_nat j - 1) in
  send_fragments E path now packet (pieces (zlen d')) k (Z.of_nat j) start (zlen d' - start) s =
  Ok (Ret tt, with_world (sends path now (world s) ((λ i, wire d' i 0) <$> seq j k)) s).
Proof.
  intros Hp Hl H16. revert j s. induction k as [|k IH]; intros j s Hj Hjk start; [by destruct s|].
  cbn [send_fragments seq fmap list_fmap]. destruct (Hmem (world s)) as [Hmo Hml].
  rewrite (sw_bind_ret _ _ s (memory_of W Peer Path E (world s)) s) by done.
  unfold ZT_UDP_DEFAULT_PAYLOAD_MTU, ZT_PROTO_MIN_FRAGMENT_LENGTH, ZT_PACKET_FRAGMENT_IDX_PAYLOAD. change (1444 - 16) with 1428.
  assert (0 < zlen d' - start) as Hpos.
  { unfold start. unfold pieces in Hjk. set (len := zlen d') in *. clearbody len. clear -Hl Hj Hjk. Z.to_euclidean_division_equations; lia. }
  destruct (proj1 Hp) as (rp & _ & Elp & Erp). assert (C = 5776) as HC5 by done. pose proof (zlen_nonneg rp).
  destruct (init_holds packet (memory_of W Peer Path E (world s)) d' start (Z.min (zlen d' - start) 1428) (Z.of_nat j) (pieces (zlen d')) Hp Hmo Hml)
    as (b & Eb & Hb); [lia..|].
  rewrite (sw_bind_ret _ _ _ _ _ (on_ret _ _ _ _ _ Eb)).
  assert (take (Z.to_nat (Z.min (zlen d' - start) 1428)) (drop (Z.to_nat start) d') = chunk d' j) as Hch.
  { unfold chunk. replace (1444 + 1428 * (j - 1))%nat with (Z.to_nat start) by lia. rewrite chunk_min. by replace (Z.of_nat (Z.to_nat start)) with start by lia. }
  rewrite Hch in Hb. change (take 13 d' ++ [255; 16 * pieces (zlen d') + Z.of_nat j; 0] ++ chunk d' j) with (wire d' j 0) in Hb.
  rewrite (sw_bind_ret _ _ _ _ _ (contents_ret _ _ _ Hb)).
  destruct (path_send W Peer Path E path (wire d' j 0) now (world s)) as [ok w] eqn:Es.
  rewrite (sw_bind_ret _ _ s ok (with_world w s)) by (unfold call; by rewrite Es).
  destruct k as [|k].
  - cbn [send_fragments seq fmap list_fmap sends foldl]. by rewrite Es.
  - assert (1428 <= zlen d' - start) as Hge.
    { unfold start. unfold pieces in Hjk. set (len := zlen d') in *. clearbody len. clear -Hl Hj Hjk. Z.to_euclidean_division_equations; lia. }
    rewrite Z.min_r, !u32_small by (unfold uint; lia).
    replace (Z.of_nat j + 1) with (Z.of_nat (S j)) by lia.
    replace (start + 1428) with (1444 + 1428 * (Z.of_nat (S j) - 1)) by (unfold start; lia).
    replace (zlen d' - start - 1428) with (zlen d' - (1444 + 1428 * (Z.of_nat (S j) - 1))) by (unfold start; lia).
    rewrite IH by lia. cbn [world with_world sends foldl]. by rewrite Es.
Qed.

(** The head and, when it was accepted, the fragments. *)
Definition sent_datagrams (path : Path) (now : Z) (w : W) (d' : bytes) : W :=
  if (path_send W Peer Path E path (take 1444 d') now w).1 then sends path now w (datagrams d')
  else (path_send W Peer Path E path (take 1444 d') now w).2.

Lemma pieces_bound m : m <= C → pieces m < 16.
Proof. change C with 5776. intros Hm. unfold pieces. Z.to_euclidean_division_equations; lia. Qed.

(** The count of fragments by division and correction. *)
Lemma pieces_code m : 1444 < m → 
  (let remaining := m - 1444 in (if remaining / 1428 * 1428 <? remaining then remaining / 1428 + 1 else remaining / 1428) + 1) = pieces m.
Proof.
  intros Hm. cbv zeta. unfold pieces. destruct (Z.ltb_spec ((m - 1444) / 1428 * 1428) (m - 1444)); Z.to_euclidean_division_equations; lia.
Qed.

Lemma send_all path now packet d' s : holds packet d' → 27 <= zlen d' →
  send_datagrams E path now packet s = Ok (Ret tt, with_world (sent_datagrams path now (world s) d') s).
Proof.
  intros Hp Hl. destruct (proj1 Hp) as (r & Eb & El & Er). assert (C = 5776) as HC5 by done. pose proof (zlen_nonneg r).
  unfold send_datagrams, ZT_UDP_DEFAULT_PAYLOAD_MTU, ZT_PROTO_MIN_FRAGMENT_LENGTH, ZT_PACKET_FRAGMENT_IDX_PAYLOAD. cbv zeta. rewrite El. change (1444 - 16) with 1428.
  assert (mem_read 0 (Z.min (zlen d') 1444) (_b packet) = Ok (take 1444 d')) as Em.
  { rewrite mem_read_ok by (rewrite ?Eb, ?zlen_app; lia). rewrite drop_0, Eb. f_equal.
    rewrite take_app_le by (unfold zlen; lia). pose proof (chunk_min d' 0) as Hc. unfold zlen in *.
    destruct (decide (Z.of_nat (length d') <= 1444)); [rewrite Z.min_l by lia; by rewrite !take_ge by lia|by rewrite Z.min_r by lia]. }
  rewrite (sw_bind_ret _ _ s (take 1444 d') s) by (unfold sw_lift; by rewrite Em).
  unfold sent_datagrams, datagrams, sends.
  destruct (path_send W Peer Path E path (take 1444 d') now (world s)) as [ok w] eqn:Es.
  rewrite (sw_bind_ret _ _ s ok (with_world w s)) by (unfold call; by rewrite Es). cbn [fst snd].
  destruct ok; cbn [andb]; [|done]. destruct (Z.ltb_spec 1444 (zlen d')) as [Hgt|Hle].
  - rewrite Z.min_r, (proj2 (Z.ltb_lt 1444 (zlen d'))), u32_small by (unfold uint; lia). rewrite pieces_code by done.
    pose proof (pieces_bound (zlen d') ltac:(lia)) as H16.
    assert (2 <= pieces (zlen d')) by (unfold pieces; set (len := zlen d') in *; clearbody len; clear -Hgt; Z.to_euclidean_division_equations; lia).
    pose proof (send_fragments_spec path now packet d' (Z.to_nat (pieces (zlen d') - 1)) 1 (with_world w s) Hp Hgt H16 ltac:(lia) ltac:(lia)) as Hf.
    cbv zeta in Hf. change (1444 + 1428 * (Z.of_nat 1 - 1)) with 1444 in Hf. change (Z.of_nat 1) with 1 in Hf. rewrite Hf.
    cbn [foldl world with_world]. by rewrite Es.
  - rewrite (proj2 (Z.ltb_ge _ _)) by lia. cbn [foldl]. rewrite (take_ge d') in Es by (unfold zlen in Hle; lia). by rewrite Es.
Qed.

Context (Hst : ∀ w, stack_ok (stack_of W Peer Path E w)).

Lemma transmit_spec peer path now packet (enc : bool) i7 x addrs f mac body s :
  holds packet (pkt (i7 ++ [x]) addrs f mac body) → pkt_ok (i7 ++ [x]) addrs mac → key_ok (peer_key W Peer Path E peer) →
  getOutboundPathTrust W Peer Path E path (world s) = 0 →
  let '(counter, w) := nextOutgoingCounter W Peer Path E path (world s) in
  let iv := stamped i7 x counter in
  let f' := cipher_flags (if enc then 1 else 0) (frag_flags (1444 <? 27 + zlen body) f) in
  let mk := mangled (peer_key W Peer Path E peer) iv addrs f' (27 + zlen body) in
  let body' := sealed enc mk iv body in
  let d' := pkt iv addrs f' (tag mk iv body') body' in
  ∃ packet', transmit Cipher Auth E peer path now packet enc s = Ok (Ret packet', with_world (sent_datagrams path now w d') s) ∧ holds packet' d'.
Proof.
  intros Hp Hok Hk Htr. destruct (nextOutgoingCounter W Peer Path E path (world s)) as [counter w] eqn:Ec. intros iv f' mk body' d'.
  destruct (proj1 Hp) as (r & _ & El & _). rewrite zlen_pkt in El by done. unfold transmit, ZT_UDP_DEFAULT_PAYLOAD_MTU. rewrite El.
  replace (Z.min (27 + zlen body) 1444 <? 27 + zlen body) with (1444 <? 27 + zlen body)
    by (destruct (Z.ltb_spec 1444 (27 + zlen body)), (Z.ltb_spec (Z.min (27 + zlen body) 1444) (27 + zlen body)); done || lia).
  set (fr := 1444 <? 27 + zlen body) in *.
  destruct (setFragmented_holds packet _ _ _ _ _ fr Hp Hok) as (p1 & E1 & Hp1).
  rewrite (sw_bind_ret _ _ _ _ _ (on_ret _ _ _ _ _ E1)).
  rewrite (sw_bind_ret _ _ s 0 s) by (unfold ask; by rewrite Htr). cbn [negb Z.eqb].
  destruct (armor_holds Cipher Auth HC HA (stack_of W Peer Path E w) _ p1 enc counter i7 x addrs _ mac body Hp1 Hok Hk (Hst w)) as (p2 & E2 & Hp2).
  rewrite (sw_bind_ret _ _ s (tt, p2) (with_world w s)).
  2:{ rewrite (sw_bind_ret _ _ s counter (with_world w s)) by (unfold call; by rewrite Ec).
      rewrite (sw_bind_ret _ _ _ (stack_of W Peer Path E w) (with_world w s)) by done. exact (on_ret _ _ _ _ _ E2). }
  assert (pkt_ok iv addrs (tag mk iv body')) as Hok'.
  { destruct Hok as [Hi Ha _]. split; [|done|apply zlen_tag]. unfold iv, stamped. rewrite zlen_app in Hi |- *. exact Hi. }
  rewrite (sw_bind_ret _ _ _ _ _ (send_all path now p2 d' (with_world w s) Hp2 ltac:(unfold d'; rewrite zlen_pkt by done; pose proof (zlen_nonneg body'); lia))).
  by exists p2.
Qed.
End sending.

(** ** Packets that need more than four datagrams *)

Section oversized.
Context {L P : Type} (Cipher : Salsa) (Auth : Poly L P).
Context {W Peer Path : Type} (E : Env W Peer Path).
Context (Hmem : ∀ w, bytes_ok (memory_of W Peer Path E w) ∧ zlen (memory_of W Peer Path E w) = C).
Context (iv dst src4 rest : bytes) (s0 f : Z).
Local Abbreviation d := (iv ++ dst ++ (s0 :: src4) ++ f :: rest).
Context (Hd : packet_for (self W Peer Path E) iv dst src4 rest s0 f) (Hbig : 5728 < zlen d).

Lemma pieces_5 : pieces (zlen d) = 5.
Proof.
  pose proof (pf_len _ _ _ _ _ _ _ Hd) as Hl. change C with 5776 in Hl. unfold pieces. set (len := zlen d) in *. clearbody len. clear -Hl Hbig.
  Z.to_euclidean_division_equations; lia.
Qed.

Lemma fragment_refused now i h b s : (1 <= i)%nat → Z.of_nat i < 5 → holds b (wire d i h) → collect_fragment E now b s = Ok (Ret tt, s).
Proof.
  intros Hi Hin Hb. destruct (id Hd) as [Hiv Hdst _ _ _ _ _ _ _].
  assert (zlen (iv ++ dst) = 13) as H13 by (rewrite zlen_app; lia).
  unfold wire in Hb. rewrite (d_prefix E iv dst src4 rest s0 f Hd), pieces_5 in Hb. unfold collect_fragment.
  pose proof (frag_packetId b _ _ _ _ H13 Hb) as Ei. pose proof (frag_byte b _ _ _ _ H13 Hb) as Et.
  assert (∃ m, Fragment.fragmentNumber b = Ok (Ret m, b)) as [m En].
  { eexists. unfold Fragment.fragmentNumber. by rewrite (meth_bind_ret _ _ _ _ _ Et). }
  assert (Fragment.totalFragments b = Ok (Ret 5, b)) as Eo.
  { unfold Fragment.totalFragments. rewrite (meth_bind_ret _ _ _ _ _ Et). unfold mret, meth_ret, done_. do 3 f_equal.
    assert (i = 1 ∨ i = 2 ∨ i = 3 ∨ i = 4)%nat as Hc by lia. by destruct Hc as [->|[->|[->| ->]]]. }
  by rewrite (sw_bind_ret _ _ _ _ _ (on_ret _ _ _ _ _ Ei)), (sw_bind_ret _ _ _ _ _ (on_ret _ _ _ _ _ En)),
    (sw_bind_ret _ _ _ _ _ (on_ret _ _ _ _ _ Eo)).
Qed.

(** Nothing of the packet in the queue, or only its head. *)
Definition headed (q : list (RXQueueEntry Path)) : Prop :=
  queue_ok q ∧ (idle (be_val iv) q ∨ gathering iv dst src4 rest s0 f 1 q).

Lemma deliver_oversized ie s : carries d ie → headed (rxQueue s) →
  ∃ q', deliver Cipher Auth E ie.2 s = Ok (with_world (noted E ie.2 (world s)) (with_queue q' s)) ∧ headed q'.
Proof.
  destruct ie as [i ev]. intros [Hdg Hnow] [Hq Hh]. cbn [fst snd] in *. set (s' := with_world (noted E ev (world s)) s).
  inversion Hdg as [Hi Hx|i' h Hi Hin Hb Hi' Hx]; subst.
  - rewrite (deliver_head Cipher Auth E Hmem iv dst src4 rest s0 f Hd ev s) by done. fold s'.
    destruct Hh as [Hidle|Hg].
    + destruct (head_first E iv dst src4 rest s0 f Hd (path_of E (ev_local ev) (ev_from ev) (world s)) (ev_now ev) s' Hnow Hq Hidle) as (q' & -> & Hg).
      exists q'. split; [done|]. split; [apply Hg|by right].
    + destruct (head_duplicate E iv dst src4 rest s0 f (path_of E (ev_local ev) (ev_from ev) (world s)) (ev_now ev) s' 1 Hg) as (q' & -> & Hg'); [done|].
      exists q'. split; [done|]. split; [apply Hg'|by right].
  - assert (ev_data ev = wire d i h) as Hev by done. clear Hx. unfold deliver, onRemotePacket. rewrite Hev.
    assert (Z.of_nat i < 5) as H5 by (by rewrite <- pieces_5).
    destruct (fragment_arrives Cipher Auth E Hmem iv dst src4 rest s0 f Hd (ev_local ev) (ev_from ev) (ev_now ev) i h s) as (b & Hbh & ->);
      [done..|by rewrite pieces_5|].
    rewrite (fragment_refused _ i h) by done. exists (rxQueue s). split; [by destruct s|done].
Qed.

Lemma receive_oversized l s : Forall (carries d) l → headed (rxQueue s) →
  ∃ q', receive Cipher Auth E l.*2 s = Ok (with_world (foldl (λ w ev, noted E ev w) (world s) l.*2) (with_queue q' s)).
Proof.
  intros Hl. revert s. induction Hl as [|ie l Hie Hl IH]; intros s Hh; [by exists (rxQueue s); destruct s|].
  cbn [fmap list_fmap receive foldl]. destruct (deliver_oversized ie s Hie Hh) as (q1 & -> & Hh1). cbn [mbind cres_bind].
  destruct (IH (with_world (noted E ie.2 (world s)) (with_queue q1 s)) Hh1) as (q' & ->). by exists q'.
Qed.
End oversized.

(** ** Properties *)

(** What the switch relies on in the memory under its local variables. *)
Record memory_ok {W Peer Path} (E : Env W Peer Path) : Prop := {
  mo_memory w : bytes_ok (memory_of W Peer Path E w) ∧ zlen (memory_of W Peer Path E w) = C;
  mo_stack w : stack_ok (stack_of W Peer Path E w);
}.

(** The flag of a fragmented packet survives the choice of the cipher. *)
Lemma fragmented_flag (enc : bool) f : byte_ok f → Z.land (cipher_flags (if enc then 1 else 0) (frag_flags true f)) ZT_PROTO_FLAG_FRAGMENTED ≠ 0.
Proof.
  intros Hf. cut (Z.land (cipher_flags (if enc then 1 else 0) (frag_flags true f)) ZT_PROTO_FLAG_FRAGMENTED = 0x40); [by intros ->|].
  destruct enc; byte_cases f Hf.
Qed.

(** C1: a packet too big for one datagram reaches the decoder of its receiver as it was sent.  [_trySend]
    cuts a packet of up to 5728 bytes into a head and fragments; when these arrive, in any order, with any
    number of duplicates and whatever relays did to the hop counts of the fragments, the switch of the
    receiver calls [tryDecode] exactly when the last missing one is there, on exactly the packet that
    was armored, and frees the entry of its queue or keeps it complete for later as the decoder says.
    [dearmor] with the key of the sender then gives verb and payload back. *)
Theorem fragmented_delivery {L P L' P' W1 Peer1 Path1 W2 Peer2 Path2 : Type} (Cipher Cipher' : Salsa) (Auth : Poly L P) (Auth' : Poly L' P')
    (E1 : Env W1 Peer1 Path1) (E2 : Env W2 Peer2 Path2) (peer : Peer1) (path : Path1) (now : Z) (packet : Buffer.t) (enc : bool)
    (i7 dst src4 mac body : bytes) (x s0 f : Z) (s : state W1 Path1) :
  StreamCipher Cipher → StreamCipher Cipher' → Authenticator Auth → Authenticator Auth' → memory_ok E1 → memory_ok E2 →
  holds packet (pkt (i7 ++ [x]) (dst ++ s0 :: src4) f mac body) → pkt_ok (i7 ++ [x]) (dst ++ s0 :: src4) mac → zlen dst = 5 →
  be_val dst = self W2 Peer2 Path2 E2 → be_val (s0 :: src4) ≠ self W2 Peer2 Path2 E2 → s0 ≠ 255 →
  1444 < 27 + zlen body <= 5728 → key_ok (peer_key W1 Peer1 Path1 E1 peer) → getOutboundPathTrust W1 Peer1 Path1 E1 path (world s) = 0 →
  ∃ packet' d' w, transmit Cipher Auth E1 peer path now packet enc s = Ok (Ret packet', with_world (sent_datagrams E1 path now w d') s)
    ∧ zlen d' = 27 + zlen body
    ∧ ∀ before last s2 st,
        Forall (carries d') before → carries d' last → last.1 ∉ before.*1 → (∀ i, Z.of_nat i < pieces (zlen d') → i ∈ last.1 :: before.*1) →
        queue_ok (rxQueue s2) → idle (be_val (take 8 d')) (rxQueue s2) → stack_ok st →
        ∃ s3 s4 p b d2, receive Cipher' Auth' E2 before.*2 s2 = Ok s3
          ∧ world s3 = foldl (λ w ev, noted E2 ev w) (world s2) before.*2
          ∧ deliver Cipher' Auth' E2 last.2 s3 = Ok s4
          ∧ decoded E2 d' (be_val (take 8 d')) p (noted E2 last.2 (world s3)) s4
          ∧ dearmor Cipher' Auth' st (peer_key W1 Peer1 Path1 E1 peer) (ip_packet p) = Ok (Ret true, b)
          ∧ holds b d2 ∧ drop 27 d2 = body.
Proof.
  intros HC HC' HA HA' [Hm1 Hst1] [Hm2 _] Hp Hok Hdl Hself Hoth Hs0 Hlen Hk Htr.
  pose proof (transmit_spec Cipher Auth HC HA E1 Hm1 Hst1 peer path now packet enc i7 x _ f mac body s Hp Hok Hk Htr) as Ht.
  destruct (nextOutgoingCounter W1 Peer1 Path1 E1 path (world s)) as [counter w]. cbv zeta in Ht.
  rewrite (proj2 (Z.ltb_lt _ _)) in Ht by lia. set (addrs := dst ++ s0 :: src4) in *. set (iv := stamped i7 x counter) in *.
  set (f' := cipher_flags _ _) in *. set (mk := mangled _ _ _ _ _) in *. set (body' := sealed enc mk iv body) in *.
  set (d' := pkt iv addrs f' (tag mk iv body') body') in *. destruct Ht as (packet' & Et & Hp').
  assert (pkt_ok iv addrs (tag mk iv body')) as Hok'.
  { destruct Hok as [Hi Ha _]. split; [|done|apply zlen_tag]. unfold iv, stamped. rewrite zlen_app in Hi |- *. exact Hi. }
  assert (zlen body' = zlen body) as Hbl by apply zlen_sealed.
  assert (zlen d' = 27 + zlen body) as Hdl' by (unfold d'; rewrite zlen_pkt by done; lia).
  exists packet', d', w. split; [exact Et|]. split; [done|]. intros before last s2 st Hbef Hlast Hnin Hcov Hq Hid Hst.
  assert (d' = iv ++ dst ++ (s0 :: src4) ++ f' :: (tag mk iv body' ++ body')) as Ed.
  { unfold d', pkt, addrs. by rewrite <- app_assoc. }
  assert (take 8 d' = iv) as Eiv.
  { rewrite Ed. apply take_app_length'. pose proof (ok_iv _ _ _ Hok') as H8. unfold zlen in H8. lia. }
  assert (packet_for (self W2 Peer2 Path2 E2) iv dst src4 (tag mk iv body' ++ body') s0 f') as Hpf.
  { split; try done.
    - apply Hok'.
    - pose proof (ok_addrs _ _ _ Hok') as Ha. unfold addrs in Ha. rewrite zlen_app, zlen_cons in Ha. lia.
    - rewrite <- Ed. exact (holds_ok _ _ Hp').
    - rewrite <- Ed, Hdl'. change C with 5776. lia.
    - apply fragmented_flag. exact (holds_flag _ _ _ _ _ _ Hp). }
  rewrite Eiv in *. rewrite Ed in Hbef, Hlast, Hcov.
  assert (pieces (zlen (iv ++ dst ++ (s0 :: src4) ++ f' :: (tag mk iv body' ++ body'))) <= ZT_MAX_PACKET_FRAGMENTS) as Hn4
    by (rewrite <- Ed, Hdl'; apply pieces_4; lia).
  destruct (receive_all Cipher' Auth' E2 Hm2 iv dst src4 _ s0 f' Hpf Hn4 before last s2 Hbef Hlast Hnin Hcov Hq Hid)
    as (s3 & s4 & p & E3 & Ew & E4 & Hdec).
  rewrite <- Ed in Hdec.
  pose proof (dearmor_holds Cipher' Auth' HC' HA' st _ (ip_packet p) _ _ _ _ _ (proj1 Hdec) Hok' Hk Hst) as Hde. cbv zeta in Hde.
  rewrite Hbl in Hde. fold mk in Hde. rewrite bool_decide_eq_true_2, andb_true_r in Hde by done.
  assert (cipher_of f' = if enc then 1 else 0) as Hcs.
  { unfold f'. apply cipher_flags_cipher; [by destruct enc|]. by apply (wrap_range 8). }
  rewrite Hcs in Hde. replace (((if enc then 1 else 0) =? 0) || ((if enc then 1 else 0) =? 1)) with true in Hde by (by destruct enc).
  replace ((if enc then 1 else 0) =? 1) with enc in Hde by (by destruct enc).
  destruct Hde as (b & Eb & Hb). unfold body' in Hb at 2. rewrite sealed_twice in Hb.
  eexists s3, s4, p, b, _. split_and!; [exact E3|exact Ew|exact E4|exact Hdec|exact Eb|exact Hb|by apply pkt_drop_body].
Qed.


(** ** A concrete environment *)

(** The world is the list of what was sent or decoded; the peers in [known] are known, and every packet decodes. *)
Definition demo_for (known : Z → bool) (me : Z) : Env (list bytes) unit unit :=
  Build_Env _ _ _ me (λ _ _ _, true) (λ w, (0, w)) (λ w, (memset 8 0, w)) (λ _, zero_stack) (λ _, memset C 0)
    (λ _, true) (λ _ _ w, (tt, w)) (λ a w, (if known a then Some tt else None, w)) (λ _ _ w, (Some tt, w)) (λ _ _, 0)
    (λ _ _ w, w) (λ _ d _ w, (true, d :: w)) (λ _ _ _, true) (λ _ w, (5, w))
    (λ _, 1) (λ _, memset 32 0) (λ _ d _ _ w, (true, d :: w)) (λ _ _ _, (memset 128 0, memset 128 0))
    (λ p w, (true, p, _b (ip_packet p) :: w)) (λ b _ w, _b b :: w).

Definition demo : Z → Env (list bytes) unit unit := demo_for (λ _, true).

Definition demo_state : state (list bytes) unit :=
  let b := Buf 0 (memset C 0) in
  Switch 0 (replicate ZT_RX_QUEUE_SIZE (RX 0 0 (Incoming b 0 None) (replicate 3 b) 0 0 false)) ∅ [].

(** A buffer that holds [d]. *)
Definition padded (d : bytes) : Buffer.t := Buf (zlen d) (d ++ memset (C - zlen d) 0).

Lemma padded_holds d : bytes_ok d → zlen d <= C → holds (padded d) d.
Proof.
  intros Hd Hl. split; [|apply Forall_app_2; [done|by apply Forall_replicate]]. exists (memset (C - zlen d) 0).
  split_and!; [done|done|]. rewrite zlen_memset; lia.
Qed.

Lemma demo_memory known me : memory_ok (demo_for known me).
Proof.
  split; intros w; [|exact zero_stack_ok]. change (memory_of _ _ _ (demo_for known me) w) with (memset C 0).
  split; [by apply Forall_replicate|by apply zlen_memset].
Qed.

Lemma demo_queue : queue_ok (rxQueue demo_state).
Proof.
  split; [done|]. apply Forall_replicate. assert (buffer_ok (Buf 0 (memset C 0))) as Hb by (exists []; apply (padded_holds []); [constructor|done]).
  split; [done|split; [done|by apply Forall_replicate]|done].
Qed.

Lemma demo_idle id : idle id (rxQueue demo_state).
Proof. intros j e He [_ Ht]. apply Ht. apply lookup_replicate in He as [-> _]. done. Qed.

(** 2027 bytes from the node 0x0001010101 to the node 0x0909090909. *)
Definition demo_packet : bytes := pkt (memset 7 0 ++ [0]) (memset 5 9 ++ 0 :: memset 4 1) 0 (memset 8 0) (memset 2000 0).

Lemma fragmented_delivery_witness :
  ∃ packet' d' w s3 s4,
    transmit sse poly64 (demo 0x0001010101) tt tt 7 (padded demo_packet) true demo_state
    = Ok (Ret packet', with_world (sent_datagrams (demo 0x0001010101) tt 7 w d') demo_state)
    ∧ receive scalar (poly32 32) (demo 0x0909090909) [Event [] [] 8 (wire d' 1 0); Event [] [] 9 (wire d' 1 3)] demo_state = Ok s3
    ∧ deliver scalar (poly32 32) (demo 0x0909090909) (Event [] [] 10 (take 1444 d')) s3 = Ok s4.
Proof.
  destruct (fragmented_delivery sse scalar poly64 (poly32 32) (demo 0x0001010101) (demo 0x0909090909) tt tt 7 (padded demo_packet) true
    (memset 7 0) (memset 5 9) (memset 4 1) (memset 8 0) (memset 2000 0) 0 0 0 demo_state
    sse_cipher scalar_cipher poly64_authenticator (poly32_authenticator 32 (or_introl eq_refl)) (demo_memory _ _) (demo_memory _ _))
    as (packet' & d' & w & Et & Hl & Hr).
  - apply padded_holds; [|by vm_compute]. bytes_compute.
  - by split.
  - done.
  - done.
  - done.
  - done.
  - by vm_compute.
  - exact zero_key_ok.
  - done.
  - change (27 + zlen (memset 2000 0)) with 2027 in Hl.
    assert (pieces (zlen d') = 2) as Hp by (by rewrite Hl).
    destruct (Hr [(1%nat, Event [] [] 8 (wire d' 1 0)); (1%nat, Event [] [] 9 (wire d' 1 3))] (0%nat, Event [] [] 10 (take 1444 d')) demo_state zero_stack)
      as (s3 & s4 & _ & _ & _ & E3 & _ & E4 & _).
    + repeat constructor; cbn; rewrite ?Hp; done.
    + repeat constructor; done.
    + cbn [fmap list_fmap fst]. rewrite !not_elem_of_cons. split_and!; [done|done|apply not_elem_of_nil].
    + intros i. rewrite Hp. cbn [fmap list_fmap fst]. rewrite !elem_of_cons. lia.
    + exact demo_queue.
    + apply demo_idle.
    + exact zero_stack_ok.
    + exact (ex_intro _ packet' (ex_intro _ d' (ex_intro _ w (ex_intro _ s3 (ex_intro _ s4 (conj Et (conj E3 E4))))))).
Defined.


