(* ===== verification/SwitchSafe.v ===== *)
(** * Type safety of the switch

    Every datagram from the network is handled without undefined behaviour: no access outside
    of a buffer, of the fragments of an entry or of the queue, whatever the bytes are.  The
    theorem is against the contract [env_ok] of the rest of the node: an invariant [I] of its state
    that each operation keeps when the switch calls it with well-formed arguments.  The proofs
    compose two judgements: [msafe] for methods of a buffer and [sw_safe] for handlers. *)

From Stdlib Require Import ZArith Lia.
From stdpp Require Import base numbers list option gmap.
From S2P Require Import Prelude Words Utils Addr Buffer Wire Poly1305 Salsa20 Packet Switch Reassembly.
Open Scope Z_scope.

(** ** Methods of a buffer *)

Lemma buffer_ok_iff b : buffer_ok b ↔ 0 <= _l b <= C ∧ zlen (_b b) = C ∧ bytes_ok (_b b).
Proof.
  split.
  - intros (d & Hr & Hok). destruct (repr_bounds C _ _ Hr) as (El & Hd & Hb). rewrite El. done.
  - intros (Hl & Hb & Hok). destruct (bytes_split (_l b) (_b b)) as (d & r & E & Hd); [lia|].
    exists d. split; [|done]. exists r. rewrite E, zlen_app in Hb. split_and!; [done|lia|lia].
Qed.

(** [m] is defined on every well-formed buffer and keeps it well-formed; [Q] holds of the result. *)
Definition msafe {A} (m : meth A) (Q : A → Prop) : Prop :=
  ∀ b, buffer_ok b → ∃ o b', m b = Ok (o, b') ∧ buffer_ok b' ∧ match o with Ret a => Q a | OutOfRange => True end.

Create HintDb msafe discriminated.

Section methods.
Context {A B : Type}.

Lemma msafe_ret (a : A) (Q : A → Prop) : Q a → msafe (mret a) Q.
Proof. intros HQ b Hb. by exists (Ret a), b. Qed.

Lemma msafe_bind (m : meth A) (f : A → meth B) P Q :
  msafe m P → (∀ a, P a → msafe (f a) Q) → msafe (m ≫= f) Q.
Proof.
  intros Hm Hf b Hb. destruct (Hm b Hb) as (o & b' & E & Hb' & HP). unfold mbind, meth_bind. rewrite E.
  destruct o as [a|]; [by apply (Hf a)|by exists OutOfRange, b'].
Qed.

Lemma msafe_weaken (m : meth A) (P Q : A → Prop) : msafe m P → (∀ a, P a → Q a) → msafe m Q.
Proof. intros Hm HPQ b Hb. destruct (Hm b Hb) as (o & b' & E & Hb' & HP). exists o, b'. split; [done|]. split; [done|]. destruct o as [a|]; [by apply HPQ|done]. Qed.

Lemma msafe_lift (r : cres A) a (Q : A → Prop) : r = Ok a → Q a → msafe (lift_meth r) Q.
Proof. intros -> HQ b Hb. by exists (Ret a), b. Qed.
End methods.

Lemma msafe_write b off x m : buffer_ok b → bytes_ok x → mem_write off x (_b b) = Ok m → ∀ l, 0 <= l <= C → buffer_ok (Buf l m).
Proof.
  intros (_ & Hl & Hok)%buffer_ok_iff Hx E l Hl'. apply buffer_ok_iff. cbn [_l _b]. split; [done|]. split; [|exact (mem_write_bytes_ok _ _ _ _ Hok Hx E)].
  apply mem_write_inv in E as (H0 & H1 & ->). rewrite !zlen_app, zlen_take, zlen_drop by (pose proof (zlen_nonneg x); lia). lia.
Qed.

Lemma msafe_index i : 0 <= i → msafe (index i) byte_ok.
Proof.
  intros Hi b Hb. destruct (proj1 (buffer_ok_iff b) Hb) as (Hl & Hm & Hok). unfold index.
  destruct (Z.leb_spec (_l b) i); [by exists OutOfRange, b|]. rewrite mem_read_ok by lia. eexists (Ret _), b. split; [done|]. split; [done|].
  set (x := take _ _). assert (bytes_ok x) as Hx by (by apply Forall_take, Forall_drop).
  assert (zlen x = 1) as Hx1 by (unfold x; rewrite zlen_take; [done|rewrite zlen_drop; lia]).
  destruct x as [|v [|]]; unfold zlen in Hx1; cbn in Hx1; try lia. rewrite be_val_single. by apply list.Forall_cons in Hx as [? _].
Qed.

Lemma msafe_index_set i v : 0 <= i → byte_ok v → msafe (index_set i v) (λ _, True).
Proof.
  intros Hi Hv b Hb. destruct (proj1 (buffer_ok_iff b) Hb) as (Hl & Hm & Hok). unfold index_set.
  destruct (Z.leb_spec (_l b) i); [by exists OutOfRange, b|].
  destruct (mem_write i [v] (_b b)) as [m|u] eqn:E.
  - exists (Ret tt), (Buf (_l b) m). split; [done|]. split; [|done]. refine (msafe_write b _ [v] m Hb _ E _ _); [by constructor|done].
  - rewrite mem_write_ok in E; [done|lia|change (zlen [v]) with 1; lia].
Qed.

Lemma msafe_index_mod i f : 0 <= i → msafe (index_mod i f) (λ _, True).
Proof.
  intros Hi. eapply msafe_bind; [by apply msafe_index|]. intros v _. apply msafe_index_set; [done|]. by apply (wrap_range 8).
Qed.

Lemma msafe_at n i : 0 <= i < 2 ^ 32 → (n <= 8)%nat → msafe (at_ n i) (λ _, True).
Proof.
  intros Hi Hn b Hb. destruct (proj1 (buffer_ok_iff b) Hb) as (Hl & Hm & Hok). unfold at_. rewrite u64_small by lia.
  destruct (Z.ltb_spec (_l b) (i + Z.of_nat n)); [by exists OutOfRange, b|]. rewrite mem_read_ok by lia. by eexists (Ret _), b.
Qed.

Lemma msafe_field_read i l : 0 <= i → 0 <= l → uint (i + l) → msafe (field_read i l) (λ x, bytes_ok x ∧ zlen x = l).
Proof.
  intros Hi Hl0 Hil b Hb. destruct (proj1 (buffer_ok_iff b) Hb) as (Hl & Hm & Hok). unfold field_read, field, mbind, meth_bind. rewrite u32_small by done.
  destruct (Z.ltb_spec (_l b) (i + l)); [by exists OutOfRange, b|]. cbn [done_]. unfold raw_read. rewrite mem_read_ok by lia.
  eexists (Ret _), b. split; [done|]. split; [done|]. split; [by apply Forall_take, Forall_drop|]. rewrite zlen_take; [done|]. rewrite zlen_drop; lia.
Qed.

Lemma msafe_copyFrom x : bytes_ok x → msafe (copyFrom C x (zlen x)) (λ _, True).
Proof.
  intros Hx b [d Hb]. destruct (Z.leb_spec (zlen x) C) as [Hl|Hl].
  - destruct (copyFrom_holds b d x Hb Hx Hl) as (b' & E & Hb'). exists (Ret tt), b'. split; [done|]. split; [by exists x|done].
  - exists OutOfRange, b. unfold copyFrom. rewrite (proj2 (Z.ltb_lt _ _)) by done. split; [done|]. split; [by exists d|done].
Qed.

Lemma msafe_assign o : buffer_ok o → msafe (assign C o) (λ _, True).
Proof.
  intros [x Ho] b [d Hb]. destruct (assign_holds b d o x Hb Ho) as (b' & E & Hb'). exists (Ret tt), b'. split; [done|]. split; [by exists x|done].
Qed.

Lemma msafe_append x n : bytes_ok x → 0 <= n <= zlen x → n <= C → msafe (append C x n) (λ _, True).
Proof.
  intros Hx Hn HnC b Hb. destruct (proj1 (buffer_ok_iff b) Hb) as (Hl & Hm & Hok). assert (C = 5776) as HC5 by done.
  unfold append. rewrite u32_small by (unfold uint; lia). destruct (Z.ltb_spec C (_l b + n)); [by exists OutOfRange, b|].
  unfold mem_copy. rewrite mem_read_ok by lia. cbn [mbind cres_bind]. set (y := take _ _).
  assert (zlen y = n) as Hy by (unfold y; rewrite zlen_take; [done|]; rewrite zlen_drop; lia).
  destruct (mem_write (_l b) y (_b b)) as [m|u] eqn:E.
  - eexists (Ret tt), _. split; [done|]. split; [|done]. refine (msafe_write b _ y m Hb _ E _ _); [by apply Forall_take, Forall_drop|lia].
  - rewrite mem_write_ok in E; [done|lia|lia].
Qed.

Lemma msafe_append_int n v : (n <= 8)%nat → msafe (append_int C n v) (λ _, True).
Proof.
  intros Hn b Hb. destruct (msafe_append (be_bytes n v) (Z.of_nat n)) with (b := b) as (o & b' & E & Hb' & HQ); try done.
  - apply be_bytes_ok.
  - unfold zlen. rewrite length_be_bytes. lia.
  - assert (C = 5776) as HC5 by done. lia.
  - exists o, b'. split; [|done]. destruct (proj1 (buffer_ok_iff b) Hb) as (Hl & _). assert (C = 5776) as HC5 by done.
    unfold append_int. unfold append in E. rewrite u32_small in E by (unfold uint; lia). rewrite u64_small by lia.
    destruct (C <? _); [done|]. unfold mem_copy in E. rewrite mem_read_ok in E by (unfold zlen; rewrite ?length_be_bytes; lia).
    rewrite drop_0, take_ge in E by (rewrite length_be_bytes; lia). cbn [mbind cres_bind] in E. rewrite u32_small by (unfold uint; lia). exact E.
Qed.

Lemma msafe_appendTo a : msafe (AddressWire.appendTo C a) (λ _, True).
Proof.
  intros b Hb. destruct (proj1 (buffer_ok_iff b) Hb) as (Hl & Hm & Hok). assert (C = 5776) as HC5 by done.
  unfold AddressWire.appendTo, append_through, appendField. rewrite address_octets_bytes.
  assert (zlen (be_bytes 5 a) = 5) as H5 by (unfold zlen; by rewrite length_be_bytes). rewrite H5, u32_small by (unfold uint; lia).
  destruct (Z.ltb_spec C (_l b + 5)); [by exists OutOfRange, b|]. cbn [done_ _b _l].
  destruct (mem_write (_l b) (be_bytes 5 a) (_b b)) as [m|u] eqn:E.
  - eexists (Ret tt), _. split; [done|]. split; [|done]. refine (msafe_write b _ _ m Hb (be_bytes_ok _ _) E _ _). lia.
  - rewrite mem_write_ok in E; [done|lia|lia].
Qed.

(** ** The contract of the environment *)

(** An address of a peer: none, IPv4 or IPv6. *)
Definition hint_ok (a : bytes) : Prop :=
  inet_ok a ∧ (InetAddress.ss_family a = 0 ∨ InetAddress.isV4 a = true ∨ InetAddress.isV6 a = true).

Record env_ok {W Peer Path} (E : Env W Peer Path) (I : W → Prop) : Prop := {
  eo_memory : memory_ok E;
  eo_random w : I w → (bytes_ok (getSecureRandom W Peer Path E w).1 ∧ zlen (getSecureRandom W Peer Path E w).1 = 8)
                      ∧ I (getSecureRandom W Peer Path E w).2;
  eo_prng w : I w → I (prng W Peer Path E w).2;
  eo_getPath a b w : I w → I (getPath W Peer Path E a b w).2;
  eo_getPeer z w : I w → I (getPeer W Peer Path E z w).2;
  eo_getUpstreamPeer l b w : I w → I (getUpstreamPeer W Peer Path E l b w).2;
  eo_counter p w : I w → I (nextOutgoingCounter W Peer Path E p w).2;
  eo_received p now w : I w → I (path_received W Peer Path E p now w);
  eo_path_send p d now w : bytes_ok d → zlen d <= C → I w → I (path_send W Peer Path E p d now w).2;
  eo_sendDirect p d now force w : bytes_ok d → zlen d <= C → I w → I (sendDirect W Peer Path E p d now force w).2;
  eo_send b enc w : buffer_ok b → I w → I (send W Peer Path E b enc w);
  eo_key p : key_ok (peer_key W Peer Path E p);
  eo_rendezvous p now w : I w → hint_ok (getRendezvousAddresses W Peer Path E p now w).1
                                ∧ hint_ok (getRendezvousAddresses W Peer Path E p now w).2;
  eo_tryDecode p w : buffer_ok (ip_packet p) → I w →
    buffer_ok (ip_packet (tryDecode W Peer Path E p w).1.2) ∧ I (tryDecode W Peer Path E p w).2;
}.

(** ** Handlers *)

Section safety.
Context {L L' : Type} (Cipher : Salsa) (Auth : Poly L L') (HC : StreamCipher Cipher) (HA : Authenticator Auth).
Context {W Peer Path : Type} (E : Env W Peer Path) (I : W → Prop) (HE : env_ok E I).
Local Abbreviation M := (sw W Path).

(** The queue is well-formed, and the pairs of addresses under which the last attempts to
    unite two nodes are recorded are in order. *)
Definition sw_ok (s : state W Path) : Prop :=
  queue_ok (rxQueue s) ∧ map_Forall (λ k _, k.1 <= k.2) (lastUniteAttempt s) ∧ I (world s).

(** [m] is defined and keeps the switch well-formed; [Q] holds of its result, [T] when it throws. *)
Definition sw_hoare {A} (T : Prop) (m : M A) (Q : A → Prop) : Prop :=
  ∀ s, sw_ok s → ∃ o s', m s = Ok (o, s') ∧ sw_ok s' ∧ match o with Ret a => Q a | OutOfRange => T end.
Local Abbreviation sw_safe := (sw_hoare True).

Lemma sw_safe_ret {A} {T} (a : A) (Q : A → Prop) : Q a → sw_hoare T (mret a) Q.
Proof. intros HQ s Hs. by exists (Ret a), s. Qed.

Lemma sw_safe_bind {A B} {T} (m : M A) (f : A → M B) P Q : sw_hoare T m P → (∀ a, P a → sw_hoare T (f a) Q) → sw_hoare T (m ≫= f) Q.
Proof.
  intros Hm Hf s Hs. destruct (Hm s Hs) as (o & s' & Em & Hs' & HP). unfold mbind, sw_bind. rewrite Em.
  destruct o as [a|]; [by apply (Hf a)|by exists OutOfRange, s'].
Qed.

Lemma sw_safe_lift {A} {T} (r : cres A) (Q : A → Prop) : (∃ a, r = Ok a ∧ Q a) → sw_hoare T (sw_lift r) Q.
Proof. intros (a & -> & HQ) s Hs. by exists (Ret a), s. Qed.

Lemma sw_safe_ask {A} {T} (f : W → A) (Q : A → Prop) : (∀ w, I w → Q (f w)) → sw_hoare T (ask f) Q.
Proof. intros HQ s Hs. exists (Ret (f (world s))), s. split; [done|]. split; [done|]. by apply HQ, Hs. Qed.

Lemma sw_safe_call {A} {T} (f : W → A * W) (Q : A → Prop) : (∀ w, I w → Q (f w).1 ∧ I (f w).2) → sw_hoare T (call f) Q.
Proof.
  intros HQ s (Hq & Hu & Hw). unfold call. specialize (HQ _ Hw). destruct (f (world s)) as [a w]. destruct HQ as [HQ Hw'].
  eexists (Ret a), _. split; [done|]. split; [|done]. by split.
Qed.

Lemma sw_safe_call_any {A} {T} (f : W → A * W) : (∀ w, I w → I (f w).2) → sw_hoare T (call f) (λ _, True).
Proof. intros Hf. apply sw_safe_call. intros w Hw. split; [done|by apply Hf]. Qed.

Lemma sw_safe_on {A} b (m : meth A) (Q : A → Prop) : buffer_ok b → msafe m Q → sw_safe (on b m) (λ x, Q x.1 ∧ buffer_ok x.2).
Proof.
  intros Hb Hm s Hs. destruct (Hm b Hb) as (o & b' & Em & Hb' & HQ). unfold on. rewrite Em. cbn [mbind cres_bind].
  destruct o as [a|]; [by exists (Ret (a, b')), s|by exists OutOfRange, s].
Qed.

Lemma sw_safe_on_ret {A} {T} b (m : meth A) a b' (Q : A * Buffer.t → Prop) : m b = Ok (Ret a, b') → Q (a, b') → sw_hoare T (on b m) Q.
Proof. intros Em HQ s Hs. exists (Ret (a, b')), s. by rewrite (on_ret _ _ _ _ _ Em). Qed.

Lemma sw_safe_get {T} i : (i < ZT_RX_QUEUE_SIZE)%nat → sw_hoare T (get_entry i) entry_ok.
Proof.
  intros Hi s Hs. destruct Hs as [[Hl Hq] Ho] eqn:Es. destruct (lookup_lt_is_Some_2 (rxQueue s) i ltac:(lia)) as [e He].
  exists (Ret e), s. split; [unfold get_entry; by rewrite He|]. split; [done|]. by eapply Forall_lookup_1.
Qed.

Lemma sw_safe_set {T} i e : entry_ok e → sw_hoare T (set_entry i e) (λ _, True).
Proof.
  intros He s (Hq & Hu & Hw). eexists (Ret tt), _. split; [done|]. split; [|done]. split; [by apply queue_ok_insert|done].
Qed.

Lemma sw_safe_find now id : sw_safe (findRXQueueEntry now id) (λ k, (k < ZT_RX_QUEUE_SIZE)%nat).
Proof.
  intros s (Hq & Hu & Hw). unfold findRXQueueEntry.
  destruct (find_loop now id ZT_RX_QUEUE_SIZE (ZT_RX_QUEUE_SIZE - 1) (rxQueue s)) as [k q] eqn:Ef.
  destruct (find_loop_queue s now id k q (proj1 Hq) Ef) as (Hfr & Hk & _). rewrite (proj1 Hq) in Hk.
  eexists (Ret k), _. split; [done|]. split; [|done]. split; [by apply (freed_ok _ _ Hfr)|done].
Qed.

Lemma memory_buffer w : buffer_ok (Buf 0 (memory_of W Peer Path E w)).
Proof. apply buffer_ok_iff. cbn [_l _b]. by destruct (mo_memory _ (eo_memory _ _ HE) w). Qed.

Lemma sw_safe_new_buffer d : bytes_ok d → sw_safe (new_buffer E d) (λ b, buffer_ok b).
Proof.
  intros Hd. eapply sw_safe_bind; [apply (sw_safe_ask _ (λ m, buffer_ok (Buf 0 m))); intros w _; apply memory_buffer|]. intros m Hm. cbn beta.
  eapply sw_safe_bind; [by apply sw_safe_on; [|by apply msafe_copyFrom]|]. intros [? b] [_ Hb]. by apply sw_safe_ret.
Qed.

Lemma sw_safe_contents {T} b : buffer_ok b → sw_hoare T (contents b) (λ d, bytes_ok d ∧ zlen d <= C).
Proof.
  intros (Hl & Hm & Hok)%buffer_ok_iff. apply sw_safe_lift. rewrite mem_read_ok, drop_0 by lia. eexists. split; [done|].
  split; [by apply Forall_take|]. rewrite zlen_take by lia. lia.
Qed.

(** A new packet has a header and a verb. *)
Lemma sw_safe_new_packet {T} dest src v : byte_ok v →
  sw_hoare T (new_packet E dest src v)
    (λ b, ∃ iv mac, holds b (pkt iv (be_bytes 5 dest ++ be_bytes 5 src) 0 mac [v]) ∧ pkt_ok iv (be_bytes 5 dest ++ be_bytes 5 src) mac).
Proof.
  intros Hv. eapply sw_safe_bind; [apply (sw_safe_ask _ (λ m, buffer_ok (Buf 0 m))); intros w _; apply memory_buffer|]. intros m [d Hm]. cbn beta.
  eapply sw_safe_bind; [apply (sw_safe_call _ (λ x, bytes_ok x ∧ zlen x = 8)), (eo_random _ _ HE)|]. intros rnd [Hr Hl]. cbn beta.
  destruct (reset_holds _ _ rnd dest src v Hm Hl Hr Hv) as (b & mac & Eb & Hb & Hok).
  eapply sw_safe_bind; [by apply (sw_safe_on_ret _ _ _ _ (λ x, x.2 = b) Eb)|]. intros [? b'] Hb'. cbn in Hb'. subst b'.
  apply sw_safe_ret. by exists rnd, mac.
Qed.

(** ** The receive queue *)

Lemma sw_safe_init_head i data path now : (i < ZT_RX_QUEUE_SIZE)%nat → bytes_ok data → sw_safe (init_head i data path now) (λ _, True).
Proof.
  intros Hi Hd. eapply sw_safe_bind; [by apply sw_safe_get|]. intros e He.
  eapply sw_safe_bind; [apply sw_safe_on; [apply He|by apply msafe_copyFrom]|]. intros [? b] [_ Hb]. apply sw_safe_set. by destruct He.
Qed.

Lemma sw_safe_assign_frag i n b : (i < ZT_RX_QUEUE_SIZE)%nat → (n < 3)%nat → buffer_ok b → sw_safe (assign_frag i n b) (λ _, True).
Proof.
  intros Hi Hn Hb. eapply sw_safe_bind; [by apply sw_safe_get|]. intros e He. destruct (ok_frags e He) as [Hl Hf].
  destruct (lookup_lt_is_Some_2 (frags e) n ltac:(lia)) as [old Ho]. rewrite Ho.
  eapply sw_safe_bind; [apply sw_safe_on; [by eapply Forall_lookup_1|by apply msafe_assign]|]. intros [? b'] [_ Hb']. apply sw_safe_set.
  destruct He. split; [done| |done]. cbn [frags]. split; [by rewrite length_insert|by apply Forall_insert].
Qed.

(** The payload of a fragment is inside of its array. *)
Lemma msafe_fragment_payload b : buffer_ok b →
  ∃ n, Fragment.payload b = Ok (Ret 16, b) ∧ Fragment.payloadLength b = Ok (Ret n, b) ∧ 0 <= n <= zlen (drop 16 (_b b)) ∧ n <= C.
Proof.
  intros (Hl & Hm & Hok)%buffer_ok_iff. assert (C = 5776) as HC5 by done. unfold Fragment.payload, Fragment.payloadLength, ZT_PACKET_FRAGMENT_IDX_PAYLOAD.
  eexists. split; [|split; [reflexivity|]].
  - unfold mbind, meth_bind, size, done_, field. replace (u32 (16 + u32 (_l b - 16))) with (_l b); [by rewrite Z.ltb_irrefl|].
    unfold u32, wrap. rewrite Zplus_mod_idemp_r. replace (16 + (_l b - 16)) with (_l b) by lia. symmetry. apply Z.mod_small. lia.
  - rewrite (zlen_drop 16) by lia. destruct (Z.ltb_spec 16 (_l b)); lia.
Qed.

Lemma sw_safe_append_frags i fs : (i < ZT_RX_QUEUE_SIZE)%nat → Forall (λ f, f < 3)%nat fs → sw_safe (append_frags i fs) (λ _, True).
Proof.
  intros Hi Hfs. induction Hfs as [|f fs Hf Hfs IH]; [by apply sw_safe_ret|]. cbn [append_frags].
  eapply sw_safe_bind; [by apply sw_safe_get|]. intros e He. destruct (ok_frags e He) as [Hl Hfr].
  destruct (lookup_lt_is_Some_2 (frags e) f ltac:(lia)) as [fr Ho]. rewrite Ho.
  assert (buffer_ok fr) as Hb by (by eapply Forall_lookup_1). destruct (msafe_fragment_payload fr Hb) as (n & E1 & E2 & Hn & HnC).
  eapply sw_safe_bind; [by apply (sw_safe_on_ret _ _ _ _ (λ x, x.1 = 16) E1)|]. intros [off ?] Hoff. cbn in Hoff. subst off.
  eapply sw_safe_bind; [by apply (sw_safe_on_ret _ _ _ _ (λ x, x.1 = n) E2)|]. intros [n' ?] Hn'. cbn in Hn'. subst n'.
  eapply sw_safe_bind.
  { apply sw_safe_on; [apply He|]. apply msafe_append; [|done|done]. apply Forall_drop. by apply buffer_ok_iff in Hb as (_ & _ & ?). }
  intros [? b] [_ Hb']. eapply sw_safe_bind; [apply sw_safe_set; by destruct He|]. intros _ _. exact IH.
Qed.

Lemma sw_safe_decode {T} p : buffer_ok (ip_packet p) →
  sw_hoare T (call (λ w, let '(ok, p, w) := tryDecode W Peer Path E p w in ((ok, p), w))) (λ x, buffer_ok (ip_packet x.2)).
Proof.
  intros Hp. apply sw_safe_call. intros w Hw. pose proof (eo_tryDecode _ _ HE p w Hp Hw) as H.
  destruct (tryDecode W Peer Path E p w) as [[ok p'] w']. exact H.
Qed.

Lemma sw_safe_assemble i total : (i < ZT_RX_QUEUE_SIZE)%nat → total <= ZT_MAX_PACKET_FRAGMENTS → sw_safe (assemble E i total) (λ _, True).
Proof.
  intros Hi Ht. unfold ZT_MAX_PACKET_FRAGMENTS in Ht. eapply sw_safe_bind.
  { apply sw_safe_append_frags; [done|]. apply Forall_seq. intros j Hj. lia. }
  intros _ _. eapply sw_safe_bind; [by apply sw_safe_get|]. intros e He.
  eapply sw_safe_bind; [apply sw_safe_decode, He|]. intros [ok p] Hp. cbn in Hp. apply sw_safe_set. by destruct He, ok.
Qed.

(** ** Fragments *)

Lemma msafe_fragment_destination : msafe Fragment.destination (λ _, True).
Proof.
  eapply msafe_bind; [by apply msafe_field_read|]. intros d [_ Hl]. destruct (address_setTo_defined d Hl) as [a Ha]. by eapply msafe_lift.
Qed.

Lemma msafe_fragment_numbers :
  msafe Fragment.fragmentNumber (λ _, True) ∧ msafe Fragment.totalFragments (λ _, True).
Proof. split; (eapply msafe_bind; [by apply msafe_index|]); intros v Hv; by apply msafe_ret. Qed.

Lemma sw_safe_sendDirect p d now force : bytes_ok d ∧ zlen d <= C → sw_safe (call (sendDirect W Peer Path E p d now force)) (λ _, True).
Proof. intros [Hd Hl]. apply sw_safe_call_any. intros w Hw. by apply (eo_sendDirect _ _ HE). Qed.

(** Sending to a peer that may not be there, directly or upstream. *)
Lemma sw_safe_try_direct (o : option Peer) d now force : bytes_ok d ∧ zlen d <= C →
  sw_safe (match o with Some p => call (sendDirect W Peer Path E p d now force) | None => mret false end) (λ _, True).
Proof. intros Hd. destruct o; [by apply sw_safe_sendDirect|by apply sw_safe_ret]. Qed.

Lemma sw_safe_upstream l b d now : bytes_ok d ∧ zlen d <= C →
  sw_safe (relayTo ← call (getUpstreamPeer W Peer Path E l b);
           match relayTo with
           | Some p => _ ← call (sendDirect W Peer Path E p d now true); mret tt
           | None => mret tt
           end) (λ _, True).
Proof.
  intros Hd. eapply sw_safe_bind; [apply sw_safe_call_any; intros w; apply (eo_getUpstreamPeer _ _ HE)|]. intros [p|] _; [|by apply sw_safe_ret].
  eapply sw_safe_bind; [by apply sw_safe_sendDirect|]. intros _ _. by apply sw_safe_ret.
Qed.

Lemma sw_safe_relay_fragment path now b destination : buffer_ok b → sw_safe (relay_fragment E path now b destination) (λ _, True).
Proof.
  intros Hb. eapply sw_safe_bind; [by apply (sw_safe_ask _ (λ _, True))|]. intros root _.
  eapply sw_safe_bind; [by apply (sw_safe_ask _ (λ _, True))|]. intros trust _. cbn beta. destruct (negb root && negb trust); [by apply sw_safe_ret|].
  eapply sw_safe_bind; [by apply sw_safe_on; [|by apply msafe_index]|]. intros [h b1] [_ Hb1]. cbn beta iota.
  destruct (h <? ZT_RELAY_MAX_HOPS); [|by apply sw_safe_ret].
  eapply sw_safe_bind; [by apply sw_safe_on; [|by apply msafe_index_mod]|]. intros [? b2] [_ Hb2].
  eapply sw_safe_bind; [by apply sw_safe_contents|]. intros d Hd.
  eapply sw_safe_bind; [apply sw_safe_call_any; intros w; apply (eo_getPeer _ _ HE)|]. intros relayTo _.
  eapply sw_safe_bind; [by apply sw_safe_try_direct|]. intros [] _; [by apply sw_safe_ret|]. by apply sw_safe_upstream.
Qed.

Lemma sw_safe_store_fragment now id no total b : 0 < no < ZT_MAX_PACKET_FRAGMENTS → 1 < total <= ZT_MAX_PACKET_FRAGMENTS → buffer_ok b →
  sw_safe (store_fragment E now id no total b) (λ _, True).
Proof.
  intros Hno Ht Hb. assert (Z.to_nat (no - 1) < 3)%nat as Hn by (unfold ZT_MAX_PACKET_FRAGMENTS in *; lia).
  eapply sw_safe_bind; [apply sw_safe_find|]. intros i Hi. eapply sw_safe_bind; [by apply sw_safe_get|]. intros e He. cbn beta zeta.
  destruct (_ || _).
  - eapply sw_safe_bind; [apply sw_safe_set; by destruct He|]. intros _ _. eapply sw_safe_bind; [by apply sw_safe_assign_frag|]. intros _ _.
    eapply sw_safe_bind; [by apply sw_safe_get|]. intros e1 [? ? ?]. apply sw_safe_set. split; [done|done|cbn; lia].
  - destruct (_ =? 0); [|by apply sw_safe_ret]. eapply sw_safe_bind; [by apply sw_safe_assign_frag|]. intros _ _.
    eapply sw_safe_bind; [by apply sw_safe_get|]. intros e1 [? ? ?]. cbn beta zeta.
    eapply sw_safe_bind; [apply sw_safe_set; split; [done|done|cbn; lia]|]. intros _ _.
    destruct (_ =? total); [apply sw_safe_assemble; [done|lia]|by apply sw_safe_ret].
Qed.

Lemma sw_safe_handle_fragment path now data : bytes_ok data → sw_safe (handle_fragment E path now data) (λ _, True).
Proof.
  intros Hd. eapply sw_safe_bind; [by apply sw_safe_new_buffer|]. intros b Hb. cbn beta in Hb.
  eapply sw_safe_bind; [apply sw_safe_on; [done|apply msafe_fragment_destination]|]. intros [dest ?] _.
  destruct (negb _); [by apply sw_safe_relay_fragment|]. unfold collect_fragment. destruct msafe_fragment_numbers as [Hno Hto].
  eapply sw_safe_bind; [by apply sw_safe_on; [|by apply msafe_at]|]. intros [id ?] _.
  eapply sw_safe_bind; [by apply sw_safe_on; [|exact Hno]|]. intros [no ?] _.
  eapply sw_safe_bind; [by apply sw_safe_on; [|exact Hto]|]. intros [total ?] _. cbn beta iota.
  destruct (_ && _) eqn:Hs; [|by apply sw_safe_ret]. bool_hyps. apply sw_safe_store_fragment; [lia|lia|done].
Qed.

(** ** Packets *)

Lemma sw_safe_shouldUnite now source destination : sw_safe (shouldUnite now source destination) (λ _, True).
Proof.
  intros s (Hq & Hu & Hw). eexists (Ret _), _. split; [reflexivity|]. split; [|done]. split; [done|]. split; [|done].
  apply map_Forall_insert_2; [|done]. destruct (Z.ltb_spec destination source); cbn; lia.
Qed.

Lemma hint_ip a : hint_ok a → InetAddress.ss_family a ≠ 0 → ∃ ip, InetAddress.rawIpData a = Some ip ∧ bytes_ok ip
  ∧ zlen ip = if InetAddress.ss_family a =? InetAddress.AF_INET6 then 16 else 4.
Proof.
  intros [[Hl Hok] Hf] H0. unfold InetAddress.rawIpData, InetAddress.isV4, InetAddress.isV6, InetAddress.SIZE in *.
  assert (∀ off n, (off + n <= 128)%nat → bytes_ok (InetAddress.fld off n a) ∧ length (InetAddress.fld off n a) = n) as Hfld.
  { intros off n Hn. unfold InetAddress.fld. split; [by apply Forall_take, Forall_drop|]. rewrite length_take, length_drop. lia. }
  destruct Hf as [?|[H4|H6]]; [done|..].
  - rewrite H4. apply Z.eqb_eq in H4. rewrite H4. eexists. split; [done|]. destruct (Hfld 4%nat 4%nat) as [? Hz]; [lia|].
    split; [done|]. unfold zlen. by rewrite Hz.
  - rewrite H6. apply Z.eqb_eq in H6. rewrite H6. eexists. split; [done|]. destruct (Hfld 8%nat 16%nat) as [? Hz]; [lia|].
    split; [done|]. unfold zlen, InetAddress.s6_addr. by rewrite Hz.
Qed.

Lemma sw_safe_send_rendezvous to about hint : hint_ok hint → InetAddress.ss_family hint ≠ 0 → sw_safe (send_rendezvous E to about hint) (λ _, True).
Proof.
  intros Hh H0. destruct (hint_ip hint Hh H0) as (ip & Eip & Hip & Hl). assert (C = 5776) as HC5 by done.
  eapply sw_safe_bind; [by apply sw_safe_new_packet|]. intros b0 (iv & mac & Hb0 & _).
  assert (buffer_ok b0) as Hb0' by (by eexists).
  eapply sw_safe_bind; [apply sw_safe_on; [done|apply msafe_append_int; lia]|]. intros [? b1] [_ Hb1].
  eapply sw_safe_bind; [apply sw_safe_on; [done|apply msafe_appendTo]|]. intros [? b2] [_ Hb2].
  eapply sw_safe_bind; [apply sw_safe_on; [done|apply msafe_append_int; lia]|]. intros [? b3] [_ Hb3]. cbn [snd] in *.
  rewrite Eip. eapply (sw_safe_bind _ _ (λ x, True ∧ buffer_ok x.2)).
  - destruct (_ =? InetAddress.AF_INET6).
    all: eapply sw_safe_bind; [apply sw_safe_on; [done|apply msafe_append_int; lia]|]; intros [? b4] [_ Hb4];
      apply (sw_safe_on _ _ (λ _, True)); [done|]; apply msafe_append; [done|lia|lia].
  - intros [? b5] [_ Hb5]. apply sw_safe_call_any. intros w Hw. by apply (eo_send _ _ HE).
Qed.

Lemma sw_safe_unite now source destination p : sw_safe (unite E now source destination p) (λ _, True).
Proof.
  eapply sw_safe_bind; [apply (sw_safe_ask _ (λ x, hint_ok x.1 ∧ hint_ok x.2)); intros w Hw; by apply (eo_rendezvous _ _ HE)|].
  intros [d4 d6] [Hd4 Hd6]. eapply sw_safe_bind; [apply sw_safe_call_any; intros w; apply (eo_getPeer _ _ HE)|].
  intros [sp|] _; [|by apply sw_safe_ret].
  eapply sw_safe_bind; [apply (sw_safe_ask _ (λ x, hint_ok x.1 ∧ hint_ok x.2)); intros w Hw; by apply (eo_rendezvous _ _ HE)|].
  intros [s4 s6] [Hs4 Hs6]. cbn [fst snd] in *. cbn beta iota zeta. match goal with |- context [match ?p with Some _ => _ | None => _ end] => destruct p as [[x y]|] eqn:Hp end; [|by apply sw_safe_ret].
  assert ((hint_ok x ∧ InetAddress.ss_family x ≠ 0) ∧ (hint_ok y ∧ InetAddress.ss_family y ≠ 0)) as [[Hx Hx0] [Hy Hy0]].
  { destruct (_ && _) eqn:E6 in Hp; [|destruct (_ && _) eqn:E4 in Hp; [|done]]; injection Hp as <- <-; bool_hyps; auto. } clear Hp.
  eapply sw_safe_bind; [apply sw_safe_call_any, (eo_prng _ _ HE)|]. intros r _. cbn beta.
  destruct (_ =? 0); (eapply sw_safe_bind; [by apply sw_safe_send_rendezvous|]); intros _ _; by apply sw_safe_send_rendezvous.
Qed.

Lemma sw_safe_relay_packet path now data source destination : bytes_ok data → sw_safe (relay_packet E path now data source destination) (λ _, True).
Proof.
  intros Hd. eapply sw_safe_bind; [by apply (sw_safe_ask _ (λ _, True))|]. intros root _.
  eapply sw_safe_bind; [by apply (sw_safe_ask _ (λ _, True))|]. intros trust _. cbn beta. destruct (_ && _); [by apply sw_safe_ret|].
  eapply sw_safe_bind; [by apply sw_safe_new_buffer|]. intros b Hb. cbn beta in Hb.
  eapply sw_safe_bind; [apply sw_safe_on; [done|]; apply (msafe_bind _ _ byte_ok (λ _ : Z, True)); [by apply msafe_index|]; intros v _; by apply msafe_ret|].
  intros [h ?] _. cbn beta iota. destruct (h <? ZT_RELAY_MAX_HOPS); [|by apply sw_safe_ret].
  eapply sw_safe_bind; [by apply sw_safe_on; [|by apply msafe_index_mod]|]. intros [? b2] [_ Hb2].
  eapply sw_safe_bind; [by apply sw_safe_contents|]. intros d Hd'.
  eapply sw_safe_bind; [apply sw_safe_call_any; intros w; apply (eo_getPeer _ _ HE)|]. intros relayTo _.
  eapply sw_safe_bind; [by apply sw_safe_try_direct|]. intros sent _. cbn beta.
  destruct relayTo as [p|], sent; try by apply sw_safe_upstream.
  destruct (negb _); [|by apply sw_safe_ret]. eapply sw_safe_bind; [apply sw_safe_shouldUnite|]. intros [] _; [apply sw_safe_unite|by apply sw_safe_ret].
Qed.

Lemma sw_safe_store_head path now id data : bytes_ok data → sw_safe (store_head E path now id data) (λ _, True).
Proof.
  intros Hd. eapply sw_safe_bind; [apply sw_safe_find|]. intros i Hi. eapply sw_safe_bind; [by apply sw_safe_get|]. intros e He. cbn beta.
  destruct (_ || _).
  - eapply sw_safe_bind; [apply sw_safe_set; by destruct He|]. intros _ _. eapply sw_safe_bind; [by apply sw_safe_init_head|]. intros _ _.
    eapply sw_safe_bind; [by apply sw_safe_get|]. intros e1 [? ? ?]. apply sw_safe_set. by split.
  - destruct (_ =? 0); [|by apply sw_safe_ret]. cbn zeta. eapply sw_safe_bind; [apply sw_safe_set; by destruct He|]. intros _ _.
    eapply sw_safe_bind; [by apply sw_safe_init_head|]. intros _ _.
    destruct (_ && _); [apply sw_safe_assemble; [done|apply He]|by apply sw_safe_ret].
Qed.

Lemma oldest_loop_range i rq (q : list (RXQueueEntry Path)) : (rq < ZT_RX_QUEUE_SIZE)%nat → (i <= ZT_RX_QUEUE_SIZE)%nat →
  (oldest_loop i rq q < ZT_RX_QUEUE_SIZE)%nat.
Proof.
  revert rq. induction i as [|i IH]; intros rq Hrq Hi; cbn [oldest_loop]; [done|]. destruct (_ =? 0); [done|].
  apply IH; [|lia]. destruct (_ <? _); lia.
Qed.

Lemma sw_safe_handle_whole path now data : bytes_ok data → sw_safe (handle_whole E path now data) (λ _, True).
Proof.
  intros Hd. eapply sw_safe_bind; [by apply sw_safe_new_buffer|]. intros b Hb. eapply sw_safe_bind; [by apply sw_safe_decode|].
  intros [ok p] Hp. cbn in Hp. cbn beta iota. destruct ok; [by apply sw_safe_ret|].
  eapply (sw_safe_bind _ _ (λ k, (k < ZT_RX_QUEUE_SIZE)%nat)).
  { intros s Hs. eexists (Ret _), s. split; [done|]. split; [done|]. apply oldest_loop_range; unfold ZT_RX_QUEUE_SIZE; lia. }
  intros i Hi. eapply sw_safe_bind; [by apply sw_safe_get|]. intros e [H0 H1 H2]. cbn beta.
  eapply sw_safe_bind; [by apply sw_safe_on; [|by apply msafe_at]|]. intros [id ?] _.
  eapply sw_safe_bind; [by apply sw_safe_on; [|by apply msafe_assign]|]. intros [? b'] [_ Hb']. apply sw_safe_set. by split.
Qed.

(** The address at [off] of a datagram that is long enough. *)
Lemma read_address off data : 0 <= off → off + 5 <= zlen data → ∃ a, (d ← mem_read off 5 data; Address.setTo d 5) = Ok a ∧ True.
Proof.
  intros Ho Hl. rewrite mem_read_ok by lia. cbn [mbind cres_bind]. set (d := take _ _).
  destruct (address_setTo_defined d) as [a Ha]; [|by exists a]. unfold d. rewrite zlen_take; [done|]. rewrite zlen_drop; lia.
Qed.

Lemma sw_safe_handle_packet path now data : bytes_ok data → ZT_PROTO_MIN_PACKET_LENGTH <= zlen data → sw_safe (handle_packet E path now data) (λ _, True).
Proof.
  intros Hd Hl. change ZT_PROTO_MIN_PACKET_LENGTH with 28 in Hl.
  eapply sw_safe_bind; [apply sw_safe_lift, read_address; lia|]. intros dest _. eapply sw_safe_bind; [apply sw_safe_lift, read_address; lia|]. intros src _.
  cbn beta. destruct (_ =? _); [by apply sw_safe_ret|]. destruct (negb _); [by apply sw_safe_relay_packet|].
  eapply (sw_safe_bind _ _ (λ _, True)).
  { apply sw_safe_lift. unfold ZT_PACKET_IDX_FLAGS. rewrite mem_read_ok by lia. by eexists. }
  intros f _. cbn beta. destruct (negb _); [|by apply sw_safe_handle_whole]. unfold collect_head.
  eapply (sw_safe_bind _ _ (λ x, bytes_ok x ∧ zlen x = 8)).
  { apply sw_safe_lift. rewrite mem_read_ok, drop_0 by lia. eexists. split; [done|]. split; [by apply Forall_take|]. by rewrite zlen_take by lia. }
  intros x [Hx Hx8]. eapply (sw_safe_bind _ _ (λ _, True)); [apply sw_safe_lift; rewrite packetId_of_val by done; by eexists|].
  intros id _. by apply sw_safe_store_head.
Qed.

(** ** Beacons *)

Lemma sw_safe_beacon_response p path now : sw_safe (beacon_response Cipher Auth E p path now) (λ _, True).
Proof.
  eapply sw_safe_bind; [by apply sw_safe_new_packet|]. intros b (iv & mac & Hb & Hok).
  eapply sw_safe_bind; [apply sw_safe_call_any; intros w; apply (eo_counter _ _ HE)|]. intros counter _.
  eapply (sw_safe_bind _ _ stack_ok); [apply sw_safe_ask; intros w _; apply (mo_stack _ (eo_memory _ _ HE))|]. intros st Hst.
  destruct (iv_split iv (ok_iv _ _ _ Hok)) as (i7 & x & -> & _).
  destruct (armor_holds Cipher Auth HC HA st _ b true counter i7 x _ _ mac _ Hb Hok (eo_key _ _ HE p) Hst) as (b' & Eb & Hb').
  eapply sw_safe_bind; [by apply (sw_safe_on_ret _ _ _ _ (λ y, buffer_ok y.2) Eb); eexists|]. intros [? b2] Hb2. cbn [snd] in Hb2.
  eapply sw_safe_bind; [by apply sw_safe_contents|]. intros d [Hd Hdl].
  eapply sw_safe_bind; [apply sw_safe_call_any; intros w Hw; by apply (eo_path_send _ _ HE)|]. intros _ _. by apply sw_safe_ret.
Qed.

Lemma sw_safe_handle_beacon localAddr fromAddr path now data : zlen data = 13 → sw_safe (handle_beacon Cipher Auth E localAddr fromAddr path now data) (λ _, True).
Proof.
  intros Hl. eapply sw_safe_bind; [apply sw_safe_lift, read_address; lia|]. intros a _. cbn beta. destruct (_ =? _); [by apply sw_safe_ret|].
  destruct (negb _); [by apply sw_safe_ret|]. eapply sw_safe_bind; [apply sw_safe_call_any; intros w; apply (eo_getPeer _ _ HE)|].
  intros [p|] _; [|by apply sw_safe_ret]. eapply (sw_safe_bind _ _ (λ _, True)).
  { intros s Hs. unfold beacon_rate. destruct (_ <=? _); eexists (Ret _), _; (split; [reflexivity|]); done. }
  intros [] _; [apply sw_safe_beacon_response|by apply sw_safe_ret].
Qed.

(** ** Sending *)

Lemma wire_ok (d : bytes) i : bytes_ok d → zlen d <= C → (i < 16)%nat → bytes_ok (wire d i 0) ∧ zlen (wire d i 0) <= C.
Proof.
  intros Hd Hl Hi. pose proof (pieces_bound _ Hl) as H16. assert (C = 5776) as HC5 by done. pose proof (zlen_nonneg d) as Hd0.
  assert (0 <= pieces (zlen d)) as H0 by (unfold pieces; Z.to_euclidean_division_equations; lia). unfold wire, chunk. split.
  - apply Forall_app_2; [by apply Forall_take|]. apply (Forall_app_2 _ [_; _; _]); [|by apply Forall_take, Forall_drop].
    constructor; [done|]. constructor; [unfold byte_ok; lia|]. constructor; [done|constructor].
  - unfold zlen. rewrite !length_app, !length_take. cbn [length]. lia.
Qed.

Lemma datagrams_ok d : bytes_ok d → zlen d <= C → Forall (λ x, bytes_ok x ∧ zlen x <= C) (datagrams d).
Proof.
  intros Hd Hl. unfold datagrams. destruct (1444 <? zlen d); [|by constructor]. constructor.
  - split; [by apply Forall_take|]. unfold zlen in *. rewrite length_take. lia.
  - apply Forall_fmap, Forall_seq. intros j Hj. apply wire_ok; [done|done|]. pose proof (pieces_bound _ Hl). lia.
Qed.

Lemma sends_keep path now l w : Forall (λ x, bytes_ok x ∧ zlen x <= C) l → I w → I (sends E path now w l).
Proof.
  intros Hl. revert w. induction Hl as [|x l [Hx Hxl] Hl IH]; intros w Hw; [done|]. apply IH. by apply (eo_path_send _ _ HE).
Qed.

Lemma sw_safe_send_datagrams {T} path now packet d : holds packet d → 27 <= zlen d → sw_hoare T (send_datagrams E path now packet) (λ _, True).
Proof.
  intros Hp Hl s (Hq & Hu & Hw). rewrite (send_all E (mo_memory _ (eo_memory _ _ HE)) path now packet d s Hp Hl). eexists (Ret tt), _. split; [done|].
  split; [|done]. split; [done|]. split; [done|]. cbn [world with_world]. pose proof (holds_ok _ _ Hp) as Hd.
  destruct (repr_bounds C _ _ (proj1 Hp)) as (_ & [_ HdC] & _). unfold sent_datagrams. destruct (path_send _ _ _ _ _ _ _ _).1.
  - apply sends_keep; [by apply datagrams_ok|done].
  - apply (eo_path_send _ _ HE); [by apply Forall_take| |done]. unfold zlen in *. rewrite length_take. lia.
Qed.

(** A packet with a header and a verb can be sent on any path, trusted or not. *)
Lemma sw_safe_transmit {T} peer path now packet enc iv addrs f mac body : holds packet (pkt iv addrs f mac body) → pkt_ok iv addrs mac →
  sw_hoare T (transmit Cipher Auth E peer path now packet enc) (λ _, True).
Proof.
  intros Hp Hok. unfold transmit. destruct (setFragmented_holds packet _ _ _ _ _ (Z.min (_l packet) ZT_UDP_DEFAULT_PAYLOAD_MTU <? _l packet) Hp Hok) as (p1 & E1 & Hp1).
  eapply sw_safe_bind; [by apply (sw_safe_on_ret _ _ _ _ (λ x, x.2 = p1) E1)|]. intros [? b] Hb. cbn [snd] in Hb. subst b.
  eapply (sw_safe_bind _ _ (λ _, True)); [by apply sw_safe_ask|]. intros trusted _.
  eapply (sw_safe_bind _ _ (λ x, ∃ d, holds x.2 d ∧ 27 <= zlen d)).
  - destruct (negb _).
    + destruct (setTrusted_holds p1 _ _ _ _ _ trusted Hp1 Hok) as (p2 & E2 & Hp2 & Hok2).
      apply (sw_safe_on_ret _ _ _ _ _ E2). eexists. split; [exact Hp2|]. rewrite zlen_pkt by done. pose proof (zlen_nonneg body). lia.
    + eapply sw_safe_bind; [apply sw_safe_call_any; intros w; apply (eo_counter _ _ HE)|]. intros counter _.
      eapply (sw_safe_bind _ _ stack_ok); [apply sw_safe_ask; intros w _; apply (mo_stack _ (eo_memory _ _ HE))|]. intros st Hst.
      destruct (iv_split iv (ok_iv _ _ _ Hok)) as (i7 & x & -> & Hi7).
      destruct (armor_holds Cipher Auth HC HA st _ p1 enc counter i7 x addrs _ mac body Hp1 Hok (eo_key _ _ HE peer) Hst) as (p2 & E2 & Hp2).
      apply (sw_safe_on_ret _ _ _ _ _ E2). eexists. split; [exact Hp2|]. rewrite zlen_pkt; [|split; [|apply Hok|apply zlen_tag]].
      * pose proof (zlen_nonneg body). rewrite zlen_sealed. lia.
      * unfold stamped. rewrite zlen_app, Hi7. done.
  - intros [? p2] (d & Hp2 & Hl). eapply sw_safe_bind; [by eapply sw_safe_send_datagrams|]. intros _ _. by apply sw_safe_ret.
Qed.

Lemma sw_safe_handle_datagram localAddr fromAddr now data : bytes_ok data →
  sw_safe (handle_datagram Cipher Auth E localAddr fromAddr now data) (λ _, True).
Proof.
  intros Hd. eapply sw_safe_bind; [apply sw_safe_call_any; intros w; apply (eo_getPath _ _ HE)|]. intros path _.
  eapply sw_safe_bind; [apply sw_safe_call_any; intros w; apply (eo_received _ _ HE)|]. intros _ _. cbn beta.
  destruct (Z.eqb_spec (zlen data) 13); [by apply sw_safe_handle_beacon|].
  destruct (Z.ltb_spec ZT_PROTO_MIN_FRAGMENT_LENGTH (zlen data)) as [Hl|]; [|by apply sw_safe_ret]. change ZT_PROTO_MIN_FRAGMENT_LENGTH with 16 in Hl.
  eapply (sw_safe_bind _ _ (λ _, True)).
  { apply sw_safe_lift. unfold ZT_PACKET_FRAGMENT_IDX_FRAGMENT_INDICATOR. rewrite mem_read_ok by lia. by eexists. }
  intros x _. cbn beta. destruct (_ =? _); [by apply sw_safe_handle_fragment|].
  destruct (Z.leb_spec ZT_PROTO_MIN_PACKET_LENGTH (zlen data)); [by apply sw_safe_handle_packet|by apply sw_safe_ret].
Qed.
End safety.

(** ** Properties *)


Lemma demo_env known me : env_ok (demo_for known me) (Forall bytes_ok).
Proof.
  split; try done.
  - apply demo_memory.
  - intros w Hw. split; [|done]. split; [by apply Forall_replicate|done].
  - intros p d now w Hd _ Hw. by constructor.
  - intros p d now force w Hd _ Hw. by constructor.
  - intros b enc w Hb Hw. constructor; [|done]. by apply buffer_ok_iff in Hb as (_ & _ & ?).
  - intros p. exact zero_key_ok.
  - intros p now w _. assert (hint_ok (memset 128 0)) as Hh; [|by split]. split; [|by left]. split; [done|by apply Forall_replicate].
  - intros p w Hp Hw. split; [done|]. constructor; [|done]. by apply buffer_ok_iff in Hp as (_ & _ & ?).
Qed.

