(* ===== verification/Transmit.v ===== *)
(** * The switch: sending, WHOIS requests and timers (zto/node/Switch.hpp, Switch.cpp)

    A packet whose destination or route is not known yet waits in the transmit queue while the
    switch asks an upstream peer who the destination is.  The file has [send], [requestWhois],
    [_sendWhoisRequest], [_trySend], [doAnythingWaitingForPeer] and [doTimerTasks], on top of the
    state and the environment of [Switch.v].

    The four mutexes of the switch are in the state: locking one that the thread holds is
    [Undef SelfDeadlock], as for a POSIX mutex with default attributes, and a mutex is released
    when its block is left, also by an exception.  [_trySend] and [requestWhois] call each other;
    the fuel of the group is the depth of these calls. *)

From Stdlib Require Import ZArith Lia.
From stdpp Require Import base numbers list option gmap.
From S2P Require Import Prelude Words Utils Addr Buffer Wire Poly1305 Salsa20 Packet Switch.
Open Scope Z_scope.

Definition ZT_WHOIS_RETRY_DELAY : Z := 1000.
Definition ZT_MAX_WHOIS_RETRIES : Z := 4.
Definition ZT_TRANSMIT_QUEUE_TIMEOUT : Z := ZT_WHOIS_RETRY_DELAY * (ZT_MAX_WHOIS_RETRIES + 1).
Definition ZT_PATH_MIN_REACTIVATE_INTERVAL : Z := 2500.
Definition VERB_WHOIS : Z := 0x04.

Inductive mutex := outstandingWhoisRequests_m | rxQueue_m | txQueue_m | lastUniteAttempt_m.

#[export] Instance mutex_eq_dec : EqDecision mutex.
Proof. solve_decision. Defined.

(** ** The environment and the state *)

Section env.
Context (W Peer Path : Type).

(** What sending needs of the node in addition to [Env]. *)
Record TxEnv := {
  tx_env : Env W Peer Path;
  node_now : W → Z;
  expectReplyTo : Z → W → W;
  isUpstream : Peer → W → bool;
  getBestPath : Peer → Z → bool → W → option Path;
  tryMemorizedPath : Peer → Z → W → W;
  attemptToContactAt : Peer → Path → Z → Z → W → W;
  alive : Path → Z → W → bool;
  lastIn : Path → W → Z;
  lastOut : Path → W → Z;
  path_sent : Path → Z → W → W;
  (* the order in which an iterator visits a table of requests or of pairs *)
  whois_order : list Z → list Z;
  unite_order : list (Z * Z) → list (Z * Z);
}.

Record WhoisRequest := Whois { lastSent : Z; peersConsulted : list Z; retries : Z }.
Record TXQueueEntry := TX { tx_dest : Z; creationTime : Z; tx_packet : Buffer.t; tx_encrypt : bool }.

Record tx_state := TxState {
  tx_switch : state W Path;
  whois : gmap Z WhoisRequest;
  txQueue : list TXQueueEntry;
  held : list mutex;
}.

Definition tx (A : Type) : Type := tx_state → cres (outcome A * tx_state).
End env.

Arguments TxState {W Path} _ _ _ _.
Arguments tx_switch {W Path} _.
Arguments whois {W Path} _.
Arguments txQueue {W Path} _.
Arguments held {W Path} _.

#[export] Instance tx_ret {W Path} : MRet (tx W Path) := λ _ a s, Ok (Ret a, s).
#[export] Instance tx_bind {W Path} : MBind (tx W Path) := λ _ _ f m s,
  match m s with
  | Ok (Ret a, s') => f a s'
  | Ok (OutOfRange, s') => Ok (OutOfRange, s')
  | Undef u => Undef u
  end.

Section transmit.
Context {L P : Type} (Cipher : Salsa) (Auth : Poly L P).
Context {W Peer Path : Type} (E : TxEnv W Peer Path).
Local Abbreviation M := (tx W Path).
Local Abbreviation Esw := (tx_env W Peer Path E).

(** A handler of [Switch.v]. *)
Definition in_switch {A} (m : sw W Path A) : M A := λ s,
  '(o, sw) ← m (tx_switch s); Ok (o, TxState sw (whois s) (txQueue s) (held s)).

Definition with_held (h : list mutex) (s : tx_state W Path) : tx_state W Path :=
  TxState (tx_switch s) (whois s) (txQueue s) h.

(** A block with a [Mutex::Lock]. *)
Definition locked {A} (m : mutex) (body : M A) : M A := λ s,
  if bool_decide (m ∈ held s) then Undef SelfDeadlock
  else '(o, s') ← body (with_held (m :: held s) s); Ok (o, with_held (held s) s').

Definition get_whois : M (gmap Z WhoisRequest) := λ s, Ok (Ret (whois s), s).
Definition put_whois (t : gmap Z WhoisRequest) : M unit := λ s,
  Ok (Ret tt, TxState (tx_switch s) t (txQueue s) (held s)).
Definition get_queue_tx : M (list TXQueueEntry) := λ s, Ok (Ret (txQueue s), s).
Definition put_queue (q : list TXQueueEntry) : M unit := λ s,
  Ok (Ret tt, TxState (tx_switch s) (whois s) q (held s)).

(** ** Routes *)

(** The first half of [_trySend] for a known peer: the path to send on. *)
Definition find_route (now : Z) (peer : Peer) : M (option Path) :=
  viaPath ← in_switch (ask (getBestPath W Peer Path E peer now false));
  viaPath ← (match viaPath with
    | None => mret None
    | Some path =>
        live ← in_switch (ask (alive W Peer Path E path now));
        upstream ← in_switch (ask (isUpstream W Peer Path E peer));
        if negb live && negb upstream then
          out ← in_switch (ask (lastOut W Peer Path E path));
          inn ← in_switch (ask (lastIn W Peer Path E path));
          _ ← (if Z.max (wmul 64 (wsub 64 now inn) 4) ZT_PATH_MIN_REACTIVATE_INTERVAL <? wsub 64 now out then
                 counter ← in_switch (call (nextOutgoingCounter W Peer Path Esw path));
                 _ ← in_switch (tell (attemptToContactAt W Peer Path E peer path now counter));
                 in_switch (tell (path_sent W Peer Path E path now))
               else mret tt);
          mret None
        else mret (Some path)
    end);
  match viaPath with
  | Some path => mret (Some path)
  | None =>
      _ ← in_switch (tell (tryMemorizedPath W Peer Path E peer now));
      relay ← in_switch (call (getUpstreamPeer W Peer Path Esw [] false));
      viaPath ← match relay with
                | None => mret None
                | Some r => in_switch (ask (getBestPath W Peer Path E r now false))
                end;
      match viaPath with
      | Some path => mret (Some path)
      | None => in_switch (ask (getBestPath W Peer Path E peer now true))
      end
  end.

(** ** Sending *)

Definition no_request : WhoisRequest := Whois 0 [0; 0; 0; 0] 0.

(** The part of [requestWhois] under the mutex: whether the request is new. *)
Definition note_request (addr : Z) : M bool :=
  locked outstandingWhoisRequests_m (
    t ← get_whois;
    let r := default no_request (t !! addr) in
    if negb (lastSent r =? 0) then
      _ ← put_whois (<[addr := Whois (lastSent r) (peersConsulted r) 0]> t);
      mret false
    else
      now ← in_switch (ask (node_now W Peer Path E));
      _ ← put_whois (<[addr := Whois now (peersConsulted r) (retries r)]> t);
      mret true).

(** [_trySend] and, given what to do with a packet, [send], [_sendWhoisRequest] and
    [requestWhois]. *)
Definition send_with (trySend : Buffer.t → bool → M bool) (packet : Buffer.t) (encrypt : bool) : M unit :=
  '(dest, _) ← in_switch (on packet destination);
  if dest =? self W Peer Path Esw then mret tt
  else
    sent ← trySend packet encrypt;
    if sent : bool then mret tt
    else
      locked txQueue_m (
        '(dest, _) ← in_switch (on packet destination);
        now ← in_switch (ask (node_now W Peer Path E));
        q ← get_queue_tx;
        put_queue (q ++ [TX dest now packet encrypt])).

Definition sendWhois_with (trySend : Buffer.t → bool → M bool) (addr : Z) (consulted : list Z) : M Z :=
  upstream ← in_switch (call (getUpstreamPeer W Peer Path Esw consulted false));
  match upstream with
  | None => mret 0
  | Some up =>
      outp ← in_switch (new_packet Esw (peer_address W Peer Path Esw up) (self W Peer Path Esw) VERB_WHOIS);
      '(_, outp) ← in_switch (on outp (AddressWire.appendTo C addr));
      '(id, _) ← in_switch (on outp packetId);
      _ ← in_switch (tell (expectReplyTo W Peer Path E id));
      _ ← send_with trySend outp true;
      mret 0
  end.

Definition requestWhois_with (trySend : Buffer.t → bool → M bool) (addr : Z) : M unit :=
  inserted ← note_request addr;
  if inserted : bool then _ ← sendWhois_with trySend addr []; mret tt else mret tt.

(** The second half is [transmit]. *)
Fixpoint trySend (fuel : nat) (packet : Buffer.t) (encrypt : bool) : M bool :=
  match fuel with
  | O => λ _, Undef OutOfFuel
  | S fuel' =>
      now ← in_switch (ask (node_now W Peer Path E));
      '(dest, _) ← in_switch (on packet destination);
      peer ← in_switch (call (getPeer W Peer Path Esw dest));
      match peer with
      | None => _ ← requestWhois_with (trySend fuel') dest; mret false
      | Some p =>
          viaPath ← find_route now p;
          match viaPath with
          | None => mret false
          | Some path => _ ← in_switch (transmit Cipher Auth Esw p path now packet encrypt); mret true
          end
      end
  end.

Definition tx_send (fuel : nat) : Buffer.t → bool → M unit := send_with (trySend fuel).
Definition sendWhoisRequest (fuel : nat) : Z → list Z → M Z := sendWhois_with (trySend fuel).
Definition requestWhois (fuel : nat) : Z → M unit := requestWhois_with (trySend fuel).

(** ** A peer becomes known *)

(** The complete packets of the receive queue are decoded again, from the last entry on. *)
Fixpoint decode_waiting (i : nat) : sw W Path unit :=
  match i with
  | O => mret tt
  | S i' =>
      rq ← get_entry i';
      _ ← (if negb (timestamp rq =? 0) && complete rq then
             '(ok, p) ← call (λ w, let '(ok, p, w) := tryDecode W Peer Path Esw (frag0 rq) w in ((ok, p), w));
             let e := with_frag0 p rq in
             set_entry i' (if (ok : bool) then with_timestamp 0 e else e)
           else mret tt);
      decode_waiting i'
  end.

(** The loop over the transmit queue: [pick] says whether an entry is erased. *)
Fixpoint tx_loop (pick : TXQueueEntry → M bool) (kept rest : list TXQueueEntry) : M unit :=
  match rest with
  | [] => mret tt
  | e :: rest' =>
      gone ← pick e;
      if gone : bool then _ ← put_queue (kept ++ rest'); tx_loop pick kept rest'
      else tx_loop pick (kept ++ [e]) rest'
  end.

Definition doAnythingWaitingForPeer (fuel : nat) (peer : Peer) : M unit :=
  let a := peer_address W Peer Path Esw peer in
  _ ← locked outstandingWhoisRequests_m (t ← get_whois; put_whois (delete a t));
  _ ← locked rxQueue_m (in_switch (decode_waiting ZT_RX_QUEUE_SIZE));
  locked txQueue_m (
    q ← get_queue_tx;
    tx_loop (λ e, if tx_dest e =? a then trySend fuel (tx_packet e) (tx_encrypt e) else mret false) [] q).

(** ** Timers *)

(** One request in the loop over the outstanding ones. *)
Definition retry_request (fuel : nat) (now a nextDelay : Z) : M Z :=
  t ← get_whois;
  match t !! a with
  | None => mret nextDelay
  | Some r =>
      let since := wsub 64 now (lastSent r) in
      if ZT_WHOIS_RETRY_DELAY <=? since then
        if ZT_MAX_WHOIS_RETRIES <=? retries r then
          _ ← put_whois (delete a t);
          mret nextDelay
        else
          _ ← put_whois (<[a := Whois now (peersConsulted r) (retries r)]> t);
          x ← sendWhoisRequest fuel a (take (Z.to_nat (if 1 <? retries r then retries r else 0)) (peersConsulted r));
          t ← get_whois;
          let n := Z.to_nat (retries r) in
          if bool_decide (n < length (peersConsulted r))%nat then
            _ ← put_whois (<[a := Whois now (<[n := x]> (peersConsulted r)) (wrap 32 (retries r + 1))]> t);
            mret (Z.min nextDelay ZT_WHOIS_RETRY_DELAY)
          else λ _, Undef OutOfBounds
      else mret (Z.min nextDelay (ZT_WHOIS_RETRY_DELAY - since))
  end.

Fixpoint retry_loop (fuel : nat) (now : Z) (l : list Z) (nextDelay : Z) : M Z :=
  match l with
  | [] => mret nextDelay
  | a :: l' => d ← retry_request fuel now a nextDelay; retry_loop fuel now l' d
  end.

(** The third block: old attempts to unite two nodes are forgotten. *)
Fixpoint unite_loop (now : Z) (l : list (Z * Z)) (m : gmap (Z * Z) Z) : gmap (Z * Z) Z :=
  match l with
  | [] => m
  | k :: l' =>
      unite_loop now l'
        (match m !! k with
         | Some v => if ZT_MIN_UNITE_INTERVAL * 8 <=? wsub 64 now v then delete k m else m
         | None => m
         end)
  end.

Definition clean_unite (now : Z) : M unit := in_switch (λ s,
  let m := lastUniteAttempt s in
  Ok (Ret tt, Switch (lastBeaconResponse s) (rxQueue s)
                (unite_loop now (unite_order W Peer Path E (map_to_list m).*1) m) (world s))).

Definition doTimerTasks (fuel : nat) (now : Z) : M Z :=
  nextDelay ← locked outstandingWhoisRequests_m (
    t ← get_whois;
    retry_loop fuel now (whois_order W Peer Path E (map_to_list t).*1) 0xffffffff);
  _ ← locked txQueue_m (
    q ← get_queue_tx;
    tx_loop (λ e,
      sent ← trySend fuel (tx_packet e) (tx_encrypt e);
      if sent : bool then mret true
      else mret (ZT_TRANSMIT_QUEUE_TIMEOUT <? wsub 64 now (creationTime e))) [] q);
  _ ← locked lastUniteAttempt_m (clean_unite now);
  mret nextDelay.

End transmit.
