(* ===== verification/Sending.v ===== *)
(** * Proofs about sending, WHOIS requests and timers

    The proofs about [Transmit.v].  [runs m s Φ] says that [m] returns from the state [s], without
    undefined behaviour and without an exception, in a result and a state of [Φ]; the rules for it
    follow the code.  The contract [tx_env_ok] of the rest of the node extends [env_ok]: each operation
    keeps the peers that are known. *)

From Stdlib Require Import ZArith Lia.
From stdpp Require Import base numbers list option gmap.
From S2P Require Import Prelude Words Utils Addr Buffer Wire Poly1305 Salsa20 Packet Switch Reassembly SwitchSafe Transmit.
Open Scope Z_scope.

(** ** Running *)

Section run.
Context {W Path : Type}.
Implicit Types s : tx_state W Path.

Definition runs {A} (m : tx W Path A) s (Φ : A → tx_state W Path → Prop) : Prop :=
  ∃ a s', m s = Ok (Ret a, s') ∧ Φ a s'.

Lemma runs_ret {A} (a : A) s Φ : Φ a s → runs (mret a) s Φ.
Proof. intros H. by exists a, s. Qed.

Lemma tx_bind_ret {A B} (m : tx W Path A) (f : A → tx W Path B) s a s' : m s = Ok (Ret a, s') → (m ≫= f) s = f a s'.
Proof. intros Em. unfold mbind, tx_bind. by rewrite Em. Qed.

Lemma runs_bind {A B} (m : tx W Path A) (f : A → tx W Path B) s Φ :
  runs m s (λ a s', runs (f a) s' Φ) → runs (m ≫= f) s Φ.
Proof.
  intros (a & s1 & E1 & b & s2 & E2 & H). exists b, s2. split; [|done]. unfold mbind, tx_bind. by rewrite E1.
Qed.

Lemma runs_weaken {A} (m : tx W Path A) s (Φ Ψ : A → tx_state W Path → Prop) : runs m s Φ → (∀ a s', Φ a s' → Ψ a s') → runs m s Ψ.
Proof. intros (a & s' & E & H) HΨ. exists a, s'. split; [done|by apply HΨ]. Qed.

Lemma runs_locked {A} m (body : tx W Path A) s Φ :
  m ∉ held s → runs body (with_held (m :: held s) s) (λ a s', Φ a (with_held (held s) s')) → runs (locked m body) s Φ.
Proof.
  intros Hm (a & s' & E & H). exists a, (with_held (held s) s'). split; [|done].
  unfold locked. rewrite bool_decide_eq_false_2 by done. by rewrite E.
Qed.

Lemma runs_get_whois s (Φ : _ → _ → Prop) : Φ (whois s) s → runs get_whois s Φ.
Proof. intros H. by exists (whois s), s. Qed.
Lemma runs_put_whois s t (Φ : _ → _ → Prop) : Φ tt (TxState (tx_switch s) t (txQueue s) (held s)) → runs (put_whois t) s Φ.
Proof. intros H. by eexists tt, _. Qed.
Lemma runs_get_queue s (Φ : _ → _ → Prop) : Φ (txQueue s) s → runs get_queue_tx s Φ.
Proof. intros H. by exists (txQueue s), s. Qed.
Lemma runs_put_queue s q (Φ : _ → _ → Prop) : Φ tt (TxState (tx_switch s) (whois s) q (held s)) → runs (put_queue q) s Φ.
Proof. intros H. by eexists tt, _. Qed.
End run.

(** ** The contract *)

Section contract.
Context {W Peer Path : Type} (E : TxEnv W Peer Path).
Local Abbreviation Esw := (tx_env W Peer Path E).

Definition knows (a : Z) (w : W) : Prop := is_Some (getPeer W Peer Path Esw a w).1.

(** [I] holds, and the peers in [K] are known. *)
Definition kept (I : W → Prop) (K : Z → Prop) (w : W) : Prop := I w ∧ ∀ a, K a → knows a w.

Record tx_env_ok (I : W → Prop) : Prop := {
  te_env K : env_ok Esw (kept I K);
  te_expect K id w : kept I K w → kept I K (expectReplyTo W Peer Path E id w);
  te_memorized K p now w : kept I K w → kept I K (tryMemorizedPath W Peer Path E p now w);
  te_contact K p path now c w : kept I K w → kept I K (attemptToContactAt W Peer Path E p path now c w);
  te_sent K path now w : kept I K w → kept I K (path_sent W Peer Path E path now w);
  te_upstream l b w p : I w → (getUpstreamPeer W Peer Path Esw l b w).1 = Some p →
    knows (peer_address W Peer Path Esw p) (getUpstreamPeer W Peer Path Esw l b w).2
    ∧ 0 <= peer_address W Peer Path Esw p < 2 ^ 40;
  te_now w : I w → node_now W Peer Path E w ≠ 0;
  te_whois_order l : whois_order W Peer Path E l ≡ₚ l;
}.
End contract.

(** A packet with a verb for the node [a]. *)
Definition packet_to (b : Buffer.t) (a : Z) : Prop :=
  0 <= a < 2 ^ 40 ∧ ∃ iv src f mac v rest,
    holds b (pkt iv (be_bytes 5 a ++ be_bytes 5 src) f mac (v :: rest)) ∧ pkt_ok iv (be_bytes 5 a ++ be_bytes 5 src) mac.

Lemma packet_to_destination b a : packet_to b a → destination b = Ok (Ret a, b).
Proof. intros (Ha & iv & src & f & mac & v & rest & Hb & Hok). exact (read_destination _ _ _ _ _ _ _ _ Hb Hok Ha). Qed.

(** ** Sending *)

Section sending.
Context {L P : Type} (Cipher : Salsa) (Auth : Poly L P) (HC : StreamCipher Cipher) (HA : Authenticator Auth).
Context {W Peer Path : Type} (E : TxEnv W Peer Path) (I : W → Prop) (HE : tx_env_ok E I).
Local Abbreviation Esw := (tx_env W Peer Path E).
Implicit Types s : tx_state W Path.

Definition now_world s : W := world (tx_switch s).
Definition grows (w w' : W) : Prop := ∀ a, knows E a w → knows E a w'.
Definition with_switch (sw : state W Path) s : tx_state W Path := TxState sw (whois s) (txQueue s) (held s).

(** [s'] differs from [s] in the switch and the rest of the node only. *)
Definition quiet s s' : Prop :=
  whois s' = whois s ∧ txQueue s' = txQueue s ∧ held s' = held s
  ∧ sw_ok I (tx_switch s') ∧ grows (now_world s) (now_world s').

Lemma quiet_refl s : sw_ok I (tx_switch s) → quiet s s.
Proof. intros Hs. split_and!; [done..|by intros a Ha]. Qed.

Lemma quiet_trans s s1 s2 : quiet s s1 → quiet s1 s2 → quiet s s2.
Proof.
  intros (Hw & Hq & Hh & _ & Hg) (Hw' & Hq' & Hh' & Hs' & Hg'). split_and!; [congruence..|done|].
  intros a Ha. by apply Hg', Hg.
Qed.

Lemma sw_ok_kept (sw : state W Path) : sw_ok I sw ↔ sw_ok (kept E I (λ a, knows E a (world sw))) sw.
Proof. unfold sw_ok, kept. tauto. Qed.

(** A handler of the switch that does not throw. *)
Lemma runs_in_switch {A} (m : sw W Path A) (Q : A → Prop) s Φ :
  sw_ok I (tx_switch s) → (∀ K, sw_hoare (kept E I K) False m Q) →
  (∀ a s', quiet s s' → Q a → Φ a s') → runs (in_switch m) s Φ.
Proof.
  intros Hs Hm HΦ. destruct (Hm _ _ (proj1 (sw_ok_kept _) Hs)) as (o & sw & Em & (Hq & Hu & Hi & Hk) & HQ).
  destruct o as [a|]; [|done]. exists a, (with_switch sw s). unfold in_switch. rewrite Em. split; [done|].
  apply HΦ; [|done]. split_and!; [done..|by split|done].
Qed.

Lemma runs_ask {A} (f : W → A) s Φ : Φ (f (now_world s)) s → runs (in_switch (ask f)) s Φ.
Proof. intros H. exists (f (now_world s)), s. split; [by destruct s|done]. Qed.

Lemma runs_on {A} b (m : meth A) a b' s Φ : m b = Ok (Ret a, b') → Φ (a, b') s → runs (in_switch (on b m)) s Φ.
Proof. intros Em H. exists (a, b'), s. split; [|done]. unfold in_switch. rewrite (on_ret _ _ _ _ _ Em). by destruct s. Qed.

Lemma runs_tell (f : W → W) s (Φ : _ → _ → Prop) :
  sw_ok I (tx_switch s) → (∀ K w, kept E I K w → kept E I K (f w)) → (∀ s', quiet s s' → Φ tt s') → runs (in_switch (tell f)) s Φ.
Proof.
  intros Hs Hf HΦ. apply (runs_in_switch _ (λ _, True)); [done| |intros [] s' Hq _; by apply HΦ].
  intros K. apply sw_safe_call_any. intros w Hw. by apply Hf.
Qed.

Lemma runs_call {A} (f : W → A * W) s (Φ : _ → _ → Prop) :
  sw_ok I (tx_switch s) → (∀ K w, kept E I K w → kept E I K (f w).2) →
  (∀ s', quiet s s' → now_world s' = (f (now_world s)).2 → Φ (f (now_world s)).1 s') → runs (in_switch (call f)) s Φ.
Proof.
  intros Hs Hf HΦ. pose proof (proj1 (sw_ok_kept _) Hs) as (Hq & Hu & Hk). specialize (Hf _ _ Hk).
  unfold runs, in_switch, call. fold (now_world s) in *. destruct (f (now_world s)) as [a w]. cbn [fst snd] in *.
  eexists a, _. split; [done|]. apply HΦ; [|done]. destruct Hf as [Hi Hkn]. split_and!; [done..|by split|done].
Qed.

Lemma quiet_switch s s' : quiet s s' → sw_ok I (tx_switch s').
Proof. by intros (_ & _ & _ & ? & _). Qed.

(** The choice of a path changes nothing but the rest of the node. *)
Lemma runs_find_route now p s : sw_ok I (tx_switch s) → runs (find_route E now p) s (λ _ s', quiet s s').
Proof.
  intros Hs. unfold find_route. apply runs_bind, runs_ask. apply runs_bind.
  apply runs_weaken with (Φ := λ _ s', quiet s s').
  - destruct (getBestPath _ _ _ _ _ _ _ _) as [path|]; [|by apply runs_ret, quiet_refl].
    apply runs_bind, runs_ask, runs_bind, runs_ask. destruct (_ && _); [|by apply runs_ret, quiet_refl].
    apply runs_bind, runs_ask, runs_bind, runs_ask. apply runs_bind. destruct (_ <? _); [|by apply runs_ret, runs_ret, quiet_refl].
    apply runs_bind, runs_call; [done|intros K w; apply (eo_counter _ _ (te_env _ _ HE K))|]. intros s1 H1 _.
    apply runs_bind, runs_tell; [by eapply quiet_switch|intros K w; apply (te_contact _ _ HE)|]. intros s2 H2.
    apply runs_tell; [by eapply quiet_switch|intros K w; apply (te_sent _ _ HE)|]. intros s3 H3.
    apply runs_ret. eapply quiet_trans; [eapply quiet_trans|]; done.
  - intros [path|] s1 H1; [by apply runs_ret|].
    apply runs_bind, runs_tell; [by eapply quiet_switch|intros K w; apply (te_memorized _ _ HE)|]. intros s2 H2.
    apply runs_bind, runs_call; [by eapply quiet_switch|intros K w; apply (eo_getUpstreamPeer _ _ (te_env _ _ HE K))|]. intros s3 H3 _.
    assert (quiet s s3) as H03 by (eapply quiet_trans; [eapply quiet_trans|]; done).
    apply runs_bind. destruct (_.1) as [r|].
    + apply runs_ask. destruct (getBestPath _ _ _ _ _ _ _ _); [by apply runs_ret|by apply runs_ask].
    + by apply runs_ret, runs_ask.
Qed.

Lemma runs_destination b a s (Φ : _ → _ → Prop) : packet_to b a → Φ (a, b) s → runs (in_switch (on b destination)) s Φ.
Proof. intros Hb. by apply runs_on, packet_to_destination. Qed.

(** A packet for a peer that is known is sent or not; nothing waits for it. *)
Lemma runs_trySend_known n b a enc s :
  sw_ok I (tx_switch s) → packet_to b a → knows E a (now_world s) → runs (trySend Cipher Auth E (S n) b enc) s (λ _ s', quiet s s').
Proof.
  intros Hs Hb Hk. cbn [trySend]. apply runs_bind, runs_ask. apply runs_bind, (runs_destination b a); [done|].
  apply runs_bind, runs_call; [done|intros K w; apply (eo_getPeer _ _ (te_env _ _ HE K))|]. intros s2 H2 _.
  destruct Hk as [p Hp]. rewrite Hp. apply runs_bind. eapply runs_weaken; [apply runs_find_route; by eapply quiet_switch|].
  intros [path|] s3 H3; cbn beta; [|apply runs_ret; by eapply quiet_trans].
  destruct Hb as (_ & iv & src & f & mac & v & rest & Hb & Hok). apply runs_bind.
  apply (runs_in_switch _ (λ _, True)); [by eapply quiet_switch| |].
  - intros K. exact (sw_safe_transmit Cipher Auth HC HA _ _ (te_env _ _ HE K) _ _ _ _ _ _ _ _ _ _ Hb Hok).
  - intros ? s4 H4 _. apply runs_ret. do 2 (eapply quiet_trans; [done|]). done.
Qed.

(** What may be pushed: a packet for a known peer. *)
Definition pushed s s' : Prop :=
  whois s' = whois s ∧ held s' = held s ∧ sw_ok I (tx_switch s') ∧ grows (now_world s) (now_world s')
  ∧ ∃ l, txQueue s' = txQueue s ++ l ∧ Forall (λ e, packet_to (tx_packet e) (tx_dest e) ∧ knows E (tx_dest e) (now_world s')) l.

Lemma quiet_pushed s s' : quiet s s' → pushed s s'.
Proof. intros (? & ? & ? & ? & ?). split_and!; [done..|]. exists []. by rewrite app_nil_r. Qed.

Lemma quiet_pushed_trans s s1 s2 : quiet s s1 → pushed s1 s2 → pushed s s2.
Proof.
  intros (Hw & Hq & Hh & _ & Hg) (Hw' & Hh' & Hs' & Hg' & l & Hl & Hf). split_and!; [congruence..|done|intros a Ha; by apply Hg', Hg|].
  exists l. by rewrite Hl, Hq.
Qed.

Lemma runs_send_known n b a enc s :
  sw_ok I (tx_switch s) → packet_to b a → knows E a (now_world s) → txQueue_m ∉ held s →
  runs (tx_send Cipher Auth E (S n) b enc) s (λ _ s', pushed s s').
Proof.
  intros Hs Hb Hk Hh. unfold tx_send, send_with. apply runs_bind, (runs_destination b a); [done|].
  destruct (_ =? _); [by apply runs_ret, quiet_pushed, quiet_refl|]. apply runs_bind.
  eapply runs_weaken; [by apply (runs_trySend_known n b a)|]. intros sent s2 H2. cbn beta.
  destruct sent; [by apply runs_ret, quiet_pushed|]. pose proof H2 as (Hw & Hq & Hhd & Hsw & Hg).
  apply runs_locked; [by rewrite Hhd|]. apply runs_bind, (runs_destination b a); [done|].
  apply runs_bind, runs_ask, runs_bind, runs_get_queue, runs_put_queue.
  split_and!; [done..|]. eexists [_]. split; [cbn [txQueue with_held]; by rewrite Hq|].
  constructor; [|constructor]. split; [done|]. by apply Hg.
Qed.

Lemma appendTo_holds b d a : holds b d → zlen d + 5 <= C →
  ∃ b', AddressWire.appendTo C a b = Ok (Ret tt, b') ∧ holds b' (d ++ be_bytes 5 a).
Proof.
  intros [Hr Hok] Hl. destruct (repr_bounds C _ _ Hr) as (El & Hd & _). assert (C = 5776) as HC5 by done.
  assert (zlen (be_bytes 5 a) = 5) as H5 by (unfold zlen; by rewrite length_be_bytes).
  unfold AddressWire.appendTo, append_through, appendField. rewrite address_octets_bytes, H5, El, u32_small by (unfold uint; lia).
  rewrite (proj2 (Z.ltb_ge _ _)) by lia. cbn [done_ _b _l].
  destruct (grow C b d (be_bytes 5 a) Hr ltac:(lia)) as (m & Em & Hm). rewrite El in Em. rewrite Em. eexists. split; [done|].
  split; [|exact (mem_write_bytes_ok _ _ _ _ Hok (be_bytes_ok _ _) Em)]. by rewrite H5 in Hm.
Qed.

Lemma runs_sendWhois n addr l s : sw_ok I (tx_switch s) → txQueue_m ∉ held s →
  runs (sendWhoisRequest Cipher Auth E (S n) addr l) s (λ _ s', pushed s s').
Proof.
  intros Hs Hh. unfold sendWhoisRequest, sendWhois_with. apply runs_bind.
  apply runs_call; [done|intros K w; apply (eo_getUpstreamPeer _ _ (te_env _ _ HE K))|]. intros s1 H1 Hw1.
  destruct (_.1) as [up|] eqn:Eup; [|by apply runs_ret, quiet_pushed].
  destruct (te_upstream _ _ HE l false (now_world s) up (proj2 (proj2 Hs)) Eup) as [Hk Hr]. rewrite <- Hw1 in Hk.
  apply runs_bind. eapply runs_in_switch; [by eapply quiet_switch|intros K; by apply (sw_safe_new_packet _ _ (te_env _ _ HE K))|].
  intros b s2 H2 (iv & mac & Hb & Hok). apply runs_bind. pose proof (quiet_trans _ _ _ H1 H2) as H02.
  destruct (appendTo_holds b _ addr Hb) as (b1 & E1 & Hb1); [rewrite zlen_pkt by done; done|].
  apply (runs_on _ _ _ _ _ _ E1).
  assert (pkt iv (be_bytes 5 (peer_address W Peer Path Esw up) ++ be_bytes 5 (self W Peer Path Esw)) 0 mac [VERB_WHOIS] ++ be_bytes 5 addr
    = pkt iv (be_bytes 5 (peer_address W Peer Path Esw up) ++ be_bytes 5 (self W Peer Path Esw)) 0 mac (VERB_WHOIS :: be_bytes 5 addr)) as Ep.
  { unfold pkt. by rewrite <- !app_assoc, <- app_comm_cons, <- app_assoc. }
  rewrite Ep in Hb1. apply runs_bind.
  apply (runs_on _ _ _ _ _ _ (read_id _ _ _ _ _ _ _ _ Hb1 Hok)).
  apply runs_bind, runs_tell; [by eapply quiet_switch|intros K w; apply (te_expect _ _ HE)|]. intros s5 H5. pose proof (quiet_trans _ _ _ H02 H5) as H05.
  apply runs_bind. eapply runs_weaken; [apply (runs_send_known n b1 (peer_address W Peer Path Esw up))|].
  - by eapply quiet_switch.
  - split; [done|]. by eexists _, _, _, _, _, _.
  - by apply H5, H2.
  - by rewrite (proj1 (proj2 (proj2 H05))).
  - intros [] s6 H6. apply runs_ret. by eapply quiet_pushed_trans.
Qed.

(** ** The invariant *)

Record request_ok (r : WhoisRequest) : Prop := {
  ro_sent : lastSent r ≠ 0;
  ro_consulted : length (peersConsulted r) = 4%nat;
  ro_retries : 0 <= retries r <= ZT_MAX_WHOIS_RETRIES;
}.

Definition whois_ok (t : gmap Z WhoisRequest) : Prop := map_Forall (λ _, request_ok) t.

(** A waiting packet: its peer is known, or a request for it is out that was repeated at most [m] times. *)
Definition awaited (m : Z) (t : gmap Z WhoisRequest) (w : W) (e : TXQueueEntry) : Prop :=
  packet_to (tx_packet e) (tx_dest e)
  ∧ (knows E (tx_dest e) w ∨ ∃ r, t !! tx_dest e = Some r ∧ retries r <= m).

Record tx_inv s : Prop := {
  ti_switch : sw_ok I (tx_switch s);
  ti_whois : whois_ok (whois s);
  ti_queue : Forall (awaited 0 (whois s) (now_world s)) (txQueue s);
  ti_held : held s = [];
}.

Lemma awaited_mono m m' t t' w w' e : awaited m t w e → grows w w' →
  (∀ r, t !! tx_dest e = Some r → retries r <= m → ∃ r', t' !! tx_dest e = Some r' ∧ retries r' <= m') → awaited m' t' w' e.
Proof. intros [Hp [Hk|(r & Hr & Hm)]] Hg Ht; (split; [done|]); [left; by apply Hg|right; by eapply Ht]. Qed.

Lemma awaited_quiet m t w w' l : Forall (awaited m t w) l → grows w w' → Forall (awaited m t w') l.
Proof. intros Hl Hg. eapply Forall_impl; [done|]. intros e He. eapply awaited_mono; [done|done|]. by eauto. Qed.

(** [s'] has a fresh request for [a], and maybe packets for known peers at the end of the queue. *)
Definition asked (a : Z) s s' : Prop :=
  held s' = held s ∧ sw_ok I (tx_switch s') ∧ grows (now_world s) (now_world s')
  ∧ (∃ r, whois s' = <[a := r]> (whois s) ∧ request_ok r ∧ retries r = 0)
  ∧ ∃ l, txQueue s' = txQueue s ++ l ∧ (is_Some (whois s !! a) → l = [])
      ∧ Forall (λ e, packet_to (tx_packet e) (tx_dest e) ∧ knows E (tx_dest e) (now_world s')) l.

Lemma runs_note_request a s : sw_ok I (tx_switch s) → whois_ok (whois s) → outstandingWhoisRequests_m ∉ held s →
  runs (note_request E a) s (λ new s', asked a s s' ∧ txQueue s' = txQueue s ∧ (new = true → whois s !! a = None)).
Proof.
  intros Hs Hw Hh. apply runs_locked; [done|]. apply runs_bind, runs_get_whois. cbn [whois with_held].
  destruct (whois s !! a) as [r|] eqn:Er; cbn [default].
  - destruct (Hw a r Er) as [Hl Hc Hr]. rewrite (proj2 (Z.eqb_neq _ _)) by done. cbn [negb].
    apply runs_bind, runs_put_whois, runs_ret. split; [|by split]. split_and!; [done|done|by intros z Hz| |].
    + eexists. split; [done|]. split; [|done]. by split.
    + exists []. by rewrite app_nil_r.
  - cbn [lastSent no_request negb Z.eqb]. apply runs_bind, runs_ask. apply runs_bind, runs_put_whois, runs_ret.
    split; [|by split]. split_and!; [done|done|by intros z Hz| |].
    + eexists. split; [done|]. split; [|done]. split; [|done|done]. apply (te_now _ _ HE), Hs.
    + exists []. by rewrite app_nil_r.
Qed.

Lemma runs_requestWhois n a s : sw_ok I (tx_switch s) → whois_ok (whois s) → outstandingWhoisRequests_m ∉ held s →
  (is_Some (whois s !! a) ∨ txQueue_m ∉ held s) → runs (requestWhois Cipher Auth E (S n) a) s (λ _ s', asked a s s').
Proof.
  intros Hs Hw Hh Hor. apply runs_bind. eapply runs_weaken; [by apply runs_note_request|].
  intros new s1 ((Hh1 & Hs1 & Hg1 & (r & Hr & Hrok & Hr0) & l1 & Hl1 & _ & _) & Hq1 & Hnew). cbn beta.
  destruct new; [|apply runs_ret; split_and!; [done..|by exists r|exists []; by rewrite app_nil_r]].
  specialize (Hnew eq_refl). destruct Hor as [[? Hsome]|Htx]; [congruence|].
  apply runs_bind. eapply runs_weaken; [by apply (runs_sendWhois n a [] s1); [|by rewrite Hh1]|].
  intros ? s2 (Hw2 & Hh2 & Hs2 & Hg2 & l & Hl & Hf). apply runs_ret.
  split_and!; [congruence|done|intros z Hz; by apply Hg2, Hg1|exists r; split; [congruence|done]|].
  exists l. split; [congruence|]. split; [|done]. rewrite Hnew. by intros [? ?].
Qed.

Lemma quiet_asked a s s1 s2 : quiet s s1 → asked a s1 s2 → asked a s s2.
Proof.
  intros (Hw & Hq & Hh & _ & Hg) (Hh' & Hs' & Hg' & Hr & l & Hl & Hn & Hf). unfold asked. rewrite <- Hw, <- Hq, <- Hh.
  split_and!; [done..|intros z Hz; by apply Hg', Hg|done|by exists l].
Qed.

(** A packet is sent or not; when its peer is unknown there is a fresh request afterwards. *)
Lemma runs_trySend n b a enc s : sw_ok I (tx_switch s) → whois_ok (whois s) → outstandingWhoisRequests_m ∉ held s → packet_to b a →
  (knows E a (now_world s) ∨ is_Some (whois s !! a) ∨ txQueue_m ∉ held s) →
  runs (trySend Cipher Auth E (S (S n)) b enc) s
    (λ sent s', (knows E a (now_world s) ∧ quiet s s') ∨ (¬ knows E a (now_world s) ∧ sent = false ∧ asked a s s')).
Proof.
  intros Hs Hw Hh Hb Hor. destruct (decide (knows E a (now_world s))) as [Hk|Hk].
  { eapply runs_weaken; [by apply (runs_trySend_known (S n) b a)|]. intros sent s' Hq. by left. }
  destruct Hor as [|Hor]; [done|]. remember (S n) as m eqn:Em. cbn [trySend]. apply runs_bind, runs_ask. apply runs_bind, (runs_destination b a); [done|].
  apply runs_bind, runs_call; [done|intros K w; apply (eo_getPeer _ _ (te_env _ _ HE K))|]. intros s2 H2 _.
  assert ((getPeer W Peer Path Esw a (now_world s)).1 = None) as -> by (by apply eq_None_not_Some).
  pose proof H2 as (Hw2 & _ & Hh2 & Hs2 & _). apply runs_bind. subst m.
  eapply runs_weaken; [apply (runs_requestWhois n a s2); [done|by rewrite Hw2|by rewrite Hh2|by rewrite Hw2, Hh2]|].
  intros [] s3 H3. apply runs_ret. right. split; [done|]. split; [done|]. by eapply quiet_asked.
Qed.

Lemma asked_lookup a s s' z r : asked a s s' → whois s !! z = Some r → 0 <= retries r → ∃ r', whois s' !! z = Some r' ∧ retries r' <= retries r.
Proof.
  intros (_ & _ & _ & (r1 & -> & _ & H0) & _) Hz Hr. destruct (decide (z = a)) as [->|].
  - rewrite lookup_insert_eq. exists r1. split; [done|lia].
  - rewrite lookup_insert_ne by done. by exists r.
Qed.

Lemma asked_whois a s s' : asked a s s' → whois_ok (whois s) → whois_ok (whois s').
Proof. intros (_ & _ & _ & (r & -> & Hr & _) & _) Hw. by apply map_Forall_insert_2. Qed.

Lemma asked_awaited a m s s' l : asked a s s' → whois_ok (whois s) → Forall (awaited m (whois s) (now_world s)) l →
  Forall (awaited m (whois s') (now_world s')) l.
Proof.
  intros Ha Hw Hl. eapply Forall_impl; [done|]. intros e He. eapply awaited_mono; [done|apply Ha|]. intros r Hr Hm.
  destruct (asked_lookup _ _ _ _ _ Ha Hr (proj1 (ro_retries _ (Hw _ _ Hr)))) as (r' & ? & ?). exists r'. split; [done|lia].
Qed.

Lemma known_awaited m t w l : Forall (λ e, packet_to (tx_packet e) (tx_dest e) ∧ knows E (tx_dest e) w) l → Forall (awaited m t w) l.
Proof. intros Hl. eapply Forall_impl; [done|]. intros e [He Hk]. split; [done|by left]. Qed.

Lemma tx_inv_quiet s s' : tx_inv s → quiet s s' → tx_inv s'.
Proof.
  intros [Hs Hw Hq Hh] (Ew & Eq & Eh & Hs' & Hg). split; [done|by rewrite Ew| |congruence].
  rewrite Eq, Ew. by eapply awaited_quiet.
Qed.

Lemma tx_inv_asked a s s' : tx_inv s → asked a s s' → tx_inv s'.
Proof.
  intros [Hs Hw Hq Hh] Ha. pose proof (asked_whois _ _ _ Ha Hw) as Hw'. pose proof (asked_awaited _ _ _ _ _ Ha Hw Hq) as Hq'.
  destruct Ha as (Eh & Hs' & _ & _ & l & Hl & _ & Hf). split; [done|done| |congruence]. rewrite Hl.
  apply Forall_app_2; [done|by apply known_awaited].
Qed.

Lemma tx_inv_push s e sw : tx_inv s → awaited 0 (whois s) (now_world s) e → tx_switch s = sw →
  tx_inv (TxState sw (whois s) (txQueue s ++ [e]) (held s)).
Proof. intros [Hs Hw Hq Hh] He <-. split; [done|done| |done]. apply Forall_app_2; [done|by constructor]. Qed.

(** ** The operations *)

Lemma runs_send n b a enc s : tx_inv s → packet_to b a → runs (tx_send Cipher Auth E (S (S n)) b enc) s (λ _ s', tx_inv s').
Proof.
  intros Hi Hb. pose proof Hi as [Hs Hw Hq Hh]. unfold tx_send, send_with. apply runs_bind, (runs_destination b a); [done|].
  destruct (_ =? _); [by apply runs_ret|]. apply runs_bind.
  eapply runs_weaken; [apply (runs_trySend n b a); [done|done|rewrite Hh; apply not_elem_of_nil|done|right; right; rewrite Hh; apply not_elem_of_nil]|].
  intros sent s1 Hor. cbn beta.
  assert (tx_inv s1 ∧ ∀ now, awaited 0 (whois s1) (now_world s1) (TX a now b enc)) as [Hi1 Ha1].
  { destruct Hor as [[Hk Hqu]|(_ & _ & Ha)].
    - split; [by eapply tx_inv_quiet|]. intros now. split; [done|left]. by apply Hqu.
    - split; [by eapply tx_inv_asked|]. intros now. split; [done|right]. destruct Ha as (_ & _ & _ & (r & -> & _ & H0) & _).
      exists r. cbn [tx_dest]. rewrite lookup_insert_eq. split; [done|lia]. }
  destruct sent; [by apply runs_ret|]. apply runs_locked; [rewrite (ti_held _ Hi1); apply not_elem_of_nil|].
  apply runs_bind, (runs_destination b a); [done|]. apply runs_bind, runs_ask, runs_bind, runs_get_queue, runs_put_queue.
  exact (tx_inv_push s1 _ _ Hi1 (Ha1 _) eq_refl).
Qed.

(** The loop over the queue.  [U] is a property of the state that the loop keeps, [Q] holds of the entries
    it leaves in the queue. *)
Record loop_keeps (U : tx_state W Path → Prop) : Prop := {
  lk_quiet s s' : quiet s s' → U s → U s';
  lk_queue s q : sublist q (txQueue s) → U s → U (TxState (tx_switch s) (whois s) q (held s));
  lk_held s h : U s → U (with_held h s);
  lk_asked e s s' : e ∈ txQueue s → ¬ knows E (tx_dest e) (now_world s) → asked (tx_dest e) s s' → U s → U s';
}.

Lemma keeps_true : loop_keeps (λ _, True).
Proof. done. Qed.

Section loop.
Context (U : tx_state W Path → Prop) (HU : loop_keeps U).

Definition looping (m : Z) (kept rest : list TXQueueEntry) s : Prop :=
  sw_ok I (tx_switch s) ∧ whois_ok (whois s) ∧ held s = [txQueue_m] ∧ txQueue s = kept ++ rest
  ∧ Forall (awaited 0 (whois s) (now_world s)) kept ∧ Forall (awaited m (whois s) (now_world s)) rest ∧ U s.

Definition picks (m : Z) (Q : TXQueueEntry → Prop) (pick : TXQueueEntry → tx W Path bool) : Prop :=
  ∀ e kept rest s, looping m kept (e :: rest) s →
    runs (pick e) s (λ gone s', looping m kept (e :: rest) s' ∧ (gone = false → awaited 0 (whois s') (now_world s') e ∧ Q e)).

Lemma runs_tx_loop m Q pick : picks m Q pick → ∀ rest kept s, looping m kept rest s → Forall Q kept →
  runs (tx_loop pick kept rest) s (λ _ s', ∃ l, looping m (kept ++ l) [] s' ∧ Forall Q (kept ++ l) ∧ sublist l rest).
Proof.
  intros Hp rest. induction rest as [|e rest IH]; intros kept s Hl HQ; cbn [tx_loop].
  { apply runs_ret. exists []. rewrite app_nil_r. split_and!; [done..|constructor]. }
  apply runs_bind. eapply runs_weaken; [by apply Hp|]. intros gone s1 [Hl1 Hk]. cbn beta. destruct gone.
  - apply runs_bind, runs_put_queue. destruct Hl1 as (Hs & Hw & Hh & Hq & Hkept & Hrest & HUs). apply Forall_cons in Hrest as [_ Hrest].
    eapply runs_weaken; [apply (IH kept); [|done]|].
    { split_and!; [done..|]. apply (lk_queue _ HU); [|done]. rewrite Hq. apply sublist_app; [done|by constructor]. }
     intros [] s2 (l & Hl2 & HQ2 & Hsub). exists l. split_and!; [done..|by constructor].
  - destruct (Hk eq_refl) as [He HQe]. destruct Hl1 as (Hs & Hw & Hh & Hq & Hkept & Hrest & HUs). apply Forall_cons in Hrest as [_ Hrest].
    eapply runs_weaken; [apply (IH (kept ++ [e]))|].
    + split_and!; [done..|by rewrite <- app_assoc|by apply Forall_app_2; [|by constructor]|done|done].
    + apply Forall_app_2; [done|by constructor].
    + intros [] s2 (l & Hl2 & HQ2 & Hsub). exists (e :: l). rewrite <- app_assoc in Hl2, HQ2. split_and!; [done..|by constructor].
Qed.

Lemma looping_try n m e kept rest s : looping m kept (e :: rest) s →
  runs (trySend Cipher Auth E (S (S n)) (tx_packet e) (tx_encrypt e)) s
    (λ sent s', looping m kept (e :: rest) s' ∧ awaited 0 (whois s') (now_world s') e).
Proof.
  intros (Hs & Hw & Hh & Hq & Hkept & Hrest & HUs). pose proof Hrest as [He _]%Forall_cons. destruct He as [Hp Hor].
  eapply runs_weaken; [apply (runs_trySend n _ (tx_dest e)); [done|done|rewrite Hh; set_solver|done|]|].
  { destruct Hor as [?|(r & Hr & _)]; [by left|right; left; by exists r]. }
  intros sent s1 [[Hk (Ew & Eq & Eh & Hs1 & Hg)]|(Hnk & _ & Ha)].
  - split; [|split; [done|left; by apply Hg]]. split_and!; [done|by rewrite Ew|congruence|congruence|rewrite Ew; by eapply awaited_quiet..|].
    apply (lk_quiet _ HU s); [by split_and!|done].
  - pose proof (asked_whois _ _ _ Ha Hw) as Hw1. pose proof (asked_awaited _ _ _ _ _ Ha Hw Hkept) as Hk1. pose proof (asked_awaited _ _ _ _ _ Ha Hw Hrest) as Hr1.
    assert (U s1) as HU1 by (refine (lk_asked _ HU e s s1 _ Hnk Ha HUs); rewrite Hq; apply elem_of_app; right; by left).
    destruct Ha as (Eh & Hs1 & _ & (r & Er & _ & Hr0) & l & Hl & Hn & _). split.
    + destruct Hor as [?|(r1 & Hr & _)]; [done|]. rewrite Hn, app_nil_r in Hl by (by exists r1). split_and!; done || congruence.
    + split; [done|right]. exists r. rewrite Er, lookup_insert_eq. split; [done|lia].
Qed.

Lemma picks_peer n a : picks 0 (λ _, True) (λ e, if tx_dest e =? a then trySend Cipher Auth E (S (S n)) (tx_packet e) (tx_encrypt e) else mret false).
Proof.
  intros e kept rest s Hl. cbn beta. destruct (_ =? _).
  - eapply runs_weaken; [by apply looping_try|]. intros sent s' [? ?]. by split.
  - apply runs_ret. split; [done|]. intros _. split; [|done]. destruct Hl as (_ & _ & _ & _ & _ & Hrest & _). by apply Forall_cons in Hrest as [? _].
Qed.

(** What the timer keeps is not older than the timeout. *)
Definition young (now : Z) (e : TXQueueEntry) : Prop := wsub 64 now (creationTime e) <= ZT_TRANSMIT_QUEUE_TIMEOUT.

Lemma picks_timer n m now : picks m (young now) (λ e,
  sent ← trySend Cipher Auth E (S (S n)) (tx_packet e) (tx_encrypt e);
  if sent : bool then mret true else mret (ZT_TRANSMIT_QUEUE_TIMEOUT <? wsub 64 now (creationTime e))).
Proof.
  intros e kept rest s Hl. apply runs_bind. eapply runs_weaken; [by apply looping_try|]. intros sent s' [Hl' He]. cbn beta.
  destruct sent; apply runs_ret; [done|]. split; [done|]. intros Hlt%Z.ltb_ge. by split.
Qed.

(** One pass over the queue, from a state whose waiting packets have requests with at most [m] repetitions. *)
Lemma runs_pass m Q pick s : picks m Q pick →
  sw_ok I (tx_switch s) → whois_ok (whois s) → held s = [] → Forall (awaited m (whois s) (now_world s)) (txQueue s) → U s →
  runs (locked txQueue_m (q ← get_queue_tx; tx_loop pick [] q)) s
    (λ _ s', tx_inv s' ∧ U s' ∧ Forall Q (txQueue s') ∧ sublist (txQueue s') (txQueue s)).
Proof.
  intros Hp Hs Hw Hh Hq HUs. apply runs_locked; [rewrite Hh; apply not_elem_of_nil|]. apply runs_bind, runs_get_queue.
  eapply runs_weaken; [apply (runs_tx_loop m Q pick Hp _ []); [|constructor]|].
  - split_and!; [done|done|cbn; by rewrite Hh|done|constructor|done|by apply (lk_held _ HU)].
  - intros [] s1 (l & (Hs1 & Hw1 & Hh1 & Hq1 & Hk1 & _ & HU1) & HQ & Hsub). rewrite app_nil_l, ?app_nil_r in *.
    split_and!; [|by apply (lk_held _ HU)|by rewrite <- Hq1 in HQ|cbn [txQueue with_held] in *; by rewrite Hq1]. split; [done|done| |done]. cbn [txQueue with_held whois]. by rewrite Hq1.
Qed.

End loop.

Lemma sw_safe_decode_waiting T K i : (i <= ZT_RX_QUEUE_SIZE)%nat → sw_hoare (kept E I K) T (decode_waiting E i) (λ _, True).
Proof.
  intros Hi. induction i as [|i IH]; cbn [decode_waiting]; [by apply sw_safe_ret|].
  eapply sw_safe_bind; [apply sw_safe_get; lia|]. intros e He. eapply (sw_safe_bind _ _ _ (λ _, True)).
  - destruct (_ && _); [|by apply sw_safe_ret].
    eapply sw_safe_bind; [apply (sw_safe_decode _ _ (te_env _ _ HE K)), He|]. intros [ok p] Hp. cbn in Hp. apply sw_safe_set. by destruct He, ok.
  - intros _ _. apply IH. lia.
Qed.

Lemma runs_peer n p s : tx_inv s → knows E (peer_address W Peer Path Esw p) (now_world s) →
  runs (doAnythingWaitingForPeer Cipher Auth E (S (S n)) p) s (λ _ s', tx_inv s' ∧ sublist (txQueue s') (txQueue s)).
Proof.
  intros [Hs Hw Hq Hh] Hk. unfold doAnythingWaitingForPeer. cbv zeta. set (a := peer_address _ _ _ _ _) in *.
  apply runs_bind, runs_locked; [rewrite Hh; apply not_elem_of_nil|]. apply runs_bind, runs_get_whois, runs_put_whois. cbn [whois with_held].
  apply runs_bind, runs_locked; [cbn; rewrite Hh; apply not_elem_of_nil|].
  apply (runs_in_switch _ (λ _, True)); [done|intros K; by apply sw_safe_decode_waiting|]. intros [] s2 (Hw2 & Hq2 & Hh2 & Hs2 & Hg2) _. cbn in Hw2, Hq2.
  eapply runs_weaken; [apply (runs_pass _ keeps_true 0 _ _ _ (picks_peer _ keeps_true n a))|].
  - done.
  - cbn [whois with_held]. rewrite Hw2. by apply map_Forall_delete.
  - done.
  - cbn [whois with_held txQueue]. rewrite Hw2, Hq2. eapply Forall_impl; [exact Hq|]. intros e [Hp Hor]. split; [done|].
    destruct (decide (tx_dest e = a)) as [->|Hne]; [left; by apply Hg2|]. destruct Hor as [?|(r & Hr & H0)]; [left; by apply Hg2|right].
    exists r. by rewrite lookup_delete_ne.
  - done.
  - intros [] s3 (Hi & _ & _ & Hsub). cbn [txQueue with_held] in Hsub. rewrite Hq2 in Hsub. by split.
Qed.

(** ** Timers *)

(** The requests in [l] are still to be visited; their waiting packets have the count 0, others at most 1. *)
Definition retrying (l : list Z) s : Prop :=
  sw_ok I (tx_switch s) ∧ whois_ok (whois s) ∧ held s = [outstandingWhoisRequests_m]
  ∧ Forall (λ e, awaited (if bool_decide (tx_dest e ∈ l) then 0 else 1) (whois s) (now_world s) e) (txQueue s).

Lemma retrying_weaken a l s : retrying (a :: l) s → retrying l s.
Proof.
  intros (Hs & Hw & Hh & Hq). split_and!; [done..|]. eapply Forall_impl; [exact Hq|]. intros e He. cbn beta in *.
  eapply awaited_mono; [exact He|by intros z Hz|]. intros r Hr Hm. exists r. split; [done|]. repeat case_bool_decide; try lia. set_solver.
Qed.

(** The count of [a] may change, as long as it is at most 1 when a packet waits for [a]. *)
Lemma retrying_awaited a l t t' w w' q :
  a ∉ l → grows w w' → (∀ z, z ≠ a → t' !! z = t !! z) →
  (∀ r, t !! a = Some r → retries r <= 0 → ∃ r', t' !! a = Some r' ∧ retries r' <= 1) →
  Forall (λ e, awaited (if bool_decide (tx_dest e ∈ a :: l) then 0 else 1) t w e) q →
  Forall (λ e, awaited (if bool_decide (tx_dest e ∈ l) then 0 else 1) t' w' e) q.
Proof.
  intros Hal Hg Hne Ha Hq. eapply Forall_impl; [exact Hq|]. intros e He. cbn beta in *. eapply awaited_mono; [exact He|done|].
  intros r Hr Hm. destruct (decide (tx_dest e = a)) as [Hd|Hd].
  - rewrite Hd in *. rewrite bool_decide_eq_true_2 in Hm by (by left). rewrite bool_decide_eq_false_2 by done. by apply (Ha r).
  - rewrite Hne by done. exists r. split; [done|]. repeat case_bool_decide; try lia. set_solver.
Qed.

(** A request that is due is repeated or given up, another one stays as it is. *)
Definition repeated (now : Z) (o o' : option WhoisRequest) : Prop :=
  match o with
  | None => o' = None
  | Some r =>
      (ZT_WHOIS_RETRY_DELAY <= wsub 64 now (lastSent r)
       ∧ if ZT_MAX_WHOIS_RETRIES <=? retries r then o' = None
         else ∃ r', o' = Some r' ∧ lastSent r' = now ∧ retries r' = retries r + 1)
      ∨ (wsub 64 now (lastSent r) < ZT_WHOIS_RETRY_DELAY ∧ o' = Some r)
  end.

(** Packets for known peers were added to the queue. *)
Definition queued s s' : Prop :=
  grows (now_world s) (now_world s')
  ∧ ∃ q, txQueue s' = txQueue s ++ q ∧ Forall (λ e, packet_to (tx_packet e) (tx_dest e) ∧ knows E (tx_dest e) (now_world s')) q.

Lemma queued_refl s s' : tx_switch s' = tx_switch s → txQueue s' = txQueue s → queued s s'.
Proof. intros Es Eq. unfold queued, now_world. rewrite Es, Eq. split; [by intros a Ha|]. exists []. by rewrite app_nil_r. Qed.

Lemma queued_trans s s1 s2 : queued s s1 → queued s1 s2 → queued s s2.
Proof.
  intros [Hg (q & Hq & Hf)] [Hg' (q' & Hq' & Hf')]. split; [intros a Ha; by apply Hg', Hg|]. exists (q ++ q').
  rewrite Hq', Hq, app_assoc. split; [done|]. apply Forall_app_2; [|done]. eapply Forall_impl; [exact Hf|]. intros e [He Hk]. split; [done|by apply Hg'].
Qed.

Lemma runs_retry n now a l d s : now ≠ 0 → a ∉ l → retrying (a :: l) s →
  runs (retry_request Cipher Auth E (S n) now a d) s
    (λ _ s', retrying l s' ∧ (∀ z, z ≠ a → whois s' !! z = whois s !! z) ∧ repeated now (whois s !! a) (whois s' !! a) ∧ queued s s').
Proof.
  intros Hnow Hal Hre. pose proof Hre as (Hs & Hw & Hh & Hq). apply runs_bind, runs_get_whois.
  destruct (whois s !! a) as [r|] eqn:Er.
  2:{ apply runs_ret. split; [by eapply retrying_weaken|]. split; [done|]. rewrite Er. split; [done|by apply queued_refl]. }
  destruct (Hw a r Er) as [Hsent Hcon Hret]. cbn zeta.
  destruct (Z.leb_spec ZT_WHOIS_RETRY_DELAY (wsub 64 now (lastSent r))) as [Hdue|Hdue].
  2:{ apply runs_ret. split; [by eapply retrying_weaken|]. split; [done|]. rewrite Er. split; [right; by split|by apply queued_refl]. }
  destruct (Z.leb_spec ZT_MAX_WHOIS_RETRIES (retries r)) as [Hge|Hlt]; unfold ZT_MAX_WHOIS_RETRIES in *.
  - apply runs_bind, runs_put_whois, runs_ret. cbn [whois]. rewrite lookup_delete_eq.
    split; [|split; [intros z Hz; by rewrite lookup_delete_ne|]]; [|split; [left; split; [done|]; by rewrite (proj2 (Z.leb_le _ _))|by apply queued_refl]].
    split_and!; [done|by apply map_Forall_delete|done|]. cbn [txQueue whois].
    eapply retrying_awaited; [done|by intros z Hz| | |exact Hq]; [intros z Hz; by rewrite lookup_delete_ne|].
    intros r1 Hr1 Hm. rewrite Er in Hr1. injection Hr1 as <-. lia.
  - apply runs_bind, runs_put_whois. apply runs_bind.
    eapply runs_weaken; [apply (runs_sendWhois n); [done|cbn; rewrite Hh; by intros [|[]%elem_of_nil]%elem_of_cons]|].
    intros x s2 (Hw2 & Hh2 & Hs2 & Hg2 & q & Hq2 & Hf). cbn [whois txQueue held] in *. apply runs_bind, runs_get_whois. cbn zeta.
    rewrite bool_decide_eq_true_2 by lia. apply runs_bind, runs_put_whois, runs_ret. rewrite Hw2.
    assert (wrap 32 (retries r + 1) = retries r + 1) as Hwr by (apply wrap_small; unfold word_ok; lia). rewrite insert_insert_eq.
    cbn [whois]. rewrite lookup_insert_eq.
    split; [|split; [intros z Hz; by rewrite lookup_insert_ne|]];
      [|split; [left; split; [done|]; rewrite (proj2 (Z.leb_gt _ _)) by done; eexists; split; [done|]; by rewrite Hwr|by split; [exact Hg2|exists q]]].
    split_and!; [done| |cbn; congruence|]; cbn [whois txQueue tx_switch].
    + apply map_Forall_insert_2; [|done]. split; cbn [lastSent peersConsulted retries]; [done|by rewrite length_insert|]. unfold ZT_MAX_WHOIS_RETRIES. lia.
    + rewrite Hq2. apply Forall_app_2.
      * eapply (retrying_awaited a l); [done|exact Hg2| | |exact Hq]; [intros z Hz; by rewrite lookup_insert_ne|].
        intros r1 Hr1 Hm. rewrite Er in Hr1. injection Hr1 as <-. rewrite lookup_insert_eq. eexists. split; [done|]. cbn [retries]. lia.
      * eapply Forall_impl; [exact Hf|]. intros e [He Hk]. split; [done|by left].
Qed.

Lemma runs_retry_loop n now l d s : now ≠ 0 → NoDup l → retrying l s →
  runs (retry_loop Cipher Auth E (S n) now l d) s
    (λ _ s', retrying [] s' ∧ queued s s'
      ∧ ∀ z, if bool_decide (z ∈ l) then repeated now (whois s !! z) (whois s' !! z) else whois s' !! z = whois s !! z).
Proof.
  intros Hnow Hnd. revert d s. induction Hnd as [|a l Hal Hnd IH]; intros d s Hre; cbn [retry_loop].
  { apply runs_ret. split; [done|]. split; [by apply queued_refl|done]. }
  apply runs_bind. eapply runs_weaken; [by apply (runs_retry n now a l)|]. intros d' s1 (Hre1 & Hne & Ha & Hq1).
  eapply runs_weaken; [by apply IH|]. intros d2 s2 (Hre2 & Hq2 & Hl). split; [done|]. split; [by eapply queued_trans|].
  intros z. specialize (Hl z). destruct (decide (z = a)) as [->|Hz].
  - rewrite bool_decide_eq_false_2 in Hl by done. rewrite bool_decide_eq_true_2 by (by left). by rewrite Hl.
  - rewrite Hne in Hl by done. erewrite bool_decide_ext; [exact Hl|]. rewrite elem_of_cons. naive_solver.
Qed.

Lemma unite_loop_ok now l m : map_Forall (λ k (_ : Z), k.1 <= k.2) m → map_Forall (λ k _, k.1 <= k.2) (unite_loop now l m).
Proof.
  revert m. induction l as [|k l IH]; intros m Hm; cbn [unite_loop]; [done|]. apply IH.
  destruct (m !! k); [|done]. destruct (_ <=? _); [by apply map_Forall_delete|done].
Qed.

(** The timer, when the queue pass keeps [U] and [U] holds after the requests were visited. *)
Lemma runs_timer_keeps U n now s : loop_keeps U → now ≠ 0 → tx_inv s →
  (∀ s1, (∀ z, repeated now (whois s !! z) (whois s1 !! z)) → queued s s1 → U s1) →
  (∀ s1 sw1, world sw1 = now_world s1 → U s1 → U (with_switch sw1 s1)) →
  runs (doTimerTasks Cipher Auth E (S (S n)) now) s (λ _ s', tx_inv s' ∧ Forall (young now) (txQueue s') ∧ U s').
Proof.
  intros HU Hnow [Hs Hw Hq Hh] HU1 HU2. unfold doTimerTasks. apply runs_bind, runs_locked; [rewrite Hh; apply not_elem_of_nil|].
  apply runs_bind, runs_get_whois. cbn [whois with_held]. set (l := whois_order _ _ _ _ _).
  assert (l ≡ₚ (map_to_list (whois s)).*1) as Hl by apply (te_whois_order _ _ HE).
  eapply runs_weaken; [apply (runs_retry_loop (S n)); [done| |]|].
  - rewrite Hl. apply NoDup_fst_map_to_list.
  - split_and!; [done|done|cbn; by rewrite Hh|]. cbn [txQueue whois with_held]. eapply Forall_impl; [exact Hq|]. intros e He. cbn beta.
    eapply awaited_mono; [exact He|by intros z Hz|]. intros r Hr Hm. exists r. split; [done|]. case_bool_decide; lia.
  - intros d s1 ((Hs1 & Hw1 & _ & Hq1) & Hqu & Hrep). apply runs_bind.
    assert (∀ z, repeated now (whois s !! z) (whois s1 !! z)) as Hrep'.
    { intros z. specialize (Hrep z). case_bool_decide as Hz; [done|]. cbn [whois with_held] in Hrep. rewrite Hrep.
      destruct (whois s !! z) as [r|] eqn:Er; [|done]. exfalso. apply Hz. rewrite Hl. apply list_elem_of_fmap. exists (z, r). split; [done|].
      by apply elem_of_map_to_list. }
    eapply runs_weaken; [apply (runs_pass U HU 1 _ _ _ (picks_timer U HU n 1 now)); [done|done|done| |]|].
    { cbn [txQueue whois with_held]. eapply Forall_impl; [exact Hq1|]. intros e He. exact He. }
    { by apply HU1. }
    intros [] s2 ([Hs2 Hw2 Hq2 Hh2] & HUs & Hy & _). apply runs_bind, runs_locked; [rewrite Hh2; apply not_elem_of_nil|].
    eexists tt, _. split; [reflexivity|]. apply runs_ret. destruct Hs2 as (? & Hu & ?). split; [|split; [done|]].
    + split; [|done|done|done]. split; [done|]. split; [by apply unite_loop_ok|done].
    + apply (lk_held _ HU). apply (HU2 (with_held _ s2)); [done|]. by apply (lk_held _ HU).
Qed.

Lemma runs_timer n now s : now ≠ 0 → tx_inv s →
  runs (doTimerTasks Cipher Auth E (S (S n)) now) s (λ _ s', tx_inv s' ∧ Forall (young now) (txQueue s')).
Proof. intros Hnow Hi. eapply runs_weaken; [by apply (runs_timer_keeps (λ _, True))|]. intros d s' (? & ? & _). by split. Qed.

(** ** Giving up *)

(** No packet waits for the identity of [a]. *)
Definition unwaited (a : Z) s : Prop := Forall (λ e, tx_dest e ≠ a ∨ knows E (tx_dest e) (now_world s)) (txQueue s).

Lemma unwaited_grows a q w w' : grows w w' → Forall (λ e, tx_dest e ≠ a ∨ knows E (tx_dest e) w) q →
  Forall (λ e, tx_dest e ≠ a ∨ knows E (tx_dest e) w') q.
Proof. intros Hg Hq. eapply Forall_impl; [exact Hq|]. intros e [?|?]; [by left|right; by apply Hg]. Qed.

Lemma unwaited_keeps now a o : loop_keeps (λ s, repeated now o (whois s !! a) ∧ unwaited a s).
Proof.
  split.
  - intros s s' (Ew & Eq & _ & _ & Hg) [Hr Hu]. unfold unwaited. rewrite Ew, Eq. split; [done|by eapply unwaited_grows].
  - intros s q Hsub [Hr Hu]. split; [done|]. apply Forall_forall. intros e He. apply (proj1 (Forall_forall _ _) Hu).
    eapply elem_of_submseteq; [exact He|by apply sublist_submseteq].
  - done.
  - intros e s s' Hin Hnk (_ & _ & Hg & (r & Er & _) & l & El & _ & Hf) [Hr Hu]. unfold unwaited in *. rewrite Er, El.
    assert (tx_dest e ≠ a) as Hne. { destruct (proj1 (Forall_forall _ _) Hu e Hin); done. }
    rewrite lookup_insert_ne by done. split; [done|]. apply Forall_app_2; [by eapply unwaited_grows|].
    eapply Forall_impl; [exact Hf|]. intros e' [_ Hk]. by right.
Qed.

Lemma runs_timer_request n now a s : now ≠ 0 → tx_inv s → unwaited a s →
  runs (doTimerTasks Cipher Auth E (S (S n)) now) s (λ _ s', tx_inv s' ∧ repeated now (whois s !! a) (whois s' !! a) ∧ unwaited a s').
Proof.
  intros Hnow Hi Hu. eapply runs_weaken; [apply (runs_timer_keeps _ n now s (unwaited_keeps now a (whois s !! a)) Hnow Hi)|].
  - intros s1 Hr [Hg (q & Hq & Hf)]. split; [done|]. unfold unwaited. rewrite Hq. apply Forall_app_2; [by eapply unwaited_grows|].
    eapply Forall_impl; [exact Hf|]. intros e' [_ Hk]. by right.
  - intros s1 sw1 Hw [Hr Hu1]. split; [done|]. unfold unwaited, now_world, with_switch in *. cbn [tx_switch txQueue]. by rewrite Hw.
  - intros d s' (Hi' & _ & Hr & Hu'). done.
Qed.

(** ** A peer that can be reached *)

Definition reachable_peer (a : Z) : Prop :=
  ∀ w now p, I w → (getPeer W Peer Path Esw a w).1 = Some p →
    ∃ path, getBestPath W Peer Path E p now false (getPeer W Peer Path Esw a w).2 = Some path
            ∧ alive W Peer Path E path now (getPeer W Peer Path Esw a w).2 = true.

(** The packets [l] are sent to [a] one after the other, each on the best path of the peer. *)
Inductive flushed (a : Z) : state W Path → list TXQueueEntry → state W Path → Prop :=
  | flushed_nil sw : flushed a sw [] sw
  | flushed_cons sw e l p path b sw2 sw3 :
      let w1 := (getPeer W Peer Path Esw a (world sw)).2 in
      (getPeer W Peer Path Esw a (world sw)).1 = Some p →
      getBestPath W Peer Path E p (node_now W Peer Path E (world sw)) false w1 = Some path →
      transmit Cipher Auth Esw p path (node_now W Peer Path E (world sw)) (tx_packet e) (tx_encrypt e) (with_world w1 sw) = Ok (Ret b, sw2) →
      flushed a sw2 l sw3 → flushed a sw (e :: l) sw3.

Lemma trySend_flush n a e s : sw_ok I (tx_switch s) → reachable_peer a → packet_to (tx_packet e) a → knows E a (now_world s) →
  ∃ sw, trySend Cipher Auth E (S n) (tx_packet e) (tx_encrypt e) s = Ok (Ret true, with_switch sw s)
        ∧ sw_ok I sw ∧ knows E a (world sw) ∧ ∀ l sw3, flushed a sw l sw3 → flushed a (tx_switch s) (e :: l) sw3.
Proof.
  intros Hs Hr Hb [p Hp]. destruct (Hr (now_world s) (node_now W Peer Path E (now_world s)) p (proj2 (proj2 Hs)) Hp) as (path & Hbest & Halive).
  set (w1 := (getPeer W Peer Path Esw a (now_world s)).2) in *.
  assert (sw_ok (kept E I (λ z, knows E z (now_world s))) (with_world w1 (tx_switch s))) as Hs1.
  { destruct (proj1 (sw_ok_kept _) Hs) as (Hq & Hu & Hk). split; [done|]. split; [done|]. apply (eo_getPeer _ _ (te_env _ _ HE _)), Hk. }
  pose proof Hb as (_ & iv & src & f & mac & v & rest & Hh & Hok).
  destruct (sw_safe_transmit (T := False) Cipher Auth HC HA _ _ (te_env _ _ HE _) p path (node_now W Peer Path E (now_world s)) _ (tx_encrypt e) _ _ _ _ _ Hh Hok _ Hs1)
    as ([b|] & sw & Et & (Hq & Hu & Hi & Hk) & HT); [|done]. exists sw.
  split; [|split; [by split|split; [apply Hk; by exists p|]]].
  - assert (∀ A (g : W → A) s, in_switch (ask g) s = Ok (Ret (g (now_world s)), s)) as Eask by (by intros A g []).
    assert (find_route E (node_now W Peer Path E (now_world s)) p (with_switch (with_world w1 (tx_switch s)) s)
      = Ok (Ret (Some path), with_switch (with_world w1 (tx_switch s)) s)) as Eroute.
    { unfold find_route. rewrite (tx_bind_ret _ _ _ _ _ (Eask _ _ _)). cbn [now_world with_switch tx_switch world with_world].
      rewrite Hbest, (tx_bind_ret _ _ _ (Some path) (with_switch (with_world w1 (tx_switch s)) s)); [done|].
      rewrite !(tx_bind_ret _ _ _ _ _ (Eask _ _ _)). cbn [now_world with_switch tx_switch world with_world]. by rewrite Halive. }
    cbn [trySend]. rewrite (tx_bind_ret _ _ _ _ _ (Eask _ _ _)).
    rewrite (tx_bind_ret _ _ s (a, tx_packet e) s) by (unfold in_switch; rewrite (on_ret _ _ _ _ _ (packet_to_destination _ _ Hb)); by destruct s).
    rewrite (tx_bind_ret _ _ s (Some p) (with_switch (with_world w1 (tx_switch s)) s)).
    2:{ unfold in_switch, call. fold (now_world s). rewrite (surjective_pairing (getPeer W Peer Path Esw a (now_world s))), Hp. done. }
    rewrite (tx_bind_ret _ _ _ _ _ Eroute), (tx_bind_ret _ _ _ b (with_switch sw s)); [done|].
    unfold in_switch. cbn [tx_switch with_switch]. by rewrite Et.
  - intros l sw3 Hl. by apply (flushed_cons a (tx_switch s) e l p path b sw sw3).
Qed.

Lemma runs_flush n a rest kept s : sw_ok I (tx_switch s) → reachable_peer a → knows E a (now_world s) →
  Forall (λ e, packet_to (tx_packet e) (tx_dest e)) rest → txQueue s = kept ++ rest →
  runs (tx_loop (λ e, if tx_dest e =? a then trySend Cipher Auth E (S n) (tx_packet e) (tx_encrypt e) else mret false) kept rest) s
    (λ _ s', txQueue s' = kept ++ filter (λ e, tx_dest e ≠ a) rest ∧ whois s' = whois s ∧ held s' = held s
             ∧ flushed a (tx_switch s) (filter (λ e, tx_dest e = a) rest) (tx_switch s')).
Proof.
  intros Hs Hr. revert kept s Hs. induction rest as [|e rest IH]; intros kept s Hs Hk Hp Hq; cbn [tx_loop].
  { apply runs_ret. split_and!; [done..|constructor]. }
  apply Forall_cons in Hp as [He Hp]. apply runs_bind. destruct (Z.eqb_spec (tx_dest e) a) as [Hd|Hd].
  - rewrite Hd in He. destruct (trySend_flush n a e s Hs Hr He Hk) as (sw & Et & Hs1 & Hk1 & Hf).
    exists true, (with_switch sw s). split; [done|]. apply runs_bind, runs_put_queue. rewrite filter_cons_False, filter_cons_True by naive_solver.
    eapply runs_weaken; [by apply (IH kept (TxState sw (whois s) (kept ++ rest) (held s)))|]. intros [] s' (Hq' & Hw' & Hh' & Hfl). split_and!; [done..|by apply Hf].
  - apply runs_ret. rewrite filter_cons_True, filter_cons_False by done.
    eapply runs_weaken; [by apply (IH (kept ++ [e])); [| | |rewrite <- app_assoc]|]. intros [] s' (Hq' & Hw' & Hh' & Hfl).
    split_and!; [by rewrite <- app_assoc in Hq'|done..].
Qed.
End sending.

(** ** Properties *)

Section properties.
Context {L P : Type} (Cipher : Salsa) (Auth : Poly L P).
Context {W Peer Path : Type} (E : TxEnv W Peer Path) (I : W → Prop).

(** What happens to the sending side of a switch: packets are sent, peers looked up or learned, timers run, and
    the rest of the node and the receiving side do whatever they do without forgetting a peer. *)
Inductive tx_step (fuel : nat) : tx_state W Path → tx_state W Path → Prop :=
  | step_send b a enc s s' : packet_to b a → tx_send Cipher Auth E fuel b enc s = Ok (Ret tt, s') → tx_step fuel s s'
  | step_whois a s s' : requestWhois Cipher Auth E fuel a s = Ok (Ret tt, s') → tx_step fuel s s'
  | step_peer p s s' : knows E (peer_address W Peer Path (tx_env W Peer Path E) p) (now_world s) →
      doAnythingWaitingForPeer Cipher Auth E fuel p s = Ok (Ret tt, s') → tx_step fuel s s'
  | step_timer now d s s' : now ≠ 0 → doTimerTasks Cipher Auth E fuel now s = Ok (Ret d, s') → tx_step fuel s s'
  | step_node s sw : sw_ok I sw → grows E (now_world s) (world sw) → tx_step fuel s (with_switch sw s).

Definition tx_start (sw : state W Path) : tx_state W Path := TxState sw ∅ [] [].

(** The timers at the times [ts]. *)
Fixpoint timer_runs (fuel : nat) (ts : list Z) (s : tx_state W Path) : cres (tx_state W Path) :=
  match ts with
  | [] => Ok s
  | now :: ts' => '(_, s') ← doTimerTasks Cipher Auth E fuel now s; timer_runs fuel ts' s'
  end.

(** At least the delay between two of them. *)
Fixpoint spaced (t : Z) (ts : list Z) : Prop :=
  match ts with
  | [] => True
  | now :: ts' => t + ZT_WHOIS_RETRY_DELAY <= now < 2 ^ 64 ∧ spaced now ts'
  end.
End properties.

Lemma runs_result {W Path A} (m : tx W Path A) s Φ o s' : runs m s Φ → m s = Ok (o, s') → ∃ a, o = Ret a ∧ Φ a s'.
Proof. intros (a & s1 & Em & H) Em'. rewrite Em in Em'. injection Em' as <- <-. by exists a. Qed.

Lemma tx_step_inv {L P W Peer Path : Type} (Cipher : Salsa) (Auth : Poly L P) (E : TxEnv W Peer Path) (I : W → Prop) n s s' :
  StreamCipher Cipher → Authenticator Auth → tx_env_ok E I → tx_inv E I s → tx_step Cipher Auth E I (S (S n)) s s' → tx_inv E I s'.
Proof.
  intros HC HA HE Hi Hst. destruct Hst as [b a enc s s' Hb Hop|a s s' Hop|p s s' Hk Hop|now d s s' Hnow Hop|s sw Hsw Hg].
  - by destruct (runs_result _ _ _ _ _ (runs_send Cipher Auth HC HA E I HE n b a enc s Hi Hb) Hop) as (? & _ & ?).
  - pose proof Hi as [Hs Hw Hq Hh].
    destruct (runs_result _ _ _ _ _ (runs_requestWhois Cipher Auth HC HA E I HE (S n) a s Hs Hw ltac:(rewrite Hh; apply not_elem_of_nil)
      ltac:(right; rewrite Hh; apply not_elem_of_nil)) Hop) as (? & _ & ?). by eapply tx_inv_asked.
  - by destruct (runs_result _ _ _ _ _ (runs_peer Cipher Auth HC HA E I HE n p s Hi Hk) Hop) as (? & _ & ? & _).
  - by destruct (runs_result _ _ _ _ _ (runs_timer Cipher Auth HC HA E I HE n now s Hnow Hi) Hop) as (? & _ & ? & _).
  - eapply tx_inv_quiet; [exact Hi|]. split_and!; done.
Qed.


(** A request that is gone stays away, one that is due is repeated or given up. *)
Lemma timer_runs_gone {L P W Peer Path : Type} (Cipher : Salsa) (Auth : Poly L P) (E : TxEnv W Peer Path) (I : W → Prop) n a t ts s :
  StreamCipher Cipher → Authenticator Auth → tx_env_ok E I → 0 < t → spaced t ts → tx_inv E I s → unwaited E a s → whois s !! a = None →
  ∃ s', timer_runs Cipher Auth E (S (S n)) ts s = Ok s' ∧ tx_inv E I s' ∧ whois s' !! a = None.
Proof.
  intros HC HA HE. revert t s. induction ts as [|now ts IH]; intros t s Ht Hsp Hi Hu Hw; [by exists s|]. destruct Hsp as [Hnow Hsp].
  unfold ZT_WHOIS_RETRY_DELAY in Hnow. destruct (runs_timer_request Cipher Auth HC HA E I HE n now a s ltac:(lia) Hi Hu) as (d & s' & Et & Hi' & Hr & Hu').
  rewrite Hw in Hr. cbn [timer_runs]. rewrite Et. apply (IH now); done || lia.
Qed.


(** C15: learning of a peer sends what waited for it.  When [doAnythingWaitingForPeer] runs for a peer with a live path,
    every packet in the transmit queue for this peer is handed to the path, in the order in which they were queued, and
    leaves the queue; the packets for other peers stay in their order, and the request for the
    peer's identity is withdrawn. *)
Theorem waiting_packets_sent {L P W Peer Path : Type} (Cipher : Salsa) (Auth : Poly L P) (E : TxEnv W Peer Path) (I : W → Prop)
    (n : nat) (p : Peer) (s : tx_state W Path) :
  let a := peer_address W Peer Path (tx_env W Peer Path E) p in
  StreamCipher Cipher → Authenticator Auth → tx_env_ok E I → tx_inv E I s → knows E a (now_world s) → reachable_peer E I a →
  ∃ sw s', decode_waiting E ZT_RX_QUEUE_SIZE (tx_switch s) = Ok (Ret tt, sw)
    ∧ doAnythingWaitingForPeer Cipher Auth E (S n) p s = Ok (Ret tt, s')
    ∧ flushed Cipher Auth E a sw (filter (λ e, tx_dest e = a) (txQueue s)) (tx_switch s')
    ∧ txQueue s' = filter (λ e, tx_dest e ≠ a) (txQueue s) ∧ whois s' = delete a (whois s) ∧ held s' = [].
Proof.
  intros a HC HA HE [Hs Hw Hq Hh] Hk Hr.
  destruct (sw_safe_decode_waiting E I HE False (λ z, knows E z (now_world s)) ZT_RX_QUEUE_SIZE ltac:(done) _ (proj1 (sw_ok_kept E I _) Hs))
    as ([[]|] & sw & Ed & (Hq2 & Hu2 & Hi2 & Hk2) & HT); [|done].
  assert (runs (doAnythingWaitingForPeer Cipher Auth E (S n) p) s (λ _ s',
    flushed Cipher Auth E a sw (filter (λ e, tx_dest e = a) (txQueue s)) (tx_switch s')
    ∧ txQueue s' = filter (λ e, tx_dest e ≠ a) (txQueue s) ∧ whois s' = delete a (whois s) ∧ held s' = [])) as ([] & s' & Eop & H).
  - apply runs_bind, runs_locked; [rewrite Hh; apply not_elem_of_nil|]. apply runs_bind, runs_get_whois, runs_put_whois.
    apply runs_bind, runs_locked; [cbn; rewrite Hh; apply not_elem_of_nil|].
    eexists tt, _. split; [unfold in_switch; cbn [tx_switch with_held]; rewrite Ed; reflexivity|].
    apply runs_locked; [cbn; rewrite Hh; apply not_elem_of_nil|]. apply runs_bind, runs_get_queue. cbn [txQueue with_held].
    eapply runs_weaken; [apply (runs_flush Cipher Auth HC HA E I HE n a (txQueue s) []); [by split|done|by apply Hk2| |done]|].
    + eapply Forall_impl; [exact Hq|]. by intros e [? _].
    + intros [] s3 (Hq3 & Hw3 & Hh3 & Hf). by split_and!.
  - by exists sw, s'.
Qed.

(** ** A concrete environment *)

(** The node knows its upstream, the peer 1, and no other. *)
Definition demo_tx (me : Z) : TxEnv (list bytes) unit unit :=
  Build_TxEnv _ _ _ (demo_for (λ a, a =? 1) me) (λ _, 7) (λ _ w, w) (λ _ _, true) (λ _ _ _ _, Some tt)
    (λ _ _ w, w) (λ _ _ _ _ w, w) (λ _ _ _, true) (λ _ _, 0) (λ _ _, 0) (λ _ _ w, w) (λ l, l) (λ l, l).

Lemma demo_knows me K w w' : kept (demo_tx me) (Forall bytes_ok) K w → Forall bytes_ok w' → kept (demo_tx me) (Forall bytes_ok) K w'.
Proof. intros [_ Hk] Hw. split; [done|]. intros a Ha. exact (Hk a Ha). Qed.

Lemma demo_tx_ok me : tx_env_ok (demo_tx me) (Forall bytes_ok).
Proof.
  split; try done.
  - intros K. destruct (demo_env (λ a, a =? 1) me). split; try done.
    + intros w Hw. split; [by apply (eo_random w), Hw|done].
    + intros p d now w Hd Hl Hw. eapply demo_knows; [done|by apply eo_path_send, Hw].
    + intros p d now force w Hd Hl Hw. eapply demo_knows; [done|by apply eo_sendDirect, Hw].
    + intros b enc w Hb Hw. eapply demo_knows; [done|by apply eo_send, Hw].
    + intros p now w Hw. by apply (eo_rendezvous p now w), Hw.
    + intros p w Hp Hw. destruct (eo_tryDecode p w Hp (proj1 Hw)) as [? ?]. split; [done|by eapply demo_knows].
  - intros l b w p _ _. split; [by exists tt|by vm_compute].
Qed.

Lemma demo_sw_ok : sw_ok (Forall bytes_ok) demo_state.
Proof. split; [exact demo_queue|]. split; [apply map_Forall_empty|constructor]. Qed.

(** A packet of 28 bytes from the node 9 to the node [a]. *)
Definition demo_bytes (a : Z) : bytes := pkt (memset 8 0) (be_bytes 5 a ++ be_bytes 5 9) 0 (memset 8 0) [0].

Lemma demo_pkt_ok a : pkt_ok (memset 8 0) (be_bytes 5 a ++ be_bytes 5 9) (memset 8 0).
Proof. split; [done| |done]. rewrite zlen_app. unfold zlen. by rewrite !length_be_bytes. Qed.

Lemma demo_packet_to a : 0 <= a < 2 ^ 40 → packet_to (padded (demo_bytes a)) a.
Proof.
  intros Ha. split; [done|]. exists (memset 8 0), 9, 0, (memset 8 0), 0, []. split; [|apply demo_pkt_ok]. apply padded_holds.
  - unfold demo_bytes, pkt. apply Forall_app_2; [by apply Forall_replicate|]. apply Forall_app_2; [apply Forall_app_2; apply be_bytes_ok|].
    bytes_compute.
  - unfold demo_bytes. by rewrite (zlen_pkt _ _ _ _ _ (demo_pkt_ok a)).
Qed.

(** A packet waits for the node 2 and one for the peer 1, while both are asked for. *)
Definition demo_waiting : tx_state (list bytes) unit :=
  TxState demo_state {[1 := Whois 7 [0; 0; 0; 0] 0; 2 := Whois 7 [0; 0; 0; 0] 0]}
    [TX 2 7 (padded (demo_bytes 2)) true; TX 1 7 (padded (demo_bytes 1)) true] [].

Lemma demo_waiting_inv : tx_inv (demo_tx 9) (Forall bytes_ok) demo_waiting.
Proof.
  split; [exact demo_sw_ok| | |done].
  - apply map_Forall_insert_2; [by split|]. apply map_Forall_insert_2; [by split|apply map_Forall_empty].
  - constructor; [|constructor; [|constructor]]; (split; [by apply demo_packet_to|]).
    + right. by eexists.
    + left. by exists tt.
Qed.



Lemma waiting_packets_sent_witness :
  ∃ s', doAnythingWaitingForPeer sse poly64 (demo_tx 9) 1 tt demo_waiting = Ok (Ret tt, s')
    ∧ txQueue s' = [TX 2 7 (padded (demo_bytes 2)) true] ∧ held s' = [].
Proof.
  destruct (waiting_packets_sent sse poly64 (demo_tx 9) (Forall bytes_ok) 0 tt demo_waiting sse_cipher poly64_authenticator (demo_tx_ok 9)
    demo_waiting_inv) as (sw & s' & _ & E & _ & Hq & _ & Hh).
  - by exists tt.
  - intros w now p _ _. by exists tt.
  - exact (ex_intro _ s' (conj E (conj Hq Hh))).
Defined.
